(* ===== verification/_CoqProject ===== *)
-Q . S2P
Prelude.v
Text.v
SerdeJson.v
JsonReference.v
DomainMoney.v
DomainIdentifier.v
DomainAccount.v
DomainCredential.v
DomainEquipment.v
DomainTransaction.v
DomainEvents.v
FareEnginePolicy.v
FareEngineTransfer.v
FareEngineCap.v
FareEngineProduct.v
FareEngineEvaluation.v
FareEngineOffline.v
DeviceProtocolValues.v
DeviceProtocolSynchronization.v
DeviceProtocolFingerprint.v
MessageFormats.v
PersistenceSql.v
PersistenceSqlLogic.v
PersistenceColumns.v
PersistenceReaderStore.v
PersistenceReaderIdentity.v
PersistenceReaderQueue.v
PersistenceReaderSync.v
PersistenceReaderAcknowledgement.v
PersistenceReaderApplication.v
PersistenceReaderInvariant.v
PersistenceReaderHistory.v
PersistenceReaderExample.v
PersistenceReaderDurability.v
PersistenceReaderHealth.v
PersistenceReaderRequest.v
PersistenceReaderSettlement.v
PersistenceReaderProgress.v
PersistenceConfiguration.v
PersistenceCodec.v
PersistenceIngestRecord.v
PersistenceIngestTables.v
PersistenceIngestStore.v
PersistenceIngestLogic.v
PersistenceIngestRefinement.v
PersistenceIngestCorrectness.v
PersistenceIngestHistory.v
PersistenceIngestFit.v
ApiSynchronizationService.v
ApiServiceCorrectness.v
BackendExample.v
Telemetry.v
HttpMessages.v
ApiHandlers.v
ReaderSimulator.v
ReaderScenario.v
ReaderScenarioCorrectness.v
ReaderTransport.v
ReaderSubmission.v
System.v
SystemCorrectness.v
SystemExchange.v
SystemExample.v
ApplicationPorts.v
ApplicationMemory.v
ApplicationUseCases.v
ApplicationRegistry.v
ApplicationErrors.v
ApplicationCorrectness.v
PersistenceRows.v
PersistenceCoreTables.v
PersistenceRowLogic.v
PersistenceCoreStore.v
PersistenceSession.v
PersistenceTransaction.v
PersistenceRepositories.v
PersistenceTransactionLaws.v
PersistenceBackendCorrectness.v
PersistenceUnitOfWork.v
PersistenceBackendExample.v
