(* ===== verification/Prelude.v ===== *)
(** * TransitGuard, verified

    TransitGuard is a transit-fare platform: readers decide fares (also
    without a connection), queue their transactions and submit them to a
    backend in batches; the backend keeps accounts, credentials and equipment,
    stores each batch once, and records what happens as domain events.  This
    library models the crates that hold its rules, the reader's and the
    backend's side of the synchronization down to their SQL statements and
    HTTP messages, and proves what they promise.

    ** Parts and how they interact

    - [crates/domain]: value objects and the four aggregates with their
      lifecycles.  Everything else is written in its types.
    - [crates/fare-engine]: a pure pipeline from a journey to a fare decision
      (surcharge, eligibility, transfer, caps, product, balance), and its
      offline wrapper.
    - [crates/device-protocol]: the messages between reader and backend, their
      validation, and the fingerprints that make retries recognisable.
    - [crates/application]: the use cases, which load an aggregate in a
      transaction, call its methods, and store it with the event.
    - [crates/persistence], reader side: a SQLite database with the queue of
      transactions, the batches, and the acknowledgements.
    - [crates/persistence], backend side: the PostgreSQL tables of received
      batches and the repository that stores a batch or recognises it; the
      tables of accounts, credentials, equipment and events, with the
      repositories and transactions that the use cases run on.
    - [apps/api]: the service and the HTTP handlers on that repository, with
      the counters of [crates/telemetry].
    - [apps/reader-simulator]: the HTTP client and the submission of a batch,
      which calls the reader's store before and after the exchange; a
      simulated reader that decides fares, and scenarios for it.

    ** Files

    Shared:
    - [Prelude]: [Result], the state-and-error monad [Mut] (a Rust
      [&mut self] method is a [Mut] action on the struct), machine integers
      with their wrapping and checked operations, the class [Aggregate] with
      the generic lemmas on command histories, tactics and hints.
    - [Text]: Rust strings as lists of scalar values, UTF-8, trimming, the
      decimal output of integers.
    - [SerdeJson]: JSON values and what the derives of serde make of a struct,
      an enum, an option or a vector; the class [SerdeLaws] of what a format
      promises; the text of a JSON value is the class [JsonLibrary].
    - [JsonReference]: a printer and a parser of JSON, an instance of it.

    [crates/domain/src]:
    - [DomainMoney] (money.rs), [DomainIdentifier] (identifier.rs; the [uuid]
      crate is the class [UuidLibrary], with a concrete instance),
      [DomainAccount] (account.rs), [DomainCredential] (credential.rs),
      [DomainEquipment] (equipment.rs), [DomainTransaction] (transaction.rs),
      [DomainEvents] (event.rs).

    [crates/fare-engine/src]:
    - [FareEnginePolicy] (policy.rs), [FareEngineTransfer] (transfer.rs),
      [FareEngineCap] (cap.rs), [FareEngineProduct] (product.rs),
      [FareEngineEvaluation] (evaluation.rs), [FareEngineOffline]
      (offline.rs).

    [crates/device-protocol/src]:
    - [DeviceProtocolValues] (version.rs, presentation.rs, the texts of
      synchronization.rs),
      [DeviceProtocolSynchronization] (synchronization.rs),
      [DeviceProtocolFingerprint] (fingerprint.rs, payload_fingerprint.rs;
      [sha2] is the class [Sha256Library]).
    - [MessageFormats]: the derived and the written [Serialize] and
      [Deserialize] of the messages, of the values in them and of the payloads
      of domain events.

    Databases:
    - [PersistenceSql]: a database as its tables and a script of faults; a
      statement either runs or fails as the script says, a transaction commits
      or rolls back, and over a network the reply to a commit can be lost
      although the commit happened;
    - [PersistenceSqlLogic]: the rules to reason about such actions, from
      postconditions ([wp], [run], [leaves]) to inversion;
    - [PersistenceColumns]: what both groups of PostgreSQL tables share, the
      errors (error.rs), JSONB (the class [PostgresJson]) and the texts of
      UUIDs ([UuidTextLaws]);
    - [PersistenceConfiguration] (config.rs, postgres.rs, the configuration of
      reader_sqlite.rs).

    [crates/persistence/src], the reader's store:
    - [PersistenceReaderStore] (the tables, constraints and statements of the
      migrations under migrations/reader), [PersistenceReaderIdentity]
      (reader_sqlite.rs), [PersistenceReaderQueue] (reader_queue.rs,
      reader_queue_state.rs), [PersistenceReaderSync] (reader_sync.rs,
      reader_sync_state.rs, reader_sync_failure.rs, reader_sync_request.rs),
      [PersistenceReaderAcknowledgement] (reader_acknowledgement.rs,
      reader_protocol_acknowledgement.rs), [PersistenceReaderApplication]
      (reader_acknowledgement_application.rs);
    - [PersistenceReaderInvariant] and [PersistenceReaderHistory]: what each
      operation leaves, the invariant [store_ok], and histories of calls;
      [PersistenceReaderDurability], [PersistenceReaderRequest] and
      [PersistenceReaderSettlement]: theorems on top of them;
      [PersistenceReaderProgress]: what an acknowledgement that arrives does;
      [PersistenceReaderExample]: a reader at work;
    - [PersistenceReaderHealth] (reader_health.rs): the health report.

    [crates/persistence/src], the backend's ingest:
    - [PersistenceIngestRecord] (synchronization_ingest_record.rs), [PersistenceIngestTables] and
      [PersistenceIngestStore] (repositories/synchronization_ingest.rs with
      the constraints of the migrations);
    - [PersistenceIngestLogic]: the registry of received batches that the
      repository implements; [PersistenceIngestRefinement],
      [PersistenceIngestCorrectness], [PersistenceIngestHistory] and
      [PersistenceIngestFit]: the refinement, the invariant, and what a
      validated request is sure to fit.

    [apps/api/src] and [crates/telemetry/src]:
    - [ApiSynchronizationService] (synchronization_service.rs) and
      [ApiServiceCorrectness]; [BackendExample]: a backend at work;
    - [Telemetry] (telemetry lib.rs); [HttpMessages]: what both ends of HTTP
      share; [ApiHandlers] (lib.rs).

    [apps/reader-simulator/src]:
    - [ReaderTransport] (synchronization_transport.rs), [ReaderSubmission]
      (synchronization_submission.rs);
    - [ReaderSimulator] (lib.rs, fare_processing.rs), [ReaderScenario]
      (scenario.rs, demo.rs) and [ReaderScenarioCorrectness].

    All of it together:
    - [System]: a reader, the backend and the network between them as one
      transition system; [SystemCorrectness], [SystemExchange]: its theorems;
      [SystemExample]: a run in which a reply is lost.

    [crates/application/src]:
    - [ApplicationPorts] (error.rs, clock.rs, ports.rs, unit_of_work.rs,
      versioning.rs, use_cases/support.rs): the traits as a class of
      operations on a world, and their documented contract as the class
      [TransactionLaws], in which the commits of other transactions may
      happen at every call;
    - [ApplicationMemory]: an implementation of the ports with injected
      faults, which meets the contract;
    - [ApplicationUseCases] (use_cases/*.rs): the five credential services;
    - [ApplicationRegistry]: the abstract registry of credentials, its atomic
      steps, and the proof that the services refine them;
    - [ApplicationErrors]: what the services' errors mean;
    - [ApplicationCorrectness]: the theorems about the services.

    [crates/persistence/src], accounts, credentials, equipment and events:
    - [PersistenceCodec] (codec.rs): the texts and numbers of the columns;
      [PersistenceRows]: the rows of repositories/*.rs, from the domain and
      back; [PersistenceCoreTables]: the tables with the constraints of the
      migrations and the statements on them; [PersistenceCoreStore]: how they
      implement the store that the contract of the ports speaks of;
      [PersistenceRowLogic]: which rows encode which values;
    - [PersistenceSession]: a PostgreSQL session with its open transaction,
      faults, and the commits of other tasks before each statement;
      [PersistenceTransaction] (transaction.rs), [PersistenceRepositories]
      (repositories/*.rs);
    - [PersistenceTransactionLaws]: PostgreSQL as an instance of the ports of
      [ApplicationPorts], which satisfies their contract, so that every
      theorem about the services holds of them on the real tables;
      [PersistenceBackendCorrectness], [PersistenceUnitOfWork]: the theorems
      about the tables; [PersistenceBackendExample]: the services at work.

    ** Correspondence

    A struct is a [Record t] in a [Module] of its name, an enum an
    [Inductive t] with the source's constructors, an associated function or
    method a definition of its name in that module, a free function a
    top-level definition.  Newtypes are one-field records.  An integer is a
    [Z] whose range is a [wf] predicate; arithmetic that Rust checks returns
    an option, arithmetic that it does not check wraps ([i64_add], [i64_sub])
    and is shown never to wrap where that matters.  [?] is the bind of
    [Result], [map_err] a conversion on the way.  A [&mut self] method
    returns the struct it leaves also when it fails, so that error paths
    that modify are visible.  An [async] method of a port is a [Mut] action
    on the world, run to completion; suspension points matter only through
    what others commit meanwhile, which the contract allows at each of them.

    A table with a primary key is a finite map, one without a list; a
    statement is a function on the tables that checks the constraints of the
    migrations and yields the rows it touched; a SQL expression is the same
    expression on rows.  The reader's pool has one connection, so its
    transactions do not interleave; the ingest of the backend locks its rows
    and is serialised by its unique indexes, so that a transaction of it is
    one action.  The transactions of the use cases do interleave: between two
    statements any transactions of other tasks may commit, as long as they do
    not need a row that the open one has locked.  A crash is a transaction that fails: what it wrote is rolled
    back, and a history of calls may stop and go on anywhere.  [serde_json],
    [sqlx], [axum], [reqwest], [http] and [url] are classes whose laws state
    what the code relies on; instances of all of them run the examples.

    ** What the theorems show

    - The system: whatever is lost, repeated or fails between a reader and the
      backend, a transaction that the reader takes for acknowledged is in the
      backend, with its identity, sequence number and content
      ([acknowledged_end_to_end]); and one exchange that gets through settles
      the batch, whatever failed before ([delivered_exchange_settles]).  A
      delivered exchange over HTTP is a call of the service, errors with their
      categories included ([exchange_calls_service]); no response keeps the client reading for
      ever ([endless_response_refused]).
    - The backend: what [process] acknowledges is durable
      ([acknowledged_is_durable]), asking again returns the first answer
      ([replay_returns_original]), a valid request is acknowledged
      ([valid_request_acknowledged]); the repository refines a registry of
      batches under faults ([store_refines_registry]) and keeps its invariant
      ([ingest_store_invariant]); the health endpoint counts exactly the
      answers that were given ([health_accounts_for_answers],
      [telemetry_counts_every_report]).
    - The reader: any history of calls and faults keeps the store well formed
      ([reader_store_invariant]) and loses nothing
      ([reader_history_evolves]), each call happens as a whole or not at all
      ([reader_calls_all_or_nothing]), what was queued can be read back
      ([enqueued_transaction_durable]), a retry sends the same request
      ([retried_request_identical]), but a batch of more than 256 entries, which
      the reader can create, has none ([oversized_batch_never_submitted]); a
      batch that was marked in flight waits for its acknowledgement
      ([marked_batch_waits]), and nothing is settled without an
      acknowledgement ([acknowledged_only_by_acknowledgement]); the health
      report describes the store, count by count ([reader_health_truthful]).
    - The backend's tables: rows encode exactly the values of the domain
      ([rows_encode_values]), so that whatever the program and others did,
      every stored row reads back as a valid value
      ([stored_values_sound]); a unit of work happens as a whole or not at
      all ([unit_of_work_atomic]), a save through the pool at most once
      ([pool_saves_once]); a configuration that was accepted bounds the pool
      ([postgres_configuration_valid]).
    - The simulator: a scenario reports every tap with the decision of the
      fare engine and its sequence number ([scenario_reports_taps]), and its
      report does not depend on the identities in it
      ([reports_hide_identities]).
    - Fare engine: the staged, checked computation equals an evaluation in
      unbounded integers ([evaluate_fare_refines_quote]), accounts for every
      cent ([evaluate_fare_conserves]) and decides soundly, with a true reason
      ([evaluate_fare_decision_sound]); each stage meets its rule on every
      branch; the offline decision is the online one filtered by the limits
      ([evaluate_fare_offline_spec], [offline_approval_sound]).
    - Use cases: services are atomic under interference
      ([status_services_atomic], [issue_service_atomic],
      [replace_service_atomic]), safe to retry
      ([repeated_commands_change_nothing]), truthful in their errors
      ([service_errors_truthful]), and keep an event log from which the
      registry can be rebuilt ([event_log_replays]).
    - Device protocol: messages are exactly the well-formed batches, an
      acknowledgement that validates answers every submitted entry once,
      fingerprints identify content up to SHA-256 collisions, and what is
      written as JSON is read back, validated on the way
      ([messages_roundtrip]).
    - Domain: each command on a credential makes exactly the move of the
      lifecycle that carries its name, stays, or fails with the error that is
      true ([credential_refines_lifecycle]); terminal states are final, which
      readers are in service ([equipment_enters_service]), balances are the
      sum of their history; money adds, subtracts, negates and compares by the
      laws of the integers and never wraps ([money_arithmetic_laws]).

    ** Fuel and bounds

    [Text.dec_u64] prints with fuel 20: a [u64] has at most 20 decimal digits
    ([read_dec_u64] shows the output reads back).  The
    remaining recursion of the model is structural.  Attempt counters are [u32] in the
    code and [INTEGER] in SQLite; the model keeps the code's conversion and
    its error.  The counters of the telemetry wrap at 2^64, as [fetch_add]
    does.

    [JsonReference.parse_value] takes the length of the text as its fuel, which
    is enough for whatever the printer makes ([parse_json_print]).

    ** What the libraries are assumed to do

    - [JsonLaws]: what [serde_json] prints it parses, as the same kind of
      value.  [WireLaws]: a body made of a value without fractional numbers
      and repeated names is read as that value, and [axum]'s extractor decodes
      a body as [from_slice] does, under its limits.  [MessageLaws]: a JSONB
      column keeps a value up to the order of its members.  [EventJsonLaws]:
      so does the column of the payloads.
    - [endless_response_refused] speaks of a response whose chunks have at
      least a byte each: the client is built without HTTP/2, and over HTTP/1.1
      an empty chunk ends the body.
    - [UuidLaws], [UuidTextLaws]: identifiers survive their text.
      [Sha256Laws]: a digest has 32 bytes.  [HttpLaws]: a header that was set
      can be read.
    - What [acknowledged_end_to_end] needs of the data is in its statement:
      SHA-256 tells the submitted requests apart ([distinct_requests]), and
      the queued envelopes are in a form that printing and parsing keeps
      ([stable_queue], which fractional numbers can break).
    - [delivered_exchange_settles] needs clocks: the time of the application is
      not before the last change of the rows it settles ([waiting]), which is
      the condition of the code's own updates; and no earlier acknowledgement
      of the batch that was stored but not applied.

    ** Not modelled

    SHA-256, uuid and the text of JSON values (classes with laws), the JSON
    text of the provisional decision in the reader's queue (the column holds
    the decision), boxed error sources (never inspected), [generate]
    of identifiers (a value supplied by the world), logging, what sqlx does
    with the connection options and the migrations, the entry points of the
    processes (main.rs of the API, the simulator and the worker, which only
    read the environment and start tasks), and the crates that are stubs.
    The repository traits outside a transaction are implemented over the pool
    ([PersistenceRepositories]) but no use case calls them. *)

From stdpp Require Export base gmap sets list strings.
From Stdlib Require Export ZArith Lia.

#[export] Set Default Proof Using "Type".
#[export] Set Warnings "-clear-no-such-hyp".
#[global] Open Scope Z_scope.

(** ** [Result]: Rust's [Result<A, E>]

    The error type comes first, so that [Result E] is a monad.  The [?]
    operator is stdpp's [x ← m; k]; a conversion of the error on the way
    ([map_err], or the [From] implementation that [?] inserts) is [map_err]. *)
Inductive Result (E A : Type) : Type :=
| Ok (a : A)
| Err (e : E).

Arguments Ok {E A} a.
Arguments Err {E A} e.

#[global] Instance Result_ret {E} : MRet (Result E) := fun A a => Ok a.

#[global] Instance Result_bind {E} : MBind (Result E) := fun A B f m =>
  match m with
  | Ok a => f a
  | Err e => Err e
  end.

#[global] Instance Result_eq_dec {E A} `{EqDecision E, EqDecision A} :
  EqDecision (Result E A).
Proof. solve_decision. Defined.

Definition map_err {E F A} (f : E -> F) (m : Result E A) : Result F A :=
  match m with
  | Ok a => Ok a
  | Err e => Err (f e)
  end.

Definition map_ok {E A B} (f : A -> B) (m : Result E A) : Result E B :=
  match m with
  | Ok a => Ok (f a)
  | Err e => Err e
  end.

(** [Option::ok_or]. *)
Definition ok_or {E A} (o : option A) (e : E) : Result E A :=
  match o with
  | Some a => Ok a
  | None => Err e
  end.

(** [Result::ok]. *)
Definition result_ok {E A} (m : Result E A) : option A :=
  match m with
  | Ok a => Some a
  | Err _ => None
  end.

Definition is_ok {E A} (m : Result E A) : bool :=
  match m with
  | Ok _ => true
  | Err _ => false
  end.

(** [for x in xs { f(x)?; }]. *)
Fixpoint try_for_each {E A} (f : A -> Result E unit) (xs : list A) : Result E unit :=
  match xs with
  | [] => Ok tt
  | x :: xs' => _ ← f x; try_for_each f xs'
  end.

(** [into_iter().map(f).collect::<Result<Vec<_>, _>>()]. *)
Fixpoint try_map {E A B} (f : A -> Result E B) (xs : list A) : Result E (list B) :=
  match xs with
  | [] => Ok []
  | x :: xs' => y ← f x; ys ← try_map f xs'; Ok (y :: ys)
  end.

Section result_lemmas.
Context {E F A B : Type}.

Lemma Result_bind_Ok (m : Result E A) (k : A -> Result E B) b :
  (m ≫= k) = Ok b <-> exists a, m = Ok a /\ k a = Ok b.
Proof. destruct m; cbn; naive_solver. Qed.

Lemma Result_bind_Err (m : Result E A) (k : A -> Result E B) e :
  (m ≫= k) = Err e <-> m = Err e \/ exists a, m = Ok a /\ k a = Err e.
Proof. destruct m; cbn; naive_solver. Qed.

Lemma map_err_Ok (f : E -> F) (m : Result E A) a : map_err f m = Ok a <-> m = Ok a.
Proof. destruct m; cbn; naive_solver. Qed.

Lemma map_err_Err (f : E -> F) (m : Result E A) e :
  map_err f m = Err e <-> exists e0, m = Err e0 /\ e = f e0.
Proof. destruct m; cbn; naive_solver. Qed.

Lemma try_for_each_Ok (f : A -> Result E unit) xs :
  try_for_each f xs = Ok tt <-> Forall (fun x => f x = Ok tt) xs.
Proof.
  induction xs as [|x xs IH]; cbn; [by split; [constructor|]|].
  rewrite Forall_cons, <- IH. destruct (f x) as [[]|]; cbn; naive_solver.
Qed.

(** A failing loop stops at the first element that fails. *)
Lemma try_for_each_Err (f : A -> Result E unit) xs e :
  try_for_each f xs = Err e <->
  exists pre x post, xs = pre ++ x :: post /\ f x = Err e
    /\ Forall (fun y => f y = Ok tt) pre.
Proof.
  induction xs as [|x xs IH]; cbn.
  - split; [done|]. intros (pre & y & post & H & _). by destruct pre.
  - destruct (f x) as [[]|e'] eqn:Hx; cbn.
    + rewrite IH. split.
      * intros (pre & y & post & -> & Hy & Hpre). exists (x :: pre), y, post.
        split_and!; [done..|]. by constructor.
      * intros ([|z pre] & y & post & [=] & Hy & Hpre); [congruence|].
        subst. exists pre, y, post. split_and!; [done..|]. by inversion Hpre.
    + split.
      * intros [= ->]. exists [], x, xs. split_and!; [done..|constructor].
      * intros ([|z pre] & y & post & [=] & Hy & Hpre); subst; [congruence|].
        inversion Hpre. congruence.
Qed.

Lemma ok_or_Ok (o : option A) (e : E) a : ok_or o e = Ok a <-> o = Some a.
Proof. destruct o; cbn; naive_solver. Qed.

Lemma ok_or_Err (o : option A) (e e' : E) : ok_or o e = Err e' <-> o = None /\ e' = e.
Proof. destruct o; cbn; naive_solver. Qed.

End result_lemmas.

Lemma try_map_Ok {E A B} (f : A -> Result E B) xs ys :
  try_map f xs = Ok ys -> Forall2 (fun x y => f x = Ok y) xs ys.
Proof.
  revert ys. induction xs as [|x xs IH]; cbn; intros ys Hys; [by simplify_eq|].
  apply Result_bind_Ok in Hys as (y & Hy & Hys). apply Result_bind_Ok in Hys as (l & Hl & [= <-]).
  constructor; auto.
Qed.

Lemma try_map_total {E A B} (f : A -> Result E B) (xs : list A) :
  (forall x, x ∈ xs -> exists y, f x = Ok y) -> exists ys, try_map f xs = Ok ys.
Proof.
  induction xs as [|x xs IH]; intros Hf; [by exists []|]. cbn.
  destruct (Hf x) as [y ->]; [by left|]. destruct IH as [ys ->]; [|by exists (y :: ys)].
  intros x' Hx'. apply Hf. by right.
Qed.

Lemma omap_ext_in {A B} (f g : A -> option B) (l : list A) :
  (forall x, x ∈ l -> f x = g x) -> omap f l = omap g l.
Proof.
  induction l as [|x l IH]; intros Hfg; [done|]. cbn. rewrite (Hfg x) by (by left).
  rewrite IH; [done|]. intros y Hy. apply Hfg. by right.
Qed.

Lemma filter_iff_in {A} (P Q : A -> Prop) `{!forall x, Decision (P x), !forall x, Decision (Q x)} (l : list A) :
  (forall x, x ∈ l -> P x <-> Q x) -> base.filter P l = base.filter Q l.
Proof.
  induction l as [|x l IH]; intros HPQ; [done|]. rewrite !filter_cons.
  rewrite IH by (intros y Hy; apply HPQ; by right).
  pose proof (HPQ x ltac:(by left)). by repeat case_decide; try tauto.
Qed.

Lemma filter_all {A} (P : A -> Prop) `{!forall x, Decision (P x)} (l : list A) :
  (forall x, x ∈ l -> P x) -> base.filter P l = l.
Proof.
  induction l as [|x l IH]; intros HP; [done|]. rewrite filter_cons_True by (apply HP; by left).
  f_equal. apply IH. intros y Hy. apply HP. by right.
Qed.

Lemma lookup_snoc_Some' {A} (l : list A) (x y : A) i :
  (l ++ [x]) !! i = Some y -> l !! i = Some y \/ (i = length l /\ x = y).
Proof.
  intros [Hi|[Hlen Hi]]%lookup_app_Some; [by left|]. right.
  apply list_lookup_singleton_Some in Hi as [Hi ->]. split; [lia|done].
Qed.

Lemma head_fmap {A B} (f : A -> B) (l : list A) : head (f <$> l) = f <$> head l.
Proof. by destruct l. Qed.

(** ** [Mut]: methods that take [&mut self]

    A method [fn f(&mut self, ..) -> Result<A, E>] is a function of the state
    of [self] to the state it leaves and its result.  The state is threaded
    through the error path too: an early return keeps whatever was written
    before it, as in the source, so that "an error leaves the aggregate as it
    was" is something to prove and not a choice of the model. *)
Definition Mut (S E A : Type) : Type := S -> S * Result E A.

#[global] Instance Mut_ret {S E} : MRet (Mut S E) := fun A a s => (s, Ok a).

#[global] Instance Mut_bind {S E} : MBind (Mut S E) := fun A B f m s =>
  match m s with
  | (s', Ok a) => f a s'
  | (s', Err e) => (s', Err e)
  end.

Definition get {S E} : Mut S E S := fun s => (s, Ok s).
Definition put {S E} (s : S) : Mut S E unit := fun _ => (s, Ok tt).
Definition modify {S E} (f : S -> S) : Mut S E unit := fun s => (f s, Ok tt).
Definition fail {S E A} (e : E) : Mut S E A := fun s => (s, Err e).
Definition lift {S E A} (m : Result E A) : Mut S E A := fun s => (s, m).

(** A method call on a field of [self], its error converted by [h]. *)
Definition zoom {S T E F A} (view : S -> T) (set : T -> S -> S) (h : F -> E)
    (m : Mut T F A) : Mut S E A := fun s =>
  let '(t, r) := m (view s) in (set t s, map_err h r).

(** The conversion that [?] inserts. *)
Definition map_error {S E F A} (f : E -> F) (m : Mut S E A) : Mut S F A := fun s =>
  let '(s', r) := m s in (s', map_err f r).

(** The state a call leaves and the value it returns. *)
Definition after {S E A} (m : Mut S E A) (s : S) : S := (m s).1.
Definition outcome {S E A} (m : Mut S E A) (s : S) : Result E A := (m s).2.

(** ** Outcomes of an action

    [wp m Q R w]: run from [w], [m] either returns a value with [Q] or an
    error with [R]. *)
Definition wp {W E A} (m : Mut W E A) (Q : A -> W -> Prop) (R : E -> W -> Prop) (w : W) : Prop :=
  match m w with
  | (w', Ok a) => Q a w'
  | (w', Err e) => R e w'
  end.

Lemma wp_Ok {W E A} (m : Mut W E A) Q R w w' a : m w = (w', Ok a) -> wp m Q R w -> Q a w'.
Proof. unfold wp. by intros ->. Qed.

Lemma wp_Err {W E A} (m : Mut W E A) Q (P : E -> Prop) w w' e :
  m w = (w', Err e) -> wp m Q (fun e _ => P e) w -> P e.
Proof. unfold wp. by intros ->. Qed.

Section wp.
Context {W E A B : Type}.

Lemma wp_ret (a : A) (Q : A -> W -> Prop) (R : E -> W -> Prop) w :
  Q a w -> wp (mret a) Q R w.
Proof. done. Qed.

Lemma wp_bind (m : Mut W E A) (k : A -> Mut W E B) Q R w :
  wp m (fun a w' => wp (k a) Q R w') R w -> wp (m ≫= k) Q R w.
Proof. unfold wp, mbind, Mut_bind. by destruct (m w) as [w' [a|e]]. Qed.

Lemma wp_mono (m : Mut W E A) (Q Q' : A -> W -> Prop) (R R' : E -> W -> Prop) w :
  wp m Q R w -> (forall a w', Q a w' -> Q' a w') -> (forall e w', R e w' -> R' e w') ->
  wp m Q' R' w.
Proof. unfold wp. destruct (m w) as [w' [a|e]]; naive_solver. Qed.

End wp.

(** ** Machine integers

    [i64], [u64], [u16] values are [Z] with their range as a predicate; the
    checked operations return [None] out of range and the unchecked ones wrap
    (two's complement), as a release build does. *)
Definition i64_min : Z := -9223372036854775808.
Definition i64_max : Z := 9223372036854775807.
Definition u64_max : Z := 18446744073709551615.
Definition u16_max : Z := 65535.
Definition i128_min : Z := -170141183460469231731687303715884105728.
Definition i128_max : Z := 170141183460469231731687303715884105727.

Definition in_i64 (z : Z) : Prop := i64_min <= z <= i64_max.
Definition in_u64 (z : Z) : Prop := 0 <= z <= u64_max.
Definition in_u16 (z : Z) : Prop := 0 <= z <= u16_max.
Definition in_i128 (z : Z) : Prop := i128_min <= z <= i128_max.

#[global] Instance in_i64_dec z : Decision (in_i64 z).
Proof. unfold in_i64. apply _. Defined.
#[global] Instance in_u64_dec z : Decision (in_u64 z).
Proof. unfold in_u64. apply _. Defined.
#[global] Instance in_u16_dec z : Decision (in_u16 z).
Proof. unfold in_u16. apply _. Defined.
#[global] Instance in_i128_dec z : Decision (in_i128 z).
Proof. unfold in_i128. apply _. Defined.

(** [i64::try_from], and the checked operations built on it. *)
Definition i64_try_from (z : Z) : option Z := if decide (in_i64 z) then Some z else None.
Definition i64_checked_add (a b : Z) : option Z := i64_try_from (a + b).
Definition i64_checked_sub (a b : Z) : option Z := i64_try_from (a - b).
Definition i64_checked_mul (a b : Z) : option Z := i64_try_from (a * b).
Definition i64_checked_neg (a : Z) : option Z := i64_try_from (- a).
Definition u64_try_from (z : Z) : option Z := if decide (in_u64 z) then Some z else None.
Definition u64_checked_add (a b : Z) : option Z := u64_try_from (a + b).

(** Unchecked [+], [-] and [*]. *)
Definition i64_wrap (z : Z) : Z := (z - i64_min) `mod` 18446744073709551616 + i64_min.
Definition i64_add (a b : Z) : Z := i64_wrap (a + b).
Definition i64_sub (a b : Z) : Z := i64_wrap (a - b).
Definition i128_wrap (z : Z) : Z :=
  (z - i128_min) `mod` 340282366920938463463374607431768211456 + i128_min.
Definition i128_mul (a b : Z) : Z := i128_wrap (a * b).

(** [i64::unsigned_abs] and [u16::abs_diff]: both always fit their type. *)
Definition unsigned_abs (a : Z) : Z := Z.abs a.
Definition abs_diff (a b : Z) : Z := Z.abs (a - b).

Ltac unfold_ints :=
  unfold in_i64, in_u64, in_u16, in_i128, i64_min, i64_max, u64_max, u16_max,
    i128_min, i128_max, unsigned_abs, abs_diff in *.

Ltac int_lia := unfold_ints; lia.

Lemma i64_try_from_Some z a : i64_try_from z = Some a <-> in_i64 z /\ a = z.
Proof. unfold i64_try_from. case_decide; naive_solver. Qed.

Lemma i64_try_from_None z : i64_try_from z = None <-> ~ in_i64 z.
Proof. unfold i64_try_from. case_decide; naive_solver. Qed.

Lemma i64_try_from_in z : in_i64 z -> i64_try_from z = Some z.
Proof. intros. by apply i64_try_from_Some. Qed.

Lemma u64_try_from_Some z a : u64_try_from z = Some a <-> in_u64 z /\ a = z.
Proof. unfold u64_try_from. case_decide; naive_solver. Qed.

Lemma u64_try_from_None z : u64_try_from z = None <-> ~ in_u64 z.
Proof. unfold u64_try_from. case_decide; naive_solver. Qed.

(** In range, the unchecked operations are the mathematical ones. *)
Lemma i64_wrap_in z : in_i64 z -> i64_wrap z = z.
Proof. intros. unfold i64_wrap. rewrite Z.mod_small; int_lia. Qed.

Lemma i128_wrap_in z : in_i128 z -> i128_wrap z = z.
Proof. intros. unfold i128_wrap. rewrite Z.mod_small; int_lia. Qed.

(** ** Aggregates

    An aggregate of the domain is a state with commands that run as
    [&mut self] methods.  [exec] is the state a command leaves, whatever its
    result; [run] is a whole history of commands, the failed ones included. *)
Class Aggregate (S E Op : Type) := step : Op -> Mut S E unit.

Section aggregate.
Context {S E Op : Type} `{!Aggregate S E Op}.

Definition exec (s : S) (op : Op) : S := after (step op) s.
Definition run (s : S) (ops : list Op) : S := foldl exec s ops.
Definition succeeds (s : S) (op : Op) : bool := is_ok (outcome (step op) s).

(** No command that reports an error has changed the state. *)
Definition error_atomic : Prop :=
  forall op s e, outcome (step op) s = Err e -> after (step op) s = s.

(** Every command preserves [I]. *)
Definition inductive_invariant (I : S -> Prop) : Prop :=
  forall s op, I s -> I (exec s op).

Lemma run_cons s op ops : run s (op :: ops) = run (exec s op) ops.
Proof. done. Qed.

Lemma run_snoc s ops op : run s (ops ++ [op]) = exec (run s ops) op.
Proof. unfold run. by rewrite foldl_snoc. Qed.

Lemma run_invariant (I : S -> Prop) :
  inductive_invariant I -> forall ops s, I s -> I (run s ops).
Proof. intros HI ops. induction ops as [|op ops IH]; intros s Hs; [done|]. apply IH, HI, Hs. Qed.

(** A relation to the starting state that every step extends holds along a run. *)
Lemma run_relation (R : S -> S -> Prop) :
  (forall s, R s s) -> (forall s s' op, R s s' -> R s (exec s' op)) ->
  forall ops s, R s (run s ops).
Proof.
  intros Hrefl Hstep ops. induction ops as [|op ops IH] using rev_ind; intros s; [apply Hrefl|].
  rewrite run_snoc. apply Hstep, IH.
Qed.

End aggregate.

Arguments error_atomic S E Op {_}.
Arguments inductive_invariant S E Op {_} I.

(** ** Automation

    [mut_simpl] runs the state-and-error monad; [result_inv] takes apart the
    hypotheses [... = Ok _] and [... = Err _] of a chain of [?]. *)
Ltac mut_unfold :=
  unfold after, outcome, mbind, Mut_bind, get, put, modify, fail, lift, zoom,
    mret, Mut_ret in *.

Ltac mut_simpl := mut_unfold; cbn in *.

Ltac result_inv_step :=
  match goal with
  | H : Ok _ = Ok _ |- _ => injection H as H; try subst
  | H : Err _ = Err _ |- _ => injection H as H; try subst
  | H : Ok _ = Err _ |- _ => discriminate H
  | H : Err _ = Ok _ |- _ => discriminate H
  | H : (_ ≫= _) = Ok _ |- _ => apply Result_bind_Ok in H as (? & ? & ?)
  | H : map_err _ _ = Ok _ |- _ => apply map_err_Ok in H
  | H : ok_or _ _ = Ok _ |- _ => apply ok_or_Ok in H
  | H : ok_or _ _ = Err _ |- _ => apply ok_or_Err in H as [? ?]
  | H : map_err _ _ = Err _ |- _ => apply map_err_Err in H as (? & ? & ?)
  | H : i64_try_from _ = Some _ |- _ => apply i64_try_from_Some in H as [? ?]
  | H : u64_try_from _ = Some _ |- _ => apply u64_try_from_Some in H as [? ?]
  | H : (if ?b then _ else _) = Ok _ |- _ => destruct b eqn:?
  end.

Ltac result_inv := repeat (result_inv_step; cbn beta iota in *).

Create HintDb transit.
