(* ===== verification/Text.v ===== *)
(** * Rust text: [char], [str], UTF-8 and the decimal output of integers

    Standard-library behaviour the crates rely on: [str::len], [as_bytes],
    [trim], [char::is_control], and the [Display] output of unsigned
    integers.  A [char] is its Unicode scalar value and a [str] the list of
    its characters; the bytes of a [str] are its UTF-8 encoding. *)

From S2P Require Import Prelude.
From Stdlib Require Import Ascii String.

Abbreviation Char := Z (only parsing).
Abbreviation Str := (list Z) (only parsing).

Definition in_scalar (c : Char) : Prop := 0 <= c < 55296 \/ 57344 <= c < 1114112.

#[global] Instance in_scalar_dec c : Decision (in_scalar c).
Proof. unfold in_scalar. apply _. Defined.

(** A Rust [str] holds only scalar values. *)
Definition str_wf (s : Str) : Prop := Forall in_scalar s.

(** A string literal of the source (ASCII). *)
Definition lit (s : string) : Str := (fun a => Z.of_N (N_of_ascii a)) <$> list_ascii_of_string s.

Definition utf8_char (c : Char) : list Z :=
  if c <? 128 then [c]
  else if c <? 2048 then [192 + c / 64; 128 + c `mod` 64]
  else if c <? 65536 then [224 + c / 4096; 128 + (c / 64) `mod` 64; 128 + c `mod` 64]
  else [240 + c / 262144; 128 + (c / 4096) `mod` 64; 128 + (c / 64) `mod` 64; 128 + c `mod` 64].

(** [str::as_bytes] and [str::len]. *)
Definition as_bytes (s : Str) : list Z := s ≫= utf8_char.
Definition str_len (s : Str) : Z := Z.of_nat (List.length (as_bytes s)).

(** [char::is_whitespace]: the Unicode property White_Space. *)
Definition is_whitespace (c : Char) : bool :=
  ((9 <=? c) && (c <=? 13)) || (c =? 32) || (c =? 133) || (c =? 160) || (c =? 5760)
  || ((8192 <=? c) && (c <=? 8202)) || (c =? 8232) || (c =? 8233) || (c =? 8239)
  || (c =? 8287) || (c =? 12288).

(** [char::is_control]: the general category Cc. *)
Definition is_control (c : Char) : bool :=
  ((0 <=? c) && (c <=? 31)) || ((127 <=? c) && (c <=? 159)).

Fixpoint trim_start (s : Str) : Str :=
  match s with
  | [] => []
  | c :: s' => if is_whitespace c then trim_start s' else s
  end.

Definition trim_end (s : Str) : Str := reverse (trim_start (reverse s)).

(** [str::trim]. *)
Definition trim (s : Str) : Str := trim_end (trim_start s).

(** ** UTF-8 is prefix free, so [as_bytes] loses nothing *)

Definition utf8_decode_char (bs : list Z) : option (Char * list Z) :=
  match bs with
  | b0 :: r0 =>
      if b0 <? 128 then Some (b0, r0)
      else match r0 with
      | b1 :: r1 =>
          if b0 <? 224 then Some ((b0 - 192) * 64 + (b1 - 128), r1)
          else match r1 with
          | b2 :: r2 =>
              if b0 <? 240 then
                Some ((b0 - 224) * 4096 + (b1 - 128) * 64 + (b2 - 128), r2)
              else match r2 with
              | b3 :: r3 =>
                  Some ((b0 - 240) * 262144 + (b1 - 128) * 4096
                        + (b2 - 128) * 64 + (b3 - 128), r3)
              | [] => None
              end
          | [] => None
          end
      | [] => None
      end
  | [] => None
  end.

Ltac ltb_cases :=
  repeat match goal with
  | |- context [?a <? ?b] => destruct (Z.ltb_spec a b)
  end.

Ltac utf8_case :=
  cbn -[Z.div Z.modulo Z.mul Z.ltb]; ltb_cases;
  first [ do 2 f_equal; Z.div_mod_to_equations; lia
        | exfalso; Z.div_mod_to_equations; lia ].

Lemma utf8_decode_char_app c rest :
  in_scalar c -> utf8_decode_char (utf8_char c ++ rest) = Some (c, rest).
Proof.
  intros Hc. assert (0 <= c < 1114112) by (destruct Hc; lia). unfold utf8_char.
  destruct (Z.ltb_spec c 128); [utf8_case|].
  destruct (Z.ltb_spec c 2048); [utf8_case|].
  destruct (Z.ltb_spec c 65536); utf8_case.
Qed.

Lemma utf8_char_nonempty c : utf8_char c <> [].
Proof. unfold utf8_char. by repeat case_match. Qed.

Lemma as_bytes_cons c s : as_bytes (c :: s) = utf8_char c ++ as_bytes s.
Proof. done. Qed.

Lemma as_bytes_inj s1 s2 :
  str_wf s1 -> str_wf s2 -> as_bytes s1 = as_bytes s2 -> s1 = s2.
Proof.
  intros H1. revert s2. induction H1 as [|c1 s1 Hc1 _ IH]; intros s2 H2 Heq.
  - destruct s2 as [|c s2]; [done|]. rewrite as_bytes_cons in Heq.
    symmetry in Heq. apply app_eq_nil in Heq as [Heq _]. by apply utf8_char_nonempty in Heq.
  - destruct H2 as [|c2 s2 Hc2 H2].
    + rewrite as_bytes_cons in Heq. apply app_eq_nil in Heq as [Heq _].
      by apply utf8_char_nonempty in Heq.
    + rewrite !as_bytes_cons in Heq.
      apply (f_equal utf8_decode_char) in Heq.
      rewrite !utf8_decode_char_app in Heq by done. simplify_eq.
      f_equal. by apply IH.
Qed.

Lemma lit_wf s : str_wf (lit s).
Proof.
  unfold str_wf, lit. apply Forall_fmap. apply Forall_true. intros a. left. cbn.
  pose proof (N_ascii_bounded a). lia.
Qed.

(** ** Trimming *)

Lemma trim_start_no_ws s c s' : trim_start s = c :: s' -> is_whitespace c = false.
Proof. induction s as [|d s IH]; cbn; [done|]. case_match; naive_solver. Qed.

Lemma trim_start_suffix s : trim_start s `suffix_of` s.
Proof.
  induction s as [|d s IH]; cbn; [done|]. case_match; [|done]. by apply suffix_cons_r.
Qed.

Lemma trim_start_id c s : is_whitespace c = false -> trim_start (c :: s) = c :: s.
Proof. cbn. by intros ->. Qed.

Lemma trim_end_snoc s c : is_whitespace c = false -> trim_end (s ++ [c]) = s ++ [c].
Proof.
  intros Hc. unfold trim_end. rewrite reverse_snoc, trim_start_id by done.
  by rewrite reverse_cons, reverse_involutive.
Qed.

Lemma trim_end_prefix s : trim_end s `prefix_of` s.
Proof.
  unfold trim_end. destruct (trim_start_suffix (reverse s)) as [k Hk].
  exists (reverse k). by rewrite <- reverse_app, <- Hk, reverse_involutive.
Qed.

Lemma trim_end_last s t c : trim_end s = t ++ [c] -> is_whitespace c = false.
Proof.
  unfold trim_end. intros H. apply (f_equal reverse) in H.
  rewrite reverse_involutive, reverse_snoc in H. by eapply trim_start_no_ws.
Qed.

Lemma trim_idemp s : trim (trim s) = trim s.
Proof.
  destruct (trim s) as [|c t] eqn:E; [done|].
  assert (Hc : is_whitespace c = false).
  { unfold trim in E. destruct (trim_end_prefix (trim_start s)) as [k Hk].
    rewrite E in Hk. eapply trim_start_no_ws. by rewrite Hk. }
  unfold trim at 1. rewrite trim_start_id by done.
  destruct (exists_last (l := c :: t)) as (u & d & Hu); [done|].
  rewrite Hu in E |- *. apply trim_end_snoc. unfold trim in E. by eapply trim_end_last.
Qed.

(** ** Decimal output of unsigned integers *)

Fixpoint dec_fuel (fuel : nat) (n : Z) : Str :=
  match fuel with
  | O => []
  | S fuel' =>
      if n <? 10 then [48 + n] else dec_fuel fuel' (n / 10) ++ [48 + n `mod` 10]
  end.

(** [Display] of a [u64]; twenty digits are enough for [u64::MAX]. *)
Definition dec_u64 (n : Z) : Str := dec_fuel 20 n.

(** The width specifier of [{:02}]. *)
Definition pad2 (s : Str) : Str :=
  match s with
  | [d] => [48; d]
  | _ => s
  end.

Definition read_digit (acc : option Z) (c : Char) : option Z :=
  a ← acc;
  if (48 <=? c) && (c <=? 57) then Some (10 * a + (c - 48)) else None.

(** The number that a run of decimal digits denotes. *)
Definition read_dec (s : Str) : option Z := foldl read_digit (Some 0) s.

Lemma read_dec_snoc s c : read_dec (s ++ [c]) = read_digit (read_dec s) c.
Proof. unfold read_dec. by rewrite foldl_snoc. Qed.

Lemma read_digit_ok a d : 0 <= d <= 9 -> read_digit (Some a) (48 + d) = Some (10 * a + d).
Proof.
  intros. cbn. replace (48 <=? 48 + d) with true by (symmetry; apply Z.leb_le; lia).
  replace (48 + d <=? 57) with true by (symmetry; apply Z.leb_le; lia).
  cbn. f_equal. lia.
Qed.

Lemma read_dec_fuel fuel n :
  0 <= n < 10 ^ Z.of_nat fuel -> read_dec (dec_fuel fuel n) = Some n.
Proof.
  revert n. induction fuel as [|fuel IH]; intros n Hn.
  - change (10 ^ Z.of_nat 0) with 1 in Hn. cbn. f_equal. lia.
  - rewrite Nat2Z.inj_succ, Z.pow_succ_r in Hn by lia. cbn [dec_fuel].
    destruct (Z.ltb_spec n 10).
    + change [48 + n] with ([] ++ [48 + n]). rewrite read_dec_snoc.
      cbn [read_dec foldl]. rewrite read_digit_ok by lia. f_equal.
    + rewrite read_dec_snoc, IH by (Z.div_mod_to_equations; nia).
      rewrite read_digit_ok by (pose proof (Z.mod_pos_bound n 10); lia).
      f_equal. symmetry. apply Z.div_mod. lia.
Qed.

Lemma read_dec_u64 n : in_u64 n -> read_dec (dec_u64 n) = Some n.
Proof. intros. apply read_dec_fuel. change (10 ^ Z.of_nat 20) with 100000000000000000000. int_lia. Qed.

Definition is_digit (c : Char) : Prop := 48 <= c <= 57.

Lemma dec_fuel_digits fuel n : 0 <= n -> Forall is_digit (dec_fuel fuel n).
Proof.
  revert n. induction fuel as [|fuel IH]; intros n Hn; cbn; [constructor|].
  destruct (Z.ltb_spec n 10).
  - constructor; [unfold is_digit; lia | constructor].
  - apply Forall_app_2.
    + apply IH. apply Z.div_pos; lia.
    + pose proof (Z.mod_pos_bound n 10). constructor; [unfold is_digit; lia | constructor].
Qed.

Lemma dec_u64_digits n : 0 <= n -> Forall is_digit (dec_u64 n).
Proof. apply dec_fuel_digits. Qed.

Lemma pad2_digits s : Forall is_digit s -> Forall is_digit (pad2 s).
Proof.
  intros H. destruct s as [|d [|e s]]; cbn; [done| |done].
  constructor; [unfold is_digit; lia | done].
Qed.

Lemma read_dec_pad2 n : 0 <= n < 100 -> read_dec (pad2 (dec_u64 n)) = Some n.
Proof.
  intros Hn. rewrite <- (read_dec_u64 n) by int_lia.
  destruct (dec_u64 n) as [|d [|e s]]; done.
Qed.

Lemma length_dec_fuel fuel n :
  0 <= n < 100 -> (2 <= fuel)%nat -> (1 <= List.length (dec_fuel fuel n) <= 2)%nat.
Proof.
  intros Hn Hf. destruct fuel as [|[|fuel]]; [lia|lia|]. cbn [dec_fuel].
  destruct (Z.ltb_spec n 10); [cbn; lia|].
  destruct (Z.ltb_spec (n / 10) 10); [cbn; lia|]. Z.div_mod_to_equations. lia.
Qed.

(** Two-digit padding of a number below one hundred is exactly two digits. *)
Lemma length_pad2 n : 0 <= n < 100 -> List.length (pad2 (dec_u64 n)) = 2%nat.
Proof.
  intros Hn. pose proof (length_dec_fuel 20 n Hn ltac:(lia)) as H.
  unfold dec_u64. destruct (dec_fuel 20 n) as [|d [|e [|f s]]]; cbn in *; lia.
Qed.
