(* ===== verification/SerdeJson.v ===== *)
(** * JSON values and their decoding (what serde's derives do)

    A JSON value as serde_json sees it, and the documented behaviour of
    [#[derive(Serialize, Deserialize)]] on structs, unit enums, options and
    vectors: a struct is read from an object, whose unknown members are passed
    over, whose missing members fail except where they are optional and whose
    known members may not be repeated, or from an array of its fields in
    order; a unit variant is read from its name or from an object that maps
    its name to null.

    [Serde] is the interface between a type and its format; [SerdeLaws] is
    what a format promises: what was written is read back, what is read is
    valid, and reading does not depend on the order of members. *)

From S2P Require Import Prelude Text.

#[local] Set Warnings "-register-all".

Inductive Json :=
| JNull
| JBool (b : bool)
| JInteger (z : Z)
| JFloat (text : Str)
| JString (s : Str)
| JArray (values : list Json)
| JObject (members : list (Str * Json)).

Definition json_is_object (v : Json) : bool :=
  match v with
  | JObject _ => true
  | _ => false
  end.

(** [serde_json]: values from and to texts, and the error of a value that is
    not of the expected type. *)
Class JsonLibrary := {
  json_Error : Type;
  json_data_error : json_Error;
  json_from_str : Str -> Result json_Error Json;
  json_to_string : Json -> Result json_Error Str
}.

(** What was printed is parsed, as the same kind of value. *)
Class JsonLaws `{JsonLibrary} : Prop := {
  json_reads_back v text : json_to_string v = Ok text ->
    exists v', json_from_str text = Ok v' /\ json_is_object v' = json_is_object v
}.

Lemma printed_is_parsed `{JsonLaws} v text :
  json_to_string v = Ok text -> is_ok (json_from_str text) = true.
Proof. by intros (v' & -> & _)%json_reads_back. Qed.

(** The same value with the members of its objects in another order. *)
Inductive json_same : Json -> Json -> Prop :=
| same_value v : json_same v v
| same_array vs ws : Forall2 json_same vs ws -> json_same (JArray vs) (JArray ws)
| same_object ms ps ns :
    NoDup ms.*1 -> ms ≡ₚ ps -> Forall2 (fun m n => m.1 = n.1 /\ json_same m.2 n.2) ps ns ->
    json_same (JObject ms) (JObject ns).

Class Serde (A : Type) := { serialize : A -> Json; deserialize : Json -> option A }.

(** No fractional numbers, no name twice. *)
Inductive json_plain : Json -> Prop :=
| plain_null : json_plain JNull
| plain_bool b : json_plain (JBool b)
| plain_integer z : json_plain (JInteger z)
| plain_string s : json_plain (JString s)
| plain_array vs : Forall json_plain vs -> json_plain (JArray vs)
| plain_object ms : NoDup ms.*1 -> Forall (fun m => json_plain m.2) ms -> json_plain (JObject ms).

(** [serde_json::to_value] of a type whose derived [Serialize] cannot fail, and
    [serde_json::from_value]. *)
Definition json_to_value `{JsonLibrary} `{Serde A} (a : A) : Result json_Error Json := Ok (serialize a).
Definition json_from_value `{JsonLibrary} `{Serde A} (v : Json) : Result json_Error A :=
  ok_or (deserialize v) json_data_error.

(** [sent] values are read back; [received] holds of what is read. *)
Class SerdeLaws (A : Type) (sent received : A -> Prop) `{Serde A} : Prop := {
  deserialize_serialize a : sent a -> deserialize (serialize a) = Some a;
  deserialize_received v a : deserialize v = Some a -> received a;
  #[global] deserialize_proper :: Proper (json_same ==> eq) deserialize
}.

Arguments deserialize_serialize {A sent received _ _} a _.
Arguments deserialize_received {A sent received _ _} v a _.
Arguments deserialize_proper {A sent received _ _}.

(** ** Scalars *)

Definition deserialize_string (v : Json) : option Str :=
  match v with
  | JString s => Some s
  | _ => None
  end.

Definition deserialize_bool (v : Json) : option bool :=
  match v with
  | JBool b => Some b
  | _ => None
  end.

Definition deserialize_integer (fits : Z -> Prop) `{!forall z, Decision (fits z)} (v : Json)
  : option Z :=
  match v with
  | JInteger z => if decide (fits z) then Some z else None
  | _ => None
  end.

Definition serde_string : Serde Str := {| serialize := JString; deserialize := deserialize_string |}.
Definition serde_bool : Serde bool := {| serialize := JBool; deserialize := deserialize_bool |}.
Definition serde_i64 : Serde Z :=
  {| serialize := JInteger; deserialize := deserialize_integer in_i64 |}.

(** ** Options, vectors *)

#[global] Instance serde_option `{Serde A} : Serde (option A) := {|
  serialize x := match x with
                 | Some a => serialize a
                 | None => JNull
                 end;
  deserialize v := match v with
                   | JNull => Some None
                   | _ => Some <$> deserialize v
                   end
|}.

#[global] Instance serde_list `{Serde A} : Serde (list A) := {|
  serialize l := JArray (serialize <$> l);
  deserialize v := match v with
                   | JArray vs => mapM deserialize vs
                   | _ => None
                   end
|}.

(** ** Structs *)

Definition find_members (name : Str) (members : list (Str * Json)) : list Json :=
  (base.filter (fun m => m.1 = name) members).*2.

(** The values of the fields, in the order of their declaration. *)
Definition struct_fields (names : list Str) (v : Json) : option (list (option Json)) :=
  match v with
  | JObject members =>
      mapM (fun name =>
              match find_members name members with
              | [] => Some None
              | [value] => Some (Some value)
              | _ => None
              end) names
  | JArray values => if decide (length values = length names) then Some (Some <$> values) else None
  | _ => None
  end.

Definition required `{Serde A} (field : option Json) : option A :=
  value ← field; deserialize value.

Definition optional `{Serde A} (field : option Json) : option (option A) :=
  match field with
  | Some value => deserialize (A := option A) value
  | None => Some None
  end.

Definition struct_serde {A} (names : list Str) (values : A -> list Json)
    (decode : list (option Json) -> option A) : Serde A := {|
  serialize a := JObject (zip names (values a));
  deserialize v := fields ← struct_fields names v; decode fields
|}.

(** ** Enums of unit variants *)

Definition find_variant {A} (variants : list (Str * A)) (name : Str) : option A :=
  snd <$> head (base.filter (fun m => m.1 = name) variants).

Definition deserialize_variant {A} (variants : list (Str * A)) (v : Json) : option A :=
  match v with
  | JString name => find_variant variants name
  | JObject [(name, JNull)] => find_variant variants name
  | _ => None
  end.

Definition variant_serde {A} (variants : list (Str * A)) (name : A -> Str) : Serde A :=
  {| serialize a := JString (name a); deserialize := deserialize_variant variants |}.

(** An enum whose variants have contents: the one member names the variant. *)
Definition deserialize_tagged {A} (decode : Str -> Json -> option A) (v : Json) : option A :=
  match v with
  | JObject [(tag, body)] => decode tag body
  | _ => None
  end.

(** ** Newtypes: the inner value, then the constructor *)

Definition newtype_serde {A B} (inner : Json -> option B) (make : B -> option A) (write : A -> Json)
  : Serde A := {| serialize := write; deserialize v := b ← inner v; make b |}.

(** ** Laws *)

#[global] Instance json_same_reflexive : Reflexive json_same.
Proof. intros v. constructor. Qed.

Lemma json_same_string s v : json_same (JString s) v -> v = JString s.
Proof. by inversion 1. Qed.

Lemma json_same_scalar v w : json_same v w ->
  match v, w with
  | JArray vs, JArray ws => Forall2 json_same vs ws
  | JObject ms, JObject ns =>
      ms = ns \/ (NoDup ms.*1
        /\ exists ps, ms ≡ₚ ps /\ Forall2 (fun m n => m.1 = n.1 /\ json_same m.2 n.2) ps ns)
  | _, _ => v = w
  end.
Proof.
  intros Hs. inversion Hs as [x|vs ws Hv|ms ps ns Hn Hp Hf]; subst; [|done|eauto].
  destruct w; try done. by left.
Qed.

#[global] Instance string_proper : Proper (json_same ==> eq) deserialize_string.
Proof. intros v w Hs%json_same_scalar. by destruct v, w; simplify_eq. Qed.

#[global] Instance bool_proper : Proper (json_same ==> eq) deserialize_bool.
Proof. intros v w Hs%json_same_scalar. by destruct v, w; simplify_eq. Qed.

#[global] Instance integer_proper fits `{!forall z, Decision (fits z)} :
  Proper (json_same ==> eq) (deserialize_integer fits).
Proof. intros v w Hs%json_same_scalar. by destruct v, w; simplify_eq. Qed.

Lemma deserialize_integer_Some fits `{!forall z, Decision (fits z)} v z :
  deserialize_integer fits v = Some z -> fits z.
Proof. destruct v; cbn; try done. by case_decide; intros [= <-]. Qed.

Lemma deserialize_integer_fits fits `{!forall z, Decision (fits z)} z :
  fits z -> deserialize_integer fits (JInteger z) = Some z.
Proof. intros Hz. cbn. by rewrite decide_True. Qed.

Lemma serde_bool_laws : SerdeLaws bool (fun _ => True) (fun _ => True) (H := serde_bool).
Proof. by split; [|..|exact bool_proper]. Qed.

Lemma serde_i64_laws : SerdeLaws Z in_i64 in_i64 (H := serde_i64).
Proof.
  split; [apply deserialize_integer_fits|apply deserialize_integer_Some|exact (integer_proper _)].
Qed.

(** A value that is not written as null. *)
Definition not_null `{Serde A} (a : A) : Prop := serialize a <> JNull.

#[global] Instance serde_option_laws `{SerdeLaws A P Q} :
  SerdeLaws (option A) (fun x => forall a, x = Some a -> P a /\ not_null a)
    (fun x => forall a, x = Some a -> Q a).
Proof.
  split.
  - intros [a|] Ha; [|done]. cbn. destruct (Ha a eq_refl) as [HP Hn]. unfold not_null in Hn.
    destruct (serialize a) eqn:Hs; [done|..]; by rewrite <- Hs, deserialize_serialize.
  - intros v x Hv a ->. cbn in Hv. destruct v; [done|..];
      apply fmap_Some in Hv as (a' & Hv & [= <-]); by apply (deserialize_received _ _ Hv).
  - intros v w Hs. cbn. rewrite (deserialize_proper v w Hs). apply json_same_scalar in Hs.
    by destruct v, w; simplify_eq.
Qed.

#[global] Instance serde_list_laws `{SerdeLaws A P Q} :
  SerdeLaws (list A) (Forall P) (Forall Q).
Proof.
  split.
  - intros l Hl. cbn. induction Hl as [|a l Ha Hl IH]; [done|]. cbn.
    rewrite (deserialize_serialize a Ha). cbn. by rewrite IH.
  - intros v l. cbn. destruct v as [| | | | |vs|]; try done. intros Hl%mapM_Some.
    induction Hl as [|v a vs l Ha Hl IH]; constructor; [|done]. by apply (deserialize_received v).
  - intros v w Hs%json_same_scalar. cbn. destruct v, w; simplify_eq; try done.
    induction Hs as [|v w vs ws Hv Hs IH]; [done|]. cbn. by rewrite (deserialize_proper v w Hv), IH.
Qed.

(** ** Reading a struct *)

Lemma find_members_none name (members : list (Str * Json)) :
  name ∉ members.*1 -> find_members name members = [].
Proof.
  unfold find_members. induction members as [|[k v] members IH]; [done|]. intros Hin.
  rewrite fmap_cons, not_elem_of_cons in Hin. destruct Hin as [Hk Hin]. cbn in Hk.
  rewrite filter_cons_False; [by apply IH|]. cbn. congruence.
Qed.

Lemma find_members_zip names values i name value :
  NoDup names -> length names = length values ->
  names !! i = Some name -> values !! i = Some value ->
  find_members name (zip names values) = [value].
Proof.
  unfold find_members. revert values i. induction names as [|n names IH]; intros values i Hnd Hlen Hn Hv;
    [done|].
  destruct values as [|v values]; [done|]. apply NoDup_cons in Hnd as [Hnotin Hnd]. cbn [zip_with].
  rewrite filter_cons. cbn [fst]. destruct i as [|i]; cbn in Hn, Hv.
  - simplify_eq. rewrite decide_True by done. cbn. f_equal.
    apply (find_members_none name). rewrite fst_zip by (cbn in Hlen; lia). done.
  - rewrite decide_False.
    + injection Hlen as Hlen. by apply (IH _ i).
    + intros ->. apply Hnotin. by apply list_elem_of_lookup_2 in Hn.
Qed.

Lemma struct_fields_zip names values :
  NoDup names -> length names = length values ->
  struct_fields names (JObject (zip names values)) = Some (Some <$> values).
Proof.
  intros Hnd Hlen. cbn [struct_fields]. apply mapM_Some, Forall2_fmap_r, Forall2_same_length_lookup_2.
  - done.
  - intros i name value Hn Hv. by rewrite (find_members_zip _ _ _ _ _ Hnd Hlen Hn Hv).
Qed.

Definition field_same : relation (option Json) := option_Forall2 json_same.

Lemma find_members_same name ms ns :
  Forall2 (fun m n => m.1 = n.1 /\ json_same m.2 n.2) ms ns ->
  Forall2 json_same (find_members name ms) (find_members name ns).
Proof.
  unfold find_members. induction 1 as [|[k v] [k' w] ms ns [Hk Hv] Hs IH]; [constructor|].
  cbn in Hk, Hv. subst k'. rewrite !filter_cons. cbn [fst]. case_decide; [by constructor|done].
Qed.

Lemma find_members_permutation name ms ps :
  ms ≡ₚ ps -> find_members name ms ≡ₚ find_members name ps.
Proof. intros Hp. unfold find_members. by rewrite Hp. Qed.

Lemma struct_fields_same names v w :
  json_same v w ->
  option_Forall2 (Forall2 field_same) (struct_fields names v) (struct_fields names w).
Proof.
  intros Hs%json_same_scalar.
  assert (forall x, option_Forall2 (Forall2 field_same) x x) as Hrefl.
  { intros [l|]; constructor. unfold field_same. reflexivity. }
  destruct v as [| | | | |vs|ms], w as [| | | | |ws|ns]; simplify_eq; try constructor; try apply Hrefl.
  - cbn. rewrite (Forall2_length _ _ _ Hs). case_decide; constructor.
    apply Forall2_fmap. eapply Forall2_impl; [exact Hs|]. by constructor.
  - destruct Hs as [->|(Hnd & ps & Hp & Hf)]; [apply Hrefl|]. cbn.
    induction names as [|name names IH]; [by repeat constructor|]. cbn.
    pose proof (find_members_same name _ _ Hf) as Hm.
    assert (find_members name ms = find_members name ps) as Heq.
    { pose proof (find_members_permutation name _ _ Hp) as Hperm.
      assert (length (find_members name ms) <= 1)%nat as Hle.
      { clear - Hnd. unfold find_members. rewrite length_fmap.
        induction ms as [|[k x] ms IH]; [cbn; lia|]. cbn in Hnd. apply NoDup_cons in Hnd as [Hk Hnd].
        rewrite filter_cons. cbn [fst]. case_decide; [|by apply IH]. subst k. cbn [length].
        pose proof (find_members_none name ms Hk) as Hnone. unfold find_members in Hnone.
        apply fmap_nil_inv in Hnone. by rewrite Hnone. }
      destruct (find_members name ms) as [|x [|y l]]; [|..].
      - by apply Permutation_nil_l in Hperm.
      - by apply Permutation_singleton_l in Hperm.
      - cbn in Hle. lia. }
    rewrite Heq. destruct Hm as [|x y xs ys Hxy Hm]; cbn.
    + destruct IH; cbn; constructor. constructor; [constructor|done].
    + destruct Hm; cbn; [|constructor]. destruct IH; cbn; constructor.
      constructor; [by constructor|done].
Qed.

#[global] Instance required_proper `{SerdeLaws A P Q} :
  Proper (field_same ==> eq) (required (A := A)).
Proof. intros x y [v w Hs|]; [|done]. cbn. by apply deserialize_proper. Qed.

#[global] Instance optional_proper `{SerdeLaws A P Q} :
  Proper (field_same ==> eq) (optional (A := A)).
Proof. intros x y [v w Hs|]; [|done]. unfold optional. by apply deserialize_proper. Qed.

(** ** Reading a variant *)

Lemma deserialize_tagged_same {A} (decode : Str -> Json -> option A) v w :
  (forall tag x y, json_same x y -> decode tag x = decode tag y) ->
  json_same v w -> deserialize_tagged decode v = deserialize_tagged decode w.
Proof.
  intros Hd Hs%json_same_scalar. destruct v as [| | | | |vs|ms], w as [| | | | |ws|ns];
    simplify_eq; try done.
  destruct Hs as [->|(_ & ps & Hp & Hf)]; [done|].
  destruct ms as [|[k x] [|m ms]].
  - apply Permutation_nil_l in Hp as <-. by inversion Hf.
  - apply Permutation_singleton_l in Hp as <-.
    apply Forall2_cons_inv_l in Hf as ([k' y] & ns' & [Hk Hxy] & Hf & ->).
    apply Forall2_nil_inv_l in Hf as ->. cbn in Hk, Hxy. subst k'. by apply Hd.
  - pose proof (Permutation_length Hp) as Hl. rewrite (Forall2_length _ _ _ Hf) in Hl.
    by destruct ns as [|[k' y] [|n ns]].
Qed.

Lemma deserialize_variant_same {A} (variants : list (Str * A)) v w :
  json_same v w -> deserialize_variant variants v = deserialize_variant variants w.
Proof.
  intros Hs.
  pose (unit_variant tag body :=
    match body with
    | JNull => find_variant variants tag
    | _ => None
    end).
  assert (forall x, deserialize_variant variants x
    = match x with
      | JString name => find_variant variants name
      | _ => deserialize_tagged unit_variant x
      end) as Heq by (by intros [| | | | | |[|[? []] []]]).
  rewrite !Heq, (deserialize_tagged_same unit_variant v w); [| |done].
  - apply json_same_scalar in Hs. by destruct v, w; simplify_eq.
  - intros tag x y Hxy%json_same_scalar. by destruct x, y; simplify_eq.
Qed.

Lemma variant_laws {A} (variants : list (Str * A)) (name : A -> Str) :
  (forall a, find_variant variants (name a) = Some a) ->
  SerdeLaws A (fun _ => True) (fun _ => True) (H := variant_serde variants name).
Proof.
  intros Hname. split; [intros a _; apply Hname|done|]. intros v w. apply deserialize_variant_same.
Qed.

Lemma result_ok_Some {E A} (m : Result E A) a : result_ok m = Some a <-> m = Ok a.
Proof. destruct m; cbn; split; congruence. Qed.

Lemma newtype_laws {A B} (P Q : A -> Prop) (inner : Json -> option B) make write :
  Proper (json_same ==> eq) inner ->
  (forall a, P a -> exists b, inner (write a) = Some b /\ make b = Some a) ->
  (forall v b a, inner v = Some b -> make b = Some a -> Q a) ->
  SerdeLaws A P Q (H := newtype_serde inner make write).
Proof.
  intros Hinner Hwrite Hmake. split.
  - intros a (b & Hb & Ha)%Hwrite. cbn. by rewrite Hb.
  - intros v a (b & Hb & Ha)%bind_Some. by eapply Hmake.
  - intros v w Hs. cbn. by rewrite (Hinner v w Hs).
Qed.

Lemma struct_laws {A} (P Q : A -> Prop) names values decode :
  NoDup names ->
  (forall a, P a -> length names = length (values a) /\ decode (Some <$> values a) = Some a) ->
  (forall fields a, decode fields = Some a -> Q a) ->
  Proper (Forall2 field_same ==> eq) decode ->
  SerdeLaws A P Q (H := struct_serde names values decode).
Proof.
  intros Hnd Hwrite Hread Hproper. split.
  - intros a [Hlen Ha]%Hwrite. cbn -[struct_fields]. by rewrite struct_fields_zip.
  - intros v a (fields & _ & Ha)%bind_Some. by eapply Hread.
  - intros v w Hs. cbn -[struct_fields]. destruct (struct_fields_same names v w Hs); [|done].
    by apply Hproper.
Qed.

Lemma required_received `{laws : SerdeLaws A P Q} field a : required field = Some a -> Q a.
Proof. intros (v & _ & Hv)%bind_Some. by apply (deserialize_received v). Qed.

Lemma required_sent `{laws : SerdeLaws A P Q} a : P a -> required (Some (serialize a)) = Some a.
Proof. apply deserialize_serialize. Qed.

Lemma optional_received `{laws : SerdeLaws A P Q} field x :
  optional field = Some x -> forall a, x = Some a -> Q a.
Proof.
  destruct field as [v|]; cbn [optional]; [|by intros [= <-] a Ha].
  intros Hv. exact (deserialize_received (SerdeLaws := serde_option_laws) v x Hv).
Qed.

Lemma optional_sent `{laws : SerdeLaws A P Q} x :
  (forall a, x = Some a -> P a /\ not_null a) -> optional (Some (serialize x)) = Some x.
Proof. intros Hx. exact (deserialize_serialize (SerdeLaws := serde_option_laws) x Hx). Qed.

Lemma bind_same {A B} (x y : option A) (k l : A -> option B) :
  x = y -> (forall a, k a = l a) -> x ≫= k = y ≫= l.
Proof. intros <- Hk. destruct x; [apply Hk|done]. Qed.

Lemma required_sent_bind {B} `{laws : SerdeLaws A P Q} a (k : A -> option B) b :
  P a -> k a = Some b -> required (Some (serialize a)) ≫= k = Some b.
Proof. intros Ha Hk. by rewrite (required_sent a Ha). Qed.

Lemma optional_sent_bind {B} `{laws : SerdeLaws A P Q} x (k : option A -> option B) b :
  (forall a, x = Some a -> P a /\ not_null a) -> k x = Some b ->
  optional (Some (serialize x)) ≫= k = Some b.
Proof. intros Hx Hk. by rewrite (optional_sent x Hx). Qed.

(** A decoder that reads its fields one by one gets back what was written. *)
Ltac decode_sent :=
  cbn -[required optional serialize];
  repeat first [apply required_sent_bind; [done|] | apply optional_sent_bind; [try done|]].

(** What a decoder has read of its fields. *)
Ltac decode_received H :=
  repeat match type of H with
  | _ ≫= _ = Some _ =>
      let x := fresh "x" in let Hx := fresh "Hx" in
      apply bind_Some in H as (x & Hx & H);
      first [apply required_received in Hx | pose proof (optional_received _ _ Hx)]
  end.

(** A decoder of [n] fields refuses another number of them. *)
Ltac decode_fields fields :=
  repeat (destruct fields as [|? fields]; try done).

(** A decoder looks at its fields only through [required] and [optional]. *)
Ltac decode_proper :=
  let fields := fresh in let fields' := fresh in let Hs := fresh in
  intros fields fields' Hs;
  repeat (let H := fresh in destruct Hs as [|? ? ? ? H Hs]; try reflexivity);
  repeat (apply bind_same; [first [by apply required_proper|by apply optional_proper]|intros ?]);
  reflexivity.

Lemma plain_struct names values :
  NoDup names -> length names = length values -> Forall json_plain values ->
  json_plain (JObject (zip names values)).
Proof.
  intros Hnd Hlen Hv. constructor; [by rewrite fst_zip by lia|].
  apply (proj1 (Forall_fmap snd json_plain _)). by rewrite snd_zip by lia.
Qed.

(** ** Reading back exactly

    A value that is read back at all is read back unchanged, whatever values
    its types admit: what [plain] says is enough for that. *)

Class SerdeExact (A : Type) (plain : A -> Prop) `{Serde A} : Prop :=
  deserialize_exact : forall a b, plain a -> deserialize (serialize a) = Some b -> b = a.

Lemma laws_exact `{laws : SerdeLaws A P Q} : SerdeExact A P.
Proof. intros a b Ha. rewrite (deserialize_serialize a Ha). congruence. Qed.

#[global] Instance serde_option_exact `{SerdeExact A P} :
  SerdeExact (option A) (fun x => forall a, x = Some a -> P a /\ not_null a).
Proof.
  intros [a|] x Ha Hx; [|by injection Hx]. destruct (Ha a eq_refl) as [HP Hn].
  assert (Some <$> deserialize (serialize a) = Some x) as Hd.
  { unfold not_null in Hn. cbn in Hx. by destruct (serialize a). }
  apply fmap_Some in Hd as (b & Hb & ->). f_equal. by apply deserialize_exact.
Qed.

#[global] Instance serde_list_exact `{SerdeExact A P} : SerdeExact (list A) (Forall P).
Proof.
  intros l l' Hl. cbn. revert l'. induction Hl as [|a l Ha Hl IH]; intros l' Hd; [by injection Hd|].
  cbn in Hd. destruct (deserialize (serialize a)) as [b|] eqn:Hb; [|done]. cbn in Hd.
  destruct (mapM deserialize (serialize <$> l)) as [bs|]; [|done]. cbn in Hd. injection Hd as <-.
  f_equal; [by apply deserialize_exact|by apply IH].
Qed.

Lemma newtype_exact {A B} (P : A -> Prop) (inner : Json -> option B) make write :
  (forall a b a', P a -> inner (write a) = Some b -> make b = Some a' -> a' = a) ->
  SerdeExact A P (H := newtype_serde inner make write).
Proof. intros Hm a a' Ha (b & Hb & Hmake)%bind_Some. by eapply Hm. Qed.

Lemma struct_exact {A} (P : A -> Prop) names values decode :
  NoDup names ->
  (forall a b, P a ->
     length names = length (values a) /\ (decode (Some <$> values a) = Some b -> b = a)) ->
  SerdeExact A P (H := struct_serde names values decode).
Proof.
  intros Hnd Hw a b Ha Hd. destruct (Hw a b Ha) as [Hlen Hdec]. apply Hdec.
  cbn -[struct_fields] in Hd. by rewrite struct_fields_zip in Hd.
Qed.

Lemma required_exact `{exact : SerdeExact A P} a b :
  required (Some (serialize a)) = Some b -> P a -> b = a.
Proof. intros Hb Ha. by apply deserialize_exact. Qed.

Lemma optional_exact `{exact : SerdeExact A P} x y :
  optional (Some (serialize x)) = Some y -> (forall a, x = Some a -> P a /\ not_null a) -> y = x.
Proof. intros Hy Hx. exact (serde_option_exact x y Hx Hy). Qed.

(** The values that a decoder has read back, field by field. *)
Ltac decode_exact H :=
  cbn -[required optional serialize] in H;
  repeat match type of H with
  | _ ≫= _ = Some _ =>
      let x := fresh "x" in let Hx := fresh "Hx" in let E := fresh "E" in let HQ := fresh "HQ" in
      apply bind_Some in H as (x & Hx & H);
      first [pose proof (required_exact _ _ Hx) as E | pose proof (optional_exact _ _ Hx) as E];
      match type of E with
      | ?Q -> _ =>
          assert Q as HQ by solve [done | by apply Forall_true | intros ? _; split; [done|discriminate]];
          specialize (E HQ); clear HQ Hx; subst x
      end
  end.
