(* ===== verification/JsonReference.v ===== *)
(** * JSON texts: a reference printer and parser

    The texts of JSON values, as RFC 8259 describes them, without fractional
    numbers on the printing side.  serde_json is outside of the repository and
    [JsonLibrary] is its interface; this file shows that the interface and its
    laws can be met, and lets examples compute. *)

From S2P Require Import Prelude Text SerdeJson.

(** ** Induction on values *)

Section induction.
Variable P : Json -> Prop.
Hypothesis HNull : P JNull.
Hypothesis HBool : forall b, P (JBool b).
Hypothesis HInteger : forall z, P (JInteger z).
Hypothesis HFloat : forall text, P (JFloat text).
Hypothesis HString : forall s, P (JString s).
Hypothesis HArray : forall vs, Forall P vs -> P (JArray vs).
Hypothesis HObject : forall ms, Forall (fun m => P m.2) ms -> P (JObject ms).

Fixpoint json_nested_ind (v : Json) : P v :=
  match v with
  | JNull => HNull
  | JBool b => HBool b
  | JInteger z => HInteger z
  | JFloat text => HFloat text
  | JString s => HString s
  | JArray vs =>
      HArray vs ((fix go vs : Forall P vs :=
        match vs with
        | [] => Forall_nil_2 P
        | v :: vs => Forall_cons_2 P v vs (json_nested_ind v) (go vs)
        end) vs)
  | JObject ms =>
      HObject ms ((fix go ms : Forall (fun m => P m.2) ms :=
        match ms with
        | [] => Forall_nil_2 _
        | m :: ms => Forall_cons_2 (fun m => P m.2) m ms (json_nested_ind m.2) (go ms)
        end) ms)
  end.

End induction.

(** ** Printing *)

Definition hexadecimal (d : Z) : Z := if d <? 10 then 48 + d else 87 + d.

Definition print_char (c : Char) : Str :=
  if c =? 34 then [92; 34]
  else if c =? 92 then [92; 92]
  else if c <? 32 then [92; 117; 48; 48; hexadecimal (c / 16); hexadecimal (c `mod` 16)]
  else [c].

Definition print_string (s : Str) : Str := 34 :: (s ≫= print_char) ++ [34].

Definition print_integer (z : Z) : Str := if z <? 0 then 45 :: dec_u64 (- z) else dec_u64 z.

Fixpoint separated (texts : list Str) : Str :=
  match texts with
  | [] => []
  | [text] => text
  | text :: texts => text ++ 44 :: separated texts
  end.

Fixpoint print_json (v : Json) : Str :=
  match v with
  | JNull => lit "null"
  | JBool true => lit "true"
  | JBool false => lit "false"
  | JInteger z => print_integer z
  | JFloat text => text
  | JString s => print_string s
  | JArray vs => 91 :: separated (List.map print_json vs) ++ [93]
  | JObject ms =>
      123 :: separated (List.map (fun m => print_string m.1 ++ 58 :: print_json m.2) ms) ++ [125]
  end.

(** The values that are printed. *)
Definition printable_string (s : Str) : bool := forallb (fun c => 0 <=? c) s.

Fixpoint printable (v : Json) : bool :=
  match v with
  | JNull | JBool _ => true
  | JInteger z => Z.abs z <=? u64_max
  | JFloat _ => false
  | JString s => printable_string s
  | JArray vs => forallb printable vs
  | JObject ms => forallb (fun m => printable_string m.1 && printable m.2) ms
  end.

(** ** Parsing *)

Definition is_json_space (c : Char) : bool := (c =? 32) || (c =? 10) || (c =? 13) || (c =? 9).

Fixpoint skip_spaces (s : Str) : Str :=
  match s with
  | [] => []
  | c :: r => if is_json_space c then skip_spaces r else s
  end.

Fixpoint strip_prefix (prefix s : Str) : option Str :=
  match prefix, s with
  | [], _ => Some s
  | p :: prefix, c :: s => if p =? c then strip_prefix prefix s else None
  | _, [] => None
  end.

Definition hexadecimal_value (c : Char) : option Z :=
  if (48 <=? c) && (c <=? 57) then Some (c - 48)
  else if (97 <=? c) && (c <=? 102) then Some (c - 87)
  else if (65 <=? c) && (c <=? 70) then Some (c - 55)
  else None.

(** The escapes of one character; those outside of the basic plane are not
    read. *)
Definition simple_escape (c : Char) : option Char :=
  if (c =? 34) || (c =? 92) || (c =? 47) then Some c
  else if c =? 98 then Some 8
  else if c =? 102 then Some 12
  else if c =? 110 then Some 10
  else if c =? 114 then Some 13
  else if c =? 116 then Some 9
  else None.

(** What follows the opening quote. *)
Fixpoint parse_string (s : Str) : option (Str * Str) :=
  match s with
  | [] => None
  | c :: r =>
      if c =? 34 then Some ([], r)
      else if c =? 92 then
        match r with
        | [] => None
        | e :: r =>
            if e =? 117 then
              match r with
              | h1 :: h2 :: h3 :: h4 :: r =>
                  d1 ← hexadecimal_value h1;
                  d2 ← hexadecimal_value h2;
                  d3 ← hexadecimal_value h3;
                  d4 ← hexadecimal_value h4;
                  let c := ((d1 * 16 + d2) * 16 + d3) * 16 + d4 in
                  if (55296 <=? c) && (c <? 57344) then None
                  else '(text, r) ← parse_string r; Some (c :: text, r)
              | _ => None
              end
            else
              c ← simple_escape e;
              '(text, r) ← parse_string r;
              Some (c :: text, r)
        end
      else if c <? 32 then None
      else '(text, r) ← parse_string r; Some (c :: text, r)
  end.

Definition is_number_char (c : Char) : bool :=
  ((48 <=? c) && (c <=? 57)) || (c =? 43) || (c =? 45) || (c =? 46) || (c =? 69) || (c =? 101).

Fixpoint span_number (s : Str) : Str * Str :=
  match s with
  | [] => ([], [])
  | c :: r =>
      if is_number_char c then let '(token, r) := span_number r in (c :: token, r) else ([], s)
  end.

Definition number_value (token : Str) : option Json :=
  let '(negative, digits) :=
    match token with
    | c :: r => if c =? 45 then (true, r) else (false, token)
    | [] => (false, [])
    end in
  match digits, read_dec digits with
  | [], _ => None
  | _, Some z => Some (JInteger (if negative then - z else z))
  | _, None => if existsb (fun c => (c =? 46) || (c =? 69) || (c =? 101)) token
               then Some (JFloat token) else None
  end.

Section parts.
Variable parse : Str -> option (Json * Str).

Fixpoint parse_elements (n : nat) (s : Str) : option (list Json * Str) :=
  match n with
  | O => None
  | S n =>
      '(v, r) ← parse s;
      match skip_spaces r with
      | [] => None
      | c :: r =>
          if c =? 93 then Some ([v], r)
          else if c =? 44 then '(vs, r) ← parse_elements n r; Some (v :: vs, r)
          else None
      end
  end.

(** A member: the name, a colon and the value. *)
Definition parse_member (s : Str) : option (Str * Json * Str) :=
  match skip_spaces s with
  | [] => None
  | c :: r =>
      if c =? 34 then
        '(name, r) ← parse_string r;
        match skip_spaces r with
        | [] => None
        | c :: r => if c =? 58 then '(v, r) ← parse r; Some (name, v, r) else None
        end
      else None
  end.

Fixpoint parse_members (n : nat) (s : Str) : option (list (Str * Json) * Str) :=
  match n with
  | O => None
  | S n =>
      '(m, r) ← parse_member s;
      match skip_spaces r with
      | [] => None
      | c :: r =>
          if c =? 125 then Some ([m], r)
          else if c =? 44 then '(ms, r) ← parse_members n r; Some (m :: ms, r)
          else None
      end
  end.

End parts.

(** [fuel] bounds the depth. *)
Fixpoint parse_value (fuel : nat) (s : Str) : option (Json * Str) :=
  match fuel with
  | O => None
  | S fuel =>
      match skip_spaces s with
      | [] => None
      | c :: r =>
          if c =? 34 then '(text, r) ← parse_string r; Some (JString text, r)
          else if c =? 91 then
            match skip_spaces r with
            | [] => None
            | c :: r' =>
                if c =? 93 then Some (JArray [], r')
                else '(vs, r) ← parse_elements (parse_value fuel) (length r) r; Some (JArray vs, r)
            end
          else if c =? 123 then
            match skip_spaces r with
            | [] => None
            | c :: r' =>
                if c =? 125 then Some (JObject [], r')
                else '(ms, r) ← parse_members (parse_value fuel) (length r) r; Some (JObject ms, r)
            end
          else if c =? 110 then (fun r => (JNull, r)) <$> strip_prefix (lit "ull") r
          else if c =? 116 then (fun r => (JBool true, r)) <$> strip_prefix (lit "rue") r
          else if c =? 102 then (fun r => (JBool false, r)) <$> strip_prefix (lit "alse") r
          else
            let '(token, r) := span_number (c :: r) in
            v ← number_value token;
            Some (v, r)
      end
  end.

Definition parse_json (s : Str) : option Json :=
  '(v, r) ← parse_value (length s) s;
  match skip_spaces r with
  | [] => Some v
  | _ => None
  end.

Example parse_json_example :
  parse_json (lit " { } ") = Some (JObject [])
  /\ parse_json (lit "[1, -2.5 ,null]") = Some (JArray [JInteger 1; JFloat (lit "-2.5"); JNull])
  /\ parse_json (lit "[1,]") = None.
Proof. split_and!; vm_compute; reflexivity. Qed.

(** ** What is printed is parsed *)

Lemma hexadecimal_value_digit d : 0 <= d < 16 -> hexadecimal_value (hexadecimal d) = Some d.
Proof.
  intros Hd. unfold hexadecimal, hexadecimal_value. destruct (Z.ltb_spec d 10);
    repeat case_match; rewrite ?andb_true_iff, ?andb_false_iff in *; try (f_equal; lia); lia.
Qed.

Lemma parse_string_char c s text r :
  0 <= c -> parse_string s = Some (text, r) ->
  parse_string (print_char c ++ s) = Some (c :: text, r).
Proof.
  intros Hc Hs. unfold print_char. destruct (Z.eqb_spec c 34) as [->|H34].
  { cbn. by rewrite Hs. }
  destruct (Z.eqb_spec c 92) as [->|H92].
  { cbn. by rewrite Hs. }
  destruct (Z.ltb_spec c 32).
  - cbn -[hexadecimal_value hexadecimal Z.div Z.modulo].
    rewrite !hexadecimal_value_digit by (Z.div_mod_to_equations; lia).
    cbn -[Z.div Z.modulo Z.mul Z.add Z.sub].
    replace ((((48 - 48) * 16 + (48 - 48)) * 16 + c / 16) * 16 + c `mod` 16) with c
      by (Z.div_mod_to_equations; lia).
    destruct (Z.leb_spec 55296 c); [lia|]. cbn. by rewrite Hs.
  - cbn. rewrite (proj2 (Z.eqb_neq _ _) H34), (proj2 (Z.eqb_neq _ _) H92),
      (proj2 (Z.ltb_ge _ _)) by lia. by rewrite Hs.
Qed.

Lemma parse_string_print s rest :
  printable_string s = true ->
  parse_string ((s ≫= print_char) ++ 34 :: rest) = Some (s, rest).
Proof.
  induction s as [|c s IH]; [done|]. cbn [printable_string forallb]. rewrite andb_true_iff, Z.leb_le.
  intros [Hc Hs]. rewrite bind_cons, <- app_assoc. apply parse_string_char; [done|]. by apply IH.
Qed.

(** The text ends, or goes on with something that is not part of a number. *)
Definition number_stops (rest : Str) : Prop :=
  match rest with
  | [] => True
  | c :: _ => is_number_char c = false
  end.

Lemma span_number_app token rest :
  Forall (fun c => is_number_char c = true) token -> number_stops rest ->
  span_number (token ++ rest) = (token, rest).
Proof.
  intros Ht Hr. induction Ht as [|c token Hc Ht IH]; cbn.
  - destruct rest as [|c rest]; [done|]. cbn. cbn in Hr. by rewrite Hr.
  - by rewrite Hc, IH.
Qed.

Lemma digits_number s : Forall is_digit s -> Forall (fun c => is_number_char c = true) s.
Proof.
  intros Hs. eapply Forall_impl; [exact Hs|]. intros c Hc. unfold is_digit in Hc. unfold is_number_char.
  rewrite (proj2 (Z.leb_le 48 c)), (proj2 (Z.leb_le c 57)) by lia. done.
Qed.

Lemma dec_u64_nonempty n : exists c s, dec_u64 n = c :: s.
Proof.
  unfold dec_u64. generalize 19%nat. intros fuel. cbn [dec_fuel].
  destruct (n <? 10); [by eexists _, _|]. destruct (dec_fuel fuel (n / 10)); by eexists _, _.
Qed.

Lemma number_value_print z :
  Z.abs z <= u64_max -> number_value (print_integer z) = Some (JInteger z).
Proof.
  intros Hz. unfold print_integer. destruct (Z.ltb_spec z 0).
  - destruct (dec_u64_nonempty (- z)) as (c & s & Hs).
    pose proof (read_dec_u64 (- z) ltac:(int_lia)) as Hr. rewrite Hs in Hr |- *.
    cbn -[read_dec]. rewrite Hr. by rewrite Z.opp_involutive.
  - destruct (dec_u64_nonempty z) as (c & s & Hs). unfold number_value.
    pose proof (dec_u64_digits z ltac:(lia)) as Hd. pose proof (read_dec_u64 z ltac:(int_lia)) as Hr.
    rewrite Hs in Hd, Hr |- *. inversion Hd as [|? ? Hc _]. subst. unfold is_digit in Hc.
    destruct (Z.eqb_spec c 45); [lia|]. by rewrite Hr.
Qed.

Lemma print_integer_chars z :
  Forall (fun c => is_number_char c = true) (print_integer z)
  /\ exists c s, print_integer z = c :: s /\ (c = 45 \/ is_digit c).
Proof.
  unfold print_integer. destruct (Z.ltb_spec z 0).
  - split; [|by eexists _, _; split; [|left]]. constructor; [done|].
    apply digits_number, dec_u64_digits. lia.
  - pose proof (dec_u64_digits z ltac:(lia)) as Hd. split; [by apply digits_number|].
    destruct (dec_u64_nonempty z) as (c & s & Hs). exists c, s. split; [done|right].
    rewrite Hs in Hd. by inversion Hd.
Qed.

Lemma forallb_Forall {A} (f : A -> bool) l : forallb f l = true <-> Forall (fun x => f x = true) l.
Proof.
  induction l as [|x l IH]; cbn; [by split|]. by rewrite andb_true_iff, IH, Forall_cons.
Qed.

(** The first character of a value. *)
Lemma print_json_head v :
  printable v = true ->
  exists c r, print_json v = c :: r /\ is_json_space c = false /\ c <> 93 /\ c <> 125.
Proof.
  destruct v as [|[]|z|text|s|vs|ms]; intros Hv; try done; cbn [print_json]; unfold print_string;
    try (by eexists _, _; split_and!; [reflexivity|reflexivity|discriminate|discriminate]).
  destruct (print_integer_chars z) as [_ (c & r & -> & Hc)]. exists c, r. split; [done|].
  unfold is_digit in Hc. split; [|lia]. unfold is_json_space. lia.
Qed.

Lemma skip_spaces_id c r : is_json_space c = false -> skip_spaces (c :: r) = c :: r.
Proof. intros Hc. cbn. by rewrite Hc. Qed.

Lemma separated_cons text texts :
  texts <> [] -> separated (text :: texts) = text ++ 44 :: separated texts.
Proof. by destruct texts. Qed.

(** What parsing one value gives, wherever the value stands. *)
Definition parses (parse : Str -> option (Json * Str)) (v : Json) : Prop :=
  forall rest, number_stops rest -> parse (print_json v ++ rest) = Some (v, rest).

Lemma parse_elements_print parse n vs rest :
  Forall (parses parse) vs -> vs <> [] -> (length vs <= n)%nat ->
  parse_elements parse n (separated (List.map print_json vs) ++ 93 :: rest) = Some (vs, rest).
Proof.
  intros Hvs. revert n. induction Hvs as [|v vs Hv Hvs IH]; intros n Hne Hn; [done|].
  destruct n as [|n]; [cbn in Hn; lia|]. destruct (decide (vs = [])) as [->|Hvs'].
  - cbn -[print_json]. by rewrite Hv.
  - cbn [List.map]. rewrite separated_cons by (by destruct vs). rewrite <- app_assoc. cbn.
    rewrite Hv by done. cbn. rewrite IH; [done|done|]. cbn in Hn. lia.
Qed.

Definition print_member (m : Str * Json) : Str := print_string m.1 ++ 58 :: print_json m.2.

Lemma parse_member_print parse m rest :
  printable_string m.1 = true -> parses parse m.2 -> number_stops rest ->
  parse_member parse (print_member m ++ rest) = Some (m, rest).
Proof.
  intros Hm Hv Hr. destruct m as [name v]. unfold print_member, print_string. cbn [fst snd] in *.
  cbn -[print_char mbind list_bind]. rewrite <- !app_assoc. cbn -[print_char mbind list_bind].
  rewrite parse_string_print by done. cbn. by rewrite Hv.
Qed.

Lemma parse_members_print parse n ms rest :
  Forall (fun m => printable_string m.1 = true /\ parses parse m.2) ms -> ms <> [] ->
  (length ms <= n)%nat ->
  parse_members parse n (separated (List.map print_member ms) ++ 125 :: rest) = Some (ms, rest).
Proof.
  intros Hms. revert n. induction Hms as [|m ms [Hm Hv] Hms IH]; intros n Hne Hn; [done|].
  destruct n as [|n]; [cbn in Hn; lia|]. destruct (decide (ms = [])) as [->|Hms'].
  - cbn -[parse_member print_member]. by rewrite parse_member_print.
  - cbn [List.map]. rewrite separated_cons by (by destruct ms). rewrite <- app_assoc.
    cbn -[parse_member print_member].
    rewrite parse_member_print by done. cbn. rewrite IH; [done|done|]. cbn in Hn. lia.
Qed.

Lemma length_separated texts text : text ∈ texts -> (length text <= length (separated texts))%nat.
Proof.
  induction texts as [|t texts IH]; [by intros ?%elem_of_nil|]. intros Hin.
  destruct (decide (texts = [])) as [->|Hne].
  - apply list_elem_of_singleton in Hin as ->. done.
  - rewrite separated_cons, length_app by done. cbn.
    apply elem_of_cons in Hin as [->|Hin]; [lia|]. specialize (IH Hin). lia.
Qed.

Lemma separated_long texts :
  Forall (fun text => text <> []) texts -> (length texts <= length (separated texts))%nat.
Proof.
  induction 1 as [|t texts Ht Hts IH]; [cbn; lia|]. destruct t as [|c t]; [done|].
  destruct (decide (texts = [])) as [->|Hne]; [cbn; lia|].
  rewrite separated_cons, length_app by done. cbn in *. lia.
Qed.

Lemma print_json_nonempty v : printable v = true -> print_json v <> [].
Proof. intros (c & r & -> & _)%print_json_head. done. Qed.

Lemma separated_head texts c :
  (forall text, head texts = Some text -> head text = Some c) -> texts <> [] ->
  exists r, separated texts = c :: r.
Proof.
  destruct texts as [|text texts]; [done|]. intros Hc _. specialize (Hc _ eq_refl).
  destruct text as [|c' r]; [done|]. injection Hc as ->.
  destruct texts; [by exists r|by eexists].
Qed.

Lemma parse_integer_value fuel z :
  printable (JInteger z) = true -> parses (parse_value (S fuel)) (JInteger z).
Proof.
  intros Hv rest Hrest. cbn [printable] in Hv. apply Z.leb_le in Hv.
  destruct (print_integer_chars z) as [Hchars (c & r & Hz & Hc)]. unfold is_digit in Hc.
  cbn [print_json parse_value]. rewrite Hz. cbn [app].
  rewrite skip_spaces_id by (unfold is_json_space; lia).
  repeat (rewrite (proj2 (Z.eqb_neq c _)) by lia).
  change (c :: r ++ rest) with ((c :: r) ++ rest). rewrite <- Hz, span_number_app by done.
  by rewrite number_value_print.
Qed.

Lemma parse_array_value fuel vs :
  Forall (fun v => printable v = true) vs -> Forall (parses (parse_value fuel)) vs ->
  parses (parse_value (S fuel)) (JArray vs).
Proof.
  intros Hv Hparses rest Hrest. cbn [print_json app parse_value]. rewrite skip_spaces_id by done.
  cbn [Z.eqb Pos.eqb]. destruct (decide (vs = [])) as [->|Hne]; [done|].
  assert (Forall (fun text => text <> []) (List.map print_json vs)) as Htexts.
  { apply Forall_fmap. eapply Forall_impl; [exact Hv|]. intros v. apply print_json_nonempty. }
  pose proof (separated_long _ Htexts) as Hlong. rewrite List.length_map in Hlong.
  rewrite <- app_assoc. cbn [app].
  rewrite (parse_elements_print (parse_value fuel) _ vs rest Hparses Hne)
    by (rewrite length_app; lia).
  destruct vs as [|v vs]; [done|]. apply Forall_cons in Hv as [Hv _].
  destruct (print_json_head v Hv) as (c & r & Hr & Hspace & Hc & _).
  destruct (separated_head (List.map print_json (v :: vs)) c) as [r' ->]; [|done|].
  { cbn. intros text [= <-]. by rewrite Hr. }
  cbn [app]. rewrite skip_spaces_id by done. by rewrite (proj2 (Z.eqb_neq _ _) Hc).
Qed.

Lemma parse_object_value fuel ms :
  Forall (fun m => printable_string m.1 = true /\ parses (parse_value fuel) m.2) ms ->
  parses (parse_value (S fuel)) (JObject ms).
Proof.
  intros Hparses rest Hrest. cbn [print_json app parse_value]. rewrite skip_spaces_id by done.
  cbn [Z.eqb Pos.eqb]. destruct (decide (ms = [])) as [->|Hne]; [done|].
  change (fun m : Str * Json => print_string m.1 ++ 58 :: print_json m.2) with print_member.
  assert (Forall (fun text => text <> []) (List.map print_member ms)) as Htexts.
  { apply Forall_fmap, Forall_true. done. }
  pose proof (separated_long _ Htexts) as Hlong. rewrite List.length_map in Hlong.
  rewrite <- app_assoc. cbn [app].
  rewrite (parse_members_print (parse_value fuel) _ ms rest Hparses Hne)
    by (rewrite length_app; lia).
  destruct (separated_head (List.map print_member ms) 34) as [r' ->].
  - destruct ms; [done|]. by intros text [= <-].
  - by destruct ms.
  - done.
Qed.

(** The parts of a value are shorter than its text. *)
Lemma separated_bound {A} (print : A -> Str) (l : list A) x (fuel : nat) :
  (length (separated (List.map print l)) <= fuel)%nat -> x ∈ l -> (length (print x) <= fuel)%nat.
Proof.
  intros Hl Hin.
  pose proof (length_separated (List.map print l) (print x) ltac:(by apply list_elem_of_fmap_2)). lia.
Qed.

Lemma parse_value_print fuel v :
  printable v = true -> (length (print_json v) <= fuel)%nat -> parses (parse_value fuel) v.
Proof.
  revert fuel. induction v as [|b|z|text|s|vs IH|ms IH] using json_nested_ind; intros fuel Hv Hfuel.
  all: destruct fuel as [|fuel];
    [apply print_json_nonempty in Hv; destruct (print_json _); [done|cbn in Hfuel; lia]|].
  - done.
  - by destruct b.
  - by apply parse_integer_value.
  - done.
  - intros rest _. cbn -[print_char parse_string mbind list_bind]. rewrite <- app_assoc. cbn [app].
    cbn [printable] in Hv. by rewrite (parse_string_print s rest Hv).
  - apply forallb_Forall in Hv. apply parse_array_value; [done|].
    rewrite Forall_forall in IH, Hv |- *. intros v Hin. apply IH; [done|by apply Hv|].
    apply (separated_bound print_json vs); [|done]. cbn in Hfuel. rewrite length_app in Hfuel. lia.
  - apply forallb_Forall in Hv. apply parse_object_value.
    rewrite Forall_forall in IH, Hv |- *. intros m Hin.
    destruct (proj1 (andb_true_iff _ _) (Hv _ Hin)) as [Hm Hmv]. split; [done|].
    apply IH; [done..|].
    pose proof (separated_bound print_member ms m fuel) as Hb.
    cbn [print_json length] in Hfuel. rewrite length_app in Hfuel.
    change (fun m : Str * Json => print_string m.1 ++ 58 :: print_json m.2) with print_member in Hfuel.
    specialize (Hb ltac:(lia) Hin). unfold print_member in Hb. rewrite length_app in Hb. cbn in Hb. lia.
Qed.

Lemma parse_json_print v : printable v = true -> parse_json (print_json v) = Some v.
Proof.
  intros Hv. unfold parse_json. rewrite <- (app_nil_r (print_json v)) at 2.
  by rewrite (parse_value_print _ _ Hv (Nat.le_refl _) []).
Qed.

#[export] Instance reference_json : JsonLibrary := {|
  json_Error := unit;
  json_data_error := tt;
  json_from_str s := ok_or (parse_json s) tt;
  json_to_string v := if printable v then Ok (print_json v) else Err tt
|}.

Lemma reference_json_exact v text :
  json_to_string (JsonLibrary := reference_json) v = Ok text ->
  json_from_str (JsonLibrary := reference_json) text = Ok v.
Proof. cbn. destruct (printable v) eqn:Hv; [|done]. intros [= <-]. by rewrite parse_json_print. Qed.

#[export] Instance reference_json_laws : JsonLaws.
Proof. split. intros v text Hv%reference_json_exact. by exists v. Qed.
