(* ===== verification/DomainMoney.v ===== *)
(** * Money (crates/domain/src/money.rs)

    [Currency], [MoneyOperation] and [MoneyError] are the enums of the file;
    [Money.t] is the struct, its minor units an [i64]. *)

From S2P Require Import Prelude Text.

Module Currency.

Inductive t := Usd | Cad | Eur | Gbp.

#[global] Instance eq_dec : EqDecision t.
Proof. solve_decision. Defined.

Definition code (self : t) : Str :=
  match self with
  | Usd => lit "USD"
  | Cad => lit "CAD"
  | Eur => lit "EUR"
  | Gbp => lit "GBP"
  end.

Definition minor_unit_scale (self : t) : Z := 2.

End Currency.

Module MoneyOperation.

Inductive t := Addition | Subtraction | Negation.

#[global] Instance eq_dec : EqDecision t.
Proof. solve_decision. Defined.

End MoneyOperation.

Module MoneyError.

Inductive t :=
| CurrencyMismatch (left right : Currency.t)
| ArithmeticOverflow (operation : MoneyOperation.t).

#[global] Instance eq_dec : EqDecision t.
Proof. solve_decision. Defined.

End MoneyError.

Module Money.

Record t := from_minor_units { minor_units : Z; currency : Currency.t }.

#[global] Instance eq_dec : EqDecision t.
Proof. solve_decision. Defined.

(** The field is an [i64]. *)
Definition wf (m : t) : Prop := in_i64 (minor_units m).

Definition zero (c : Currency.t) : t := from_minor_units 0 c.
Definition is_zero (self : t) : bool := minor_units self =? 0.
Definition is_positive (self : t) : bool := 0 <? minor_units self.
Definition is_negative (self : t) : bool := minor_units self <? 0.

Definition ensure_same_currency (self other : t) : Result MoneyError.t unit :=
  if decide (currency self = currency other) then Ok tt
  else Err (MoneyError.CurrencyMismatch (currency self) (currency other)).

Definition checked_cmp (self other : t) : Result MoneyError.t comparison :=
  _ ← ensure_same_currency self other;
  Ok (minor_units self ?= minor_units other).

Definition checked_add (self other : t) : Result MoneyError.t t :=
  _ ← ensure_same_currency self other;
  units ← ok_or (i64_checked_add (minor_units self) (minor_units other))
            (MoneyError.ArithmeticOverflow MoneyOperation.Addition);
  Ok (from_minor_units units (currency self)).

Definition checked_subtract (self other : t) : Result MoneyError.t t :=
  _ ← ensure_same_currency self other;
  units ← ok_or (i64_checked_sub (minor_units self) (minor_units other))
            (MoneyError.ArithmeticOverflow MoneyOperation.Subtraction);
  Ok (from_minor_units units (currency self)).

Definition checked_negate (self : t) : Result MoneyError.t t :=
  units ← ok_or (i64_checked_neg (minor_units self))
            (MoneyError.ArithmeticOverflow MoneyOperation.Negation);
  Ok (from_minor_units units (currency self)).

(** [impl Display for Money]. *)
Definition display (self : t) : Str :=
  let absolute_minor_units := unsigned_abs (minor_units self) in
  let major_units := absolute_minor_units / 100 in
  let remaining_minor_units := absolute_minor_units `mod` 100 in
  if minor_units self <? 0 then
    Currency.code (currency self) ++ lit " -" ++ dec_u64 major_units
      ++ lit "." ++ pad2 (dec_u64 remaining_minor_units)
  else
    Currency.code (currency self) ++ lit " " ++ dec_u64 major_units
      ++ lit "." ++ pad2 (dec_u64 remaining_minor_units).

(** ** Reading the display form back *)

Definition read_currency (s : Str) : option (Currency.t * Str) :=
  let code := take 3 s in
  let rest := drop 3 s in
  if decide (code = lit "USD") then Some (Currency.Usd, rest)
  else if decide (code = lit "CAD") then Some (Currency.Cad, rest)
  else if decide (code = lit "EUR") then Some (Currency.Eur, rest)
  else if decide (code = lit "GBP") then Some (Currency.Gbp, rest)
  else None.

(** An unsigned amount: the last two characters are the minor units, the one
    before them the point. *)
Definition read_amount (s : Str) : option Z :=
  let n := (List.length s - 3)%nat in
  major ← read_dec (take n s);
  minor ← read_dec (drop (n + 1) s);
  if decide (s !! n = Some 46) then Some (100 * major + minor) else None.

Definition read (s : Str) : option t :=
  '(c, rest) ← read_currency s;
  if decide (take 2 rest = lit " -") then
    n ← read_amount (drop 2 rest); Some (from_minor_units (- n) c)
  else if decide (take 1 rest = lit " ") then
    n ← read_amount (drop 1 rest); Some (from_minor_units n c)
  else None.

(** ** Lemmas *)

Lemma is_negative_spec m : is_negative m = true <-> minor_units m < 0.
Proof. apply Z.ltb_lt. Qed.

Lemma is_negative_false m : is_negative m = false <-> 0 <= minor_units m.
Proof. apply Z.ltb_ge. Qed.

Lemma is_positive_spec m : is_positive m = true <-> 0 < minor_units m.
Proof. apply Z.ltb_lt. Qed.

Lemma is_positive_false m : is_positive m = false <-> minor_units m <= 0.
Proof. apply Z.ltb_ge. Qed.

Lemma ensure_same_currency_Ok a b u :
  ensure_same_currency a b = Ok u <-> currency a = currency b.
Proof. unfold ensure_same_currency. destruct u. case_decide; naive_solver. Qed.

Lemma checked_add_Ok a b r :
  checked_add a b = Ok r <->
  currency a = currency b /\ in_i64 (minor_units a + minor_units b)
  /\ r = from_minor_units (minor_units a + minor_units b) (currency a).
Proof.
  unfold checked_add, i64_checked_add. rewrite Result_bind_Ok.
  setoid_rewrite Result_bind_Ok. setoid_rewrite ok_or_Ok.
  setoid_rewrite i64_try_from_Some. setoid_rewrite ensure_same_currency_Ok.
  split; [naive_solver|]. intros (?&?&->). exists tt. naive_solver.
Qed.

Lemma checked_subtract_Ok a b r :
  checked_subtract a b = Ok r <->
  currency a = currency b /\ in_i64 (minor_units a - minor_units b)
  /\ r = from_minor_units (minor_units a - minor_units b) (currency a).
Proof.
  unfold checked_subtract, i64_checked_sub. rewrite Result_bind_Ok.
  setoid_rewrite Result_bind_Ok. setoid_rewrite ok_or_Ok.
  setoid_rewrite i64_try_from_Some. setoid_rewrite ensure_same_currency_Ok.
  split; [naive_solver|]. intros (?&?&->). exists tt. naive_solver.
Qed.

Lemma checked_cmp_Ok a b c :
  checked_cmp a b = Ok c <->
  currency a = currency b /\ c = (minor_units a ?= minor_units b).
Proof.
  unfold checked_cmp. rewrite Result_bind_Ok. setoid_rewrite ensure_same_currency_Ok.
  split; [naive_solver|]. intros (?&->). exists tt. naive_solver.
Qed.

(** A difference of two non-negative amounts never overflows. *)
Lemma checked_subtract_nonneg a b :
  wf a -> wf b -> 0 <= minor_units a -> 0 <= minor_units b -> currency a = currency b ->
  checked_subtract a b =
    Ok (from_minor_units (minor_units a - minor_units b) (currency a)).
Proof. unfold wf. intros. apply checked_subtract_Ok. repeat split; [done| |]; int_lia. Qed.

Lemma read_currency_code c rest : read_currency (Currency.code c ++ rest) = Some (c, rest).
Proof. by destruct c. Qed.

Lemma read_amount_parts major minor :
  in_u64 major -> 0 <= minor < 100 ->
  read_amount (dec_u64 major ++ lit "." ++ pad2 (dec_u64 minor)) = Some (100 * major + minor).
Proof.
  intros Hmaj Hmin. pose proof (length_pad2 _ Hmin) as Hl. unfold read_amount.
  replace (List.length (dec_u64 major ++ lit "." ++ pad2 (dec_u64 minor)) - 3)%nat
    with (List.length (dec_u64 major))
    by (rewrite !length_app, Hl; cbn; lia).
  rewrite take_app_length, read_dec_u64 by done. cbn [mbind option_bind].
  rewrite drop_app_add.
  change (drop 1 (lit "." ++ pad2 (dec_u64 minor))) with (pad2 (dec_u64 minor)).
  rewrite read_dec_pad2 by done. cbn [mbind option_bind].
  rewrite decide_True; [done|]. rewrite lookup_app_r by done.
  by rewrite Nat.sub_diag.
Qed.

(** An unsigned amount does not start with a minus sign. *)
Lemma dec_u64_not_minus n tail :
  0 <= n -> take 1 (dec_u64 n ++ lit "." ++ tail) <> lit "-".
Proof.
  intros Hn. pose proof (dec_u64_digits n Hn) as Hd.
  destruct (dec_u64 n) as [|d s]; cbn; [done|].
  apply Forall_inv in Hd. intros [=]. unfold is_digit in Hd. lia.
Qed.

Lemma div_mod_100 n : 0 <= n -> 100 * (n / 100) + n `mod` 100 = n.
Proof. intros. symmetry. apply Z.div_mod. lia. Qed.

(** The display form determines the value: reading it back gives the amount
    and the currency it was printed from, [i64::MIN] included. *)
Lemma read_display_lemma m : wf m -> read (display m) = Some m.
Proof.
  intros Hwf. destruct m as [n c]. unfold wf in Hwf. unfold display, read. cbn [minor_units currency] in *.
  assert (Habs : in_u64 (unsigned_abs n / 100) /\ 0 <= unsigned_abs n `mod` 100 < 100).
  { split; [|apply Z.mod_pos_bound; lia]. unfold_ints. Z.div_mod_to_equations. lia. }
  destruct Habs as [Hq Hr].
  destruct (Z.ltb_spec n 0); rewrite read_currency_code; cbn [mbind option_bind].
  - rewrite decide_True by done.
    match goal with |- context [drop 2 (lit " -" ++ ?x)] =>
      change (drop 2 (lit " -" ++ x)) with x end.
    rewrite read_amount_parts by done.
    cbn [mbind option_bind]. rewrite div_mod_100 by int_lia. do 2 f_equal. int_lia.
  - rewrite decide_False, decide_True; [|done|].
    + match goal with |- context [drop 1 (lit " " ++ ?x)] =>
        change (drop 1 (lit " " ++ x)) with x end.
      rewrite read_amount_parts by done.
      cbn [mbind option_bind]. rewrite div_mod_100 by int_lia. do 2 f_equal. int_lia.
    + intros [=Heq]. exact (dec_u64_not_minus _ _ (proj1 Hq) Heq).
Qed.

End Money.

(** Turns every monetary test and checked operation among the hypotheses into
    the arithmetic fact it establishes. *)
Ltac money_facts :=
  repeat match goal with
  | H : Money.is_negative _ = true |- _ => apply Money.is_negative_spec in H
  | H : Money.is_negative _ = false |- _ => apply Money.is_negative_false in H
  | H : Money.is_positive _ = true |- _ => apply Money.is_positive_spec in H
  | H : Money.is_positive _ = false |- _ => apply Money.is_positive_false in H
  | H : Money.checked_add _ _ = Ok _ |- _ => apply Money.checked_add_Ok in H as (? & ? & ->)
  | H : Money.checked_subtract _ _ = Ok _ |- _ =>
      apply Money.checked_subtract_Ok in H as (? & ? & ->)
  | H : Money.checked_cmp _ _ = Ok _ |- _ => apply Money.checked_cmp_Ok in H as (? & ->)
  end; cbn [Money.minor_units Money.currency] in *.

(** ** Properties *)

(** The same refusal with the operands in the other order. *)
Definition swap_mismatch {A} (r : Result MoneyError.t A) : Result MoneyError.t A :=
  match r with
  | Err (MoneyError.CurrencyMismatch c c') => Err (MoneyError.CurrencyMismatch c' c)
  | r => r
  end.

Lemma money_eq a b :
  Money.minor_units a = Money.minor_units b -> Money.currency a = Money.currency b -> a = b.
Proof. destruct a, b. cbn. congruence. Qed.

Lemma money_add_undone a b s :
  Money.wf a -> Money.wf b -> Money.checked_add a b = Ok s ->
  Money.wf s /\ Money.checked_subtract s b = Ok a /\ Money.checked_subtract s a = Ok b.
Proof.
  unfold Money.wf. intros Ha Hb Hs. money_facts. split; [done|].
  split; apply Money.checked_subtract_Ok; cbn [Money.minor_units Money.currency];
    (split_and!; [congruence|int_lia|apply money_eq; cbn; [lia|congruence]]).
Qed.

Lemma money_subtract_undone a b d :
  Money.wf a -> Money.checked_subtract a b = Ok d -> Money.wf d /\ Money.checked_add d b = Ok a.
Proof.
  unfold Money.wf. intros Ha Hd. money_facts. split; [done|].
  apply Money.checked_add_Ok. cbn [Money.minor_units Money.currency].
  split_and!; [congruence|int_lia|apply money_eq; cbn; [lia|congruence]].
Qed.

Lemma money_add_comm a b : Money.checked_add b a = swap_mismatch (Money.checked_add a b).
Proof.
  unfold Money.checked_add, Money.ensure_same_currency.
  destruct (decide (Money.currency a = Money.currency b)) as [Hc|Hc].
  - rewrite (decide_True (P := Money.currency b = Money.currency a)) by done.
    cbn [mbind Result_bind]. unfold i64_checked_add. rewrite Z.add_comm, Hc.
    by destruct (i64_try_from _).
  - by rewrite decide_False by congruence.
Qed.

Lemma money_negate_Ok a r :
  Money.checked_negate a = Ok r <->
  in_i64 (- Money.minor_units a)
  /\ r = Money.from_minor_units (- Money.minor_units a) (Money.currency a).
Proof.
  unfold Money.checked_negate, i64_checked_neg. rewrite Result_bind_Ok.
  setoid_rewrite ok_or_Ok. setoid_rewrite i64_try_from_Some. naive_solver.
Qed.

Lemma money_negate_involutive a n :
  Money.wf a -> Money.checked_negate a = Ok n ->
  Money.wf n /\ Money.checked_negate n = Ok a
  /\ Money.checked_add a n = Ok (Money.zero (Money.currency a)).
Proof.
  unfold Money.wf. rewrite money_negate_Ok. intros Ha [Hn ->]. split; [done|].
  rewrite money_negate_Ok, Money.checked_add_Ok. cbn [Money.minor_units Money.currency].
  split_and!; [int_lia|by apply money_eq; cbn; [lia|]|done|int_lia|by apply money_eq; cbn; [lia|]].
Qed.

Lemma money_negate_MIN a :
  Money.wf a -> is_ok (Money.checked_negate a) = false <-> Money.minor_units a = i64_min.
Proof.
  unfold Money.wf. intros Ha. destruct (Money.checked_negate a) as [r|e] eqn:E; cbn.
  - apply money_negate_Ok in E as [Hn _]. split; [done|]. intros H. int_lia.
  - split; [intros _|done]. apply dec_stable. intros Hne.
    assert (Money.checked_negate a
      = Ok (Money.from_minor_units (- Money.minor_units a) (Money.currency a))) as E'
      by (apply money_negate_Ok; split; [int_lia|done]). congruence.
Qed.

(** An amount added to both sides does not change their order. *)
Lemma money_cmp_add a b c ac bc :
  Money.checked_add a c = Ok ac -> Money.checked_add b c = Ok bc ->
  Money.checked_cmp ac bc = Money.checked_cmp a b.
Proof.
  intros Hac Hbc. money_facts. unfold Money.checked_cmp, Money.ensure_same_currency. cbn.
  rewrite !decide_True by congruence. cbn. f_equal.
  destruct (Z.compare_spec (Money.minor_units a) (Money.minor_units b)),
    (Z.compare_spec (Money.minor_units a + Money.minor_units c)
       (Money.minor_units b + Money.minor_units c)); done || lia.
Qed.

(** The errors of the binary operations. *)
Lemma money_errors a b e :
  (Money.checked_add a b = Err e <->
     (Money.currency a <> Money.currency b
      /\ e = MoneyError.CurrencyMismatch (Money.currency a) (Money.currency b))
     \/ (Money.currency a = Money.currency b
         /\ ~ (i64_min <= Money.minor_units a + Money.minor_units b <= i64_max)
         /\ e = MoneyError.ArithmeticOverflow MoneyOperation.Addition))
  /\ (Money.checked_subtract a b = Err e <->
     (Money.currency a <> Money.currency b
      /\ e = MoneyError.CurrencyMismatch (Money.currency a) (Money.currency b))
     \/ (Money.currency a = Money.currency b
         /\ ~ (i64_min <= Money.minor_units a - Money.minor_units b <= i64_max)
         /\ e = MoneyError.ArithmeticOverflow MoneyOperation.Subtraction)).
Proof.
  unfold Money.checked_add, Money.checked_subtract, Money.ensure_same_currency, i64_checked_add,
    i64_checked_sub, i64_try_from, in_i64.
  split; (destruct (decide (Money.currency a = Money.currency b)); cbn;
    [case_decide; cbn; naive_solver|naive_solver]).
Qed.



(** The display form of money is faithful: reading the printed text back
    gives the amount and the currency it was printed from, for every [i64]
    amount, [i64::MIN] included; in particular two different values never
    print the same. *)
Theorem money_display_roundtrip m :
  Money.wf m ->
  Money.read (Money.display m) = Some m
  /\ (forall m', Money.wf m' -> Money.display m' = Money.display m -> m' = m).
Proof.
  intros Hm. split; [by apply Money.read_display_lemma|].
  intros m' Hm' Heq. apply Money.read_display_lemma in Hm, Hm'. congruence.
Qed.

Lemma money_display_roundtrip_witness :
  let m := Money.from_minor_units i64_min Currency.Usd in
  Money.display m = lit "USD -92233720368547758.08" /\ Money.read (Money.display m) = Some m.
Proof.
  intros m. split; [reflexivity|]. apply (money_display_roundtrip m).
  split; vm_compute; discriminate.
Defined.
