(* ===== verification/DomainIdentifier.v ===== *)
(** * Typed identifiers (crates/domain/src/identifier.rs)

    The macro [define_identifier!] declares twelve newtypes with one body.
    Here the body is written once, indexed by the kind that the macro call
    names, so that identifiers of two kinds cannot be confused.

    The [uuid] crate is outside the repository: its inspection, parsing and
    printing functions are the operations of [UuidLibrary]; what is used of
    them is [UuidLaws]: parsing reads back what printing wrote, the hyphenated
    form of 36 ASCII characters. *)

From S2P Require Import Prelude Text.

(** A UUID is a 128-bit value. *)
Record Uuid := MkUuid {
  as_u128 : N;
  uuid_range : Is_true (as_u128 <? 340282366920938463463374607431768211456)%N
}.

Lemma Uuid_eq (u v : Uuid) : as_u128 u = as_u128 v -> u = v.
Proof.
  destruct u as [m Hm], v as [n Hn]. cbn. intros ->. f_equal. apply proof_irrel.
Qed.

#[global] Instance Uuid_eq_dec : EqDecision Uuid.
Proof.
  intros u v. destruct (decide (as_u128 u = as_u128 v)) as [H|H].
  - left. by apply Uuid_eq.
  - right. congruence.
Defined.

Definition uuid_from_u128 (n : N) : option Uuid :=
  match decide (Is_true (n <? 340282366920938463463374607431768211456)%N) with
  | left H => Some (MkUuid n H)
  | right _ => None
  end.

#[global] Instance Uuid_countable : Countable Uuid.
Proof.
  apply (inj_countable as_u128 uuid_from_u128).
  intros u. unfold uuid_from_u128. destruct (decide _) as [H|H].
  - f_equal. by apply Uuid_eq.
  - destruct H. apply u.
Defined.

(** ** The [uuid] crate *)
Class UuidLibrary := {
  uuid_Error : Type;
  uuid_Variant : Type;
  uuid_Version : Type;
  #[global] uuid_Variant_eq_dec :: EqDecision uuid_Variant;
  #[global] uuid_Version_eq_dec :: EqDecision uuid_Version;
  RFC4122 : uuid_Variant;
  SortRand : uuid_Version;
  is_nil : Uuid -> bool;
  get_variant : Uuid -> uuid_Variant;
  get_version : Uuid -> option uuid_Version;
  parse_str : Str -> Result uuid_Error Uuid;
  uuid_fmt : Uuid -> Str
}.

Class UuidLaws `{UuidLibrary} := {
  parse_str_fmt u : parse_str (uuid_fmt u) = Ok u;
  uuid_fmt_wf u : str_wf (uuid_fmt u);
  uuid_fmt_len u : str_len (uuid_fmt u) = 36
}.

(** ** The identifiers *)
Inductive IdentifierKind :=
| KTransitAccountId | KRiderId | KFareCredentialId | KReaderId | KEquipmentKeyId
| KFareTransactionId | KFarePolicyId | KJourneyId | KTransitProductId
| KTransitProductInstanceId | KSynchronizationBatchId | KDomainEventId.

(** The [$kind] literal of each macro call. *)
Definition kind_text (k : IdentifierKind) : Str :=
  match k with
  | KTransitAccountId => lit "transit account identifier"
  | KRiderId => lit "rider identifier"
  | KFareCredentialId => lit "fare credential identifier"
  | KReaderId => lit "reader identifier"
  | KEquipmentKeyId => lit "equipment key identifier"
  | KFareTransactionId => lit "fare transaction identifier"
  | KFarePolicyId => lit "fare policy identifier"
  | KJourneyId => lit "journey identifier"
  | KTransitProductId => lit "transit product identifier"
  | KTransitProductInstanceId => lit "transit product instance identifier"
  | KSynchronizationBatchId => lit "synchronization batch identifier"
  | KDomainEventId => lit "domain event identifier"
  end.

Record Identifier (k : IdentifierKind) := MkIdentifier { into_uuid : Uuid }.

Arguments MkIdentifier {k} into_uuid.
Arguments into_uuid {k} _.

#[global] Instance Identifier_eq_dec k : EqDecision (Identifier k).
Proof. solve_decision. Defined.

#[global] Instance Identifier_countable k : Countable (Identifier k).
Proof. apply (inj_countable' into_uuid MkIdentifier). by intros []. Defined.

Abbreviation TransitAccountId := (Identifier KTransitAccountId).
Abbreviation RiderId := (Identifier KRiderId).
Abbreviation FareCredentialId := (Identifier KFareCredentialId).
Abbreviation ReaderId := (Identifier KReaderId).
Abbreviation EquipmentKeyId := (Identifier KEquipmentKeyId).
Abbreviation FareTransactionId := (Identifier KFareTransactionId).
Abbreviation FarePolicyId := (Identifier KFarePolicyId).
Abbreviation JourneyId := (Identifier KJourneyId).
Abbreviation TransitProductId := (Identifier KTransitProductId).
Abbreviation TransitProductInstanceId := (Identifier KTransitProductInstanceId).
Abbreviation SynchronizationBatchId := (Identifier KSynchronizationBatchId).
Abbreviation DomainEventId := (Identifier KDomainEventId).

Module IdentifierError.

Inductive t `{UuidLibrary} :=
| Nil (kind : Str)
| InvalidVariant (kind : Str)
| UnsupportedVersion (kind : Str)
| InvalidFormat (kind : Str) (source : uuid_Error).

End IdentifierError.

Section operations.
Context `{UuidLibrary}.

Definition validate_identifier (k : IdentifierKind) (value : Uuid)
  : Result IdentifierError.t (Identifier k) :=
  if is_nil value then Err (IdentifierError.Nil (kind_text k))
  else if decide (get_variant value <> RFC4122) then
    Err (IdentifierError.InvalidVariant (kind_text k))
  else if decide (get_version value <> Some SortRand) then
    Err (IdentifierError.UnsupportedVersion (kind_text k))
  else Ok (MkIdentifier value).

Definition try_from_uuid (k : IdentifierKind) (value : Uuid)
  : Result IdentifierError.t (Identifier k) := validate_identifier k value.

Definition identifier_from_str (k : IdentifierKind) (value : Str)
  : Result IdentifierError.t (Identifier k) :=
  parsed ← map_err (IdentifierError.InvalidFormat (kind_text k)) (parse_str value);
  try_from_uuid k parsed.

Definition identifier_to_string {k} (id : Identifier k) : Str := uuid_fmt (into_uuid id).

(** Every way in ([TryFrom], [FromStr], [Deserialize]) goes through
    [validate_identifier]: an identifier of the program satisfies this. *)
Definition identifier_wf {k} (id : Identifier k) : Prop :=
  is_nil (into_uuid id) = false
  /\ get_variant (into_uuid id) = RFC4122
  /\ get_version (into_uuid id) = Some SortRand.

Lemma validate_identifier_Ok k value id :
  validate_identifier k value = Ok id <-> id = MkIdentifier value /\ identifier_wf id.
Proof.
  unfold validate_identifier, identifier_wf.
  destruct (is_nil value) eqn:Hn; [naive_solver congruence|].
  destruct (decide (get_variant value <> RFC4122)); [naive_solver|].
  destruct (decide (get_version value <> Some SortRand)); [naive_solver|].
  destruct id as [u]. cbn. split.
  - intros [=->]. repeat split; [done|by apply dec_stable..].
  - by intros [[=->] _].
Qed.

(** Text round trip: the printed form of a validated identifier parses back
    to it, and whatever parses is a validated identifier. *)
Lemma identifier_from_str_to_string `{!UuidLaws} {k} (id : Identifier k) :
  identifier_wf id -> identifier_from_str k (identifier_to_string id) = Ok id.
Proof.
  intros Hid. unfold identifier_from_str, identifier_to_string.
  rewrite parse_str_fmt. cbn. apply validate_identifier_Ok. by destruct id.
Qed.

Lemma identifier_from_str_wf k s (id : Identifier k) :
  identifier_from_str k s = Ok id -> identifier_wf id.
Proof.
  unfold identifier_from_str. rewrite Result_bind_Ok. intros (u & _ & Hu).
  by apply validate_identifier_Ok in Hu as [_ ?].
Qed.

(** Printing is injective: two identities never share their text. *)
Lemma identifier_to_string_inj `{!UuidLaws} {k} (a b : Identifier k) :
  identifier_to_string a = identifier_to_string b -> a = b.
Proof.
  unfold identifier_to_string. intros Heq.
  assert (Ok (E := uuid_Error) (into_uuid a) = Ok (into_uuid b)) as [=Hu]
    by (by rewrite <- !parse_str_fmt, Heq).
  destruct a, b. cbn in *. by subst.
Qed.

End operations.

(** ** A concrete [uuid] library

    The hyphenated hexadecimal form and the version and variant bits, as the
    documentation of the [uuid] crate describes them.  It shows that the
    interface [UuidLibrary] and its laws can be met, and lets examples
    compute. *)

Definition hex_digit (d : Z) : Z := if d <? 10 then 48 + d else 87 + d.

Definition hex_value (c : Z) : option Z :=
  if (48 <=? c) && (c <=? 57) then Some (c - 48)
  else if (97 <=? c) && (c <=? 102) then Some (c - 87)
  else if (65 <=? c) && (c <=? 70) then Some (c - 55)
  else None.

Fixpoint hex_fixed (width : nat) (n : Z) : Str :=
  match width with
  | O => []
  | S width' => hex_fixed width' (n / 16) ++ [hex_digit (n `mod` 16)]
  end.

Definition read_hex_digit (acc : option Z) (c : Z) : option Z :=
  a ← acc; d ← hex_value c; Some (16 * a + d).

Definition read_hex (s : Str) : option Z := foldl read_hex_digit (Some 0) s.

(** [8-4-4-4-12]. *)
Definition hyphenate (d : Str) : Str :=
  take 8 d ++ [45] ++ take 4 (drop 8 d) ++ [45] ++ take 4 (drop 12 d) ++ [45]
  ++ take 4 (drop 16 d) ++ [45] ++ drop 20 d.

Definition strip_hyphens (s : Str) : Str :=
  take 8 s ++ take 4 (drop 9 s) ++ take 4 (drop 14 s) ++ take 4 (drop 19 s) ++ drop 24 s.

Definition reference_parse (s : Str) : Result unit Uuid :=
  if decide (length s = 36%nat) then
    n ← ok_or (read_hex (strip_hyphens s)) tt;
    ok_or (uuid_from_u128 (Z.to_N n)) tt
  else Err tt.

Definition uuid_bits (u : Uuid) (low width : Z) : Z :=
  (Z.of_N (as_u128 u) / 2 ^ low) `mod` 2 ^ width.

#[export] Instance reference_uuid : UuidLibrary := {|
  uuid_Error := unit;
  uuid_Variant := bool;
  uuid_Version := Z;
  RFC4122 := true;
  SortRand := 7;
  is_nil u := (as_u128 u =? 0)%N;
  get_variant u := uuid_bits u 62 2 =? 2;
  get_version u := Some (uuid_bits u 76 4);
  parse_str := reference_parse;
  uuid_fmt u := hyphenate (hex_fixed 32 (Z.of_N (as_u128 u)))
|}.

Lemma length_hex_fixed width n : length (hex_fixed width n) = width.
Proof.
  revert n. induction width as [|width IH]; intros n; [done|]. cbn.
  rewrite length_app, IH. cbn. lia.
Qed.

Lemma hex_fixed_ascii width n : Forall (fun c => 45 <= c < 128) (hex_fixed width n).
Proof.
  revert n. induction width as [|width IH]; intros n; [constructor|]. cbn [hex_fixed].
  apply Forall_app. split; [apply IH|]. constructor; [|constructor].
  pose proof (Z.mod_pos_bound n 16). unfold hex_digit. case_match; lia.
Qed.

Lemma hex_value_digit d : 0 <= d < 16 -> hex_value (hex_digit d) = Some d.
Proof.
  intros Hd. assert (d = 0 \/ d = 1 \/ d = 2 \/ d = 3 \/ d = 4 \/ d = 5 \/ d = 6 \/ d = 7 \/ d = 8
    \/ d = 9 \/ d = 10 \/ d = 11 \/ d = 12 \/ d = 13 \/ d = 14 \/ d = 15) by lia.
  by repeat (destruct_or?); subst.
Qed.

Lemma read_hex_fixed width n :
  0 <= n < 16 ^ Z.of_nat width -> read_hex (hex_fixed width n) = Some n.
Proof.
  revert n. induction width as [|width IH]; intros n Hn.
  - change (16 ^ Z.of_nat 0) with 1 in Hn. cbn. f_equal. lia.
  - rewrite Nat2Z.inj_succ, Z.pow_succ_r in Hn by lia. cbn [hex_fixed].
    unfold read_hex. rewrite foldl_snoc. fold (read_hex (hex_fixed width (n / 16))).
    rewrite IH by (Z.div_mod_to_equations; nia). unfold read_hex_digit. cbn [mbind option_bind].
    rewrite hex_value_digit by (apply Z.mod_pos_bound; lia). cbn. f_equal.
    symmetry. apply Z.div_mod. lia.
Qed.

Lemma hyphenate_ok d :
  length d = 32%nat -> strip_hyphens (hyphenate d) = d /\ length (hyphenate d) = 36%nat.
Proof. intros H. do 32 (destruct d as [|? d]; [discriminate|]). by destruct d. Qed.

Lemma hyphenate_ascii d :
  Forall (fun c => 45 <= c < 128) d -> Forall (fun c => 45 <= c < 128) (hyphenate d).
Proof.
  intros H. unfold hyphenate. repeat (apply Forall_app; split);
    auto using Forall_take, Forall_drop; repeat constructor; lia.
Qed.

Lemma str_len_ascii s : Forall (fun c => 45 <= c < 128) s -> str_len s = Z.of_nat (length s).
Proof.
  unfold str_len. intros H. f_equal. induction H as [|c s Hc _ IH]; [done|].
  rewrite as_bytes_cons, length_app, IH. unfold utf8_char.
  destruct (Z.ltb_spec c 128); [done|lia].
Qed.

Lemma uuid_bound u : (as_u128 u < 340282366920938463463374607431768211456)%N.
Proof. apply N.ltb_lt, Is_true_eq_true, (uuid_range u). Qed.

#[export] Instance reference_uuid_laws : UuidLaws.
Proof.
  split; intros u; cbn [parse_str uuid_fmt reference_uuid];
    pose proof (length_hex_fixed 32 (Z.of_N (as_u128 u))) as Hlen;
    pose proof (hyphenate_ascii _ (hex_fixed_ascii 32 (Z.of_N (as_u128 u)))) as Hascii;
    destruct (hyphenate_ok _ Hlen) as [Hstrip Hlen'].
  - unfold reference_parse. rewrite decide_True by done. rewrite Hstrip, read_hex_fixed.
    + cbn [ok_or mbind Result_bind]. rewrite N2Z.id.
      assert (H : uuid_from_u128 (as_u128 u) = Some u); [|by rewrite H].
      unfold uuid_from_u128. destruct (decide _) as [H|H]; [f_equal; by apply Uuid_eq|].
      destruct H. apply u.
    + pose proof (uuid_bound u).
      change (16 ^ Z.of_nat 32) with 340282366920938463463374607431768211456. lia.
  - unfold str_wf. eapply Forall_impl; [exact Hascii|]. intros c. cbn. unfold in_scalar. lia.
  - rewrite str_len_ascii by done. by rewrite Hlen'.
Qed.

(** Version and variant of a random UUID of version 7, and a number. *)
Definition uuid_reader : Uuid := MkUuid 0x00000000000070008000000000000001 I.
Definition uuid_batch : Uuid := MkUuid 0x00000000000070008000000000000002 I.
Definition uuid_first : Uuid := MkUuid 0x00000000000070008000000000000003 I.
Definition uuid_second : Uuid := MkUuid 0x00000000000070008000000000000004 I.
