(* ===== verification/DomainAccount.v ===== *)
(** * Transit accounts (crates/domain/src/account.rs) *)

From S2P Require Import Prelude Text DomainMoney DomainIdentifier.

Module TransitAccountStatus.

Inductive t := Active | Suspended | Closed.

#[global] Instance eq_dec : EqDecision t.
Proof. solve_decision. Defined.

Definition display (self : t) : Str :=
  match self with
  | Active => lit "active"
  | Suspended => lit "suspended"
  | Closed => lit "closed"
  end.

End TransitAccountStatus.

Module EligibilityClassification.

Inductive t := Standard | Youth | Senior | ReducedFare | EmployeeTestAccount.

#[global] Instance eq_dec : EqDecision t.
Proof. solve_decision. Defined.

End EligibilityClassification.

Module StoredValueError.

Inductive t :=
| NegativeBalance (balance : Money.t)
| NonPositiveCredit (amount : Money.t)
| NonPositiveDebit (amount : Money.t)
| InsufficientStoredValue (available requested : Money.t)
| Money_ (e : MoneyError.t).

End StoredValueError.

Module StoredValueBalance.

(** [struct StoredValueBalance(Money)]. *)
Record t := mk { amount : Money.t }.

#[global] Instance eq_dec : EqDecision t.
Proof. solve_decision. Defined.

Definition new (a : Money.t) : Result StoredValueError.t t :=
  if Money.is_negative a then Err (StoredValueError.NegativeBalance a)
  else Ok (mk a).

Definition zero (c : Currency.t) : t := mk (Money.zero c).
Definition currency (self : t) : Currency.t := Money.currency (amount self).

Definition credit (a : Money.t) : Mut t StoredValueError.t unit :=
  if negb (Money.is_positive a) then fail (StoredValueError.NonPositiveCredit a)
  else
    self ← get;
    updated ← lift (map_err StoredValueError.Money_ (Money.checked_add (amount self) a));
    put (mk updated).

Definition debit (a : Money.t) : Mut t StoredValueError.t unit :=
  if negb (Money.is_positive a) then fail (StoredValueError.NonPositiveDebit a)
  else
    self ← get;
    updated ← lift (map_err StoredValueError.Money_ (Money.checked_subtract (amount self) a));
    if Money.is_negative updated then
      fail (StoredValueError.InsufficientStoredValue (amount self) a)
    else put (mk updated).

(** [Deserialize]: the decoded amount passes through [new]. *)
Definition deserialize (decoded : Money.t) : Result StoredValueError.t t := new decoded.

(** The invariant the constructor establishes. *)
Definition wf (self : t) : Prop :=
  Money.wf (amount self) /\ 0 <= Money.minor_units (amount self).

End StoredValueBalance.

Module TransitAccountError.

Inductive t :=
| AccountNotActive (status : TransitAccountStatus.t)
| AccountClosed
| InvalidStatusTransition (from to : TransitAccountStatus.t)
| StoredValue (e : StoredValueError.t).

End TransitAccountError.

Module TransitAccount.

Record t := mk {
  id : TransitAccountId;
  rider_id : RiderId;
  status : TransitAccountStatus.t;
  eligibility : EligibilityClassification.t;
  stored_value : StoredValueBalance.t
}.

#[global] Instance eq_dec : EqDecision t.
Proof. solve_decision. Defined.

Definition set_status (s : TransitAccountStatus.t) (self : t) : t :=
  mk (id self) (rider_id self) s (eligibility self) (stored_value self).
Definition set_eligibility (e : EligibilityClassification.t) (self : t) : t :=
  mk (id self) (rider_id self) (status self) e (stored_value self).
Definition set_stored_value (b : StoredValueBalance.t) (self : t) : t :=
  mk (id self) (rider_id self) (status self) (eligibility self) b.

Definition new (i : TransitAccountId) (r : RiderId) (e : EligibilityClassification.t)
    (initial_balance : Money.t) : Result TransitAccountError.t t :=
  balance ← map_err TransitAccountError.StoredValue (StoredValueBalance.new initial_balance);
  Ok (mk i r TransitAccountStatus.Active e balance).

Definition is_active (self : t) : bool :=
  match status self with
  | TransitAccountStatus.Active => true
  | _ => false
  end.

Definition on_stored_value (m : Mut StoredValueBalance.t StoredValueError.t unit)
  : Mut t TransitAccountError.t unit :=
  zoom stored_value set_stored_value TransitAccountError.StoredValue m.

Definition credit_stored_value (a : Money.t) : Mut t TransitAccountError.t unit :=
  self ← get;
  if decide (status self = TransitAccountStatus.Closed) then
    fail TransitAccountError.AccountClosed
  else on_stored_value (StoredValueBalance.credit a).

Definition ensure_active : Mut t TransitAccountError.t unit :=
  self ← get;
  if decide (status self <> TransitAccountStatus.Active) then
    fail (TransitAccountError.AccountNotActive (status self))
  else mret tt.

Definition debit_stored_value (a : Money.t) : Mut t TransitAccountError.t unit :=
  _ ← ensure_active;
  on_stored_value (StoredValueBalance.debit a).

Definition suspend : Mut t TransitAccountError.t unit :=
  self ← get;
  match status self with
  | TransitAccountStatus.Active => modify (set_status TransitAccountStatus.Suspended)
  | TransitAccountStatus.Suspended => mret tt
  | TransitAccountStatus.Closed =>
      fail (TransitAccountError.InvalidStatusTransition
              TransitAccountStatus.Closed TransitAccountStatus.Suspended)
  end.

Definition reactivate : Mut t TransitAccountError.t unit :=
  self ← get;
  match status self with
  | TransitAccountStatus.Active => mret tt
  | TransitAccountStatus.Suspended => modify (set_status TransitAccountStatus.Active)
  | TransitAccountStatus.Closed =>
      fail (TransitAccountError.InvalidStatusTransition
              TransitAccountStatus.Closed TransitAccountStatus.Active)
  end.

Definition close : Mut t TransitAccountError.t unit :=
  modify (set_status TransitAccountStatus.Closed).

Definition change_eligibility (e : EligibilityClassification.t)
  : Mut t TransitAccountError.t unit :=
  self ← get;
  if decide (status self = TransitAccountStatus.Closed) then
    fail TransitAccountError.AccountClosed
  else modify (set_eligibility e).

End TransitAccount.

(** ** Correctness *)

Lemma StoredValueBalance_new_Ok a b :
  StoredValueBalance.new a = Ok b <->
  b = StoredValueBalance.mk a /\ 0 <= Money.minor_units a.
Proof.
  unfold StoredValueBalance.new. destruct (Money.is_negative a) eqn:H.
  - apply Money.is_negative_spec in H. split; [done|]. intros [_ ?]. lia.
  - apply Money.is_negative_false in H. naive_solver.
Qed.

(** The five public commands of an account. *)
Module AccountCommand.

Inductive t :=
| CreditStoredValue (a : Money.t)
| DebitStoredValue (a : Money.t)
| Suspend
| Reactivate
| Close
| ChangeEligibility (e : EligibilityClassification.t).

End AccountCommand.

#[global] Instance account_aggregate :
  Aggregate TransitAccount.t TransitAccountError.t AccountCommand.t := fun op =>
  match op with
  | AccountCommand.CreditStoredValue a => TransitAccount.credit_stored_value a
  | AccountCommand.DebitStoredValue a => TransitAccount.debit_stored_value a
  | AccountCommand.Suspend => TransitAccount.suspend
  | AccountCommand.Reactivate => TransitAccount.reactivate
  | AccountCommand.Close => TransitAccount.close
  | AccountCommand.ChangeEligibility e => TransitAccount.change_eligibility e
  end.

(** What a command does to the balance of an account it is applied to. *)
Definition balance_change (s : TransitAccount.t) (op : AccountCommand.t) : Z :=
  if succeeds s op then
    match op with
    | AccountCommand.CreditStoredValue a => Money.minor_units a
    | AccountCommand.DebitStoredValue a => - Money.minor_units a
    | _ => 0
    end
  else 0.

Fixpoint balance_changes (s : TransitAccount.t) (ops : list AccountCommand.t) : Z :=
  match ops with
  | [] => 0
  | op :: ops' => balance_change s op + balance_changes (exec s op) ops'
  end.

Definition account_units (s : TransitAccount.t) : Z :=
  Money.minor_units (StoredValueBalance.amount (TransitAccount.stored_value s)).
Definition account_currency (s : TransitAccount.t) : Currency.t :=
  StoredValueBalance.currency (TransitAccount.stored_value s).

Definition account_wf (s : TransitAccount.t) : Prop :=
  StoredValueBalance.wf (TransitAccount.stored_value s).

Lemma balance_credit a b :
  StoredValueBalance.credit a b =
  match Money.is_positive a, Money.checked_add (StoredValueBalance.amount b) a with
  | false, _ => (b, Err (StoredValueError.NonPositiveCredit a))
  | true, Ok m => (StoredValueBalance.mk m, Ok tt)
  | true, Err e => (b, Err (StoredValueError.Money_ e))
  end.
Proof.
  unfold StoredValueBalance.credit. mut_simpl. destruct (Money.is_positive a); [|done].
  cbn. by destruct (Money.checked_add _ _).
Qed.

Lemma balance_debit a b :
  StoredValueBalance.debit a b =
  match Money.is_positive a, Money.checked_subtract (StoredValueBalance.amount b) a with
  | false, _ => (b, Err (StoredValueError.NonPositiveDebit a))
  | true, Ok m =>
      if Money.is_negative m then
        (b, Err (StoredValueError.InsufficientStoredValue (StoredValueBalance.amount b) a))
      else (StoredValueBalance.mk m, Ok tt)
  | true, Err e => (b, Err (StoredValueError.Money_ e))
  end.
Proof.
  unfold StoredValueBalance.debit. mut_simpl. destruct (Money.is_positive a); [|done].
  cbn. destruct (Money.checked_subtract _ _); [|done]. cbn. by destruct (Money.is_negative _).
Qed.

Ltac account_cases :=
  unfold exec, succeeds, step, account_aggregate, TransitAccount.credit_stored_value,
    TransitAccount.debit_stored_value, TransitAccount.ensure_active,
    TransitAccount.on_stored_value, TransitAccount.suspend, TransitAccount.reactivate,
    TransitAccount.close, TransitAccount.change_eligibility in *;
  mut_simpl;
  repeat (rewrite ?balance_credit, ?balance_debit in *; case_match; simplify_eq/=);
  try done.

Lemma account_error_atomic :
  error_atomic TransitAccount.t TransitAccountError.t AccountCommand.t.
Proof. intros op [i r s e b] err. destruct op; account_cases. Qed.

(** One command: identity and currency stay, the balance moves by
    [balance_change], and the balance invariant is preserved. *)
Lemma account_step_effect s op :
  account_wf s ->
  let s' := exec s op in
  TransitAccount.id s' = TransitAccount.id s
  /\ TransitAccount.rider_id s' = TransitAccount.rider_id s
  /\ account_currency s' = account_currency s
  /\ account_units s' = account_units s + balance_change s op
  /\ account_wf s'.
Proof.
  destruct s as [i r st e [b]].
  unfold account_wf, StoredValueBalance.wf, account_currency, StoredValueBalance.currency,
    account_units, balance_change.
  intros [Hwf Hpos]. destruct op; account_cases; unfold Money.wf in *; money_facts;
    split_and!; done || lia || congruence.
Qed.

Lemma account_run_effect ops : forall s,
  account_wf s ->
  let s' := run s ops in
  TransitAccount.id s' = TransitAccount.id s
  /\ TransitAccount.rider_id s' = TransitAccount.rider_id s
  /\ account_currency s' = account_currency s
  /\ account_units s' = account_units s + balance_changes s ops
  /\ account_wf s'.
Proof.
  induction ops as [|op ops IH]; intros s Hs s'; [split_and!; done || (cbn; lia)|].
  subst s'. rewrite run_cons. cbn [balance_changes].
  destruct (account_step_effect s op Hs) as (H1 & H2 & H3 & H4 & H5).
  destruct (IH (exec s op) H5) as (K1 & K2 & K3 & K4 & K5).
  split_and!; congruence || lia || done.
Qed.

(** The ledger of an account: from the account [TransitAccount::new]
    builds, after any history of commands (failed ones included) the balance
    is the initial balance plus the successful credits minus the successful
    debits, it is never negative and fits an [i64], and the identifier, the
    rider and the currency are those the account was opened with. *)
Theorem account_ledger i r e initial ops s :
  Money.wf initial ->
  TransitAccount.new i r e initial = Ok s ->
  account_units (run s ops) = Money.minor_units initial + balance_changes s ops
  /\ 0 <= account_units (run s ops) <= i64_max
  /\ account_currency (run s ops) = Money.currency initial
  /\ TransitAccount.id (run s ops) = i
  /\ TransitAccount.rider_id (run s ops) = r.
Proof.
  intros Hwf Hnew. unfold TransitAccount.new in Hnew. result_inv.
  match goal with H : StoredValueBalance.new _ = Ok _ |- _ =>
    apply StoredValueBalance_new_Ok in H as [-> ?] end.
  match goal with |- context [run ?s0 ops] =>
    destruct (account_run_effect ops s0) as (H1 & H2 & H3 & H4 & [Hi64 Hpos]); [by split|]
  end.
  rewrite H1, H2, H3, H4. unfold account_units in *. rewrite H4 in Hpos. unfold Money.wf in Hi64.
  rewrite H4 in Hi64. cbn in *. split_and!; done || int_lia.
Qed.

(** A debit on every branch.  It succeeds exactly on an active account, for
    a positive amount in the account's currency that the balance covers, and
    then takes the amount off the balance and nothing else; otherwise the
    account is untouched and the error is the first that applies, in the
    order status, sign, currency, funds.  The checked subtraction cannot
    overflow. *)
Theorem debit_stored_value_spec s a :
  account_wf s -> Money.wf a ->
  let b := StoredValueBalance.amount (TransitAccount.stored_value s) in
  TransitAccount.debit_stored_value a s =
    if decide (TransitAccount.status s <> TransitAccountStatus.Active) then
      (s, Err (TransitAccountError.AccountNotActive (TransitAccount.status s)))
    else if decide (Money.minor_units a <= 0) then
      (s, Err (TransitAccountError.StoredValue (StoredValueError.NonPositiveDebit a)))
    else if decide (Money.currency b <> Money.currency a) then
      (s, Err (TransitAccountError.StoredValue (StoredValueError.Money_
            (MoneyError.CurrencyMismatch (Money.currency b) (Money.currency a)))))
    else if decide (Money.minor_units b < Money.minor_units a) then
      (s, Err (TransitAccountError.StoredValue (StoredValueError.InsufficientStoredValue b a)))
    else
      (TransitAccount.set_stored_value
         (StoredValueBalance.mk
            (Money.from_minor_units (Money.minor_units b - Money.minor_units a) (Money.currency b))) s,
       Ok tt).
Proof.
  intros [Hwf Hpos] Ha b. subst b. unfold TransitAccount.debit_stored_value,
    TransitAccount.ensure_active, TransitAccount.on_stored_value.
  destruct s as [i r st e [b]]. mut_simpl.
  destruct (decide (st <> TransitAccountStatus.Active)); [done|].
  rewrite balance_debit. cbn.
  destruct (decide (Money.minor_units a <= 0)) as [Hle|Hgt].
  { by apply Money.is_positive_false in Hle as ->. }
  rewrite (proj2 (Money.is_positive_spec a)) by lia.
  destruct (decide (Money.currency b <> Money.currency a)) as [Hne|Heq].
  { unfold Money.checked_subtract, Money.ensure_same_currency. by rewrite decide_False. }
  apply dec_stable in Heq. rewrite Money.checked_subtract_nonneg by (done || lia).
  case_decide as Hlt.
  - by rewrite (proj2 (Money.is_negative_spec _)) by (cbn; lia).
  - by rewrite (proj2 (Money.is_negative_false _)) by (cbn; lia).
Qed.

(** Account lifecycle: a command that returns an error leaves the account
    exactly as it was, and once an account is closed no history of commands
    changes anything in it: closing is permanent and freezes balance and
    eligibility. *)
Theorem account_lifecycle :
  error_atomic TransitAccount.t TransitAccountError.t AccountCommand.t
  /\ forall s ops, TransitAccount.status s = TransitAccountStatus.Closed -> run s ops = s.
Proof.
  split; [apply account_error_atomic|].
  intros s ops. revert s. induction ops as [|op ops IH]; intros s Hs; [done|].
  rewrite run_cons. replace (exec s op) with s; [by apply IH|].
  destruct s as [i r st e b]. cbn in Hs. subst st. destruct op; account_cases.
Qed.

(** ** Witnesses *)

Definition uuid_1 : Uuid := MkUuid 1 I.
Definition sample_money (n : Z) : Money.t := Money.from_minor_units n Currency.Usd.

Lemma account_ledger_witness :
  let s := TransitAccount.mk (MkIdentifier uuid_1) (MkIdentifier uuid_1)
    TransitAccountStatus.Active EligibilityClassification.Standard
    (StoredValueBalance.mk (sample_money 500)) in
  let ops := [ AccountCommand.DebitStoredValue (sample_money 800);
               AccountCommand.CreditStoredValue (sample_money 400);
               AccountCommand.DebitStoredValue (sample_money 800);
               AccountCommand.Close;
               AccountCommand.CreditStoredValue (sample_money 5) ] in
  balance_changes s ops = -400
  /\ account_units (run s ops) = Money.minor_units (sample_money 500) + balance_changes s ops.
Proof.
  intros s ops. split; [reflexivity|].
  apply (account_ledger (MkIdentifier uuid_1) (MkIdentifier uuid_1)
           EligibilityClassification.Standard (sample_money 500) ops s).
  - unfold Money.wf, in_i64, i64_min, i64_max. cbn. lia.
  - reflexivity.
Defined.

Lemma debit_stored_value_spec_witness :
  let s := TransitAccount.mk (MkIdentifier uuid_1) (MkIdentifier uuid_1)
    TransitAccountStatus.Active EligibilityClassification.Standard
    (StoredValueBalance.mk (sample_money 500)) in
  TransitAccount.debit_stored_value (sample_money 120) s =
    (TransitAccount.set_stored_value (StoredValueBalance.mk (sample_money 380)) s, Ok tt).
Proof.
  intros s. rewrite (debit_stored_value_spec s (sample_money 120)).
  - reflexivity.
  - unfold account_wf, StoredValueBalance.wf, Money.wf, in_i64, i64_min, i64_max. cbn. lia.
  - unfold Money.wf, in_i64, i64_min, i64_max. cbn. lia.
Defined.
