(* ===== verification/DomainCredential.v ===== *)
(** * Fare credentials (crates/domain/src/credential.rs)

    The credential aggregate, its lifecycle graph as a step relation, and the
    refinement of the graph by the methods. *)

From S2P Require Import Prelude Text DomainIdentifier.

Module FareCredentialKind.

Inductive t := Card | Mobile | DevelopmentTestToken.

#[global] Instance eq_dec : EqDecision t.
Proof. solve_decision. Defined.

End FareCredentialKind.

Module FareCredentialStatus.

Inductive t := Pending | Active | Suspended | Revoked | Expired | Replaced.

#[global] Instance eq_dec : EqDecision t.
Proof. solve_decision. Defined.

Definition is_terminal (self : t) : bool :=
  match self with
  | Revoked | Expired | Replaced => true
  | _ => false
  end.

Definition display (self : t) : Str :=
  match self with
  | Pending => lit "pending"
  | Active => lit "active"
  | Suspended => lit "suspended"
  | Revoked => lit "revoked"
  | Expired => lit "expired"
  | Replaced => lit "replaced"
  end.

End FareCredentialStatus.

Module RevocationReason.

Inductive t :=
| ReportedLost | ReportedStolen | Replaced | AccountSuspended | AdministrativeAction
| SecurityIncident | TestCleanup.

#[global] Instance eq_dec : EqDecision t.
Proof. solve_decision. Defined.

End RevocationReason.

Module FareCredentialError.

Inductive t :=
| InvalidStatusTransition (from to : FareCredentialStatus.t)
| SelfReplacement
| ReplacementAlreadyRecorded (existing requested : FareCredentialId).

#[global] Instance eq_dec : EqDecision t.
Proof. solve_decision. Defined.

End FareCredentialError.

Module FareCredential.

Record t := mk {
  id : FareCredentialId;
  transit_account_id : TransitAccountId;
  kind : FareCredentialKind.t;
  status : FareCredentialStatus.t;
  revocation_reason : option RevocationReason.t;
  replacement_id : option FareCredentialId
}.

#[global] Instance eq_dec : EqDecision t.
Proof. solve_decision. Defined.

Definition new_pending (i : FareCredentialId) (account : TransitAccountId)
    (k : FareCredentialKind.t) : t :=
  mk i account k FareCredentialStatus.Pending None None.

Definition set_status (s : FareCredentialStatus.t) (self : t) : t :=
  mk (id self) (transit_account_id self) (kind self) s
     (revocation_reason self) (replacement_id self).
Definition set_revocation_reason (r : option RevocationReason.t) (self : t) : t :=
  mk (id self) (transit_account_id self) (kind self) (status self) r (replacement_id self).
Definition set_replacement_id (r : option FareCredentialId) (self : t) : t :=
  mk (id self) (transit_account_id self) (kind self) (status self)
     (revocation_reason self) r.

Definition is_usable (self : t) : bool :=
  match status self with
  | FareCredentialStatus.Active => true
  | _ => false
  end.

Definition activate : Mut t FareCredentialError.t unit :=
  self ← get;
  match status self with
  | FareCredentialStatus.Pending | FareCredentialStatus.Suspended =>
      modify (set_status FareCredentialStatus.Active)
  | FareCredentialStatus.Active => mret tt
  | current =>
      fail (FareCredentialError.InvalidStatusTransition current FareCredentialStatus.Active)
  end.

Definition suspend : Mut t FareCredentialError.t unit :=
  self ← get;
  match status self with
  | FareCredentialStatus.Active => modify (set_status FareCredentialStatus.Suspended)
  | FareCredentialStatus.Suspended => mret tt
  | current =>
      fail (FareCredentialError.InvalidStatusTransition current FareCredentialStatus.Suspended)
  end.

Definition reactivate : Mut t FareCredentialError.t unit := activate.

Definition revoke (reason : RevocationReason.t) : Mut t FareCredentialError.t unit :=
  self ← get;
  match status self with
  | FareCredentialStatus.Revoked => mret tt
  | FareCredentialStatus.Expired | FareCredentialStatus.Replaced =>
      fail (FareCredentialError.InvalidStatusTransition
              (status self) FareCredentialStatus.Revoked)
  | FareCredentialStatus.Pending | FareCredentialStatus.Active
  | FareCredentialStatus.Suspended =>
      _ ← modify (set_status FareCredentialStatus.Revoked);
      _ ← modify (set_revocation_reason (Some reason));
      modify (set_replacement_id None)
  end.

Definition expire : Mut t FareCredentialError.t unit :=
  self ← get;
  match status self with
  | FareCredentialStatus.Expired => mret tt
  | FareCredentialStatus.Revoked | FareCredentialStatus.Replaced =>
      fail (FareCredentialError.InvalidStatusTransition
              (status self) FareCredentialStatus.Expired)
  | FareCredentialStatus.Pending | FareCredentialStatus.Active
  | FareCredentialStatus.Suspended =>
      _ ← modify (set_status FareCredentialStatus.Expired);
      _ ← modify (set_revocation_reason None);
      modify (set_replacement_id None)
  end.

Definition replace_with (replacement : FareCredentialId)
  : Mut t FareCredentialError.t unit :=
  self ← get;
  if decide (replacement = id self) then fail FareCredentialError.SelfReplacement
  else
    match status self with
    | FareCredentialStatus.Active | FareCredentialStatus.Suspended =>
        _ ← modify (set_status FareCredentialStatus.Replaced);
        _ ← modify (set_revocation_reason None);
        modify (set_replacement_id (Some replacement))
    | FareCredentialStatus.Replaced =>
        match replacement_id self with
        | Some existing =>
            if decide (existing = replacement) then mret tt
            else fail (FareCredentialError.ReplacementAlreadyRecorded existing replacement)
        | None =>
            fail (FareCredentialError.InvalidStatusTransition
                    FareCredentialStatus.Replaced FareCredentialStatus.Replaced)
        end
    | current =>
        fail (FareCredentialError.InvalidStatusTransition
                current FareCredentialStatus.Replaced)
    end.

End FareCredential.

Module CredentialCommand.

Inductive t :=
| Activate
| Suspend
| Reactivate
| Revoke (reason : RevocationReason.t)
| Expire
| ReplaceWith (replacement : FareCredentialId).

End CredentialCommand.

#[global] Instance credential_aggregate :
  Aggregate FareCredential.t FareCredentialError.t CredentialCommand.t := fun op =>
  match op with
  | CredentialCommand.Activate => FareCredential.activate
  | CredentialCommand.Suspend => FareCredential.suspend
  | CredentialCommand.Reactivate => FareCredential.reactivate
  | CredentialCommand.Revoke reason => FareCredential.revoke reason
  | CredentialCommand.Expire => FareCredential.expire
  | CredentialCommand.ReplaceWith replacement => FareCredential.replace_with replacement
  end.

(** ** The lifecycle graph, and the aggregate's invariant *)

(** The moves of a credential, by the command that makes them: the edges of
    the lifecycle graph, with the bookkeeping that goes with each. *)
Inductive credential_move : CredentialCommand.t -> FareCredential.t -> FareCredential.t -> Prop :=
| move_activate i a k s r p op :
    op = CredentialCommand.Activate \/ op = CredentialCommand.Reactivate ->
    s = FareCredentialStatus.Pending \/ s = FareCredentialStatus.Suspended ->
    credential_move op (FareCredential.mk i a k s r p)
      (FareCredential.mk i a k FareCredentialStatus.Active r p)
| move_suspend i a k r p :
    credential_move CredentialCommand.Suspend
      (FareCredential.mk i a k FareCredentialStatus.Active r p)
      (FareCredential.mk i a k FareCredentialStatus.Suspended r p)
| move_revoke i a k s r p reason :
    FareCredentialStatus.is_terminal s = false ->
    credential_move (CredentialCommand.Revoke reason) (FareCredential.mk i a k s r p)
      (FareCredential.mk i a k FareCredentialStatus.Revoked (Some reason) None)
| move_expire i a k s r p :
    FareCredentialStatus.is_terminal s = false ->
    credential_move CredentialCommand.Expire (FareCredential.mk i a k s r p)
      (FareCredential.mk i a k FareCredentialStatus.Expired None None)
| move_replace i a k s r p successor :
    s = FareCredentialStatus.Active \/ s = FareCredentialStatus.Suspended ->
    successor <> i ->
    credential_move (CredentialCommand.ReplaceWith successor) (FareCredential.mk i a k s r p)
      (FareCredential.mk i a k FareCredentialStatus.Replaced None (Some successor)).

(** What the command asks for has already happened. *)
Definition credential_already (op : CredentialCommand.t) (c : FareCredential.t) : Prop :=
  match op with
  | CredentialCommand.Activate | CredentialCommand.Reactivate =>
      FareCredential.status c = FareCredentialStatus.Active
  | CredentialCommand.Suspend => FareCredential.status c = FareCredentialStatus.Suspended
  | CredentialCommand.Revoke _ => FareCredential.status c = FareCredentialStatus.Revoked
  | CredentialCommand.Expire => FareCredential.status c = FareCredentialStatus.Expired
  | CredentialCommand.ReplaceWith successor =>
      successor <> FareCredential.id c
      /\ FareCredential.status c = FareCredentialStatus.Replaced
      /\ FareCredential.replacement_id c = Some successor
  end.

(** The status a command leads to. *)
Definition credential_target (op : CredentialCommand.t) : FareCredentialStatus.t :=
  match op with
  | CredentialCommand.Activate | CredentialCommand.Reactivate => FareCredentialStatus.Active
  | CredentialCommand.Suspend => FareCredentialStatus.Suspended
  | CredentialCommand.Revoke _ => FareCredentialStatus.Revoked
  | CredentialCommand.Expire => FareCredentialStatus.Expired
  | CredentialCommand.ReplaceWith _ => FareCredentialStatus.Replaced
  end.

(** Why a command is refused: a replacement by itself, a second successor, or
    (all other cases) a status without an edge to the target. *)
Inductive credential_refusal (op : CredentialCommand.t) (c : FareCredential.t)
  : FareCredentialError.t -> Prop :=
| refuse_self :
    op = CredentialCommand.ReplaceWith (FareCredential.id c) ->
    credential_refusal op c FareCredentialError.SelfReplacement
| refuse_second_successor existing successor :
    op = CredentialCommand.ReplaceWith successor -> successor <> FareCredential.id c ->
    FareCredential.status c = FareCredentialStatus.Replaced ->
    FareCredential.replacement_id c = Some existing -> existing <> successor ->
    credential_refusal op c (FareCredentialError.ReplacementAlreadyRecorded existing successor)
| refuse_transition :
    op <> CredentialCommand.ReplaceWith (FareCredential.id c) ->
    match op, FareCredential.status c with
    | CredentialCommand.Suspend, FareCredentialStatus.Pending
    | CredentialCommand.ReplaceWith _, FareCredentialStatus.Pending => True
    | CredentialCommand.ReplaceWith _, FareCredentialStatus.Replaced =>
        FareCredential.replacement_id c = None
    | _, from =>
        FareCredentialStatus.is_terminal from = true /\ from <> credential_target op
    end ->
    credential_refusal op c
      (FareCredentialError.InvalidStatusTransition (FareCredential.status c) (credential_target op)).

Record credential_wf (c : FareCredential.t) : Prop := {
  credential_revoked_reason :
    FareCredential.status c = FareCredentialStatus.Revoked
    <-> is_Some (FareCredential.revocation_reason c);
  credential_replaced_successor :
    FareCredential.status c = FareCredentialStatus.Replaced
    <-> is_Some (FareCredential.replacement_id c);
  credential_not_own_successor :
    FareCredential.replacement_id c <> Some (FareCredential.id c)
}.

Ltac credential_cases :=
  unfold exec, succeeds, step, credential_aggregate, FareCredential.reactivate,
    FareCredential.activate, FareCredential.suspend, FareCredential.revoke,
    FareCredential.expire, FareCredential.replace_with in *;
  mut_simpl; repeat (case_match; simplify_eq/=); try done.

Lemma credential_error_atomic :
  error_atomic FareCredential.t FareCredentialError.t CredentialCommand.t.
Proof. intros op [i a k s r p] err. destruct op; credential_cases. Qed.

(** Every command does one of three things. *)
Lemma credential_answer c op :
  (outcome (step op) c = Ok tt /\ exec c op <> c /\ credential_move op c (exec c op))
  \/ (outcome (step op) c = Ok tt /\ exec c op = c /\ credential_already op c)
  \/ (exists e, outcome (step op) c = Err e /\ exec c op = c /\ credential_refusal op c e).
Proof.
  destruct c as [i a k s r p]; destruct op, s; credential_cases;
    try (by left; split_and!; [done|discriminate|constructor; naive_solver]);
    try (by right; left; split_and!).
  all: right; right; eexists; (split_and!; [reflexivity|reflexivity|]);
    first [by apply refuse_self | by eapply refuse_second_successor
          |by apply refuse_transition; cbn; [congruence|]].
Qed.

Lemma credential_step_move c op :
  exec c op = c \/ (outcome (step op) c = Ok tt /\ credential_move op c (exec c op)).
Proof. destruct (credential_answer c op) as [(?&_&?)|[(_&?&_)|(e&_&?&_)]]; by auto. Qed.

Lemma credential_move_wf op c c' : credential_move op c c' -> credential_wf c -> credential_wf c'.
Proof.
  intros Hm [H1 H2 H3]. destruct Hm; cbn in *;
    (split; cbn; [split; [done|] | split; [done|] | ]);
    try (intros [? ?]; naive_solver); try (intros ?; naive_solver); naive_solver.
Qed.

Lemma credential_wf_invariant :
  inductive_invariant FareCredential.t FareCredentialError.t CredentialCommand.t credential_wf.
Proof.
  intros c op Hc. destruct (credential_step_move c op) as [->|[_ Hm]]; [done|].
  by eapply credential_move_wf.
Qed.

Lemma credential_terminal_exec c op :
  FareCredentialStatus.is_terminal (FareCredential.status c) = true -> exec c op = c.
Proof.
  intros Ht. destruct (credential_step_move c op) as [|[_ Hm]]; [done|].
  exfalso. destruct Hm; cbn in Ht; naive_solver congruence.
Qed.

(** The three are exclusive, and a move determines what the command does. *)
Lemma credential_move_exec op c c' :
  credential_move op c c' -> outcome (step op) c = Ok tt /\ exec c op = c' /\ c' <> c.
Proof.
  intros Hm. destruct Hm as [i a k s r p op Hop Hs|i a k r p|i a k s r p reason Hs
    |i a k s r p Hs|i a k s r p successor Hs Hne].
  - by destruct Hop, Hs; subst.
  - done.
  - by destruct s.
  - by destruct s.
  - unfold exec, step, credential_aggregate, FareCredential.replace_with. mut_simpl.
    rewrite decide_False by done. by destruct Hs; subst.
Qed.

Lemma credential_already_stays op c :
  credential_already op c -> outcome (step op) c = Ok tt /\ exec c op = c.
Proof. destruct c as [i a k s r p], op; cbn; intros; destruct_and?; subst; by credential_cases. Qed.

Lemma credential_refusal_error op c e :
  credential_refusal op c e -> outcome (step op) c = Err e.
Proof.
  destruct c as [i a k s r p]. intros [->|existing successor -> Hid Hs Hr Hne|Hself Hm];
    cbn in *; subst.
  - by credential_cases.
  - by credential_cases.
  - destruct op, s; cbn in *; destruct_and?; try done; by credential_cases.
Qed.

(** ** Properties *)

(** C39. The methods of a fare credential implement its lifecycle, command by
    command.  A command succeeds and changes the credential exactly when the
    graph has a move with that label, and then makes exactly that move
    (activate and reactivate: pending or suspended to active; suspend: active
    to suspended; revoke with its reason and expire: from any status that is
    not final; replace with another credential: active or suspended); it
    succeeds without any change exactly when what it asks for is already the
    case; it fails with an error exactly when the refusal that error names
    holds, and then changes nothing.  One of the three always applies. *)
Theorem credential_refines_lifecycle c op :
  (forall c', (outcome (step op) c = Ok tt /\ exec c op = c' /\ c' <> c) <-> credential_move op c c')
  /\ ((outcome (step op) c = Ok tt /\ exec c op = c) <-> credential_already op c)
  /\ (forall e, outcome (step op) c = Err e <-> credential_refusal op c e)
  /\ (is_ok (outcome (step op) c) = false -> exec c op = c)
  /\ ((exists c', credential_move op c c') \/ credential_already op c
      \/ exists e, credential_refusal op c e).
Proof.
  pose proof (credential_answer c op) as Ha. split_and!.
  - intros c'. split; [|apply credential_move_exec]. intros (_ & <- & Hne).
    by destruct Ha as [(_&_&?)|[(_&?&_)|(e&_&?&_)]].
  - split; [|apply credential_already_stays]. intros [Hok Heq].
    destruct Ha as [(_&?&_)|[(_&_&?)|(e&He&_)]]; [done|done|congruence].
  - intros e. split; [|apply credential_refusal_error]. intros He.
    destruct Ha as [(?&_)|[(?&_)|(e'&?&_&?)]]; [congruence..|]. by replace e with e' by congruence.
  - by destruct Ha as [(->&_)|[(->&_)|(e'&_&?&_)]].
  - destruct Ha as [(_&_&?)|[(_&_&?)|(e&_&_&?)]]; eauto.
Qed.

(** The credential invariant: after any history of commands on a newly
    issued credential, a revocation reason is recorded exactly when the
    status is revoked, a successor exactly when it is replaced, the successor
    is never the credential itself, and the credential's identity, account
    and kind are those it was issued with. *)
Theorem credential_history_wf i a k ops :
  let c := run (FareCredential.new_pending i a k) ops in
  credential_wf c
  /\ FareCredential.id c = i
  /\ FareCredential.transit_account_id c = a
  /\ FareCredential.kind c = k.
Proof.
  intros c. split.
  - apply (run_invariant credential_wf credential_wf_invariant).
    split; cbn; try done; split; try done; by intros [].
  - subst c. apply (run_relation (fun c c' =>
      FareCredential.id c' = FareCredential.id c
      /\ FareCredential.transit_account_id c' = FareCredential.transit_account_id c
      /\ FareCredential.kind c' = FareCredential.kind c)); [done|].
    intros s s' op (<- & <- & <-).
    destruct (credential_step_move s' op) as [->|[_ Hm]]; [done|]. by destruct Hm.
Qed.

(** Terminal credentials are final and errors are harmless: once a
    credential is revoked, expired or replaced no history of commands changes
    anything in it (neither its status nor the recorded reason or successor),
    so it never becomes usable again; and a command that returns an error has
    not modified the credential. *)
Theorem credential_terminal_final :
  error_atomic FareCredential.t FareCredentialError.t CredentialCommand.t
  /\ forall c ops,
       FareCredentialStatus.is_terminal (FareCredential.status c) = true ->
       run c ops = c /\ FareCredential.is_usable (run c ops) = false.
Proof.
  split; [apply credential_error_atomic|]. intros c ops Ht.
  assert (Hrun : run c ops = c).
  { induction ops as [|op ops IH] using rev_ind; [done|].
    by rewrite run_snoc, IH, credential_terminal_exec. }
  rewrite Hrun. split; [done|]. unfold FareCredential.is_usable. by destruct (FareCredential.status c).
Qed.
