(* ===== verification/DomainEquipment.v ===== *)
(** * Reader equipment (crates/domain/src/equipment.rs) *)

From S2P Require Import Prelude Text DomainIdentifier.

Module ReaderEquipmentStatus.

Inductive t := PendingRegistration | Active | Offline | Disabled | Revoked | Decommissioned.

#[global] Instance eq_dec : EqDecision t.
Proof. solve_decision. Defined.

Definition is_terminal (self : t) : bool :=
  match self with
  | Revoked | Decommissioned => true
  | _ => false
  end.

Definition display (self : t) : Str :=
  match self with
  | PendingRegistration => lit "pending registration"
  | Active => lit "active"
  | Offline => lit "offline"
  | Disabled => lit "disabled"
  | Revoked => lit "revoked"
  | Decommissioned => lit "decommissioned"
  end.

End ReaderEquipmentStatus.

Module ReaderDisablementReason.

Inductive t :=
| SuspectedCompromise | LostEquipment | InvalidConfiguration | AdministrativeAction
| TestCleanup.

#[global] Instance eq_dec : EqDecision t.
Proof. solve_decision. Defined.

End ReaderDisablementReason.

Module ReaderRevocationReason.

Inductive t :=
| SuspectedCompromise | CredentialExposure | AdministrativeAction | SecurityIncident
| TestCleanup.

#[global] Instance eq_dec : EqDecision t.
Proof. solve_decision. Defined.

End ReaderRevocationReason.

Module EquipmentIdentity.

Record t := new { reader_id : ReaderId; key_id : EquipmentKeyId }.

#[global] Instance eq_dec : EqDecision t.
Proof. solve_decision. Defined.

Definition replace_key (k : EquipmentKeyId) (self : t) : t := new (reader_id self) k.

End EquipmentIdentity.

Module ReaderEquipmentError.

Inductive t :=
| InvalidStatusTransition (from to : ReaderEquipmentStatus.t)
| TerminalEquipment (status : ReaderEquipmentStatus.t).

#[global] Instance eq_dec : EqDecision t.
Proof. solve_decision. Defined.

End ReaderEquipmentError.

Module ReaderEquipment.

Record t := mk {
  id : ReaderId;
  identity : EquipmentIdentity.t;
  status : ReaderEquipmentStatus.t;
  disablement_reason : option ReaderDisablementReason.t;
  revocation_reason : option ReaderRevocationReason.t
}.

#[global] Instance eq_dec : EqDecision t.
Proof. solve_decision. Defined.

Definition new_pending (i : ReaderId) (k : EquipmentKeyId) : t :=
  mk i (EquipmentIdentity.new i k) ReaderEquipmentStatus.PendingRegistration None None.

Definition set_identity (x : EquipmentIdentity.t) (self : t) : t :=
  mk (id self) x (status self) (disablement_reason self) (revocation_reason self).
Definition set_status (s : ReaderEquipmentStatus.t) (self : t) : t :=
  mk (id self) (identity self) s (disablement_reason self) (revocation_reason self).
Definition set_disablement_reason (r : option ReaderDisablementReason.t) (self : t) : t :=
  mk (id self) (identity self) (status self) r (revocation_reason self).
Definition set_revocation_reason (r : option ReaderRevocationReason.t) (self : t) : t :=
  mk (id self) (identity self) (status self) (disablement_reason self) r.

Definition can_accept_fare_presentations (self : t) : bool :=
  match status self with
  | ReaderEquipmentStatus.Active | ReaderEquipmentStatus.Offline => true
  | _ => false
  end.

Definition may_authenticate_to_backend (self : t) : bool :=
  match status self with
  | ReaderEquipmentStatus.Active | ReaderEquipmentStatus.Offline => true
  | _ => false
  end.

Definition invalid (current to : ReaderEquipmentStatus.t)
  : Mut t ReaderEquipmentError.t unit :=
  fail (ReaderEquipmentError.InvalidStatusTransition current to).

Definition activate : Mut t ReaderEquipmentError.t unit :=
  self ← get;
  match status self with
  | ReaderEquipmentStatus.PendingRegistration =>
      modify (set_status ReaderEquipmentStatus.Active)
  | ReaderEquipmentStatus.Active => mret tt
  | current => invalid current ReaderEquipmentStatus.Active
  end.

Definition mark_offline : Mut t ReaderEquipmentError.t unit :=
  self ← get;
  match status self with
  | ReaderEquipmentStatus.Active => modify (set_status ReaderEquipmentStatus.Offline)
  | ReaderEquipmentStatus.Offline => mret tt
  | current => invalid current ReaderEquipmentStatus.Offline
  end.

Definition mark_online : Mut t ReaderEquipmentError.t unit :=
  self ← get;
  match status self with
  | ReaderEquipmentStatus.Offline => modify (set_status ReaderEquipmentStatus.Active)
  | ReaderEquipmentStatus.Active => mret tt
  | current => invalid current ReaderEquipmentStatus.Active
  end.

Definition disable (reason : ReaderDisablementReason.t)
  : Mut t ReaderEquipmentError.t unit :=
  self ← get;
  match status self with
  | ReaderEquipmentStatus.PendingRegistration | ReaderEquipmentStatus.Active
  | ReaderEquipmentStatus.Offline =>
      _ ← modify (set_status ReaderEquipmentStatus.Disabled);
      modify (set_disablement_reason (Some reason))
  | ReaderEquipmentStatus.Disabled => mret tt
  | current => invalid current ReaderEquipmentStatus.Disabled
  end.

Definition enable : Mut t ReaderEquipmentError.t unit :=
  self ← get;
  match status self with
  | ReaderEquipmentStatus.Disabled =>
      _ ← modify (set_status ReaderEquipmentStatus.Active);
      modify (set_disablement_reason None)
  | ReaderEquipmentStatus.Active => mret tt
  | current => invalid current ReaderEquipmentStatus.Active
  end.

Definition revoke (reason : ReaderRevocationReason.t)
  : Mut t ReaderEquipmentError.t unit :=
  self ← get;
  match status self with
  | ReaderEquipmentStatus.PendingRegistration | ReaderEquipmentStatus.Active
  | ReaderEquipmentStatus.Offline | ReaderEquipmentStatus.Disabled =>
      _ ← modify (set_status ReaderEquipmentStatus.Revoked);
      _ ← modify (set_disablement_reason None);
      modify (set_revocation_reason (Some reason))
  | ReaderEquipmentStatus.Revoked => mret tt
  | ReaderEquipmentStatus.Decommissioned =>
      invalid ReaderEquipmentStatus.Decommissioned ReaderEquipmentStatus.Revoked
  end.

Definition decommission : Mut t ReaderEquipmentError.t unit :=
  self ← get;
  match status self with
  | ReaderEquipmentStatus.PendingRegistration | ReaderEquipmentStatus.Active
  | ReaderEquipmentStatus.Offline | ReaderEquipmentStatus.Disabled =>
      _ ← modify (set_status ReaderEquipmentStatus.Decommissioned);
      _ ← modify (set_disablement_reason None);
      modify (set_revocation_reason None)
  | ReaderEquipmentStatus.Decommissioned => mret tt
  | ReaderEquipmentStatus.Revoked =>
      invalid ReaderEquipmentStatus.Revoked ReaderEquipmentStatus.Decommissioned
  end.

Definition rotate_equipment_key (k : EquipmentKeyId)
  : Mut t ReaderEquipmentError.t unit :=
  self ← get;
  if ReaderEquipmentStatus.is_terminal (status self) then
    fail (ReaderEquipmentError.TerminalEquipment (status self))
  else modify (fun self => set_identity (EquipmentIdentity.replace_key k (identity self)) self).

End ReaderEquipment.

Module EquipmentCommand.

Inductive t :=
| Activate
| MarkOffline
| MarkOnline
| Disable (reason : ReaderDisablementReason.t)
| Enable
| Revoke (reason : ReaderRevocationReason.t)
| Decommission
| RotateEquipmentKey (k : EquipmentKeyId).

End EquipmentCommand.

#[global] Instance equipment_aggregate :
  Aggregate ReaderEquipment.t ReaderEquipmentError.t EquipmentCommand.t := fun op =>
  match op with
  | EquipmentCommand.Activate => ReaderEquipment.activate
  | EquipmentCommand.MarkOffline => ReaderEquipment.mark_offline
  | EquipmentCommand.MarkOnline => ReaderEquipment.mark_online
  | EquipmentCommand.Disable reason => ReaderEquipment.disable reason
  | EquipmentCommand.Enable => ReaderEquipment.enable
  | EquipmentCommand.Revoke reason => ReaderEquipment.revoke reason
  | EquipmentCommand.Decommission => ReaderEquipment.decommission
  | EquipmentCommand.RotateEquipmentKey k => ReaderEquipment.rotate_equipment_key k
  end.

Record equipment_wf (r : ReaderEquipment.t) : Prop := {
  equipment_identity_reader :
    EquipmentIdentity.reader_id (ReaderEquipment.identity r) = ReaderEquipment.id r;
  equipment_disabled_reason :
    ReaderEquipment.status r = ReaderEquipmentStatus.Disabled
    <-> is_Some (ReaderEquipment.disablement_reason r);
  equipment_revoked_reason :
    ReaderEquipment.status r = ReaderEquipmentStatus.Revoked
    <-> is_Some (ReaderEquipment.revocation_reason r)
}.

Ltac equipment_cases :=
  unfold exec, succeeds, step, equipment_aggregate, ReaderEquipment.activate,
    ReaderEquipment.mark_offline, ReaderEquipment.mark_online, ReaderEquipment.disable,
    ReaderEquipment.enable, ReaderEquipment.revoke, ReaderEquipment.decommission,
    ReaderEquipment.rotate_equipment_key, ReaderEquipment.invalid in *;
  mut_simpl; repeat (case_match; simplify_eq/=); try done.

Lemma equipment_error_atomic :
  error_atomic ReaderEquipment.t ReaderEquipmentError.t EquipmentCommand.t.
Proof. intros op [i x s d r] err. destruct op; equipment_cases. Qed.

Lemma equipment_wf_invariant :
  inductive_invariant ReaderEquipment.t ReaderEquipmentError.t EquipmentCommand.t equipment_wf.
Proof.
  intros [i x s d r] op [H1 H2 H3]. cbn in *.
  assert (Hd : s <> ReaderEquipmentStatus.Disabled -> d = None) by (destruct d; naive_solver).
  assert (Hr : s <> ReaderEquipmentStatus.Revoked -> r = None) by (destruct r; naive_solver).
  destruct op; equipment_cases; (split; cbn; [done| |]); try done;
    rewrite ?Hd, ?Hr by done; split; try done; try (by intros []); naive_solver.
Qed.

Lemma equipment_terminal_exec r op :
  ReaderEquipmentStatus.is_terminal (ReaderEquipment.status r) = true -> exec r op = r.
Proof. destruct r as [i x s d e]. cbn. intros Ht. destruct op; equipment_cases. Qed.

(** A reader leaves "pending registration" for service in two ways. *)
Lemma equipment_disable_enable_activates r reason :
  ReaderEquipment.status r = ReaderEquipmentStatus.PendingRegistration ->
  ReaderEquipment.status (run r [EquipmentCommand.Disable reason; EquipmentCommand.Enable])
    = ReaderEquipmentStatus.Active.
Proof. destruct r as [i x s d e]. cbn. by intros ->. Qed.

(** ** Properties *)

(** The reader-equipment invariant: after any history of commands on newly
    created equipment, the public identity names the reader itself, a
    disablement reason is recorded exactly when the reader is disabled, a
    revocation reason exactly when it is revoked, the reader accepts fare
    presentations exactly when it may authenticate to the backend, and never
    in a terminal status. *)
Theorem equipment_history_wf i k ops :
  let r := run (ReaderEquipment.new_pending i k) ops in
  equipment_wf r
  /\ ReaderEquipment.id r = i
  /\ ReaderEquipment.can_accept_fare_presentations r
       = ReaderEquipment.may_authenticate_to_backend r
  /\ (ReaderEquipmentStatus.is_terminal (ReaderEquipment.status r) = true ->
      ReaderEquipment.can_accept_fare_presentations r = false).
Proof.
  intros r. split_and!.
  - apply (run_invariant equipment_wf equipment_wf_invariant).
    split; cbn; try done; split; try done; by intros [].
  - subst r. apply (run_relation (fun r r' => ReaderEquipment.id r' = ReaderEquipment.id r)); [done|].
    intros s s' op <-. destruct s' as [j x st d e]. destruct op; equipment_cases.
  - done.
  - unfold ReaderEquipment.can_accept_fare_presentations. by destruct (ReaderEquipment.status r).
Qed.

(** Revocation and decommissioning are final and errors are harmless: no
    history of commands, key rotation included, changes anything in terminal
    equipment, and a command that returns an error has not modified the
    equipment. *)
Theorem equipment_terminal_final :
  error_atomic ReaderEquipment.t ReaderEquipmentError.t EquipmentCommand.t
  /\ forall r ops,
       ReaderEquipmentStatus.is_terminal (ReaderEquipment.status r) = true -> run r ops = r.
Proof.
  split; [apply equipment_error_atomic|]. intros r ops Ht.
  induction ops as [|op ops IH] using rev_ind; [done|].
  by rewrite run_snoc, IH, equipment_terminal_exec.
Qed.

(** How a reader enters service: a command takes a reader from not accepting
    fare presentations to accepting them exactly when it completes the
    registration of a pending reader or re-enables a disabled one.  The
    second way does not ask whether the reader was ever registered: disabling
    and re-enabling a reader that is still pending activates it. *)
Theorem equipment_enters_service r op :
  (ReaderEquipment.can_accept_fare_presentations r = false
   /\ ReaderEquipment.can_accept_fare_presentations (exec r op) = true
   <-> (ReaderEquipment.status r = ReaderEquipmentStatus.PendingRegistration
        /\ op = EquipmentCommand.Activate)
       \/ (ReaderEquipment.status r = ReaderEquipmentStatus.Disabled
           /\ op = EquipmentCommand.Enable))
  /\ (ReaderEquipment.status r = ReaderEquipmentStatus.PendingRegistration ->
      forall reason,
        ReaderEquipment.can_accept_fare_presentations
          (run r [EquipmentCommand.Disable reason; EquipmentCommand.Enable]) = true).
Proof.
  split.
  - destruct r as [i x s d e]. unfold ReaderEquipment.can_accept_fare_presentations.
    destruct op, s; equipment_cases; naive_solver.
  - intros Hs reason. unfold ReaderEquipment.can_accept_fare_presentations.
    by rewrite equipment_disable_enable_activates.
Qed.
