(* ===== verification/DomainTransaction.v ===== *)
(** * Fare transactions (crates/domain/src/transaction.rs) *)

From S2P Require Import Prelude Text DomainMoney DomainIdentifier.

Module FareTransactionValueError.

Inductive t :=
| ZeroLocalSequenceNumber
| ZeroFarePolicyVersion
| NegativeEventTime (unix_milliseconds : Z).

End FareTransactionValueError.

Module LocalSequenceNumber.

(** [struct LocalSequenceNumber(u64)]. *)
Record t := mk { value : Z }.

#[global] Instance eq_dec : EqDecision t.
Proof. solve_decision. Defined.

Definition new (v : Z) : Result FareTransactionValueError.t t :=
  if v =? 0 then Err FareTransactionValueError.ZeroLocalSequenceNumber else Ok (mk v).

Definition wf (self : t) : Prop := 1 <= value self <= u64_max.

End LocalSequenceNumber.

Module FarePolicyVersion.

(** [struct FarePolicyVersion(u64)]. *)
Record t := mk { value : Z }.

#[global] Instance eq_dec : EqDecision t.
Proof. solve_decision. Defined.

Definition new (v : Z) : Result FareTransactionValueError.t t :=
  if v =? 0 then Err FareTransactionValueError.ZeroFarePolicyVersion else Ok (mk v).

End FarePolicyVersion.

Module EventTime.

(** [struct EventTime(i64)]. *)
Record t := mk { unix_milliseconds : Z }.

#[global] Instance eq_dec : EqDecision t.
Proof. solve_decision. Defined.

Definition from_unix_milliseconds (ms : Z) : Result FareTransactionValueError.t t :=
  if ms <? 0 then Err (FareTransactionValueError.NegativeEventTime ms) else Ok (mk ms).

(** What the constructor, the only way to make one, guarantees. *)
Definition wf (self : t) : Prop := 0 <= unix_milliseconds self <= i64_max.

End EventTime.

Module FareProcessingMode.

Inductive t := Online | Offline.

#[global] Instance eq_dec : EqDecision t.
Proof. solve_decision. Defined.

End FareProcessingMode.

Module FareApprovalReason.

Inductive t := StandardFare | Transfer | TransitProduct | FareCap | OfflineProvisional.

#[global] Instance eq_dec : EqDecision t.
Proof. solve_decision. Defined.

End FareApprovalReason.

Module FareRejectionReason.

Inductive t :=
| CredentialRevoked | CredentialExpired | AccountSuspended | ReaderDisabled
| InvalidSignature | UnsupportedProtocol | InsufficientStoredValue | ProductInvalid
| OfflineLimitExceeded | StalePolicy | StaleRevocationData.

#[global] Instance eq_dec : EqDecision t.
Proof. solve_decision. Defined.

End FareRejectionReason.

Module FareDecisionError.

Inductive t := NegativeApprovedAmount (amount : Money.t).

End FareDecisionError.

Module FareDecision.

Inductive t :=
| Approved (charged_amount : Money.t) (reason : FareApprovalReason.t)
| Rejected (reason : FareRejectionReason.t).

#[global] Instance eq_dec : EqDecision t.
Proof. solve_decision. Defined.

Definition approved (amount : Money.t) (reason : FareApprovalReason.t)
  : Result FareDecisionError.t t :=
  if Money.is_negative amount then Err (FareDecisionError.NegativeApprovedAmount amount)
  else Ok (Approved amount reason).

Definition rejected (reason : FareRejectionReason.t) : t := Rejected reason.

Definition is_approved (self : t) : bool :=
  match self with Approved _ _ => true | Rejected _ => false end.

Definition is_rejected (self : t) : bool :=
  match self with Approved _ _ => false | Rejected _ => true end.

Definition charged_amount (self : t) : option Money.t :=
  match self with
  | Approved amount _ => Some amount
  | Rejected _ => None
  end.

(** [FareDecisionRepresentation] has the shape of the decision itself;
    [Deserialize] passes an approval through [approved]. *)
Definition deserialize (representation : t) : Result FareDecisionError.t t :=
  match representation with
  | Approved amount reason => approved amount reason
  | Rejected reason => Ok (rejected reason)
  end.

End FareDecision.

Module FareTransactionStatus.

Inductive t := PendingDecision | Decided | Reconciled.

#[global] Instance eq_dec : EqDecision t.
Proof. solve_decision. Defined.

Definition display (self : t) : Str :=
  match self with
  | PendingDecision => lit "pending decision"
  | Decided => lit "decided"
  | Reconciled => lit "reconciled"
  end.

End FareTransactionStatus.

Module FareTransactionError.

Inductive t :=
| DecisionConflict (existing requested : FareDecision.t)
| CannotReconcileUndecided (status : FareTransactionStatus.t).

End FareTransactionError.

Module FareTransaction.

Record t := mk {
  id : FareTransactionId;
  transit_account_id : TransitAccountId;
  fare_credential_id : FareCredentialId;
  reader_id : ReaderId;
  local_sequence_number : LocalSequenceNumber.t;
  fare_policy_version : FarePolicyVersion.t;
  event_time : EventTime.t;
  processing_mode : FareProcessingMode.t;
  status : FareTransactionStatus.t;
  decision : option FareDecision.t
}.

Definition new_pending (i : FareTransactionId) (account : TransitAccountId)
    (credential : FareCredentialId) (reader : ReaderId) (seq : LocalSequenceNumber.t)
    (policy : FarePolicyVersion.t) (time : EventTime.t) (mode : FareProcessingMode.t) : t :=
  mk i account credential reader seq policy time mode
     FareTransactionStatus.PendingDecision None.

Definition set_status (s : FareTransactionStatus.t) (self : t) : t :=
  mk (id self) (transit_account_id self) (fare_credential_id self) (reader_id self)
     (local_sequence_number self) (fare_policy_version self) (event_time self)
     (processing_mode self) s (decision self).
Definition set_decision (d : option FareDecision.t) (self : t) : t :=
  mk (id self) (transit_account_id self) (fare_credential_id self) (reader_id self)
     (local_sequence_number self) (fare_policy_version self) (event_time self)
     (processing_mode self) (status self) d.

Definition charged_amount (self : t) : option Money.t :=
  match decision self with
  | Some d => FareDecision.charged_amount d
  | None => None
  end.

Definition record_decision (d : FareDecision.t) : Mut t FareTransactionError.t unit :=
  self ← get;
  match decision self with
  | Some existing =>
      if decide (existing = d) then mret tt
      else fail (FareTransactionError.DecisionConflict existing d)
  | None =>
      _ ← modify (set_decision (Some d));
      modify (set_status FareTransactionStatus.Decided)
  end.

Definition mark_reconciled : Mut t FareTransactionError.t unit :=
  self ← get;
  match status self with
  | FareTransactionStatus.PendingDecision =>
      fail (FareTransactionError.CannotReconcileUndecided (status self))
  | FareTransactionStatus.Decided => modify (set_status FareTransactionStatus.Reconciled)
  | FareTransactionStatus.Reconciled => mret tt
  end.

End FareTransaction.

Module TransactionCommand.

Inductive t := RecordDecision (d : FareDecision.t) | MarkReconciled.

End TransactionCommand.

#[global] Instance transaction_aggregate :
  Aggregate FareTransaction.t FareTransactionError.t TransactionCommand.t := fun op =>
  match op with
  | TransactionCommand.RecordDecision d => FareTransaction.record_decision d
  | TransactionCommand.MarkReconciled => FareTransaction.mark_reconciled
  end.

(** ** What a history of commands amounts to

    [settle ops] reads off a history the decision and the status the
    transaction must end with: the first recorded decision stands, and the
    transaction is reconciled when a reconciliation follows it. *)
Fixpoint reconciles (ops : list TransactionCommand.t) : bool :=
  match ops with
  | [] => false
  | TransactionCommand.MarkReconciled :: _ => true
  | TransactionCommand.RecordDecision _ :: ops' => reconciles ops'
  end.

Fixpoint settle (ops : list TransactionCommand.t)
  : FareTransactionStatus.t * option FareDecision.t :=
  match ops with
  | [] => (FareTransactionStatus.PendingDecision, None)
  | TransactionCommand.MarkReconciled :: ops' => settle ops'
  | TransactionCommand.RecordDecision d :: ops' =>
      (if reconciles ops' then FareTransactionStatus.Reconciled
       else FareTransactionStatus.Decided, Some d)
  end.

Ltac transaction_cases :=
  unfold exec, step, transaction_aggregate, FareTransaction.record_decision,
    FareTransaction.mark_reconciled in *;
  mut_simpl; repeat (case_match; simplify_eq/=); try done.

Lemma transaction_error_atomic :
  error_atomic FareTransaction.t FareTransactionError.t TransactionCommand.t.
Proof. intros op [] err. destruct op; transaction_cases. Qed.

(** From a decided transaction only reconciliation can still happen. *)
Lemma transaction_run_decided ops : forall t d,
  FareTransaction.decision t = Some d ->
  FareTransaction.status t <> FareTransactionStatus.PendingDecision ->
  run t ops =
    if reconciles ops then FareTransaction.set_status FareTransactionStatus.Reconciled t else t.
Proof.
  induction ops as [|op ops IH]; intros t d Hd Hs; [by destruct t|].
  rewrite run_cons. destruct op as [d'|]; cbn [reconciles].
  - replace (exec t (TransactionCommand.RecordDecision d')) with t; [by eapply IH|].
    destruct t as [i a c r q p e m s o]. cbn in *. subst. transaction_cases.
  - replace (exec t TransactionCommand.MarkReconciled)
      with (FareTransaction.set_status FareTransactionStatus.Reconciled t).
    + rewrite (IH _ d) by (destruct t; done). destruct t. by destruct (reconciles ops).
    + destruct t as [i a c r q p e m s o]. cbn in *. transaction_cases.
Qed.

Lemma transaction_run_settle i a c r q p e m ops :
  let t0 := FareTransaction.new_pending i a c r q p e m in
  run t0 ops =
    FareTransaction.set_status (settle ops).1 (FareTransaction.set_decision (settle ops).2 t0).
Proof.
  intros t0. induction ops as [|[d|] ops IH]; [done| |exact IH].
  rewrite run_cons. cbn [settle].
  rewrite (transaction_run_decided _ _ d) by done. by destruct (reconciles ops).
Qed.

Lemma settle_pending ops :
  (settle ops).1 = FareTransactionStatus.PendingDecision <-> (settle ops).2 = None.
Proof. induction ops as [|[d|] ops IH]; cbn; [done| |done]. by destruct (reconciles ops). Qed.

(** ** Properties *)

(** The first decision stands: after any history of commands on a pending
    transaction, the decision is the first one ever recorded and the status
    is pending, decided or reconciled according to whether a decision was
    recorded and a reconciliation followed it; every other field is the one
    the transaction was created with, and commands that return an error (a
    conflicting second decision, a premature reconciliation) have modified
    nothing. *)
Theorem transaction_settles i a c r q p e m ops :
  let t0 := FareTransaction.new_pending i a c r q p e m in
  run t0 ops =
    FareTransaction.set_status (settle ops).1 (FareTransaction.set_decision (settle ops).2 t0)
  /\ error_atomic FareTransaction.t FareTransactionError.t TransactionCommand.t.
Proof.
  split; [apply transaction_run_settle | apply transaction_error_atomic].
Qed.

(** Decisions are idempotent and conflicts are reported: recording succeeds
    exactly when no different decision is on record, a conflict names both
    decisions, and reconciliation fails exactly on an undecided transaction. *)
Theorem transaction_outcomes i a c r q p e m ops d :
  let t := run (FareTransaction.new_pending i a c r q p e m) ops in
  outcome (FareTransaction.record_decision d) t =
    match FareTransaction.decision t with
    | Some existing =>
        if decide (existing = d) then Ok tt
        else Err (FareTransactionError.DecisionConflict existing d)
    | None => Ok tt
    end
  /\ (outcome FareTransaction.mark_reconciled t =
      match FareTransaction.decision t with
      | Some _ => Ok tt
      | None => Err (FareTransactionError.CannotReconcileUndecided
                       FareTransactionStatus.PendingDecision)
      end).
Proof.
  intros t. subst t. rewrite transaction_run_settle.
  pose proof (settle_pending ops) as Hp. destruct (settle ops) as [s o]. cbn in Hp.
  unfold FareTransaction.record_decision, FareTransaction.mark_reconciled. mut_simpl.
  split; [repeat (case_match; simplify_eq/=); done|]. destruct s, o; naive_solver.
Qed.
