(* ===== verification/DomainEvents.v ===== *)
(** * Domain events (crates/domain/src/event.rs) *)

From S2P Require Import Prelude Text DomainMoney DomainIdentifier DomainAccount.
From S2P Require Import DomainCredential DomainEquipment DomainTransaction.

Module DomainEventValueError.

Inductive t :=
| ZeroAggregateVersion
| NegativeDomainEventTime (unix_milliseconds : Z).

End DomainEventValueError.

Module AggregateVersion.

(** [struct AggregateVersion(u64)]. *)
Record t := mk { value : Z }.

#[global] Instance eq_dec : EqDecision t.
Proof. solve_decision. Defined.

Definition new (v : Z) : Result DomainEventValueError.t t :=
  if v =? 0 then Err DomainEventValueError.ZeroAggregateVersion else Ok (mk v).

Definition wf (self : t) : Prop := 1 <= value self <= u64_max.

End AggregateVersion.

Module DomainEventTime.

(** [struct DomainEventTime(i64)]. *)
Record t := mk { unix_milliseconds : Z }.

#[global] Instance eq_dec : EqDecision t.
Proof. solve_decision. Defined.

Definition from_unix_milliseconds (ms : Z) : Result DomainEventValueError.t t :=
  if ms <? 0 then Err (DomainEventValueError.NegativeDomainEventTime ms) else Ok (mk ms).

End DomainEventTime.

Module DomainAggregateId.

Inductive t :=
| TransitAccount (id : TransitAccountId)
| FareCredential (id : FareCredentialId)
| ReaderEquipment (id : ReaderId)
| FareTransaction (id : FareTransactionId).

#[global] Instance eq_dec : EqDecision t.
Proof. solve_decision. Defined.

Definition display `{UuidLibrary} (self : t) : Str :=
  match self with
  | TransitAccount id => lit "transit-account:" ++ identifier_to_string id
  | FareCredential id => lit "fare-credential:" ++ identifier_to_string id
  | ReaderEquipment id => lit "reader-equipment:" ++ identifier_to_string id
  | FareTransaction id => lit "fare-transaction:" ++ identifier_to_string id
  end.

End DomainAggregateId.

Module StoredValueChangeReason.

Inductive t :=
| SimulatedFundsCredit | FareDebit | AdministrativeAdjustment | ReconciliationAdjustment.

#[global] Instance eq_dec : EqDecision t.
Proof. solve_decision. Defined.

End StoredValueChangeReason.

Module DomainEventPayload.

Inductive t :=
| TransitAccountCreated (account_id : TransitAccountId) (rider_id : RiderId)
    (initial_balance : StoredValueBalance.t)
| TransitAccountStatusChanged (account_id : TransitAccountId)
    (previous_status current_status : TransitAccountStatus.t)
| StoredValueChanged (account_id : TransitAccountId)
    (previous_balance current_balance : StoredValueBalance.t)
    (reason : StoredValueChangeReason.t)
| FareCredentialIssued (credential_id : FareCredentialId) (account_id : TransitAccountId)
    (kind : FareCredentialKind.t)
| FareCredentialStatusChanged (credential_id : FareCredentialId)
    (previous_status current_status : FareCredentialStatus.t)
| ReaderEquipmentRegistered (reader_id : ReaderId) (equipment_key_id : EquipmentKeyId)
| ReaderEquipmentStatusChanged (reader_id : ReaderId)
    (previous_status current_status : ReaderEquipmentStatus.t)
| EquipmentKeyRotated (reader_id : ReaderId) (previous_key_id current_key_id : EquipmentKeyId)
| FareTransactionDecided (transaction_id : FareTransactionId) (decision : FareDecision.t)
| FareTransactionReconciled (transaction_id : FareTransactionId).

#[global] Instance eq_dec : EqDecision t.
Proof. solve_decision. Defined.

Definition event_name (self : t) : Str :=
  match self with
  | TransitAccountCreated _ _ _ => lit "transit_account.created"
  | TransitAccountStatusChanged _ _ _ => lit "transit_account.status_changed"
  | StoredValueChanged _ _ _ _ => lit "transit_account.stored_value_changed"
  | FareCredentialIssued _ _ _ => lit "fare_credential.issued"
  | FareCredentialStatusChanged _ _ _ => lit "fare_credential.status_changed"
  | ReaderEquipmentRegistered _ _ => lit "reader_equipment.registered"
  | ReaderEquipmentStatusChanged _ _ _ => lit "reader_equipment.status_changed"
  | EquipmentKeyRotated _ _ _ => lit "reader_equipment.key_rotated"
  | FareTransactionDecided _ _ => lit "fare_transaction.decided"
  | FareTransactionReconciled _ => lit "fare_transaction.reconciled"
  end.

Definition aggregate_id (self : t) : DomainAggregateId.t :=
  match self with
  | TransitAccountCreated account_id _ _
  | TransitAccountStatusChanged account_id _ _
  | StoredValueChanged account_id _ _ _ => DomainAggregateId.TransitAccount account_id
  | FareCredentialIssued credential_id _ _
  | FareCredentialStatusChanged credential_id _ _ =>
      DomainAggregateId.FareCredential credential_id
  | ReaderEquipmentRegistered reader_id _
  | ReaderEquipmentStatusChanged reader_id _ _
  | EquipmentKeyRotated reader_id _ _ => DomainAggregateId.ReaderEquipment reader_id
  | FareTransactionDecided transaction_id _
  | FareTransactionReconciled transaction_id =>
      DomainAggregateId.FareTransaction transaction_id
  end.

End DomainEventPayload.

Module DomainEventError.

Inductive t :=
| NoStatusChange (event_name : Str)
| NoStoredValueChange
| StoredValueCurrencyChanged (previous current : Currency.t)
| NoEquipmentKeyChange.

#[global] Instance eq_dec : EqDecision t.
Proof. solve_decision. Defined.

End DomainEventError.

Module DomainEvent.

Record t := mk {
  id : DomainEventId;
  aggregate_id : DomainAggregateId.t;
  aggregate_version : AggregateVersion.t;
  occurred_at : DomainEventTime.t;
  payload : DomainEventPayload.t
}.

#[global] Instance eq_dec : EqDecision t.
Proof. solve_decision. Defined.

Definition validate_payload (payload : DomainEventPayload.t)
  : Result DomainEventError.t unit :=
  let unchanged := Err (DomainEventError.NoStatusChange (DomainEventPayload.event_name payload)) in
  match payload with
  | DomainEventPayload.TransitAccountStatusChanged _ previous current =>
      if decide (previous = current) then unchanged else Ok tt
  | DomainEventPayload.FareCredentialStatusChanged _ previous current =>
      if decide (previous = current) then unchanged else Ok tt
  | DomainEventPayload.ReaderEquipmentStatusChanged _ previous current =>
      if decide (previous = current) then unchanged else Ok tt
  | DomainEventPayload.StoredValueChanged _ previous current _ =>
      if decide (StoredValueBalance.currency previous <> StoredValueBalance.currency current) then
        Err (DomainEventError.StoredValueCurrencyChanged
               (StoredValueBalance.currency previous) (StoredValueBalance.currency current))
      else if decide (previous = current) then Err DomainEventError.NoStoredValueChange
      else Ok tt
  | DomainEventPayload.EquipmentKeyRotated _ previous current =>
      if decide (previous = current) then Err DomainEventError.NoEquipmentKeyChange else Ok tt
  | _ => Ok tt
  end.

Definition new (i : DomainEventId) (version : AggregateVersion.t) (at_ : DomainEventTime.t)
    (payload : DomainEventPayload.t) : Result DomainEventError.t t :=
  _ ← validate_payload payload;
  Ok (mk i (DomainEventPayload.aggregate_id payload) version at_ payload).

Definition event_name (self : t) : Str := DomainEventPayload.event_name (payload self).

End DomainEvent.

(** ** What an event records

    The payloads that state a change: the specification of [validate_payload]. *)
Inductive records_change : DomainEventPayload.t -> Prop :=
| records_account_created a r b :
    records_change (DomainEventPayload.TransitAccountCreated a r b)
| records_account_status a p c :
    p <> c -> records_change (DomainEventPayload.TransitAccountStatusChanged a p c)
| records_stored_value a p c reason :
    StoredValueBalance.currency p = StoredValueBalance.currency c ->
    Money.minor_units (StoredValueBalance.amount p)
      <> Money.minor_units (StoredValueBalance.amount c) ->
    records_change (DomainEventPayload.StoredValueChanged a p c reason)
| records_credential_issued i a k :
    records_change (DomainEventPayload.FareCredentialIssued i a k)
| records_credential_status i p c :
    p <> c -> records_change (DomainEventPayload.FareCredentialStatusChanged i p c)
| records_reader_registered r k :
    records_change (DomainEventPayload.ReaderEquipmentRegistered r k)
| records_reader_status r p c :
    p <> c -> records_change (DomainEventPayload.ReaderEquipmentStatusChanged r p c)
| records_key_rotated r p c :
    p <> c -> records_change (DomainEventPayload.EquipmentKeyRotated r p c)
| records_decided t d : records_change (DomainEventPayload.FareTransactionDecided t d)
| records_reconciled t : records_change (DomainEventPayload.FareTransactionReconciled t).

Lemma validate_payload_Ok p u :
  DomainEvent.validate_payload p = Ok u <-> records_change p.
Proof.
  destruct u. unfold DomainEvent.validate_payload.
  destruct p as [| |a [[n c]] [[n' c']] reason| | | | | | |];
    unfold StoredValueBalance.currency; cbn; repeat case_decide; split; intros Hx; try done;
    try (by constructor); try (inversion Hx; simplify_eq/=; done || congruence).
  subst c'. constructor; [done|]. cbn. intros ->. congruence.
Qed.

Lemma DomainEvent_new_Ok i v at_ p e :
  DomainEvent.new i v at_ p = Ok e <->
  records_change p
  /\ e = DomainEvent.mk i (DomainEventPayload.aggregate_id p) v at_ p.
Proof.
  unfold DomainEvent.new. rewrite Result_bind_Ok. setoid_rewrite validate_payload_Ok.
  split; [naive_solver|]. intros [? ->]. by exists tt.
Qed.

(** Domain events record real changes and cannot disagree with their
    payload.  [DomainEvent::new] succeeds exactly for a payload that records a
    change: different statuses, a balance that moved without changing
    currency, a key that was replaced.  The event then carries its arguments
    as given and the aggregate that its payload names; a refused payload is
    refused with the error of its kind. *)
Theorem domain_event_new_spec i v at_ p :
  (records_change p <->
   DomainEvent.new i v at_ p
     = Ok (DomainEvent.mk i (DomainEventPayload.aggregate_id p) v at_ p))
  /\ (forall e, DomainEvent.new i v at_ p = Ok e ->
        DomainEvent.aggregate_id e = DomainEventPayload.aggregate_id (DomainEvent.payload e))
  /\ (forall err, DomainEvent.new i v at_ p = Err err ->
        ~ records_change p /\
        match p with
        | DomainEventPayload.StoredValueChanged _ b b' _ =>
            if decide (StoredValueBalance.currency b = StoredValueBalance.currency b') then
              err = DomainEventError.NoStoredValueChange
            else err = DomainEventError.StoredValueCurrencyChanged
                         (StoredValueBalance.currency b) (StoredValueBalance.currency b')
        | DomainEventPayload.EquipmentKeyRotated _ _ _ =>
            err = DomainEventError.NoEquipmentKeyChange
        | _ => err = DomainEventError.NoStatusChange (DomainEventPayload.event_name p)
        end).
Proof.
  split_and!.
  - rewrite DomainEvent_new_Ok. naive_solver.
  - intros e He. apply DomainEvent_new_Ok in He as [_ ->]. done.
  - intros err Herr. split.
    + intros Hp. assert (Hok : DomainEvent.new i v at_ p
        = Ok (DomainEvent.mk i (DomainEventPayload.aggregate_id p) v at_ p))
        by (by apply DomainEvent_new_Ok). congruence.
    + unfold DomainEvent.new, DomainEvent.validate_payload in Herr.
      destruct p; cbn in *; repeat case_decide; naive_solver.
Qed.
