(* ===== verification/FareEnginePolicy.v ===== *)
(** * Fare policies (crates/fare-engine/src/policy.rs) *)

From S2P Require Import Prelude Text DomainMoney DomainIdentifier DomainAccount.
From S2P Require Import DomainTransaction.

Module FarePolicyValueError.

Inductive t :=
| ZeroZoneId
| ZeroTransferWindow
| DiscountAboveFullFare (basis_points : Z).

End FarePolicyValueError.

Module FarePolicyError.

Inductive t :=
| CurrencyMismatch (field : Str) (expected actual : Currency.t)
| NegativeAmount (field : Str) (amount : Money.t)
| DailyCapBelowBaseFare (base_fare daily_cap : Money.t)
| WeeklyCapBelowDailyCap (daily_cap weekly_cap : Money.t)
| TransferDiscountExceedsBaseFare (base_fare transfer_discount : Money.t).

#[global] Instance eq_dec : EqDecision t.
Proof. solve_decision. Defined.

End FarePolicyError.

Module ZoneId.

(** [struct ZoneId(u16)]. *)
Record t := mk { value : Z }.

#[global] Instance eq_dec : EqDecision t.
Proof. solve_decision. Defined.

Definition new (v : Z) : Result FarePolicyValueError.t t :=
  if v =? 0 then Err FarePolicyValueError.ZeroZoneId else Ok (mk v).

Definition wf (self : t) : Prop := 1 <= value self <= u16_max.

End ZoneId.

Module TransferWindow.

(** [struct TransferWindow(u64)]. *)
Record t := mk { milliseconds : Z }.

#[global] Instance eq_dec : EqDecision t.
Proof. solve_decision. Defined.

Definition from_milliseconds (ms : Z) : Result FarePolicyValueError.t t :=
  if ms =? 0 then Err FarePolicyValueError.ZeroTransferWindow else Ok (mk ms).

Definition wf (self : t) : Prop := 1 <= milliseconds self <= u64_max.

End TransferWindow.

Module DiscountBasisPoints.

(** [struct DiscountBasisPoints(u16)]. *)
Record t := mk { value : Z }.

#[global] Instance eq_dec : EqDecision t.
Proof. solve_decision. Defined.

Definition ZERO : t := mk 0.
Definition FULL_FARE : t := mk 10000.

Definition new (basis_points : Z) : Result FarePolicyValueError.t t :=
  if 10000 <? basis_points then Err (FarePolicyValueError.DiscountAboveFullFare basis_points)
  else Ok (mk basis_points).

Definition wf (self : t) : Prop := 0 <= value self <= 10000.

End DiscountBasisPoints.

Module EligibilityDiscounts.

Record t := new {
  youth : DiscountBasisPoints.t;
  senior : DiscountBasisPoints.t;
  reduced_fare : DiscountBasisPoints.t;
  employee_test_account : DiscountBasisPoints.t
}.

#[global] Instance eq_dec : EqDecision t.
Proof. solve_decision. Defined.

Definition none : t :=
  new DiscountBasisPoints.ZERO DiscountBasisPoints.ZERO DiscountBasisPoints.ZERO
      DiscountBasisPoints.ZERO.

Definition rate_for (self : t) (eligibility : EligibilityClassification.t)
  : DiscountBasisPoints.t :=
  match eligibility with
  | EligibilityClassification.Standard => DiscountBasisPoints.ZERO
  | EligibilityClassification.Youth => youth self
  | EligibilityClassification.Senior => senior self
  | EligibilityClassification.ReducedFare => reduced_fare self
  | EligibilityClassification.EmployeeTestAccount => employee_test_account self
  end.

Definition wf (self : t) : Prop :=
  DiscountBasisPoints.wf (youth self) /\ DiscountBasisPoints.wf (senior self)
  /\ DiscountBasisPoints.wf (reduced_fare self)
  /\ DiscountBasisPoints.wf (employee_test_account self).

Lemma rate_for_wf self e : wf self -> DiscountBasisPoints.wf (rate_for self e).
Proof. intros (?&?&?&?). by destruct e. Qed.

End EligibilityDiscounts.

Module FarePolicyDefinition.

Record t := mk {
  id : FarePolicyId;
  version : FarePolicyVersion.t;
  currency : Currency.t;
  base_fare : Money.t;
  zone_surcharge : Money.t;
  transfer_window : TransferWindow.t;
  transfer_discount : Money.t;
  daily_cap : Money.t;
  weekly_cap : Money.t;
  eligibility_discounts : EligibilityDiscounts.t
}.

#[global] Instance eq_dec : EqDecision t.
Proof. solve_decision. Defined.

(** The fields are machine integers and validated value objects. *)
Record wf (d : t) : Prop := {
  wf_base_fare : Money.wf (base_fare d);
  wf_zone_surcharge : Money.wf (zone_surcharge d);
  wf_transfer_discount : Money.wf (transfer_discount d);
  wf_daily_cap : Money.wf (daily_cap d);
  wf_weekly_cap : Money.wf (weekly_cap d);
  wf_transfer_window : TransferWindow.wf (transfer_window d);
  wf_discounts : EligibilityDiscounts.wf (eligibility_discounts d)
}.

End FarePolicyDefinition.

Definition validate_money (expected_currency : Currency.t) (field_amount : Str * Money.t)
  : Result FarePolicyError.t unit :=
  let '(field, amount) := field_amount in
  if decide (Money.currency amount <> expected_currency) then
    Err (FarePolicyError.CurrencyMismatch field expected_currency (Money.currency amount))
  else if Money.is_negative amount then Err (FarePolicyError.NegativeAmount field amount)
  else Ok tt.

Module FarePolicy.

(** [struct FarePolicy { definition }]: made by [validate] only. *)
Record t := mk { definition : FarePolicyDefinition.t }.

#[global] Instance eq_dec : EqDecision t.
Proof. solve_decision. Defined.

Definition monetary_fields (d : FarePolicyDefinition.t) : list (Str * Money.t) :=
  [ (lit "base_fare", FarePolicyDefinition.base_fare d);
    (lit "zone_surcharge", FarePolicyDefinition.zone_surcharge d);
    (lit "transfer_discount", FarePolicyDefinition.transfer_discount d);
    (lit "daily_cap", FarePolicyDefinition.daily_cap d);
    (lit "weekly_cap", FarePolicyDefinition.weekly_cap d) ].

Definition validate (d : FarePolicyDefinition.t) : Result FarePolicyError.t t :=
  _ ← try_for_each (validate_money (FarePolicyDefinition.currency d)) (monetary_fields d);
  if Money.minor_units (FarePolicyDefinition.daily_cap d)
       <? Money.minor_units (FarePolicyDefinition.base_fare d) then
    Err (FarePolicyError.DailyCapBelowBaseFare
           (FarePolicyDefinition.base_fare d) (FarePolicyDefinition.daily_cap d))
  else if Money.minor_units (FarePolicyDefinition.weekly_cap d)
            <? Money.minor_units (FarePolicyDefinition.daily_cap d) then
    Err (FarePolicyError.WeeklyCapBelowDailyCap
           (FarePolicyDefinition.daily_cap d) (FarePolicyDefinition.weekly_cap d))
  else if Money.minor_units (FarePolicyDefinition.base_fare d)
            <? Money.minor_units (FarePolicyDefinition.transfer_discount d) then
    Err (FarePolicyError.TransferDiscountExceedsBaseFare
           (FarePolicyDefinition.base_fare d) (FarePolicyDefinition.transfer_discount d))
  else Ok (mk d).

Definition id (self : t) := FarePolicyDefinition.id (definition self).
Definition version (self : t) := FarePolicyDefinition.version (definition self).
Definition currency (self : t) := FarePolicyDefinition.currency (definition self).
Definition base_fare (self : t) := FarePolicyDefinition.base_fare (definition self).
Definition zone_surcharge (self : t) := FarePolicyDefinition.zone_surcharge (definition self).
Definition transfer_window (self : t) := FarePolicyDefinition.transfer_window (definition self).
Definition transfer_discount (self : t) :=
  FarePolicyDefinition.transfer_discount (definition self).
Definition daily_cap (self : t) := FarePolicyDefinition.daily_cap (definition self).
Definition weekly_cap (self : t) := FarePolicyDefinition.weekly_cap (definition self).
Definition eligibility_discounts (self : t) :=
  FarePolicyDefinition.eligibility_discounts (definition self).

End FarePolicy.

(** ** The contract of a validated policy *)

(** A non-negative amount of a given currency, in range. *)
Definition amount_of (c : Currency.t) (m : Money.t) : Prop :=
  Money.currency m = c /\ 0 <= Money.minor_units m <= i64_max.

Record policy_ok (p : FarePolicy.t) : Prop := {
  ok_base_fare : amount_of (FarePolicy.currency p) (FarePolicy.base_fare p);
  ok_zone_surcharge : amount_of (FarePolicy.currency p) (FarePolicy.zone_surcharge p);
  ok_transfer_discount : amount_of (FarePolicy.currency p) (FarePolicy.transfer_discount p);
  ok_daily_cap : amount_of (FarePolicy.currency p) (FarePolicy.daily_cap p);
  ok_weekly_cap : amount_of (FarePolicy.currency p) (FarePolicy.weekly_cap p);
  ok_daily_covers_base :
    Money.minor_units (FarePolicy.base_fare p) <= Money.minor_units (FarePolicy.daily_cap p);
  ok_weekly_covers_daily :
    Money.minor_units (FarePolicy.daily_cap p) <= Money.minor_units (FarePolicy.weekly_cap p);
  ok_discount_below_base :
    Money.minor_units (FarePolicy.transfer_discount p)
      <= Money.minor_units (FarePolicy.base_fare p);
  ok_transfer_window : TransferWindow.wf (FarePolicy.transfer_window p);
  ok_discounts : EligibilityDiscounts.wf (FarePolicy.eligibility_discounts p)
}.

Lemma validate_money_Ok c f m u :
  validate_money c (f, m) = Ok u <-> Money.currency m = c /\ 0 <= Money.minor_units m.
Proof.
  destruct u. unfold validate_money. case_decide as Hc; [naive_solver|].
  destruct (Money.is_negative m) eqn:Hn; money_facts.
  - split; [done|]. lia.
  - done.
Qed.

Lemma amount_of_intro c m :
  Money.wf m -> Money.currency m = c -> 0 <= Money.minor_units m -> amount_of c m.
Proof. unfold amount_of, Money.wf. intros. split; [done|]. int_lia. Qed.

Lemma amount_of_wf c m : amount_of c m -> Money.wf m.
Proof. unfold amount_of, Money.wf. intros [_ ?]. int_lia. Qed.

#[export] Hint Resolve amount_of_intro amount_of_wf : transit.

Lemma monetary_fields_Ok d :
  try_for_each (validate_money (FarePolicyDefinition.currency d)) (FarePolicy.monetary_fields d)
    = Ok tt
  <-> Forall (fun fm => Money.currency fm.2 = FarePolicyDefinition.currency d
                        /\ 0 <= Money.minor_units fm.2) (FarePolicy.monetary_fields d).
Proof.
  rewrite try_for_each_Ok. apply Forall_iff. intros [f m]. apply validate_money_Ok.
Qed.

Lemma FarePolicy_validate_Ok d p :
  FarePolicyDefinition.wf d ->
  FarePolicy.validate d = Ok p <-> p = FarePolicy.mk d /\ policy_ok p.
Proof.
  intros Hd. unfold FarePolicy.validate. rewrite Result_bind_Ok. split.
  - intros ([] & Hf & Hc). apply monetary_fields_Ok in Hf.
    unfold FarePolicy.monetary_fields in Hf. repeat setoid_rewrite Forall_cons in Hf. cbn in Hf.
    repeat match goal with
      | H : (if ?b then _ else _) = Ok _ |- _ => destruct b eqn:?; [done|]
      end.
    rewrite !Z.ltb_ge in *. simplify_eq. split; [done|]. destruct Hd.
    split; try done; apply amount_of_intro; try done; apply Hf.
  - intros [-> Hp]. destruct Hp. exists tt. split.
    + apply monetary_fields_Ok. unfold FarePolicy.monetary_fields.
      unfold amount_of in *. repeat constructor; cbn; naive_solver.
    + cbn in *. by rewrite !(proj2 (Z.ltb_ge _ _)).
Qed.

(** ** Properties *)

(** Policy validation is exactly the policy contract.  A definition whose
    fields are in their machine range is accepted if and only if all five
    amounts are non-negative and in the policy currency, the base fare is at
    most the daily cap, the daily cap at most the weekly cap, and the transfer
    discount at most the base fare; it is then kept as it is. *)
Theorem fare_policy_validate_spec d :
  FarePolicyDefinition.wf d ->
  (FarePolicy.validate d = Ok (FarePolicy.mk d) <-> policy_ok (FarePolicy.mk d))
  /\ (forall p, FarePolicy.validate d = Ok p -> p = FarePolicy.mk d).
Proof.
  intros Hd. split.
  - rewrite FarePolicy_validate_Ok by done. naive_solver.
  - intros p Hp. by apply FarePolicy_validate_Ok in Hp as [-> _].
Qed.

(** Which error a refused policy reports: the first monetary field, in the
    order base fare, zone surcharge, transfer discount, daily cap, weekly
    cap, that has the wrong currency or is negative (every field before it
    being fine); and a comparison error only when all five fields are fine. *)
Theorem fare_policy_validate_first_error d err :
  FarePolicy.validate d = Err err ->
  (exists pre f m post,
     FarePolicy.monetary_fields d = pre ++ (f, m) :: post
     /\ Forall (fun fm => Money.currency fm.2 = FarePolicyDefinition.currency d
                          /\ 0 <= Money.minor_units fm.2) pre
     /\ (if decide (Money.currency m = FarePolicyDefinition.currency d) then
           Money.minor_units m < 0 /\ err = FarePolicyError.NegativeAmount f m
         else err = FarePolicyError.CurrencyMismatch f (FarePolicyDefinition.currency d)
                      (Money.currency m)))
  \/ (Forall (fun fm => Money.currency fm.2 = FarePolicyDefinition.currency d
                        /\ 0 <= Money.minor_units fm.2) (FarePolicy.monetary_fields d)
      /\ match err with
         | FarePolicyError.DailyCapBelowBaseFare b c => Money.minor_units c < Money.minor_units b
         | FarePolicyError.WeeklyCapBelowDailyCap c w => Money.minor_units w < Money.minor_units c
         | FarePolicyError.TransferDiscountExceedsBaseFare b t =>
             Money.minor_units b < Money.minor_units t
         | _ => False
         end).
Proof.
  unfold FarePolicy.validate. rewrite Result_bind_Err. intros [He|([] & Hf & He)].
  - left. apply try_for_each_Err in He as (pre & [f m] & post & Hfs & He & Hpre).
    exists pre, f, m, post. split_and!; [done| |].
    + eapply Forall_impl; [exact Hpre|]. intros [f' m'] Hm. by apply validate_money_Ok in Hm.
    + unfold validate_money in He. case_decide; case_decide; try done; [congruence|].
      destruct (Money.is_negative m) eqn:Hn; money_facts; naive_solver.
  - right. apply monetary_fields_Ok in Hf. split; [done|].
    repeat match type of He with (if ?b then _ else _) = _ => destruct b eqn:? end;
      rewrite ?Z.ltb_lt in *; by simplify_eq.
Qed.

(** ** Witnesses *)

Definition sample_id {k} : Identifier k := MkIdentifier uuid_1.
Definition sample_policy_definition : FarePolicyDefinition.t :=
  FarePolicyDefinition.mk sample_id (FarePolicyVersion.mk 1) Currency.Usd
    (sample_money 275) (sample_money 100) (TransferWindow.mk 7200000) (sample_money 100)
    (sample_money 1100) (sample_money 5000)
    (EligibilityDiscounts.new (DiscountBasisPoints.mk 5000) (DiscountBasisPoints.mk 5000)
       (DiscountBasisPoints.mk 2500) DiscountBasisPoints.FULL_FARE).
Definition sample_policy : FarePolicy.t := FarePolicy.mk sample_policy_definition.

Lemma sample_policy_definition_wf : FarePolicyDefinition.wf sample_policy_definition.
Proof. repeat constructor; vm_compute; discriminate. Qed.

Lemma sample_policy_ok : policy_ok sample_policy.
Proof. repeat constructor; vm_compute; discriminate. Qed.

Lemma fare_policy_validate_spec_witness :
  FarePolicy.validate sample_policy_definition = Ok sample_policy.
Proof.
  apply (fare_policy_validate_spec sample_policy_definition sample_policy_definition_wf).
  apply sample_policy_ok.
Defined.

Lemma fare_policy_validate_first_error_witness :
  let d := FarePolicyDefinition.mk sample_id (FarePolicyVersion.mk 1) Currency.Usd
    (sample_money 275) (sample_money 100) (TransferWindow.mk 7200000) (sample_money 100)
    (sample_money 1100) (sample_money 900) EligibilityDiscounts.none in
  FarePolicy.validate d
    = Err (FarePolicyError.WeeklyCapBelowDailyCap (sample_money 1100) (sample_money 900))
  /\ (exists pre f m post, FarePolicy.monetary_fields d = pre ++ (f, m) :: post) .
Proof.
  intros d. split; [reflexivity|].
  destruct (fare_policy_validate_first_error d
    (FarePolicyError.WeeklyCapBelowDailyCap (sample_money 1100) (sample_money 900)) eq_refl)
    as [(pre & f & m & post & H & _)|_].
  - exists pre, f, m, post. exact H.
  - exists [], (lit "base_fare"), (sample_money 275). eexists. reflexivity.
Defined.
