(* ===== verification/FareEngineTransfer.v ===== *)
(** * Transfer benefit (crates/fare-engine/src/transfer.rs) *)

From S2P Require Import Prelude Text DomainMoney DomainIdentifier DomainAccount.
From S2P Require Import DomainTransaction FareEnginePolicy.

Module TransferHistory.

Record t := mk { previous_paid_fare_event_time : option EventTime.t }.

#[global] Instance eq_dec : EqDecision t.
Proof. solve_decision. Defined.

Definition none : t := mk None.
Definition from_previous_paid_fare (event_time : EventTime.t) : t := mk (Some event_time).

Definition wf (self : t) : Prop :=
  match previous_paid_fare_event_time self with
  | Some time => EventTime.wf time
  | None => True
  end.

End TransferHistory.

Module TransferEvaluationError.

Inductive t :=
| CurrencyMismatch (expected actual : Currency.t)
| NegativeFare (fare : Money.t)
| PreviousFareOccursAfterCurrent (previous_unix_milliseconds current_unix_milliseconds : Z)
| ArithmeticFailure.

#[global] Instance eq_dec : EqDecision t.
Proof. solve_decision. Defined.

End TransferEvaluationError.

Module TransferApplication.

Record t := mk {
  policy_id : FarePolicyId;
  policy_version : FarePolicyVersion.t;
  eligible : bool;
  discount_applied : Money.t;
  fare_after_transfer : Money.t
}.

#[global] Instance eq_dec : EqDecision t.
Proof. solve_decision. Defined.

End TransferApplication.

Module Transfer.

Definition validate_fare (policy : FarePolicy.t) (fare : Money.t)
  : Result TransferEvaluationError.t unit :=
  if decide (Money.currency fare <> FarePolicy.currency policy) then
    Err (TransferEvaluationError.CurrencyMismatch (FarePolicy.currency policy)
           (Money.currency fare))
  else if Money.is_negative fare then Err (TransferEvaluationError.NegativeFare fare)
  else Ok tt.

Definition transfer_is_eligible (policy : FarePolicy.t) (current_event_time : EventTime.t)
    (history : TransferHistory.t) : Result TransferEvaluationError.t bool :=
  match TransferHistory.previous_paid_fare_event_time history with
  | None => Ok false
  | Some previous_event_time =>
      let previous := EventTime.unix_milliseconds previous_event_time in
      let current := EventTime.unix_milliseconds current_event_time in
      if current <? previous then
        Err (TransferEvaluationError.PreviousFareOccursAfterCurrent previous current)
      else
        let elapsed_milliseconds := unsigned_abs (i64_sub current previous) in
        Ok (elapsed_milliseconds <=? TransferWindow.milliseconds (FarePolicy.transfer_window policy))
  end.

Definition apply_transfer (policy : FarePolicy.t) (current_event_time : EventTime.t)
    (history : TransferHistory.t) (fare_after_eligibility : Money.t)
  : Result TransferEvaluationError.t TransferApplication.t :=
  _ ← validate_fare policy fare_after_eligibility;
  eligible ← transfer_is_eligible policy current_event_time history;
  let discount_applied :=
    if (eligible : bool) then
      Money.from_minor_units
        (Z.min (Money.minor_units (FarePolicy.transfer_discount policy))
               (Money.minor_units fare_after_eligibility))
        (FarePolicy.currency policy)
    else Money.zero (FarePolicy.currency policy) in
  fare_after_transfer ←
    map_err (fun _ => TransferEvaluationError.ArithmeticFailure)
      (Money.checked_subtract fare_after_eligibility discount_applied);
  Ok (TransferApplication.mk (FarePolicy.id policy) (FarePolicy.version policy) eligible
        discount_applied fare_after_transfer).

End Transfer.

(** ** The rule, in plain integers *)

(** The window is inclusive; a previous fare in the future is an error. *)
Definition transfer_window_open (policy : FarePolicy.t) (now : Z) (history : TransferHistory.t)
  : Result TransferEvaluationError.t bool :=
  match TransferHistory.previous_paid_fare_event_time history with
  | None => Ok false
  | Some (EventTime.mk previous) =>
      if now <? previous then
        Err (TransferEvaluationError.PreviousFareOccursAfterCurrent previous now)
      else Ok (bool_decide
                 (now - previous <= TransferWindow.milliseconds (FarePolicy.transfer_window policy)))
  end.

Definition transfer_discount_of (policy : FarePolicy.t) (eligible : bool) (fare : Z) : Z :=
  if eligible then Z.min (Money.minor_units (FarePolicy.transfer_discount policy)) fare else 0.

Lemma transfer_is_eligible_window policy now history :
  EventTime.wf now -> TransferHistory.wf history ->
  Transfer.transfer_is_eligible policy now history
    = transfer_window_open policy (EventTime.unix_milliseconds now) history.
Proof.
  unfold Transfer.transfer_is_eligible, transfer_window_open, TransferHistory.wf, EventTime.wf.
  destruct history as [[[previous]|]], now as [now]; cbn; [|done].
  intros Hn Hp. destruct (Z.ltb_spec now previous); [done|].
  unfold i64_sub. rewrite i64_wrap_in by int_lia. unfold unsigned_abs. rewrite Z.abs_eq by lia.
  f_equal. destruct (Z.leb_spec (now - previous)
    (TransferWindow.milliseconds (FarePolicy.transfer_window policy))).
  - by rewrite bool_decide_eq_true_2.
  - rewrite bool_decide_eq_false_2; [done|lia].
Qed.

Lemma transfer_validate_fare_amount policy fare :
  amount_of (FarePolicy.currency policy) fare -> Transfer.validate_fare policy fare = Ok tt.
Proof.
  intros [Hc Hn]. unfold Transfer.validate_fare. rewrite decide_False by naive_solver.
  by rewrite (proj2 (Money.is_negative_false fare)) by lia.
Qed.

(** The stage on a well-formed fare, as one equation. *)
Lemma apply_transfer_amount policy now history fare :
  policy_ok policy -> EventTime.wf now -> TransferHistory.wf history ->
  amount_of (FarePolicy.currency policy) fare ->
  Transfer.apply_transfer policy now history fare =
    (eligible ← transfer_window_open policy (EventTime.unix_milliseconds now) history;
     let discount := transfer_discount_of policy eligible (Money.minor_units fare) in
     Ok (TransferApplication.mk (FarePolicy.id policy) (FarePolicy.version policy) eligible
           (Money.from_minor_units discount (FarePolicy.currency policy))
           (Money.from_minor_units (Money.minor_units fare - discount)
              (FarePolicy.currency policy)))).
Proof.
  intros Hp Hnow Hh Hf. unfold Transfer.apply_transfer.
  rewrite transfer_validate_fare_amount by done. cbn [mbind Result_bind].
  rewrite transfer_is_eligible_window by done.
  destruct (transfer_window_open policy _ history) as [eligible|e]; [|done].
  cbn [mbind Result_bind]. destruct Hf as [Hc Hn], (ok_transfer_discount _ Hp) as [_ Ht].
  assert (Hd : 0 <= transfer_discount_of policy eligible (Money.minor_units fare)
               <= Money.minor_units fare)
    by (unfold transfer_discount_of; destruct eligible; lia).
  assert (Heq : (if eligible then
      Money.from_minor_units
        (Z.min (Money.minor_units (FarePolicy.transfer_discount policy)) (Money.minor_units fare))
        (FarePolicy.currency policy)
    else Money.zero (FarePolicy.currency policy))
    = Money.from_minor_units (transfer_discount_of policy eligible (Money.minor_units fare))
        (FarePolicy.currency policy)) by (by destruct eligible).
  rewrite Heq, Money.checked_subtract_nonneg;
    [by cbn; rewrite Hc | unfold Money.wf; cbn; int_lia | unfold Money.wf; cbn; int_lia | lia
    | cbn; lia | done].
Qed.

(** ** Properties *)

(** The transfer stage on every branch.  A fare in the wrong currency or
    negative is refused (in that order); otherwise a previous fare later
    than the current one is refused with both times; otherwise the rider is
    eligible exactly when there is a previous paid fare at most the transfer
    window ago (the boundary included), the discount is the smaller of the
    policy discount and the fare, or zero, and the remaining fare is the fare
    minus the discount, never negative.  The elapsed-time subtraction does not
    wrap and the arithmetic-failure error never happens. *)
Theorem apply_transfer_spec policy now history fare :
  policy_ok policy -> EventTime.wf now -> TransferHistory.wf history -> Money.wf fare ->
  Transfer.apply_transfer policy now history fare =
    (if decide (Money.currency fare <> FarePolicy.currency policy) then
       Err (TransferEvaluationError.CurrencyMismatch (FarePolicy.currency policy)
              (Money.currency fare))
     else if decide (Money.minor_units fare < 0) then
       Err (TransferEvaluationError.NegativeFare fare)
     else
       eligible ← transfer_window_open policy (EventTime.unix_milliseconds now) history;
       let discount := transfer_discount_of policy eligible (Money.minor_units fare) in
       Ok (TransferApplication.mk (FarePolicy.id policy) (FarePolicy.version policy) eligible
             (Money.from_minor_units discount (FarePolicy.currency policy))
             (Money.from_minor_units (Money.minor_units fare - discount)
                (FarePolicy.currency policy))))
  /\ (forall a, Transfer.apply_transfer policy now history fare = Ok a ->
        0 <= Money.minor_units (TransferApplication.fare_after_transfer a)
          <= Money.minor_units fare)
  /\ Transfer.apply_transfer policy now history fare
       <> Err TransferEvaluationError.ArithmeticFailure.
Proof.
  intros Hp Hnow Hh Hf.
  assert (Heq := apply_transfer_amount policy now history fare Hp Hnow Hh).
  destruct (decide (Money.currency fare <> FarePolicy.currency policy)) as [Hc|Hc].
  { unfold Transfer.apply_transfer, Transfer.validate_fare. by rewrite decide_True. }
  apply dec_stable in Hc. destruct (decide (Money.minor_units fare < 0)) as [Hn|Hn].
  { unfold Transfer.apply_transfer, Transfer.validate_fare. rewrite decide_False by naive_solver.
    by rewrite (proj2 (Money.is_negative_spec fare)). }
  rewrite Heq by (apply amount_of_intro; done || lia). split; [done|].
  destruct (ok_transfer_discount _ Hp) as [_ Ht].
  unfold transfer_window_open, transfer_discount_of.
  split.
  - intros a Ha. result_inv.
    match goal with |- context [if ?b then _ else _] => destruct b end; cbn; lia.
  - repeat case_match; cbn; congruence.
Qed.

Lemma apply_transfer_spec_witness :
  Transfer.apply_transfer sample_policy (EventTime.mk 7200000)
    (TransferHistory.from_previous_paid_fare (EventTime.mk 0)) (sample_money 60)
  = Ok (TransferApplication.mk sample_id (FarePolicyVersion.mk 1) true
          (sample_money 60) (sample_money 0)).
Proof.
  rewrite (proj1 (apply_transfer_spec sample_policy (EventTime.mk 7200000)
    (TransferHistory.from_previous_paid_fare (EventTime.mk 0)) (sample_money 60)
    sample_policy_ok ltac:(split; vm_compute; discriminate)
    ltac:(split; vm_compute; discriminate) ltac:(split; vm_compute; discriminate))).
  reflexivity.
Defined.
