(* ===== verification/FareEngineCap.v ===== *)
(** * Daily and weekly fare caps (crates/fare-engine/src/cap.rs) *)

From S2P Require Import Prelude Text DomainMoney DomainIdentifier DomainAccount.
From S2P Require Import DomainTransaction FareEnginePolicy.

Module FareCapHistory.

Record t := new { daily_charged : Money.t; weekly_charged : Money.t }.

#[global] Instance eq_dec : EqDecision t.
Proof. solve_decision. Defined.

Definition zero (c : Currency.t) : t := new (Money.zero c) (Money.zero c).

Definition wf (self : t) : Prop :=
  Money.wf (daily_charged self) /\ Money.wf (weekly_charged self).

End FareCapHistory.

Module FareCapEvaluationError.

Inductive t :=
| CurrencyMismatch (field : Str) (expected actual : Currency.t)
| NegativeAmount (field : Str) (amount : Money.t)
| DailyChargedExceedsWeeklyCharged (daily_charged weekly_charged : Money.t)
| ArithmeticFailure.

#[global] Instance eq_dec : EqDecision t.
Proof. solve_decision. Defined.

End FareCapEvaluationError.

Module FareCapApplication.

Record t := mk {
  policy_id : FarePolicyId;
  policy_version : FarePolicyVersion.t;
  daily_remaining_before : Money.t;
  weekly_remaining_before : Money.t;
  discount_applied : Money.t;
  fare_after_caps : Money.t;
  daily_cap_reached : bool;
  weekly_cap_reached : bool
}.

#[global] Instance eq_dec : EqDecision t.
Proof. solve_decision. Defined.

End FareCapApplication.

Module FareCap.

Definition validate_amount (policy : FarePolicy.t) (field : Str) (amount : Money.t)
  : Result FareCapEvaluationError.t unit :=
  if decide (Money.currency amount <> FarePolicy.currency policy) then
    Err (FareCapEvaluationError.CurrencyMismatch field (FarePolicy.currency policy)
           (Money.currency amount))
  else if Money.is_negative amount then Err (FareCapEvaluationError.NegativeAmount field amount)
  else Ok tt.

Definition remaining_allowance (cap charged : Money.t)
  : Result FareCapEvaluationError.t Money.t :=
  if Money.minor_units cap <=? Money.minor_units charged then Ok (Money.zero (Money.currency cap))
  else map_err (fun _ => FareCapEvaluationError.ArithmeticFailure)
         (Money.checked_subtract cap charged).

Definition apply_fare_caps (policy : FarePolicy.t) (history : FareCapHistory.t)
    (fare_after_transfer : Money.t)
  : Result FareCapEvaluationError.t FareCapApplication.t :=
  let daily_charged := FareCapHistory.daily_charged history in
  let weekly_charged := FareCapHistory.weekly_charged history in
  _ ← validate_amount policy (lit "daily_charged") daily_charged;
  _ ← validate_amount policy (lit "weekly_charged") weekly_charged;
  _ ← validate_amount policy (lit "fare_after_transfer") fare_after_transfer;
  if Money.minor_units weekly_charged <? Money.minor_units daily_charged then
    Err (FareCapEvaluationError.DailyChargedExceedsWeeklyCharged daily_charged weekly_charged)
  else
    daily_remaining_before ← remaining_allowance (FarePolicy.daily_cap policy) daily_charged;
    weekly_remaining_before ← remaining_allowance (FarePolicy.weekly_cap policy) weekly_charged;
    let fare_minor_units :=
      Z.min (Z.min (Money.minor_units fare_after_transfer)
                   (Money.minor_units daily_remaining_before))
            (Money.minor_units weekly_remaining_before) in
    let fare_after_caps := Money.from_minor_units fare_minor_units (FarePolicy.currency policy) in
    discount_applied ←
      map_err (fun _ => FareCapEvaluationError.ArithmeticFailure)
        (Money.checked_subtract fare_after_transfer fare_after_caps);
    let daily_cap_reached :=
      Money.minor_units (FarePolicy.daily_cap policy)
        <=? i64_add (Money.minor_units daily_charged) (Money.minor_units fare_after_caps) in
    let weekly_cap_reached :=
      Money.minor_units (FarePolicy.weekly_cap policy)
        <=? i64_add (Money.minor_units weekly_charged) (Money.minor_units fare_after_caps) in
    Ok (FareCapApplication.mk (FarePolicy.id policy) (FarePolicy.version policy)
          daily_remaining_before weekly_remaining_before discount_applied fare_after_caps
          daily_cap_reached weekly_cap_reached).

End FareCap.

(** ** The rule, in plain integers *)

(** What is left under a cap. *)
Definition allowance (cap charged : Z) : Z := Z.max 0 (cap - charged).

Definition capped_fare (daily_cap weekly_cap daily weekly fare : Z) : Z :=
  Z.min fare (Z.min (allowance daily_cap daily) (allowance weekly_cap weekly)).

(** The fare a policy leaves to charge after a history. *)
Definition fare_under_caps (policy : FarePolicy.t) (history : FareCapHistory.t) (fare : Z) : Z :=
  capped_fare (Money.minor_units (FarePolicy.daily_cap policy))
    (Money.minor_units (FarePolicy.weekly_cap policy))
    (Money.minor_units (FareCapHistory.daily_charged history))
    (Money.minor_units (FareCapHistory.weekly_charged history)) fare.

(** Histories the engine accepts. *)
Record cap_history_ok (policy : FarePolicy.t) (h : FareCapHistory.t) : Prop := {
  ok_daily_charged : amount_of (FarePolicy.currency policy) (FareCapHistory.daily_charged h);
  ok_weekly_charged : amount_of (FarePolicy.currency policy) (FareCapHistory.weekly_charged h);
  ok_daily_in_weekly :
    Money.minor_units (FareCapHistory.daily_charged h)
      <= Money.minor_units (FareCapHistory.weekly_charged h)
}.

Lemma cap_validate_amount_ok policy field m :
  amount_of (FarePolicy.currency policy) m -> FareCap.validate_amount policy field m = Ok tt.
Proof.
  intros [Hc Hn]. unfold FareCap.validate_amount. rewrite decide_False by naive_solver.
  by rewrite (proj2 (Money.is_negative_false m)) by lia.
Qed.

Lemma cap_validate_amount_Ok policy field m u :
  FareCap.validate_amount policy field m = Ok u ->
  Money.currency m = FarePolicy.currency policy /\ 0 <= Money.minor_units m.
Proof.
  unfold FareCap.validate_amount. case_decide; [done|].
  destruct (Money.is_negative m) eqn:Hn; money_facts; naive_solver.
Qed.

Lemma remaining_allowance_amount c cap charged :
  amount_of c cap -> amount_of c charged ->
  FareCap.remaining_allowance cap charged
    = Ok (Money.from_minor_units (allowance (Money.minor_units cap) (Money.minor_units charged)) c).
Proof.
  intros [Hc Hcap] [Hd Hch]. unfold FareCap.remaining_allowance, allowance.
  destruct (Z.leb_spec (Money.minor_units cap) (Money.minor_units charged)).
  - unfold Money.zero. rewrite Hc. do 2 f_equal. lia.
  - rewrite Money.checked_subtract_nonneg by (unfold Money.wf; int_lia || congruence || lia).
    cbn. rewrite Hc. do 2 f_equal. lia.
Qed.

(** What a charge adds to a total stays within the cap, or the charge is zero:
    the additions behind the two flags cannot overflow. *)
Lemma capped_fare_bounds dc wc d w f :
  0 <= d -> 0 <= w -> 0 <= f ->
  0 <= capped_fare dc wc d w f <= f
  /\ (d + capped_fare dc wc d w f <= Z.max d dc)
  /\ (w + capped_fare dc wc d w f <= Z.max w wc).
Proof. unfold capped_fare, allowance. lia. Qed.

(** A positive capped fare fits under both caps. *)
Lemma capped_fare_fits dc wc d w f :
  0 < capped_fare dc wc d w f ->
  d + capped_fare dc wc d w f <= dc /\ w + capped_fare dc wc d w f <= wc.
Proof. unfold capped_fare, allowance. lia. Qed.

Definition cap_application (policy : FarePolicy.t) (h : FareCapHistory.t) (fare : Z)
  : FareCapApplication.t :=
  let c := FarePolicy.currency policy in
  let daily := Money.minor_units (FareCapHistory.daily_charged h) in
  let weekly := Money.minor_units (FareCapHistory.weekly_charged h) in
  let dc := Money.minor_units (FarePolicy.daily_cap policy) in
  let wc := Money.minor_units (FarePolicy.weekly_cap policy) in
  let charge := fare_under_caps policy h fare in
  FareCapApplication.mk (FarePolicy.id policy) (FarePolicy.version policy)
    (Money.from_minor_units (allowance dc daily) c)
    (Money.from_minor_units (allowance wc weekly) c)
    (Money.from_minor_units (fare - charge) c)
    (Money.from_minor_units charge c)
    (bool_decide (dc <= daily + charge)) (bool_decide (wc <= weekly + charge)).

Lemma leb_bool_decide a b : (a <=? b) = bool_decide (a <= b).
Proof.
  destruct (Z.leb_spec a b); [by rewrite bool_decide_eq_true_2|].
  rewrite bool_decide_eq_false_2; [done|lia].
Qed.

Lemma apply_fare_caps_amount policy h fare :
  policy_ok policy -> cap_history_ok policy h ->
  amount_of (FarePolicy.currency policy) fare ->
  FareCap.apply_fare_caps policy h fare = Ok (cap_application policy h (Money.minor_units fare)).
Proof.
  intros Hp [Hd Hw Hdw] Hf. unfold FareCap.apply_fare_caps.
  rewrite !cap_validate_amount_ok by done. cbn [mbind Result_bind].
  rewrite (proj2 (Z.ltb_ge _ _)) by done.
  rewrite (remaining_allowance_amount (FarePolicy.currency policy)) by (done || apply Hp).
  rewrite (remaining_allowance_amount (FarePolicy.currency policy)) by (done || apply Hp).
  cbn [mbind Result_bind Money.minor_units].
  assert (Hmin : forall a b, Z.min (Z.min (Money.minor_units fare) a) b
                             = Z.min (Money.minor_units fare) (Z.min a b)) by lia.
  rewrite Hmin.
  change (Z.min (Money.minor_units fare) _) with
    (fare_under_caps policy h (Money.minor_units fare)).
  destruct Hd as [Hdc Hd], Hw as [Hwc Hw], Hf as [Hfc Hf].
  destruct (ok_daily_cap _ Hp) as [_ Hdcap], (ok_weekly_cap _ Hp) as [_ Hwcap].
  destruct (capped_fare_bounds (Money.minor_units (FarePolicy.daily_cap policy))
    (Money.minor_units (FarePolicy.weekly_cap policy))
    (Money.minor_units (FareCapHistory.daily_charged h))
    (Money.minor_units (FareCapHistory.weekly_charged h)) (Money.minor_units fare))
    as (Hb & Hbd & Hbw); [lia..|].
  fold (fare_under_caps policy h (Money.minor_units fare)) in Hb, Hbd, Hbw.
  rewrite Money.checked_subtract_nonneg by (unfold Money.wf; cbn; int_lia || done || lia).
  cbn [mbind Result_bind map_err Money.minor_units Money.currency].
  unfold i64_add. rewrite !i64_wrap_in by int_lia.
  unfold cap_application. by rewrite !leb_bool_decide, Hfc.
Qed.

(** ** A service day

    The caller charges what the engine says and adds it to both totals. *)
Definition charge_history (c : Currency.t) (h : FareCapHistory.t) (charge : Money.t)
  : FareCapHistory.t :=
  FareCapHistory.new
    (Money.from_minor_units (Money.minor_units (FareCapHistory.daily_charged h)
                             + Money.minor_units charge) c)
    (Money.from_minor_units (Money.minor_units (FareCapHistory.weekly_charged h)
                             + Money.minor_units charge) c).

Fixpoint charge_trips (policy : FarePolicy.t) (h : FareCapHistory.t) (fares : list Money.t)
  : Result FareCapEvaluationError.t FareCapHistory.t :=
  match fares with
  | [] => Ok h
  | fare :: fares' =>
      application ← FareCap.apply_fare_caps policy h fare;
      charge_trips policy
        (charge_history (FarePolicy.currency policy) h
           (FareCapApplication.fare_after_caps application)) fares'
  end.

Fixpoint total_units (ms : list Money.t) : Z :=
  match ms with
  | [] => 0
  | m :: ms' => Money.minor_units m + total_units ms'
  end.

Lemma total_units_nonneg c ms : Forall (amount_of c) ms -> 0 <= total_units ms.
Proof. induction 1 as [|m ms [_ ?]]; cbn; lia. Qed.

Lemma charge_history_ok policy h fare :
  policy_ok policy -> cap_history_ok policy h -> 0 <= fare ->
  cap_history_ok policy
    (charge_history (FarePolicy.currency policy) h
       (Money.from_minor_units (fare_under_caps policy h fare) (FarePolicy.currency policy))).
Proof.
  intros Hp [Hd Hw Hdw] Hf.
  destruct Hd as [Hdc Hd], Hw as [Hwc Hw].
  destruct (ok_daily_cap _ Hp) as [_ Hdcap], (ok_weekly_cap _ Hp) as [_ Hwcap].
  destruct (capped_fare_bounds (Money.minor_units (FarePolicy.daily_cap policy))
    (Money.minor_units (FarePolicy.weekly_cap policy))
    (Money.minor_units (FareCapHistory.daily_charged h))
    (Money.minor_units (FareCapHistory.weekly_charged h)) fare)
    as (Hb & Hbd & Hbw); [lia..|].
  unfold fare_under_caps. split; unfold amount_of; cbn; try (split; [done|]); lia.
Qed.

Lemma charge_trips_total fares : forall policy h,
  policy_ok policy -> cap_history_ok policy h ->
  Forall (amount_of (FarePolicy.currency policy)) fares ->
  charge_trips policy h fares =
    Ok (charge_history (FarePolicy.currency policy)
          (FareCapHistory.new
             (Money.from_minor_units (Money.minor_units (FareCapHistory.daily_charged h))
                (FarePolicy.currency policy))
             (Money.from_minor_units (Money.minor_units (FareCapHistory.weekly_charged h))
                (FarePolicy.currency policy)))
          (Money.from_minor_units (fare_under_caps policy h (total_units fares))
             (FarePolicy.currency policy))).
Proof.
  induction fares as [|fare fares IH]; intros policy h Hp Hh Hfs.
  - cbn. destruct h as [[d dc] [w wc]], Hh as [[Hdc ?] [Hwc ?] ?]. cbn in *. subst.
    unfold charge_history, fare_under_caps, capped_fare, allowance. cbn.
    do 3 f_equal; lia.
  - inversion Hfs as [|? ? Hf Hfs']; subst. cbn [charge_trips].
    rewrite apply_fare_caps_amount by done. cbn [mbind Result_bind].
    cbn [cap_application FareCapApplication.fare_after_caps].
    pose proof (total_units_nonneg _ _ Hfs') as Ht. destruct Hf as [Hfc Hf].
    rewrite IH; [|done|apply charge_history_ok; done || lia|done].
    unfold charge_history. cbn [FareCapHistory.daily_charged FareCapHistory.weekly_charged
      Money.minor_units total_units].
    destruct Hh as [[_ Hd] [_ Hw] _].
    destruct (ok_daily_cap _ Hp) as [_ Hdcap], (ok_weekly_cap _ Hp) as [_ Hwcap].
    unfold fare_under_caps, capped_fare, allowance.
    cbn [FareCapHistory.daily_charged FareCapHistory.weekly_charged Money.minor_units].
    do 3 f_equal; lia.
Qed.

(** ** Properties *)

(** The cap stage on accepted input: for a validated policy and a
    non-negative history and fare in its currency, the charge is the smallest
    of the fare, what is left under the daily cap and what is left under the
    weekly cap (zero once a cap is exceeded); the discount is the rest of the
    fare; each flag says whether the charged total, computed without wrapping,
    reaches its cap; and no total ever passes its cap because of a charge. *)
Theorem apply_fare_caps_spec policy h fare :
  policy_ok policy -> cap_history_ok policy h ->
  amount_of (FarePolicy.currency policy) fare ->
  FareCap.apply_fare_caps policy h fare = Ok (cap_application policy h (Money.minor_units fare))
  /\ 0 <= fare_under_caps policy h (Money.minor_units fare) <= Money.minor_units fare
  /\ in_i64 (Money.minor_units (FareCapHistory.daily_charged h)
             + fare_under_caps policy h (Money.minor_units fare))
  /\ in_i64 (Money.minor_units (FareCapHistory.weekly_charged h)
             + fare_under_caps policy h (Money.minor_units fare))
  /\ (fare_under_caps policy h (Money.minor_units fare) <> 0 ->
      Money.minor_units (FareCapHistory.daily_charged h)
        + fare_under_caps policy h (Money.minor_units fare)
        <= Money.minor_units (FarePolicy.daily_cap policy)
      /\ Money.minor_units (FareCapHistory.weekly_charged h)
        + fare_under_caps policy h (Money.minor_units fare)
        <= Money.minor_units (FarePolicy.weekly_cap policy)).
Proof.
  intros Hp Hh Hf. split; [by apply apply_fare_caps_amount|].
  destruct Hh as [[_ Hd] [_ Hw] _], Hf as [_ Hf].
  destruct (ok_daily_cap _ Hp) as [_ Hdcap], (ok_weekly_cap _ Hp) as [_ Hwcap].
  unfold fare_under_caps, capped_fare, allowance. unfold_ints. lia.
Qed.

(** Capping is independent of how a day's riding is split into trips: for
    any list of fares charged one after another (each charge added to the
    totals before the next), every stage succeeds and the final totals are
    those of a single trip with the summed fare, so the charges of a day
    never exceed the allowance the history left. *)
Theorem charge_trips_as_one policy h fares :
  policy_ok policy -> cap_history_ok policy h ->
  Forall (amount_of (FarePolicy.currency policy)) fares ->
  exists h', charge_trips policy h fares = Ok h'
    /\ Money.minor_units (FareCapHistory.daily_charged h')
         = Money.minor_units (FareCapHistory.daily_charged h)
           + fare_under_caps policy h (total_units fares)
    /\ Money.minor_units (FareCapHistory.weekly_charged h')
         = Money.minor_units (FareCapHistory.weekly_charged h)
           + fare_under_caps policy h (total_units fares)
    /\ cap_history_ok policy h'.
Proof.
  intros Hp Hh Hfs. pose proof (total_units_nonneg _ _ Hfs).
  eexists. split; [by apply charge_trips_total|]. cbn. split_and!; [done..|].
  destruct h as [[d dc] [w wc]]. pose proof Hh as [[Hdc _] [Hwc _] _]. cbn in Hdc, Hwc. subst.
  by apply charge_history_ok.
Qed.

(** What the cap stage refuses: it fails exactly when the daily total, the
    weekly total or the fare is in another currency or negative, or when the
    daily total exceeds the weekly one; it never reports an arithmetic
    failure. *)
Theorem apply_fare_caps_refuses policy h fare :
  policy_ok policy -> FareCapHistory.wf h -> Money.wf fare ->
  (FareCap.apply_fare_caps policy h fare
     <> Err FareCapEvaluationError.ArithmeticFailure)
  /\ ((exists e, FareCap.apply_fare_caps policy h fare = Err e) <->
      ~ (cap_history_ok policy h /\ amount_of (FarePolicy.currency policy) fare)).
Proof.
  intros Hp [Hd Hw] Hf.
  assert (Hcase : (cap_history_ok policy h /\ amount_of (FarePolicy.currency policy) fare)
    \/ exists e, FareCap.apply_fare_caps policy h fare = Err e
         /\ e <> FareCapEvaluationError.ArithmeticFailure).
  { unfold FareCap.apply_fare_caps.
    destruct (FareCap.validate_amount policy _ (FareCapHistory.daily_charged h)) as [[]|e] eqn:E1;
      [|right; exists e; split; [done|]; unfold FareCap.validate_amount in E1;
        repeat case_match; naive_solver].
    destruct (FareCap.validate_amount policy _ (FareCapHistory.weekly_charged h)) as [[]|e] eqn:E2;
      [|right; exists e; split; [done|]; unfold FareCap.validate_amount in E2;
        repeat case_match; naive_solver].
    destruct (FareCap.validate_amount policy _ fare) as [[]|e] eqn:E3;
      [|right; exists e; split; [done|]; unfold FareCap.validate_amount in E3;
        repeat case_match; naive_solver].
    apply cap_validate_amount_Ok in E1 as [??], E2 as [??], E3 as [??].
    cbn [mbind Result_bind]. destruct (Z.ltb_spec (Money.minor_units (FareCapHistory.weekly_charged h))
      (Money.minor_units (FareCapHistory.daily_charged h))).
    - right. eexists. split; [reflexivity|done].
    - left. split; [split|]; auto with transit. }
  destruct Hcase as [[Hh Ha]|(e & He & Hne)].
  - rewrite apply_fare_caps_amount by done. split; [done|]. split; [naive_solver|].
    intros H. by destruct H.
  - rewrite He. split; [congruence|]. split; [|by eauto].
    intros _ [Hh Ha]. rewrite apply_fare_caps_amount in He by done. done.
Qed.

(** ** Witnesses *)

Definition sample_cap_history : FareCapHistory.t :=
  FareCapHistory.new (sample_money 1000) (sample_money 4950).

Lemma sample_cap_history_ok : cap_history_ok sample_policy sample_cap_history.
Proof. repeat constructor; vm_compute; discriminate. Qed.

Lemma sample_amount n : 0 <= n <= i64_max -> amount_of Currency.Usd (sample_money n).
Proof. by split. Qed.

Lemma apply_fare_caps_spec_witness :
  FareCap.apply_fare_caps sample_policy sample_cap_history (sample_money 275)
  = Ok (FareCapApplication.mk sample_id (FarePolicyVersion.mk 1) (sample_money 100)
          (sample_money 50) (sample_money 225) (sample_money 50) false true).
Proof.
  rewrite (proj1 (apply_fare_caps_spec sample_policy sample_cap_history (sample_money 275)
    sample_policy_ok sample_cap_history_ok
    ltac:(apply sample_amount; split; vm_compute; discriminate))).
  reflexivity.
Defined.

Lemma charge_trips_as_one_witness :
  exists h', charge_trips sample_policy (FareCapHistory.zero Currency.Usd)
               [sample_money 275; sample_money 500; sample_money 700; sample_money 275] = Ok h'
    /\ Money.minor_units (FareCapHistory.daily_charged h') = 1100.
Proof.
  destruct (charge_trips_as_one sample_policy (FareCapHistory.zero Currency.Usd)
    [sample_money 275; sample_money 500; sample_money 700; sample_money 275])
    as (h' & H & Hd & _).
  - apply sample_policy_ok.
  - repeat constructor; vm_compute; discriminate.
  - repeat constructor; vm_compute; discriminate.
  - exists h'. split; [exact H|]. rewrite Hd. reflexivity.
Defined.

Lemma apply_fare_caps_refuses_witness :
  (exists e, FareCap.apply_fare_caps sample_policy
    (FareCapHistory.new (sample_money 500) (sample_money 400)) (sample_money 275) = Err e).
Proof.
  apply (apply_fare_caps_refuses sample_policy
    (FareCapHistory.new (sample_money 500) (sample_money 400)) (sample_money 275)).
  - apply sample_policy_ok.
  - repeat constructor; vm_compute; discriminate.
  - split; vm_compute; discriminate.
  - intros [[_ _ H] _]. vm_compute in H. by apply H.
Defined.
