(* ===== verification/FareEngineProduct.v ===== *)
(** * Transit products (crates/fare-engine/src/product.rs) *)

From S2P Require Import Prelude Text DomainMoney DomainIdentifier DomainAccount.
From S2P Require Import DomainTransaction FareEnginePolicy.

Module TransitProductError.

Inductive t :=
| InvalidValidityInterval (valid_from valid_until : Z)
| InvalidZoneRange (first_zone last_zone : Z).

#[global] Instance eq_dec : EqDecision t.
Proof. solve_decision. Defined.

End TransitProductError.

Module TransitProductCoverage.

(** The variants of a Rust enum are public: [ZoneRange] can be built (and is
    deserialized) without passing through [zone_range]. *)
Inductive t :=
| AllZones
| ZoneRange (first_zone last_zone : ZoneId.t).

#[global] Instance eq_dec : EqDecision t.
Proof. solve_decision. Defined.

Definition zone_range (first_zone last_zone : ZoneId.t) : Result TransitProductError.t t :=
  if ZoneId.value last_zone <? ZoneId.value first_zone then
    Err (TransitProductError.InvalidZoneRange (ZoneId.value first_zone) (ZoneId.value last_zone))
  else Ok (ZoneRange first_zone last_zone).

Definition covers (self : t) (zone : ZoneId.t) : bool :=
  match self with
  | AllZones => true
  | ZoneRange first_zone last_zone =>
      (ZoneId.value first_zone <=? ZoneId.value zone)
      && (ZoneId.value zone <=? ZoneId.value last_zone)
  end.

End TransitProductCoverage.

Module TransitProductDefinition.

Record t := mk {
  product_id : TransitProductId;
  instance_id : TransitProductInstanceId;
  valid_from : EventTime.t;
  valid_until : EventTime.t;
  coverage : TransitProductCoverage.t
}.

#[global] Instance eq_dec : EqDecision t.
Proof. solve_decision. Defined.

End TransitProductDefinition.

Module TransitProduct.

Record t := mk { definition : TransitProductDefinition.t }.

#[global] Instance eq_dec : EqDecision t.
Proof. solve_decision. Defined.

Definition validate (d : TransitProductDefinition.t) : Result TransitProductError.t t :=
  let valid_from := EventTime.unix_milliseconds (TransitProductDefinition.valid_from d) in
  let valid_until := EventTime.unix_milliseconds (TransitProductDefinition.valid_until d) in
  if valid_until <? valid_from then
    Err (TransitProductError.InvalidValidityInterval valid_from valid_until)
  else Ok (mk d).

(** [Deserialize]: the decoded definition passes through [validate]. *)
Definition deserialize (decoded : TransitProductDefinition.t)
  : Result TransitProductError.t t := validate decoded.

Definition product_id (self : t) := TransitProductDefinition.product_id (definition self).
Definition instance_id (self : t) := TransitProductDefinition.instance_id (definition self).
Definition valid_from (self : t) := TransitProductDefinition.valid_from (definition self).
Definition valid_until (self : t) := TransitProductDefinition.valid_until (definition self).
Definition coverage (self : t) := TransitProductDefinition.coverage (definition self).

End TransitProduct.

Module ProductInvalidReason.

Inductive t := NotYetValid | Expired | OutsideZoneCoverage.

#[global] Instance eq_dec : EqDecision t.
Proof. solve_decision. Defined.

End ProductInvalidReason.

Module ProductApplicationOutcome.

Inductive t := NotPresented | Covered | Invalid (reason : ProductInvalidReason.t).

#[global] Instance eq_dec : EqDecision t.
Proof. solve_decision. Defined.

End ProductApplicationOutcome.

Module ProductEvaluationError.

Inductive t :=
| CurrencyMismatch (expected actual : Currency.t)
| NegativeFare (fare : Money.t)
| ArithmeticFailure.

#[global] Instance eq_dec : EqDecision t.
Proof. solve_decision. Defined.

End ProductEvaluationError.

Module ProductApplication.

Record t := mk {
  policy_id : FarePolicyId;
  policy_version : FarePolicyVersion.t;
  product_id : option TransitProductId;
  instance_id : option TransitProductInstanceId;
  outcome : ProductApplicationOutcome.t;
  discount_applied : Money.t;
  fare_after_product : Money.t
}.

#[global] Instance eq_dec : EqDecision t.
Proof. solve_decision. Defined.

End ProductApplication.

Module Product.

Definition validate_fare (policy : FarePolicy.t) (fare : Money.t)
  : Result ProductEvaluationError.t unit :=
  if decide (Money.currency fare <> FarePolicy.currency policy) then
    Err (ProductEvaluationError.CurrencyMismatch (FarePolicy.currency policy)
           (Money.currency fare))
  else if Money.is_negative fare then Err (ProductEvaluationError.NegativeFare fare)
  else Ok tt.

Definition determine_outcome (product : TransitProduct.t) (event_time : EventTime.t)
    (origin_zone destination_zone : ZoneId.t) : ProductApplicationOutcome.t :=
  let now := EventTime.unix_milliseconds event_time in
  if now <? EventTime.unix_milliseconds (TransitProduct.valid_from product) then
    ProductApplicationOutcome.Invalid ProductInvalidReason.NotYetValid
  else if EventTime.unix_milliseconds (TransitProduct.valid_until product) <? now then
    ProductApplicationOutcome.Invalid ProductInvalidReason.Expired
  else if negb (TransitProductCoverage.covers (TransitProduct.coverage product) origin_zone)
       || negb (TransitProductCoverage.covers (TransitProduct.coverage product) destination_zone)
  then ProductApplicationOutcome.Invalid ProductInvalidReason.OutsideZoneCoverage
  else ProductApplicationOutcome.Covered.

Definition apply_transit_product (policy : FarePolicy.t) (product : option TransitProduct.t)
    (event_time : EventTime.t) (origin_zone destination_zone : ZoneId.t)
    (fare_after_caps : Money.t) : Result ProductEvaluationError.t ProductApplication.t :=
  _ ← validate_fare policy fare_after_caps;
  match product with
  | None =>
      Ok (ProductApplication.mk (FarePolicy.id policy) (FarePolicy.version policy) None None
            ProductApplicationOutcome.NotPresented (Money.zero (FarePolicy.currency policy))
            fare_after_caps)
  | Some product =>
      let outcome := determine_outcome product event_time origin_zone destination_zone in
      let discount_applied :=
        match outcome with
        | ProductApplicationOutcome.Covered => fare_after_caps
        | ProductApplicationOutcome.NotPresented | ProductApplicationOutcome.Invalid _ =>
            Money.zero (FarePolicy.currency policy)
        end in
      fare_after_product ←
        map_err (fun _ => ProductEvaluationError.ArithmeticFailure)
          (Money.checked_subtract fare_after_caps discount_applied);
      Ok (ProductApplication.mk (FarePolicy.id policy) (FarePolicy.version policy)
            (Some (TransitProduct.product_id product)) (Some (TransitProduct.instance_id product))
            outcome discount_applied fare_after_product)
  end.

End Product.

(** ** The rule, in plain integers *)

(** The zones of a coverage, both ends included. *)
Definition zone_covered (coverage : TransitProductCoverage.t) (zone : ZoneId.t) : Prop :=
  match coverage with
  | TransitProductCoverage.AllZones => True
  | TransitProductCoverage.ZoneRange first_zone last_zone =>
      ZoneId.value first_zone <= ZoneId.value zone <= ZoneId.value last_zone
  end.

Lemma covers_true coverage zone :
  TransitProductCoverage.covers coverage zone = true <-> zone_covered coverage zone.
Proof. destruct coverage; cbn; [done|]. by rewrite andb_true_iff, !Z.leb_le. Qed.

(** A product covers a journey: inclusive times, both zones. *)
Definition covers_journey (product : TransitProduct.t) (now : Z) (origin destination : ZoneId.t)
  : Prop :=
  EventTime.unix_milliseconds (TransitProduct.valid_from product) <= now
    <= EventTime.unix_milliseconds (TransitProduct.valid_until product)
  /\ zone_covered (TransitProduct.coverage product) origin
  /\ zone_covered (TransitProduct.coverage product) destination.

Definition product_outcome (product : option TransitProduct.t) (event_time : EventTime.t)
    (origin destination : ZoneId.t) : ProductApplicationOutcome.t :=
  match product with
  | None => ProductApplicationOutcome.NotPresented
  | Some p => Product.determine_outcome p event_time origin destination
  end.

Definition product_discount (outcome : ProductApplicationOutcome.t) (fare : Z) : Z :=
  match outcome with
  | ProductApplicationOutcome.Covered => fare
  | _ => 0
  end.

Lemma determine_outcome_Covered p now o d :
  Product.determine_outcome p now o d = ProductApplicationOutcome.Covered
  <-> covers_journey p (EventTime.unix_milliseconds now) o d.
Proof.
  unfold Product.determine_outcome, covers_journey. rewrite <- !covers_true.
  destruct (Z.ltb_spec (EventTime.unix_milliseconds now)
    (EventTime.unix_milliseconds (TransitProduct.valid_from p))); [split; [done|lia]|].
  destruct (Z.ltb_spec (EventTime.unix_milliseconds (TransitProduct.valid_until p))
    (EventTime.unix_milliseconds now)); [split; [done|lia]|].
  destruct (TransitProductCoverage.covers _ o), (TransitProductCoverage.covers _ d);
    cbn; naive_solver.
Qed.

Lemma product_validate_fare_amount policy fare :
  amount_of (FarePolicy.currency policy) fare -> Product.validate_fare policy fare = Ok tt.
Proof.
  intros [Hc Hn]. unfold Product.validate_fare. rewrite decide_False by naive_solver.
  by rewrite (proj2 (Money.is_negative_false fare)) by lia.
Qed.

Lemma apply_transit_product_amount policy product now o d fare :
  amount_of (FarePolicy.currency policy) fare ->
  Product.apply_transit_product policy product now o d fare =
    (let outcome := product_outcome product now o d in
     let discount := product_discount outcome (Money.minor_units fare) in
     Ok (ProductApplication.mk (FarePolicy.id policy) (FarePolicy.version policy)
           (TransitProduct.product_id <$> product) (TransitProduct.instance_id <$> product)
           outcome (Money.from_minor_units discount (FarePolicy.currency policy))
           (Money.from_minor_units (Money.minor_units fare - discount)
              (FarePolicy.currency policy)))).
Proof.
  intros Hf. unfold Product.apply_transit_product.
  rewrite product_validate_fare_amount by done. cbn [mbind Result_bind].
  destruct fare as [n c], Hf as [Hc Hn]. cbn in Hc, Hn. subst c.
  destruct product as [p|]; cbn; [|by rewrite Z.sub_0_r].
  destruct (Product.determine_outcome p now o d); cbn;
    rewrite Money.checked_subtract_nonneg by (unfold Money.wf; cbn; int_lia || done); done.
Qed.

(** ** Properties *)

(** The product stage.  For a fare in the policy currency it always
    succeeds: without a product the fare is left alone; with one, the fare is
    waived entirely exactly when the product covers the journey (its validity
    interval is inclusive at both ends and both zones are covered), and
    otherwise kept, with the reason not-yet-valid, expired or outside the
    zones, in that order. *)
Theorem apply_transit_product_spec policy product now o d fare :
  amount_of (FarePolicy.currency policy) fare ->
  exists a, Product.apply_transit_product policy product now o d fare = Ok a
  /\ Money.minor_units (ProductApplication.fare_after_product a)
     + Money.minor_units (ProductApplication.discount_applied a) = Money.minor_units fare
  /\ match product with
     | None => ProductApplication.outcome a = ProductApplicationOutcome.NotPresented
               /\ ProductApplication.fare_after_product a = fare
     | Some p =>
         let t := EventTime.unix_milliseconds now in
         (covers_journey p t o d /\
            ProductApplication.outcome a = ProductApplicationOutcome.Covered
            /\ Money.minor_units (ProductApplication.fare_after_product a) = 0)
         \/ (~ covers_journey p t o d
             /\ ProductApplication.fare_after_product a = fare
             /\ ProductApplication.outcome a = ProductApplicationOutcome.Invalid
                  (if decide (t < EventTime.unix_milliseconds (TransitProduct.valid_from p)) then
                     ProductInvalidReason.NotYetValid
                   else if decide (EventTime.unix_milliseconds (TransitProduct.valid_until p) < t)
                   then ProductInvalidReason.Expired
                   else ProductInvalidReason.OutsideZoneCoverage))
     end.
Proof.
  intros Hf. eexists. split; [by apply apply_transit_product_amount|]. cbn.
  destruct fare as [n c], Hf as [Hc Hn]. cbn in Hc, Hn. subst c. split; [lia|].
  destruct product as [p|]; cbn; [|by rewrite Z.sub_0_r].
  destruct (Product.determine_outcome p now o d) as [| |reason] eqn:E.
  - exfalso. unfold Product.determine_outcome in E. by repeat case_match.
  - left. apply determine_outcome_Covered in E. cbn. split_and!; [done..|lia].
  - right. split.
    { rewrite <- determine_outcome_Covered, E. done. }
    cbn. rewrite Z.sub_0_r. split; [done|]. f_equal.
    unfold Product.determine_outcome in E.
    repeat match type of E with
      | (if ?a <? ?b then _ else _) = _ => destruct (Z.ltb_spec a b)
      | (if ?b then _ else _) = _ => destruct b
      end; simplify_eq; repeat case_decide; done || lia.
Qed.

(** Building a product: [TransitProduct::validate] accepts a definition
    exactly when its interval is not reversed, and [zone_range] exactly the
    ranges that are not reversed.  Validation does not look at the coverage,
    so a definition with a reversed zone range (decoded, or built from the
    enum's public variant) becomes a product that covers no zone at all. *)
Theorem transit_product_validate_spec d :
  (TransitProduct.validate d = Ok (TransitProduct.mk d) <->
   EventTime.unix_milliseconds (TransitProductDefinition.valid_from d)
     <= EventTime.unix_milliseconds (TransitProductDefinition.valid_until d))
  /\ (forall a b, TransitProductCoverage.zone_range a b = Ok (TransitProductCoverage.ZoneRange a b)
        <-> ZoneId.value a <= ZoneId.value b)
  /\ (forall a b p, ZoneId.value b < ZoneId.value a ->
        TransitProductDefinition.coverage d = TransitProductCoverage.ZoneRange a b ->
        TransitProduct.validate d = Ok p ->
        forall z, TransitProductCoverage.covers (TransitProduct.coverage p) z = false).
Proof.
  unfold TransitProduct.validate, TransitProductCoverage.zone_range. split_and!.
  - match goal with |- context [?a <? ?b] => destruct (Z.ltb_spec a b) end;
      [split; [done|lia]|done].
  - intros a b. destruct (Z.ltb_spec (ZoneId.value b) (ZoneId.value a)); [split; [done|lia]|done].
  - intros a b p Hab Hcov Hp z. case_match; [done|]. simplify_eq.
    unfold TransitProduct.coverage. cbn. rewrite Hcov. cbn.
    apply andb_false_iff. rewrite !Z.leb_gt. lia.
Qed.

(** ** Witnesses *)

Definition sample_product : TransitProduct.t :=
  TransitProduct.mk (TransitProductDefinition.mk sample_id sample_id (EventTime.mk 100)
    (EventTime.mk 200) (TransitProductCoverage.ZoneRange (ZoneId.mk 1) (ZoneId.mk 3))).

Lemma apply_transit_product_spec_witness :
  exists a, Product.apply_transit_product sample_policy (Some sample_product) (EventTime.mk 200)
              (ZoneId.mk 1) (ZoneId.mk 3) (sample_money 275) = Ok a
    /\ Money.minor_units (ProductApplication.fare_after_product a)
       + Money.minor_units (ProductApplication.discount_applied a) = 275.
Proof.
  destruct (apply_transit_product_spec sample_policy (Some sample_product) (EventTime.mk 200)
    (ZoneId.mk 1) (ZoneId.mk 3) (sample_money 275)) as (a & Ha & Hsum & _).
  - repeat constructor; vm_compute; discriminate.
  - exists a. split; [exact Ha | exact Hsum].
Defined.
