(* ===== verification/FareEngineEvaluation.v ===== *)
(** * Fare evaluation (crates/fare-engine/src/evaluation.rs) *)

From S2P Require Import Prelude Text DomainMoney DomainIdentifier DomainAccount.
From S2P Require Import DomainTransaction FareEnginePolicy FareEngineTransfer FareEngineCap.
From S2P Require Import FareEngineProduct.

Module FareCalculationStage.

Inductive t := ZoneSurcharge | BaseAndZoneFare | EligibilityDiscount | DiscountedFare.

#[global] Instance eq_dec : EqDecision t.
Proof. solve_decision. Defined.

Definition display (self : t) : Str :=
  match self with
  | ZoneSurcharge => lit "zone surcharge"
  | BaseAndZoneFare => lit "base and zone fare"
  | EligibilityDiscount => lit "eligibility discount"
  | DiscountedFare => lit "discounted fare"
  end.

End FareCalculationStage.

Module FareEvaluationError.

Inductive t :=
| BalanceCurrencyMismatch (expected actual : Currency.t)
| NegativeAvailableBalance (balance : Money.t)
| Transfer (e : TransferEvaluationError.t)
| FareCap (e : FareCapEvaluationError.t)
| Product (e : ProductEvaluationError.t)
| ArithmeticOverflow (stage : FareCalculationStage.t).

#[global] Instance eq_dec : EqDecision t.
Proof. solve_decision. Defined.

End FareEvaluationError.

Module FareEvaluationInput.

Record t := mk {
  event_time : EventTime.t;
  origin_zone : ZoneId.t;
  destination_zone : ZoneId.t;
  eligibility : EligibilityClassification.t;
  transfer_history : TransferHistory.t;
  fare_cap_history : FareCapHistory.t;
  transit_product : option TransitProduct.t;
  available_balance : Money.t
}.

#[global] Instance eq_dec : EqDecision t.
Proof. solve_decision. Defined.

End FareEvaluationInput.

Module FareEvaluationOutcome.

Inductive t :=
| Approved (charged_amount : Money.t) (reason : FareApprovalReason.t)
| Rejected (reason : FareRejectionReason.t).

#[global] Instance eq_dec : EqDecision t.
Proof. solve_decision. Defined.

End FareEvaluationOutcome.

Module FareDecisionEvidence.

Record t := mk {
  base_fare : Money.t;
  additional_zone_count : Z;
  zone_surcharge : Money.t;
  fare_before_discount : Money.t;
  eligibility : EligibilityClassification.t;
  discount_basis_points : DiscountBasisPoints.t;
  eligibility_discount : Money.t;
  fare_after_eligibility : Money.t;
  transfer_eligible : bool;
  transfer_discount : Money.t;
  fare_after_transfer : Money.t;
  fare_cap_discount : Money.t;
  fare_after_caps : Money.t;
  daily_cap_reached : bool;
  weekly_cap_reached : bool;
  product_outcome : ProductApplicationOutcome.t;
  product_discount : Money.t;
  fare_after_product : Money.t;
  final_fare : Money.t
}.

#[global] Instance eq_dec : EqDecision t.
Proof. solve_decision. Defined.

End FareDecisionEvidence.

Module FareEvaluation.

Record t := mk {
  policy_id : FarePolicyId;
  policy_version : FarePolicyVersion.t;
  event_time : EventTime.t;
  outcome : FareEvaluationOutcome.t;
  evidence : FareDecisionEvidence.t
}.

#[global] Instance eq_dec : EqDecision t.
Proof. solve_decision. Defined.

Definition with_outcome (self : t) (outcome : FareEvaluationOutcome.t) : t :=
  mk (policy_id self) (policy_version self) (event_time self) outcome (evidence self).

End FareEvaluation.

Definition determine_stored_value_reason (transfer_discount fare_cap_discount : Money.t)
  : FareApprovalReason.t :=
  if 0 <? Money.minor_units fare_cap_discount then FareApprovalReason.FareCap
  else if 0 <? Money.minor_units transfer_discount then FareApprovalReason.Transfer
  else FareApprovalReason.StandardFare.

Definition evaluate_stored_value (available_balance final_fare : Money.t)
    (approval_reason : FareApprovalReason.t)
  : Result FareEvaluationError.t FareEvaluationOutcome.t :=
  comparison ←
    map_err (fun _ => FareEvaluationError.BalanceCurrencyMismatch
                        (Money.currency final_fare) (Money.currency available_balance))
      (Money.checked_cmp available_balance final_fare);
  Ok (match comparison with
      | Lt => FareEvaluationOutcome.Rejected FareRejectionReason.InsufficientStoredValue
      | Eq | Gt => FareEvaluationOutcome.Approved final_fare approval_reason
      end).

Definition validate_balance (policy : FarePolicy.t) (balance : Money.t)
  : Result FareEvaluationError.t unit :=
  if decide (Money.currency balance <> FarePolicy.currency policy) then
    Err (FareEvaluationError.BalanceCurrencyMismatch (FarePolicy.currency policy)
           (Money.currency balance))
  else if Money.is_negative balance then
    Err (FareEvaluationError.NegativeAvailableBalance balance)
  else Ok tt.

Definition calculate_zone_surcharge (surcharge_per_zone : Money.t) (additional_zone_count : Z)
  : Result FareEvaluationError.t Money.t :=
  minor_units ←
    ok_or (i64_checked_mul (Money.minor_units surcharge_per_zone) additional_zone_count)
      (FareEvaluationError.ArithmeticOverflow FareCalculationStage.ZoneSurcharge);
  Ok (Money.from_minor_units minor_units (Money.currency surcharge_per_zone)).

(** The product is an unchecked [i128] multiplication; [/] truncates. *)
Definition calculate_percentage (amount : Money.t) (rate : DiscountBasisPoints.t)
  : Result FareEvaluationError.t Money.t :=
  let numerator := i128_mul (Money.minor_units amount) (DiscountBasisPoints.value rate) in
  let discounted_minor_units := Z.quot numerator 10000 in
  minor_units ←
    ok_or (i64_try_from discounted_minor_units)
      (FareEvaluationError.ArithmeticOverflow FareCalculationStage.EligibilityDiscount);
  Ok (Money.from_minor_units minor_units (Money.currency amount)).

Definition evaluate_fare (policy : FarePolicy.t) (input : FareEvaluationInput.t)
  : Result FareEvaluationError.t FareEvaluation.t :=
  _ ← validate_balance policy (FareEvaluationInput.available_balance input);
  let additional_zone_count :=
    abs_diff (ZoneId.value (FareEvaluationInput.origin_zone input))
             (ZoneId.value (FareEvaluationInput.destination_zone input)) in
  zone_surcharge ←
    calculate_zone_surcharge (FarePolicy.zone_surcharge policy) additional_zone_count;
  fare_before_discount ←
    map_err (fun _ => FareEvaluationError.ArithmeticOverflow FareCalculationStage.BaseAndZoneFare)
      (Money.checked_add (FarePolicy.base_fare policy) zone_surcharge);
  let discount_basis_points :=
    EligibilityDiscounts.rate_for (FarePolicy.eligibility_discounts policy)
      (FareEvaluationInput.eligibility input) in
  eligibility_discount ← calculate_percentage fare_before_discount discount_basis_points;
  fare_after_eligibility ←
    map_err (fun _ => FareEvaluationError.ArithmeticOverflow FareCalculationStage.DiscountedFare)
      (Money.checked_subtract fare_before_discount eligibility_discount);
  transfer_application ←
    map_err FareEvaluationError.Transfer
      (Transfer.apply_transfer policy (FareEvaluationInput.event_time input)
         (FareEvaluationInput.transfer_history input) fare_after_eligibility);
  fare_cap_application ←
    map_err FareEvaluationError.FareCap
      (FareCap.apply_fare_caps policy (FareEvaluationInput.fare_cap_history input)
         (TransferApplication.fare_after_transfer transfer_application));
  product_application ←
    map_err FareEvaluationError.Product
      (Product.apply_transit_product policy (FareEvaluationInput.transit_product input)
         (FareEvaluationInput.event_time input) (FareEvaluationInput.origin_zone input)
         (FareEvaluationInput.destination_zone input)
         (FareCapApplication.fare_after_caps fare_cap_application));
  let final_fare := ProductApplication.fare_after_product product_application in
  let stored_value_reason :=
    determine_stored_value_reason (TransferApplication.discount_applied transfer_application)
      (FareCapApplication.discount_applied fare_cap_application) in
  outcome ←
    match ProductApplication.outcome product_application with
    | ProductApplicationOutcome.Covered =>
        Ok (FareEvaluationOutcome.Approved (Money.zero (FarePolicy.currency policy))
              FareApprovalReason.TransitProduct)
    | ProductApplicationOutcome.Invalid _ =>
        Ok (FareEvaluationOutcome.Rejected FareRejectionReason.ProductInvalid)
    | ProductApplicationOutcome.NotPresented =>
        evaluate_stored_value (FareEvaluationInput.available_balance input) final_fare
          stored_value_reason
    end;
  let evidence :=
    FareDecisionEvidence.mk (FarePolicy.base_fare policy) additional_zone_count zone_surcharge
      fare_before_discount (FareEvaluationInput.eligibility input) discount_basis_points
      eligibility_discount fare_after_eligibility
      (TransferApplication.eligible transfer_application)
      (TransferApplication.discount_applied transfer_application)
      (TransferApplication.fare_after_transfer transfer_application)
      (FareCapApplication.discount_applied fare_cap_application)
      (FareCapApplication.fare_after_caps fare_cap_application)
      (FareCapApplication.daily_cap_reached fare_cap_application)
      (FareCapApplication.weekly_cap_reached fare_cap_application)
      (ProductApplication.outcome product_application)
      (ProductApplication.discount_applied product_application)
      (ProductApplication.fare_after_product product_application)
      final_fare in
  Ok (FareEvaluation.mk (FarePolicy.id policy) (FarePolicy.version policy)
        (FareEvaluationInput.event_time input) outcome evidence).

(** ** The fare table: the calculation in unbounded integers *)

Record Quote := {
  q_zones : Z;
  q_surcharge : Z;
  q_gross : Z;
  q_eligibility_discount : Z;
  q_after_eligibility : Z;
  q_transfer_discount : Z;
  q_after_transfer : Z;
  q_after_caps : Z;
  q_final : Z
}.

Definition quote (policy : FarePolicy.t) (input : FareEvaluationInput.t) (eligible : bool)
  : Quote :=
  let zones := Z.abs (ZoneId.value (FareEvaluationInput.origin_zone input)
                      - ZoneId.value (FareEvaluationInput.destination_zone input)) in
  let surcharge := Money.minor_units (FarePolicy.zone_surcharge policy) * zones in
  let gross := Money.minor_units (FarePolicy.base_fare policy) + surcharge in
  let rate := DiscountBasisPoints.value
    (EligibilityDiscounts.rate_for (FarePolicy.eligibility_discounts policy)
       (FareEvaluationInput.eligibility input)) in
  let eligibility_discount := gross * rate / 10000 in
  let after_eligibility := gross - eligibility_discount in
  let transfer := transfer_discount_of policy eligible after_eligibility in
  let after_transfer := after_eligibility - transfer in
  let after_caps :=
    fare_under_caps policy (FareEvaluationInput.fare_cap_history input) after_transfer in
  let outcome := product_outcome (FareEvaluationInput.transit_product input)
    (FareEvaluationInput.event_time input) (FareEvaluationInput.origin_zone input)
    (FareEvaluationInput.destination_zone input) in
  {| q_zones := zones; q_surcharge := surcharge; q_gross := gross;
     q_eligibility_discount := eligibility_discount; q_after_eligibility := after_eligibility;
     q_transfer_discount := transfer; q_after_transfer := after_transfer;
     q_after_caps := after_caps; q_final := after_caps - product_discount outcome after_caps |}.

(** The decision a quote leads to. *)
Definition decide_quote (policy : FarePolicy.t) (input : FareEvaluationInput.t) (q : Quote)
  : FareEvaluationOutcome.t :=
  match product_outcome (FareEvaluationInput.transit_product input)
          (FareEvaluationInput.event_time input) (FareEvaluationInput.origin_zone input)
          (FareEvaluationInput.destination_zone input) with
  | ProductApplicationOutcome.Covered =>
      FareEvaluationOutcome.Approved (Money.zero (FarePolicy.currency policy))
        FareApprovalReason.TransitProduct
  | ProductApplicationOutcome.Invalid _ =>
      FareEvaluationOutcome.Rejected FareRejectionReason.ProductInvalid
  | ProductApplicationOutcome.NotPresented =>
      if decide (Money.minor_units (FareEvaluationInput.available_balance input) < q_final q) then
        FareEvaluationOutcome.Rejected FareRejectionReason.InsufficientStoredValue
      else
        FareEvaluationOutcome.Approved
          (Money.from_minor_units (q_final q) (FarePolicy.currency policy))
          (if decide (q_after_caps q < q_after_transfer q) then FareApprovalReason.FareCap
           else if decide (0 < q_transfer_discount q) then FareApprovalReason.Transfer
           else FareApprovalReason.StandardFare)
  end.

Definition quote_evaluation (policy : FarePolicy.t) (input : FareEvaluationInput.t)
    (eligible : bool) : FareEvaluation.t :=
  let q := quote policy input eligible in
  let money n := Money.from_minor_units n (FarePolicy.currency policy) in
  let history := FareEvaluationInput.fare_cap_history input in
  let daily := Money.minor_units (FareCapHistory.daily_charged history) in
  let weekly := Money.minor_units (FareCapHistory.weekly_charged history) in
  let outcome := product_outcome (FareEvaluationInput.transit_product input)
    (FareEvaluationInput.event_time input) (FareEvaluationInput.origin_zone input)
    (FareEvaluationInput.destination_zone input) in
  FareEvaluation.mk (FarePolicy.id policy) (FarePolicy.version policy)
    (FareEvaluationInput.event_time input) (decide_quote policy input q)
    (FareDecisionEvidence.mk (FarePolicy.base_fare policy) (q_zones q) (money (q_surcharge q))
       (money (q_gross q)) (FareEvaluationInput.eligibility input)
       (EligibilityDiscounts.rate_for (FarePolicy.eligibility_discounts policy)
          (FareEvaluationInput.eligibility input))
       (money (q_eligibility_discount q)) (money (q_after_eligibility q)) eligible
       (money (q_transfer_discount q)) (money (q_after_transfer q))
       (money (q_after_transfer q - q_after_caps q)) (money (q_after_caps q))
       (bool_decide (Money.minor_units (FarePolicy.daily_cap policy) <= daily + q_after_caps q))
       (bool_decide (Money.minor_units (FarePolicy.weekly_cap policy) <= weekly + q_after_caps q))
       outcome (money (product_discount outcome (q_after_caps q))) (money (q_final q))
       (money (q_final q))).

(** Inputs the engine prices: validated value objects, a balance and a cap
    history in the policy currency. *)
Record input_ok (policy : FarePolicy.t) (input : FareEvaluationInput.t) : Prop := {
  ok_event_time : EventTime.wf (FareEvaluationInput.event_time input);
  ok_origin : ZoneId.wf (FareEvaluationInput.origin_zone input);
  ok_destination : ZoneId.wf (FareEvaluationInput.destination_zone input);
  ok_transfer_history : TransferHistory.wf (FareEvaluationInput.transfer_history input);
  ok_cap_history : cap_history_ok policy (FareEvaluationInput.fare_cap_history input);
  ok_balance : amount_of (FarePolicy.currency policy)
                 (FareEvaluationInput.available_balance input)
}.

(** ** Lemmas on the stages *)

Lemma validate_balance_amount policy m :
  amount_of (FarePolicy.currency policy) m -> validate_balance policy m = Ok tt.
Proof.
  intros [Hc Hn]. unfold validate_balance. rewrite decide_False by naive_solver.
  by rewrite (proj2 (Money.is_negative_false m)) by lia.
Qed.

Lemma quote_gross_nonneg policy input eligible :
  policy_ok policy -> 0 <= q_gross (quote policy input eligible).
Proof.
  intros Hp. destruct (ok_base_fare _ Hp) as [_ Hb], (ok_zone_surcharge _ Hp) as [_ Hs].
  cbn. nia.
Qed.

(** The percentage of a non-negative [i64] amount is the floor of the exact
    quotient: the [i128] product does not wrap and the result always fits. *)
Lemma calculate_percentage_amount amount rate :
  0 <= Money.minor_units amount <= i64_max -> DiscountBasisPoints.wf rate ->
  calculate_percentage amount rate
    = Ok (Money.from_minor_units
            (Money.minor_units amount * DiscountBasisPoints.value rate / 10000)
            (Money.currency amount))
  /\ 0 <= Money.minor_units amount * DiscountBasisPoints.value rate / 10000
       <= Money.minor_units amount.
Proof.
  unfold DiscountBasisPoints.wf. intros Ha Hr.
  set (a := Money.minor_units amount) in *. set (r := DiscountBasisPoints.value rate) in *.
  assert (Hmul : 0 <= a * r <= a * 10000) by nia.
  assert (Hq : 0 <= a * r / 10000 <= a).
  { split; [apply Z.div_pos; lia|]. apply Z.div_le_upper_bound; lia. }
  split; [|done]. unfold calculate_percentage, i128_mul. fold a r.
  rewrite i128_wrap_in by int_lia. rewrite Z.quot_div_nonneg by lia.
  rewrite i64_try_from_in by int_lia. done.
Qed.

(** Each stage of a quote takes something off and leaves something. *)
Lemma quote_stages policy input eligible :
  policy_ok policy -> cap_history_ok policy (FareEvaluationInput.fare_cap_history input) ->
  in_i64 (q_gross (quote policy input eligible)) ->
  let q := quote policy input eligible in
  0 <= q_eligibility_discount q <= q_gross q
  /\ q_after_eligibility q = q_gross q - q_eligibility_discount q
  /\ 0 <= q_transfer_discount q <= q_after_eligibility q
  /\ q_after_transfer q = q_after_eligibility q - q_transfer_discount q
  /\ 0 <= q_after_caps q <= q_after_transfer q
  /\ 0 <= q_final q <= q_after_caps q.
Proof.
  intros Hp [Hd Hw Hdw] Hg q.
  pose proof (quote_gross_nonneg policy input eligible Hp) as Hg0. fold q in Hg, Hg0.
  assert (He : 0 <= q_eligibility_discount q <= q_gross q).
  { apply (calculate_percentage_amount (Money.from_minor_units (q_gross q) Currency.Usd)
      (EligibilityDiscounts.rate_for (FarePolicy.eligibility_discounts policy)
         (FareEvaluationInput.eligibility input))).
    - cbn [Money.minor_units]. split; [done | apply Hg].
    - apply EligibilityDiscounts.rate_for_wf, Hp. }
  split; [done|]. assert (Hae : q_after_eligibility q = q_gross q - q_eligibility_discount q) by done.
  split; [done|].
  assert (Ht : 0 <= q_transfer_discount q <= q_after_eligibility q).
  { destruct (ok_transfer_discount _ Hp) as [_ Htd].
    change (q_transfer_discount q) with
      (transfer_discount_of policy eligible (q_after_eligibility q)).
    unfold transfer_discount_of. destruct eligible; lia. }
  split; [done|]. assert (Hat : q_after_transfer q = q_after_eligibility q - q_transfer_discount q)
    by done.
  split; [done|].
  assert (Hc : 0 <= q_after_caps q <= q_after_transfer q).
  { destruct Hd as [_ Hd], Hw as [_ Hw].
    apply (capped_fare_bounds (Money.minor_units (FarePolicy.daily_cap policy))
      (Money.minor_units (FarePolicy.weekly_cap policy))
      (Money.minor_units (FareCapHistory.daily_charged (FareEvaluationInput.fare_cap_history input)))
      (Money.minor_units (FareCapHistory.weekly_charged (FareEvaluationInput.fare_cap_history input)))
      (q_after_transfer q)); lia. }
  split; [done|].
  match goal with |- 0 <= q_final q <= _ =>
    change (q_final q) with (q_after_caps q - product_discount
      (product_outcome (FareEvaluationInput.transit_product input)
         (FareEvaluationInput.event_time input) (FareEvaluationInput.origin_zone input)
         (FareEvaluationInput.destination_zone input)) (q_after_caps q)) end.
  unfold product_discount. case_match; lia.
Qed.

Lemma evaluate_stored_value_quote balance final c reason :
  amount_of c balance ->
  evaluate_stored_value balance (Money.from_minor_units final c) reason =
    Ok (if decide (Money.minor_units balance < final) then
          FareEvaluationOutcome.Rejected FareRejectionReason.InsufficientStoredValue
        else FareEvaluationOutcome.Approved (Money.from_minor_units final c) reason).
Proof.
  intros [Hc _]. unfold evaluate_stored_value.
  rewrite (proj2 (Money.checked_cmp_Ok _ _ (Money.minor_units balance ?= final))) by done.
  cbn. case_decide as H; destruct (Z.compare_spec (Money.minor_units balance) final);
    done || lia.
Qed.

Lemma determine_reason_quote t d c :
  determine_stored_value_reason (Money.from_minor_units t c) (Money.from_minor_units d c)
  = if decide (0 < d) then FareApprovalReason.FareCap
    else if decide (0 < t) then FareApprovalReason.Transfer
    else FareApprovalReason.StandardFare.
Proof.
  unfold determine_stored_value_reason. cbn.
  destruct (Z.ltb_spec 0 d); [by rewrite decide_True|]. rewrite decide_False by lia.
  destruct (Z.ltb_spec 0 t); [by rewrite decide_True|]. by rewrite decide_False by lia.
Qed.

(** The gross fare, or the stage that overflowed. *)
Lemma zone_surcharge_quote policy input :
  calculate_zone_surcharge (FarePolicy.zone_surcharge policy)
    (abs_diff (ZoneId.value (FareEvaluationInput.origin_zone input))
       (ZoneId.value (FareEvaluationInput.destination_zone input)))
  = (let s := q_surcharge (quote policy input false) in
     if decide (~ in_i64 s) then
       Err (FareEvaluationError.ArithmeticOverflow FareCalculationStage.ZoneSurcharge)
     else Ok (Money.from_minor_units s (Money.currency (FarePolicy.zone_surcharge policy)))).
Proof.
  unfold calculate_zone_surcharge, i64_checked_mul, i64_try_from, abs_diff. cbn zeta.
  change (Money.minor_units (FarePolicy.zone_surcharge policy) * Z.abs _)
    with (q_surcharge (quote policy input false)).
  by do 2 case_decide.
Qed.

Lemma gross_quote policy input :
  policy_ok policy ->
  map_err (fun _ => FareEvaluationError.ArithmeticOverflow FareCalculationStage.BaseAndZoneFare)
    (Money.checked_add (FarePolicy.base_fare policy)
       (Money.from_minor_units (q_surcharge (quote policy input false))
          (Money.currency (FarePolicy.zone_surcharge policy))))
  = (let g := q_gross (quote policy input false) in
     if decide (~ in_i64 g) then
       Err (FareEvaluationError.ArithmeticOverflow FareCalculationStage.BaseAndZoneFare)
     else Ok (Money.from_minor_units g (FarePolicy.currency policy))).
Proof.
  intros Hp. destruct (ok_base_fare _ Hp) as [Hbc _], (ok_zone_surcharge _ Hp) as [Hsc _].
  unfold Money.checked_add, Money.ensure_same_currency, i64_checked_add, i64_try_from.
  cbn [Money.currency Money.minor_units]. rewrite Hbc, Hsc.
  rewrite (decide_True (P := FarePolicy.currency policy = FarePolicy.currency policy)) by done.
  cbn zeta.
  change (Money.minor_units (FarePolicy.base_fare policy) + _)
    with (q_gross (quote policy input false)).
  cbn [mbind Result_bind]. by do 2 case_decide.
Qed.

(** The whole evaluation on priceable input. *)
Lemma evaluate_fare_quote policy input :
  policy_ok policy -> input_ok policy input ->
  evaluate_fare policy input =
    (let q := quote policy input false in
     if decide (~ in_i64 (q_surcharge q)) then
       Err (FareEvaluationError.ArithmeticOverflow FareCalculationStage.ZoneSurcharge)
     else if decide (~ in_i64 (q_gross q)) then
       Err (FareEvaluationError.ArithmeticOverflow FareCalculationStage.BaseAndZoneFare)
     else
       eligible ← map_err FareEvaluationError.Transfer
         (transfer_window_open policy
            (EventTime.unix_milliseconds (FareEvaluationInput.event_time input))
            (FareEvaluationInput.transfer_history input));
       Ok (quote_evaluation policy input eligible)).
Proof.
  intros Hp Hi. unfold evaluate_fare.
  rewrite validate_balance_amount by apply Hi. cbn [mbind Result_bind].
  rewrite zone_surcharge_quote. cbn zeta.
  destruct (decide (~ in_i64 (q_surcharge (quote policy input false)))) as [Hs|Hs]; [reflexivity|].
  cbn [mbind Result_bind]. rewrite gross_quote by exact Hp. cbn zeta.
  destruct (decide (~ in_i64 (q_gross (quote policy input false)))) as [Hg|Hg]; [reflexivity|].
  apply dec_stable in Hg. cbn [mbind Result_bind].
  pose proof (quote_gross_nonneg policy input false Hp) as Hg0.
  edestruct (calculate_percentage_amount
    (Money.from_minor_units (q_gross (quote policy input false)) (FarePolicy.currency policy)))
    as [-> Hd];
    [split; [done | apply Hg] | apply EligibilityDiscounts.rate_for_wf, Hp |].
  cbn [mbind Result_bind Money.minor_units Money.currency] in *.
  rewrite Money.checked_subtract_nonneg
    by (unfold Money.wf; cbn [Money.minor_units]; done || int_lia).
  cbn [map_err mbind Result_bind Money.minor_units Money.currency].
  rewrite apply_transfer_amount;
    [|done|apply Hi|apply Hi
     |split; [done|]; cbn [Money.minor_units]; unfold_ints; lia].
  destruct (transfer_window_open policy _ _) as [eligible|e]; [|done].
  cbn [map_err mbind Result_bind TransferApplication.fare_after_transfer
    TransferApplication.discount_applied TransferApplication.eligible Money.minor_units].
  destruct (quote_stages policy input eligible Hp (ok_cap_history _ _ Hi) Hg)
    as (H1 & H2 & H3 & H4 & H5 & H6).
  set (q := quote policy input eligible) in *.
  change (q_gross (quote policy input false)) with (q_gross q) in *.
  change (transfer_discount_of policy eligible _) with (q_transfer_discount q).
  change (q_gross q - _ - q_transfer_discount q) with (q_after_transfer q).
  rewrite apply_fare_caps_amount;
    [|done|apply Hi|split; [done|]; cbn [Money.minor_units]; unfold_ints; lia].
  cbn [map_err mbind Result_bind cap_application FareCapApplication.fare_after_caps
    FareCapApplication.discount_applied FareCapApplication.daily_cap_reached
    FareCapApplication.weekly_cap_reached Money.minor_units].
  change (fare_under_caps policy _ (q_after_transfer q)) with (q_after_caps q).
  rewrite apply_transit_product_amount
    by (split; [done|]; cbn [Money.minor_units]; unfold_ints; lia).
  cbn [map_err mbind Result_bind ProductApplication.fare_after_product
    ProductApplication.outcome ProductApplication.discount_applied Money.minor_units].
  match goal with |- context [product_discount ?o (q_after_caps q)] =>
    change (q_after_caps q - product_discount o (q_after_caps q)) with (q_final q) end.
  rewrite evaluate_stored_value_quote by apply Hi.
  rewrite determine_reason_quote.
  unfold quote_evaluation, decide_quote. fold q.
  assert (Hcap : (if decide (0 < q_after_transfer q - q_after_caps q) then FareApprovalReason.FareCap
     else if decide (0 < q_transfer_discount q) then FareApprovalReason.Transfer
     else FareApprovalReason.StandardFare)
    = (if decide (q_after_caps q < q_after_transfer q) then FareApprovalReason.FareCap
     else if decide (0 < q_transfer_discount q) then FareApprovalReason.Transfer
     else FareApprovalReason.StandardFare)).
  { by repeat case_decide; try lia. }
  rewrite Hcap, (proj1 (ok_zone_surcharge _ Hp)). by destruct (product_outcome _ _ _ _).
Qed.

(** ** Properties *)

(** C10. The fare engine implements the fare table.  On a validated policy and
    priceable input, [evaluate_fare] (checked [i64] and [i128] arithmetic, six
    chained stages) returns exactly the evaluation computed from [quote] in
    unbounded integers, with the decision of [decide_quote]; it fails only
    when the zone surcharge or the gross fare does not fit an [i64], or when
    the previous paid fare lies in the future. *)
Theorem evaluate_fare_refines_quote policy input :
  policy_ok policy -> input_ok policy input ->
  evaluate_fare policy input =
    (let q := quote policy input false in
     if decide (~ in_i64 (q_surcharge q)) then
       Err (FareEvaluationError.ArithmeticOverflow FareCalculationStage.ZoneSurcharge)
     else if decide (~ in_i64 (q_gross q)) then
       Err (FareEvaluationError.ArithmeticOverflow FareCalculationStage.BaseAndZoneFare)
     else
       eligible ← map_err FareEvaluationError.Transfer
         (transfer_window_open policy
            (EventTime.unix_milliseconds (FareEvaluationInput.event_time input))
            (FareEvaluationInput.transfer_history input));
       Ok (quote_evaluation policy input eligible)).
Proof. apply evaluate_fare_quote. Qed.

Lemma evaluate_fare_Ok policy input ev :
  policy_ok policy -> input_ok policy input -> evaluate_fare policy input = Ok ev ->
  exists eligible,
    ev = quote_evaluation policy input eligible
    /\ in_i64 (q_gross (quote policy input eligible))
    /\ transfer_window_open policy
         (EventTime.unix_milliseconds (FareEvaluationInput.event_time input))
         (FareEvaluationInput.transfer_history input) = Ok eligible.
Proof.
  intros Hp Hi. rewrite evaluate_fare_quote by done. cbn zeta.
  destruct (decide (~ in_i64 (q_surcharge _))) as [|_]; [done|].
  destruct (decide (~ in_i64 (q_gross _))) as [|Hg]; [done|]. apply dec_stable in Hg.
  rewrite Result_bind_Ok. intros (eligible & Hw & [= <-]). apply map_err_Ok in Hw.
  by exists eligible.
Qed.

(** C11. Every cent is accounted for.  In the evidence of a successful
    evaluation the base fare is the policy's and the surcharge its price per
    zone times the zones crossed; the gross fare is their sum; each later fare
    (after eligibility, transfer, caps and product) is the one before it minus
    its own discount, the last one is the final fare, and so base fare plus
    surcharge equals the final fare plus the four discounts.  Every amount,
    each fare and each discount, is in the policy currency and not negative. *)
Theorem evaluate_fare_conserves policy input ev :
  policy_ok policy -> input_ok policy input -> evaluate_fare policy input = Ok ev ->
  let e := FareEvaluation.evidence ev in
  let u := Money.minor_units in
  FareDecisionEvidence.base_fare e = FarePolicy.base_fare policy
  /\ FareDecisionEvidence.additional_zone_count e
      = Z.abs (ZoneId.value (FareEvaluationInput.origin_zone input)
               - ZoneId.value (FareEvaluationInput.destination_zone input))
  /\ u (FareDecisionEvidence.zone_surcharge e)
      = u (FarePolicy.zone_surcharge policy) * FareDecisionEvidence.additional_zone_count e
  /\ u (FareDecisionEvidence.fare_before_discount e)
      = u (FareDecisionEvidence.base_fare e) + u (FareDecisionEvidence.zone_surcharge e)
  /\ u (FareDecisionEvidence.fare_after_eligibility e)
      = u (FareDecisionEvidence.fare_before_discount e)
        - u (FareDecisionEvidence.eligibility_discount e)
  /\ u (FareDecisionEvidence.fare_after_transfer e)
      = u (FareDecisionEvidence.fare_after_eligibility e)
        - u (FareDecisionEvidence.transfer_discount e)
  /\ u (FareDecisionEvidence.fare_after_caps e)
      = u (FareDecisionEvidence.fare_after_transfer e) - u (FareDecisionEvidence.fare_cap_discount e)
  /\ u (FareDecisionEvidence.fare_after_product e)
      = u (FareDecisionEvidence.fare_after_caps e) - u (FareDecisionEvidence.product_discount e)
  /\ FareDecisionEvidence.final_fare e = FareDecisionEvidence.fare_after_product e
  /\ u (FareDecisionEvidence.base_fare e) + u (FareDecisionEvidence.zone_surcharge e)
      = u (FareDecisionEvidence.final_fare e) + u (FareDecisionEvidence.eligibility_discount e)
        + u (FareDecisionEvidence.transfer_discount e)
        + u (FareDecisionEvidence.fare_cap_discount e) + u (FareDecisionEvidence.product_discount e)
  /\ Forall (fun m => amount_of (FarePolicy.currency policy) m)
       [FareDecisionEvidence.base_fare e; FareDecisionEvidence.zone_surcharge e;
        FareDecisionEvidence.fare_before_discount e; FareDecisionEvidence.eligibility_discount e;
        FareDecisionEvidence.fare_after_eligibility e; FareDecisionEvidence.transfer_discount e;
        FareDecisionEvidence.fare_after_transfer e; FareDecisionEvidence.fare_cap_discount e;
        FareDecisionEvidence.fare_after_caps e; FareDecisionEvidence.product_discount e;
        FareDecisionEvidence.fare_after_product e; FareDecisionEvidence.final_fare e].
Proof.
  intros Hp Hi Hev e u.
  apply evaluate_fare_Ok in Hev as (eligible & -> & Hg & _); [|done|done].
  destruct (quote_stages policy input eligible Hp (ok_cap_history _ _ Hi) Hg)
    as (H1 & H2 & H3 & H4 & H5 & H6).
  pose proof (ok_base_fare _ Hp) as Hb.
  assert (Hs : 0 <= q_surcharge (quote policy input eligible))
    by (destruct (ok_zone_surcharge _ Hp) as [_ ?]; cbn; nia).
  assert (Hgross : q_gross (quote policy input eligible)
    = Money.minor_units (FarePolicy.base_fare policy) + q_surcharge (quote policy input eligible))
    by done.
  subst e u. unfold quote_evaluation.
  cbn -[quote product_outcome in_i64 amount_of].
  set (q := quote policy input eligible) in *.
  match goal with |- context [product_discount ?o (q_after_caps q)] =>
    assert (Hf : q_final q = q_after_caps q - product_discount o (q_after_caps q)) by done;
    set (pd := product_discount o (q_after_caps q)) in *
  end.
  destruct Hb as [Hbc Hb]. unfold in_i64 in Hg.
  split_and!; [done..|lia|lia|lia|lia|lia|done|lia|].
  repeat constructor; cbn [Money.minor_units Money.currency]; done || lia.
Qed.

(** C12. The decision is sound, and its reason true.  An approval charges the
    final fare: a non-negative amount in the policy currency that the balance
    covers and that keeps the day and the week within their caps (or charges
    nothing).  A ride approved on a product is free, and the rider holds a
    product valid at that time in both zones; conversely such a product always
    makes the ride free.  The other reasons are given without a product: the
    fare cap exactly when a cap lowered the fare, else the transfer exactly
    when it was discounted, else the standard fare, and never the offline one.
    A refusal is for insufficient funds, without a product and with the
    balance below the final fare, or for a product that does not cover. *)
Theorem evaluate_fare_decision_sound policy input ev :
  policy_ok policy -> input_ok policy input -> evaluate_fare policy input = Ok ev ->
  let balance := Money.minor_units (FareEvaluationInput.available_balance input) in
  let history := FareEvaluationInput.fare_cap_history input in
  let product := FareEvaluationInput.transit_product input in
  let e := FareEvaluation.evidence ev in
  let final := Money.minor_units (FareDecisionEvidence.final_fare e) in
  let cap_discount := Money.minor_units (FareDecisionEvidence.fare_cap_discount e) in
  let transfer_discount := Money.minor_units (FareDecisionEvidence.transfer_discount e) in
  let covering p :=
    covers_journey p (EventTime.unix_milliseconds (FareEvaluationInput.event_time input))
      (FareEvaluationInput.origin_zone input) (FareEvaluationInput.destination_zone input) in
  match FareEvaluation.outcome ev with
  | FareEvaluationOutcome.Approved charged reason =>
      amount_of (FarePolicy.currency policy) charged
      /\ Money.minor_units charged <= balance
      /\ Money.minor_units charged = final
      /\ (Money.minor_units charged = 0
          \/ (Money.minor_units (FareCapHistory.daily_charged history) + Money.minor_units charged
                <= Money.minor_units (FarePolicy.daily_cap policy)
              /\ Money.minor_units (FareCapHistory.weekly_charged history)
                 + Money.minor_units charged
                <= Money.minor_units (FarePolicy.weekly_cap policy)))
      /\ match reason with
         | FareApprovalReason.TransitProduct =>
             Money.minor_units charged = 0 /\ exists p, product = Some p /\ covering p
         | FareApprovalReason.FareCap => product = None /\ 0 < cap_discount
         | FareApprovalReason.Transfer =>
             product = None /\ cap_discount = 0 /\ 0 < transfer_discount
         | FareApprovalReason.StandardFare =>
             product = None /\ cap_discount = 0 /\ transfer_discount = 0
         | FareApprovalReason.OfflineProvisional => False
         end
  | FareEvaluationOutcome.Rejected reason =>
      (reason = FareRejectionReason.InsufficientStoredValue /\ balance < final
       /\ product = None)
      \/ (reason = FareRejectionReason.ProductInvalid
          /\ exists p, product = Some p /\ ~ covering p)
  end
  /\ (forall p, product = Some p -> covering p ->
        final = 0
        /\ FareEvaluation.outcome ev
           = FareEvaluationOutcome.Approved (Money.from_minor_units 0 (FarePolicy.currency policy))
               FareApprovalReason.TransitProduct).
Proof.
  intros Hp Hi Hev. apply evaluate_fare_Ok in Hev as (eligible & -> & Hg & _); [|done|done].
  destruct (quote_stages policy input eligible Hp (ok_cap_history _ _ Hi) Hg)
    as (H1 & H2 & H3 & H4 & H5 & H6).
  assert (Hcaps := capped_fare_fits (Money.minor_units (FarePolicy.daily_cap policy))
    (Money.minor_units (FarePolicy.weekly_cap policy))
    (Money.minor_units (FareCapHistory.daily_charged (FareEvaluationInput.fare_cap_history input)))
    (Money.minor_units (FareCapHistory.weekly_charged (FareEvaluationInput.fare_cap_history input)))
    (q_after_transfer (quote policy input eligible))).
  destruct (ok_cap_history _ _ Hi) as [[_ Hd] [_ Hw] _], (ok_balance _ _ Hi) as [_ Hbal].
  unfold quote_evaluation, decide_quote.
  cbn -[quote product_outcome in_i64 amount_of Money.zero].
  set (q := quote policy input eligible) in *.
  change (capped_fare _ _ _ _ (q_after_transfer q)) with (q_after_caps q) in Hcaps.
  assert (Hf : q_final q = q_after_caps q - product_discount
    (product_outcome (FareEvaluationInput.transit_product input)
       (FareEvaluationInput.event_time input) (FareEvaluationInput.origin_zone input)
       (FareEvaluationInput.destination_zone input)) (q_after_caps q)) by done.
  clearbody q. unfold in_i64 in Hg.
  destruct (FareEvaluationInput.transit_product input) as [p|]; cbn [product_outcome] in *.
  - pose proof (determine_outcome_Covered p (FareEvaluationInput.event_time input)
      (FareEvaluationInput.origin_zone input) (FareEvaluationInput.destination_zone input)) as Hcov.
    destruct (Product.determine_outcome p _ _ _) as [| |reason] eqn:E; cbn [product_discount] in *.
    + exfalso. unfold Product.determine_outcome in E. by repeat case_match.
    + cbn [Money.minor_units Money.zero]. split.
      * split_and!; [done|lia..|]. exists p. by split; [|apply Hcov].
      * intros _ _ _. split; [lia|done].
    + assert (~ covers_journey p
        (EventTime.unix_milliseconds (FareEvaluationInput.event_time input))
        (FareEvaluationInput.origin_zone input) (FareEvaluationInput.destination_zone input))
        as Hnot by (by rewrite <- Hcov).
      split; [right; split; [done|]; by exists p|]. by intros p' [= <-] ?.
  - cbn [product_discount] in *. split; [|done].
    case_decide; [left; split_and!; done || lia|].
    cbn [Money.minor_units Money.currency].
    split; [split; cbn; done || lia|]. split_and!; [lia|done| |].
    + destruct (decide (q_final q = 0)); [by left|]. right. lia.
    + case_decide; [split; [done|lia]|]. case_decide; split_and!; done || lia.
Qed.

(** ** Witnesses *)

(** A rider transferring within the window, close to the weekly cap. *)
Definition sample_input : FareEvaluationInput.t :=
  FareEvaluationInput.mk (EventTime.mk 1000) (ZoneId.mk 1) (ZoneId.mk 3)
    EligibilityClassification.Standard (TransferHistory.mk (Some (EventTime.mk 500)))
    sample_cap_history None (sample_money 2000).

Lemma sample_input_ok : input_ok sample_policy sample_input.
Proof. repeat constructor; vm_compute; discriminate. Qed.

Definition sample_evaluation : FareEvaluation.t := quote_evaluation sample_policy sample_input true.

Lemma evaluate_fare_refines_quote_witness :
  evaluate_fare sample_policy sample_input = Ok sample_evaluation.
Proof.
  rewrite (evaluate_fare_refines_quote sample_policy sample_input sample_policy_ok sample_input_ok).
  vm_compute. reflexivity.
Defined.

Lemma evaluate_fare_conserves_witness :
  let e := FareEvaluation.evidence sample_evaluation in
  275 + 200 = Money.minor_units (FareDecisionEvidence.final_fare e) + 0 + 100
    + Money.minor_units (FareDecisionEvidence.fare_cap_discount e) + 0.
Proof.
  destruct (evaluate_fare_conserves sample_policy sample_input sample_evaluation sample_policy_ok
    sample_input_ok) as (_ & _ & _ & _ & _ & _ & _ & _ & _ & Hsum & _); [|exact Hsum].
  vm_compute. reflexivity.
Defined.

Lemma evaluate_fare_decision_sound_witness :
  FareEvaluation.outcome sample_evaluation
    = FareEvaluationOutcome.Approved (sample_money 50) FareApprovalReason.FareCap
  /\ 50 <= Money.minor_units (FareEvaluationInput.available_balance sample_input).
Proof.
  split; [vm_compute; reflexivity|].
  destruct (evaluate_fare_decision_sound sample_policy sample_input sample_evaluation
    sample_policy_ok sample_input_ok) as [(_ & Hbalance & _) _]; [|exact Hbalance].
  vm_compute. reflexivity.
Defined.
