(* ===== verification/FareEngineOffline.v ===== *)
(** * Offline evaluation (crates/fare-engine/src/offline.rs)

    The reader-local decision: the online evaluation on cached data, then the
    freshness limits and the provisional charge limit. *)

From S2P Require Import Prelude Text DomainMoney DomainIdentifier DomainAccount.
From S2P Require Import DomainTransaction FareEnginePolicy FareEngineTransfer FareEngineCap.
From S2P Require Import FareEngineProduct FareEngineEvaluation.

Module OfflineSnapshotKind.

Inductive t := FarePolicy | RevocationData.

#[global] Instance eq_dec : EqDecision t.
Proof. solve_decision. Defined.

Definition display (self : t) : Str :=
  match self with
  | FarePolicy => lit "fare policy"
  | RevocationData => lit "revocation data"
  end.

End OfflineSnapshotKind.

Module OfflineEvaluationContext.

Record t := mk {
  policy_cached_at : EventTime.t;
  maximum_policy_age_milliseconds : Z;
  revocation_data_cached_at : EventTime.t;
  maximum_revocation_age_milliseconds : Z;
  provisional_charge_limit : Money.t
}.

#[global] Instance eq_dec : EqDecision t.
Proof. solve_decision. Defined.

End OfflineEvaluationContext.

Module OfflineEvaluationError.

Inductive t :=
| FareEvaluation (e : FareEvaluationError.t)
| ProvisionalLimitCurrencyMismatch (expected actual : Currency.t)
| NegativeProvisionalLimit (limit : Money.t)
| SnapshotOccursAfterEvent (snapshot : OfflineSnapshotKind.t)
    (snapshot_unix_milliseconds event_unix_milliseconds : Z).

#[global] Instance eq_dec : EqDecision t.
Proof. solve_decision. Defined.

End OfflineEvaluationError.

Module OfflineFareEvaluation.

Record t := mk {
  evaluation : FareEvaluation.t;
  policy_age_milliseconds : Z;
  revocation_data_age_milliseconds : Z;
  provisional_charge_limit : Money.t
}.

#[global] Instance eq_dec : EqDecision t.
Proof. solve_decision. Defined.

End OfflineFareEvaluation.

Definition validate_provisional_limit (policy : FarePolicy.t) (limit : Money.t)
  : Result OfflineEvaluationError.t unit :=
  if decide (Money.currency limit <> FarePolicy.currency policy) then
    Err (OfflineEvaluationError.ProvisionalLimitCurrencyMismatch (FarePolicy.currency policy)
           (Money.currency limit))
  else if Money.is_negative limit then
    Err (OfflineEvaluationError.NegativeProvisionalLimit limit)
  else Ok tt.

(** The subtraction is the unchecked [i64] one. *)
Definition snapshot_age (snapshot : OfflineSnapshotKind.t) (cached_at event_time : EventTime.t)
  : Result OfflineEvaluationError.t Z :=
  let snapshot_unix_milliseconds := EventTime.unix_milliseconds cached_at in
  let event_unix_milliseconds := EventTime.unix_milliseconds event_time in
  if event_unix_milliseconds <? snapshot_unix_milliseconds then
    Err (OfflineEvaluationError.SnapshotOccursAfterEvent snapshot snapshot_unix_milliseconds
           event_unix_milliseconds)
  else Ok (unsigned_abs (i64_sub event_unix_milliseconds snapshot_unix_milliseconds)).

Definition apply_offline_limit (evaluation : FareEvaluation.t) (limit : Money.t)
  : Result OfflineEvaluationError.t FareEvaluation.t :=
  outcome ←
    match FareEvaluation.outcome evaluation with
    | FareEvaluationOutcome.Rejected reason => Ok (FareEvaluationOutcome.Rejected reason)
    | FareEvaluationOutcome.Approved charged_amount _ =>
        comparison ←
          map_err (fun _ => OfflineEvaluationError.ProvisionalLimitCurrencyMismatch
                              (Money.currency limit) (Money.currency charged_amount))
            (Money.checked_cmp charged_amount limit);
        Ok (match comparison with
            | Gt => FareEvaluationOutcome.Rejected FareRejectionReason.OfflineLimitExceeded
            | _ => FareEvaluationOutcome.Approved charged_amount
                     FareApprovalReason.OfflineProvisional
            end)
    end;
  Ok (FareEvaluation.with_outcome evaluation outcome).

Definition evaluate_fare_offline (policy : FarePolicy.t) (input : FareEvaluationInput.t)
    (context : OfflineEvaluationContext.t)
  : Result OfflineEvaluationError.t OfflineFareEvaluation.t :=
  let limit := OfflineEvaluationContext.provisional_charge_limit context in
  _ ← validate_provisional_limit policy limit;
  policy_age ←
    snapshot_age OfflineSnapshotKind.FarePolicy
      (OfflineEvaluationContext.policy_cached_at context) (FareEvaluationInput.event_time input);
  revocation_data_age ←
    snapshot_age OfflineSnapshotKind.RevocationData
      (OfflineEvaluationContext.revocation_data_cached_at context)
      (FareEvaluationInput.event_time input);
  evaluation ← map_err OfflineEvaluationError.FareEvaluation (evaluate_fare policy input);
  evaluation ←
    (if OfflineEvaluationContext.maximum_policy_age_milliseconds context <? policy_age then
       Ok (FareEvaluation.with_outcome evaluation
             (FareEvaluationOutcome.Rejected FareRejectionReason.StalePolicy))
     else if OfflineEvaluationContext.maximum_revocation_age_milliseconds context
             <? revocation_data_age then
       Ok (FareEvaluation.with_outcome evaluation
             (FareEvaluationOutcome.Rejected FareRejectionReason.StaleRevocationData))
     else apply_offline_limit evaluation limit);
  Ok (OfflineFareEvaluation.mk evaluation policy_age revocation_data_age limit).

(** ** Specification *)

Section Offline.

Context (policy : FarePolicy.t) (input : FareEvaluationInput.t)
        (context : OfflineEvaluationContext.t).

Definition event_ms : Z := EventTime.unix_milliseconds (FareEvaluationInput.event_time input).
Definition policy_ms : Z :=
  EventTime.unix_milliseconds (OfflineEvaluationContext.policy_cached_at context).
Definition revocation_ms : Z :=
  EventTime.unix_milliseconds (OfflineEvaluationContext.revocation_data_cached_at context).

(** The cached data are at most as old as the reader tolerates. *)
Definition fresh : Prop :=
  event_ms - policy_ms <= OfflineEvaluationContext.maximum_policy_age_milliseconds context
  /\ event_ms - revocation_ms
       <= OfflineEvaluationContext.maximum_revocation_age_milliseconds context.

(** What a reader may turn an online decision into. *)
Definition offline_outcome (online : FareEvaluationOutcome.t) : FareEvaluationOutcome.t :=
  if decide (OfflineEvaluationContext.maximum_policy_age_milliseconds context
             < event_ms - policy_ms) then
    FareEvaluationOutcome.Rejected FareRejectionReason.StalePolicy
  else if decide (OfflineEvaluationContext.maximum_revocation_age_milliseconds context
                  < event_ms - revocation_ms) then
    FareEvaluationOutcome.Rejected FareRejectionReason.StaleRevocationData
  else match online with
  | FareEvaluationOutcome.Rejected reason => FareEvaluationOutcome.Rejected reason
  | FareEvaluationOutcome.Approved charged _ =>
      if decide (Money.minor_units (OfflineEvaluationContext.provisional_charge_limit context)
                 < Money.minor_units charged) then
        FareEvaluationOutcome.Rejected FareRejectionReason.OfflineLimitExceeded
      else FareEvaluationOutcome.Approved charged FareApprovalReason.OfflineProvisional
  end.

(** What a context must satisfy before any fare is computed. *)
Record offline_context_ok : Prop := {
  ok_limit_currency :
    Money.currency (OfflineEvaluationContext.provisional_charge_limit context)
    = FarePolicy.currency policy;
  ok_limit_nonneg :
    0 <= Money.minor_units (OfflineEvaluationContext.provisional_charge_limit context);
  ok_policy_snapshot : policy_ms <= event_ms;
  ok_revocation_snapshot : revocation_ms <= event_ms
}.

Lemma validate_provisional_limit_Ok limit :
  validate_provisional_limit policy limit = Ok tt
  <-> Money.currency limit = FarePolicy.currency policy /\ 0 <= Money.minor_units limit.
Proof.
  unfold validate_provisional_limit. case_decide as Hc; [naive_solver|].
  destruct (Money.is_negative limit) eqn:E.
  - split; [done|]. intros [_ H]. apply Money.is_negative_false in H. congruence.
  - apply Money.is_negative_false in E. naive_solver.
Qed.

Lemma snapshot_age_Ok kind cached event :
  EventTime.wf cached -> EventTime.wf event ->
  snapshot_age kind cached event =
    (if decide (EventTime.unix_milliseconds cached <= EventTime.unix_milliseconds event) then
       Ok (EventTime.unix_milliseconds event - EventTime.unix_milliseconds cached)
     else Err (OfflineEvaluationError.SnapshotOccursAfterEvent kind
                 (EventTime.unix_milliseconds cached) (EventTime.unix_milliseconds event))).
Proof.
  unfold EventTime.wf, snapshot_age, i64_sub, unsigned_abs. intros Hc He.
  match goal with |- context [?a <? ?b] => destruct (Z.ltb_spec a b) end;
    case_decide; try lia; [done|].
  rewrite i64_wrap_in by int_lia. rewrite Z.abs_eq by lia. done.
Qed.

Lemma apply_offline_limit_spec ev :
  (forall charged reason, FareEvaluation.outcome ev = FareEvaluationOutcome.Approved charged reason ->
     Money.currency charged
     = Money.currency (OfflineEvaluationContext.provisional_charge_limit context)) ->
  fresh ->
  apply_offline_limit ev (OfflineEvaluationContext.provisional_charge_limit context)
    = Ok (FareEvaluation.with_outcome ev (offline_outcome (FareEvaluation.outcome ev))).
Proof.
  intros Hcur [Hp Hr]. unfold apply_offline_limit, offline_outcome.
  rewrite !decide_False by lia.
  destruct (FareEvaluation.outcome ev) as [charged reason|reason]; [|done].
  specialize (Hcur _ _ eq_refl).
  rewrite (proj2 (Money.checked_cmp_Ok _ _ (Money.minor_units charged ?=
    Money.minor_units (OfflineEvaluationContext.provisional_charge_limit context)))) by done.
  cbn [map_err mbind Result_bind].
  match goal with |- context [?a ?= ?b] => destruct (Z.compare_spec a b) end;
    case_decide; done || lia.
Qed.

End Offline.

(** The currency of an online approval is the policy's. *)
Lemma online_approval_currency policy input ev charged reason :
  policy_ok policy -> input_ok policy input -> evaluate_fare policy input = Ok ev ->
  FareEvaluation.outcome ev = FareEvaluationOutcome.Approved charged reason ->
  Money.currency charged = FarePolicy.currency policy.
Proof.
  intros Hp Hi Hev. apply evaluate_fare_Ok in Hev as (eligible & -> & _ & _); [|done|done].
  unfold quote_evaluation, decide_quote. cbn -[quote product_outcome Money.zero].
  case_match; [|by intros [= <- _]|done].
  by case_decide; [|intros [= <- _]].
Qed.

Lemma evaluate_fare_offline_closed policy input context :
  policy_ok policy -> input_ok policy input ->
  EventTime.wf (OfflineEvaluationContext.policy_cached_at context) ->
  EventTime.wf (OfflineEvaluationContext.revocation_data_cached_at context) ->
  offline_context_ok policy input context ->
  evaluate_fare_offline policy input context =
    (ev ← map_err OfflineEvaluationError.FareEvaluation (evaluate_fare policy input);
     Ok (OfflineFareEvaluation.mk
           (FareEvaluation.with_outcome ev
              (offline_outcome input context (FareEvaluation.outcome ev)))
           (event_ms input - policy_ms context) (event_ms input - revocation_ms context)
           (OfflineEvaluationContext.provisional_charge_limit context))).
Proof.
  intros Hp Hi Hwp Hwr [Hc Hn Hps Hrs]. unfold evaluate_fare_offline.
  rewrite (proj2 (validate_provisional_limit_Ok _ _)) by done. cbn [mbind Result_bind].
  rewrite !snapshot_age_Ok by first [done | apply Hi].
  unfold event_ms, policy_ms, revocation_ms in *. rewrite !decide_True by done.
  cbn [mbind Result_bind].
  destruct (evaluate_fare policy input) as [ev|e] eqn:Hev; [|done].
  cbn [map_err mbind Result_bind].
  assert (Hcur : forall charged reason,
    FareEvaluation.outcome ev = FareEvaluationOutcome.Approved charged reason ->
    Money.currency charged
    = Money.currency (OfflineEvaluationContext.provisional_charge_limit context)).
  { intros charged reason Ho. rewrite Hc. by eapply online_approval_currency. }
  destruct (decide (fresh input context)) as [Hf|Hf].
  - pose proof Hf as [H1 H2]. unfold event_ms, policy_ms, revocation_ms in H1, H2.
    rewrite !(proj2 (Z.ltb_ge _ _)) by done.
    by rewrite (apply_offline_limit_spec input context ev Hcur Hf).
  - unfold fresh in Hf. unfold offline_outcome, event_ms, policy_ms, revocation_ms in *.
    match goal with |- context [?a <? ?b] => destruct (Z.ltb_spec a b) as [H|H] end;
      [by rewrite decide_True by done|]. rewrite decide_False by lia.
    match goal with |- context [?a <? ?b] => destruct (Z.ltb_spec a b) as [H'|H'] end;
      [by rewrite decide_True by done|lia].
Qed.

(** ** Properties *)

(** C13. Offline evaluation is the online one filtered by the reader's limits.
    With a limit in the policy currency that is not negative and snapshots
    not later than the ride, [evaluate_fare_offline] returns the online
    evaluation (evidence untouched) with its outcome passed through
    [offline_outcome]: stale policy first, then stale revocation data (an age
    equal to its maximum is fresh), then the provisional limit (inclusive);
    it fails exactly when the online evaluation fails, with that error. *)
Theorem evaluate_fare_offline_spec policy input context :
  policy_ok policy -> input_ok policy input ->
  EventTime.wf (OfflineEvaluationContext.policy_cached_at context) ->
  EventTime.wf (OfflineEvaluationContext.revocation_data_cached_at context) ->
  (offline_context_ok policy input context ->
   evaluate_fare_offline policy input context =
     (ev ← map_err OfflineEvaluationError.FareEvaluation (evaluate_fare policy input);
      Ok (OfflineFareEvaluation.mk
            (FareEvaluation.with_outcome ev
               (offline_outcome input context (FareEvaluation.outcome ev)))
            (event_ms input - policy_ms context) (event_ms input - revocation_ms context)
            (OfflineEvaluationContext.provisional_charge_limit context))))
  /\ (~ offline_context_ok policy input context ->
      is_ok (evaluate_fare_offline policy input context) = false).
Proof.
  intros Hp Hi Hwp Hwr. split; [by apply evaluate_fare_offline_closed|].
  intros Hno. destruct (evaluate_fare_offline policy input context) eqn:E; [|done].
  exfalso. apply Hno. unfold evaluate_fare_offline in E.
  apply Result_bind_Ok in E as ([] & Hl & E). apply validate_provisional_limit_Ok in Hl as [Hc Hn].
  rewrite !snapshot_age_Ok in E by first [done | apply Hi].
  apply Result_bind_Ok in E as (page & H1 & E). apply Result_bind_Ok in E as (rage & H2 & _).
  case_decide; [|done]. case_decide; [|done]. by split.
Qed.

(** C14. Going offline never lets a rider through on worse terms: every
    approval an offline evaluation gives, whatever its reason, is provisional,
    on data within their maximum age and for an amount within the provisional
    limit, in the limit's currency; and the online engine approves the same
    ride for the same amount with the same evidence.  Conversely an online
    approval within the limit on fresh data is approved offline. *)
Theorem offline_approval_sound policy input context off :
  policy_ok policy -> input_ok policy input ->
  EventTime.wf (OfflineEvaluationContext.policy_cached_at context) ->
  EventTime.wf (OfflineEvaluationContext.revocation_data_cached_at context) ->
  offline_context_ok policy input context ->
  evaluate_fare_offline policy input context = Ok off ->
  exists ev, evaluate_fare policy input = Ok ev
    /\ FareEvaluation.evidence (OfflineFareEvaluation.evaluation off) = FareEvaluation.evidence ev
    /\ forall charged reason,
        FareEvaluation.outcome (OfflineFareEvaluation.evaluation off)
          = FareEvaluationOutcome.Approved charged reason
        <-> reason = FareApprovalReason.OfflineProvisional
            /\ fresh input context
            /\ Money.currency charged
               = Money.currency (OfflineEvaluationContext.provisional_charge_limit context)
            /\ Money.minor_units charged
                 <= Money.minor_units (OfflineEvaluationContext.provisional_charge_limit context)
            /\ exists online_reason,
                 FareEvaluation.outcome ev = FareEvaluationOutcome.Approved charged online_reason.
Proof.
  intros Hp Hi Hwp Hwr Hok. rewrite evaluate_fare_offline_closed by done.
  rewrite Result_bind_Ok. intros (ev & Hev & [= <-]). apply map_err_Ok in Hev.
  exists ev. split; [done|]. split; [done|]. intros charged reason.
  assert (forall amount r, FareEvaluation.outcome ev = FareEvaluationOutcome.Approved amount r ->
    Money.currency amount
    = Money.currency (OfflineEvaluationContext.provisional_charge_limit context)) as Hcur.
  { intros amount r Ho. rewrite (ok_limit_currency _ _ _ Hok). by eapply online_approval_currency. }
  unfold FareEvaluation.with_outcome. cbn [OfflineFareEvaluation.evaluation FareEvaluation.outcome].
  unfold offline_outcome, fresh.
  case_decide; [split; [done|lia]|]. case_decide; [split; [done|lia]|].
  destruct (FareEvaluation.outcome ev) as [amount r|r]; [|naive_solver].
  specialize (Hcur _ _ eq_refl). case_decide; [split; [done|]|].
  - intros (_ & _ & _ & Hle & r' & [= <- _]). lia.
  - split; [intros [= <- <-]|intros (-> & _ & _ & _ & r' & [= <- _]); done].
    split_and!; [done|lia|lia|done|lia|by exists r].
Qed.

(** ** Witnesses *)

Definition sample_context : OfflineEvaluationContext.t :=
  OfflineEvaluationContext.mk (EventTime.mk 900) 100 (EventTime.mk 950) 100 (sample_money 50).

Lemma sample_context_ok : offline_context_ok sample_policy sample_input sample_context.
Proof. split; vm_compute; discriminate || reflexivity. Qed.

Definition sample_offline : OfflineFareEvaluation.t :=
  OfflineFareEvaluation.mk
    (FareEvaluation.with_outcome sample_evaluation
       (FareEvaluationOutcome.Approved (sample_money 50) FareApprovalReason.OfflineProvisional))
    100 50 (sample_money 50).

Lemma evaluate_fare_offline_spec_witness :
  evaluate_fare_offline sample_policy sample_input sample_context = Ok sample_offline.
Proof.
  destruct (evaluate_fare_offline_spec sample_policy sample_input sample_context) as [-> _].
  - apply sample_policy_ok.
  - apply sample_input_ok.
  - split; vm_compute; discriminate.
  - split; vm_compute; discriminate.
  - vm_compute. reflexivity.
  - apply sample_context_ok.
Defined.

Lemma offline_approval_sound_witness :
  exists ev, evaluate_fare sample_policy sample_input = Ok ev
    /\ exists reason,
         FareEvaluation.outcome ev = FareEvaluationOutcome.Approved (sample_money 50) reason.
Proof.
  destruct (offline_approval_sound sample_policy sample_input sample_context sample_offline)
    as (ev & Hev & _ & H).
  - apply sample_policy_ok.
  - apply sample_input_ok.
  - split; vm_compute; discriminate.
  - split; vm_compute; discriminate.
  - apply sample_context_ok.
  - vm_compute. reflexivity.
  - exists ev. split; [exact Hev|].
    apply (H (sample_money 50) FareApprovalReason.OfflineProvisional). reflexivity.
Defined.
