(* ===== verification/DeviceProtocolValues.v ===== *)
(** * Values of the device protocol
    (crates/device-protocol/src: version.rs, presentation.rs, and the texts
    and error type of synchronization.rs)

    [serde_json] is outside the repository: [JsonLibrary] of SerdeJson.v has
    the functions that the envelope uses. *)

From S2P Require Import Prelude Text DomainIdentifier DomainTransaction.
From S2P Require Export SerdeJson.
From S2P Require Import JsonReference.

Module DeviceProtocolVersionError.

Inductive t := ZeroVersion.

End DeviceProtocolVersionError.

Module DeviceProtocolVersion.

(** [struct DeviceProtocolVersion(u16)]. *)
Record t := mk { value : Z }.

#[global] Instance eq_dec : EqDecision t.
Proof. solve_decision. Defined.

Definition CURRENT : t := mk 1.

Definition new (v : Z) : Result DeviceProtocolVersionError.t t :=
  if v =? 0 then Err DeviceProtocolVersionError.ZeroVersion else Ok (mk v).

Definition wf (self : t) : Prop := 1 <= value self <= u16_max.

End DeviceProtocolVersion.

Module PresentationValueError.

Inductive t := ZeroZoneId.

End PresentationValueError.

Module ProtocolZoneId.

(** [struct ProtocolZoneId(u16)]. *)
Record t := mk { value : Z }.

#[global] Instance eq_dec : EqDecision t.
Proof. solve_decision. Defined.

Definition new (v : Z) : Result PresentationValueError.t t :=
  if v =? 0 then Err PresentationValueError.ZeroZoneId else Ok (mk v).

End ProtocolZoneId.

Module CredentialMedium.

Inductive t := Card | Mobile.

#[global] Instance eq_dec : EqDecision t.
Proof. solve_decision. Defined.

End CredentialMedium.

Module CredentialPresentationDefinition.

Record t := mk {
  protocol_version : DeviceProtocolVersion.t;
  transaction_id : FareTransactionId;
  reader_id : ReaderId;
  local_sequence_number : LocalSequenceNumber.t;
  credential_id : FareCredentialId;
  credential_medium : CredentialMedium.t;
  event_time : EventTime.t;
  origin_zone : ProtocolZoneId.t;
  destination_zone : ProtocolZoneId.t;
  processing_mode : FareProcessingMode.t
}.

End CredentialPresentationDefinition.

Module CredentialPresentation.

Record t := mk {
  protocol_version : DeviceProtocolVersion.t;
  transaction_id : FareTransactionId;
  reader_id : ReaderId;
  local_sequence_number : LocalSequenceNumber.t;
  credential_id : FareCredentialId;
  credential_medium : CredentialMedium.t;
  event_time : EventTime.t;
  origin_zone : ProtocolZoneId.t;
  destination_zone : ProtocolZoneId.t;
  processing_mode : FareProcessingMode.t
}.

#[global] Instance eq_dec : EqDecision t.
Proof. solve_decision. Defined.

Definition from_definition (definition : CredentialPresentationDefinition.t) : t :=
  mk (CredentialPresentationDefinition.protocol_version definition)
     (CredentialPresentationDefinition.transaction_id definition)
     (CredentialPresentationDefinition.reader_id definition)
     (CredentialPresentationDefinition.local_sequence_number definition)
     (CredentialPresentationDefinition.credential_id definition)
     (CredentialPresentationDefinition.credential_medium definition)
     (CredentialPresentationDefinition.event_time definition)
     (CredentialPresentationDefinition.origin_zone definition)
     (CredentialPresentationDefinition.destination_zone definition)
     (CredentialPresentationDefinition.processing_mode definition).

End CredentialPresentation.

(** ** Limits of the synchronization protocol *)

Definition MAX_SYNCHRONIZATION_BATCH_ENTRIES : Z := 256.
Definition MAX_TRANSACTION_ENVELOPE_BYTES : Z := 64 * 1024.
Definition MAX_ENVIRONMENT_ID_BYTES : Z := 128.
Definition MAX_SOFTWARE_VERSION_BYTES : Z := 128.

Module SynchronizationEntryOutcome.

Inductive t := Acknowledged | RetryableFailure | PermanentFailure | ManualReview.

#[global] Instance eq_dec : EqDecision t.
Proof. solve_decision. Defined.

End SynchronizationEntryOutcome.

Module SynchronizationFailureCategory.

Inductive t :=
| NetworkTimeout | ConnectionFailure | ResponseDecodeFailure | PayloadTooLarge
| UnsupportedProtocol | ReaderNotRegistered | ReaderNotOperational | EnvironmentMismatch
| BatchIdentityConflict | BatchRangeMismatch | EntryOrderMismatch
| TransactionIdentityConflict | BackendTemporarilyUnavailable | BackendValidationFailure
| ManualReviewRequired.

#[global] Instance eq_dec : EqDecision t.
Proof. solve_decision. Defined.

Definition as_str (self : t) : Str :=
  match self with
  | NetworkTimeout => lit "network_timeout"
  | ConnectionFailure => lit "connection_failure"
  | ResponseDecodeFailure => lit "response_decode_failure"
  | PayloadTooLarge => lit "payload_too_large"
  | UnsupportedProtocol => lit "unsupported_protocol"
  | ReaderNotRegistered => lit "reader_not_registered"
  | ReaderNotOperational => lit "reader_not_operational"
  | EnvironmentMismatch => lit "environment_mismatch"
  | BatchIdentityConflict => lit "batch_identity_conflict"
  | BatchRangeMismatch => lit "batch_range_mismatch"
  | EntryOrderMismatch => lit "entry_order_mismatch"
  | TransactionIdentityConflict => lit "transaction_identity_conflict"
  | BackendTemporarilyUnavailable => lit "backend_temporarily_unavailable"
  | BackendValidationFailure => lit "backend_validation_failure"
  | ManualReviewRequired => lit "manual_review_required"
  end.

(** The stable names are distinct. *)
Lemma as_str_inj a b : as_str a = as_str b -> a = b.
Proof. by destruct a, b. Qed.

Lemma as_str_wf c : str_wf (as_str c).
Proof. destruct c; apply lit_wf. Qed.

End SynchronizationFailureCategory.

Module SynchronizationProtocolError.

Inductive t :=
| EmptyText (field : Str)
| TextTooLong (field : Str) (max_bytes actual_bytes : Z)
| ControlCharacter (field : Str)
| InvalidTransactionEnvelopeJson
| TransactionEnvelopeNotObject
| TransactionEnvelopeTooLarge (max_bytes actual_bytes : Z)
| NegativeTimestamp (field : Str) (unix_milliseconds : Z)
| EmptyBatch
| TooManyEntries (max_entries actual_entries : Z)
| InvalidSequenceRange (first_sequence last_sequence : Z)
| FirstSequenceMismatch (declared_sequence actual_sequence : Z)
| LastSequenceMismatch (declared_sequence actual_sequence : Z)
| EntrySequenceNotIncreasing (previous_sequence current_sequence : Z)
| DuplicateTransaction (transaction_id : FareTransactionId)
| InvalidOutcomeMetadata (outcome : SynchronizationEntryOutcome.t)
| AcknowledgementIdentityMismatch (field : Str)
| AcknowledgementEntryCountMismatch (expected_entries actual_entries : Z)
| AcknowledgementTransactionMismatch (position : Z)
| AcknowledgementSequenceMismatch (position expected_sequence actual_sequence : Z).

#[global] Instance eq_dec : EqDecision t.
Proof. solve_decision. Defined.

End SynchronizationProtocolError.

(** ** Texts *)

Definition validate_text (field : Str) (value : Str) (max_bytes : Z)
  : Result SynchronizationProtocolError.t Str :=
  let normalized := trim value in
  match normalized with
  | [] => Err (SynchronizationProtocolError.EmptyText field)
  | _ :: _ =>
      if max_bytes <? str_len normalized then
        Err (SynchronizationProtocolError.TextTooLong field max_bytes (str_len normalized))
      else if existsb is_control normalized then
        Err (SynchronizationProtocolError.ControlCharacter field)
      else Ok normalized
  end.

Definition validate_timestamp (field : Str) (unix_milliseconds : Z)
  : Result SynchronizationProtocolError.t unit :=
  if unix_milliseconds <? 0 then
    Err (SynchronizationProtocolError.NegativeTimestamp field unix_milliseconds)
  else Ok tt.

Module ProtocolEnvironmentId.

Record t := mk { as_str : Str }.

#[global] Instance eq_dec : EqDecision t.
Proof. solve_decision. Defined.

Definition new (value : Str) : Result SynchronizationProtocolError.t t :=
  map_ok mk (validate_text (lit "environment_id") value MAX_ENVIRONMENT_ID_BYTES).

End ProtocolEnvironmentId.

Module ReaderSoftwareVersion.

Record t := mk { as_str : Str }.

#[global] Instance eq_dec : EqDecision t.
Proof. solve_decision. Defined.

Definition new (value : Str) : Result SynchronizationProtocolError.t t :=
  map_ok mk (validate_text (lit "reader_software_version") value MAX_SOFTWARE_VERSION_BYTES).

End ReaderSoftwareVersion.

(** ** Envelopes *)

Module CanonicalTransactionEnvelope.

Record t := mk { as_str : Str }.

#[global] Instance eq_dec : EqDecision t.
Proof. solve_decision. Defined.

Definition byte_len (self : t) : Z := str_len (as_str self).

Section envelope.
Context `{JsonLibrary}.

Definition from_json (value : Str) : Result SynchronizationProtocolError.t t :=
  if MAX_TRANSACTION_ENVELOPE_BYTES <? str_len value then
    Err (SynchronizationProtocolError.TransactionEnvelopeTooLarge
           MAX_TRANSACTION_ENVELOPE_BYTES (str_len value))
  else
    parsed ← map_err (fun _ => SynchronizationProtocolError.InvalidTransactionEnvelopeJson)
               (json_from_str value);
    if negb (json_is_object parsed) then
      Err SynchronizationProtocolError.TransactionEnvelopeNotObject
    else
      canonical ← map_err (fun _ => SynchronizationProtocolError.InvalidTransactionEnvelopeJson)
                    (json_to_string parsed);
      if MAX_TRANSACTION_ENVELOPE_BYTES <? str_len canonical then
        Err (SynchronizationProtocolError.TransactionEnvelopeTooLarge
               MAX_TRANSACTION_ENVELOPE_BYTES (str_len canonical))
      else Ok (mk canonical).

End envelope.

End CanonicalTransactionEnvelope.

(** ** Lemmas *)

(** What a bounded text is after validation. *)
Definition text_ok (max_bytes : Z) (s : Str) : Prop :=
  s <> [] /\ trim s = s /\ str_len s <= max_bytes /\ Forall (fun c => is_control c = false) s.

Definition environment_wf (id : ProtocolEnvironmentId.t) : Prop :=
  text_ok MAX_ENVIRONMENT_ID_BYTES (ProtocolEnvironmentId.as_str id).

Definition software_wf (version : ReaderSoftwareVersion.t) : Prop :=
  text_ok MAX_SOFTWARE_VERSION_BYTES (ReaderSoftwareVersion.as_str version).

Lemma existsb_false_Forall {A} (f : A -> bool) l :
  existsb f l = false <-> Forall (fun x => f x = false) l.
Proof.
  induction l as [|x l IH]; cbn; [by split|].
  rewrite orb_false_iff, Forall_cons. naive_solver.
Qed.

Lemma validate_text_Ok field value max_bytes s :
  validate_text field value max_bytes = Ok s <-> s = trim value /\ text_ok max_bytes s.
Proof.
  unfold validate_text, text_ok. pose proof (trim_idemp value) as Htrim.
  destruct (trim value) as [|c t] eqn:E; [naive_solver|].
  destruct (Z.ltb_spec max_bytes (str_len (c :: t))); [split; [done|]|].
  { intros (-> & _ & _ & Hl & _). lia. }
  destruct (existsb is_control (c :: t)) eqn:Hex.
  - split; [done|]. intros (-> & _ & _ & _ & Hc).
    apply existsb_false_Forall in Hc. congruence.
  - apply existsb_false_Forall in Hex. naive_solver.
Qed.

(** Validated texts pass validation unchanged: what one side has normalised
    the other reads back as it is. *)
Lemma validate_text_stable field value max_bytes s :
  validate_text field value max_bytes = Ok s -> validate_text field s max_bytes = Ok s.
Proof. rewrite !validate_text_Ok. intros [-> H]. by rewrite trim_idemp. Qed.

Lemma validate_timestamp_Ok field ms : validate_timestamp field ms = Ok tt <-> 0 <= ms.
Proof. unfold validate_timestamp. destruct (Z.ltb_spec ms 0); [split; [done|lia]|done]. Qed.

Lemma from_json_Ok `{JsonLibrary} value env :
  CanonicalTransactionEnvelope.from_json value = Ok env <->
  str_len value <= MAX_TRANSACTION_ENVELOPE_BYTES
  /\ CanonicalTransactionEnvelope.byte_len env <= MAX_TRANSACTION_ENVELOPE_BYTES
  /\ exists v, json_from_str value = Ok v /\ json_is_object v = true
       /\ json_to_string v = Ok (CanonicalTransactionEnvelope.as_str env).
Proof.
  unfold CanonicalTransactionEnvelope.from_json, CanonicalTransactionEnvelope.byte_len.
  destruct (Z.ltb_spec MAX_TRANSACTION_ENVELOPE_BYTES (str_len value)); [split; [done|lia]|].
  destruct (json_from_str value) as [v|e]; cbn; [|split; [done|by intros (_ & _ & ? & ? & _)]].
  destruct (json_is_object v) eqn:Ho; cbn;
    [|split; [done|intros (_ & _ & v' & [= <-] & Ho' & _); congruence]].
  destruct (json_to_string v) as [s|e] eqn:Hs; cbn;
    [|split; [done|intros (_ & _ & v' & [= <-] & _ & Hs'); congruence]].
  destruct (Z.ltb_spec MAX_TRANSACTION_ENVELOPE_BYTES (str_len s)).
  - split; [done|]. intros (_ & Hl & v' & [= <-] & _ & Hs').
    rewrite Hs in Hs'. injection Hs' as ->. lia.
  - split.
    + intros [= <-]. cbn. split_and!; [done..|]. by exists v.
    + intros (_ & _ & v' & [= <-] & _ & Hs').
      rewrite Hs in Hs'. injection Hs' as ->. by destruct env.
Qed.

(** ** Properties *)

(** Texts are normalised once.  [validate_text] accepts a value exactly
    when its trimmed form is not empty, within the byte limit and free of
    control characters, returns that form, and accepts its own results
    unchanged; so re-reading an environment or a software version that the
    other side validated gives the same value. *)
Theorem validate_text_spec field value max_bytes s :
  (validate_text field value max_bytes = Ok s <-> s = trim value /\ text_ok max_bytes s)
  /\ (forall e : ProtocolEnvironmentId.t, ProtocolEnvironmentId.new value = Ok e ->
        ProtocolEnvironmentId.new (ProtocolEnvironmentId.as_str e) = Ok e)
  /\ (forall v : ReaderSoftwareVersion.t, ReaderSoftwareVersion.new value = Ok v ->
        ReaderSoftwareVersion.new (ReaderSoftwareVersion.as_str v) = Ok v).
Proof.
  split; [apply validate_text_Ok|].
  unfold ProtocolEnvironmentId.new, ReaderSoftwareVersion.new. split; intros [x].
  all: destruct (validate_text _ value _) as [t|] eqn:E; cbn [map_ok]; intros [= <-];
    cbn [ProtocolEnvironmentId.as_str ReaderSoftwareVersion.as_str].
  all: by rewrite (validate_text_stable _ _ _ _ E).
Qed.

(** Envelopes are canonical.  [from_json] accepts exactly the texts of a
    JSON object that are within the limit before and after printing; texts of
    one JSON value give one envelope, whatever their layout; and if the
    library reads back what it printed, the receiving side (which decodes the
    envelope through [from_json] again) gets the sender's envelope. *)
Theorem envelope_canonical `{JsonLibrary} value env :
  CanonicalTransactionEnvelope.from_json value = Ok env ->
  CanonicalTransactionEnvelope.byte_len env <= MAX_TRANSACTION_ENVELOPE_BYTES
  /\ (exists v, json_from_str value = Ok v /\ json_is_object v = true
        /\ json_to_string v = Ok (CanonicalTransactionEnvelope.as_str env)
        /\ (json_from_str (CanonicalTransactionEnvelope.as_str env) = Ok v ->
            CanonicalTransactionEnvelope.from_json (CanonicalTransactionEnvelope.as_str env)
              = Ok env))
  /\ (forall value', json_from_str value' = json_from_str value ->
        str_len value' <= MAX_TRANSACTION_ENVELOPE_BYTES ->
        CanonicalTransactionEnvelope.from_json value' = Ok env).
Proof.
  rewrite from_json_Ok. intros (Hl & Hb & v & Hv & Ho & Hs). split; [done|]. split.
  - exists v. split_and!; [done..|]. intros Hback. apply from_json_Ok.
    split_and!; [done..|]. by exists v.
  - intros value' Heq Hl'. apply from_json_Ok. split_and!; [done..|].
    exists v. by rewrite Heq.
Qed.

(** ** Witnesses *)

Definition sample_envelope : CanonicalTransactionEnvelope.t :=
  CanonicalTransactionEnvelope.mk (lit "{}").

Lemma envelope_canonical_witness :
  CanonicalTransactionEnvelope.from_json (H := reference_json) (lit " {} ") = Ok sample_envelope
  /\ CanonicalTransactionEnvelope.from_json (H := reference_json) (lit "{}") = Ok sample_envelope.
Proof.
  assert (H : CanonicalTransactionEnvelope.from_json (H := reference_json) (lit " {} ")
              = Ok sample_envelope) by (vm_compute; reflexivity).
  split; [exact H|].
  destruct (envelope_canonical (H := reference_json) (lit " {} ") sample_envelope H)
    as (_ & _ & Hall).
  apply Hall; [vm_compute; reflexivity | vm_compute; discriminate].
Defined.
