(* ===== verification/DeviceProtocolSynchronization.v ===== *)
(** * Synchronization messages (crates/device-protocol/src/synchronization.rs)

    Requests, acknowledgements and their validation.  [Deserialize] of both
    messages goes through [new], as every construction does. *)

From stdpp Require Import sorting.
From S2P Require Import Prelude Text DomainIdentifier DomainAccount DomainTransaction.
From S2P Require Import DeviceProtocolValues.

Module SynchronizationRequestEntry.

Record t := new {
  transaction_id : FareTransactionId;
  local_sequence_number : LocalSequenceNumber.t;
  transaction_envelope : CanonicalTransactionEnvelope.t
}.

#[global] Instance eq_dec : EqDecision t.
Proof. solve_decision. Defined.

End SynchronizationRequestEntry.

(** ** Entry checks, shared by the two directions *)

Definition validate_entry_count (entry_count : Z) : Result SynchronizationProtocolError.t unit :=
  if entry_count =? 0 then Err SynchronizationProtocolError.EmptyBatch
  else if MAX_SYNCHRONIZATION_BATCH_ENTRIES <? entry_count then
    Err (SynchronizationProtocolError.TooManyEntries MAX_SYNCHRONIZATION_BATCH_ENTRIES entry_count)
  else Ok tt.

Definition validate_range (first last : LocalSequenceNumber.t)
  : Result SynchronizationProtocolError.t unit :=
  if LocalSequenceNumber.value last <? LocalSequenceNumber.value first then
    Err (SynchronizationProtocolError.InvalidSequenceRange (LocalSequenceNumber.value first)
           (LocalSequenceNumber.value last))
  else Ok tt.

Definition validate_boundary_sequences
    (declared_first declared_last actual_first actual_last : LocalSequenceNumber.t)
  : Result SynchronizationProtocolError.t unit :=
  if decide (declared_first <> actual_first) then
    Err (SynchronizationProtocolError.FirstSequenceMismatch
           (LocalSequenceNumber.value declared_first) (LocalSequenceNumber.value actual_first))
  else if decide (declared_last <> actual_last) then
    Err (SynchronizationProtocolError.LastSequenceMismatch
           (LocalSequenceNumber.value declared_last) (LocalSequenceNumber.value actual_last))
  else Ok tt.

(** The loop over the [BTreeSet] of transaction identities. *)
Fixpoint insert_transactions (transaction_ids : gset FareTransactionId)
    (ids : list FareTransactionId) : Result SynchronizationProtocolError.t unit :=
  match ids with
  | [] => Ok tt
  | id :: ids' =>
      if decide (id ∈ transaction_ids) then
        Err (SynchronizationProtocolError.DuplicateTransaction id)
      else insert_transactions ({[ id ]} ∪ transaction_ids) ids'
  end.

Fixpoint increasing_from (previous : option LocalSequenceNumber.t)
    (sequences : list LocalSequenceNumber.t) : Result SynchronizationProtocolError.t unit :=
  match sequences with
  | [] => Ok tt
  | current :: sequences' =>
      match previous with
      | Some previous_value =>
          if LocalSequenceNumber.value current <=? LocalSequenceNumber.value previous_value then
            Err (SynchronizationProtocolError.EntrySequenceNotIncreasing
                   (LocalSequenceNumber.value previous_value) (LocalSequenceNumber.value current))
          else increasing_from (Some current) sequences'
      | None => increasing_from (Some current) sequences'
      end
  end.

Definition validate_increasing_sequences (sequences : list LocalSequenceNumber.t)
  : Result SynchronizationProtocolError.t unit := increasing_from None sequences.

(** The body that [validate_request_entries] and
    [validate_acknowledgement_entries] repeat, over the two entry types. *)
Definition validate_entries {A} (transaction_id : A -> FareTransactionId)
    (local_sequence_number : A -> LocalSequenceNumber.t)
    (declared_first declared_last : LocalSequenceNumber.t) (entries : list A)
  : Result SynchronizationProtocolError.t unit :=
  _ ← validate_entry_count (Z.of_nat (length entries));
  _ ← validate_range declared_first declared_last;
  first_entry ← ok_or (head entries) SynchronizationProtocolError.EmptyBatch;
  last_entry ← ok_or (last entries) SynchronizationProtocolError.EmptyBatch;
  _ ← validate_boundary_sequences declared_first declared_last
        (local_sequence_number first_entry) (local_sequence_number last_entry);
  _ ← insert_transactions ∅ (transaction_id <$> entries);
  validate_increasing_sequences (local_sequence_number <$> entries).

Definition validate_request_entries
  : LocalSequenceNumber.t -> LocalSequenceNumber.t -> list SynchronizationRequestEntry.t ->
    Result SynchronizationProtocolError.t unit :=
  validate_entries SynchronizationRequestEntry.transaction_id
    SynchronizationRequestEntry.local_sequence_number.

Module SynchronizationBatchRequestDefinition.

Record t := mk {
  protocol_version : DeviceProtocolVersion.t;
  environment_id : ProtocolEnvironmentId.t;
  reader_id : ReaderId;
  reader_software_version : ReaderSoftwareVersion.t;
  batch_id : SynchronizationBatchId;
  first_local_sequence_number : LocalSequenceNumber.t;
  last_local_sequence_number : LocalSequenceNumber.t;
  submitted_at_unix_milliseconds : Z;
  entries : list SynchronizationRequestEntry.t
}.

End SynchronizationBatchRequestDefinition.

Module SynchronizationBatchRequest.

Record t := mk {
  protocol_version : DeviceProtocolVersion.t;
  environment_id : ProtocolEnvironmentId.t;
  reader_id : ReaderId;
  reader_software_version : ReaderSoftwareVersion.t;
  batch_id : SynchronizationBatchId;
  first_local_sequence_number : LocalSequenceNumber.t;
  last_local_sequence_number : LocalSequenceNumber.t;
  submitted_at_unix_milliseconds : Z;
  entries : list SynchronizationRequestEntry.t
}.

#[global] Instance eq_dec : EqDecision t.
Proof. solve_decision. Defined.

(** The struct literal at the end of [new]. *)
Definition of_definition (d : SynchronizationBatchRequestDefinition.t) : t :=
  mk (SynchronizationBatchRequestDefinition.protocol_version d)
     (SynchronizationBatchRequestDefinition.environment_id d)
     (SynchronizationBatchRequestDefinition.reader_id d)
     (SynchronizationBatchRequestDefinition.reader_software_version d)
     (SynchronizationBatchRequestDefinition.batch_id d)
     (SynchronizationBatchRequestDefinition.first_local_sequence_number d)
     (SynchronizationBatchRequestDefinition.last_local_sequence_number d)
     (SynchronizationBatchRequestDefinition.submitted_at_unix_milliseconds d)
     (SynchronizationBatchRequestDefinition.entries d).

Definition new (definition : SynchronizationBatchRequestDefinition.t)
  : Result SynchronizationProtocolError.t t :=
  _ ← validate_timestamp (lit "submitted_at_unix_milliseconds")
        (SynchronizationBatchRequestDefinition.submitted_at_unix_milliseconds definition);
  _ ← validate_request_entries
        (SynchronizationBatchRequestDefinition.first_local_sequence_number definition)
        (SynchronizationBatchRequestDefinition.last_local_sequence_number definition)
        (SynchronizationBatchRequestDefinition.entries definition);
  Ok (of_definition definition).

End SynchronizationBatchRequest.

(** ** Acknowledgements *)

Definition validate_outcome_metadata (outcome : SynchronizationEntryOutcome.t)
    (failure_category : option SynchronizationFailureCategory.t)
    (next_retry_at_unix_milliseconds : option Z) : Result SynchronizationProtocolError.t unit :=
  _ ← match next_retry_at_unix_milliseconds with
      | Some retry_at => validate_timestamp (lit "next_retry_at_unix_milliseconds") retry_at
      | None => Ok tt
      end;
  let valid :=
    match outcome with
    | SynchronizationEntryOutcome.Acknowledged =>
        bool_decide (failure_category = None)
        && bool_decide (next_retry_at_unix_milliseconds = None)
    | SynchronizationEntryOutcome.RetryableFailure =>
        bool_decide (is_Some failure_category)
        && bool_decide (is_Some next_retry_at_unix_milliseconds)
    | SynchronizationEntryOutcome.PermanentFailure | SynchronizationEntryOutcome.ManualReview =>
        bool_decide (is_Some failure_category)
        && bool_decide (next_retry_at_unix_milliseconds = None)
    end in
  if negb valid then Err (SynchronizationProtocolError.InvalidOutcomeMetadata outcome)
  else Ok tt.

Module SynchronizationAcknowledgementEntry.

Record t := mk {
  transaction_id : FareTransactionId;
  local_sequence_number : LocalSequenceNumber.t;
  outcome : SynchronizationEntryOutcome.t;
  failure_category : option SynchronizationFailureCategory.t;
  next_retry_at_unix_milliseconds : option Z
}.

#[global] Instance eq_dec : EqDecision t.
Proof. solve_decision. Defined.

Definition new (transaction_id : FareTransactionId)
    (local_sequence_number : LocalSequenceNumber.t) (outcome : SynchronizationEntryOutcome.t)
    (failure_category : option SynchronizationFailureCategory.t)
    (next_retry_at_unix_milliseconds : option Z) : Result SynchronizationProtocolError.t t :=
  _ ← validate_outcome_metadata outcome failure_category next_retry_at_unix_milliseconds;
  Ok (mk transaction_id local_sequence_number outcome failure_category
        next_retry_at_unix_milliseconds).

(** What [new], the only way to make an entry, guarantees. *)
Definition wf (e : t) : Prop :=
  validate_outcome_metadata (outcome e) (failure_category e) (next_retry_at_unix_milliseconds e)
  = Ok tt.

End SynchronizationAcknowledgementEntry.

Definition validate_acknowledgement_entries
  : LocalSequenceNumber.t -> LocalSequenceNumber.t ->
    list SynchronizationAcknowledgementEntry.t -> Result SynchronizationProtocolError.t unit :=
  validate_entries SynchronizationAcknowledgementEntry.transaction_id
    SynchronizationAcknowledgementEntry.local_sequence_number.

Module SynchronizationBatchAcknowledgementDefinition.

Record t := mk {
  protocol_version : DeviceProtocolVersion.t;
  environment_id : ProtocolEnvironmentId.t;
  reader_id : ReaderId;
  batch_id : SynchronizationBatchId;
  first_local_sequence_number : LocalSequenceNumber.t;
  last_local_sequence_number : LocalSequenceNumber.t;
  received_at_unix_milliseconds : Z;
  replayed : bool;
  entries : list SynchronizationAcknowledgementEntry.t
}.

End SynchronizationBatchAcknowledgementDefinition.

Module SynchronizationBatchAcknowledgement.

Record t := mk {
  protocol_version : DeviceProtocolVersion.t;
  environment_id : ProtocolEnvironmentId.t;
  reader_id : ReaderId;
  batch_id : SynchronizationBatchId;
  first_local_sequence_number : LocalSequenceNumber.t;
  last_local_sequence_number : LocalSequenceNumber.t;
  received_at_unix_milliseconds : Z;
  replayed : bool;
  entries : list SynchronizationAcknowledgementEntry.t
}.

#[global] Instance eq_dec : EqDecision t.
Proof. solve_decision. Defined.

(** The struct literal at the end of [new]. *)
Definition of_definition (d : SynchronizationBatchAcknowledgementDefinition.t) : t :=
  mk (SynchronizationBatchAcknowledgementDefinition.protocol_version d)
     (SynchronizationBatchAcknowledgementDefinition.environment_id d)
     (SynchronizationBatchAcknowledgementDefinition.reader_id d)
     (SynchronizationBatchAcknowledgementDefinition.batch_id d)
     (SynchronizationBatchAcknowledgementDefinition.first_local_sequence_number d)
     (SynchronizationBatchAcknowledgementDefinition.last_local_sequence_number d)
     (SynchronizationBatchAcknowledgementDefinition.received_at_unix_milliseconds d)
     (SynchronizationBatchAcknowledgementDefinition.replayed d)
     (SynchronizationBatchAcknowledgementDefinition.entries d).

Definition new (definition : SynchronizationBatchAcknowledgementDefinition.t)
  : Result SynchronizationProtocolError.t t :=
  _ ← validate_timestamp (lit "received_at_unix_milliseconds")
        (SynchronizationBatchAcknowledgementDefinition.received_at_unix_milliseconds definition);
  _ ← validate_acknowledgement_entries
        (SynchronizationBatchAcknowledgementDefinition.first_local_sequence_number definition)
        (SynchronizationBatchAcknowledgementDefinition.last_local_sequence_number definition)
        (SynchronizationBatchAcknowledgementDefinition.entries definition);
  Ok (of_definition definition).

Definition with_replayed (self : t) (replayed : bool) : t :=
  mk (protocol_version self) (environment_id self) (reader_id self) (batch_id self)
     (first_local_sequence_number self) (last_local_sequence_number self)
     (received_at_unix_milliseconds self) replayed (entries self).

(** The loop over the zipped entries, from [position]. *)
Fixpoint compare_entries (position : Z) (acknowledged : list SynchronizationAcknowledgementEntry.t)
    (submitted : list SynchronizationRequestEntry.t)
  : Result SynchronizationProtocolError.t unit :=
  match acknowledged, submitted with
  | a :: acknowledged', s :: submitted' =>
      if decide (SynchronizationAcknowledgementEntry.transaction_id a
                 <> SynchronizationRequestEntry.transaction_id s) then
        Err (SynchronizationProtocolError.AcknowledgementTransactionMismatch position)
      else if decide (SynchronizationAcknowledgementEntry.local_sequence_number a
                      <> SynchronizationRequestEntry.local_sequence_number s) then
        Err (SynchronizationProtocolError.AcknowledgementSequenceMismatch position
               (LocalSequenceNumber.value (SynchronizationRequestEntry.local_sequence_number s))
               (LocalSequenceNumber.value
                  (SynchronizationAcknowledgementEntry.local_sequence_number a)))
      else compare_entries (position + 1) acknowledged' submitted'
  | _, _ => Ok tt
  end.

(** One identity comparison of [validate_against_request]. *)
Definition ensure_identity {A} `{EqDecision A} (field : Str) (mine theirs : A)
  : Result SynchronizationProtocolError.t unit :=
  if decide (mine <> theirs) then
    Err (SynchronizationProtocolError.AcknowledgementIdentityMismatch field)
  else Ok tt.

Definition validate_against_request (self : t) (request : SynchronizationBatchRequest.t)
  : Result SynchronizationProtocolError.t unit :=
  _ ← ensure_identity (lit "protocol_version") (protocol_version self)
        (SynchronizationBatchRequest.protocol_version request);
  _ ← ensure_identity (lit "environment_id") (environment_id self)
        (SynchronizationBatchRequest.environment_id request);
  _ ← ensure_identity (lit "reader_id") (reader_id self)
        (SynchronizationBatchRequest.reader_id request);
  _ ← ensure_identity (lit "batch_id") (batch_id self)
        (SynchronizationBatchRequest.batch_id request);
  _ ← ensure_identity (lit "first_local_sequence_number") (first_local_sequence_number self)
        (SynchronizationBatchRequest.first_local_sequence_number request);
  _ ← ensure_identity (lit "last_local_sequence_number") (last_local_sequence_number self)
        (SynchronizationBatchRequest.last_local_sequence_number request);
  if decide (length (entries self) <> length (SynchronizationBatchRequest.entries request)) then
    Err (SynchronizationProtocolError.AcknowledgementEntryCountMismatch
           (Z.of_nat (length (SynchronizationBatchRequest.entries request)))
           (Z.of_nat (length (entries self))))
  else compare_entries 0 (entries self) (SynchronizationBatchRequest.entries request).

End SynchronizationBatchAcknowledgement.

(** ** Specification of a batch *)

Abbreviation values := (fmap (M := list) LocalSequenceNumber.value).

(** A batch: between one and 256 entries, no transaction twice, sequences
    strictly increasing from the declared first to the declared last. *)
Record batch_ok (declared_first declared_last : LocalSequenceNumber.t)
    (ids : list FareTransactionId) (sequences : list LocalSequenceNumber.t) : Prop := {
  batch_count : 1 <= Z.of_nat (length sequences) <= 256;
  batch_first : head sequences = Some declared_first;
  batch_last : last sequences = Some declared_last;
  batch_unique : NoDup ids;
  batch_increasing : StronglySorted Z.lt (values sequences)
}.

(** What each error says of the batch it refuses. *)
Definition batch_error (declared_first declared_last : LocalSequenceNumber.t)
    (ids : list FareTransactionId) (sequences : list LocalSequenceNumber.t)
    (e : SynchronizationProtocolError.t) : Prop :=
  match e with
  | SynchronizationProtocolError.EmptyBatch => sequences = []
  | SynchronizationProtocolError.TooManyEntries max n =>
      max = 256 /\ n = Z.of_nat (length sequences) /\ 256 < n
  | SynchronizationProtocolError.InvalidSequenceRange f l =>
      f = LocalSequenceNumber.value declared_first
      /\ l = LocalSequenceNumber.value declared_last /\ l < f
  | SynchronizationProtocolError.FirstSequenceMismatch d a =>
      d = LocalSequenceNumber.value declared_first /\ head (values sequences) = Some a /\ d <> a
  | SynchronizationProtocolError.LastSequenceMismatch d a =>
      d = LocalSequenceNumber.value declared_last /\ last (values sequences) = Some a /\ d <> a
  | SynchronizationProtocolError.DuplicateTransaction id =>
      exists pre post, ids = pre ++ id :: post /\ id ∈ pre /\ NoDup pre
  | SynchronizationProtocolError.EntrySequenceNotIncreasing p c =>
      exists pre post, values sequences = pre ++ p :: c :: post /\ c <= p
        /\ StronglySorted Z.lt (pre ++ [p])
  | _ => False
  end.

(** ** Lemmas on the loops *)

Lemma insert_transactions_Ok seen ids :
  insert_transactions seen ids = Ok tt <-> NoDup ids /\ Forall (fun id => id ∉ seen) ids.
Proof.
  revert seen. induction ids as [|id ids IH]; intros seen; cbn.
  { split; [|done]. by repeat constructor. }
  case_decide as Hid.
  - split; [done|]. intros [_ H]. by inversion H.
  - rewrite IH, NoDup_cons, !Forall_forall. set_solver.
Qed.

Lemma insert_transactions_Err seen ids e :
  insert_transactions seen ids = Err e ->
  exists pre id post, e = SynchronizationProtocolError.DuplicateTransaction id
    /\ ids = pre ++ id :: post /\ (id ∈ seen \/ id ∈ pre)
    /\ NoDup pre /\ Forall (fun i => i ∉ seen) pre.
Proof.
  revert seen. induction ids as [|id ids IH]; intros seen; cbn; [done|].
  case_decide as Hid.
  - intros [= <-]. exists [], id, ids. split_and!; [done..|by left|constructor|constructor].
  - intros H. apply IH in H as (pre & dup & post & -> & -> & Hin & Hnd & Hseen).
    exists (id :: pre), dup, post. rewrite NoDup_cons, Forall_cons.
    rewrite !Forall_forall in *. split_and!; [done..|set_solver|set_solver|done|done|set_solver].
Qed.

Lemma LocalSequenceNumber_eq a b :
  LocalSequenceNumber.value a = LocalSequenceNumber.value b -> a = b.
Proof. destruct a, b. cbn. congruence. Qed.

Lemma increasing_from_Some_Ok previous sequences :
  increasing_from (Some previous) sequences = Ok tt <->
  Sorted Z.lt (LocalSequenceNumber.value previous :: values sequences).
Proof.
  revert previous. induction sequences as [|current sequences IH]; intros previous; cbn.
  { split; [by repeat constructor|done]. }
  destruct (Z.leb_spec (LocalSequenceNumber.value current) (LocalSequenceNumber.value previous)).
  - split; [done|]. intros Hs. inversion Hs as [|? ? _ Hr]. inversion Hr. lia.
  - rewrite IH. split.
    + intros Hs. constructor; [done|]. by constructor.
    + intros Hs. by inversion Hs.
Qed.

Lemma validate_increasing_sequences_Ok sequences :
  validate_increasing_sequences sequences = Ok tt <-> StronglySorted Z.lt (values sequences).
Proof.
  unfold validate_increasing_sequences.
  transitivity (Sorted Z.lt (values sequences)).
  - destruct sequences as [|s sequences]; cbn; [split; [constructor|done]|].
    apply increasing_from_Some_Ok.
  - split; [apply Sorted_StronglySorted; intros ???; lia|apply StronglySorted_Sorted].
Qed.

Lemma increasing_from_Some_Err previous sequences e :
  increasing_from (Some previous) sequences = Err e ->
  exists pre p c post, e = SynchronizationProtocolError.EntrySequenceNotIncreasing p c
    /\ LocalSequenceNumber.value previous :: values sequences = pre ++ p :: c :: post /\ c <= p
    /\ Sorted Z.lt (pre ++ [p]).
Proof.
  revert previous. induction sequences as [|current sequences IH]; intros previous; cbn; [done|].
  destruct (Z.leb_spec (LocalSequenceNumber.value current) (LocalSequenceNumber.value previous)).
  - intros [= <-]. exists [], (LocalSequenceNumber.value previous),
      (LocalSequenceNumber.value current), (values sequences).
    split_and!; [done..|by repeat constructor].
  - intros Hs. apply IH in Hs as (pre & p & c & post & -> & Heq & Hle & Hs).
    exists (LocalSequenceNumber.value previous :: pre), p, c, post.
    split_and!; [done|by rewrite Heq|done|]. cbn. constructor; [done|].
    destruct pre as [|x pre]; cbn in *; simplify_eq; by constructor.
Qed.

Lemma validate_increasing_sequences_Err sequences e :
  validate_increasing_sequences sequences = Err e ->
  exists pre p c post, e = SynchronizationProtocolError.EntrySequenceNotIncreasing p c
    /\ values sequences = pre ++ p :: c :: post /\ c <= p
    /\ StronglySorted Z.lt (pre ++ [p]).
Proof.
  unfold validate_increasing_sequences. destruct sequences as [|s sequences]; cbn; [done|].
  intros H. apply increasing_from_Some_Err in H as (pre & p & c & post & -> & Heq & Hle & Hs).
  exists pre, p, c, post. split_and!; [done..|].
  apply Sorted_StronglySorted; [intros ???; lia|done].
Qed.

Lemma StronglySorted_head_last (l : list Z) a b :
  StronglySorted Z.lt l -> head l = Some a -> last l = Some b -> a <= b.
Proof.
  intros Hs Ha Hb. destruct l as [|x l]; [done|]. cbn in Ha. simplify_eq.
  apply last_Some in Hb as [l' Heq]. destruct l' as [|y l']; cbn in Heq; simplify_eq; [lia|].
  apply StronglySorted_inv in Hs as [_ Hs]. rewrite Forall_forall in Hs.
  specialize (Hs b ltac:(set_solver)). lia.
Qed.

Section entries.
Context {A : Type} (transaction_id : A -> FareTransactionId)
  (local_sequence_number : A -> LocalSequenceNumber.t).

Lemma validate_entries_Ok declared_first declared_last entries :
  validate_entries transaction_id local_sequence_number declared_first declared_last entries
    = Ok tt
  <-> batch_ok declared_first declared_last (transaction_id <$> entries)
        (local_sequence_number <$> entries).
Proof.
  unfold validate_entries, validate_entry_count, validate_range, validate_boundary_sequences,
    MAX_SYNCHRONIZATION_BATCH_ENTRIES. split.
  - destruct (Z.eqb_spec (Z.of_nat (length entries)) 0); [done|].
    destruct (Z.ltb_spec 256 (Z.of_nat (length entries))); [done|]. cbn [mbind Result_bind].
    match goal with |- context [?a <? ?b] => destruct (Z.ltb_spec a b); [done|] end.
    cbn [mbind Result_bind].
    rewrite Result_bind_Ok. intros (f & Hf & H'). apply ok_or_Ok in Hf.
    rewrite Result_bind_Ok in H'. destruct H' as (l & Hl & H'). apply ok_or_Ok in Hl.
    case_decide as Hc1; [done|]. case_decide as Hc2; [done|]. cbn [mbind Result_bind] in H'.
    rewrite Result_bind_Ok in H'. destruct H' as ([] & Hi & Hs).
    apply insert_transactions_Ok in Hi as [Hi _].
    apply validate_increasing_sequences_Ok in Hs. split.
    + rewrite length_fmap. lia.
    + rewrite head_fmap, Hf. cbn. by f_equal.
    + rewrite fmap_last, Hl. cbn. by f_equal.
    + done.
    + done.
  - intros [Hcount Hf Hl Hu Hs]. rewrite length_fmap in Hcount.
    destruct (Z.eqb_spec (Z.of_nat (length entries)) 0); [lia|].
    destruct (Z.ltb_spec 256 (Z.of_nat (length entries))); [lia|]. cbn [mbind Result_bind].
    assert (LocalSequenceNumber.value declared_first <= LocalSequenceNumber.value declared_last).
    { apply (StronglySorted_head_last _ _ _ Hs);
        [by rewrite head_fmap, Hf | by rewrite fmap_last, Hl]. }
    match goal with |- context [?a <? ?b] => destruct (Z.ltb_spec a b); [lia|] end.
    cbn [mbind Result_bind].
    rewrite head_fmap in Hf. apply fmap_Some in Hf as (f & Hf & ->).
    rewrite fmap_last in Hl. apply fmap_Some in Hl as (l & Hl & ->).
    rewrite Hf, Hl. cbn [ok_or mbind Result_bind].
    case_decide; [done|]. case_decide; [done|]. cbn [mbind Result_bind].
    rewrite (proj2 (insert_transactions_Ok ∅ _)) by (split; [done|apply Forall_true; set_solver]).
    cbn [mbind Result_bind]. by apply validate_increasing_sequences_Ok.
Qed.

Lemma validate_entries_Err declared_first declared_last entries e :
  validate_entries transaction_id local_sequence_number declared_first declared_last entries
    = Err e ->
  batch_error declared_first declared_last (transaction_id <$> entries)
    (local_sequence_number <$> entries) e.
Proof.
  unfold validate_entries, validate_entry_count, validate_range, validate_boundary_sequences,
    MAX_SYNCHRONIZATION_BATCH_ENTRIES.
  destruct (Z.eqb_spec (Z.of_nat (length entries)) 0).
  { intros [= <-]. cbn. by destruct entries. }
  destruct (Z.ltb_spec 256 (Z.of_nat (length entries))).
  { intros [= <-]. cbn. rewrite length_fmap. lia. }
  cbn [mbind Result_bind].
  match goal with |- context [?a <? ?b] => destruct (Z.ltb_spec a b); [by intros [= <-]|] end.
  cbn [mbind Result_bind].
  destruct (head entries) as [f|] eqn:Hf; cbn [ok_or mbind Result_bind];
    [|intros [= <-]; by destruct entries].
  destruct (last entries) as [l|] eqn:Hl; cbn [ok_or mbind Result_bind];
    [|intros [= <-]; apply last_None in Hl; by subst].
  case_decide as Hc.
  { intros [= <-]. cbn. rewrite !head_fmap, Hf. cbn. split_and!; [done..|].
    intros Heq. by apply Hc, LocalSequenceNumber_eq. }
  case_decide as Hc'.
  { intros [= <-]. cbn. rewrite !fmap_last, Hl. cbn. split_and!; [done..|].
    intros Heq. by apply Hc', LocalSequenceNumber_eq. }
  cbn [mbind Result_bind]. rewrite Result_bind_Err. intros [Hi|([] & _ & Hi)].
  - apply insert_transactions_Err in Hi as (pre & id & post & -> & Heq & Hin & Hnd & _).
    cbn. exists pre, post. split_and!; [done|set_solver|done].
  - apply validate_increasing_sequences_Err in Hi as (pre & p & c & post & -> & H').
    by exists pre, post.
Qed.

End entries.

(** ** Acknowledgement against request *)

Module SAE := SynchronizationAcknowledgementEntry.
Module SRE := SynchronizationRequestEntry.
Module SBA := SynchronizationBatchAcknowledgement.
Module SBR := SynchronizationBatchRequest.
Module SBAD := SynchronizationBatchAcknowledgementDefinition.
Module SBRD := SynchronizationBatchRequestDefinition.

(** An entry that answers a submitted one. *)
Definition answers (a : SAE.t) (s : SRE.t) : Prop :=
  SAE.transaction_id a = SRE.transaction_id s
  /\ SAE.local_sequence_number a = SRE.local_sequence_number s.

(** The identity both messages carry. *)
Definition same_identity (ack : SBA.t) (request : SBR.t) : Prop :=
  SBA.protocol_version ack = SBR.protocol_version request
  /\ SBA.environment_id ack = SBR.environment_id request
  /\ SBA.reader_id ack = SBR.reader_id request
  /\ SBA.batch_id ack = SBR.batch_id request
  /\ SBA.first_local_sequence_number ack = SBR.first_local_sequence_number request
  /\ SBA.last_local_sequence_number ack = SBR.last_local_sequence_number request.

(** The complaint about an entry at a position. *)
Definition mismatch_error (position : Z) (a : SAE.t) (s : SRE.t)
  : SynchronizationProtocolError.t :=
  if decide (SAE.transaction_id a = SRE.transaction_id s) then
    SynchronizationProtocolError.AcknowledgementSequenceMismatch position
      (LocalSequenceNumber.value (SRE.local_sequence_number s))
      (LocalSequenceNumber.value (SAE.local_sequence_number a))
  else SynchronizationProtocolError.AcknowledgementTransactionMismatch position.

Lemma compare_entries_Ok position acknowledged submitted :
  length acknowledged = length submitted ->
  SBA.compare_entries position acknowledged submitted = Ok tt <->
  Forall2 answers acknowledged submitted.
Proof.
  revert position submitted.
  induction acknowledged as [|a acknowledged IH]; intros position [|s submitted] Hl; cbn in *;
    [by split; [constructor|]|done|done|].
  rewrite Forall2_cons. unfold answers at 1. repeat case_decide; [naive_solver..|].
  rewrite IH by lia. naive_solver.
Qed.

Lemma compare_entries_Err position acknowledged submitted e :
  length acknowledged = length submitted ->
  SBA.compare_entries position acknowledged submitted = Err e ->
  exists pre a post pre' s post',
    acknowledged = pre ++ a :: post /\ submitted = pre' ++ s :: post'
    /\ Forall2 answers pre pre' /\ ~ answers a s
    /\ e = mismatch_error (position + Z.of_nat (length pre)) a s.
Proof.
  revert position submitted.
  induction acknowledged as [|a acknowledged IH]; intros position [|s submitted] Hl; cbn in *;
    [done..|]. unfold mismatch_error, answers in *.
  case_decide as H1; [|case_decide as H2].
  - intros [= <-]. exists [], a, acknowledged, [], s, submitted.
    split_and!; [done..|constructor|naive_solver|]. cbn. rewrite decide_False by done. f_equal. lia.
  - intros [= <-]. exists [], a, acknowledged, [], s, submitted.
    split_and!; [done..|constructor|naive_solver|]. cbn. rewrite decide_True by done. f_equal. lia.
  - intros H. apply IH in H as (pre & b & post & pre' & t & post' & -> & -> & Hf & Hn & ->);
      [|lia]. exists (a :: pre), b, post, (s :: pre'), t, post'.
    split_and!; [done..|by constructor|done|]. cbn [length]. repeat case_decide; f_equal; lia.
Qed.

Lemma ensure_identity_Ok {A} `{EqDecision A} field (a b : A) :
  SBA.ensure_identity field a b = Ok tt <-> a = b.
Proof. unfold SBA.ensure_identity. case_decide; naive_solver. Qed.

Lemma bind_unit_Ok {E} (m k : Result E unit) :
  (m ≫= fun _ => k) = Ok tt <-> m = Ok tt /\ k = Ok tt.
Proof. rewrite Result_bind_Ok. split; [intros ([] & ?)|exists tt]; naive_solver. Qed.

Lemma answers_length acknowledged submitted :
  Forall2 answers acknowledged submitted -> length acknowledged = length submitted.
Proof. apply Forall2_length. Qed.

Lemma validate_against_request_Ok ack request :
  SBA.validate_against_request ack request = Ok tt <->
  same_identity ack request /\ Forall2 answers (SBA.entries ack) (SBR.entries request).
Proof.
  unfold SBA.validate_against_request, same_identity.
  rewrite !bind_unit_Ok, !ensure_identity_Ok. case_decide as Hl.
  - split; [naive_solver|]. intros [_ Hf]. by apply answers_length in Hf.
  - rewrite compare_entries_Ok by done. tauto.
Qed.

Lemma validate_outcome_metadata_Ok outcome category retry :
  validate_outcome_metadata outcome category retry = Ok tt <->
  match outcome with
  | SynchronizationEntryOutcome.Acknowledged => category = None /\ retry = None
  | SynchronizationEntryOutcome.RetryableFailure =>
      is_Some category /\ exists at_ms, retry = Some at_ms /\ 0 <= at_ms
  | SynchronizationEntryOutcome.PermanentFailure
  | SynchronizationEntryOutcome.ManualReview => is_Some category /\ retry = None
  end.
Proof.
  unfold validate_outcome_metadata. rewrite bind_unit_Ok.
  assert (Ht : match retry with
    | Some at_ms => validate_timestamp (lit "next_retry_at_unix_milliseconds") at_ms
    | None => Ok tt end = Ok tt <-> (forall at_ms, retry = Some at_ms -> 0 <= at_ms)).
  { destruct retry as [ms|]; [rewrite validate_timestamp_Ok|]; naive_solver. }
  rewrite Ht. destruct outcome, category as [c|], retry as [ms|]; cbn;
    unfold is_Some; naive_solver.
Qed.

(** ** Properties *)

(** The message has the fields of the definition, each of them. *)
Definition same_request (r : SBR.t) (d : SBRD.t) : Prop :=
  SBR.protocol_version r = SBRD.protocol_version d
  /\ SBR.environment_id r = SBRD.environment_id d
  /\ SBR.reader_id r = SBRD.reader_id d
  /\ SBR.reader_software_version r = SBRD.reader_software_version d
  /\ SBR.batch_id r = SBRD.batch_id d
  /\ SBR.first_local_sequence_number r = SBRD.first_local_sequence_number d
  /\ SBR.last_local_sequence_number r = SBRD.last_local_sequence_number d
  /\ SBR.submitted_at_unix_milliseconds r = SBRD.submitted_at_unix_milliseconds d
  /\ SBR.entries r = SBRD.entries d.

Definition same_acknowledgement (a : SBA.t) (d : SBAD.t) : Prop :=
  SBA.protocol_version a = SBAD.protocol_version d
  /\ SBA.environment_id a = SBAD.environment_id d
  /\ SBA.reader_id a = SBAD.reader_id d
  /\ SBA.batch_id a = SBAD.batch_id d
  /\ SBA.first_local_sequence_number a = SBAD.first_local_sequence_number d
  /\ SBA.last_local_sequence_number a = SBAD.last_local_sequence_number d
  /\ SBA.received_at_unix_milliseconds a = SBAD.received_at_unix_milliseconds d
  /\ SBA.replayed a = SBAD.replayed d
  /\ SBA.entries a = SBAD.entries d.

Lemma same_request_iff r d : same_request r d <-> r = SBR.of_definition d.
Proof.
  split; [|by intros ->]. destruct r. unfold same_request, SBR.of_definition. cbn. naive_solver.
Qed.

Lemma same_acknowledgement_iff a d : same_acknowledgement a d <-> a = SBA.of_definition d.
Proof.
  split; [|by intros ->]. destruct a. unfold same_acknowledgement, SBA.of_definition. cbn.
  naive_solver.
Qed.

(** What [new] of either message does: the timestamp, then the entries, then
    the message. *)
Lemma checked_new_spec {A M} (field : Str) (ms : Z) (m : M) transaction_id local_sequence_number
    declared_first declared_last (entries : list A) :
  let ids := transaction_id <$> entries in
  let sequences := local_sequence_number <$> entries in
  let result :=
    _ ← validate_timestamp field ms;
    _ ← validate_entries transaction_id local_sequence_number declared_first declared_last entries;
    Ok m in
  (forall r, result = Ok r <->
     r = m /\ 0 <= ms /\ batch_ok declared_first declared_last ids sequences)
  /\ (forall e, result = Err e ->
        (ms < 0 /\ e = SynchronizationProtocolError.NegativeTimestamp field ms)
        \/ (0 <= ms /\ batch_error declared_first declared_last ids sequences e)).
Proof.
  cbn zeta. unfold validate_timestamp. destruct (Z.ltb_spec ms 0); cbn [mbind Result_bind].
  { split; [intros x; split; [done|lia]|]. intros e [= <-]. by left. }
  split.
  - intros r. rewrite Result_bind_Ok. split.
    + intros ([] & Hv & [= <-]). by apply validate_entries_Ok in Hv.
    + intros (-> & _ & Hb). exists tt. split; [by apply validate_entries_Ok|done].
  - intros e. rewrite Result_bind_Err. intros [Hv|(? & _ & ?)]; [|done].
    right. split; [done|]. by apply validate_entries_Err in Hv.
Qed.

(** C35. Messages are well-formed batches.  [new] of a request, and of an
    acknowledgement, succeeds exactly on a non-negative timestamp and entries
    that form a batch: between one and 256 of them, no transaction twice,
    sequences strictly increasing from the declared first to the declared
    last; the message then has every field of the definition.  An error tells
    the truth: a negative timestamp is reported, before anything else, with
    the field's name and its value, and otherwise the error names something
    that is wrong with the entries, the duplicate or the sequence step being
    the first one. *)
Theorem synchronization_messages_new_spec (request : SBRD.t) (ack : SBAD.t) :
  ((forall r, SBR.new request = Ok r <->
      same_request r request /\ 0 <= SBRD.submitted_at_unix_milliseconds request
      /\ batch_ok (SBRD.first_local_sequence_number request)
           (SBRD.last_local_sequence_number request)
           (SRE.transaction_id <$> SBRD.entries request)
           (SRE.local_sequence_number <$> SBRD.entries request))
   /\ (forall e, SBR.new request = Err e ->
        (SBRD.submitted_at_unix_milliseconds request < 0
         /\ e = SynchronizationProtocolError.NegativeTimestamp
                  (lit "submitted_at_unix_milliseconds")
                  (SBRD.submitted_at_unix_milliseconds request))
        \/ (0 <= SBRD.submitted_at_unix_milliseconds request
            /\ batch_error (SBRD.first_local_sequence_number request)
                 (SBRD.last_local_sequence_number request)
                 (SRE.transaction_id <$> SBRD.entries request)
                 (SRE.local_sequence_number <$> SBRD.entries request) e)))
  /\ ((forall a, SBA.new ack = Ok a <->
         same_acknowledgement a ack /\ 0 <= SBAD.received_at_unix_milliseconds ack
         /\ batch_ok (SBAD.first_local_sequence_number ack) (SBAD.last_local_sequence_number ack)
              (SAE.transaction_id <$> SBAD.entries ack)
              (SAE.local_sequence_number <$> SBAD.entries ack))
      /\ (forall e, SBA.new ack = Err e ->
           (SBAD.received_at_unix_milliseconds ack < 0
            /\ e = SynchronizationProtocolError.NegativeTimestamp
                     (lit "received_at_unix_milliseconds")
                     (SBAD.received_at_unix_milliseconds ack))
           \/ (0 <= SBAD.received_at_unix_milliseconds ack
               /\ batch_error (SBAD.first_local_sequence_number ack)
                    (SBAD.last_local_sequence_number ack)
                    (SAE.transaction_id <$> SBAD.entries ack)
                    (SAE.local_sequence_number <$> SBAD.entries ack) e))).
Proof.
  setoid_rewrite same_request_iff. setoid_rewrite same_acknowledgement_iff.
  split; apply checked_new_spec.
Qed.

(** Outcome metadata fits the outcome: an acknowledgement carries neither
    category nor retry time, a retryable failure both (the time not
    negative), a final failure or a manual review a category only; anything
    else is refused, and [new] stores what it was given. *)
Theorem acknowledgement_entry_new_spec id sequence outcome category retry :
  SAE.new id sequence outcome category retry = Ok (SAE.mk id sequence outcome category retry) <->
  match outcome with
  | SynchronizationEntryOutcome.Acknowledged => category = None /\ retry = None
  | SynchronizationEntryOutcome.RetryableFailure =>
      is_Some category /\ exists at_ms, retry = Some at_ms /\ 0 <= at_ms
  | SynchronizationEntryOutcome.PermanentFailure
  | SynchronizationEntryOutcome.ManualReview => is_Some category /\ retry = None
  end.
Proof.
  rewrite <- validate_outcome_metadata_Ok. unfold SAE.new. rewrite Result_bind_Ok.
  split; [by intros ([] & ? & _)|]. intros ->. by exists tt.
Qed.

(** [validate_against_request] accepts an acknowledgement exactly when it
    names the request (version, environment, reader, batch, range) and its
    entries answer the submitted ones position by position; a complaint about
    an entry names the first position that differs and what differs there.
    The replay marker plays no part. *)
Theorem validate_against_request_spec ack request :
  (SBA.validate_against_request ack request = Ok tt <->
   same_identity ack request /\ Forall2 answers (SBA.entries ack) (SBR.entries request))
  /\ (forall e, same_identity ack request ->
        length (SBA.entries ack) = length (SBR.entries request) ->
        SBA.validate_against_request ack request = Err e ->
        exists pre a post pre' s post',
          SBA.entries ack = pre ++ a :: post /\ SBR.entries request = pre' ++ s :: post'
          /\ Forall2 answers pre pre' /\ ~ answers a s
          /\ e = mismatch_error (Z.of_nat (length pre)) a s)
  /\ (forall replayed, SBA.validate_against_request (SBA.with_replayed ack replayed) request
                       = SBA.validate_against_request ack request).
Proof.
  split; [apply validate_against_request_Ok|]. split; [|done].
  intros e (H1 & H2 & H3 & H4 & H5 & H6) Hl. unfold SBA.validate_against_request.
  rewrite !(proj2 (ensure_identity_Ok _ _ _)) by done. cbn [mbind Result_bind].
  rewrite decide_False by (by intros []). by apply compare_entries_Err.
Qed.

Lemma Forall2_in_l {A B} (R : A -> B -> Prop) l k x :
  Forall2 R l k -> x ∈ l -> exists y, y ∈ k /\ R x y.
Proof.
  intros Hf Hx. apply list_elem_of_lookup in Hx as [i Hi].
  destruct (Forall2_lookup_l _ _ _ _ _ Hf Hi) as (y & Hy & HR).
  exists y. split; [by eapply list_elem_of_lookup_2|done].
Qed.

Lemma NoDup_fmap_eq {A B} (f : A -> B) l x y :
  NoDup (f <$> l) -> x ∈ l -> y ∈ l -> f x = f y -> x = y.
Proof.
  intros Hnd Hx Hy Heq.
  apply list_elem_of_lookup in Hx as [i Hi]. apply list_elem_of_lookup in Hy as [j Hj].
  assert (i = j); [|by simplify_eq].
  eapply (NoDup_lookup _ _ _ (f x) Hnd); rewrite list_lookup_fmap.
  - by rewrite Hi.
  - by rewrite Hj, Heq.
Qed.

Lemma acknowledgement_new_Ok ackd ack :
  SBA.new ackd = Ok ack ->
  batch_ok (SBA.first_local_sequence_number ack) (SBA.last_local_sequence_number ack)
    (SAE.transaction_id <$> SBA.entries ack) (SAE.local_sequence_number <$> SBA.entries ack).
Proof.
  unfold SBA.new. rewrite !Result_bind_Ok. intros ([] & _ & H).
  rewrite Result_bind_Ok in H. destruct H as ([] & Hv & [= <-]).
  by apply validate_entries_Ok in Hv.
Qed.

Lemma request_new_of definition r : SBR.new definition = Ok r -> r = SBR.of_definition definition.
Proof. by intros (? & _ & (? & _ & [= <-])%Result_bind_Ok)%Result_bind_Ok. Qed.

Lemma request_new_Ok definition request :
  SBR.new definition = Ok request ->
  batch_ok (SBR.first_local_sequence_number request) (SBR.last_local_sequence_number request)
    (SRE.transaction_id <$> SBR.entries request) (SRE.local_sequence_number <$> SBR.entries request).
Proof.
  intros Hn. pose proof (request_new_of _ _ Hn) as ->. unfold SBR.new in Hn.
  apply Result_bind_Ok in Hn as ([] & _ & Hn). apply Result_bind_Ok in Hn as ([] & Hv & _).
  by apply validate_entries_Ok in Hv.
Qed.

(** C37. Every submitted transaction gets exactly one outcome.  When a
    validated acknowledgement passes [validate_against_request], each
    submitted entry has one and only one acknowledgement entry with its
    transaction, that entry carries its sequence, and no other transaction is
    acknowledged; and the request, whatever made it, was a batch itself. *)
Theorem acknowledgement_answers_every_entry request ackd ack :
  SBA.new ackd = Ok ack ->
  SBA.validate_against_request ack request = Ok tt ->
  (forall s, s ∈ SBR.entries request ->
     exists a, a ∈ SBA.entries ack /\ answers a s
       /\ forall b, b ∈ SBA.entries ack -> SAE.transaction_id b = SRE.transaction_id s -> b = a)
  /\ (forall a, a ∈ SBA.entries ack -> exists s, s ∈ SBR.entries request /\ answers a s)
  /\ batch_ok (SBR.first_local_sequence_number request) (SBR.last_local_sequence_number request)
       (SRE.transaction_id <$> SBR.entries request)
       (SRE.local_sequence_number <$> SBR.entries request).
Proof.
  intros Ha Hv. apply validate_against_request_Ok in Hv as [Hid Hf].
  pose proof (acknowledgement_new_Ok _ _ Ha) as Hb. split_and!.
  - intros s Hs. apply Forall2_flip in Hf as Hf'.
    destruct (Forall2_in_l _ _ _ _ Hf' Hs) as (a & Hin & Hans). cbn in Hans.
    exists a. split_and!; [done..|]. intros b Hbin Heq.
    apply (NoDup_fmap_eq SAE.transaction_id (SBA.entries ack)); [apply Hb|done|done|].
    rewrite Heq. symmetry. apply Hans.
  - intros a Hain. by apply (Forall2_in_l _ _ _ _ Hf).
  - destruct Hid as (_ & _ & _ & _ & <- & <-).
    replace (SRE.transaction_id <$> SBR.entries request)
      with (SAE.transaction_id <$> SBA.entries ack).
    2: { clear -Hf. induction Hf as [|a s l k [Hd _] _ IH]; cbn; congruence. }
    replace (SRE.local_sequence_number <$> SBR.entries request)
      with (SAE.local_sequence_number <$> SBA.entries ack); [done|].
    clear -Hf. induction Hf as [|a s l k [_ Hd] _ IH]; cbn; congruence.
Qed.

(** ** Witnesses *)

Definition sample_sequence (n : Z) : LocalSequenceNumber.t := LocalSequenceNumber.mk n.

Definition uuid_2 : Uuid := MkUuid 2 I.

Definition sample_request : SBRD.t :=
  SBRD.mk DeviceProtocolVersion.CURRENT (ProtocolEnvironmentId.mk (lit "development"))
    (MkIdentifier uuid_1) (ReaderSoftwareVersion.mk (lit "0.1.0")) (MkIdentifier uuid_2)
    (sample_sequence 3) (sample_sequence 7) 1000
    [SRE.new (MkIdentifier uuid_1) (sample_sequence 3) sample_envelope;
     SRE.new (MkIdentifier uuid_2) (sample_sequence 7) sample_envelope].

Definition sample_acknowledgement : SBAD.t :=
  SBAD.mk DeviceProtocolVersion.CURRENT (ProtocolEnvironmentId.mk (lit "development"))
    (MkIdentifier uuid_1) (MkIdentifier uuid_2) (sample_sequence 3) (sample_sequence 7) 1500 false
    [SAE.mk (MkIdentifier uuid_1) (sample_sequence 3) SynchronizationEntryOutcome.Acknowledged
       None None;
     SAE.mk (MkIdentifier uuid_2) (sample_sequence 7)
       SynchronizationEntryOutcome.RetryableFailure
       (Some SynchronizationFailureCategory.BackendTemporarilyUnavailable) (Some 2000)].

Lemma acknowledgement_answers_every_entry_witness :
  SBA.new sample_acknowledgement = Ok (SBA.of_definition sample_acknowledgement)
  /\ batch_ok (sample_sequence 3) (sample_sequence 7) [MkIdentifier uuid_1; MkIdentifier uuid_2]
       [sample_sequence 3; sample_sequence 7].
Proof.
  assert (Hn : SBA.new sample_acknowledgement = Ok (SBA.of_definition sample_acknowledgement))
    by (vm_compute; reflexivity).
  split; [exact Hn|].
  apply (acknowledgement_answers_every_entry (SBR.of_definition sample_request) _ _ Hn).
  vm_compute. reflexivity.
Defined.
