(* ===== verification/DeviceProtocolFingerprint.v ===== *)
(** * Fingerprints (crates/device-protocol/src: fingerprint.rs,
    payload_fingerprint.rs)

    A hasher is fed bytes and finalised once.  SHA-256 itself is the [sha2]
    crate: a function from the bytes fed (in however many updates) to 32
    bytes.  Nothing here assumes that it has no collisions; the theorems say
    instead that equal fingerprints mean equal content or an explicit pair of
    colliding inputs. *)

From S2P Require Import Prelude Text DomainIdentifier DomainAccount DomainTransaction.
From S2P Require Import DeviceProtocolValues DeviceProtocolSynchronization.

Definition is_byte (b : Z) : Prop := 0 <= b < 256.

Class Sha256Library := { sha256 : list Z -> list Z }.

Class Sha256Laws `{Sha256Library} := {
  sha256_length bs : length (sha256 bs) = 32%nat;
  sha256_bytes bs : Forall is_byte (sha256 bs)
}.

Definition SYNCHRONIZATION_FINGERPRINT_HEX_LENGTH : Z := 64.
Definition FINGERPRINT_DOMAIN : list Z :=
  lit "transitguard.reader-synchronization.request.v1".
Definition TRANSACTION_ENVELOPE_DOMAIN : list Z :=
  lit "transitguard.reader-synchronization.transaction-envelope.v1".
Definition ACKNOWLEDGEMENT_DOMAIN : list Z :=
  lit "transitguard.reader-synchronization.acknowledgement.v1".
Definition HEX_DIGITS : list Z := lit "0123456789abcdef".

(** [to_be_bytes] of an integer of [n] bytes. *)
Fixpoint to_be_bytes (n : nat) (z : Z) : list Z :=
  match n with
  | O => []
  | S n' => (z / 256 ^ Z.of_nat n') `mod` 256 :: to_be_bytes n' z
  end.

(** ** The hasher *)

(** The bytes fed so far. *)
Definition Hasher : Type := list Z.

Definition update (hasher : Hasher) (value : list Z) : Hasher := hasher ++ value.

Definition update_u16 (hasher : Hasher) (value : Z) : Hasher := update hasher (to_be_bytes 2 value).
Definition update_u64 (hasher : Hasher) (value : Z) : Hasher := update hasher (to_be_bytes 8 value).
Definition update_i64 (hasher : Hasher) (value : Z) : Hasher := update hasher (to_be_bytes 8 value).

Definition update_bytes (hasher : Hasher) (value : list Z) : Hasher :=
  update (update_u64 hasher (Z.of_nat (length value))) value.

Definition update_text (hasher : Hasher) (value : Str) : Hasher :=
  update_bytes hasher (as_bytes value).

(** ** Hexadecimal text *)

(** One [Self([u8; 32])] printed. *)
Definition to_hex (bytes : list Z) : Str :=
  bytes ≫= fun byte =>
    [nth (Z.to_nat (Z.shiftr byte 4)) HEX_DIGITS 0;
     nth (Z.to_nat (Z.land byte 15)) HEX_DIGITS 0].

Definition decode_hexadecimal_digit {E} (invalid : Z -> E) (value position : Z) : Result E Z :=
  if (48 <=? value) && (value <=? 57) then Ok (value - 48)
  else if (97 <=? value) && (value <=? 102) then Ok (value - 97 + 10)
  else if (65 <=? value) && (value <=? 70) then Ok (value - 65 + 10)
  else Err (invalid position).

(** The loop over the output bytes; [index] counts them.  [high << 4] is a
    [u8] shift. *)
Fixpoint decode_bytes {E} (invalid : Z -> E) (index : Z) (encoded : list Z) : Result E (list Z) :=
  match encoded with
  | h :: l :: encoded' =>
      high ← decode_hexadecimal_digit invalid h (index * 2);
      low ← decode_hexadecimal_digit invalid l (index * 2 + 1);
      rest ← decode_bytes invalid (index + 1) encoded';
      Ok (Z.lor (Z.land (Z.shiftl high 4) 255) low :: rest)
  | _ => Ok []
  end.

Definition from_hex {E} (invalid_length invalid : Z -> E) (value : Str) : Result E (list Z) :=
  if negb (str_len value =? SYNCHRONIZATION_FINGERPRINT_HEX_LENGTH) then
    Err (invalid_length (str_len value))
  else decode_bytes invalid 0 (as_bytes value).

Module SynchronizationFingerprintParseError.

Inductive t :=
| InvalidLength (actual_length : Z)
| InvalidHexadecimalCharacter (position : Z).

#[global] Instance eq_dec : EqDecision t.
Proof. solve_decision. Defined.

End SynchronizationFingerprintParseError.

Module SynchronizationPayloadFingerprintParseError.

Inductive t :=
| InvalidLength (actual_length : Z)
| InvalidHexadecimalCharacter (position : Z).

#[global] Instance eq_dec : EqDecision t.
Proof. solve_decision. Defined.

End SynchronizationPayloadFingerprintParseError.

Module SynchronizationRequestFingerprint.

(** [struct SynchronizationRequestFingerprint([u8; 32])]. *)
Record t := from_bytes { bytes : list Z }.

#[global] Instance eq_dec : EqDecision t.
Proof. solve_decision. Defined.

Definition wf (f : t) : Prop := length (bytes f) = 32%nat /\ Forall is_byte (bytes f).

Section calculate.
Context `{UuidLibrary}.

Definition feed_entry (hasher : Hasher) (entry : SynchronizationRequestEntry.t) : Hasher :=
  let hasher := update_text hasher
    (identifier_to_string (SynchronizationRequestEntry.transaction_id entry)) in
  let hasher := update_u64 hasher
    (LocalSequenceNumber.value (SynchronizationRequestEntry.local_sequence_number entry)) in
  update_text hasher
    (CanonicalTransactionEnvelope.as_str
       (SynchronizationRequestEntry.transaction_envelope entry)).

(** Everything [calculate] feeds before it finalises. *)
Definition feed (request : SynchronizationBatchRequest.t) : Hasher :=
  let hasher := update_bytes [] FINGERPRINT_DOMAIN in
  let hasher := update_u16 hasher
    (DeviceProtocolVersion.value (SynchronizationBatchRequest.protocol_version request)) in
  let hasher := update_text hasher
    (ProtocolEnvironmentId.as_str (SynchronizationBatchRequest.environment_id request)) in
  let hasher := update_text hasher
    (identifier_to_string (SynchronizationBatchRequest.reader_id request)) in
  let hasher := update_text hasher
    (ReaderSoftwareVersion.as_str (SynchronizationBatchRequest.reader_software_version request)) in
  let hasher := update_text hasher
    (identifier_to_string (SynchronizationBatchRequest.batch_id request)) in
  let hasher := update_u64 hasher
    (LocalSequenceNumber.value
       (SynchronizationBatchRequest.first_local_sequence_number request)) in
  let hasher := update_u64 hasher
    (LocalSequenceNumber.value
       (SynchronizationBatchRequest.last_local_sequence_number request)) in
  let hasher := update_i64 hasher
    (SynchronizationBatchRequest.submitted_at_unix_milliseconds request) in
  let hasher := update_u64 hasher
    (Z.of_nat (length (SynchronizationBatchRequest.entries request))) in
  foldl feed_entry hasher (SynchronizationBatchRequest.entries request).

Definition calculate `{Sha256Library} (request : SynchronizationBatchRequest.t) : t :=
  from_bytes (sha256 (feed request)).

End calculate.

(** [Display], and [FromStr]. *)
Definition to_string (self : t) : Str := to_hex (bytes self).

Definition from_str (value : Str) : Result SynchronizationFingerprintParseError.t t :=
  map_ok from_bytes
    (from_hex SynchronizationFingerprintParseError.InvalidLength
       SynchronizationFingerprintParseError.InvalidHexadecimalCharacter value).

End SynchronizationRequestFingerprint.

Module SynchronizationPayloadFingerprint.

(** [struct SynchronizationPayloadFingerprint([u8; 32])]. *)
Record t := from_bytes { bytes : list Z }.

#[global] Instance eq_dec : EqDecision t.
Proof. solve_decision. Defined.

Definition wf (f : t) : Prop := length (bytes f) = 32%nat /\ Forall is_byte (bytes f).

Definition encode_outcome (outcome : SynchronizationEntryOutcome.t) : Z :=
  match outcome with
  | SynchronizationEntryOutcome.Acknowledged => 1
  | SynchronizationEntryOutcome.RetryableFailure => 2
  | SynchronizationEntryOutcome.PermanentFailure => 3
  | SynchronizationEntryOutcome.ManualReview => 4
  end.

Definition feed_envelope (envelope : CanonicalTransactionEnvelope.t) : Hasher :=
  let hasher := update_bytes [] TRANSACTION_ENVELOPE_DOMAIN in
  update_text hasher (CanonicalTransactionEnvelope.as_str envelope).

Section feed.
Context `{UuidLibrary}.

Definition feed_entry (hasher : Hasher) (entry : SynchronizationAcknowledgementEntry.t)
  : Hasher :=
  let hasher := update_text hasher
    (identifier_to_string (SynchronizationAcknowledgementEntry.transaction_id entry)) in
  let hasher := update_u64 hasher
    (LocalSequenceNumber.value
       (SynchronizationAcknowledgementEntry.local_sequence_number entry)) in
  let hasher := update hasher
    [encode_outcome (SynchronizationAcknowledgementEntry.outcome entry)] in
  let hasher :=
    match SynchronizationAcknowledgementEntry.failure_category entry with
    | Some category =>
        update_text (update hasher [1]) (SynchronizationFailureCategory.as_str category)
    | None => update hasher [0]
    end in
  match SynchronizationAcknowledgementEntry.next_retry_at_unix_milliseconds entry with
  | Some retry_at => update_i64 (update hasher [1]) retry_at
  | None => update hasher [0]
  end.

Definition feed_acknowledgement (acknowledgement : SynchronizationBatchAcknowledgement.t)
  : Hasher :=
  let hasher := update_bytes [] ACKNOWLEDGEMENT_DOMAIN in
  let hasher := update_u16 hasher
    (DeviceProtocolVersion.value
       (SynchronizationBatchAcknowledgement.protocol_version acknowledgement)) in
  let hasher := update_text hasher
    (ProtocolEnvironmentId.as_str
       (SynchronizationBatchAcknowledgement.environment_id acknowledgement)) in
  let hasher := update_text hasher
    (identifier_to_string (SynchronizationBatchAcknowledgement.reader_id acknowledgement)) in
  let hasher := update_text hasher
    (identifier_to_string (SynchronizationBatchAcknowledgement.batch_id acknowledgement)) in
  let hasher := update_u64 hasher
    (LocalSequenceNumber.value
       (SynchronizationBatchAcknowledgement.first_local_sequence_number acknowledgement)) in
  let hasher := update_u64 hasher
    (LocalSequenceNumber.value
       (SynchronizationBatchAcknowledgement.last_local_sequence_number acknowledgement)) in
  let hasher := update_i64 hasher
    (SynchronizationBatchAcknowledgement.received_at_unix_milliseconds acknowledgement) in
  let hasher := update_u64 hasher
    (Z.of_nat (length (SynchronizationBatchAcknowledgement.entries acknowledgement))) in
  foldl feed_entry hasher (SynchronizationBatchAcknowledgement.entries acknowledgement).

End feed.

Section finish.
Context `{Sha256Library}.

Definition finish (hasher : Hasher) : t := from_bytes (sha256 hasher).

Definition for_transaction_envelope (envelope : CanonicalTransactionEnvelope.t) : t :=
  finish (feed_envelope envelope).

Definition for_acknowledgement `{UuidLibrary}
    (acknowledgement : SynchronizationBatchAcknowledgement.t) : t :=
  finish (feed_acknowledgement acknowledgement).

End finish.

Definition to_string (self : t) : Str := to_hex (bytes self).

Definition from_str (value : Str) : Result SynchronizationPayloadFingerprintParseError.t t :=
  map_ok from_bytes
    (from_hex SynchronizationPayloadFingerprintParseError.InvalidLength
       SynchronizationPayloadFingerprintParseError.InvalidHexadecimalCharacter value).

End SynchronizationPayloadFingerprint.

(** ** Prefix codes

    Every piece that is fed delimits itself: what follows it does not change
    how it reads. *)

Definition prefix_code {A} (P : A -> Prop) (enc : A -> list Z) : Prop :=
  forall a b r1 r2, P a -> P b -> enc a ++ r1 = enc b ++ r2 -> a = b /\ r1 = r2.

Lemma length_to_be_bytes n z : length (to_be_bytes n z) = n.
Proof. induction n as [|n IH]; cbn; congruence. Qed.

Fixpoint be_value (bs : list Z) : Z :=
  match bs with
  | [] => 0
  | b :: bs' => b * 256 ^ Z.of_nat (length bs') + be_value bs'
  end.

Lemma be_value_to_be_bytes n z : be_value (to_be_bytes n z) = z `mod` 256 ^ Z.of_nat n.
Proof.
  induction n as [|n IH]; cbn [to_be_bytes be_value]; [by rewrite Z.mod_1_r|].
  rewrite IH, length_to_be_bytes, Nat2Z.inj_succ, Z.pow_succ_r by lia.
  rewrite (Z.mul_comm 256), Z.rem_mul_r by lia. lia.
Qed.

Lemma to_be_bytes_inj n x y r1 r2 :
  to_be_bytes n x ++ r1 = to_be_bytes n y ++ r2 ->
  x `mod` 256 ^ Z.of_nat n = y `mod` 256 ^ Z.of_nat n /\ r1 = r2.
Proof.
  intros H. apply app_inj_1 in H as [H ->]; [|by rewrite !length_to_be_bytes].
  by rewrite <- !be_value_to_be_bytes, H.
Qed.

Lemma prefix_code_u16 : prefix_code in_u16 (to_be_bytes 2).
Proof.
  intros x y r1 r2 Hx Hy H. apply to_be_bytes_inj in H as [H ->].
  change (256 ^ Z.of_nat 2) with 65536 in H. rewrite !Z.mod_small in H by int_lia. done.
Qed.

Lemma prefix_code_u64 : prefix_code in_u64 (to_be_bytes 8).
Proof.
  intros x y r1 r2 Hx Hy H. apply to_be_bytes_inj in H as [H ->].
  change (256 ^ Z.of_nat 8) with 18446744073709551616 in H.
  rewrite !Z.mod_small in H by int_lia. done.
Qed.

Lemma prefix_code_i64 : prefix_code in_i64 (to_be_bytes 8).
Proof.
  intros x y r1 r2 Hx Hy H. apply to_be_bytes_inj in H as [H ->].
  change (256 ^ Z.of_nat 8) with 18446744073709551616 in H. split; [|done].
  unfold_ints. Z.div_mod_to_equations. lia.
Qed.

Definition enc_text (s : Str) : list Z := to_be_bytes 8 (str_len s) ++ as_bytes s.

(** Texts of the program: scalar values, a length that fits the prefix. *)
Definition text_wf (s : Str) : Prop := str_wf s /\ in_u64 (str_len s).

Lemma prefix_code_text : prefix_code text_wf enc_text.
Proof.
  intros s t r1 r2 [Hs Hls] [Ht Hlt]. unfold enc_text. rewrite <- !app_assoc. intros H.
  apply prefix_code_u64 in H as [Hlen H]; [|done..].
  apply app_inj_1 in H as [H ->]; [|unfold str_len in Hlen; lia].
  split; [by apply as_bytes_inj|done].
Qed.

Lemma prefix_code_app {A B C} (P : A -> Prop) (Q : B -> Prop) (f : A -> list Z) (g : B -> list Z)
    (pa : C -> A) (pb : C -> B) :
  prefix_code P f -> prefix_code Q g ->
  forall x y r1 r2, P (pa x) -> P (pa y) -> Q (pb x) -> Q (pb y) ->
  (f (pa x) ++ g (pb x)) ++ r1 = (f (pa y) ++ g (pb y)) ++ r2 ->
  pa x = pa y /\ pb x = pb y /\ r1 = r2.
Proof.
  intros Hf Hg x y r1 r2 ???? H. rewrite <- !app_assoc in H.
  apply Hf in H as [? H]; [|done..]. apply Hg in H as [? H]; [|done..]. done.
Qed.

Lemma prefix_code_list {A} (P : A -> Prop) enc (l k : list A) r1 r2 :
  prefix_code P enc -> Forall P l -> Forall P k -> length l = length k ->
  (l ≫= enc) ++ r1 = (k ≫= enc) ++ r2 -> l = k /\ r1 = r2.
Proof.
  intros He Hl. revert k. induction Hl as [|x l Hx _ IH]; intros k Hk Hlen H;
    destruct Hk as [|y k Hy Hk]; [done|done|done|]. cbn in H. rewrite <- !app_assoc in H.
  apply He in H as [-> H]; [|done..]. apply IH in H as [-> ->]; [done..|]. cbn in Hlen. lia.
Qed.

(** A counted list. *)
Definition enc_list {A} (enc : A -> list Z) (l : list A) : list Z :=
  to_be_bytes 8 (Z.of_nat (length l)) ++ (l ≫= enc).

Lemma prefix_code_counted {A} (P : A -> Prop) enc :
  prefix_code P enc ->
  prefix_code (fun l : list A => Forall P l /\ in_u64 (Z.of_nat (length l))) (enc_list enc).
Proof.
  intros He l k r1 r2 [Hl Hll] [Hk Hlk]. unfold enc_list. rewrite <- !app_assoc. intros H.
  apply prefix_code_u64 in H as [Hlen H]; [|done..].
  by eapply prefix_code_list in H; [|done..|lia].
Qed.

Definition enc_option {A} (enc : A -> list Z) (o : option A) : list Z :=
  match o with
  | Some x => 1 :: enc x
  | None => [0]
  end.

Lemma prefix_code_option {A} (P : A -> Prop) enc :
  prefix_code P enc ->
  prefix_code (fun o => match o with Some x => P x | None => True end) (enc_option (A := A) enc).
Proof.
  intros He [x|] [y|] r1 r2 Hx Hy H; cbn in H; try discriminate H; injection H as H.
  - by apply He in H as [-> ->].
  - done.
Qed.

Lemma foldl_feed {A} (feed : Hasher -> A -> Hasher) enc l h :
  (forall h x, feed h x = h ++ enc x) -> foldl feed h l = h ++ (l ≫= enc).
Proof.
  intros Hf. revert h. induction l as [|x l IH]; intros h; cbn; [by rewrite app_nil_r|].
  by rewrite IH, Hf, app_assoc.
Qed.

(** ** The two pre-images as codes *)

Section codes.
Context `{UL : UuidLibrary} `{LL : !UuidLaws}.

Lemma identifier_text_wf {k} (id : Identifier k) : text_wf (identifier_to_string id).
Proof using LL.
  unfold text_wf, identifier_to_string. rewrite uuid_fmt_len.
  split; [apply uuid_fmt_wf|int_lia].
Qed.

Definition enc_id {k} (id : Identifier k) : list Z := enc_text (identifier_to_string id).

Lemma prefix_code_id k : prefix_code (fun _ => True) (enc_id (k := k)).
Proof using LL.
  intros a b r1 r2 _ _ Heq. apply prefix_code_text in Heq as [Heq ->];
    [|apply identifier_text_wf..]. split; [by apply identifier_to_string_inj|done].
Qed.

Definition enc_sequence (s : LocalSequenceNumber.t) : list Z :=
  to_be_bytes 8 (LocalSequenceNumber.value s).

Lemma prefix_code_sequence : prefix_code LocalSequenceNumber.wf enc_sequence.
Proof.
  intros a b r1 r2 Ha Hb Heq. unfold LocalSequenceNumber.wf in *.
  apply prefix_code_u64 in Heq as [Heq ->]; [|int_lia..].
  split; [by apply LocalSequenceNumber_eq|done].
Qed.

Definition enc_request_entry (e : SRE.t) : list Z :=
  enc_id (SRE.transaction_id e) ++ enc_sequence (SRE.local_sequence_number e)
  ++ enc_text (CanonicalTransactionEnvelope.as_str (SRE.transaction_envelope e)).

Definition request_entry_wf (e : SRE.t) : Prop :=
  LocalSequenceNumber.wf (SRE.local_sequence_number e)
  /\ text_wf (CanonicalTransactionEnvelope.as_str (SRE.transaction_envelope e)).

Lemma prefix_code_request_entry : prefix_code request_entry_wf enc_request_entry.
Proof using LL.
  intros [i s [e]] [j t [f]] r1 r2 [Hs He] [Ht Hf]. unfold enc_request_entry. cbn in *.
  rewrite <- !app_assoc. intros Heq.
  apply prefix_code_id in Heq as [-> Heq]; [|done..].
  apply prefix_code_sequence in Heq as [-> Heq]; [|done..].
  by apply prefix_code_text in Heq as [-> Heq].
Qed.

Definition enc_acknowledgement_entry (e : SAE.t) : list Z :=
  enc_id (SAE.transaction_id e) ++ enc_sequence (SAE.local_sequence_number e)
  ++ [SynchronizationPayloadFingerprint.encode_outcome (SAE.outcome e)]
  ++ enc_option (fun c => enc_text (SynchronizationFailureCategory.as_str c))
       (SAE.failure_category e)
  ++ enc_option (to_be_bytes 8) (SAE.next_retry_at_unix_milliseconds e).

Definition acknowledgement_entry_wf (e : SAE.t) : Prop :=
  LocalSequenceNumber.wf (SAE.local_sequence_number e)
  /\ match SAE.next_retry_at_unix_milliseconds e with Some ms => in_i64 ms | None => True end.

Lemma prefix_code_category :
  prefix_code (fun _ => True) (fun c => enc_text (SynchronizationFailureCategory.as_str c)).
Proof.
  intros a b r1 r2 _ _ Heq. apply prefix_code_text in Heq as [Heq ->].
  - split; [by apply SynchronizationFailureCategory.as_str_inj|done].
  - split; [apply SynchronizationFailureCategory.as_str_wf|].
    destruct a; vm_compute; split; discriminate.
  - split; [apply SynchronizationFailureCategory.as_str_wf|].
    destruct b; vm_compute; split; discriminate.
Qed.

Lemma prefix_code_acknowledgement_entry :
  prefix_code acknowledgement_entry_wf enc_acknowledgement_entry.
Proof using LL.
  intros [i s o c n] [j t p d m] r1 r2 [Hs Hn] [Ht Hm]. unfold enc_acknowledgement_entry.
  cbn [SAE.transaction_id SAE.local_sequence_number SAE.outcome SAE.failure_category
    SAE.next_retry_at_unix_milliseconds] in *.
  rewrite <- !app_assoc. intros Heq.
  apply prefix_code_id in Heq as [-> Heq]; [|done..].
  apply prefix_code_sequence in Heq as [-> Heq]; [|done..].
  injection Heq as Ho Heq.
  assert (o = p) as -> by (by destruct o, p).
  apply (prefix_code_option _ _ prefix_code_category) in Heq as [-> Heq];
    [|by destruct c|by destruct d].
  by apply (prefix_code_option _ _ prefix_code_i64) in Heq as [-> ->].
Qed.

(** The fields fed before the entries, in the order of the code. *)
Definition request_code (r : SBR.t) : list Z :=
  to_be_bytes 2 (DeviceProtocolVersion.value (SBR.protocol_version r))
  ++ enc_text (ProtocolEnvironmentId.as_str (SBR.environment_id r))
  ++ enc_id (SBR.reader_id r)
  ++ enc_text (ReaderSoftwareVersion.as_str (SBR.reader_software_version r))
  ++ enc_id (SBR.batch_id r)
  ++ enc_sequence (SBR.first_local_sequence_number r)
  ++ enc_sequence (SBR.last_local_sequence_number r)
  ++ to_be_bytes 8 (SBR.submitted_at_unix_milliseconds r)
  ++ enc_list enc_request_entry (SBR.entries r).

Definition acknowledgement_code (a : SBA.t) : list Z :=
  to_be_bytes 2 (DeviceProtocolVersion.value (SBA.protocol_version a))
  ++ enc_text (ProtocolEnvironmentId.as_str (SBA.environment_id a))
  ++ enc_id (SBA.reader_id a)
  ++ enc_id (SBA.batch_id a)
  ++ enc_sequence (SBA.first_local_sequence_number a)
  ++ enc_sequence (SBA.last_local_sequence_number a)
  ++ to_be_bytes 8 (SBA.received_at_unix_milliseconds a)
  ++ enc_list enc_acknowledgement_entry (SBA.entries a).

(** Requests of the program: fields in the range of their types. *)
Record request_wf (r : SBR.t) : Prop := {
  request_version_wf : DeviceProtocolVersion.wf (SBR.protocol_version r);
  request_environment_wf : text_wf (ProtocolEnvironmentId.as_str (SBR.environment_id r));
  request_software_wf : text_wf (ReaderSoftwareVersion.as_str (SBR.reader_software_version r));
  request_first_wf : LocalSequenceNumber.wf (SBR.first_local_sequence_number r);
  request_last_wf : LocalSequenceNumber.wf (SBR.last_local_sequence_number r);
  request_submitted_wf : in_i64 (SBR.submitted_at_unix_milliseconds r);
  request_entries_wf : Forall request_entry_wf (SBR.entries r);
  request_count_wf : in_u64 (Z.of_nat (length (SBR.entries r)))
}.

Record acknowledgement_wf (a : SBA.t) : Prop := {
  ack_version_wf : DeviceProtocolVersion.wf (SBA.protocol_version a);
  ack_environment_wf : text_wf (ProtocolEnvironmentId.as_str (SBA.environment_id a));
  ack_first_wf : LocalSequenceNumber.wf (SBA.first_local_sequence_number a);
  ack_last_wf : LocalSequenceNumber.wf (SBA.last_local_sequence_number a);
  ack_received_wf : in_i64 (SBA.received_at_unix_milliseconds a);
  ack_entries_wf : Forall acknowledgement_entry_wf (SBA.entries a);
  ack_count_wf : in_u64 (Z.of_nat (length (SBA.entries a)))
}.

Lemma feed_request_code r :
  SynchronizationRequestFingerprint.feed r
  = (to_be_bytes 8 46 ++ FINGERPRINT_DOMAIN) ++ request_code r.
Proof.
  unfold SynchronizationRequestFingerprint.feed.
  rewrite (foldl_feed _ enc_request_entry).
  - unfold update_text, update_bytes, update_u64, update_u16, update_i64, update, request_code,
      enc_list, enc_id, enc_text, enc_sequence, str_len.
    by rewrite <- !app_assoc.
  - intros h e. unfold SynchronizationRequestFingerprint.feed_entry, update_text, update_bytes,
      update_u64, update, enc_request_entry, enc_id, enc_text, enc_sequence, str_len.
    by rewrite <- !app_assoc.
Qed.

Lemma feed_acknowledgement_code a :
  SynchronizationPayloadFingerprint.feed_acknowledgement a
  = (to_be_bytes 8 54 ++ ACKNOWLEDGEMENT_DOMAIN) ++ acknowledgement_code a.
Proof.
  unfold SynchronizationPayloadFingerprint.feed_acknowledgement.
  rewrite (foldl_feed _ enc_acknowledgement_entry).
  - unfold update_text, update_bytes, update_u64, update_u16, update_i64, update,
      acknowledgement_code, enc_list, enc_id, enc_text, enc_sequence, str_len.
    by rewrite <- !app_assoc.
  - intros h [i s o c n]. unfold SynchronizationPayloadFingerprint.feed_entry, update_text,
      update_bytes, update_i64, update_u64, update, enc_acknowledgement_entry, enc_id, enc_text,
      enc_sequence, str_len.
    destruct c, n; cbn [SAE.failure_category SAE.next_retry_at_unix_milliseconds enc_option];
      by rewrite <- !app_assoc.
Qed.

Lemma request_code_inj r1 r2 :
  request_wf r1 -> request_wf r2 -> request_code r1 = request_code r2 -> r1 = r2.
Proof using LL.
  intros [V1 E1 S1 F1 L1 T1 N1 C1] [V2 E2 S2 F2 L2 T2 N2 C2].
  destruct r1 as [[v1] [e1] i1 [s1] b1 f1 l1 t1 n1], r2 as [[v2] [e2] i2 [s2] b2 f2 l2 t2 n2].
  unfold DeviceProtocolVersion.wf in *. unfold request_code.
  cbn -[to_be_bytes in_i64 in_u64] in *. intros Heq.
  rewrite <- (app_nil_r (enc_list enc_request_entry n1)),
    <- (app_nil_r (enc_list enc_request_entry n2)) in Heq.
  apply prefix_code_u16 in Heq as [-> Heq]; [|int_lia..].
  apply prefix_code_text in Heq as [-> Heq]; [|done..].
  apply prefix_code_id in Heq as [-> Heq]; [|done..].
  apply prefix_code_text in Heq as [-> Heq]; [|done..].
  apply prefix_code_id in Heq as [-> Heq]; [|done..].
  apply prefix_code_sequence in Heq as [-> Heq]; [|done..].
  apply prefix_code_sequence in Heq as [-> Heq]; [|done..].
  apply prefix_code_i64 in Heq as [-> Heq]; [|done..].
  by apply (prefix_code_counted _ _ prefix_code_request_entry) in Heq as [-> _].
Qed.

Lemma acknowledgement_code_inj a b :
  acknowledgement_wf a -> acknowledgement_wf b ->
  acknowledgement_code a = acknowledgement_code b ->
  SBA.with_replayed a false = SBA.with_replayed b false.
Proof using LL.
  intros [V1 E1 F1 L1 T1 N1 C1] [V2 E2 F2 L2 T2 N2 C2].
  destruct a as [[v1] [e1] i1 b1 f1 l1 t1 p1 n1], b as [[v2] [e2] i2 b2 f2 l2 t2 p2 n2].
  unfold DeviceProtocolVersion.wf in *. unfold acknowledgement_code, SBA.with_replayed.
  cbn -[to_be_bytes in_i64 in_u64] in *. intros Heq.
  rewrite <- (app_nil_r (enc_list enc_acknowledgement_entry n1)),
    <- (app_nil_r (enc_list enc_acknowledgement_entry n2)) in Heq.
  apply prefix_code_u16 in Heq as [-> Heq]; [|int_lia..].
  apply prefix_code_text in Heq as [-> Heq]; [|done..].
  apply prefix_code_id in Heq as [-> Heq]; [|done..].
  apply prefix_code_id in Heq as [-> Heq]; [|done..].
  apply prefix_code_sequence in Heq as [-> Heq]; [|done..].
  apply prefix_code_sequence in Heq as [-> Heq]; [|done..].
  apply prefix_code_i64 in Heq as [-> Heq]; [|done..].
  by apply (prefix_code_counted _ _ prefix_code_acknowledgement_entry) in Heq as [-> _].
Qed.

End codes.

(** ** Hexadecimal lemmas *)

Definition is_hex_byte (c : Z) : bool :=
  ((48 <=? c) && (c <=? 57)) || ((97 <=? c) && (c <=? 102)) || ((65 <=? c) && (c <=? 70)).

Definition to_ascii_lowercase (c : Z) : Z := if (65 <=? c) && (c <=? 90) then c + 32 else c.

Definition hex_pair (byte : Z) : list Z :=
  [nth (Z.to_nat (Z.shiftr byte 4)) HEX_DIGITS 0; nth (Z.to_nat (Z.land byte 15)) HEX_DIGITS 0].

Definition join_nibbles (high low : Z) : Z := Z.lor (Z.land (Z.shiftl high 4) 255) low.

(** Checks over all bytes, and over all pairs of nibbles, by evaluation. *)
Lemma forall_below (n : nat) (P : Z -> bool) :
  forallb P (seqZ 0 (Z.of_nat n)) = true -> forall z, 0 <= z < Z.of_nat n -> P z = true.
Proof.
  rewrite forallb_forall. intros H z Hz. apply H. apply list_elem_of_In, elem_of_seqZ. lia.
Qed.

Definition digit_of (c : Z) : Z :=
  if c <=? 57 then c - 48 else if c <=? 70 then c - 65 + 10 else c - 97 + 10.

Lemma decode_digit_spec {E} (invalid : Z -> E) c p :
  decode_hexadecimal_digit invalid c p
  = if is_hex_byte c then Ok (digit_of c) else Err (invalid p).
Proof.
  unfold decode_hexadecimal_digit, is_hex_byte, digit_of.
  repeat match goal with |- context [?a <=? ?b] => destruct (Z.leb_spec a b); cbn end;
    done || lia.
Qed.

Lemma hex_byte_cases c : is_hex_byte c = true -> 48 <= c <= 102.
Proof. unfold is_hex_byte. lia. Qed.

Lemma hex_pair_spec b :
  is_byte b ->
  Forall (fun c => is_hex_byte c = true) (hex_pair b)
  /\ exists h l, hex_pair b = [h; l] /\ join_nibbles (digit_of h) (digit_of l) = b.
Proof.
  intros Hb.
  assert (H : forall z, 0 <= z < Z.of_nat 256 ->
    (forallb is_hex_byte (hex_pair z)
     && match hex_pair z with
        | [h; l] => join_nibbles (digit_of h) (digit_of l) =? z
        | _ => false
        end) = true) by (apply forall_below; vm_compute; reflexivity).
  specialize (H b Hb). apply andb_true_iff in H as [Hf Hj]. split.
  - apply Forall_forall. intros c Hc. rewrite forallb_forall in Hf.
    by apply Hf, list_elem_of_In.
  - unfold hex_pair in *. eexists _, _. split; [done|]. by apply Z.eqb_eq.
Qed.

Lemma join_nibbles_spec h l :
  is_hex_byte h = true -> is_hex_byte l = true ->
  is_byte (join_nibbles (digit_of h) (digit_of l))
  /\ hex_pair (join_nibbles (digit_of h) (digit_of l))
     = [to_ascii_lowercase h; to_ascii_lowercase l].
Proof.
  assert (H : forall x, 0 <= x < Z.of_nat 103 -> forallb (fun y =>
    negb (is_hex_byte x && is_hex_byte y) ||
    let j := join_nibbles (digit_of x) (digit_of y) in
    (0 <=? j) && (j <? 256)
    && bool_decide (hex_pair j = [to_ascii_lowercase x; to_ascii_lowercase y]))
    (seqZ 0 103) = true) by (apply forall_below; vm_compute; reflexivity).
  intros Hh Hl. pose proof (hex_byte_cases h Hh). pose proof (hex_byte_cases l Hl).
  specialize (H h ltac:(lia)). rewrite forallb_forall in H.
  specialize (H l ltac:(apply list_elem_of_In, elem_of_seqZ; lia)).
  rewrite Hh, Hl in H. cbn [andb negb orb] in H.
  apply andb_true_iff in H as [Hr Heq]. apply bool_decide_eq_true in Heq.
  split; [unfold is_byte; lia|done].
Qed.

Lemma to_hex_cons b bs : to_hex (b :: bs) = hex_pair b ++ to_hex bs.
Proof. done. Qed.

Lemma as_bytes_ascii s : Forall (fun c => c < 128) s -> as_bytes s = s.
Proof.
  induction 1 as [|c s Hc _ IH]; [done|]. rewrite as_bytes_cons, IH.
  unfold utf8_char. by destruct (Z.ltb_spec c 128); [|lia].
Qed.

Lemma to_hex_digits bs :
  Forall is_byte bs ->
  Forall (fun c => is_hex_byte c = true) (to_hex bs) /\ length (to_hex bs) = (2 * length bs)%nat.
Proof.
  induction 1 as [|b bs Hb _ [IH IHl]]; [by split; [constructor|]|].
  rewrite to_hex_cons. split.
  - apply Forall_app. split; [by apply hex_pair_spec|done].
  - rewrite length_app, IHl. cbn. lia.
Qed.

Lemma as_bytes_to_hex bs : Forall is_byte bs -> as_bytes (to_hex bs) = to_hex bs.
Proof.
  intros H. apply as_bytes_ascii. eapply Forall_impl; [by apply to_hex_digits|].
  intros c Hc. apply hex_byte_cases in Hc. lia.
Qed.

Lemma decode_bytes_to_hex {E} (invalid : Z -> E) i bs :
  Forall is_byte bs -> decode_bytes invalid i (to_hex bs) = Ok bs.
Proof.
  intros H. revert i. induction H as [|b bs Hb _ IH]; intros i; [done|].
  rewrite to_hex_cons. destruct (hex_pair_spec b Hb) as (Hd & h & l & Hp & Hj).
  rewrite Hp in Hd |- *.
  apply Forall_cons in Hd as [Hh Hd]. apply Forall_cons in Hd as [Hl _].
  cbn [app decode_bytes]. rewrite !decode_digit_spec, Hh, Hl. cbn [mbind Result_bind].
  rewrite IH. cbn [mbind Result_bind]. fold (join_nibbles (digit_of h) (digit_of l)).
  by rewrite Hj.
Qed.

Lemma decode_bytes_Ok {E} (invalid : Z -> E) n : forall i encoded bs,
  length encoded = (2 * n)%nat -> decode_bytes invalid i encoded = Ok bs ->
  length bs = n /\ Forall is_byte bs /\ to_hex bs = to_ascii_lowercase <$> encoded.
Proof.
  induction n as [|n IH]; intros i encoded bs Hlen.
  { destruct encoded; [|done]. by intros [= <-]. }
  destruct encoded as [|h [|l encoded]]; cbn [length] in Hlen; [lia|lia|].
  cbn [decode_bytes]. rewrite !decode_digit_spec.
  destruct (is_hex_byte h) eqn:Hh; [|done]. destruct (is_hex_byte l) eqn:Hl; [|done].
  cbn [mbind Result_bind]. rewrite Result_bind_Ok. intros (rest & Hrest & [= <-]).
  apply IH in Hrest as (Hn & Hb & Hx); [|lia].
  destruct (join_nibbles_spec h l Hh Hl) as [Hj Hp]. unfold join_nibbles in Hj, Hp.
  split_and!; [by cbn; f_equal|by constructor|]. by rewrite to_hex_cons, Hp, Hx.
Qed.

Lemma decode_bytes_Err {E} (invalid : Z -> E) n : forall i encoded e,
  length encoded = (2 * n)%nat -> decode_bytes invalid i encoded = Err e ->
  exists pre c post, encoded = pre ++ c :: post /\ is_hex_byte c = false
    /\ Forall (fun c => is_hex_byte c = true) pre
    /\ e = invalid (2 * i + Z.of_nat (length pre)).
Proof.
  induction n as [|n IH]; intros i encoded e Hlen.
  { by destruct encoded. }
  destruct encoded as [|h [|l encoded]]; cbn [length] in Hlen; [lia|lia|].
  cbn [decode_bytes]. rewrite !decode_digit_spec.
  destruct (is_hex_byte h) eqn:Hh; cbn [mbind Result_bind].
  2: { intros [= <-]. exists [], h, (l :: encoded). split_and!; [done..|constructor|].
       f_equal. cbn. lia. }
  destruct (is_hex_byte l) eqn:Hl; cbn [mbind Result_bind].
  2: { intros [= <-]. exists [h], l, encoded. split_and!; [done..|by repeat constructor|].
       f_equal. cbn. lia. }
  rewrite Result_bind_Err. intros [Hr|(? & _ & ?)]; [|done].
  apply IH in Hr as (pre & c & post & -> & Hc & Hpre & ->); [|lia].
  exists (h :: l :: pre), c, post. split_and!; [done..|by repeat constructor|].
  f_equal. cbn [length]. lia.
Qed.

(** What both [FromStr] implementations do. *)
Definition from_hex_spec {E} (invalid_length invalid : Z -> E) (value : Str)
    (r : Result E (list Z)) : Prop :=
  match r with
  | Ok bs => length bs = 32%nat /\ Forall is_byte bs
      /\ to_hex bs = to_ascii_lowercase <$> as_bytes value
  | Err e =>
      (e = invalid_length (str_len value) /\ str_len value <> 64)
      \/ (str_len value = 64 /\ exists pre c post, as_bytes value = pre ++ c :: post
            /\ is_hex_byte c = false /\ Forall (fun c => is_hex_byte c = true) pre
            /\ e = invalid (Z.of_nat (length pre)))
  end.

Lemma from_hex_ok {E} (invalid_length invalid : Z -> E) value :
  from_hex_spec invalid_length invalid value (from_hex invalid_length invalid value).
Proof.
  unfold from_hex, SYNCHRONIZATION_FINGERPRINT_HEX_LENGTH.
  destruct (Z.eqb_spec (str_len value) 64) as [Hl|Hl]; cbn [negb]; [|by left].
  assert (Hn : length (as_bytes value) = (2 * 32)%nat) by (unfold str_len in Hl; lia).
  destruct (decode_bytes invalid 0 (as_bytes value)) as [bs|e] eqn:Hd; cbn.
  - by eapply decode_bytes_Ok.
  - right. split; [done|]. eapply decode_bytes_Err in Hd as (pre & c & post & H); [|done].
    by exists pre, c, post.
Qed.

Lemma from_hex_to_hex {E} (invalid_length invalid : Z -> E) bs :
  length bs = 32%nat -> Forall is_byte bs ->
  str_len (to_hex bs) = 64 /\ from_hex invalid_length invalid (to_hex bs) = Ok bs.
Proof.
  intros Hl Hb. destruct (to_hex_digits bs Hb) as [_ Hlen].
  assert (Hs : str_len (to_hex bs) = 64)
    by (unfold str_len; rewrite as_bytes_to_hex, Hlen, Hl by done; done).
  split; [done|]. unfold from_hex. rewrite Hs. cbn [negb Z.eqb].
  rewrite as_bytes_to_hex by done. by apply decode_bytes_to_hex.
Qed.

(** ** Properties *)

(** Printed fingerprints read back.  For both fingerprint types,
    [to_string] of 32 bytes is 64 characters and [from_str] returns the same
    bytes; whatever [from_str] accepts is a 32-byte fingerprint that prints as
    the text in lower case; and it refuses a text for its length, or names
    the first position that is not a hexadecimal digit. *)
Theorem fingerprint_text_roundtrip :
  (forall f, SynchronizationRequestFingerprint.wf f ->
     str_len (SynchronizationRequestFingerprint.to_string f) = 64
     /\ SynchronizationRequestFingerprint.from_str
          (SynchronizationRequestFingerprint.to_string f) = Ok f)
  /\ (forall f, SynchronizationPayloadFingerprint.wf f ->
     str_len (SynchronizationPayloadFingerprint.to_string f) = 64
     /\ SynchronizationPayloadFingerprint.from_str
          (SynchronizationPayloadFingerprint.to_string f) = Ok f)
  /\ (forall s, from_hex_spec SynchronizationFingerprintParseError.InvalidLength
        SynchronizationFingerprintParseError.InvalidHexadecimalCharacter s
        (map_ok SynchronizationRequestFingerprint.bytes
           (SynchronizationRequestFingerprint.from_str s)))
  /\ (forall s, from_hex_spec SynchronizationPayloadFingerprintParseError.InvalidLength
        SynchronizationPayloadFingerprintParseError.InvalidHexadecimalCharacter s
        (map_ok SynchronizationPayloadFingerprint.bytes
           (SynchronizationPayloadFingerprint.from_str s))).
Proof.
  unfold SynchronizationRequestFingerprint.from_str, SynchronizationPayloadFingerprint.from_str.
  split_and!.
  1-2: intros [bs] [Hl Hb]; cbn in Hl, Hb |- *;
    destruct (from_hex_to_hex (E := Z) id id bs Hl Hb) as [Hs _]; split; [exact Hs|];
    by rewrite (proj2 (from_hex_to_hex _ _ bs Hl Hb)).
  all: intros s; match goal with |- from_hex_spec ?f ?g _ (map_ok _ (map_ok _ ?r)) =>
    pose proof (from_hex_ok f g s); by destruct r end.
Qed.

(** C38. A request fingerprint identifies the request.  [calculate] hashes a
    pre-image from which every field of the request can be read back, so two
    requests with one fingerprint are the same request, or else their
    pre-images are a SHA-256 collision.  The fingerprint has 32 bytes. *)
Theorem request_fingerprint_identity `{UuidLaws} `{Sha256Laws} r1 r2 :
  request_wf r1 -> request_wf r2 ->
  SynchronizationRequestFingerprint.wf (SynchronizationRequestFingerprint.calculate r1)
  /\ (SynchronizationRequestFingerprint.calculate r1
        = SynchronizationRequestFingerprint.calculate r2 ->
      r1 = r2
      \/ (SynchronizationRequestFingerprint.feed r1 <> SynchronizationRequestFingerprint.feed r2
          /\ sha256 (SynchronizationRequestFingerprint.feed r1)
             = sha256 (SynchronizationRequestFingerprint.feed r2))).
Proof.
  intros H1' H2'. split; [split; cbn; [apply sha256_length|apply sha256_bytes]|].
  unfold SynchronizationRequestFingerprint.calculate. intros [= Heq].
  destruct (decide (SynchronizationRequestFingerprint.feed r1
                    = SynchronizationRequestFingerprint.feed r2)) as [Hf|Hf]; [|by right].
  left. rewrite !feed_request_code in Hf. apply app_inv_head in Hf.
  by apply request_code_inj.
Qed.

(** An acknowledgement fingerprint identifies the durable content: the
    replay marker does not enter it, and two acknowledgements with one
    fingerprint differ at most in the marker, unless their pre-images collide
    under SHA-256.  Requests, acknowledgements and envelopes never share a
    pre-image. *)
Theorem acknowledgement_fingerprint_identity `{UuidLaws} `{Sha256Laws} a b :
  acknowledgement_wf a -> acknowledgement_wf b ->
  (forall replayed,
     SynchronizationPayloadFingerprint.for_acknowledgement (SBA.with_replayed a replayed)
     = SynchronizationPayloadFingerprint.for_acknowledgement a)
  /\ (SynchronizationPayloadFingerprint.for_acknowledgement a
        = SynchronizationPayloadFingerprint.for_acknowledgement b ->
      SBA.with_replayed a false = SBA.with_replayed b false
      \/ (SynchronizationPayloadFingerprint.feed_acknowledgement a
            <> SynchronizationPayloadFingerprint.feed_acknowledgement b
          /\ sha256 (SynchronizationPayloadFingerprint.feed_acknowledgement a)
             = sha256 (SynchronizationPayloadFingerprint.feed_acknowledgement b)))
  /\ (forall request envelope,
       SynchronizationPayloadFingerprint.feed_acknowledgement a
         <> SynchronizationRequestFingerprint.feed request
       /\ SynchronizationPayloadFingerprint.feed_acknowledgement a
         <> SynchronizationPayloadFingerprint.feed_envelope envelope
       /\ SynchronizationRequestFingerprint.feed request
         <> SynchronizationPayloadFingerprint.feed_envelope envelope).
Proof.
  intros H1' H2'. split; [done|]. split.
  - unfold SynchronizationPayloadFingerprint.for_acknowledgement,
      SynchronizationPayloadFingerprint.finish. intros [= Heq].
    destruct (decide (SynchronizationPayloadFingerprint.feed_acknowledgement a
      = SynchronizationPayloadFingerprint.feed_acknowledgement b)) as [Hf|Hf]; [|by right].
    left. rewrite !feed_acknowledgement_code in Hf. apply app_inv_head in Hf.
    by apply acknowledgement_code_inj.
  - intros request envelope. rewrite feed_acknowledgement_code, feed_request_code.
    by split_and!; intros Hf; apply (f_equal (take 8)) in Hf; vm_compute in Hf.
Qed.

(** ** Witnesses *)

(** A 32-byte digest: the first bytes fed, padded.  (A stand-in for
    evaluation; [sha2] has the same interface.) *)
Definition sample_digest (bs : list Z) : list Z :=
  take 32 (((fun b => b `mod` 256) <$> bs) ++ replicate 32 0).

#[export] Instance sample_sha256 : Sha256Library := {| sha256 := sample_digest |}.

#[export] Instance sample_sha256_laws : Sha256Laws.
Proof.
  split; intros bs; cbn [sha256 sample_sha256]; unfold sample_digest.
  - rewrite length_take, length_app, length_replicate. lia.
  - apply Forall_take, Forall_app. split.
    + apply Forall_fmap, Forall_true. intros b. unfold is_byte. cbn.
      pose proof (Z.mod_pos_bound b 256). lia.
    + apply Forall_replicate. unfold is_byte. lia.
Qed.

(** Evaluates the side conditions of the sample messages. *)
Ltac sample_text := split; [apply lit_wf | vm_compute; split; discriminate].

Lemma sample_request_entries_wf : Forall request_entry_wf (SBRD.entries sample_request).
Proof.
  constructor; [|constructor; [|constructor]];
    (split; [vm_compute; split; discriminate | sample_text]).
Qed.

Lemma sample_request_wf : request_wf (SBR.of_definition sample_request).
Proof.
  constructor; [| | | | | |exact sample_request_entries_wf|].
  2-3: sample_text.
  all: vm_compute; split; discriminate.
Qed.

Lemma sample_acknowledgement_wf : acknowledgement_wf (SBA.of_definition sample_acknowledgement).
Proof.
  constructor; [| | | | |constructor; [|constructor; [|constructor]]|].
  2: sample_text.
  5-6: split; cbn [SAE.next_retry_at_unix_milliseconds]; try exact I.
  all: vm_compute; split; discriminate.
Qed.

Lemma request_fingerprint_identity_witness :
  SynchronizationRequestFingerprint.wf
    (SynchronizationRequestFingerprint.calculate (SBR.of_definition sample_request)).
Proof.
  apply (request_fingerprint_identity (SBR.of_definition sample_request)
           (SBR.of_definition sample_request)); apply sample_request_wf.
Defined.

Lemma acknowledgement_fingerprint_identity_witness :
  SynchronizationPayloadFingerprint.for_acknowledgement
    (SBA.with_replayed (SBA.of_definition sample_acknowledgement) true)
  = SynchronizationPayloadFingerprint.for_acknowledgement
      (SBA.of_definition sample_acknowledgement).
Proof.
  apply (acknowledgement_fingerprint_identity (SBA.of_definition sample_acknowledgement)
           (SBA.of_definition sample_acknowledgement)); apply sample_acknowledgement_wf.
Defined.
