(* ===== verification/MessageFormats.v ===== *)
(** * The JSON of the messages and of stored values (the serde derives and
    [Deserialize] implementations of crates/device-protocol/src and of
    crates/domain/src)

    The format of every type that the messages between reader and backend and
    the stored JSON columns are made of.  A [*_format] is the [Serde] of its
    type: derived formats list the fields or variants of the type, written
    implementations read the inner value and pass it to the validating
    constructor, as the source does.  Errors are not told apart: every failure
    to decode is the same to the callers. *)

From S2P Require Import Prelude Text JsonReference DomainMoney DomainIdentifier DomainAccount.
From S2P Require Import DomainCredential DomainEquipment DomainTransaction DomainEvents.
From S2P Require Import DeviceProtocolValues DeviceProtocolSynchronization DeviceProtocolFingerprint.
From S2P Require Import SerdeJson.

Module CTE := CanonicalTransactionEnvelope.
Module CP := CredentialPresentation.
Module DEP := DomainEventPayload.

(** ** Domain values *)

Definition currency_name (self : Currency.t) : Str :=
  match self with
  | Currency.Usd => lit "Usd"
  | Currency.Cad => lit "Cad"
  | Currency.Eur => lit "Eur"
  | Currency.Gbp => lit "Gbp"
  end.

Definition named {A} (name : A -> Str) (values : list A) : list (Str * A) :=
  (fun a => (name a, a)) <$> values.

Definition currency_format : Serde Currency.t :=
  variant_serde (named currency_name [Currency.Usd; Currency.Cad; Currency.Eur; Currency.Gbp])
    currency_name.
#[global] Existing Instance currency_format.

Definition money_format : Serde Money.t :=
  struct_serde [lit "minor_units"; lit "currency"]
    (fun self => [serialize (Serde := serde_i64) (Money.minor_units self); serialize (Money.currency self)])
    (fun fields =>
       match fields with
       | [minor_units; currency] =>
           minor_units ← required (H := serde_i64) minor_units;
           currency ← required currency;
           Some (Money.from_minor_units minor_units currency)
       | _ => None
       end).
#[global] Existing Instance money_format.

Definition identifier_format `{UuidLibrary} (k : IdentifierKind) : Serde (Identifier k) :=
  newtype_serde
    (fun v => text ← deserialize_string v; result_ok (parse_str text))
    (fun value => result_ok (try_from_uuid k value))
    (fun self => JString (identifier_to_string self)).
#[global] Existing Instance identifier_format.

Definition local_sequence_number_format : Serde LocalSequenceNumber.t :=
  newtype_serde (deserialize_integer in_u64) (fun z => result_ok (LocalSequenceNumber.new z))
    (fun self => JInteger (LocalSequenceNumber.value self)).
#[global] Existing Instance local_sequence_number_format.

Definition fare_policy_version_format : Serde FarePolicyVersion.t :=
  newtype_serde (deserialize_integer in_u64) (fun z => result_ok (FarePolicyVersion.new z))
    (fun self => JInteger (FarePolicyVersion.value self)).
#[global] Existing Instance fare_policy_version_format.

Definition event_time_format : Serde EventTime.t :=
  newtype_serde (deserialize_integer in_i64) (fun z => result_ok (EventTime.from_unix_milliseconds z))
    (fun self => JInteger (EventTime.unix_milliseconds self)).
#[global] Existing Instance event_time_format.

Definition processing_mode_name (self : FareProcessingMode.t) : Str :=
  match self with
  | FareProcessingMode.Online => lit "Online"
  | FareProcessingMode.Offline => lit "Offline"
  end.

Definition processing_mode_format : Serde FareProcessingMode.t :=
  variant_serde (named processing_mode_name [FareProcessingMode.Online; FareProcessingMode.Offline])
    processing_mode_name.
#[global] Existing Instance processing_mode_format.

Definition approval_reason_name (self : FareApprovalReason.t) : Str :=
  match self with
  | FareApprovalReason.StandardFare => lit "StandardFare"
  | FareApprovalReason.Transfer => lit "Transfer"
  | FareApprovalReason.TransitProduct => lit "TransitProduct"
  | FareApprovalReason.FareCap => lit "FareCap"
  | FareApprovalReason.OfflineProvisional => lit "OfflineProvisional"
  end.

Definition approval_reason_format : Serde FareApprovalReason.t :=
  variant_serde
    (named approval_reason_name
       [FareApprovalReason.StandardFare; FareApprovalReason.Transfer;
        FareApprovalReason.TransitProduct; FareApprovalReason.FareCap;
        FareApprovalReason.OfflineProvisional])
    approval_reason_name.
#[global] Existing Instance approval_reason_format.

Definition rejection_reason_name (self : FareRejectionReason.t) : Str :=
  match self with
  | FareRejectionReason.CredentialRevoked => lit "CredentialRevoked"
  | FareRejectionReason.CredentialExpired => lit "CredentialExpired"
  | FareRejectionReason.AccountSuspended => lit "AccountSuspended"
  | FareRejectionReason.ReaderDisabled => lit "ReaderDisabled"
  | FareRejectionReason.InvalidSignature => lit "InvalidSignature"
  | FareRejectionReason.UnsupportedProtocol => lit "UnsupportedProtocol"
  | FareRejectionReason.InsufficientStoredValue => lit "InsufficientStoredValue"
  | FareRejectionReason.ProductInvalid => lit "ProductInvalid"
  | FareRejectionReason.OfflineLimitExceeded => lit "OfflineLimitExceeded"
  | FareRejectionReason.StalePolicy => lit "StalePolicy"
  | FareRejectionReason.StaleRevocationData => lit "StaleRevocationData"
  end.

Definition rejection_reason_format : Serde FareRejectionReason.t :=
  variant_serde
    (named rejection_reason_name
       [FareRejectionReason.CredentialRevoked; FareRejectionReason.CredentialExpired;
        FareRejectionReason.AccountSuspended; FareRejectionReason.ReaderDisabled;
        FareRejectionReason.InvalidSignature; FareRejectionReason.UnsupportedProtocol;
        FareRejectionReason.InsufficientStoredValue; FareRejectionReason.ProductInvalid;
        FareRejectionReason.OfflineLimitExceeded; FareRejectionReason.StalePolicy;
        FareRejectionReason.StaleRevocationData])
    rejection_reason_name.
#[global] Existing Instance rejection_reason_format.

(** [FareDecisionRepresentation], then [approved] for an approval. *)
Definition decode_decision (tag : Str) (body : Json) : option FareDecision.t :=
  if decide (tag = lit "Approved") then
    fields ← struct_fields [lit "charged_amount"; lit "reason"] body;
    match fields with
    | [charged_amount; reason] =>
        charged_amount ← required charged_amount;
        reason ← required reason;
        result_ok (FareDecision.deserialize (FareDecision.Approved charged_amount reason))
    | _ => None
    end
  else if decide (tag = lit "Rejected") then
    fields ← struct_fields [lit "reason"] body;
    match fields with
    | [reason] =>
        reason ← required reason;
        result_ok (FareDecision.deserialize (FareDecision.Rejected reason))
    | _ => None
    end
  else None.

Definition fare_decision_format : Serde FareDecision.t := {|
  serialize self :=
    match self with
    | FareDecision.Approved charged_amount reason =>
        JObject [(lit "Approved", JObject [(lit "charged_amount", serialize charged_amount);
                                           (lit "reason", serialize reason)])]
    | FareDecision.Rejected reason =>
        JObject [(lit "Rejected", JObject [(lit "reason", serialize reason)])]
    end;
  deserialize := deserialize_tagged decode_decision
|}.
#[global] Existing Instance fare_decision_format.

(** ** Domain events *)

Definition account_status_name (self : TransitAccountStatus.t) : Str :=
  match self with
  | TransitAccountStatus.Active => lit "Active"
  | TransitAccountStatus.Suspended => lit "Suspended"
  | TransitAccountStatus.Closed => lit "Closed"
  end.

Definition account_status_format : Serde TransitAccountStatus.t :=
  variant_serde
    (named account_status_name
       [TransitAccountStatus.Active; TransitAccountStatus.Suspended; TransitAccountStatus.Closed])
    account_status_name.
#[global] Existing Instance account_status_format.

Definition balance_format : Serde StoredValueBalance.t :=
  newtype_serde deserialize (fun amount => result_ok (StoredValueBalance.deserialize amount))
    (fun self => serialize (StoredValueBalance.amount self)).
#[global] Existing Instance balance_format.

Definition credential_kind_name (self : FareCredentialKind.t) : Str :=
  match self with
  | FareCredentialKind.Card => lit "Card"
  | FareCredentialKind.Mobile => lit "Mobile"
  | FareCredentialKind.DevelopmentTestToken => lit "DevelopmentTestToken"
  end.

Definition credential_kind_format : Serde FareCredentialKind.t :=
  variant_serde
    (named credential_kind_name
       [FareCredentialKind.Card; FareCredentialKind.Mobile; FareCredentialKind.DevelopmentTestToken])
    credential_kind_name.
#[global] Existing Instance credential_kind_format.

Definition credential_status_name (self : FareCredentialStatus.t) : Str :=
  match self with
  | FareCredentialStatus.Pending => lit "Pending"
  | FareCredentialStatus.Active => lit "Active"
  | FareCredentialStatus.Suspended => lit "Suspended"
  | FareCredentialStatus.Revoked => lit "Revoked"
  | FareCredentialStatus.Expired => lit "Expired"
  | FareCredentialStatus.Replaced => lit "Replaced"
  end.

Definition credential_status_format : Serde FareCredentialStatus.t :=
  variant_serde
    (named credential_status_name
       [FareCredentialStatus.Pending; FareCredentialStatus.Active; FareCredentialStatus.Suspended;
        FareCredentialStatus.Revoked; FareCredentialStatus.Expired; FareCredentialStatus.Replaced])
    credential_status_name.
#[global] Existing Instance credential_status_format.

Definition reader_status_name (self : ReaderEquipmentStatus.t) : Str :=
  match self with
  | ReaderEquipmentStatus.PendingRegistration => lit "PendingRegistration"
  | ReaderEquipmentStatus.Active => lit "Active"
  | ReaderEquipmentStatus.Offline => lit "Offline"
  | ReaderEquipmentStatus.Disabled => lit "Disabled"
  | ReaderEquipmentStatus.Revoked => lit "Revoked"
  | ReaderEquipmentStatus.Decommissioned => lit "Decommissioned"
  end.

Definition reader_status_format : Serde ReaderEquipmentStatus.t :=
  variant_serde
    (named reader_status_name
       [ReaderEquipmentStatus.PendingRegistration; ReaderEquipmentStatus.Active;
        ReaderEquipmentStatus.Offline; ReaderEquipmentStatus.Disabled;
        ReaderEquipmentStatus.Revoked; ReaderEquipmentStatus.Decommissioned])
    reader_status_name.
#[global] Existing Instance reader_status_format.

Definition change_reason_name (self : StoredValueChangeReason.t) : Str :=
  match self with
  | StoredValueChangeReason.SimulatedFundsCredit => lit "SimulatedFundsCredit"
  | StoredValueChangeReason.FareDebit => lit "FareDebit"
  | StoredValueChangeReason.AdministrativeAdjustment => lit "AdministrativeAdjustment"
  | StoredValueChangeReason.ReconciliationAdjustment => lit "ReconciliationAdjustment"
  end.

Definition change_reason_format : Serde StoredValueChangeReason.t :=
  variant_serde
    (named change_reason_name
       [StoredValueChangeReason.SimulatedFundsCredit; StoredValueChangeReason.FareDebit;
        StoredValueChangeReason.AdministrativeAdjustment;
        StoredValueChangeReason.ReconciliationAdjustment])
    change_reason_name.
#[global] Existing Instance change_reason_format.

Section payload.
Context `{UuidLibrary}.

(** A variant, and the names and values of its fields. *)
Definition payload_members (self : DEP.t) : Str * list (Str * Json) :=
  match self with
  | DEP.TransitAccountCreated account_id rider_id initial_balance =>
      (lit "TransitAccountCreated",
       [(lit "account_id", serialize account_id); (lit "rider_id", serialize rider_id);
        (lit "initial_balance", serialize initial_balance)])
  | DEP.TransitAccountStatusChanged account_id previous_status current_status =>
      (lit "TransitAccountStatusChanged",
       [(lit "account_id", serialize account_id); (lit "previous_status", serialize previous_status);
        (lit "current_status", serialize current_status)])
  | DEP.StoredValueChanged account_id previous_balance current_balance reason =>
      (lit "StoredValueChanged",
       [(lit "account_id", serialize account_id); (lit "previous_balance", serialize previous_balance);
        (lit "current_balance", serialize current_balance); (lit "reason", serialize reason)])
  | DEP.FareCredentialIssued credential_id account_id kind =>
      (lit "FareCredentialIssued",
       [(lit "credential_id", serialize credential_id); (lit "account_id", serialize account_id);
        (lit "kind", serialize kind)])
  | DEP.FareCredentialStatusChanged credential_id previous_status current_status =>
      (lit "FareCredentialStatusChanged",
       [(lit "credential_id", serialize credential_id);
        (lit "previous_status", serialize previous_status);
        (lit "current_status", serialize current_status)])
  | DEP.ReaderEquipmentRegistered reader_id equipment_key_id =>
      (lit "ReaderEquipmentRegistered",
       [(lit "reader_id", serialize reader_id);
        (lit "equipment_key_id", serialize equipment_key_id)])
  | DEP.ReaderEquipmentStatusChanged reader_id previous_status current_status =>
      (lit "ReaderEquipmentStatusChanged",
       [(lit "reader_id", serialize reader_id); (lit "previous_status", serialize previous_status);
        (lit "current_status", serialize current_status)])
  | DEP.EquipmentKeyRotated reader_id previous_key_id current_key_id =>
      (lit "EquipmentKeyRotated",
       [(lit "reader_id", serialize reader_id); (lit "previous_key_id", serialize previous_key_id);
        (lit "current_key_id", serialize current_key_id)])
  | DEP.FareTransactionDecided transaction_id decision =>
      (lit "FareTransactionDecided",
       [(lit "transaction_id", serialize transaction_id); (lit "decision", serialize decision)])
  | DEP.FareTransactionReconciled transaction_id =>
      (lit "FareTransactionReconciled", [(lit "transaction_id", serialize transaction_id)])
  end.

Definition decode_payload (tag : Str) (body : Json) : option DEP.t :=
  if decide (tag = lit "TransitAccountCreated") then
    fields ← struct_fields [lit "account_id"; lit "rider_id"; lit "initial_balance"] body;
    match fields with
    | [account_id; rider_id; initial_balance] =>
        account_id ← required account_id;
        rider_id ← required rider_id;
        initial_balance ← required initial_balance;
        Some (DEP.TransitAccountCreated account_id rider_id initial_balance)
    | _ => None
    end
  else if decide (tag = lit "TransitAccountStatusChanged") then
    fields ← struct_fields [lit "account_id"; lit "previous_status"; lit "current_status"] body;
    match fields with
    | [account_id; previous_status; current_status] =>
        account_id ← required account_id;
        previous_status ← required previous_status;
        current_status ← required current_status;
        Some (DEP.TransitAccountStatusChanged account_id previous_status current_status)
    | _ => None
    end
  else if decide (tag = lit "StoredValueChanged") then
    fields ← struct_fields [lit "account_id"; lit "previous_balance"; lit "current_balance"; lit "reason"] body;
    match fields with
    | [account_id; previous_balance; current_balance; reason] =>
        account_id ← required account_id;
        previous_balance ← required previous_balance;
        current_balance ← required current_balance;
        reason ← required reason;
        Some (DEP.StoredValueChanged account_id previous_balance current_balance reason)
    | _ => None
    end
  else if decide (tag = lit "FareCredentialIssued") then
    fields ← struct_fields [lit "credential_id"; lit "account_id"; lit "kind"] body;
    match fields with
    | [credential_id; account_id; kind] =>
        credential_id ← required credential_id;
        account_id ← required account_id;
        kind ← required kind;
        Some (DEP.FareCredentialIssued credential_id account_id kind)
    | _ => None
    end
  else if decide (tag = lit "FareCredentialStatusChanged") then
    fields ← struct_fields [lit "credential_id"; lit "previous_status"; lit "current_status"] body;
    match fields with
    | [credential_id; previous_status; current_status] =>
        credential_id ← required credential_id;
        previous_status ← required previous_status;
        current_status ← required current_status;
        Some (DEP.FareCredentialStatusChanged credential_id previous_status current_status)
    | _ => None
    end
  else if decide (tag = lit "ReaderEquipmentRegistered") then
    fields ← struct_fields [lit "reader_id"; lit "equipment_key_id"] body;
    match fields with
    | [reader_id; equipment_key_id] =>
        reader_id ← required reader_id;
        equipment_key_id ← required equipment_key_id;
        Some (DEP.ReaderEquipmentRegistered reader_id equipment_key_id)
    | _ => None
    end
  else if decide (tag = lit "ReaderEquipmentStatusChanged") then
    fields ← struct_fields [lit "reader_id"; lit "previous_status"; lit "current_status"] body;
    match fields with
    | [reader_id; previous_status; current_status] =>
        reader_id ← required reader_id;
        previous_status ← required previous_status;
        current_status ← required current_status;
        Some (DEP.ReaderEquipmentStatusChanged reader_id previous_status current_status)
    | _ => None
    end
  else if decide (tag = lit "EquipmentKeyRotated") then
    fields ← struct_fields [lit "reader_id"; lit "previous_key_id"; lit "current_key_id"] body;
    match fields with
    | [reader_id; previous_key_id; current_key_id] =>
        reader_id ← required reader_id;
        previous_key_id ← required previous_key_id;
        current_key_id ← required current_key_id;
        Some (DEP.EquipmentKeyRotated reader_id previous_key_id current_key_id)
    | _ => None
    end
  else if decide (tag = lit "FareTransactionDecided") then
    fields ← struct_fields [lit "transaction_id"; lit "decision"] body;
    match fields with
    | [transaction_id; decision] =>
        transaction_id ← required transaction_id;
        decision ← required decision;
        Some (DEP.FareTransactionDecided transaction_id decision)
    | _ => None
    end
  else if decide (tag = lit "FareTransactionReconciled") then
    fields ← struct_fields [lit "transaction_id"] body;
    match fields with
    | [transaction_id] =>
        transaction_id ← required transaction_id;
        Some (DEP.FareTransactionReconciled transaction_id)
    | _ => None
    end
  else None.

Definition payload_format : Serde DEP.t := {|
  serialize self :=
    let '(variant, members) := payload_members self in JObject [(variant, JObject members)];
  deserialize := deserialize_tagged decode_payload
|}.
#[global] Existing Instance payload_format.

End payload.

(** ** Values of the protocol *)

Definition protocol_version_format : Serde DeviceProtocolVersion.t :=
  newtype_serde (deserialize_integer in_u16) (fun z => result_ok (DeviceProtocolVersion.new z))
    (fun self => JInteger (DeviceProtocolVersion.value self)).
#[global] Existing Instance protocol_version_format.

Definition protocol_zone_format : Serde ProtocolZoneId.t :=
  newtype_serde (deserialize_integer in_u16) (fun z => result_ok (ProtocolZoneId.new z))
    (fun self => JInteger (ProtocolZoneId.value self)).
#[global] Existing Instance protocol_zone_format.

Definition credential_medium_name (self : CredentialMedium.t) : Str :=
  match self with
  | CredentialMedium.Card => lit "Card"
  | CredentialMedium.Mobile => lit "Mobile"
  end.

Definition credential_medium_format : Serde CredentialMedium.t :=
  variant_serde (named credential_medium_name [CredentialMedium.Card; CredentialMedium.Mobile])
    credential_medium_name.
#[global] Existing Instance credential_medium_format.

Definition environment_id_format : Serde ProtocolEnvironmentId.t :=
  newtype_serde deserialize_string (fun text => result_ok (ProtocolEnvironmentId.new text))
    (fun self => JString (ProtocolEnvironmentId.as_str self)).
#[global] Existing Instance environment_id_format.

Definition software_version_format : Serde ReaderSoftwareVersion.t :=
  newtype_serde deserialize_string (fun text => result_ok (ReaderSoftwareVersion.new text))
    (fun self => JString (ReaderSoftwareVersion.as_str self)).
#[global] Existing Instance software_version_format.

Definition envelope_format `{JsonLibrary} : Serde CTE.t :=
  newtype_serde deserialize_string (fun text => result_ok (CTE.from_json text))
    (fun self => JString (CTE.as_str self)).
#[global] Existing Instance envelope_format.

Definition request_fingerprint_format : Serde SynchronizationRequestFingerprint.t :=
  newtype_serde deserialize_string
    (fun text => result_ok (SynchronizationRequestFingerprint.from_str text))
    (fun self => JString (to_hex (SynchronizationRequestFingerprint.bytes self))).
#[global] Existing Instance request_fingerprint_format.

Definition payload_fingerprint_format : Serde SynchronizationPayloadFingerprint.t :=
  newtype_serde deserialize_string
    (fun text => result_ok (SynchronizationPayloadFingerprint.from_str text))
    (fun self => JString (to_hex (SynchronizationPayloadFingerprint.bytes self))).
#[global] Existing Instance payload_fingerprint_format.

(** [rename_all = "snake_case"]. *)
Definition failure_category_format : Serde SynchronizationFailureCategory.t :=
  variant_serde
    (named SynchronizationFailureCategory.as_str
       [SynchronizationFailureCategory.NetworkTimeout;
        SynchronizationFailureCategory.ConnectionFailure;
        SynchronizationFailureCategory.ResponseDecodeFailure;
        SynchronizationFailureCategory.PayloadTooLarge;
        SynchronizationFailureCategory.UnsupportedProtocol;
        SynchronizationFailureCategory.ReaderNotRegistered;
        SynchronizationFailureCategory.ReaderNotOperational;
        SynchronizationFailureCategory.EnvironmentMismatch;
        SynchronizationFailureCategory.BatchIdentityConflict;
        SynchronizationFailureCategory.BatchRangeMismatch;
        SynchronizationFailureCategory.EntryOrderMismatch;
        SynchronizationFailureCategory.TransactionIdentityConflict;
        SynchronizationFailureCategory.BackendTemporarilyUnavailable;
        SynchronizationFailureCategory.BackendValidationFailure;
        SynchronizationFailureCategory.ManualReviewRequired])
    SynchronizationFailureCategory.as_str.
#[global] Existing Instance failure_category_format.

Definition outcome_name (self : SynchronizationEntryOutcome.t) : Str :=
  match self with
  | SynchronizationEntryOutcome.Acknowledged => lit "acknowledged"
  | SynchronizationEntryOutcome.RetryableFailure => lit "retryable_failure"
  | SynchronizationEntryOutcome.PermanentFailure => lit "permanent_failure"
  | SynchronizationEntryOutcome.ManualReview => lit "manual_review"
  end.

Definition outcome_format : Serde SynchronizationEntryOutcome.t :=
  variant_serde
    (named outcome_name
       [SynchronizationEntryOutcome.Acknowledged; SynchronizationEntryOutcome.RetryableFailure;
        SynchronizationEntryOutcome.PermanentFailure; SynchronizationEntryOutcome.ManualReview])
    outcome_name.
#[global] Existing Instance outcome_format.

(** ** Messages *)

Section messages.
Context `{UuidLibrary} `{JsonLibrary}.

Definition presentation_format : Serde CP.t :=
  struct_serde
    [lit "protocol_version"; lit "transaction_id"; lit "reader_id"; lit "local_sequence_number";
     lit "credential_id"; lit "credential_medium"; lit "event_time"; lit "origin_zone";
     lit "destination_zone"; lit "processing_mode"]
    (fun self =>
       [serialize (CP.protocol_version self); serialize (CP.transaction_id self);
        serialize (CP.reader_id self); serialize (CP.local_sequence_number self);
        serialize (CP.credential_id self); serialize (CP.credential_medium self);
        serialize (CP.event_time self); serialize (CP.origin_zone self);
        serialize (CP.destination_zone self); serialize (CP.processing_mode self)])
    (fun fields =>
       match fields with
       | [version; transaction; reader; sequence; credential; medium; time; origin; destination;
          mode] =>
           version ← required version;
           transaction ← required transaction;
           reader ← required reader;
           sequence ← required sequence;
           credential ← required credential;
           medium ← required medium;
           time ← required time;
           origin ← required origin;
           destination ← required destination;
           mode ← required mode;
           Some (CP.mk version transaction reader sequence credential medium time origin
                   destination mode)
       | _ => None
       end).

Definition request_entry_format : Serde SRE.t :=
  struct_serde [lit "transaction_id"; lit "local_sequence_number"; lit "transaction_envelope"]
    (fun self =>
       [serialize (SRE.transaction_id self); serialize (SRE.local_sequence_number self);
        serialize (SRE.transaction_envelope self)])
    (fun fields =>
       match fields with
       | [transaction_id; local_sequence_number; transaction_envelope] =>
           transaction_id ← required transaction_id;
           local_sequence_number ← required local_sequence_number;
           transaction_envelope ← required transaction_envelope;
           Some (SRE.new transaction_id local_sequence_number transaction_envelope)
       | _ => None
       end).
#[local] Existing Instance request_entry_format.

(** [SynchronizationBatchRequestDefinition] is derived, and passed to [new]. *)
Definition request_format : Serde SBR.t :=
  struct_serde
    [lit "protocol_version"; lit "environment_id"; lit "reader_id"; lit "reader_software_version";
     lit "batch_id"; lit "first_local_sequence_number"; lit "last_local_sequence_number";
     lit "submitted_at_unix_milliseconds"; lit "entries"]
    (fun self =>
       [serialize (SBR.protocol_version self); serialize (SBR.environment_id self);
        serialize (SBR.reader_id self); serialize (SBR.reader_software_version self);
        serialize (SBR.batch_id self); serialize (SBR.first_local_sequence_number self);
        serialize (SBR.last_local_sequence_number self);
        serialize (Serde := serde_i64) (SBR.submitted_at_unix_milliseconds self);
        serialize (SBR.entries self)])
    (fun fields =>
       match fields with
       | [version; environment; reader; software; batch; first; last; submitted; entries] =>
           version ← required version;
           environment ← required environment;
           reader ← required reader;
           software ← required software;
           batch ← required batch;
           first ← required first;
           last ← required last;
           submitted ← required (H := serde_i64) submitted;
           entries ← required entries;
           result_ok (SBR.new (SBRD.mk version environment reader software batch first last
                                 submitted entries))
       | _ => None
       end).

Definition acknowledgement_entry_format : Serde SAE.t :=
  struct_serde
    [lit "transaction_id"; lit "local_sequence_number"; lit "outcome"; lit "failure_category";
     lit "next_retry_at_unix_milliseconds"]
    (fun self =>
       [serialize (SAE.transaction_id self); serialize (SAE.local_sequence_number self);
        serialize (SAE.outcome self); serialize (SAE.failure_category self);
        serialize (Serde := serde_option (H := serde_i64))
          (SAE.next_retry_at_unix_milliseconds self)])
    (fun fields =>
       match fields with
       | [transaction_id; local_sequence_number; outcome; failure_category; next_retry] =>
           transaction_id ← required transaction_id;
           local_sequence_number ← required local_sequence_number;
           outcome ← required outcome;
           failure_category ← optional failure_category;
           next_retry ← optional (H := serde_i64) next_retry;
           result_ok (SAE.new transaction_id local_sequence_number outcome failure_category
                        next_retry)
       | _ => None
       end).
#[local] Existing Instance acknowledgement_entry_format.

Definition acknowledgement_format : Serde SBA.t :=
  struct_serde
    [lit "protocol_version"; lit "environment_id"; lit "reader_id"; lit "batch_id";
     lit "first_local_sequence_number"; lit "last_local_sequence_number";
     lit "received_at_unix_milliseconds"; lit "replayed"; lit "entries"]
    (fun self =>
       [serialize (SBA.protocol_version self); serialize (SBA.environment_id self);
        serialize (SBA.reader_id self); serialize (SBA.batch_id self);
        serialize (SBA.first_local_sequence_number self);
        serialize (SBA.last_local_sequence_number self);
        serialize (Serde := serde_i64) (SBA.received_at_unix_milliseconds self);
        serialize (Serde := serde_bool) (SBA.replayed self);
        serialize (SBA.entries self)])
    (fun fields =>
       match fields with
       | [version; environment; reader; batch; first; last; received; replayed; entries] =>
           version ← required version;
           environment ← required environment;
           reader ← required reader;
           batch ← required batch;
           first ← required first;
           last ← required last;
           received ← required (H := serde_i64) received;
           replayed ← required (H := serde_bool) replayed;
           entries ← required entries;
           result_ok (SBA.new (SBAD.mk version environment reader batch first last received
                                 replayed entries))
       | _ => None
       end).

End messages.

#[global] Existing Instances presentation_format request_entry_format request_format
  acknowledgement_entry_format acknowledgement_format.

(** ** What the types guarantee *)

Definition zone_wf (zone : ProtocolZoneId.t) : Prop := 1 <= ProtocolZoneId.value zone <= u16_max.

Definition policy_version_wf (version : FarePolicyVersion.t) : Prop :=
  1 <= FarePolicyVersion.value version <= u64_max.

(** An approved amount is an [i64] that is not negative. *)
Definition decision_wf (decision : FareDecision.t) : Prop :=
  match decision with
  | FareDecision.Approved amount _ => Money.wf amount /\ Money.is_negative amount = false
  | FareDecision.Rejected _ => True
  end.

Section validity.
Context `{UuidLibrary} `{JsonLibrary}.

Definition payload_wf (payload : DEP.t) : Prop :=
  match payload with
  | DEP.TransitAccountCreated account rider balance =>
      identifier_wf account /\ identifier_wf rider /\ StoredValueBalance.wf balance
  | DEP.TransitAccountStatusChanged account _ _ => identifier_wf account
  | DEP.StoredValueChanged account previous current _ =>
      identifier_wf account /\ StoredValueBalance.wf previous /\ StoredValueBalance.wf current
  | DEP.FareCredentialIssued credential account _ => identifier_wf credential /\ identifier_wf account
  | DEP.FareCredentialStatusChanged credential _ _ => identifier_wf credential
  | DEP.ReaderEquipmentRegistered reader key => identifier_wf reader /\ identifier_wf key
  | DEP.ReaderEquipmentStatusChanged reader _ _ => identifier_wf reader
  | DEP.EquipmentKeyRotated reader previous current =>
      identifier_wf reader /\ identifier_wf previous /\ identifier_wf current
  | DEP.FareTransactionDecided transaction decision =>
      identifier_wf transaction /\ decision_wf decision
  | DEP.FareTransactionReconciled transaction => identifier_wf transaction
  end.

(** An envelope that [from_json] made, and one that it makes again from its
    own text. *)
Definition envelope_built (envelope : CTE.t) : Prop := exists text, CTE.from_json text = Ok envelope.
Definition envelope_stable (envelope : CTE.t) : Prop :=
  CTE.from_json (CTE.as_str envelope) = Ok envelope.

Definition presentation_wf (p : CP.t) : Prop :=
  DeviceProtocolVersion.wf (CP.protocol_version p) /\ identifier_wf (CP.transaction_id p)
  /\ identifier_wf (CP.reader_id p) /\ LocalSequenceNumber.wf (CP.local_sequence_number p)
  /\ identifier_wf (CP.credential_id p) /\ EventTime.wf (CP.event_time p)
  /\ zone_wf (CP.origin_zone p) /\ zone_wf (CP.destination_zone p).

(** A request whose envelopes satisfy [E]. *)
Definition request_entry_typed (E : CTE.t -> Prop) (entry : SRE.t) : Prop :=
  identifier_wf (SRE.transaction_id entry) /\ LocalSequenceNumber.wf (SRE.local_sequence_number entry)
  /\ E (SRE.transaction_envelope entry).

Definition request_typed (E : CTE.t -> Prop) (r : SBR.t) : Prop :=
  (DeviceProtocolVersion.wf (SBR.protocol_version r) /\ environment_wf (SBR.environment_id r)
   /\ identifier_wf (SBR.reader_id r) /\ software_wf (SBR.reader_software_version r)
   /\ identifier_wf (SBR.batch_id r) /\ LocalSequenceNumber.wf (SBR.first_local_sequence_number r)
   /\ LocalSequenceNumber.wf (SBR.last_local_sequence_number r)
   /\ in_i64 (SBR.submitted_at_unix_milliseconds r)
   /\ Forall (request_entry_typed E) (SBR.entries r))
  /\ exists definition, SBR.new definition = Ok r.

Definition acknowledgement_entry_typed (entry : SAE.t) : Prop :=
  (identifier_wf (SAE.transaction_id entry) /\ LocalSequenceNumber.wf (SAE.local_sequence_number entry)
   /\ (forall z, SAE.next_retry_at_unix_milliseconds entry = Some z -> in_i64 z))
  /\ SAE.wf entry.

Definition acknowledgement_typed (a : SBA.t) : Prop :=
  (DeviceProtocolVersion.wf (SBA.protocol_version a) /\ environment_wf (SBA.environment_id a)
   /\ identifier_wf (SBA.reader_id a) /\ identifier_wf (SBA.batch_id a)
   /\ LocalSequenceNumber.wf (SBA.first_local_sequence_number a)
   /\ LocalSequenceNumber.wf (SBA.last_local_sequence_number a)
   /\ in_i64 (SBA.received_at_unix_milliseconds a)
   /\ Forall acknowledgement_entry_typed (SBA.entries a))
  /\ exists definition, SBA.new definition = Ok a.

End validity.

(** ** The formats satisfy the laws *)

Ltac variant_format := apply variant_laws; intros []; vm_compute; reflexivity.

#[global] Instance currency_laws : SerdeLaws Currency.t (fun _ => True) (fun _ => True).
Proof. variant_format. Qed.
#[global] Instance processing_mode_laws :
  SerdeLaws FareProcessingMode.t (fun _ => True) (fun _ => True).
Proof. variant_format. Qed.
#[global] Instance approval_reason_laws :
  SerdeLaws FareApprovalReason.t (fun _ => True) (fun _ => True).
Proof. variant_format. Qed.
#[global] Instance rejection_reason_laws :
  SerdeLaws FareRejectionReason.t (fun _ => True) (fun _ => True).
Proof. variant_format. Qed.
#[global] Instance credential_medium_laws :
  SerdeLaws CredentialMedium.t (fun _ => True) (fun _ => True).
Proof. variant_format. Qed.
#[global] Instance failure_category_laws :
  SerdeLaws SynchronizationFailureCategory.t (fun _ => True) (fun _ => True).
Proof. variant_format. Qed.
#[global] Instance outcome_laws :
  SerdeLaws SynchronizationEntryOutcome.t (fun _ => True) (fun _ => True).
Proof. variant_format. Qed.

#[global] Instance account_status_laws :
  SerdeLaws TransitAccountStatus.t (fun _ => True) (fun _ => True).
Proof. variant_format. Qed.
#[global] Instance credential_kind_laws :
  SerdeLaws FareCredentialKind.t (fun _ => True) (fun _ => True).
Proof. variant_format. Qed.
#[global] Instance credential_status_laws :
  SerdeLaws FareCredentialStatus.t (fun _ => True) (fun _ => True).
Proof. variant_format. Qed.
#[global] Instance reader_status_laws :
  SerdeLaws ReaderEquipmentStatus.t (fun _ => True) (fun _ => True).
Proof. variant_format. Qed.
#[global] Instance change_reason_laws :
  SerdeLaws StoredValueChangeReason.t (fun _ => True) (fun _ => True).
Proof. variant_format. Qed.

(** A newtype over an integer, whose constructor refuses the integers outside
    of [P]. *)
Lemma integer_newtype_laws {A E} (fits : Z -> Prop) `{!forall z, Decision (fits z)}
    (make : Z -> Result E A) (value : A -> Z) (P : A -> Prop) :
  (forall a, P a -> fits (value a) /\ make (value a) = Ok a) ->
  (forall z a, fits z -> make z = Ok a -> P a) ->
  SerdeLaws A P P
    (H := newtype_serde (deserialize_integer fits) (fun z => result_ok (make z))
            (fun a => JInteger (value a))).
Proof.
  intros HP Hv. apply newtype_laws; [apply _|..].
  - intros a [Hf Ha]%HP. exists (value a). by rewrite deserialize_integer_fits, Ha.
  - intros v z a Hz%deserialize_integer_Some Ha%result_ok_Some. by eapply Hv.
Qed.

(** A constructor that compares its argument with zero. *)
Ltac integer_format make wf :=
  apply integer_newtype_laws; unfold make, wf;
  [ intros [z] Hz; cbn in *; split; [int_lia|]; case_match; [int_lia|done]
  | intros z a Hz Ha; case_match; [done|]; injection Ha as <-; cbn; unfold_ints; lia ].

#[global] Instance local_sequence_number_laws :
  SerdeLaws LocalSequenceNumber.t LocalSequenceNumber.wf LocalSequenceNumber.wf.
Proof. integer_format LocalSequenceNumber.new LocalSequenceNumber.wf. Qed.
#[global] Instance fare_policy_version_laws :
  SerdeLaws FarePolicyVersion.t policy_version_wf policy_version_wf.
Proof. integer_format FarePolicyVersion.new policy_version_wf. Qed.
#[global] Instance event_time_laws : SerdeLaws EventTime.t EventTime.wf EventTime.wf.
Proof. integer_format EventTime.from_unix_milliseconds EventTime.wf. Qed.
#[global] Instance protocol_version_laws :
  SerdeLaws DeviceProtocolVersion.t DeviceProtocolVersion.wf DeviceProtocolVersion.wf.
Proof. integer_format DeviceProtocolVersion.new DeviceProtocolVersion.wf. Qed.
#[global] Instance protocol_zone_laws : SerdeLaws ProtocolZoneId.t zone_wf zone_wf.
Proof. integer_format ProtocolZoneId.new zone_wf. Qed.

Lemma map_ok_Ok {E A B} (f : A -> B) (m : Result E A) b :
  map_ok f m = Ok b <-> exists a, m = Ok a /\ b = f a.
Proof. destruct m; cbn; naive_solver congruence. Qed.

(** A newtype over a text, whose constructor can fail. *)
Lemma text_newtype_laws {A E} (make : Str -> Result E A) (text : A -> Str) (P Q : A -> Prop) :
  (forall a, P a -> make (text a) = Ok a) ->
  (forall s a, make s = Ok a -> Q a) ->
  SerdeLaws A P Q
    (H := newtype_serde deserialize_string (fun s => result_ok (make s))
            (fun a => JString (text a))).
Proof.
  intros HP HQ. apply newtype_laws; [apply _|..].
  - intros a Ha%HP. exists (text a). by rewrite Ha.
  - intros v s a _ Ha%result_ok_Some. by eapply HQ.
Qed.

Ltac checked_text_format :=
  apply text_newtype_laws;
  [ intros [s] Hs; apply map_ok_Ok; exists s; split; [|done]; apply validate_text_Ok;
    split; [symmetry; apply Hs|exact Hs]
  | intros s a Ha; apply map_ok_Ok in Ha as (text & Ha & ->);
    apply validate_text_Ok in Ha as [_ Ha]; exact Ha ].

#[global] Instance environment_id_laws :
  SerdeLaws ProtocolEnvironmentId.t environment_wf environment_wf.
Proof. checked_text_format. Qed.
#[global] Instance software_version_laws :
  SerdeLaws ReaderSoftwareVersion.t software_wf software_wf.
Proof. checked_text_format. Qed.
#[global] Instance envelope_laws `{JsonLibrary} : SerdeLaws CTE.t envelope_stable envelope_built.
Proof.
  apply text_newtype_laws; [done|]. intros s a Ha. by exists s.
Qed.

Lemma from_hex_bytes {E} (invalid_length invalid : Z -> E) value bs :
  from_hex invalid_length invalid value = Ok bs -> length bs = 32%nat /\ Forall is_byte bs.
Proof.
  intros Hs. pose proof (from_hex_ok invalid_length invalid value) as Hok. rewrite Hs in Hok.
  split; apply Hok.
Qed.

Ltac fingerprint_format :=
  apply text_newtype_laws;
  [ intros [bs] [Hl Hb]; apply map_ok_Ok; exists bs; split; [|done]; by apply from_hex_to_hex
  | intros s a (bs & Ha%from_hex_bytes & ->)%map_ok_Ok; exact Ha ].

#[global] Instance request_fingerprint_laws :
  SerdeLaws SynchronizationRequestFingerprint.t SynchronizationRequestFingerprint.wf
    SynchronizationRequestFingerprint.wf.
Proof. fingerprint_format. Qed.
#[global] Instance payload_fingerprint_laws :
  SerdeLaws SynchronizationPayloadFingerprint.t SynchronizationPayloadFingerprint.wf
    SynchronizationPayloadFingerprint.wf.
Proof. fingerprint_format. Qed.

#[global] Instance identifier_laws `{UuidLaws} k :
  SerdeLaws (Identifier k) identifier_wf identifier_wf.
Proof.
  apply newtype_laws.
  - intros v w Hs. by rewrite Hs.
  - intros [u] Hid. exists u. split; [cbn; unfold identifier_to_string; by rewrite parse_str_fmt|].
    apply result_ok_Some. by apply validate_identifier_Ok.
  - intros v u id _ Hid%result_ok_Some. by apply validate_identifier_Ok in Hid as [_ ?].
Qed.

#[local] Existing Instances serde_bool_laws serde_i64_laws.

(** The names of the fields differ. *)
Ltac distinct_names := vm_compute; by apply (bool_decide_unpack _).

#[global] Instance money_laws : SerdeLaws Money.t Money.wf Money.wf.
Proof.
  apply struct_laws.
  - distinct_names.
  - intros [z c] Hz. split; [done|]. by decode_sent.
  - intros fields a Ha. decode_fields fields. decode_received Ha. by injection Ha as <-.
  - decode_proper.
Qed.

Lemma decode_decision_received tag body decision :
  decode_decision tag body = Some decision -> decision_wf decision.
Proof.
  unfold decode_decision. repeat case_decide; [| |done].
  - intros (fields & _ & Ha)%bind_Some. decode_fields fields. decode_received Ha.
    apply result_ok_Some in Ha. cbn in Ha. unfold FareDecision.approved in Ha.
    case_match; [done|]. by injection Ha as <-.
  - intros (fields & _ & Ha)%bind_Some. decode_fields fields. decode_received Ha.
    by injection Ha as <-.
Qed.

(** What follows the reading of the fields of a struct. *)
Lemma struct_bind_same {A} names v w (decode : list (option Json) -> option A) :
  Proper (Forall2 field_same ==> eq) decode -> json_same v w ->
  struct_fields names v ≫= decode = struct_fields names w ≫= decode.
Proof. intros Hd Hs. destruct (struct_fields_same names v w Hs); [by apply Hd|done]. Qed.

Lemma struct_bind_zip {A} names values (decode : list (option Json) -> option A) a :
  NoDup names -> length names = length values -> decode (Some <$> values) = Some a ->
  struct_fields names (JObject (zip names values)) ≫= decode = Some a.
Proof. intros Hnd Hl Ha. by rewrite struct_fields_zip. Qed.

#[global] Instance fare_decision_laws : SerdeLaws FareDecision.t decision_wf decision_wf.
Proof.
  split.
  - intros [amount reason|reason].
    + intros [Hwf Hn]. change (decode_decision (lit "Approved")
        (JObject (zip [lit "charged_amount"; lit "reason"] [serialize amount; serialize reason]))
        = Some (FareDecision.Approved amount reason)). unfold decode_decision.
      rewrite decide_True by done.
      apply struct_bind_zip; [distinct_names|done|].
      decode_sent. unfold FareDecision.approved. by rewrite Hn.
    + intros _. change (decode_decision (lit "Rejected")
        (JObject (zip [lit "reason"] [serialize reason])) = Some (FareDecision.Rejected reason)).
      unfold decode_decision.
      rewrite decide_False, decide_True by done.
      apply struct_bind_zip; [distinct_names|done|].
      by decode_sent.
  - intros v decision. cbn -[decode_decision]. unfold deserialize_tagged.
    repeat case_match; try done. apply decode_decision_received.
  - intros v w. apply deserialize_tagged_same. intros tag x y Hs. unfold decode_decision.
    repeat case_decide; [..|done]; apply struct_bind_same; [decode_proper|done..|decode_proper|done].
Qed.

#[global] Instance balance_laws :
  SerdeLaws StoredValueBalance.t StoredValueBalance.wf StoredValueBalance.wf.
Proof.
  apply newtype_laws; [apply _|..].
  - intros [m] [Hm Hn]. exists m. split; [exact (deserialize_serialize m Hm)|].
    unfold StoredValueBalance.deserialize, StoredValueBalance.new, Money.is_negative.
    cbn [StoredValueBalance.amount] in Hn. by rewrite (proj2 (Z.ltb_ge _ _)) by lia.
  - intros v m b Hm%deserialize_received Hb%result_ok_Some.
    unfold StoredValueBalance.deserialize, StoredValueBalance.new, Money.is_negative in Hb.
    destruct (Z.ltb_spec (Money.minor_units m) 0) as [|Hn]; [done|]. by injection Hb as <-.
Qed.

Section payload_laws.
Context `{UuidLibrary} {uuid_laws : UuidLaws}.

Lemma decode_payload_members payload :
  payload_wf payload ->
  decode_payload (payload_members payload).1 (JObject (payload_members payload).2) = Some payload.
Proof using uuid_laws.
  intros Hp. destruct payload; cbn [payload_wf] in Hp;
    repeat match goal with Hp : _ /\ _ |- _ => destruct Hp end;
    cbn [payload_members fst snd]; unfold decode_payload;
    rewrite ?decide_False by done; rewrite decide_True by done.
  all: match goal with |- struct_fields ?names (JObject ?ms) ≫= _ = _ =>
      change ms with (zip names ms.*2) end;
    apply struct_bind_zip; [distinct_names|done|]; by decode_sent.
Qed.

Lemma decode_payload_received tag body payload :
  decode_payload tag body = Some payload -> payload_wf payload.
Proof using uuid_laws.
  unfold decode_payload. repeat case_decide; try done.
  all: intros (fields & _ & Hp)%bind_Some; decode_fields fields; decode_received Hp;
    injection Hp as <-; by split_and?.
Qed.

#[global] Instance event_payload_laws : SerdeLaws DEP.t payload_wf payload_wf.
Proof using uuid_laws.
  split.
  - intros payload Hp%decode_payload_members. cbn -[decode_payload payload_members].
    by destruct (payload_members payload).
  - intros v payload. cbn -[decode_payload]. unfold deserialize_tagged.
    repeat case_match; try done. apply decode_payload_received.
  - intros v w. apply deserialize_tagged_same. intros tag x y Hs. unfold decode_payload.
    repeat case_decide; [..|done]; (apply struct_bind_same; [decode_proper|done]).
Qed.

End payload_laws.

Section message_laws.
Context `{UuidLibrary} {uuid_laws : UuidLaws} `{JsonLibrary}.

#[global] Instance presentation_laws : SerdeLaws CP.t presentation_wf presentation_wf.
Proof using uuid_laws.
  apply struct_laws.
  - distinct_names.
  - intros [] Hp. split; [done|]. unfold presentation_wf in Hp. cbn in Hp. destruct_and!.
    by decode_sent.
  - intros fields p Hp. decode_fields fields. decode_received Hp. by injection Hp as <-.
  - decode_proper.
Qed.

#[global] Instance request_entry_laws :
  SerdeLaws SRE.t (request_entry_typed envelope_stable) (request_entry_typed envelope_built).
Proof using uuid_laws.
  apply struct_laws.
  - distinct_names.
  - intros [] (? & ? & ?). split; [done|]. by decode_sent.
  - intros fields e He. decode_fields fields. decode_received He. by injection He as <-.
  - decode_proper.
Qed.

#[global] Instance request_laws :
  SerdeLaws SBR.t (request_typed envelope_stable) (request_typed envelope_built).
Proof using uuid_laws.
  apply struct_laws.
  - distinct_names.
  - intros r [Hr [definition Hnew]]. split; [done|]. pose proof (request_new_of _ _ Hnew) as ->.
    destruct definition. cbn in Hr. destruct_and!. decode_sent. by rewrite Hnew.
  - intros fields r Hr. decode_fields fields. decode_received Hr. apply result_ok_Some in Hr.
    split; [|by eexists]. apply request_new_of in Hr as ->. by split_and!.
  - decode_proper.
Qed.

#[global] Instance acknowledgement_entry_laws :
  SerdeLaws SAE.t acknowledgement_entry_typed acknowledgement_entry_typed.
Proof using uuid_laws.
  apply struct_laws.
  - distinct_names.
  - intros e [(? & ? & Hretry) Hwf]. split; [done|]. decode_sent.
    + intros a Ha. split; [by apply Hretry|discriminate].
    + unfold SAE.new. unfold SAE.wf in Hwf. rewrite Hwf. by destruct e.
  - intros fields e He. decode_fields fields. decode_received He. apply result_ok_Some in He.
    unfold SAE.new in He. rewrite Result_bind_Ok in He. destruct He as ([] & Hwf & [= <-]).
    by split_and!.
  - decode_proper.
Qed.

Lemma acknowledgement_new_of definition a :
  SBA.new definition = Ok a -> a = SBA.of_definition definition.
Proof. by intros (? & _ & (? & _ & [= <-])%Result_bind_Ok)%Result_bind_Ok. Qed.

#[global] Instance acknowledgement_laws :
  SerdeLaws SBA.t acknowledgement_typed acknowledgement_typed.
Proof using uuid_laws.
  apply struct_laws.
  - distinct_names.
  - intros a [Ha [definition Hnew]]. split; [done|].
    pose proof (acknowledgement_new_of _ _ Hnew) as ->.
    destruct definition. cbn in Ha. destruct_and!. decode_sent. by rewrite Hnew.
  - intros fields a Ha. decode_fields fields. decode_received Ha. apply result_ok_Some in Ha.
    split; [|by eexists]. apply acknowledgement_new_of in Ha as ->. by split_and!.
  - decode_proper.
Qed.

End message_laws.

(** ** What is read back is what was written

    The texts and envelopes of a message are in the form that validation
    gives them; nothing else is needed. *)

Lemma integer_newtype_exact {A E} (fits : Z -> Prop) `{!forall z, Decision (fits z)}
    (make : Z -> Result E A) (value : A -> Z) :
  (forall a a', make (value a) = Ok a' -> a' = a) ->
  SerdeExact A (fun _ => True)
    (H := newtype_serde (deserialize_integer fits) (fun z => result_ok (make z))
            (fun a => JInteger (value a))).
Proof.
  intros Hm. apply newtype_exact. intros a z a' _ Hz Ha. cbn in Hz. case_decide; [|done].
  injection Hz as <-. apply Hm. by apply result_ok_Some.
Qed.

Ltac integer_exact make :=
  apply integer_newtype_exact; intros [z] a' Ha; unfold make in Ha; cbn in Ha;
  case_match; [done|]; by injection Ha as <-.

#[global] Instance protocol_version_exact : SerdeExact DeviceProtocolVersion.t (fun _ => True).
Proof. integer_exact DeviceProtocolVersion.new. Qed.
#[global] Instance local_sequence_number_exact : SerdeExact LocalSequenceNumber.t (fun _ => True).
Proof. integer_exact LocalSequenceNumber.new. Qed.
#[global] Instance i64_exact : SerdeExact Z (fun _ => True) (H := serde_i64).
Proof. intros z z' _ Hz. cbn in Hz. case_decide; congruence. Qed.
#[global] Instance bool_exact : SerdeExact bool (fun _ => True) (H := serde_bool).
Proof. apply laws_exact. Qed.
#[global] Instance failure_category_exact :
  SerdeExact SynchronizationFailureCategory.t (fun _ => True).
Proof. apply laws_exact. Qed.
#[global] Instance outcome_exact : SerdeExact SynchronizationEntryOutcome.t (fun _ => True).
Proof. apply laws_exact. Qed.
#[global] Instance environment_exact : SerdeExact ProtocolEnvironmentId.t environment_wf.
Proof. apply laws_exact. Qed.
#[global] Instance software_exact : SerdeExact ReaderSoftwareVersion.t software_wf.
Proof. apply laws_exact. Qed.
#[global] Instance envelope_exact `{JsonLibrary} : SerdeExact CTE.t envelope_stable.
Proof. apply laws_exact. Qed.
#[global] Instance identifier_exact `{UuidLaws} k : SerdeExact (Identifier k) (fun _ => True).
Proof.
  apply newtype_exact. intros [u] v id _ Hv Hid. cbn in Hv. unfold identifier_to_string in Hv.
  rewrite parse_str_fmt in Hv. injection Hv as <-. apply result_ok_Some in Hid.
  by apply validate_identifier_Ok in Hid as [-> _].
Qed.

Section message_exact.
Context `{UuidLibrary} {uuid_laws : UuidLaws} `{JsonLibrary}.

#[global] Instance request_entry_exact :
  SerdeExact SRE.t (fun e => envelope_stable (SRE.transaction_envelope e)).
Proof using uuid_laws.
  apply struct_exact; [distinct_names|]. intros e e' He. split; [done|]. intros Hd.
  decode_exact Hd. injection Hd as <-. by destruct e.
Qed.

(** The texts and envelopes of a request. *)
Record request_texts (r : SBR.t) : Prop := {
  rt_environment : environment_wf (SBR.environment_id r);
  rt_software : software_wf (SBR.reader_software_version r);
  rt_envelopes : Forall (fun e => envelope_stable (SRE.transaction_envelope e)) (SBR.entries r)
}.

#[global] Instance request_exact : SerdeExact SBR.t request_texts.
Proof using uuid_laws.
  apply struct_exact; [distinct_names|]. intros r r' [Henv Hsoft Hentries]. split; [done|]. intros Hd.
  decode_exact Hd. apply result_ok_Some, request_new_of in Hd as ->. by destruct r.
Qed.

#[global] Instance acknowledgement_entry_exact : SerdeExact SAE.t (fun _ => True).
Proof using uuid_laws.
  apply struct_exact; [distinct_names|]. intros e e' _. split; [done|]. intros Hd.
  decode_exact Hd. apply result_ok_Some in Hd. unfold SAE.new in Hd.
  apply Result_bind_Ok in Hd as (_ & _ & [= <-]). by destruct e.
Qed.

#[global] Instance acknowledgement_exact :
  SerdeExact SBA.t (fun a => environment_wf (SBA.environment_id a)).
Proof using uuid_laws.
  apply struct_exact; [distinct_names|]. intros a a' Ha. split; [done|]. intros Hd.
  decode_exact Hd. apply result_ok_Some, acknowledgement_new_of in Hd as ->. by destruct a.
Qed.

Lemma acknowledgement_entry_plain (e : SAE.t) : json_plain (serialize e).
Proof.
  apply plain_struct; [distinct_names|done|].
  repeat constructor; cbn; case_match; constructor.
Qed.

Lemma acknowledgement_plain (a : SBA.t) : json_plain (serialize a).
Proof.
  apply plain_struct; [distinct_names|done|]. repeat constructor.
  apply Forall_fmap, Forall_true. apply acknowledgement_entry_plain.
Qed.

Lemma request_plain (r : SBR.t) : json_plain (serialize r).
Proof.
  apply plain_struct; [distinct_names|done|]. repeat constructor.
  apply Forall_fmap, Forall_true. intros e. apply plain_struct; [distinct_names|done|].
  repeat constructor.
Qed.

End message_exact.

(** ** Properties *)

(** C36. Messages survive the wire.  A synchronization request whose envelopes
    are in canonical form and any synchronization acknowledgement, with the
    identifiers, numbers and texts that their types admit, are read back from
    the JSON they are written as; so are a credential presentation, a fare
    decision and the payload of any domain event.  Whatever is read was validated on the way: the identifiers, the
    ranges of the numbers, the texts, the metadata of every outcome, the
    envelopes and, through [new], the order and the count of the entries; an
    approved amount and a stored balance are never negative.  The order of the members of a JSON
    object does not matter. *)
Theorem messages_roundtrip `{UuidLibrary} {uuid_laws : UuidLaws} `{JsonLibrary} :
  (forall r, request_typed envelope_stable r -> deserialize (serialize r) = Some r)
  /\ (forall v r, deserialize v = Some r -> request_typed envelope_built r)
  /\ (forall a, acknowledgement_typed a -> deserialize (serialize a) = Some a)
  /\ (forall v a, deserialize v = Some a -> acknowledgement_typed a)
  /\ (forall p, presentation_wf p -> deserialize (serialize p) = Some p)
  /\ (forall v p, deserialize v = Some p -> presentation_wf p)
  /\ (forall decision, decision_wf decision -> deserialize (serialize decision) = Some decision)
  /\ (forall v decision, deserialize v = Some decision -> decision_wf decision)
  /\ (forall payload, payload_wf payload -> deserialize (serialize payload) = Some payload)
  /\ (forall v payload, deserialize v = Some payload -> payload_wf payload)
  /\ (forall v w, json_same v w ->
        deserialize (A := SBR.t) v = deserialize w /\ deserialize (A := SBA.t) v = deserialize w
        /\ deserialize (A := CP.t) v = deserialize w
        /\ deserialize (A := FareDecision.t) v = deserialize w
        /\ deserialize (A := DEP.t) v = deserialize w).
Proof.
  split_and!.
  1, 3, 5, 7, 9: apply deserialize_serialize.
  1, 2, 3, 4, 5: apply deserialize_received.
  intros v w Hs. by rewrite !Hs.
Qed.

(** ** Witnesses *)

Definition wire_reader : ReaderId := MkIdentifier uuid_reader.
Definition wire_batch : SynchronizationBatchId := MkIdentifier uuid_batch.
Definition wire_environment : ProtocolEnvironmentId.t := ProtocolEnvironmentId.mk (lit "development").

Definition wire_definition : SBRD.t :=
  SBRD.mk DeviceProtocolVersion.CURRENT wire_environment wire_reader
    (ReaderSoftwareVersion.mk (lit "0.1.0")) wire_batch (sample_sequence 1) (sample_sequence 2) 3000
    [SRE.new (MkIdentifier uuid_first) (sample_sequence 1) sample_envelope;
     SRE.new (MkIdentifier uuid_second) (sample_sequence 2) sample_envelope].

Definition wire_answer : SBAD.t :=
  SBAD.mk DeviceProtocolVersion.CURRENT (ProtocolEnvironmentId.mk (lit "development"))
    (MkIdentifier uuid_reader) (MkIdentifier uuid_batch) (sample_sequence 1) (sample_sequence 2)
    3500 true
    [SAE.mk (MkIdentifier uuid_first) (sample_sequence 1) SynchronizationEntryOutcome.Acknowledged
       None None;
     SAE.mk (MkIdentifier uuid_second) (sample_sequence 2)
       SynchronizationEntryOutcome.RetryableFailure
       (Some SynchronizationFailureCategory.BackendTemporarilyUnavailable) (Some 4000)].

Lemma sample_environment_wf : environment_wf (ProtocolEnvironmentId.mk (lit "development")).
Proof.
  split_and!; [discriminate|vm_compute; reflexivity|vm_compute; discriminate|].
  apply existsb_false_Forall; vm_compute; reflexivity.
Qed.

Lemma sample_software_wf : software_wf (ReaderSoftwareVersion.mk (lit "0.1.0")).
Proof.
  split_and!; [discriminate|vm_compute; reflexivity|vm_compute; discriminate|].
  apply existsb_false_Forall; vm_compute; reflexivity.
Qed.

Ltac sample_bounds := vm_compute; split; discriminate.
Ltac sample_identifier := split_and!; vm_compute; reflexivity.

Lemma wire_definition_typed : request_typed envelope_stable (SBR.of_definition wire_definition).
Proof.
  split; [|exists wire_definition; vm_compute; reflexivity].
  split; [sample_bounds|]. split; [apply sample_environment_wf|]. split; [sample_identifier|].
  split; [apply sample_software_wf|]. split; [sample_identifier|]. do 3 (split; [sample_bounds|]).
  constructor; [|constructor; [|constructor]];
    (split; [sample_identifier|]); (split; [sample_bounds|vm_compute; reflexivity]).
Qed.

Lemma wire_answer_typed : acknowledgement_typed (SBA.of_definition wire_answer).
Proof.
  split; [|exists wire_answer; vm_compute; reflexivity].
  split; [sample_bounds|]. split; [apply sample_environment_wf|]. do 2 (split; [sample_identifier|]).
  do 3 (split; [sample_bounds|]).
  constructor; [|constructor; [|constructor]];
    (split; [|vm_compute; reflexivity]); (split; [sample_identifier|]); (split; [sample_bounds|]);
    intros z Hz; [done|].
  injection Hz as <-. sample_bounds.
Qed.

(** The request and an answer to it with a failure, after the wire; an object
    whose members are in another order, with one that the program does not
    know, is read all the same. *)
Lemma messages_roundtrip_witness :
  deserialize (serialize (SBR.of_definition wire_definition)) = Some (SBR.of_definition wire_definition)
  /\ deserialize (serialize (SBA.of_definition wire_answer)) = Some (SBA.of_definition wire_answer)
  /\ deserialize (JObject [(lit "currency", JString (lit "Eur")); (lit "note", JNull);
                           (lit "minor_units", JInteger 250)])
     = Some (Money.from_minor_units 250 Currency.Eur)
  /\ deserialize (A := FareDecision.t)
       (JObject [(lit "Approved", JObject
          [(lit "charged_amount", serialize (Money.from_minor_units (-1) Currency.Usd));
           (lit "reason", JString (lit "Transfer"))])]) = None
  /\ deserialize (serialize (DEP.FareTransactionReconciled (MkIdentifier uuid_first)))
     = Some (DEP.FareTransactionReconciled (MkIdentifier uuid_first)).
Proof.
  destruct messages_roundtrip as (Hrequest & _ & Hanswer & _ & _ & _ & _ & _ & Hpayload & _).
  split; [apply Hrequest, wire_definition_typed|]. split; [apply Hanswer, wire_answer_typed|].
  do 2 (split; [vm_compute; reflexivity|]). apply Hpayload. sample_identifier.
Defined.
