(* ===== verification/PersistenceSql.v ===== *)
(** * SQL databases (the sqlx calls of crates/persistence/src)

    What the statements of the two stores have in common: a database is its
    tables and a script of faults, which decides which statements the database
    fails and with which error; a statement either changes the tables or
    leaves them; an operation that returns an error inside a transaction drops
    it, which rolls it back.  The tables are a parameter. *)

From S2P Require Import Prelude Text.

(** [sqlx::Error]: the kinds of a database error, and every other error. *)
Inductive SqlError :=
| UniqueViolation | ForeignKeyViolation | NotNullViolation | CheckViolation | ExclusionViolation
| OtherSqlError.

#[global] Instance SqlError_eq_dec : EqDecision SqlError.
Proof. solve_decision. Defined.

Definition at_least (low : Z) (x : option Z) : bool :=
  match x with
  | Some z => low <=? z
  | None => true
  end.

(** [UPDATE .. SET f WHERE p]: every row that satisfies [p] changes, or none
    when a changed row fails its checks. *)
Definition update_where {K R} `{Countable K} (check : R -> bool) (p : R -> bool) (f : R -> R)
    (m : gmap K R) : Result SqlError (gmap K R * Z) :=
  if forallb (fun r => implb (p r) (check (f r))) (map_to_list m).*2 then
    Ok ((fun r => if p r then f r else r) <$> m,
        Z.of_nat (size (filter (fun kr : K * R => p kr.2 = true) m)))
  else Err CheckViolation.

(** [ORDER BY key]: insertion sort, stable. *)
Fixpoint insert_by {A} (key : A -> Z) (x : A) (l : list A) : list A :=
  match l with
  | [] => [x]
  | y :: l' => if key x <=? key y then x :: l else y :: insert_by key x l'
  end.

Fixpoint order_by {A} (key : A -> Z) (l : list A) : list A :=
  match l with
  | [] => []
  | x :: l' => insert_by key x (order_by key l')
  end.

(** ** Statements and transactions *)

(** How a statement fails: without effect, or with its effect and its reply
    lost.  The difference is only seen at a [COMMIT] over a network
    ([remote_transaction]); the error of any other statement rolls back. *)
Inductive Fault := Fails (e : SqlError) | LosesReply (e : SqlError).

Definition fault_error (fault : Fault) : SqlError :=
  match fault with
  | Fails e | LosesReply e => e
  end.

Record Db (T : Type) := MkDb { tables : T; faults : list (option Fault) }.

Arguments MkDb {T} tables faults.
Arguments tables {T} _.
Arguments faults {T} _.

(** What the database does to the next statement. *)
Definition next_fault (script : list (option Fault)) : option SqlError :=
  fault_error <$> default None (head script).

Section statements.
Context {T : Type}.

(** One statement: a fault of the database, a violated constraint, or the
    new tables and what the statement returns. *)
Definition statement {E A} (convert : SqlError -> E)
    (body : T -> Result SqlError (T * A)) : Mut (Db T) E A := fun db =>
  match next_fault (faults db) with
  | Some e => (MkDb (tables db) (tail (faults db)), Err (convert e))
  | None =>
      match body (tables db) with
      | Ok (t, a) => (MkDb t (tail (faults db)), Ok a)
      | Err e => (MkDb (tables db) (tail (faults db)), Err (convert e))
      end
  end.

(** A [SELECT]. *)
Definition query {E A} (convert : SqlError -> E) (view : T -> A) : Mut (Db T) E A :=
  statement convert (fun t => Ok (t, view t)).

(** [begin], the body, and [commit] when [commits] holds of its value; in
    every other case the transaction is dropped, which rolls it back. *)
Definition transaction_if {E A} (commits : A -> bool) (begin_error : SqlError -> E)
    (commit_error : A -> SqlError -> E) (body : Mut (Db T) E A) : Mut (Db T) E A := fun db =>
  let restore db' := MkDb (tables db) (faults db') in
  match statement begin_error (fun t => Ok (t, tt)) db with
  | (db1, Err e) => (db1, Err e)
  | (db1, Ok _) =>
      match body db1 with
      | (db2, Err e) => (restore db2, Err e)
      | (db2, Ok a) =>
          if commits a then
            match statement (commit_error a) (fun t => Ok (t, tt)) db2 with
            | (db3, Ok _) => (db3, Ok a)
            | (db3, Err e) => (restore db3, Err e)
            end
          else (restore db2, Ok a)
      end
  end.

Definition transaction {E A}
    (begin_error commit_error : SqlError -> E) (body : Mut (Db T) E A) : Mut (Db T) E A :=
  transaction_if (fun _ => true) begin_error (fun _ => commit_error) body.

(** The same over a network: a [COMMIT] whose reply is lost has happened. *)
Definition remote_transaction {E A} (begin_error : SqlError -> E)
    (commit_error : A -> SqlError -> E) (body : Mut (Db T) E A) : Mut (Db T) E A := fun db =>
  let restore db' := MkDb (tables db) (faults db') in
  match statement begin_error (fun t => Ok (t, tt)) db with
  | (db1, Err e) => (db1, Err e)
  | (db1, Ok _) =>
      match body db1 with
      | (db2, Err e) => (restore db2, Err e)
      | (db2, Ok a) =>
          let db3 := MkDb (tables db2) (tail (faults db2)) in
          match default None (head (faults db2)) with
          | None => (db3, Ok a)
          | Some (Fails e) => (restore db3, Err (commit_error a e))
          | Some (LosesReply e) => (db3, Err (commit_error a e))
          end
      end
  end.

End statements.
