(* ===== verification/PersistenceSqlLogic.v ===== *)
(** * Reasoning about statements and transactions

    [run m t Q S]: from tables [t], whatever the database fails, [m] either
    returns a value and tables that satisfy [Q], or an error and tables that
    satisfy [S].  [transparent] and [atomic]: faults only abort.  The lemmas
    about the primitives say what an update that succeeds has done. *)

From stdpp Require Import sorting.
From S2P Require Import Prelude Text.
From S2P Require Import PersistenceSql.

Definition run {T E A} (m : Mut (Db T) E A) (t : T)
    (Q : A -> T -> Prop) (S : E -> T -> Prop) : Prop :=
  forall fs, wp m (fun a db => Q a (tables db)) (fun e db => S e (tables db)) (MkDb t fs).

Section run.
Context {T E : Type}.
Implicit Types (S : E -> T -> Prop) (t : T).

Lemma run_ret {A} (a : A) t Q S : Q a t -> run (mret a) t Q S.
Proof. by intros HQ fs. Qed.

Lemma run_fail {A} (e : E) t (Q : A -> T -> Prop) S : S e t -> run (fail e) t Q S.
Proof. by intros HS fs. Qed.

Lemma run_bind {A B} (m : Mut (Db T) E A) (k : A -> Mut (Db T) E B) t Q S :
  run m t (fun a t' => run (k a) t' Q S) S -> run (m ≫= k) t Q S.
Proof.
  intros Hm fs. apply wp_bind. specialize (Hm fs). unfold wp in *.
  destruct (m (MkDb t fs)) as [[t' fs'] [a|e]]; [exact (Hm fs')|exact Hm].
Qed.

Lemma run_mono {A} (m : Mut (Db T) E A) t (Q Q' : A -> T -> Prop) S S' :
  run m t Q S -> (forall a t', Q a t' -> Q' a t') -> (forall e t', S e t' -> S' e t') ->
  run m t Q' S'.
Proof. intros Hm HQ HS fs. eapply wp_mono; [exact (Hm fs)|..]; naive_solver. Qed.

Lemma run_lift {A} (r : Result E A) t Q S :
  (forall a, r = Ok a -> Q a t) -> (forall e, r = Err e -> S e t) -> run (lift r) t Q S.
Proof. intros HQ HS fs. unfold wp, lift. destruct r; cbn; auto. Qed.

Lemma run_statement {A} convert (body : T -> Result SqlError (T * A)) t Q S :
  (forall e, S (convert e) t) -> (forall t' a, body t = Ok (t', a) -> Q a t') ->
  run (statement convert body) t Q S.
Proof.
  intros HS HQ fs. unfold wp, statement. cbn [tables faults].
  destruct (next_fault fs); [apply HS|].
  destruct (body t) as [[t' a]|e]; cbn; auto.
Qed.

Lemma run_query {A} convert (view : T -> A) t Q S :
  (forall e, S (convert e) t) -> Q (view t) t -> run (query convert view) t Q S.
Proof. intros HS HQ. apply run_statement; [done|]. by intros t' a [= <- <-]. Qed.

Lemma run_transaction_if {A} commits begin_error commit_error (body : Mut (Db T) E A) t Q S :
  (forall e, S (begin_error e) t) -> (forall a e, S (commit_error a e) t) ->
  run body t (fun a t' => Q a (if (commits a : bool) then t' else t)) (fun e _ => S e t) ->
  run (transaction_if commits begin_error commit_error body) t Q S.
Proof.
  intros Hb Hc Hbody fs. unfold wp, transaction_if, statement. cbn [tables faults].
  destruct (next_fault fs); [apply Hb|].
  specialize (Hbody (tail fs)). unfold wp in Hbody.
  destruct (body (MkDb t (tail fs))) as [[t' fs'] [a|e]]; cbn [tables faults] in *; [|done].
  destruct (commits a); [|done]. destruct (next_fault fs'); [apply Hc|done].
Qed.

Lemma run_transaction {A} begin_error commit_error (body : Mut (Db T) E A) t Q S :
  (forall e, S (begin_error e) t) -> (forall e, S (commit_error e) t) ->
  run body t Q (fun e _ => S e t) -> run (transaction begin_error commit_error body) t Q S.
Proof. intros Hb Hc Hbody. by apply run_transaction_if. Qed.

End run.

Lemma run_map_error {T E F A} (f : E -> F) (m : Mut (Db T) E A) t Q S :
  run m t Q (fun e t' => S (f e) t') -> run (map_error f m) t Q S.
Proof.
  intros Hm fs. specialize (Hm fs). unfold wp, map_error in *.
  destruct (m (MkDb t fs)) as [[t' fs'] [a|e]]; exact Hm.
Qed.

(** ** What a call leaves *)

(** Every outcome of a call, error or not, leaves tables that satisfy [P]. *)
Definition leaves {T E A} (m : Mut (Db T) E A) (t : T) (P : T -> Prop) : Prop :=
  run m t (fun _ => P) (fun _ => P).

(** A call that only reads. *)
Definition reads {T E A} (m : Mut (Db T) E A) : Prop := forall t, leaves m t (eq t).

Lemma leaves_bind {T E A B} (m : Mut (Db T) E A) (k : A -> Mut (Db T) E B) t (P : T -> Prop) :
  run m t (fun a t' => leaves (k a) t' P) (fun _ => P) -> leaves (m ≫= k) t P.
Proof. apply run_bind. Qed.

Lemma leaves_lift {T E A} (r : Result E A) t (P : T -> Prop) : P t -> leaves (lift r) t P.
Proof. intros HP. by apply run_lift. Qed.

Lemma reads_leaves {T E A} (m : Mut (Db T) E A) t (P : T -> Prop) :
  reads m -> P t -> leaves m t P.
Proof. intros Hm HP. eapply run_mono; [apply Hm|..]; by intros ? t' <-. Qed.

Lemma reads_lift {T E A} (r : Result E A) : reads (T := T) (lift r).
Proof. intros t. by apply leaves_lift. Qed.

Lemma reads_fail {T E A} (e : E) : reads (T := T) (fail (A := A) e).
Proof. intros t. by apply run_fail. Qed.

Lemma reads_ret {T E A} (a : A) : reads (T := T) (E := E) (mret a).
Proof. intros t. by apply run_ret. Qed.

Lemma reads_query {T E A} convert (view : T -> A) : reads (query (E := E) convert view).
Proof. intros t. by apply run_query. Qed.

Lemma reads_bind {T E A B} (m : Mut (Db T) E A) (k : A -> Mut (Db T) E B) :
  reads m -> (forall a, reads (k a)) -> reads (m ≫= k).
Proof.
  intros Hm Hk t. apply leaves_bind. eapply run_mono; [apply Hm| |done].
  intros a t' <-. apply Hk.
Qed.

Lemma reads_map_error {T E F A} (f : E -> F) (m : Mut (Db T) E A) : reads m -> reads (map_error f m).
Proof. intros Hm t. apply run_map_error. exact (Hm t). Qed.

Lemma reads_transaction_if {T E A} commits begin_error commit_error (body : Mut (Db T) E A) :
  reads body -> reads (transaction_if commits begin_error commit_error body).
Proof.
  intros Hbody t. apply run_transaction_if; [done..|].
  eapply run_mono; [apply Hbody| |done]. intros a t' <-. by destruct (commits a).
Qed.

Create HintDb reads discriminated.

#[export] Hint Resolve reads_lift reads_fail reads_ret reads_query reads_bind reads_map_error
  reads_transaction_if : reads.

(** ** Automation *)

(** One step of a call whose errors are settled by assumptions. *)
Ltac run_step :=
  lazymatch goal with
  | |- leaves _ _ _ => unfold leaves
  | |- run (_ ≫= _) _ _ _ => apply run_bind
  | |- run (fail _) _ _ _ => apply run_fail; auto
  | |- run (mret _) _ _ _ => apply run_ret
  | |- run (lift _) _ _ _ => apply run_lift; [intros ? ?|by auto]
  | |- run (query _ _) _ _ _ => apply run_query; [by auto|]
  | |- run (statement _ _) _ _ _ => apply run_statement; [by auto|intros ? ? ?]
  | |- run (map_error _ _) _ _ _ => apply run_map_error
  | |- run (transaction _ _ _) _ _ _ => apply run_transaction; [by auto|by auto|]
  | |- run (if decide ?P then _ else _) _ _ _ => destruct (decide P)
  | |- run (if ?b then _ else _) _ _ _ => destruct b eqn:?
  end.

Ltac run_steps := repeat (run_step; cbn beta zeta).

(** What only reads. *)
Ltac reads_step :=
  lazymatch goal with
  | |- reads (_ ≫= _) => apply reads_bind; [|intros ?]
  | |- reads (lift _) => apply reads_lift
  | |- reads (fail _) => apply reads_fail
  | |- reads (mret _) => apply reads_ret
  | |- reads (query _ _) => apply reads_query
  | |- reads (map_error _ _) => apply reads_map_error
  | |- reads (transaction_if _ _ _ _) => apply reads_transaction_if
  | |- reads (if ?b then _ else _) => destruct b
  | |- reads (match ?x with Some _ => _ | None => _ end) => destruct x
  end.

Ltac reads_steps := repeat (reads_step; cbn beta zeta).

(** ** Updates *)

Section update_where.
Context {K R : Type} `{Countable K}.
Implicit Types (p check : R -> bool) (f : R -> R) (m : gmap K R).

Lemma update_where_Ok check p f m m' n :
  update_where check p f m = Ok (m', n) ->
  m' = (fun r => if p r then f r else r) <$> m
  /\ n = Z.of_nat (size (filter (fun kr : K * R => p kr.2 = true) m))
  /\ (forall k r, m !! k = Some r -> p r = true -> check (f r) = true).
Proof.
  unfold update_where. destruct (forallb _ _) eqn:Hc; [|done]. intros [= <- <-].
  split_and!; [done..|]. intros k r Hk Hp. rewrite forallb_forall in Hc.
  specialize (Hc r). rewrite Hp in Hc. apply Hc. apply list_elem_of_In, list_elem_of_fmap.
  exists (k, r). split; [done|]. by apply elem_of_map_to_list.
Qed.

Lemma update_where_succeeds check p f m :
  (forall k r, m !! k = Some r -> p r = true -> check (f r) = true) ->
  update_where check p f m
  = Ok ((fun r => if p r then f r else r) <$> m,
        Z.of_nat (size (filter (fun kr : K * R => p kr.2 = true) m))).
Proof.
  intros Hc. unfold update_where. destruct (forallb _ _) eqn:Hall; [done|].
  assert (forallb (fun r => implb (p r) (check (f r))) (map_to_list m).*2 = true) as Ht;
    [|congruence].
  apply forallb_forall. intros r Hr. apply list_elem_of_In, list_elem_of_fmap in Hr as ([k r'] & -> & Hk).
  apply elem_of_map_to_list in Hk. cbn. destruct (p r') eqn:Hp; [|done]. cbn. by eapply Hc.
Qed.

(** An update that addresses one key. *)
Lemma size_filter_key p m k :
  (forall k' r, m !! k' = Some r -> p r = true -> k' = k) ->
  size (filter (fun kr : K * R => p kr.2 = true) m)
  = match m !! k with Some r => if p r then 1%nat else 0%nat | None => 0%nat end.
Proof.
  intros Hkey. destruct (m !! k) as [r|] eqn:Hk; [destruct (p r) eqn:Hp|].
  - assert (filter (fun kr : K * R => p kr.2 = true) m = {[ k := r ]}) as ->; [|apply map_size_singleton].
    apply map_eq. intros k'. apply option_eq. intros r'.
    rewrite map_lookup_filter_Some, lookup_singleton_Some. cbn. split.
    + intros [Hk' Hp']. pose proof (Hkey _ _ Hk' Hp') as ->. split; congruence.
    + by intros [<- <-].
  - apply map_size_empty_iff, map_empty. intros k'. apply map_lookup_filter_None. right.
    intros r' Hk' Hp'. cbn in Hp'. pose proof (Hkey _ _ Hk' Hp') as ->. congruence.
  - apply map_size_empty_iff, map_empty. intros k'. apply map_lookup_filter_None. right.
    intros r' Hk' Hp'. cbn in Hp'. pose proof (Hkey _ _ Hk' Hp') as ->. congruence.
Qed.

Lemma fmap_key p f m k r :
  (forall k' r, m !! k' = Some r -> p r = true -> k' = k) ->
  m !! k = Some r -> p r = true ->
  (fun r => if p r then f r else r) <$> m = <[k := f r]> m.
Proof.
  intros Hkey Hk Hp. apply map_eq. intros k'. rewrite lookup_fmap.
  destruct (decide (k' = k)) as [->|Hne].
  - rewrite Hk, lookup_insert_eq. cbn. by rewrite Hp.
  - rewrite lookup_insert_ne by done. destruct (m !! k') as [r'|] eqn:Hk'; [|done]. cbn.
    destruct (p r') eqn:Hp'; [|done]. by destruct Hne, (Hkey _ _ Hk' Hp').
Qed.

(** One row changed: which, and what it was. *)
Lemma update_where_one check p f m m' k :
  (forall k' r, m !! k' = Some r -> p r = true -> k' = k) ->
  update_where check p f m = Ok (m', 1) ->
  exists r, m !! k = Some r /\ p r = true /\ check (f r) = true /\ m' = <[k := f r]> m.
Proof.
  intros Hkey Hu. apply update_where_Ok in Hu as (-> & Hn & Hc).
  rewrite (size_filter_key _ _ k Hkey) in Hn.
  destruct (m !! k) as [r|] eqn:Hk; [|done]. destruct (p r) eqn:Hp; [|done].
  exists r. split_and!; [done..|by eapply Hc|by apply fmap_key].
Qed.

Lemma update_where_at check p f m k r :
  (forall k' r, m !! k' = Some r -> p r = true -> k' = k) ->
  m !! k = Some r -> p r = true -> check (f r) = true ->
  update_where check p f m = Ok (<[k := f r]> m, 1).
Proof.
  intros Hkey Hk Hp Hc. rewrite update_where_succeeds.
  - rewrite (size_filter_key _ _ k Hkey), Hk, Hp. by rewrite (fmap_key _ _ _ k r).
  - intros k' r' Hk' Hp'. pose proof (Hkey _ _ Hk' Hp') as ->. by simplify_eq.
Qed.

End update_where.

(** ** Ordered selects *)

Section order_by.
Context {A : Type} (key : A -> Z).

Lemma insert_by_permutation x l : insert_by key x l ≡ₚ x :: l.
Proof.
  induction l as [|y l IH]; cbn; [done|]. destruct (key x <=? key y); [done|].
  rewrite IH. by constructor.
Qed.

Lemma order_by_permutation l : order_by key l ≡ₚ l.
Proof. induction l as [|x l IH]; cbn; [done|]. by rewrite insert_by_permutation, IH. Qed.

Lemma elem_of_order_by x l : x ∈ order_by key l <-> x ∈ l.
Proof. by rewrite order_by_permutation. Qed.

Lemma insert_by_sorted x l : Sorted Z.le (key <$> l) -> Sorted Z.le (key <$> insert_by key x l).
Proof.
  intros Hl. induction l as [|y l IH]; cbn; [by repeat constructor|].
  destruct (Z.leb_spec (key x) (key y)); cbn; [constructor; [exact Hl|by constructor]|].
  inversion Hl as [|? ? Hs Hh]; subst. constructor; [by apply IH|].
  destruct l as [|z l]; cbn; [constructor; lia|].
  destruct (Z.leb_spec (key x) (key z)); cbn; constructor; [lia|]. by inversion Hh.
Qed.

Lemma order_by_sorted l : Sorted Z.le (key <$> order_by key l).
Proof. induction l as [|x l IH]; cbn; [constructor|]. by apply insert_by_sorted. Qed.

Lemma order_by_id l : Sorted Z.le (key <$> l) -> order_by key l = l.
Proof.
  induction l as [|x l IH]; cbn; [done|]. intros Hl. inversion Hl as [|? ? Hs Hh]; subst.
  rewrite IH by done. destruct l as [|y l]; cbn; [done|].
  inversion Hh; subst. by rewrite (proj2 (Z.leb_le _ _)).
Qed.

End order_by.

(** ** Taking a successful run apart *)

Section inversion.
Context {T E : Type}.

Lemma bind_inv {A B} (m : Mut (Db T) E A) (k : A -> Mut (Db T) E B) db db' b :
  (m ≫= k) db = (db', Ok b) -> exists a db1, m db = (db1, Ok a) /\ k a db1 = (db', Ok b).
Proof.
  unfold mbind, Mut_bind. destruct (m db) as [db1 [a|e]]; [|done]. intros Hk. by exists a, db1.
Qed.

Lemma query_inv {A} convert (view : T -> A) t db a :
  query (E := E) convert view (MkDb t []) = (db, Ok a) -> db = MkDb t [] /\ a = view t.
Proof. by intros [= <- <-]. Qed.

Lemma lift_inv {A} (r : Result E A) (db db' : (Db T)) a :
  lift r db = (db', Ok a) -> db' = db /\ r = Ok a.
Proof. by intros [= -> ->]. Qed.

Lemma statement_inv {A} convert (body : T -> Result SqlError (T * A)) t db a :
  statement (E := E) convert body (MkDb t []) = (db, Ok a) ->
  exists t', db = MkDb t' [] /\ body t = Ok (t', a).
Proof.
  unfold statement. cbn. destruct (body t) as [[t' a']|e]; [|done]. intros [= <- <-]. by exists t'.
Qed.

Lemma transaction_inv {A} begin_error commit_error (body : Mut (Db T) E A) t db a :
  transaction begin_error commit_error body (MkDb t []) = (db, Ok a) ->
  exists t' script, body (MkDb t []) = (MkDb t' script, Ok a) /\ tables db = t'.
Proof.
  unfold transaction, transaction_if. cbn. destruct (body (MkDb t [])) as [[t' script] [a'|e]]; [|done].
  unfold statement. cbn. destruct (next_fault script); [done|]. intros [= <- <-]. eauto.
Qed.

Lemma map_error_inv {F A} (f : F -> E) (m : Mut (Db T) F A) db db' a :
  map_error f m db = (db', Ok a) -> m db = (db', Ok a).
Proof. unfold map_error. destruct (m db) as [db1 [a'|e]]; [|done]. by intros [= <- <-]. Qed.

End inversion.

Ltac invert_run :=
  repeat match goal with
  | H : (_ ≫= _) _ = (_, Ok _) |- _ => apply bind_inv in H as (? & ? & H & ?)
  | H : query _ _ (MkDb _ []) = (_, Ok _) |- _ => apply query_inv in H as [-> ->]
  | H : lift _ _ = (_, Ok _) |- _ => apply lift_inv in H as [?Hdb H]; subst
  | H : statement _ _ (MkDb _ []) = (_, Ok _) |- _ => apply statement_inv in H as (? & -> & H)
  | H : map_error _ _ _ = (_, Ok _) |- _ => apply map_error_inv in H
  | H : fail _ _ = (_, Ok _) |- _ => discriminate H
  | H : mret _ _ = (_, Ok _) |- _ => injection H as <- <-
  | H : (if decide ?P then _ else _) _ = (_, Ok _) |- _ => destruct (decide P)
  | H : (if ?b then _ else _) _ = (_, Ok _) |- _ => destruct b eqn:?
  | H : ok_or _ _ = Ok _ |- _ => apply ok_or_Ok in H
  | H : map_err _ _ = Ok _ |- _ => apply map_err_Ok in H
  end.

(** ** Runs without faults *)

Section quiet.
Context {T E A B : Type}.
Implicit Types (k : A -> Mut (Db T) E B) (t : T).

Lemma quiet_query convert (view : T -> A) k t :
  (query convert view ≫= k) (MkDb t []) = k (view t) (MkDb t []).
Proof. done. Qed.

Lemma quiet_lift_Ok (a : A) k (db : Db T) : (lift (Ok a) ≫= k) db = k a db.
Proof. done. Qed.

Lemma quiet_lift_Err (e : E) k (db : Db T) : (lift (Err e) ≫= k) db = (db, Err e).
Proof. done. Qed.

Lemma quiet_bind_Ok (m : Mut (Db T) E A) k (db db' : Db T) a :
  m db = (db', Ok a) -> (m ≫= k) db = k a db'.
Proof. unfold mbind, Mut_bind. by intros ->. Qed.

Lemma quiet_bind_Err (m : Mut (Db T) E A) k (db db' : Db T) e :
  m db = (db', Err e) -> (m ≫= k) db = (db', Err e).
Proof. unfold mbind, Mut_bind. by intros ->. Qed.

Lemma quiet_statement convert (body : T -> Result SqlError (T * A)) t :
  statement (E := E) convert body (MkDb t [])
  = match body t with
    | Ok (t', a) => (MkDb t' [], Ok a)
    | Err e => (MkDb t [], Err (convert e))
    end.
Proof. done. Qed.

Lemma quiet_transaction_if commits begin_error commit_error (body : Mut (Db T) E A) t t' a :
  body (MkDb t []) = (MkDb t' [], Ok a) -> commits a = true ->
  transaction_if commits begin_error commit_error body (MkDb t []) = (MkDb t' [], Ok a).
Proof.
  intros Hbody Hc. unfold transaction_if, statement. cbn. rewrite Hbody. cbn. by rewrite Hc.
Qed.

Lemma quiet_map_error {F} (f : F -> E) (m : Mut (Db T) F A) (db db' : Db T) a :
  m db = (db', Ok a) -> map_error f m db = (db', Ok a).
Proof. intros Hm. unfold map_error. by rewrite Hm. Qed.

End quiet.

(** ** Faults only abort *)

(** A success is what happens when nothing fails. *)
Definition transparent {T E A} (m : Mut (Db T) E A) : Prop :=
  forall t script db a, m (MkDb t script) = (db, Ok a) -> m (MkDb t []) = (MkDb (tables db) [], Ok a).

(** An error leaves the tables of before or those of a run without faults. *)
Definition atomic {T E A} (m : Mut (Db T) E A) : Prop :=
  transparent m /\ forall t script db e, m (MkDb t script) = (db, Err e) ->
    tables db = t \/ tables db = tables (m (MkDb t [])).1.

Section combinators.
Context {T E : Type}.

Lemma transparent_lift {A} (r : Result E A) : transparent (T := T) (lift r).
Proof. by intros t script db a [= <- ->]. Qed.

Lemma transparent_fail {A} (e : E) : transparent (T := T) (fail (A := A) e).
Proof. by intros t script db a [=]. Qed.

Lemma transparent_ret {A} (a : A) : transparent (T := T) (E := E) (mret a).
Proof. by intros t script db a' [= <- <-]. Qed.

Lemma transparent_statement {A} convert (body : T -> Result SqlError (T * A)) :
  transparent (statement (E := E) convert body).
Proof.
  intros t script db a. unfold statement. cbn [tables faults].
  destruct (next_fault script); [done|]. cbn.
  destruct (body t) as [[t' a']|e]; [|done]. by intros [= <- <-].
Qed.

Lemma transparent_query {A} convert (view : T -> A) :
  transparent (query (E := E) convert view).
Proof. apply transparent_statement. Qed.

Lemma transparent_bind {A B} (m : Mut (Db T) E A) (k : A -> Mut (Db T) E B) :
  transparent m -> (forall a, transparent (k a)) -> transparent (m ≫= k).
Proof.
  intros Hm Hk t script db b. unfold mbind, Mut_bind.
  destruct (m (MkDb t script)) as [[t' script'] [a|e]] eqn:Hma; [|done]. intros Hkb.
  rewrite (Hm _ _ _ _ Hma). by eapply Hk.
Qed.

Lemma transparent_map_error {F A} (f : F -> E) (m : Mut (Db T) F A) :
  transparent m -> transparent (map_error f m).
Proof.
  intros Hm t script db a. unfold map_error.
  destruct (m (MkDb t script)) as [db' [a'|e]] eqn:Hma; [|done]. intros [= <- <-].
  by rewrite (Hm _ _ _ _ Hma).
Qed.

Lemma transaction_if_atomic {A} commits begin_error commit_error (body : Mut (Db T) E A) :
  transparent body -> atomic (transaction_if commits begin_error commit_error body).
Proof.
  intros Hbody. split.
  - intros t script db a. unfold transaction_if, statement. cbn [tables faults].
    destruct (next_fault script); [done|].
    destruct (body (MkDb t (tail script))) as [[t' script'] [a'|e]] eqn:Hb; [|done].
    cbn. rewrite (Hbody _ _ _ _ Hb). destruct (commits a').
    + destruct (next_fault script'); [done|]. by intros [= <- <-].
    + by intros [= <- <-].
  - intros t script db e. left. revert H. unfold transaction_if, statement. cbn [tables faults].
    destruct (next_fault script); [by intros [= <- _]|].
    destruct (body (MkDb t (tail script))) as [[t' script'] [a'|e']]; [|by intros [= <- _]].
    cbn. destruct (commits a'); [|done]. destruct (next_fault script'); [|done].
    by intros [= <- _].
Qed.

Lemma statement_atomic {A} convert (body : T -> Result SqlError (T * A)) :
  atomic (statement (E := E) convert body).
Proof.
  split; [apply transparent_statement|]. intros t script db e. left. revert H. unfold statement.
  cbn [tables faults]. destruct (next_fault script); [by intros [= <- _]|].
  destruct (body t) as [[t' a]|e']; [done|]. by intros [= <- _].
Qed.

Lemma reads_tables {A} (m : Mut (Db T) E A) t script : reads m -> tables (m (MkDb t script)).1 = t.
Proof.
  intros Hm. specialize (Hm t script). unfold wp in Hm. destruct (m (MkDb t script)) as [db [a|e]];
    symmetry; exact Hm.
Qed.

Lemma reads_atomic {A} (m : Mut (Db T) E A) : reads m -> transparent m -> atomic m.
Proof.
  intros Hr Ht. split; [done|]. intros t script db e Hm. left.
  pose proof (reads_tables m t script Hr) as Htab. by rewrite Hm in Htab.
Qed.

(** Reads and checks before the change. *)
Lemma atomic_after {A B} (m : Mut (Db T) E A) (k : A -> Mut (Db T) E B) :
  reads m -> transparent m -> (forall a, atomic (k a)) -> atomic (m ≫= k).
Proof.
  intros Hr Ht Hk. split; [apply transparent_bind; [done|intros a; apply Hk]|].
  intros t script db e. unfold mbind, Mut_bind.
  pose proof (reads_tables m t script Hr) as Htab.
  destruct (m (MkDb t script)) as [[t' script'] [a|e']] eqn:Hma; cbn in Htab; subst t'.
  - rewrite (Ht _ _ _ _ Hma). by apply Hk.
  - intros [= <- _]. by left.
Qed.

(** Reads and checks after it. *)
Lemma atomic_before {A B} (m : Mut (Db T) E A) (k : A -> Mut (Db T) E B) :
  atomic m -> (forall a, reads (k a)) -> (forall a, transparent (k a)) -> atomic (m ≫= k).
Proof.
  intros [Ht Ha] Hr Htk. split; [by apply transparent_bind|].
  assert (forall t, tables ((m ≫= k) (MkDb t [])).1 = tables (m (MkDb t [])).1) as Hsame.
  { intros t. unfold mbind, Mut_bind. destruct (m (MkDb t [])) as [[t' script'] [a|e]]; [|done].
    by rewrite reads_tables. }
  intros t script db e He. rewrite Hsame. revert He. unfold mbind, Mut_bind.
  destruct (m (MkDb t script)) as [[t' script'] [a|e']] eqn:Hma.
  - intros Hka. rewrite (Ht _ _ _ _ Hma). cbn. right.
    pose proof (reads_tables (k a) t' script' (Hr a)) as Htab. by rewrite Hka in Htab.
  - intros [= <- _]. by eapply Ha.
Qed.

End combinators.

Lemma map_error_atomic {T E F A} (f : F -> E) (m : Mut (Db T) F A) : atomic m -> atomic (map_error f m).
Proof.
  intros [Ht Ha]. split; [by apply transparent_map_error|]. intros t script db e. unfold map_error.
  destruct (m (MkDb t script)) as [db' [a|e']] eqn:Hm; [done|]. intros [= <- _].
  destruct (Ha _ _ _ _ Hm) as [?|Hs]; [by left|right]. rewrite Hs.
  by destruct (m (MkDb t [])) as [? ?].
Qed.

(** ** Transactions over a network *)

Section remote.
Context {T E A : Type} (begin_error : SqlError -> E) (commit_error : A -> SqlError -> E).
Context (body : Mut (Db T) E A) (transparent_body : transparent body).

(** A lost reply is the only way in which an error is reported of a change
    that has happened. *)
Lemma remote_transaction_atomic : atomic (remote_transaction begin_error commit_error body).
Proof using transparent_body.
  split; intros t script db x; unfold remote_transaction, statement; cbn [tables faults];
    (destruct (next_fault script); [first [done|by intros [= <- _]; left]|]);
    (destruct (body (MkDb t (tail script))) as [[t' script'] [a|e]] eqn:Hb;
       [|first [done|by intros [= <- _]; left]]);
    cbn; rewrite (transparent_body _ _ _ _ Hb); cbn;
    destruct (default None (head script')) as [[e|e]|]; intros [= <- <-]; cbn; auto.
Qed.

(** Nothing fails: the body decides, and an error changes nothing. *)
Lemma remote_transaction_quiet t :
  remote_transaction begin_error commit_error body (MkDb t [])
  = match body (MkDb t []) with
    | (db, Ok a) => (MkDb (tables db) [], Ok a)
    | (db, Err e) => (MkDb t (faults db), Err e)
    end.
Proof using transparent_body.
  unfold remote_transaction, statement. cbn.
  destruct (body (MkDb t [])) as [[t' script] [a|e]] eqn:Hb; [|done].
  pose proof (transparent_body _ _ _ _ Hb) as Hq. rewrite Hb in Hq. injection Hq as ->. done.
Qed.

End remote.

(** ** Automation *)

Ltac transparent_step :=
  lazymatch goal with
  | |- transparent (_ ≫= _) => apply transparent_bind; [|intros ?]
  | |- transparent (lift _) => apply transparent_lift
  | |- transparent (fail _) => apply transparent_fail
  | |- transparent (mret _) => apply transparent_ret
  | |- transparent (statement _ _) => apply transparent_statement
  | |- transparent (query _ _) => apply transparent_query
  | |- transparent (map_error _ _) => apply transparent_map_error
  | |- transparent (transaction_if _ _ _ _) => apply transaction_if_atomic
  | |- transparent (remote_transaction _ _ _) => apply remote_transaction_atomic
  | |- transparent (if ?b then _ else _) => destruct b
  | |- transparent (match ?x with Some _ => _ | None => _ end) => destruct x
  | |- transparent (let (_, _) := ?x in _) => destruct x
  end.

Ltac transparent_steps := repeat (transparent_step; cbn beta zeta).

(** A call: reads and checks, one change, reads and checks. *)
Ltac atomic_step :=
  lazymatch goal with
  | |- atomic (statement _ _) => apply statement_atomic
  | |- atomic (transaction_if _ _ _ _) => apply transaction_if_atomic
  | |- atomic (transaction _ _ _) => apply transaction_if_atomic
  | |- atomic (map_error _ _) => apply map_error_atomic
  | |- atomic (fail _) => apply reads_atomic; [apply reads_fail|apply transparent_fail]
  | |- atomic (if ?b then _ else _) => destruct b
  | |- atomic (lift _ ≫= _) =>
      apply atomic_after; [apply reads_lift|apply transparent_lift|intros ?]
  | |- atomic (_ ≫= _) => apply atomic_before; [|intros ?|intros ?]
  end.

Ltac atomic_steps :=
  repeat ((atomic_step || reads_step || transparent_step); cbn beta zeta).
