(* ===== verification/PersistenceColumns.v ===== *)
(** * What the PostgreSQL stores share (crates/persistence/migrations,
    crates/persistence/src/error.rs)

    A [UUID] column takes any UUID; the checks of the migrations look at its
    text.  A [JSONB] column stores what PostgreSQL makes of a JSON value, or
    refuses it: the interface [PostgresJson].  Of the errors, the boxed sources
    that only logging reads are left out, except the kind of a database error,
    which [write] inspects. *)

From S2P Require Import Prelude Text DomainIdentifier DeviceProtocolValues.
From S2P Require Import PersistenceSql.

(** ** Errors *)

Definition i32_min : Z := -2147483648.
Definition i32_max : Z := 2147483647.

(** [i32::try_from]. *)
Definition i32_try_from (z : Z) : option Z :=
  if (i32_min <=? z) && (z <=? i32_max) then Some z else None.

Lemma i32_try_from_in z : i32_min <= z <= i32_max -> i32_try_from z = Some z.
Proof.
  intros [Hl Hu]. unfold i32_try_from. by rewrite (proj2 (Z.leb_le _ _) Hl), (proj2 (Z.leb_le _ _) Hu).
Qed.

Module PersistenceError.

Inductive t :=
| EmptyDatabaseUrl
| ZeroMaxConnections
| InvalidPoolBounds (minimum maximum : Z)
| ZeroAcquireTimeout
| InvalidStoredValue (field : Str)
| NumericValueOutOfRange (field : Str)
| WriteConditionFailed (entity : Str)
| Serialization (operation : Str)
| ConstraintViolation (entity kind : Str) (source : SqlError)
| Database (operation : Str) (source : SqlError)
| Migration.

#[global] Instance eq_dec : EqDecision t.
Proof. solve_decision. Defined.

Definition serialization (operation : Str) : t := Serialization operation.

Definition database (operation : Str) (source : SqlError) : t := Database operation source.

Definition migration : t := Migration.

(** A write that met a unique constraint lost a race or repeats a creation;
    the other constraints are named. *)
Definition write (operation entity : Str) (source : SqlError) : t :=
  match source with
  | UniqueViolation => WriteConditionFailed entity
  | ForeignKeyViolation => ConstraintViolation entity (lit "foreign-key") source
  | NotNullViolation => ConstraintViolation entity (lit "not-null") source
  | CheckViolation => ConstraintViolation entity (lit "check") source
  | ExclusionViolation => ConstraintViolation entity (lit "exclusion") source
  | OtherSqlError => database operation source
  end.

End PersistenceError.

(** ** Columns *)

Class PostgresJson := { jsonb : Json -> Result SqlError Json }.

(** The checks on an identifier, by the text of its UUID. *)
Definition uuid_check `{UuidLibrary} {k} (id : Identifier k) : bool :=
  let text := identifier_to_string id in
  negb (as_u128 (into_uuid id) =? 0)%N
  && bool_decide (text !! 14%nat = Some 55)
  && bool_decide (text !! 19%nat ∈ (Some <$> lit "89ab")).

(** The hyphenated text shows the version and the variant. *)
Class UuidTextLaws `{UuidLibrary} : Prop := {
  identifier_passes {k} (id : Identifier k) : identifier_wf id -> uuid_check id = true;
  identifier_read {k} (id : Identifier k) : uuid_check id = true -> identifier_wf id
}.

(** ** The reference library satisfies the laws *)

(** The text of a UUID, digit by digit. *)
Lemma hex_fixed_lookup width n i :
  (i < width)%nat ->
  hex_fixed width n !! i = Some (hex_digit ((n / 16 ^ Z.of_nat (width - S i)) `mod` 16)).
Proof.
  revert n. induction width as [|width IH]; intros n Hi; [lia|]. cbn [hex_fixed].
  destruct (decide (i = width)) as [->|Hne].
  - rewrite lookup_app_r by (rewrite length_hex_fixed; lia). rewrite length_hex_fixed.
    rewrite Nat.sub_diag, Nat.sub_diag. cbn. by rewrite Z.div_1_r.
  - rewrite lookup_app_l by (rewrite length_hex_fixed; lia). rewrite IH by lia.
    replace (S width - S i)%nat with (S (width - S i)) by lia.
    rewrite Nat2Z.inj_succ, Z.pow_succ_r by lia. by rewrite Z.div_div by lia.
Qed.

Lemma hyphenate_digits d :
  length d = 32%nat -> hyphenate d !! 14%nat = d !! 12%nat /\ hyphenate d !! 19%nat = d !! 16%nat.
Proof. intros Hd. do 32 (destruct d as [|? d]; [discriminate|]). by destruct d. Qed.

(** The two hexadecimal digits that the checks look at. *)
Lemma uuid_check_digits {k} (id : Identifier k) :
  let n := Z.of_N (as_u128 (into_uuid id)) in
  uuid_check id
  = negb (as_u128 (into_uuid id) =? 0)%N
    && bool_decide (Some (hex_digit ((n / 2 ^ 76) `mod` 16)) = Some 55)
    && bool_decide (Some (hex_digit ((n / 2 ^ 60) `mod` 16)) ∈ (Some <$> lit "89ab")).
Proof.
  destruct id as [u]. unfold uuid_check, identifier_to_string.
  cbn [into_uuid uuid_fmt reference_uuid].
  destruct (hyphenate_digits _ (length_hex_fixed 32 (Z.of_N (as_u128 u)))) as [-> ->].
  by rewrite !hex_fixed_lookup by lia.
Qed.

Lemma hex_digit_seven d : 0 <= d < 16 -> Some (hex_digit d) = Some 55 <-> d = 7.
Proof.
  intros Hd. split; [|by intros ->]. intros [= Hh]. unfold hex_digit in Hh. case_match; lia.
Qed.

Lemma hex_digit_variant d :
  0 <= d < 16 -> Some (hex_digit d) ∈ (Some <$> lit "89ab") <-> d / 4 = 2.
Proof.
  intros Hd. assert (d / 4 = 2 <-> d = 8 \/ d = 9 \/ d = 10 \/ d = 11) as ->
    by (split; intros; Z.div_mod_to_equations; lia).
  change (Some <$> lit "89ab") with [Some 56; Some 57; Some 97; Some 98].
  rewrite !elem_of_cons, elem_of_nil. split.
  - intros Hx. unfold hex_digit in Hx. case_match;
      repeat (destruct Hx as [Hx|Hx]; [injection Hx; lia|]); done.
  - intros [->|[->|[->| ->]]]; vm_compute; tauto.
Qed.

Lemma uuid_bits_variant u : uuid_bits u 62 2 = (Z.of_N (as_u128 u) / 2 ^ 60) `mod` 16 / 4.
Proof.
  unfold uuid_bits. set (n := Z.of_N (as_u128 u)).
  replace (n / 2 ^ 62) with (n / 2 ^ 60 / 4) by (rewrite Z.div_div by lia; done).
  change (2 ^ 2) with 4. generalize (n / 2 ^ 60). intros m. Z.div_mod_to_equations. lia.
Qed.

Lemma uuid_check_iff {k} (id : Identifier k) : uuid_check id = true <-> identifier_wf id.
Proof.
  rewrite uuid_check_digits. destruct id as [u]. unfold identifier_wf. cbn.
  rewrite !andb_true_iff, !bool_decide_eq_true, negb_true_iff.
  pose proof (Z.mod_pos_bound (Z.of_N (as_u128 u) / 2 ^ 76) 16 ltac:(lia)) as H76.
  pose proof (Z.mod_pos_bound (Z.of_N (as_u128 u) / 2 ^ 60) 16 ltac:(lia)) as H60.
  rewrite (hex_digit_seven _ H76), (hex_digit_variant _ H60), <- uuid_bits_variant, Z.eqb_eq.
  change (uuid_bits u 76 4) with ((Z.of_N (as_u128 u) / 2 ^ 76) `mod` 16). split.
  - intros [[? ->] ?]. auto.
  - intros (? & ? & [= ->]). auto.
Qed.

#[global] Instance reference_uuid_text : UuidTextLaws.
Proof. split; intros k id; apply uuid_check_iff. Qed.
