(* ===== verification/PersistenceReaderStore.v ===== *)
(** * The reader's SQLite store (crates/persistence/reader_migrations, and
    the statements of crates/persistence/src/reader_*.rs)

    The tables the reader migrations create, the constraints they carry, and
    the SQL the reader code uses on them: [UPDATE .. WHERE] with the number of
    rows changed, [INSERT] with its constraints, [SELECT .. ORDER BY ..
    LIMIT], and transactions.  The pool has one connection
    (reader_sqlite.rs), so statements and transactions do not interleave.

    A column that the code writes with [to_string] or [as_str] and reads back
    with [parse] holds the value itself: identifiers and states compare equal
    exactly when their texts do. *)

From S2P Require Import Prelude Text DomainMoney DomainIdentifier DomainTransaction PersistenceSqlLogic.
From S2P Require Export PersistenceSql.

(** ** Failures *)

Module ReaderQueueError.

Inductive t :=
| NegativePersistenceTime (unix_milliseconds : Z)
| SequenceUnavailable (reader_id : ReaderId)
| WriteConflict (source : SqlError)
| Serialization (field : Str)
| InvalidStoredValue (field : Str)
| Database (operation : Str) (source : SqlError).

#[global] Instance eq_dec : EqDecision t.
Proof. solve_decision. Defined.

Definition database (operation : Str) (source : SqlError) : t :=
  if decide (source = UniqueViolation) then WriteConflict source
  else Database operation source.

Definition invalid_stored_value (field : Str) : t := InvalidStoredValue field.

End ReaderQueueError.

Module ReaderSynchronizationError.

Inductive t :=
| NegativeOperationTime (unix_milliseconds : Z)
| ZeroBatchLimit
| BatchLimitTooLarge (limit : Z)
| NoEligibleTransactions (reader_id : ReaderId)
| BatchNotFound (batch_id : SynchronizationBatchId) (reader_id : ReaderId)
| QueueStateConflict (transaction_id : FareTransactionId)
| InvalidStoredValue (field : Str)
| Database (operation : Str) (source : SqlError).

#[global] Instance eq_dec : EqDecision t.
Proof. solve_decision. Defined.

Definition database (operation : Str) (source : SqlError) : t := Database operation source.
Definition invalid_stored_value (field : Str) : t := InvalidStoredValue field.

End ReaderSynchronizationError.

(** ** States *)

Module OfflineQueueState.

Inductive t :=
| Pending | InFlight | Acknowledged | RetryableFailure | PermanentFailure | ManualReview.

#[global] Instance eq_dec : EqDecision t.
Proof. solve_decision. Defined.

Definition as_str (self : t) : Str :=
  match self with
  | Pending => lit "pending"
  | InFlight => lit "in_flight"
  | Acknowledged => lit "acknowledged"
  | RetryableFailure => lit "retryable_failure"
  | PermanentFailure => lit "permanent_failure"
  | ManualReview => lit "manual_review"
  end.

Definition parse (value : Str) : Result ReaderQueueError.t t :=
  if decide (value = lit "pending") then Ok Pending
  else if decide (value = lit "in_flight") then Ok InFlight
  else if decide (value = lit "acknowledged") then Ok Acknowledged
  else if decide (value = lit "retryable_failure") then Ok RetryableFailure
  else if decide (value = lit "permanent_failure") then Ok PermanentFailure
  else if decide (value = lit "manual_review") then Ok ManualReview
  else Err (ReaderQueueError.invalid_stored_value (lit "queue_state")).

End OfflineQueueState.

Module SynchronizationBatchState.

Inductive t :=
| Prepared | InFlight | RetryableFailure | Acknowledged | PermanentFailure | ManualReview.

#[global] Instance eq_dec : EqDecision t.
Proof. solve_decision. Defined.

Definition as_str (self : t) : Str :=
  match self with
  | Prepared => lit "prepared"
  | InFlight => lit "in_flight"
  | RetryableFailure => lit "retryable_failure"
  | Acknowledged => lit "acknowledged"
  | PermanentFailure => lit "permanent_failure"
  | ManualReview => lit "manual_review"
  end.

Definition parse (value : Str) : Result ReaderSynchronizationError.t t :=
  if decide (value = lit "prepared") then Ok Prepared
  else if decide (value = lit "in_flight") then Ok InFlight
  else if decide (value = lit "retryable_failure") then Ok RetryableFailure
  else if decide (value = lit "acknowledged") then Ok Acknowledged
  else if decide (value = lit "permanent_failure") then Ok PermanentFailure
  else if decide (value = lit "manual_review") then Ok ManualReview
  else Err (ReaderSynchronizationError.invalid_stored_value (lit "batch_state")).

End SynchronizationBatchState.

Module AcknowledgementOutcome.

(** The [outcome] column of an acknowledgement entry. *)
Inductive t := Acknowledged | RetryableFailure | PermanentFailure | ManualReview.

#[global] Instance eq_dec : EqDecision t.
Proof. solve_decision. Defined.

Definition as_str (self : t) : Str :=
  match self with
  | Acknowledged => lit "acknowledged"
  | RetryableFailure => lit "retryable_failure"
  | PermanentFailure => lit "permanent_failure"
  | ManualReview => lit "manual_review"
  end.

End AcknowledgementOutcome.

(** The texts determine the states, which the typed columns rely on. *)
Lemma OfflineQueueState_parse_as_str s :
  OfflineQueueState.parse (OfflineQueueState.as_str s) = Ok s.
Proof. by destruct s. Qed.

Lemma SynchronizationBatchState_parse_as_str s :
  SynchronizationBatchState.parse (SynchronizationBatchState.as_str s) = Ok s.
Proof. by destruct s. Qed.

(** ** Rows *)

Module ReaderStateRow.

Record t := mk {
  reader_id : ReaderId;
  environment_id : Str;
  software_version : Str;
  protocol_version : Z;
  next_local_sequence : Z;
  last_acknowledged_sequence : Z;
  created_at : Z;
  updated_at : Z
}.

#[global] Instance eq_dec : EqDecision t.
Proof. solve_decision. Defined.

End ReaderStateRow.

Module OfflineTransactionRow.

Record t := mk {
  fare_transaction_id : FareTransactionId;
  reader_id : ReaderId;
  local_sequence_number : Z;
  fare_credential_id : FareCredentialId;
  event_time : Z;
  fare_policy_version : Z;
  provisional_decision : FareDecision.t;
  transaction_envelope_json : Str;
  queue_state : OfflineQueueState.t;
  attempt_count : Z;
  next_retry_at : option Z;
  last_failure_category : option Str;
  created_at : Z;
  updated_at : Z
}.

#[global] Instance eq_dec : EqDecision t.
Proof. solve_decision. Defined.

(** The [SET] lists of the updates: only these columns ever change. *)
Definition set_state (state : OfflineQueueState.t) (attempts : Z) (retry : option Z)
    (category : option Str) (updated : Z) (self : t) : t :=
  mk (fare_transaction_id self) (reader_id self) (local_sequence_number self)
    (fare_credential_id self) (event_time self) (fare_policy_version self)
    (provisional_decision self) (transaction_envelope_json self) state attempts retry category
    (created_at self) updated.

End OfflineTransactionRow.

Module BatchRow.

Record t := mk {
  batch_id : SynchronizationBatchId;
  reader_id : ReaderId;
  protocol_version : Z;
  first_local_sequence_number : Z;
  last_local_sequence_number : Z;
  batch_state : SynchronizationBatchState.t;
  attempt_count : Z;
  submitted_at : option Z;
  next_retry_at : option Z;
  last_failure_category : option Str;
  created_at : Z;
  updated_at : Z
}.

#[global] Instance eq_dec : EqDecision t.
Proof. solve_decision. Defined.

Definition set_state (state : SynchronizationBatchState.t) (attempts : Z) (submitted : option Z)
    (retry : option Z) (category : option Str) (updated : Z) (self : t) : t :=
  mk (batch_id self) (reader_id self) (protocol_version self)
    (first_local_sequence_number self) (last_local_sequence_number self) state attempts submitted
    retry category (created_at self) updated.

End BatchRow.

Module EntryRow.

Record t := mk {
  batch_id : SynchronizationBatchId;
  reader_id : ReaderId;
  fare_transaction_id : FareTransactionId;
  local_sequence_number : Z;
  entry_position : Z
}.

#[global] Instance eq_dec : EqDecision t.
Proof. solve_decision. Defined.

End EntryRow.

Module AcknowledgementRow.

Record t := mk {
  batch_id : SynchronizationBatchId;
  reader_id : ReaderId;
  protocol_version : Z;
  first_local_sequence_number : Z;
  last_local_sequence_number : Z;
  received_at : Z;
  payload_json : Str;
  applied_at : option Z
}.

#[global] Instance eq_dec : EqDecision t.
Proof. solve_decision. Defined.

Definition set_applied_at (applied : Z) (self : t) : t :=
  mk (batch_id self) (reader_id self) (protocol_version self)
    (first_local_sequence_number self) (last_local_sequence_number self) (received_at self)
    (payload_json self) (Some applied).

End AcknowledgementRow.

Module AcknowledgementEntryRow.

Record t := mk {
  batch_id : SynchronizationBatchId;
  reader_id : ReaderId;
  fare_transaction_id : FareTransactionId;
  local_sequence_number : Z;
  entry_position : Z;
  outcome : AcknowledgementOutcome.t;
  failure_category : option Str;
  retry_at : option Z
}.

#[global] Instance eq_dec : EqDecision t.
Proof. solve_decision. Defined.

End AcknowledgementEntryRow.

(** ** Tables *)

Record ReaderTables := MkTables {
  reader_state : option ReaderStateRow.t;
  offline_transactions : gmap FareTransactionId OfflineTransactionRow.t;
  synchronization_batches : gmap SynchronizationBatchId BatchRow.t;
  synchronization_entries : list EntryRow.t;
  synchronization_acknowledgements : gmap SynchronizationBatchId AcknowledgementRow.t;
  synchronization_acknowledgement_entries : list AcknowledgementEntryRow.t
}.

Definition set_reader_state (x : option ReaderStateRow.t) (t : ReaderTables) : ReaderTables :=
  MkTables x (offline_transactions t) (synchronization_batches t) (synchronization_entries t)
    (synchronization_acknowledgements t) (synchronization_acknowledgement_entries t).
Definition set_offline_transactions (x : gmap FareTransactionId OfflineTransactionRow.t)
    (t : ReaderTables) : ReaderTables :=
  MkTables (reader_state t) x (synchronization_batches t) (synchronization_entries t)
    (synchronization_acknowledgements t) (synchronization_acknowledgement_entries t).
Definition set_synchronization_batches (x : gmap SynchronizationBatchId BatchRow.t)
    (t : ReaderTables) : ReaderTables :=
  MkTables (reader_state t) (offline_transactions t) x (synchronization_entries t)
    (synchronization_acknowledgements t) (synchronization_acknowledgement_entries t).
Definition set_synchronization_entries (x : list EntryRow.t) (t : ReaderTables) : ReaderTables :=
  MkTables (reader_state t) (offline_transactions t) (synchronization_batches t) x
    (synchronization_acknowledgements t) (synchronization_acknowledgement_entries t).
Definition set_synchronization_acknowledgements
    (x : gmap SynchronizationBatchId AcknowledgementRow.t) (t : ReaderTables) : ReaderTables :=
  MkTables (reader_state t) (offline_transactions t) (synchronization_batches t)
    (synchronization_entries t) x (synchronization_acknowledgement_entries t).
Definition set_synchronization_acknowledgement_entries (x : list AcknowledgementEntryRow.t)
    (t : ReaderTables) : ReaderTables :=
  MkTables (reader_state t) (offline_transactions t) (synchronization_batches t)
    (synchronization_entries t) (synchronization_acknowledgements t) x.

(** What the migrations leave. *)
Definition empty_tables : ReaderTables := MkTables None ∅ ∅ [] ∅ [].

(** ** Constraints *)

(** [length(trim(x)) > 0]: [trim] removes spaces, and [length] stops at the
    first NUL. *)
Fixpoint sql_not_blank (x : Str) : bool :=
  match x with
  | [] => false
  | c :: x' => if c =? 32 then sql_not_blank x' else negb (c =? 0)
  end.

Definition reader_state_check (r : ReaderStateRow.t) : bool :=
  sql_not_blank (ReaderStateRow.environment_id r)
  && sql_not_blank (ReaderStateRow.software_version r)
  && (0 <? ReaderStateRow.protocol_version r) && (ReaderStateRow.protocol_version r <=? 65535)
  && (0 <? ReaderStateRow.next_local_sequence r)
  && (0 <=? ReaderStateRow.last_acknowledged_sequence r)
  && (ReaderStateRow.last_acknowledged_sequence r <? ReaderStateRow.next_local_sequence r)
  && (0 <=? ReaderStateRow.created_at r)
  && (ReaderStateRow.created_at r <=? ReaderStateRow.updated_at r).

Definition offline_transaction_check (r : OfflineTransactionRow.t) : bool :=
  (0 <? OfflineTransactionRow.local_sequence_number r)
  && (0 <=? OfflineTransactionRow.event_time r)
  && (0 <? OfflineTransactionRow.fare_policy_version r)
  && sql_not_blank (OfflineTransactionRow.transaction_envelope_json r)
  && (0 <=? OfflineTransactionRow.attempt_count r)
  && at_least 0 (OfflineTransactionRow.next_retry_at r)
  && (0 <=? OfflineTransactionRow.created_at r)
  && (OfflineTransactionRow.created_at r <=? OfflineTransactionRow.updated_at r).

Definition batch_check (r : BatchRow.t) : bool :=
  (0 <? BatchRow.protocol_version r) && (BatchRow.protocol_version r <=? 65535)
  && (0 <? BatchRow.first_local_sequence_number r)
  && (BatchRow.first_local_sequence_number r <=? BatchRow.last_local_sequence_number r)
  && (0 <=? BatchRow.attempt_count r)
  && at_least 0 (BatchRow.submitted_at r)
  && at_least 0 (BatchRow.next_retry_at r)
  && (0 <=? BatchRow.created_at r)
  && (BatchRow.created_at r <=? BatchRow.updated_at r).

Definition entry_check (r : EntryRow.t) : bool :=
  (0 <? EntryRow.local_sequence_number r) && (0 <=? EntryRow.entry_position r).

Definition acknowledgement_check (r : AcknowledgementRow.t) : bool :=
  (0 <? AcknowledgementRow.protocol_version r) && (AcknowledgementRow.protocol_version r <=? 65535)
  && (0 <? AcknowledgementRow.first_local_sequence_number r)
  && (AcknowledgementRow.first_local_sequence_number r
        <=? AcknowledgementRow.last_local_sequence_number r)
  && (0 <=? AcknowledgementRow.received_at r)
  && sql_not_blank (AcknowledgementRow.payload_json r)
  && at_least (AcknowledgementRow.received_at r) (AcknowledgementRow.applied_at r).

(** Migration 0006: a failure has a category that is not blank, and exactly a
    retryable one has a retry time. *)
Definition outcome_check (r : AcknowledgementEntryRow.t) : bool :=
  let category :=
    match AcknowledgementEntryRow.failure_category r with
    | Some x => sql_not_blank x
    | None => false
    end in
  match AcknowledgementEntryRow.outcome r, AcknowledgementEntryRow.retry_at r with
  | AcknowledgementOutcome.Acknowledged, None =>
      bool_decide (AcknowledgementEntryRow.failure_category r = None)
  | AcknowledgementOutcome.RetryableFailure, Some _ => category
  | AcknowledgementOutcome.PermanentFailure, None
  | AcknowledgementOutcome.ManualReview, None => category
  | _, _ => false
  end.

Definition acknowledgement_entry_check (r : AcknowledgementEntryRow.t) : bool :=
  (0 <? AcknowledgementEntryRow.local_sequence_number r)
  && (0 <=? AcknowledgementEntryRow.entry_position r)
  && at_least 0 (AcknowledgementEntryRow.retry_at r)
  && outcome_check r.

(** ** Inserts
    A row is checked on its own first, then against the unique indexes, then
    against the tables it refers to. *)

Definition insert_offline_transaction (r : OfflineTransactionRow.t) (t : ReaderTables)
  : Result SqlError (ReaderTables * unit) :=
  let id := OfflineTransactionRow.fare_transaction_id r in
  let clashes (x : OfflineTransactionRow.t) : bool :=
    bool_decide (OfflineTransactionRow.reader_id x = OfflineTransactionRow.reader_id r
      /\ OfflineTransactionRow.local_sequence_number x
         = OfflineTransactionRow.local_sequence_number r) in
  if negb (offline_transaction_check r) then Err CheckViolation
  else if bool_decide (is_Some (offline_transactions t !! id))
     || existsb clashes (map_to_list (offline_transactions t)).*2 then Err UniqueViolation
  else if decide (ReaderStateRow.reader_id <$> reader_state t
                  = Some (OfflineTransactionRow.reader_id r)) then
    Ok (set_offline_transactions (<[id := r]> (offline_transactions t)) t, tt)
  else Err ForeignKeyViolation.

Definition insert_batch (r : BatchRow.t) (t : ReaderTables)
  : Result SqlError (ReaderTables * unit) :=
  let id := BatchRow.batch_id r in
  if negb (batch_check r) then Err CheckViolation
  else if decide (is_Some (synchronization_batches t !! id)) then Err UniqueViolation
  else if decide (ReaderStateRow.reader_id <$> reader_state t = Some (BatchRow.reader_id r)) then
    Ok (set_synchronization_batches (<[id := r]> (synchronization_batches t)) t, tt)
  else Err ForeignKeyViolation.

Definition insert_entry (r : EntryRow.t) (t : ReaderTables)
  : Result SqlError (ReaderTables * unit) :=
  let clashes (x : EntryRow.t) : bool :=
    bool_decide (EntryRow.batch_id x = EntryRow.batch_id r
      /\ (EntryRow.fare_transaction_id x = EntryRow.fare_transaction_id r
          \/ EntryRow.local_sequence_number x = EntryRow.local_sequence_number r
          \/ EntryRow.entry_position x = EntryRow.entry_position r)) in
  if negb (entry_check r) then Err CheckViolation
  else if existsb clashes (synchronization_entries t) then Err UniqueViolation
  else if decide (BatchRow.reader_id <$> synchronization_batches t !! EntryRow.batch_id r
                  = Some (EntryRow.reader_id r)
                /\ (fun x => (OfflineTransactionRow.reader_id x,
                              OfflineTransactionRow.local_sequence_number x))
                   <$> offline_transactions t !! EntryRow.fare_transaction_id r
                   = Some (EntryRow.reader_id r, EntryRow.local_sequence_number r)) then
    Ok (set_synchronization_entries (synchronization_entries t ++ [r]) t, tt)
  else Err ForeignKeyViolation.

Definition insert_acknowledgement (r : AcknowledgementRow.t) (t : ReaderTables)
  : Result SqlError (ReaderTables * unit) :=
  let id := AcknowledgementRow.batch_id r in
  if negb (acknowledgement_check r) then Err CheckViolation
  else if decide (is_Some (synchronization_acknowledgements t !! id)) then Err UniqueViolation
  else if decide (BatchRow.reader_id <$> synchronization_batches t !! id
                  = Some (AcknowledgementRow.reader_id r)) then
    Ok (set_synchronization_acknowledgements
          (<[id := r]> (synchronization_acknowledgements t)) t, tt)
  else Err ForeignKeyViolation.

Definition insert_acknowledgement_entry (r : AcknowledgementEntryRow.t) (t : ReaderTables)
  : Result SqlError (ReaderTables * unit) :=
  let id := AcknowledgementEntryRow.batch_id r in
  let clashes (x : AcknowledgementEntryRow.t) : bool :=
    bool_decide (AcknowledgementEntryRow.batch_id x = id
      /\ (AcknowledgementEntryRow.fare_transaction_id x
            = AcknowledgementEntryRow.fare_transaction_id r
          \/ AcknowledgementEntryRow.local_sequence_number x
             = AcknowledgementEntryRow.local_sequence_number r
          \/ AcknowledgementEntryRow.entry_position x
             = AcknowledgementEntryRow.entry_position r)) in
  let entry (x : EntryRow.t) : bool :=
    bool_decide (EntryRow.batch_id x = id
      /\ EntryRow.fare_transaction_id x = AcknowledgementEntryRow.fare_transaction_id r) in
  if negb (acknowledgement_entry_check r) then Err CheckViolation
  else if existsb clashes (synchronization_acknowledgement_entries t) then Err UniqueViolation
  else if decide (AcknowledgementRow.reader_id <$> synchronization_acknowledgements t !! id
                  = Some (AcknowledgementEntryRow.reader_id r))
  then
    if existsb entry (synchronization_entries t) then
      Ok (set_synchronization_acknowledgement_entries
            (synchronization_acknowledgement_entries t ++ [r]) t, tt)
    else Err ForeignKeyViolation
  else Err ForeignKeyViolation.

(** ** Updates *)

Definition update_offline_transactions (p : OfflineTransactionRow.t -> bool)
    (f : OfflineTransactionRow.t -> OfflineTransactionRow.t) (t : ReaderTables)
  : Result SqlError (ReaderTables * Z) :=
  map_ok (fun '(m, n) => (set_offline_transactions m t, n))
    (update_where offline_transaction_check p f (offline_transactions t)).

Definition update_batches (p : BatchRow.t -> bool) (f : BatchRow.t -> BatchRow.t)
    (t : ReaderTables) : Result SqlError (ReaderTables * Z) :=
  map_ok (fun '(m, n) => (set_synchronization_batches m t, n))
    (update_where batch_check p f (synchronization_batches t)).

Definition update_acknowledgements (p : AcknowledgementRow.t -> bool)
    (f : AcknowledgementRow.t -> AcknowledgementRow.t) (t : ReaderTables)
  : Result SqlError (ReaderTables * Z) :=
  map_ok (fun '(m, n) => (set_synchronization_acknowledgements m t, n))
    (update_where acknowledgement_check p f (synchronization_acknowledgements t)).

(** The one row of [reader_state]; [None] when no row satisfies [p]. *)
Definition update_reader_state (p : ReaderStateRow.t -> bool)
    (f : ReaderStateRow.t -> ReaderStateRow.t) (t : ReaderTables)
  : Result SqlError (ReaderTables * option ReaderStateRow.t) :=
  match reader_state t with
  | Some r =>
      if p r then
        if reader_state_check (f r) then Ok (set_reader_state (Some (f r)) t, Some (f r))
        else Err CheckViolation
      else Ok (t, None)
  | None => Ok (t, None)
  end.

(** ** Selects *)

Definition select_offline_transactions (p : OfflineTransactionRow.t -> bool) (t : ReaderTables)
  : list OfflineTransactionRow.t :=
  order_by OfflineTransactionRow.local_sequence_number
    (base.filter (fun r => p r = true) (map_to_list (offline_transactions t)).*2).

Definition select_entries (p : EntryRow.t -> bool) (t : ReaderTables) : list EntryRow.t :=
  order_by EntryRow.entry_position
    (base.filter (fun r => p r = true) (synchronization_entries t)).

Definition select_acknowledgement_entries (p : AcknowledgementEntryRow.t -> bool)
    (t : ReaderTables) : list AcknowledgementEntryRow.t :=
  order_by AcknowledgementEntryRow.entry_position
    (base.filter (fun r => p r = true) (synchronization_acknowledgement_entries t)).

(** The database of a reader. *)
Abbreviation ReaderDb := (Db ReaderTables).

Lemma elem_of_select_offline_transactions p t r :
  r ∈ select_offline_transactions p t <->
  p r = true /\ exists id, offline_transactions t !! id = Some r.
Proof.
  unfold select_offline_transactions. rewrite elem_of_order_by, list_elem_of_filter.
  rewrite list_elem_of_fmap. split.
  - intros [Hp ([k r'] & -> & Hk)]. apply elem_of_map_to_list in Hk. eauto.
  - intros [Hp [id Hid]]. split; [done|]. exists (id, r). split; [done|].
    by apply elem_of_map_to_list.
Qed.
