(* ===== verification/PersistenceReaderIdentity.v ===== *)
(** * Binding a database to a reader (crates/persistence/src/reader_sqlite.rs)

    The first binding creates the one row of [reader_state]; later ones only
    verify it.  Paths, timeouts and the migrator are configuration. *)

From S2P Require Import Prelude Text DomainIdentifier DomainTransaction DeviceProtocolValues.
From S2P Require Import PersistenceReaderStore.

Module ReaderStorageError.

Inductive t :=
| EmptyDatabasePath
| ZeroAcquireTimeout
| ZeroBusyTimeout
| EmptyEnvironmentId
| EmptySoftwareVersion
| NegativeInitializationTime (unix_milliseconds : Z)
| ReaderIdentityMismatch (expected actual : ReaderId)
| EnvironmentMismatch (expected actual : Str)
| InvalidStoredValue (field : Str)
| Database (operation : Str) (source : SqlError)
| Migration.

#[global] Instance eq_dec : EqDecision t.
Proof. solve_decision. Defined.

Definition database (operation : Str) (source : SqlError) : t := Database operation source.
Definition migration : t := Migration.
Definition invalid_stored_value (field : Str) : t := InvalidStoredValue field.

End ReaderStorageError.

Module ReaderDatabaseIdentity.

Record t := mk {
  reader_id : ReaderId;
  environment_id : Str;
  software_version : Str;
  protocol_version : DeviceProtocolVersion.t;
  initialized_at_unix_milliseconds : Z
}.

#[global] Instance eq_dec : EqDecision t.
Proof. solve_decision. Defined.

Definition new (reader_id : ReaderId) (environment_id software_version : Str)
    (protocol_version : DeviceProtocolVersion.t) (initialized_at_unix_milliseconds : Z)
  : Result ReaderStorageError.t t :=
  let environment_id := trim environment_id in
  if decide (environment_id = []) then Err ReaderStorageError.EmptyEnvironmentId
  else
    let software_version := trim software_version in
    if decide (software_version = []) then Err ReaderStorageError.EmptySoftwareVersion
    else if initialized_at_unix_milliseconds <? 0 then
      Err (ReaderStorageError.NegativeInitializationTime initialized_at_unix_milliseconds)
    else Ok (mk reader_id environment_id software_version protocol_version
               initialized_at_unix_milliseconds).

End ReaderDatabaseIdentity.

Module ReaderDatabaseState.

Record t := mk {
  reader_id : ReaderId;
  environment_id : Str;
  software_version : Str;
  protocol_version : DeviceProtocolVersion.t;
  next_local_sequence : Z;
  last_acknowledged_sequence : Z;
  created_at_unix_milliseconds : Z;
  updated_at_unix_milliseconds : Z
}.

#[global] Instance eq_dec : EqDecision t.
Proof. solve_decision. Defined.

End ReaderDatabaseState.

(** [u16::try_from], [u32::try_from] of an [i64]. *)
Definition u16_try_from (z : Z) : option Z := if decide (in_u16 z) then Some z else None.
Definition u32_try_from (z : Z) : option Z :=
  if decide (0 <= z <= 4294967295) then Some z else None.

Definition decode_stored_state (stored : ReaderStateRow.t)
  : Result ReaderStorageError.t ReaderDatabaseState.t :=
  let invalid field := ReaderStorageError.invalid_stored_value (lit field) in
  protocol_value ←
    ok_or (u16_try_from (ReaderStateRow.protocol_version stored)) (invalid "protocol_version");
  protocol_version ←
    map_err (fun _ => invalid "protocol_version") (DeviceProtocolVersion.new protocol_value);
  next_local_sequence ←
    ok_or (u64_try_from (ReaderStateRow.next_local_sequence stored))
      (invalid "next_local_sequence");
  if next_local_sequence =? 0 then Err (invalid "next_local_sequence")
  else
    last_acknowledged_sequence ←
      ok_or (u64_try_from (ReaderStateRow.last_acknowledged_sequence stored))
        (invalid "last_acknowledged_sequence");
    if next_local_sequence <=? last_acknowledged_sequence then
      Err (invalid "last_acknowledged_sequence")
    else if ReaderStateRow.created_at stored <? 0 then
      Err (invalid "created_at_unix_milliseconds")
    else if ReaderStateRow.updated_at stored <? ReaderStateRow.created_at stored then
      Err (invalid "updated_at_unix_milliseconds")
    else
      Ok (ReaderDatabaseState.mk (ReaderStateRow.reader_id stored)
            (ReaderStateRow.environment_id stored) (ReaderStateRow.software_version stored)
            protocol_version next_local_sequence last_acknowledged_sequence
            (ReaderStateRow.created_at stored) (ReaderStateRow.updated_at stored)).

(** [INSERT .. ON CONFLICT(singleton) DO NOTHING]: the checks of the new row
    come first, also when the row exists and the insert does nothing. *)
Definition initialize_reader_state (identity : ReaderDatabaseIdentity.t) (t : ReaderTables)
  : Result SqlError (ReaderTables * unit) :=
  let now := ReaderDatabaseIdentity.initialized_at_unix_milliseconds identity in
  let r := ReaderStateRow.mk (ReaderDatabaseIdentity.reader_id identity)
             (ReaderDatabaseIdentity.environment_id identity)
             (ReaderDatabaseIdentity.software_version identity)
             (DeviceProtocolVersion.value (ReaderDatabaseIdentity.protocol_version identity))
             1 0 now now in
  if negb (reader_state_check r) then Err CheckViolation
  else match reader_state t with
  | Some _ => Ok (t, tt)
  | None => Ok (set_reader_state (Some r) t, tt)
  end.

Definition bind_reader_database (identity : ReaderDatabaseIdentity.t)
  : Mut ReaderDb ReaderStorageError.t ReaderDatabaseState.t :=
  let database operation := ReaderStorageError.database (lit operation) in
  transaction (database "begin identity binding") (database "commit identity binding") (
    _ ← statement (database "initialize reader identity") (initialize_reader_state identity);
    found ← query (database "load reader identity") reader_state;
    stored ← lift (ok_or found (database "load reader identity" OtherSqlError));
    state ← lift (decode_stored_state stored);
    if decide (ReaderDatabaseState.reader_id state <> ReaderDatabaseIdentity.reader_id identity)
    then
      fail (ReaderStorageError.ReaderIdentityMismatch
              (ReaderDatabaseIdentity.reader_id identity) (ReaderDatabaseState.reader_id state))
    else if decide (ReaderDatabaseState.environment_id state
                    <> ReaderDatabaseIdentity.environment_id identity)
    then
      fail (ReaderStorageError.EnvironmentMismatch
              (ReaderDatabaseIdentity.environment_id identity)
              (ReaderDatabaseState.environment_id state))
    else mret state).
