(* ===== verification/PersistenceReaderQueue.v ===== *)
(** * The durable offline queue (crates/persistence/src: reader_queue.rs,
    reader_queue_state.rs)

    Enqueueing, the transitions of single transactions, and the reads.  The
    serde encoding of the provisional decision is not modelled: its column
    holds the decision. *)

From S2P Require Import Prelude Text DomainMoney DomainIdentifier DomainTransaction.
From S2P Require Import DeviceProtocolValues PersistenceReaderStore PersistenceReaderIdentity.

Definition RESTART_FAILURE_CATEGORY : Str := lit "reader_restart".

Module OfflineTransactionDraft.
Section draft.
Context `{JsonLibrary}.

Record t := mk {
  transaction_id : FareTransactionId;
  fare_credential_id : FareCredentialId;
  event_time : EventTime.t;
  fare_policy_version : FarePolicyVersion.t;
  provisional_decision : FareDecision.t;
  transaction_envelope : Json;
  created_at_unix_milliseconds : Z
}.

Definition new (transaction_id : FareTransactionId) (fare_credential_id : FareCredentialId)
    (event_time : EventTime.t) (fare_policy_version : FarePolicyVersion.t)
    (provisional_decision : FareDecision.t) (transaction_envelope : Json)
    (created_at_unix_milliseconds : Z) : Result ReaderQueueError.t t :=
  if created_at_unix_milliseconds <? 0 then
    Err (ReaderQueueError.NegativePersistenceTime created_at_unix_milliseconds)
  else Ok (mk transaction_id fare_credential_id event_time fare_policy_version
             provisional_decision transaction_envelope created_at_unix_milliseconds).

End draft.
End OfflineTransactionDraft.

Module QueuedOfflineTransaction.
Section queued.
Context `{JsonLibrary}.

Record t := mk {
  transaction_id : FareTransactionId;
  reader_id : ReaderId;
  local_sequence_number : LocalSequenceNumber.t;
  fare_credential_id : FareCredentialId;
  event_time : EventTime.t;
  fare_policy_version : FarePolicyVersion.t;
  provisional_decision : FareDecision.t;
  transaction_envelope : Json;
  queue_state : OfflineQueueState.t;
  attempt_count : Z;
  next_retry_at_unix_milliseconds : option Z;
  last_failure_category : option Str;
  created_at_unix_milliseconds : Z;
  updated_at_unix_milliseconds : Z
}.

End queued.
End QueuedOfflineTransaction.

Section queue.
Context `{JsonLibrary}.

(** [UPDATE reader_state SET next_local_sequence = next_local_sequence + 1 ..
    RETURNING next_local_sequence - 1]. *)
Definition assign_local_sequence (id : ReaderId) (created_at : Z) (t : ReaderTables)
  : Result SqlError (ReaderTables * option Z) :=
  map_ok (fun '(t', r) => (t', (fun r => ReaderStateRow.next_local_sequence r - 1) <$> r))
    (update_reader_state
       (fun r => bool_decide (ReaderStateRow.reader_id r = id)
                 && (ReaderStateRow.next_local_sequence r <? i64_max))
       (fun r => ReaderStateRow.mk (ReaderStateRow.reader_id r) (ReaderStateRow.environment_id r)
          (ReaderStateRow.software_version r) (ReaderStateRow.protocol_version r)
          (ReaderStateRow.next_local_sequence r + 1)
          (ReaderStateRow.last_acknowledged_sequence r) (ReaderStateRow.created_at r) created_at)
       t).

Definition enqueue_offline_transaction (reader_id : ReaderId) (draft : OfflineTransactionDraft.t)
  : Mut ReaderDb ReaderQueueError.t QueuedOfflineTransaction.t :=
  let database operation := ReaderQueueError.database (lit operation) in
  let created_at := OfflineTransactionDraft.created_at_unix_milliseconds draft in
  envelope_json ←
    lift (map_err (fun _ => ReaderQueueError.Serialization (lit "transaction_envelope"))
            (json_to_string (OfflineTransactionDraft.transaction_envelope draft)));
  transaction (database "begin queue insertion") (database "commit queue insertion") (
    assigned ← statement (database "assign local sequence")
                 (assign_local_sequence reader_id created_at);
    assigned_sequence ←
      lift (ok_or assigned (ReaderQueueError.SequenceUnavailable reader_id));
    sequence_value ←
      lift (ok_or (u64_try_from assigned_sequence)
              (ReaderQueueError.invalid_stored_value (lit "local_sequence_number")));
    local_sequence_number ←
      lift (map_err (fun _ => ReaderQueueError.invalid_stored_value (lit "local_sequence_number"))
              (LocalSequenceNumber.new sequence_value));
    fare_policy_version ←
      lift (ok_or (i64_try_from
                     (FarePolicyVersion.value (OfflineTransactionDraft.fare_policy_version draft)))
              (ReaderQueueError.invalid_stored_value (lit "fare_policy_version")));
    _ ← statement (database "insert offline transaction")
          (insert_offline_transaction
             (OfflineTransactionRow.mk (OfflineTransactionDraft.transaction_id draft) reader_id
                assigned_sequence (OfflineTransactionDraft.fare_credential_id draft)
                (EventTime.unix_milliseconds (OfflineTransactionDraft.event_time draft))
                fare_policy_version (OfflineTransactionDraft.provisional_decision draft)
                envelope_json OfflineQueueState.Pending 0 None None created_at created_at));
    mret (QueuedOfflineTransaction.mk (OfflineTransactionDraft.transaction_id draft) reader_id
            local_sequence_number (OfflineTransactionDraft.fare_credential_id draft)
            (OfflineTransactionDraft.event_time draft)
            (OfflineTransactionDraft.fare_policy_version draft)
            (OfflineTransactionDraft.provisional_decision draft)
            (OfflineTransactionDraft.transaction_envelope draft)
            OfflineQueueState.Pending 0 None None created_at created_at)).

Definition decode_stored_transaction (stored : OfflineTransactionRow.t)
  : Result ReaderQueueError.t QueuedOfflineTransaction.t :=
  let invalid field := ReaderQueueError.invalid_stored_value (lit field) in
  sequence_value ←
    ok_or (u64_try_from (OfflineTransactionRow.local_sequence_number stored))
      (invalid "local_sequence_number");
  local_sequence_number ←
    map_err (fun _ => invalid "local_sequence_number") (LocalSequenceNumber.new sequence_value);
  event_time ←
    map_err (fun _ => invalid "event_time_unix_milliseconds")
      (EventTime.from_unix_milliseconds (OfflineTransactionRow.event_time stored));
  policy_value ←
    ok_or (u64_try_from (OfflineTransactionRow.fare_policy_version stored))
      (invalid "fare_policy_version");
  fare_policy_version ←
    map_err (fun _ => invalid "fare_policy_version") (FarePolicyVersion.new policy_value);
  transaction_envelope ←
    map_err (fun _ => ReaderQueueError.Serialization (lit "transaction_envelope"))
      (json_from_str (OfflineTransactionRow.transaction_envelope_json stored));
  attempt_count ←
    ok_or (u32_try_from (OfflineTransactionRow.attempt_count stored)) (invalid "attempt_count");
  if negb (at_least 0 (OfflineTransactionRow.next_retry_at stored)) then
    Err (invalid "next_retry_at_unix_milliseconds")
  else if OfflineTransactionRow.created_at stored <? 0 then
    Err (invalid "created_at_unix_milliseconds")
  else if OfflineTransactionRow.updated_at stored <? OfflineTransactionRow.created_at stored then
    Err (invalid "updated_at_unix_milliseconds")
  else
    Ok (QueuedOfflineTransaction.mk (OfflineTransactionRow.fare_transaction_id stored)
          (OfflineTransactionRow.reader_id stored) local_sequence_number
          (OfflineTransactionRow.fare_credential_id stored) event_time fare_policy_version
          (OfflineTransactionRow.provisional_decision stored) transaction_envelope
          (OfflineTransactionRow.queue_state stored) attempt_count
          (OfflineTransactionRow.next_retry_at stored)
          (OfflineTransactionRow.last_failure_category stored)
          (OfflineTransactionRow.created_at stored) (OfflineTransactionRow.updated_at stored)).

Definition load_offline_queue (reader_id : ReaderId)
  : Mut ReaderDb ReaderQueueError.t (list QueuedOfflineTransaction.t) :=
  records ←
    query (ReaderQueueError.database (lit "load offline queue"))
      (select_offline_transactions
         (fun r => bool_decide (OfflineTransactionRow.reader_id r = reader_id)));
  lift (try_map decode_stored_transaction records).

End queue.

(** ** Transitions *)

Module ReaderQueueStateError.

Inductive t :=
| NegativeOperationTime (unix_milliseconds : Z)
| EmptyFailureCategory
| RetryBeforeUpdate (retry_at_unix_milliseconds updated_at_unix_milliseconds : Z)
| ZeroReadLimit
| InvalidTransition (transaction_id : FareTransactionId) (transition : Str)
| Queue (e : ReaderQueueError.t)
| Database (operation : Str) (source : SqlError).

#[global] Instance eq_dec : EqDecision t.
Proof. solve_decision. Defined.

Definition database (operation : Str) (source : SqlError) : t := Database operation source.
Definition invalid_transition (transaction_id : FareTransactionId) (transition : Str) : t :=
  InvalidTransition transaction_id transition.

End ReaderQueueStateError.

Module ReaderQueueState.

Definition validate_operation_time (unix_milliseconds : Z) : Result ReaderQueueStateError.t unit :=
  if unix_milliseconds <? 0 then Err (ReaderQueueStateError.NegativeOperationTime unix_milliseconds)
  else Ok tt.

Definition validate_failure_category (failure_category : Str) : Result ReaderQueueStateError.t Str :=
  let failure_category := trim failure_category in
  if decide (failure_category = []) then Err ReaderQueueStateError.EmptyFailureCategory
  else Ok failure_category.

Definition require_changed_row (rows_affected : Z) (transaction_id : FareTransactionId)
    (transition : Str) : Result ReaderQueueStateError.t unit :=
  if rows_affected =? 1 then Ok tt
  else Err (ReaderQueueStateError.invalid_transition transaction_id transition).

(** [queue_state = 'pending' OR (queue_state = 'retryable_failure' AND
    (next_retry_at IS NULL OR next_retry_at <= ?))], which [is_ready]
    repeats on decoded transactions. *)
Definition is_ready (state : OfflineQueueState.t) (next_retry_at : option Z) (now : Z) : bool :=
  match state with
  | OfflineQueueState.Pending => true
  | OfflineQueueState.RetryableFailure =>
      match next_retry_at with
      | Some retry_at => retry_at <=? now
      | None => true
      end
  | OfflineQueueState.InFlight | OfflineQueueState.Acknowledged
  | OfflineQueueState.PermanentFailure | OfflineQueueState.ManualReview => false
  end.

Definition row_is_ready (r : OfflineTransactionRow.t) (now : Z) : bool :=
  is_ready (OfflineTransactionRow.queue_state r) (OfflineTransactionRow.next_retry_at r) now.

(** [fare_transaction_id = ? AND reader_id = ? AND updated_at <= ?]. *)
Definition addresses (id : FareTransactionId) (reader_id : ReaderId) (now : Z)
    (r : OfflineTransactionRow.t) : bool :=
  bool_decide (OfflineTransactionRow.fare_transaction_id r = id
               /\ OfflineTransactionRow.reader_id r = reader_id)
  && (OfflineTransactionRow.updated_at r <=? now).

Definition is_in_flight (r : OfflineTransactionRow.t) : bool :=
  bool_decide (OfflineTransactionRow.queue_state r = OfflineQueueState.InFlight).

Definition mark_offline_transaction_in_flight (reader_id : ReaderId)
    (transaction_id : FareTransactionId) (attempted_at : Z)
  : Mut ReaderDb ReaderQueueStateError.t unit :=
  _ ← lift (validate_operation_time attempted_at);
  rows_affected ←
    statement (ReaderQueueStateError.database (lit "mark transaction in flight"))
      (update_offline_transactions
         (fun r => addresses transaction_id reader_id attempted_at r && row_is_ready r attempted_at)
         (fun r => OfflineTransactionRow.set_state OfflineQueueState.InFlight
                     (OfflineTransactionRow.attempt_count r + 1) None None attempted_at r));
  lift (require_changed_row rows_affected transaction_id (lit "mark_in_flight")).

Definition record_retryable_queue_failure (reader_id : ReaderId)
    (transaction_id : FareTransactionId) (failure_category : Str) (updated_at retry_at : Z)
  : Mut ReaderDb ReaderQueueStateError.t unit :=
  _ ← lift (validate_operation_time updated_at);
  _ ← lift (validate_operation_time retry_at);
  if retry_at <? updated_at then
    fail (ReaderQueueStateError.RetryBeforeUpdate retry_at updated_at)
  else
    failure_category ← lift (validate_failure_category failure_category);
    rows_affected ←
      statement (ReaderQueueStateError.database (lit "record retryable failure"))
        (update_offline_transactions
           (fun r => addresses transaction_id reader_id updated_at r && is_in_flight r)
           (fun r => OfflineTransactionRow.set_state OfflineQueueState.RetryableFailure
                       (OfflineTransactionRow.attempt_count r) (Some retry_at)
                       (Some failure_category) updated_at r));
    lift (require_changed_row rows_affected transaction_id (lit "record_retryable_failure")).

Definition record_final_failure (reader_id : ReaderId) (transaction_id : FareTransactionId)
    (failure_category : Str) (updated_at : Z) (target_state : OfflineQueueState.t)
  : Mut ReaderDb ReaderQueueStateError.t unit :=
  _ ← lift (validate_operation_time updated_at);
  failure_category ← lift (validate_failure_category failure_category);
  target_state_text ←
    lift (match target_state with
          | OfflineQueueState.PermanentFailure => Ok (lit "permanent_failure")
          | OfflineQueueState.ManualReview => Ok (lit "manual_review")
          | _ => Err (ReaderQueueStateError.invalid_transition transaction_id
                        (lit "unsupported_final_state"))
          end);
  rows_affected ←
    statement (ReaderQueueStateError.database (lit "record final queue failure"))
      (update_offline_transactions
         (fun r => addresses transaction_id reader_id updated_at r && is_in_flight r)
         (fun r => OfflineTransactionRow.set_state target_state
                     (OfflineTransactionRow.attempt_count r) None
                     (Some failure_category) updated_at r));
  lift (require_changed_row rows_affected transaction_id target_state_text).

Definition record_permanent_queue_failure (reader_id : ReaderId)
    (transaction_id : FareTransactionId) (failure_category : Str) (updated_at : Z)
  : Mut ReaderDb ReaderQueueStateError.t unit :=
  record_final_failure reader_id transaction_id failure_category updated_at
    OfflineQueueState.PermanentFailure.

Definition record_manual_review_required (reader_id : ReaderId)
    (transaction_id : FareTransactionId) (failure_category : Str) (updated_at : Z)
  : Mut ReaderDb ReaderQueueStateError.t unit :=
  record_final_failure reader_id transaction_id failure_category updated_at
    OfflineQueueState.ManualReview.

(** [batch_state IN ('prepared', 'in_flight', 'retryable_failure')]. *)
Definition is_active (state : SynchronizationBatchState.t) : bool :=
  match state with
  | SynchronizationBatchState.Prepared | SynchronizationBatchState.InFlight
  | SynchronizationBatchState.RetryableFailure => true
  | _ => false
  end.

(** [EXISTS (SELECT 1 FROM synchronization_entries .. JOIN
    synchronization_batches ..)] of the transaction [r]. *)
Definition in_active_batch (t : ReaderTables) (r : OfflineTransactionRow.t) : bool :=
  existsb (fun e =>
    bool_decide (EntryRow.fare_transaction_id e = OfflineTransactionRow.fare_transaction_id r
                 /\ EntryRow.reader_id e = OfflineTransactionRow.reader_id r)
    && match synchronization_batches t !! EntryRow.batch_id e with
       | Some b => bool_decide (BatchRow.reader_id b = EntryRow.reader_id e)
                   && is_active (BatchRow.batch_state b)
       | None => false
       end) (synchronization_entries t).

Definition recover_interrupted_offline_queue (reader_id : ReaderId) (recovered_at : Z)
  : Mut ReaderDb ReaderQueueStateError.t Z :=
  _ ← lift (validate_operation_time recovered_at);
  statement (ReaderQueueStateError.database (lit "recover interrupted queue"))
    (fun t => update_offline_transactions
       (fun r => bool_decide (OfflineTransactionRow.reader_id r = reader_id) && is_in_flight r
                 && (OfflineTransactionRow.updated_at r <=? recovered_at)
                 && negb (in_active_batch t r))
       (fun r => OfflineTransactionRow.set_state OfflineQueueState.RetryableFailure
                   (OfflineTransactionRow.attempt_count r) (Some recovered_at)
                   (Some RESTART_FAILURE_CATEGORY) recovered_at r) t).

Definition load_ready_offline_transactions `{JsonLibrary} (reader_id : ReaderId)
    (now : Z) (limit : nat)
  : Mut ReaderDb ReaderQueueStateError.t (list QueuedOfflineTransaction.t) :=
  _ ← lift (validate_operation_time now);
  if decide (limit = 0%nat) then fail ReaderQueueStateError.ZeroReadLimit
  else
    queue ← map_error ReaderQueueStateError.Queue (load_offline_queue reader_id);
    mret (take limit (base.filter (fun x =>
      is_ready (QueuedOfflineTransaction.queue_state x)
        (QueuedOfflineTransaction.next_retry_at_unix_milliseconds x) now = true) queue)).

End ReaderQueueState.
