(* ===== verification/PersistenceReaderSync.v ===== *)
(** * Synchronization batches (crates/persistence/src: reader_sync.rs,
    reader_sync_state.rs, reader_sync_failure.rs, reader_sync_request.rs)

    Creating a batch reserves queued transactions; submission, retry, recovery
    and final failure move the batch and its transactions together; the
    protocol request is rebuilt from what is stored.  [generate()] of a batch
    identifier is an argument. *)

From S2P Require Import Prelude Text DomainMoney DomainIdentifier DomainTransaction.
From S2P Require Import DeviceProtocolValues DeviceProtocolSynchronization.
From S2P Require Import PersistenceReaderStore PersistenceReaderIdentity PersistenceReaderQueue.

Module SynchronizationBatchEntry.

Record t := mk { transaction_id : FareTransactionId; local_sequence_number : LocalSequenceNumber.t }.

#[global] Instance eq_dec : EqDecision t.
Proof. solve_decision. Defined.

End SynchronizationBatchEntry.

Module SynchronizationBatch.

Record t := mk {
  batch_id : SynchronizationBatchId;
  reader_id : ReaderId;
  protocol_version : DeviceProtocolVersion.t;
  first_local_sequence_number : LocalSequenceNumber.t;
  last_local_sequence_number : LocalSequenceNumber.t;
  state : SynchronizationBatchState.t;
  attempt_count : Z;
  submitted_at_unix_milliseconds : option Z;
  next_retry_at_unix_milliseconds : option Z;
  last_failure_category : option Str;
  created_at_unix_milliseconds : Z;
  updated_at_unix_milliseconds : Z;
  entries : list SynchronizationBatchEntry.t
}.

#[global] Instance eq_dec : EqDecision t.
Proof. solve_decision. Defined.

End SynchronizationBatch.

Module ReaderSync.

Definition validate_operation_time (unix_milliseconds : Z)
  : Result ReaderSynchronizationError.t unit :=
  if unix_milliseconds <? 0 then
    Err (ReaderSynchronizationError.NegativeOperationTime unix_milliseconds)
  else Ok tt.

Definition decode_sequence (value : Z) (field : Str)
  : Result ReaderSynchronizationError.t LocalSequenceNumber.t :=
  value ← ok_or (u64_try_from value) (ReaderSynchronizationError.invalid_stored_value field);
  map_err (fun _ => ReaderSynchronizationError.invalid_stored_value field)
    (LocalSequenceNumber.new value).

Definition sequence_to_i64 (sequence : LocalSequenceNumber.t)
  : Result ReaderSynchronizationError.t Z :=
  ok_or (i64_try_from (LocalSequenceNumber.value sequence))
    (ReaderSynchronizationError.invalid_stored_value (lit "local_sequence_number")).

Definition decode_candidate (transaction_id : FareTransactionId) (local_sequence_number : Z)
  : Result ReaderSynchronizationError.t SynchronizationBatchEntry.t :=
  sequence ← decode_sequence local_sequence_number (lit "local_sequence_number");
  Ok (SynchronizationBatchEntry.mk transaction_id sequence).

(** The transactions a new batch may take, in sequence order. *)
Definition select_candidates (reader_id : ReaderId) (now : Z) (limit : nat) (t : ReaderTables)
  : list OfflineTransactionRow.t :=
  take limit (select_offline_transactions (fun r =>
    bool_decide (OfflineTransactionRow.reader_id r = reader_id)
    && ReaderQueueState.row_is_ready r now && negb (ReaderQueueState.in_active_batch t r)) t).

(** The body of the loop of [create_synchronization_batch]. *)
Definition reserve_entry (batch_id : SynchronizationBatchId) (reader_id : ReaderId)
    (created_at : Z) (position : nat) (entry : SynchronizationBatchEntry.t)
  : Mut ReaderDb ReaderSynchronizationError.t unit :=
  let database operation := ReaderSynchronizationError.database (lit operation) in
  let id := SynchronizationBatchEntry.transaction_id entry in
  position ← lift (ok_or (i64_try_from (Z.of_nat position))
                     (ReaderSynchronizationError.invalid_stored_value (lit "entry_position")));
  sequence ← lift (sequence_to_i64 (SynchronizationBatchEntry.local_sequence_number entry));
  rows_affected ←
    statement (database "reserve batch transaction")
      (update_offline_transactions
         (fun r => ReaderQueueState.addresses id reader_id created_at r
                   && bool_decide (OfflineTransactionRow.local_sequence_number r = sequence)
                   && ReaderQueueState.row_is_ready r created_at)
         (fun r => OfflineTransactionRow.set_state OfflineQueueState.InFlight
                     (OfflineTransactionRow.attempt_count r) None None created_at r));
  if decide (rows_affected <> 1) then fail (ReaderSynchronizationError.QueueStateConflict id)
  else statement (database "insert synchronization entry")
         (insert_entry (EntryRow.mk batch_id reader_id id sequence position)).

Fixpoint reserve_entries (batch_id : SynchronizationBatchId) (reader_id : ReaderId)
    (created_at : Z) (position : nat) (entries : list SynchronizationBatchEntry.t)
  : Mut ReaderDb ReaderSynchronizationError.t unit :=
  match entries with
  | [] => mret tt
  | entry :: entries' =>
      _ ← reserve_entry batch_id reader_id created_at position entry;
      reserve_entries batch_id reader_id created_at (S position) entries'
  end.

Definition create_synchronization_batch (reader_id : ReaderId)
    (protocol_version : DeviceProtocolVersion.t) (created_at : Z) (limit : nat)
    (batch_id : SynchronizationBatchId)
  : Mut ReaderDb ReaderSynchronizationError.t SynchronizationBatch.t :=
  let database operation := ReaderSynchronizationError.database (lit operation) in
  _ ← lift (validate_operation_time created_at);
  if decide (limit = 0%nat) then fail ReaderSynchronizationError.ZeroBatchLimit
  else
    _ ← lift (ok_or (i64_try_from (Z.of_nat limit))
                (ReaderSynchronizationError.BatchLimitTooLarge (Z.of_nat limit)));
    transaction (database "begin batch creation") (database "commit batch creation") (
      candidates ← query (database "select batch candidates")
                     (select_candidates reader_id created_at limit);
      if decide (candidates = []) then
        fail (ReaderSynchronizationError.NoEligibleTransactions reader_id)
      else
        entries ← lift (try_map (fun r =>
          decode_candidate (OfflineTransactionRow.fare_transaction_id r)
            (OfflineTransactionRow.local_sequence_number r)) candidates);
        first_sequence ←
          lift (ok_or (SynchronizationBatchEntry.local_sequence_number <$> head entries)
                  (ReaderSynchronizationError.invalid_stored_value (lit "batch_entries")));
        last_sequence ←
          lift (ok_or (SynchronizationBatchEntry.local_sequence_number <$> last entries)
                  (ReaderSynchronizationError.invalid_stored_value (lit "batch_entries")));
        first_stored ← lift (sequence_to_i64 first_sequence);
        last_stored ← lift (sequence_to_i64 last_sequence);
        _ ← statement (database "insert synchronization batch")
              (insert_batch (BatchRow.mk batch_id reader_id
                 (DeviceProtocolVersion.value protocol_version) first_stored last_stored
                 SynchronizationBatchState.Prepared 0 None None None created_at created_at));
        _ ← reserve_entries batch_id reader_id created_at 0 entries;
        mret (SynchronizationBatch.mk batch_id reader_id protocol_version first_sequence
                last_sequence SynchronizationBatchState.Prepared 0 None None None created_at
                created_at entries)).

(** The loop of [decode_stored_batch]: positions count up from zero. *)
Fixpoint decode_positions (expected_position : Z) (stored_entries : list EntryRow.t)
  : Result ReaderSynchronizationError.t (list SynchronizationBatchEntry.t) :=
  match stored_entries with
  | [] => Ok []
  | stored_entry :: stored_entries' =>
      actual_position ←
        ok_or (u64_try_from (EntryRow.entry_position stored_entry))
          (ReaderSynchronizationError.invalid_stored_value (lit "entry_position"));
      if decide (actual_position <> expected_position) then
        Err (ReaderSynchronizationError.invalid_stored_value (lit "entry_position"))
      else
        entry ← decode_candidate (EntryRow.fare_transaction_id stored_entry)
                  (EntryRow.local_sequence_number stored_entry);
        entries ← decode_positions (expected_position + 1) stored_entries';
        Ok (entry :: entries)
  end.

Definition decode_stored_batch (stored : BatchRow.t) (stored_entries : list EntryRow.t)
  : Result ReaderSynchronizationError.t SynchronizationBatch.t :=
  let invalid field := ReaderSynchronizationError.invalid_stored_value (lit field) in
  protocol_value ←
    ok_or (u16_try_from (BatchRow.protocol_version stored)) (invalid "protocol_version");
  protocol_version ←
    map_err (fun _ => invalid "protocol_version") (DeviceProtocolVersion.new protocol_value);
  first_sequence ← decode_sequence (BatchRow.first_local_sequence_number stored)
                     (lit "first_local_sequence_number");
  last_sequence ← decode_sequence (BatchRow.last_local_sequence_number stored)
                    (lit "last_local_sequence_number");
  if LocalSequenceNumber.value last_sequence <? LocalSequenceNumber.value first_sequence then
    Err (invalid "last_local_sequence_number")
  else
    attempt_count ← ok_or (u32_try_from (BatchRow.attempt_count stored)) (invalid "attempt_count");
    if negb (at_least 0 (BatchRow.submitted_at stored)) then
      Err (invalid "submitted_at_unix_milliseconds")
    else if negb (at_least 0 (BatchRow.next_retry_at stored)) then
      Err (invalid "next_retry_at_unix_milliseconds")
    else if BatchRow.created_at stored <? 0 then Err (invalid "created_at_unix_milliseconds")
    else if BatchRow.updated_at stored <? BatchRow.created_at stored then
      Err (invalid "updated_at_unix_milliseconds")
    else
      entries ← decode_positions 0 stored_entries;
      first_entry ← ok_or (head entries) (invalid "batch_entries");
      last_entry ← ok_or (last entries) (invalid "batch_entries");
      if decide (SynchronizationBatchEntry.local_sequence_number first_entry <> first_sequence
                 \/ SynchronizationBatchEntry.local_sequence_number last_entry <> last_sequence)
      then Err (invalid "batch_sequence_range")
      else
        Ok (SynchronizationBatch.mk (BatchRow.batch_id stored) (BatchRow.reader_id stored)
              protocol_version first_sequence last_sequence (BatchRow.batch_state stored)
              attempt_count (BatchRow.submitted_at stored) (BatchRow.next_retry_at stored)
              (BatchRow.last_failure_category stored) (BatchRow.created_at stored)
              (BatchRow.updated_at stored) entries).

(** [batch_id = ? AND reader_id = ?]. *)
Definition find_batch (reader_id : ReaderId) (batch_id : SynchronizationBatchId)
    (t : ReaderTables) : option BatchRow.t :=
  b ← synchronization_batches t !! batch_id;
  if decide (BatchRow.reader_id b = reader_id) then Some b else None.

Definition is_entry_of (reader_id : ReaderId) (batch_id : SynchronizationBatchId) (e : EntryRow.t)
  : bool :=
  bool_decide (EntryRow.batch_id e = batch_id /\ EntryRow.reader_id e = reader_id).

Definition load_synchronization_batch (reader_id : ReaderId) (batch_id : SynchronizationBatchId)
  : Mut ReaderDb ReaderSynchronizationError.t SynchronizationBatch.t :=
  let database operation := ReaderSynchronizationError.database (lit operation) in
  found ← query (database "load synchronization batch") (find_batch reader_id batch_id);
  stored ← lift (ok_or found (ReaderSynchronizationError.BatchNotFound batch_id reader_id));
  stored_entries ← query (database "load synchronization entries")
                     (select_entries (is_entry_of reader_id batch_id));
  lift (decode_stored_batch stored stored_entries).

End ReaderSync.

(** ** Submission, retry, recovery *)

Module ReaderSynchronizationStateError.

Inductive t :=
| NegativeOperationTime (unix_milliseconds : Z)
| EmptyFailureCategory
| RetryBeforeUpdate (retry_at_unix_milliseconds updated_at_unix_milliseconds : Z)
| ZeroReadLimit
| ReadLimitTooLarge (limit : Z)
| InvalidTransition (batch_id : SynchronizationBatchId) (transition : Str)
| BatchEntryConflict (batch_id : SynchronizationBatchId) (expected updated : Z)
| InvalidStoredValue (field : Str)
| Synchronization (e : ReaderSynchronizationError.t)
| Database (operation : Str) (source : SqlError).

#[global] Instance eq_dec : EqDecision t.
Proof. solve_decision. Defined.

Definition database (operation : Str) (source : SqlError) : t := Database operation source.
Definition invalid_transition (batch_id : SynchronizationBatchId) (transition : Str) : t :=
  InvalidTransition batch_id transition.
Definition invalid_stored_value (field : Str) : t := InvalidStoredValue field.

End ReaderSynchronizationStateError.

Module ReaderSyncState.

Definition validate_operation_time (unix_milliseconds : Z)
  : Result ReaderSynchronizationStateError.t unit :=
  if unix_milliseconds <? 0 then
    Err (ReaderSynchronizationStateError.NegativeOperationTime unix_milliseconds)
  else Ok tt.

Definition validate_failure_category (failure_category : Str)
  : Result ReaderSynchronizationStateError.t Str :=
  let failure_category := trim failure_category in
  if decide (failure_category = []) then Err ReaderSynchronizationStateError.EmptyFailureCategory
  else Ok failure_category.

(** [batch_state = 'prepared' OR (batch_state = 'retryable_failure' AND
    (next_retry_at IS NULL OR next_retry_at <= ?))]. *)
Definition batch_is_ready (b : BatchRow.t) (now : Z) : bool :=
  match BatchRow.batch_state b with
  | SynchronizationBatchState.Prepared => true
  | SynchronizationBatchState.RetryableFailure =>
      match BatchRow.next_retry_at b with
      | Some retry_at => retry_at <=? now
      | None => true
      end
  | _ => false
  end.

(** [batch_id = ? AND reader_id = ? AND updated_at <= ?]. *)
Definition addresses (batch_id : SynchronizationBatchId) (reader_id : ReaderId) (now : Z)
    (b : BatchRow.t) : bool :=
  bool_decide (BatchRow.batch_id b = batch_id /\ BatchRow.reader_id b = reader_id)
  && (BatchRow.updated_at b <=? now).

Definition is_in_flight (b : BatchRow.t) : bool :=
  bool_decide (BatchRow.batch_state b = SynchronizationBatchState.InFlight).

Definition count_entries (reader_id : ReaderId) (batch_id : SynchronizationBatchId)
    (t : ReaderTables) : Z :=
  Z.of_nat (length (select_entries (ReaderSync.is_entry_of reader_id batch_id) t)).

(** [reader_id = ? AND queue_state = 'in_flight' AND updated_at <= ? AND
    fare_transaction_id IN (SELECT .. batch_id = ? AND reader_id = ?)]. *)
Definition is_batch_member (reader_id : ReaderId) (batch_id : SynchronizationBatchId) (now : Z)
    (t : ReaderTables) (r : OfflineTransactionRow.t) : bool :=
  bool_decide (OfflineTransactionRow.reader_id r = reader_id)
  && ReaderQueueState.is_in_flight r && (OfflineTransactionRow.updated_at r <=? now)
  && existsb (fun e => ReaderSync.is_entry_of reader_id batch_id e
                && bool_decide (EntryRow.fare_transaction_id e
                                = OfflineTransactionRow.fare_transaction_id r))
       (synchronization_entries t).

Definition mark_synchronization_batch_in_flight (reader_id : ReaderId)
    (batch_id : SynchronizationBatchId) (attempted_at : Z)
  : Mut ReaderDb ReaderSynchronizationStateError.t SynchronizationBatch.t :=
  let database operation := ReaderSynchronizationStateError.database (lit operation) in
  let invalid := ReaderSynchronizationStateError.invalid_stored_value (lit "batch_entry_count") in
  _ ← lift (validate_operation_time attempted_at);
  _ ← transaction (database "begin batch submission") (database "commit batch submission") (
    batch_update ←
      statement (database "mark batch in flight")
        (update_batches
           (fun b => addresses batch_id reader_id attempted_at b && batch_is_ready b attempted_at)
           (fun b => BatchRow.set_state SynchronizationBatchState.InFlight
                       (BatchRow.attempt_count b + 1)
                       (Some (default attempted_at (BatchRow.submitted_at b)))
                       None None attempted_at b));
    if decide (batch_update <> 1) then
      fail (ReaderSynchronizationStateError.invalid_transition batch_id (lit "mark_in_flight"))
    else
      expected ← query (database "count batch entries") (count_entries reader_id batch_id);
      expected_entries ← lift (ok_or (u64_try_from expected) invalid);
      if decide (expected_entries = 0) then fail invalid
      else
        queue_update ←
          statement (database "increment batch entry attempts")
            (fun t => update_offline_transactions (is_batch_member reader_id batch_id attempted_at t)
               (fun r => OfflineTransactionRow.set_state (OfflineTransactionRow.queue_state r)
                           (OfflineTransactionRow.attempt_count r + 1)
                           (OfflineTransactionRow.next_retry_at r)
                           (OfflineTransactionRow.last_failure_category r) attempted_at r) t);
        if decide (queue_update <> expected_entries) then
          fail (ReaderSynchronizationStateError.BatchEntryConflict batch_id expected_entries
                  queue_update)
        else mret tt);
  map_error ReaderSynchronizationStateError.Synchronization
    (ReaderSync.load_synchronization_batch reader_id batch_id).

Definition record_synchronization_retryable_failure (reader_id : ReaderId)
    (batch_id : SynchronizationBatchId) (failure_category : Str) (updated_at retry_at : Z)
  : Mut ReaderDb ReaderSynchronizationStateError.t SynchronizationBatch.t :=
  _ ← lift (validate_operation_time updated_at);
  _ ← lift (validate_operation_time retry_at);
  if retry_at <? updated_at then
    fail (ReaderSynchronizationStateError.RetryBeforeUpdate retry_at updated_at)
  else
    failure_category ← lift (validate_failure_category failure_category);
    rows_affected ←
      statement (ReaderSynchronizationStateError.database (lit "record retryable batch failure"))
        (update_batches
           (fun b => addresses batch_id reader_id updated_at b && is_in_flight b)
           (fun b => BatchRow.set_state SynchronizationBatchState.RetryableFailure
                       (BatchRow.attempt_count b) (BatchRow.submitted_at b) (Some retry_at)
                       (Some failure_category) updated_at b));
    if decide (rows_affected <> 1) then
      fail (ReaderSynchronizationStateError.invalid_transition batch_id
              (lit "record_retryable_failure"))
    else
      map_error ReaderSynchronizationStateError.Synchronization
        (ReaderSync.load_synchronization_batch reader_id batch_id).

Definition recover_interrupted_synchronization_batches (reader_id : ReaderId) (recovered_at : Z)
  : Mut ReaderDb ReaderSynchronizationStateError.t Z :=
  _ ← lift (validate_operation_time recovered_at);
  statement (ReaderSynchronizationStateError.database (lit "recover interrupted batches"))
    (update_batches
       (fun b => bool_decide (BatchRow.reader_id b = reader_id) && is_in_flight b
                 && (BatchRow.updated_at b <=? recovered_at))
       (fun b => BatchRow.set_state SynchronizationBatchState.RetryableFailure
                   (BatchRow.attempt_count b) (BatchRow.submitted_at b) (Some recovered_at)
                   (Some RESTART_FAILURE_CATEGORY) recovered_at b)).

(** Batches in the order of their first sequence, creation and identity: the
    text of an identifier sorts as its 128-bit number. *)
Definition select_ready_batches (reader_id : ReaderId) (now : Z) (limit : nat) (t : ReaderTables)
  : list SynchronizationBatchId :=
  BatchRow.batch_id <$> take limit
    (order_by BatchRow.first_local_sequence_number
       (order_by BatchRow.created_at
          (order_by (fun b => Z.of_N (as_u128 (into_uuid (BatchRow.batch_id b))))
             (base.filter (fun b => (bool_decide (BatchRow.reader_id b = reader_id)
                                     && batch_is_ready b now) = true)
                (map_to_list (synchronization_batches t)).*2)))).

Fixpoint load_batches (reader_id : ReaderId) (ids : list SynchronizationBatchId)
  : Mut ReaderDb ReaderSynchronizationStateError.t (list SynchronizationBatch.t) :=
  match ids with
  | [] => mret []
  | id :: ids' =>
      batch ← map_error ReaderSynchronizationStateError.Synchronization
                (ReaderSync.load_synchronization_batch reader_id id);
      batches ← load_batches reader_id ids';
      mret (batch :: batches)
  end.

Definition load_ready_synchronization_batches (reader_id : ReaderId) (now : Z) (limit : nat)
  : Mut ReaderDb ReaderSynchronizationStateError.t (list SynchronizationBatch.t) :=
  _ ← lift (validate_operation_time now);
  if decide (limit = 0%nat) then fail ReaderSynchronizationStateError.ZeroReadLimit
  else
    _ ← lift (ok_or (i64_try_from (Z.of_nat limit))
                (ReaderSynchronizationStateError.ReadLimitTooLarge (Z.of_nat limit)));
    stored_ids ←
      query (ReaderSynchronizationStateError.database (lit "load ready batch identities"))
        (select_ready_batches reader_id now limit);
    load_batches reader_id stored_ids.

End ReaderSyncState.

(** ** Final failures of a batch *)

Module ReaderSynchronizationFailureError.

Inductive t :=
| NegativeOperationTime (unix_milliseconds : Z)
| EmptyFailureCategory
| InvalidTransition (batch_id : SynchronizationBatchId) (transition : Str)
| BatchEntryConflict (batch_id : SynchronizationBatchId) (expected updated : Z)
| InvalidStoredValue (field : Str)
| Synchronization (e : ReaderSynchronizationError.t)
| Database (operation : Str) (source : SqlError).

#[global] Instance eq_dec : EqDecision t.
Proof. solve_decision. Defined.

Definition database (operation : Str) (source : SqlError) : t := Database operation source.
Definition invalid_transition (batch_id : SynchronizationBatchId) (transition : Str) : t :=
  InvalidTransition batch_id transition.
Definition invalid_stored_value (field : Str) : t := InvalidStoredValue field.

End ReaderSynchronizationFailureError.

Module ReaderSyncFailure.

Definition validate_operation_time (unix_milliseconds : Z)
  : Result ReaderSynchronizationFailureError.t unit :=
  if unix_milliseconds <? 0 then
    Err (ReaderSynchronizationFailureError.NegativeOperationTime unix_milliseconds)
  else Ok tt.

Definition validate_failure_category (failure_category : Str)
  : Result ReaderSynchronizationFailureError.t Str :=
  let failure_category := trim failure_category in
  if decide (failure_category = []) then
    Err ReaderSynchronizationFailureError.EmptyFailureCategory
  else Ok failure_category.

(** The two columns that [target_state], one text in the source, is bound to. *)
Inductive FinalState := FinalPermanentFailure | FinalManualReview.

Definition batch_state_of (target_state : FinalState) : SynchronizationBatchState.t :=
  match target_state with
  | FinalPermanentFailure => SynchronizationBatchState.PermanentFailure
  | FinalManualReview => SynchronizationBatchState.ManualReview
  end.

Definition queue_state_of (target_state : FinalState) : OfflineQueueState.t :=
  match target_state with
  | FinalPermanentFailure => OfflineQueueState.PermanentFailure
  | FinalManualReview => OfflineQueueState.ManualReview
  end.

Definition record_final_synchronization_failure (reader_id : ReaderId)
    (batch_id : SynchronizationBatchId) (failure_category : Str) (updated_at : Z)
    (target_state : FinalState) (transition : Str)
  : Mut ReaderDb ReaderSynchronizationFailureError.t SynchronizationBatch.t :=
  let database operation := ReaderSynchronizationFailureError.database (lit operation) in
  let invalid := ReaderSynchronizationFailureError.invalid_stored_value (lit "batch_entry_count") in
  _ ← lift (validate_operation_time updated_at);
  failure_category ← lift (validate_failure_category failure_category);
  _ ← transaction (database "begin final batch failure") (database "commit final batch failure") (
    batch_update ←
      statement (database "record final batch failure")
        (update_batches
           (fun b => ReaderSyncState.addresses batch_id reader_id updated_at b
                     && ReaderSyncState.is_in_flight b)
           (fun b => BatchRow.set_state (batch_state_of target_state) (BatchRow.attempt_count b)
                       (BatchRow.submitted_at b) None (Some failure_category) updated_at b));
    if decide (batch_update <> 1) then
      fail (ReaderSynchronizationFailureError.invalid_transition batch_id transition)
    else
      expected ← query (database "count final batch entries")
                   (ReaderSyncState.count_entries reader_id batch_id);
      expected_entries ← lift (ok_or (u64_try_from expected) invalid);
      if decide (expected_entries = 0) then fail invalid
      else
        queue_update ←
          statement (database "record final queue failures")
            (fun t => update_offline_transactions
               (ReaderSyncState.is_batch_member reader_id batch_id updated_at t)
               (fun r => OfflineTransactionRow.set_state (queue_state_of target_state)
                           (OfflineTransactionRow.attempt_count r) None
                           (Some failure_category) updated_at r) t);
        if decide (queue_update <> expected_entries) then
          fail (ReaderSynchronizationFailureError.BatchEntryConflict batch_id expected_entries
                  queue_update)
        else mret tt);
  map_error ReaderSynchronizationFailureError.Synchronization
    (ReaderSync.load_synchronization_batch reader_id batch_id).

Definition record_synchronization_permanent_failure (reader_id : ReaderId)
    (batch_id : SynchronizationBatchId) (failure_category : Str) (updated_at : Z)
  : Mut ReaderDb ReaderSynchronizationFailureError.t SynchronizationBatch.t :=
  record_final_synchronization_failure reader_id batch_id failure_category updated_at
    FinalPermanentFailure (lit "record_permanent_failure").

Definition record_synchronization_manual_review (reader_id : ReaderId)
    (batch_id : SynchronizationBatchId) (failure_category : Str) (updated_at : Z)
  : Mut ReaderDb ReaderSynchronizationFailureError.t SynchronizationBatch.t :=
  record_final_synchronization_failure reader_id batch_id failure_category updated_at
    FinalManualReview (lit "record_manual_review").

End ReaderSyncFailure.

(** ** The protocol request of a batch *)

Module ReaderSynchronizationRequestError.

Inductive t :=
| BatchNotFound (batch_id : SynchronizationBatchId) (reader_id : ReaderId)
| BatchNotInFlight (batch_id : SynchronizationBatchId)
| MissingSubmissionTime (batch_id : SynchronizationBatchId)
| ReaderStateNotFound (reader_id : ReaderId)
| ReaderIdentityMismatch (expected actual : ReaderId)
| ProtocolMismatch (batch_id : SynchronizationBatchId)
| InvalidStoredValue (field : Str)
| Protocol (e : SynchronizationProtocolError.t)
| Database (operation : Str) (source : SqlError).

#[global] Instance eq_dec : EqDecision t.
Proof. solve_decision. Defined.

Definition database (operation : Str) (source : SqlError) : t := Database operation source.
Definition invalid_stored_value (field : Str) : t := InvalidStoredValue field.

End ReaderSynchronizationRequestError.

Module ReaderSyncRequest.

Definition decode_protocol_version (value : Z)
  : Result ReaderSynchronizationRequestError.t DeviceProtocolVersion.t :=
  let invalid :=
    ReaderSynchronizationRequestError.invalid_stored_value (lit "protocol_version") in
  value ← ok_or (u16_try_from value) invalid;
  map_err (fun _ => invalid) (DeviceProtocolVersion.new value).

Definition decode_sequence (value : Z) (field : Str)
  : Result ReaderSynchronizationRequestError.t LocalSequenceNumber.t :=
  let invalid := ReaderSynchronizationRequestError.invalid_stored_value field in
  value ← ok_or (u64_try_from value) invalid;
  map_err (fun _ => invalid) (LocalSequenceNumber.new value).

(** An entry joined with its queued transaction on identity, reader and
    sequence, in the order of the entries. *)
Definition select_request_entries (reader_id : ReaderId) (batch_id : SynchronizationBatchId)
    (t : ReaderTables) : list (EntryRow.t * Str) :=
  omap (fun e =>
    r ← offline_transactions t !! EntryRow.fare_transaction_id e;
    if decide (OfflineTransactionRow.reader_id r = EntryRow.reader_id e
               /\ OfflineTransactionRow.local_sequence_number r = EntryRow.local_sequence_number e)
    then Some (e, OfflineTransactionRow.transaction_envelope_json r)
    else None) (select_entries (ReaderSync.is_entry_of reader_id batch_id) t).

Section request.
Context `{JsonLibrary}.

Fixpoint decode_request_entries (expected_position : Z) (stored_entries : list (EntryRow.t * Str))
  : Result ReaderSynchronizationRequestError.t (list SynchronizationRequestEntry.t) :=
  match stored_entries with
  | [] => Ok []
  | (stored, transaction_envelope_json) :: stored_entries' =>
      actual_position ←
        ok_or (u64_try_from (EntryRow.entry_position stored))
          (ReaderSynchronizationRequestError.invalid_stored_value (lit "entry_position"));
      if decide (actual_position <> expected_position) then
        Err (ReaderSynchronizationRequestError.invalid_stored_value (lit "entry_position"))
      else
        local_sequence_number ←
          decode_sequence (EntryRow.local_sequence_number stored) (lit "local_sequence_number");
        transaction_envelope ←
          map_err ReaderSynchronizationRequestError.Protocol
            (CanonicalTransactionEnvelope.from_json transaction_envelope_json);
        entries ← decode_request_entries (expected_position + 1) stored_entries';
        Ok (SynchronizationRequestEntry.new (EntryRow.fare_transaction_id stored)
              local_sequence_number transaction_envelope :: entries)
  end.

Definition load_synchronization_batch_request (reader_id : ReaderId)
    (batch_id : SynchronizationBatchId)
  : Mut ReaderDb ReaderSynchronizationRequestError.t SynchronizationBatchRequest.t :=
  let database operation := ReaderSynchronizationRequestError.database (lit operation) in
  transaction (database "begin request assembly") (database "commit request assembly") (
    found ← query (database "load synchronization batch")
              (ReaderSync.find_batch reader_id batch_id);
    batch ← lift (ok_or found (ReaderSynchronizationRequestError.BatchNotFound batch_id reader_id));
    if decide (BatchRow.batch_state batch <> SynchronizationBatchState.InFlight) then
      fail (ReaderSynchronizationRequestError.BatchNotInFlight batch_id)
    else
      submitted_at ←
        lift (ok_or (BatchRow.submitted_at batch)
                (ReaderSynchronizationRequestError.MissingSubmissionTime batch_id));
      if submitted_at <? 0 then
        fail (ReaderSynchronizationRequestError.invalid_stored_value
                (lit "submitted_at_unix_milliseconds"))
      else
        found_reader ← query (database "load reader state") reader_state;
        reader ←
          lift (ok_or found_reader (ReaderSynchronizationRequestError.ReaderStateNotFound reader_id));
        if decide (ReaderStateRow.reader_id reader <> reader_id) then
          fail (ReaderSynchronizationRequestError.ReaderIdentityMismatch reader_id
                  (ReaderStateRow.reader_id reader))
        else
          reader_protocol ← lift (decode_protocol_version (ReaderStateRow.protocol_version reader));
          batch_protocol ← lift (decode_protocol_version (BatchRow.protocol_version batch));
          if decide (reader_protocol <> batch_protocol) then
            fail (ReaderSynchronizationRequestError.ProtocolMismatch batch_id)
          else
            first_local_sequence_number ←
              lift (decode_sequence (BatchRow.first_local_sequence_number batch)
                      (lit "first_local_sequence_number"));
            last_local_sequence_number ←
              lift (decode_sequence (BatchRow.last_local_sequence_number batch)
                      (lit "last_local_sequence_number"));
            stored_entries ← query (database "load synchronization request entries")
                               (select_request_entries reader_id batch_id);
            if decide (stored_entries = []) then
              fail (ReaderSynchronizationRequestError.invalid_stored_value
                      (lit "synchronization_entries"))
            else
              entries ← lift (decode_request_entries 0 stored_entries);
              environment_id ←
                lift (map_err ReaderSynchronizationRequestError.Protocol
                        (ProtocolEnvironmentId.new (ReaderStateRow.environment_id reader)));
              reader_software_version ←
                lift (map_err ReaderSynchronizationRequestError.Protocol
                        (ReaderSoftwareVersion.new (ReaderStateRow.software_version reader)));
              lift (map_err ReaderSynchronizationRequestError.Protocol
                      (SynchronizationBatchRequest.new
                         (SynchronizationBatchRequestDefinition.mk batch_protocol environment_id
                            reader_id reader_software_version batch_id first_local_sequence_number
                            last_local_sequence_number submitted_at entries)))).

End request.
End ReaderSyncRequest.
