(* ===== verification/PersistenceReaderAcknowledgement.v ===== *)
(** * Acknowledgements at the reader (crates/persistence/src:
    reader_acknowledgement.rs, reader_protocol_acknowledgement.rs,
    reader_acknowledgement_application.rs)

    A protocol acknowledgement is translated, validated against its batch and
    stored once; applying it settles the transactions, the batch and the
    reader's acknowledged sequence in one transaction. *)

From S2P Require Import Prelude Text DomainMoney DomainIdentifier DomainTransaction.
From S2P Require Import DeviceProtocolValues DeviceProtocolSynchronization.
From S2P Require Import PersistenceReaderStore PersistenceReaderIdentity PersistenceReaderQueue.
From S2P Require Import PersistenceReaderSync.

Module SynchronizationEntryResolution.

Inductive t :=
| Acknowledged
| RetryableFailure (failure_category : Str) (retry_at_unix_milliseconds : Z)
| PermanentFailure (failure_category : Str)
| ManualReview (failure_category : Str).

#[global] Instance eq_dec : EqDecision t.
Proof. solve_decision. Defined.

End SynchronizationEntryResolution.

Module ReaderAcknowledgementError.

Inductive t :=
| NegativeReceivedTime (unix_milliseconds : Z)
| InvalidSequenceRange
| EmptyEntries
| DuplicateTransaction (transaction_id : FareTransactionId)
| DuplicateSequence (local_sequence_number : Z)
| EmptyFailureCategory (transaction_id : FareTransactionId)
| RetryBeforeAcknowledgement (transaction_id : FareTransactionId)
    (retry_at_unix_milliseconds received_at_unix_milliseconds : Z)
| ProtocolMismatch (batch_id : SynchronizationBatchId)
| SequenceRangeMismatch (batch_id : SynchronizationBatchId)
| EntryCountMismatch (batch_id : SynchronizationBatchId) (expected received : Z)
| EntryMismatch (batch_id : SynchronizationBatchId) (position : Z)
| BatchNotInFlight (batch_id : SynchronizationBatchId)
| ConflictingReplay (batch_id : SynchronizationBatchId)
| Serialization
| Synchronization (e : ReaderSynchronizationError.t)
| Database (operation : Str) (source : SqlError).

#[global] Instance eq_dec : EqDecision t.
Proof. solve_decision. Defined.

Definition database (operation : Str) (source : SqlError) : t := Database operation source.

End ReaderAcknowledgementError.

Module ReaderAcknowledgement.

Module Entry.

(** [SynchronizationAcknowledgementEntry] of this crate. *)
Record t := new {
  transaction_id : FareTransactionId;
  local_sequence_number : LocalSequenceNumber.t;
  resolution : SynchronizationEntryResolution.t
}.

#[global] Instance eq_dec : EqDecision t.
Proof. solve_decision. Defined.

End Entry.

(** [SynchronizationAcknowledgement]. *)
Record t := mk {
  reader_id : ReaderId;
  batch_id : SynchronizationBatchId;
  protocol_version : DeviceProtocolVersion.t;
  first_local_sequence_number : LocalSequenceNumber.t;
  last_local_sequence_number : LocalSequenceNumber.t;
  received_at_unix_milliseconds : Z;
  entries : list Entry.t
}.

#[global] Instance eq_dec : EqDecision t.
Proof. solve_decision. Defined.

Definition validate_failure_category (transaction_id : FareTransactionId) (failure_category : Str)
  : Result ReaderAcknowledgementError.t unit :=
  if decide (trim failure_category = []) then
    Err (ReaderAcknowledgementError.EmptyFailureCategory transaction_id)
  else Ok tt.

Definition validate_resolution (transaction_id : FareTransactionId)
    (resolution : SynchronizationEntryResolution.t) (received_at : Z)
  : Result ReaderAcknowledgementError.t unit :=
  match resolution with
  | SynchronizationEntryResolution.Acknowledged => Ok tt
  | SynchronizationEntryResolution.RetryableFailure failure_category retry_at =>
      _ ← validate_failure_category transaction_id failure_category;
      if retry_at <? received_at then
        Err (ReaderAcknowledgementError.RetryBeforeAcknowledgement transaction_id retry_at
               received_at)
      else Ok tt
  | SynchronizationEntryResolution.PermanentFailure failure_category
  | SynchronizationEntryResolution.ManualReview failure_category =>
      validate_failure_category transaction_id failure_category
  end.

(** The loop of [new]: the sets of identities and sequences seen so far. *)
Fixpoint validate_entries (received_at : Z) (transaction_ids : gset FareTransactionId)
    (sequences : gset Z) (entries : list Entry.t) : Result ReaderAcknowledgementError.t unit :=
  match entries with
  | [] => Ok tt
  | entry :: entries' =>
      let id := Entry.transaction_id entry in
      let sequence := LocalSequenceNumber.value (Entry.local_sequence_number entry) in
      if decide (id ∈ transaction_ids) then
        Err (ReaderAcknowledgementError.DuplicateTransaction id)
      else if decide (sequence ∈ sequences) then
        Err (ReaderAcknowledgementError.DuplicateSequence sequence)
      else
        _ ← validate_resolution id (Entry.resolution entry) received_at;
        validate_entries received_at ({[ id ]} ∪ transaction_ids) ({[ sequence ]} ∪ sequences)
          entries'
  end.

Definition new (reader_id : ReaderId) (batch_id : SynchronizationBatchId)
    (protocol_version : DeviceProtocolVersion.t)
    (first_local_sequence_number last_local_sequence_number : LocalSequenceNumber.t)
    (received_at : Z) (entries : list Entry.t) : Result ReaderAcknowledgementError.t t :=
  if received_at <? 0 then Err (ReaderAcknowledgementError.NegativeReceivedTime received_at)
  else if LocalSequenceNumber.value last_local_sequence_number
            <? LocalSequenceNumber.value first_local_sequence_number then
    Err ReaderAcknowledgementError.InvalidSequenceRange
  else if decide (entries = []) then Err ReaderAcknowledgementError.EmptyEntries
  else
    _ ← validate_entries received_at ∅ ∅ entries;
    Ok (mk reader_id batch_id protocol_version first_local_sequence_number
          last_local_sequence_number received_at entries).

(** The loop of [validate_against_batch]. *)
Fixpoint compare_entries (batch_id : SynchronizationBatchId) (position : Z)
    (expected : list SynchronizationBatchEntry.t) (received : list Entry.t)
  : Result ReaderAcknowledgementError.t unit :=
  match expected, received with
  | e :: expected', r :: received' =>
      if decide (SynchronizationBatchEntry.transaction_id e <> Entry.transaction_id r
                 \/ SynchronizationBatchEntry.local_sequence_number e
                    <> Entry.local_sequence_number r) then
        Err (ReaderAcknowledgementError.EntryMismatch batch_id position)
      else compare_entries batch_id (position + 1) expected' received'
  | _, _ => Ok tt
  end.

Definition validate_against_batch (acknowledgement : t) (batch : SynchronizationBatch.t)
  : Result ReaderAcknowledgementError.t unit :=
  let id := SynchronizationBatch.batch_id batch in
  if decide (protocol_version acknowledgement <> SynchronizationBatch.protocol_version batch) then
    Err (ReaderAcknowledgementError.ProtocolMismatch id)
  else if decide (first_local_sequence_number acknowledgement
                    <> SynchronizationBatch.first_local_sequence_number batch
                  \/ last_local_sequence_number acknowledgement
                     <> SynchronizationBatch.last_local_sequence_number batch) then
    Err (ReaderAcknowledgementError.SequenceRangeMismatch id)
  else if decide (length (entries acknowledgement) <> length (SynchronizationBatch.entries batch))
  then
    Err (ReaderAcknowledgementError.EntryCountMismatch id
           (Z.of_nat (length (SynchronizationBatch.entries batch)))
           (Z.of_nat (length (entries acknowledgement))))
  else compare_entries id 0 (SynchronizationBatch.entries batch) (entries acknowledgement).

Definition stored_resolution (resolution : SynchronizationEntryResolution.t)
  : AcknowledgementOutcome.t * option Str * option Z :=
  match resolution with
  | SynchronizationEntryResolution.Acknowledged =>
      (AcknowledgementOutcome.Acknowledged, None, None)
  | SynchronizationEntryResolution.RetryableFailure failure_category retry_at =>
      (AcknowledgementOutcome.RetryableFailure, Some failure_category, Some retry_at)
  | SynchronizationEntryResolution.PermanentFailure failure_category =>
      (AcknowledgementOutcome.PermanentFailure, Some failure_category, None)
  | SynchronizationEntryResolution.ManualReview failure_category =>
      (AcknowledgementOutcome.ManualReview, Some failure_category, None)
  end.

Section payload.
Context `{JsonLibrary} `{UuidLibrary}.

(** The closure over [enumerate]. *)
Definition entry_payload (position : nat) (entry : Entry.t) : Json :=
  let '(outcome, failure_category, retry_at_unix_milliseconds) :=
    stored_resolution (Entry.resolution entry) in
  JObject [
    (lit "entry_position", JInteger (Z.of_nat position));
    (lit "fare_transaction_id", JString (identifier_to_string (Entry.transaction_id entry)));
    (lit "local_sequence_number",
     JInteger (LocalSequenceNumber.value (Entry.local_sequence_number entry)));
    (lit "outcome", JString (AcknowledgementOutcome.as_str outcome));
    (lit "failure_category", serialize (Serde := serde_option (H := serde_string)) failure_category);
    (lit "retry_at_unix_milliseconds",
     serialize (Serde := serde_option (H := serde_i64)) retry_at_unix_milliseconds)].

Definition canonical_payload (acknowledgement : t) : Result ReaderAcknowledgementError.t Str :=
  map_err (fun _ => ReaderAcknowledgementError.Serialization) (json_to_string (JObject [
    (lit "schema_version", JInteger 1);
    (lit "reader_id", JString (identifier_to_string (reader_id acknowledgement)));
    (lit "batch_id", JString (identifier_to_string (batch_id acknowledgement)));
    (lit "protocol_version", JInteger (DeviceProtocolVersion.value (protocol_version acknowledgement)));
    (lit "first_local_sequence_number",
     JInteger (LocalSequenceNumber.value (first_local_sequence_number acknowledgement)));
    (lit "last_local_sequence_number",
     JInteger (LocalSequenceNumber.value (last_local_sequence_number acknowledgement)));
    (lit "received_at_unix_milliseconds", JInteger (received_at_unix_milliseconds acknowledgement));
    (lit "entries", JArray (imap entry_payload (entries acknowledgement)))])).

End payload.

Definition sequence_to_i64 (sequence : LocalSequenceNumber.t)
  : Result ReaderAcknowledgementError.t Z :=
  ok_or (i64_try_from (LocalSequenceNumber.value sequence))
    ReaderAcknowledgementError.InvalidSequenceRange.

End ReaderAcknowledgement.

Module StoredSynchronizationAcknowledgement.

Record t := mk { acknowledgement : ReaderAcknowledgement.t; replayed : bool }.

End StoredSynchronizationAcknowledgement.

Module ReaderAcknowledgementStorage.
Section storage.
Context `{JsonLibrary} `{UuidLibrary}.

(** [SELECT .. WHERE batch_id = ? AND reader_id = ?]. *)
Definition find_acknowledgement (reader_id : ReaderId) (batch_id : SynchronizationBatchId)
    (t : ReaderTables) : option AcknowledgementRow.t :=
  a ← synchronization_acknowledgements t !! batch_id;
  if decide (AcknowledgementRow.reader_id a = reader_id) then Some a else None.

Definition insert_entry (reader_id : ReaderId) (batch_id : SynchronizationBatchId)
    (position : nat) (entry : ReaderAcknowledgement.Entry.t)
  : Mut ReaderDb ReaderAcknowledgementError.t unit :=
  stored_position ←
    lift (ok_or (i64_try_from (Z.of_nat position))
            (ReaderAcknowledgementError.EntryMismatch batch_id (Z.of_nat position)));
  let '(outcome, failure_category, retry_at) :=
    ReaderAcknowledgement.stored_resolution (ReaderAcknowledgement.Entry.resolution entry) in
  sequence ←
    lift (ReaderAcknowledgement.sequence_to_i64
            (ReaderAcknowledgement.Entry.local_sequence_number entry));
  statement (ReaderAcknowledgementError.database (lit "insert acknowledgement entry"))
    (insert_acknowledgement_entry
       (AcknowledgementEntryRow.mk batch_id reader_id
          (ReaderAcknowledgement.Entry.transaction_id entry) sequence stored_position outcome
          failure_category retry_at)).

Fixpoint insert_entries (reader_id : ReaderId) (batch_id : SynchronizationBatchId)
    (position : nat) (entries : list ReaderAcknowledgement.Entry.t)
  : Mut ReaderDb ReaderAcknowledgementError.t unit :=
  match entries with
  | [] => mret tt
  | entry :: entries' =>
      _ ← insert_entry reader_id batch_id position entry;
      insert_entries reader_id batch_id (S position) entries'
  end.

Definition store_synchronization_acknowledgement (acknowledgement : ReaderAcknowledgement.t)
  : Mut ReaderDb ReaderAcknowledgementError.t StoredSynchronizationAcknowledgement.t :=
  let database operation := ReaderAcknowledgementError.database (lit operation) in
  let reader_id := ReaderAcknowledgement.reader_id acknowledgement in
  let batch_id := ReaderAcknowledgement.batch_id acknowledgement in
  batch ← map_error ReaderAcknowledgementError.Synchronization
            (ReaderSync.load_synchronization_batch reader_id batch_id);
  _ ← lift (ReaderAcknowledgement.validate_against_batch acknowledgement batch);
  payload ← lift (ReaderAcknowledgement.canonical_payload acknowledgement);
  transaction_if (fun stored => negb (StoredSynchronizationAcknowledgement.replayed stored))
    (database "begin acknowledgement storage")
    (fun _ => database "commit acknowledgement storage") (
    existing ← query (database "load existing acknowledgement")
                 (find_acknowledgement reader_id batch_id);
    match existing with
    | Some stored =>
        if decide (AcknowledgementRow.payload_json stored <> payload) then
          fail (ReaderAcknowledgementError.ConflictingReplay batch_id)
        else mret (StoredSynchronizationAcknowledgement.mk acknowledgement true)
    | None =>
        found ← query (database "load acknowledgement batch state")
                  (ReaderSync.find_batch reader_id batch_id);
        if decide (BatchRow.batch_state <$> found <> Some SynchronizationBatchState.InFlight) then
          fail (ReaderAcknowledgementError.BatchNotInFlight batch_id)
        else
          first_sequence ←
            lift (ReaderAcknowledgement.sequence_to_i64
                    (ReaderAcknowledgement.first_local_sequence_number acknowledgement));
          last_sequence ←
            lift (ReaderAcknowledgement.sequence_to_i64
                    (ReaderAcknowledgement.last_local_sequence_number acknowledgement));
          _ ← statement (database "insert acknowledgement")
                (insert_acknowledgement
                   (AcknowledgementRow.mk batch_id reader_id
                      (DeviceProtocolVersion.value
                         (ReaderAcknowledgement.protocol_version acknowledgement))
                      first_sequence last_sequence
                      (ReaderAcknowledgement.received_at_unix_milliseconds acknowledgement)
                      payload None));
          _ ← insert_entries reader_id batch_id 0 (ReaderAcknowledgement.entries acknowledgement);
          mret (StoredSynchronizationAcknowledgement.mk acknowledgement false)
    end).

End storage.
End ReaderAcknowledgementStorage.

(** ** Translation of the protocol message *)

Module ReaderProtocolAcknowledgementError.

Inductive t :=
| MissingFailureCategory (transaction_id : FareTransactionId)
| MissingRetryTime (transaction_id : FareTransactionId)
| Acknowledgement (e : ReaderAcknowledgementError.t).

#[global] Instance eq_dec : EqDecision t.
Proof. solve_decision. Defined.

End ReaderProtocolAcknowledgementError.

Module ReaderProtocolAcknowledgement.

Definition required_failure_category (entry : SynchronizationAcknowledgementEntry.t)
  : Result ReaderProtocolAcknowledgementError.t Str :=
  ok_or (SynchronizationFailureCategory.as_str
           <$> SynchronizationAcknowledgementEntry.failure_category entry)
    (ReaderProtocolAcknowledgementError.MissingFailureCategory
       (SynchronizationAcknowledgementEntry.transaction_id entry)).

Definition translate_entry (entry : SynchronizationAcknowledgementEntry.t)
  : Result ReaderProtocolAcknowledgementError.t ReaderAcknowledgement.Entry.t :=
  resolution ←
    match SynchronizationAcknowledgementEntry.outcome entry with
    | SynchronizationEntryOutcome.Acknowledged => Ok SynchronizationEntryResolution.Acknowledged
    | SynchronizationEntryOutcome.RetryableFailure =>
        failure_category ← required_failure_category entry;
        retry_at ←
          ok_or (SynchronizationAcknowledgementEntry.next_retry_at_unix_milliseconds entry)
            (ReaderProtocolAcknowledgementError.MissingRetryTime
               (SynchronizationAcknowledgementEntry.transaction_id entry));
        Ok (SynchronizationEntryResolution.RetryableFailure failure_category retry_at)
    | SynchronizationEntryOutcome.PermanentFailure =>
        failure_category ← required_failure_category entry;
        Ok (SynchronizationEntryResolution.PermanentFailure failure_category)
    | SynchronizationEntryOutcome.ManualReview =>
        failure_category ← required_failure_category entry;
        Ok (SynchronizationEntryResolution.ManualReview failure_category)
    end;
  Ok (ReaderAcknowledgement.Entry.new
        (SynchronizationAcknowledgementEntry.transaction_id entry)
        (SynchronizationAcknowledgementEntry.local_sequence_number entry) resolution).

Definition translate_protocol_synchronization_acknowledgement
    (acknowledgement : SynchronizationBatchAcknowledgement.t)
  : Result ReaderProtocolAcknowledgementError.t ReaderAcknowledgement.t :=
  entries ← try_map translate_entry (SynchronizationBatchAcknowledgement.entries acknowledgement);
  map_err ReaderProtocolAcknowledgementError.Acknowledgement
    (ReaderAcknowledgement.new
       (SynchronizationBatchAcknowledgement.reader_id acknowledgement)
       (SynchronizationBatchAcknowledgement.batch_id acknowledgement)
       (SynchronizationBatchAcknowledgement.protocol_version acknowledgement)
       (SynchronizationBatchAcknowledgement.first_local_sequence_number acknowledgement)
       (SynchronizationBatchAcknowledgement.last_local_sequence_number acknowledgement)
       (SynchronizationBatchAcknowledgement.received_at_unix_milliseconds acknowledgement)
       entries).

Definition store_protocol_synchronization_acknowledgement `{JsonLibrary} `{UuidLibrary}
    (acknowledgement : SynchronizationBatchAcknowledgement.t)
  : Mut ReaderDb ReaderProtocolAcknowledgementError.t StoredSynchronizationAcknowledgement.t :=
  translated ← lift (translate_protocol_synchronization_acknowledgement acknowledgement);
  map_error ReaderProtocolAcknowledgementError.Acknowledgement
    (ReaderAcknowledgementStorage.store_synchronization_acknowledgement translated).

End ReaderProtocolAcknowledgement.
