(* ===== verification/PersistenceReaderApplication.v ===== *)
(** * Applying a stored acknowledgement
    (crates/persistence/src/reader_acknowledgement_application.rs) *)

From S2P Require Import Prelude Text DomainMoney DomainIdentifier DomainTransaction.
From S2P Require Import DeviceProtocolValues DeviceProtocolSynchronization.
From S2P Require Import PersistenceReaderStore PersistenceReaderIdentity PersistenceReaderQueue.
From S2P Require Import PersistenceReaderSync PersistenceReaderAcknowledgement.

Module ReaderAcknowledgementApplicationError.

Inductive t :=
| NegativeApplicationTime (unix_milliseconds : Z)
| AcknowledgementNotFound (batch_id : SynchronizationBatchId) (reader_id : ReaderId)
| ApplicationBeforeReceipt (batch_id : SynchronizationBatchId)
    (applied_at_unix_milliseconds received_at_unix_milliseconds : Z)
| BatchNotInFlight (batch_id : SynchronizationBatchId)
| EntryStateConflict (transaction_id : FareTransactionId)
| AcknowledgementUpdateConflict (batch_id : SynchronizationBatchId)
| ReaderStateNotFound (reader_id : ReaderId)
| InvalidStoredValue (field : Str)
| Database (operation : Str) (source : SqlError).

#[global] Instance eq_dec : EqDecision t.
Proof. solve_decision. Defined.

Definition database (operation : Str) (source : SqlError) : t := Database operation source.
Definition invalid_stored_value (field : Str) : t := InvalidStoredValue field.

End ReaderAcknowledgementApplicationError.

Module AppliedResolution.

Inductive t :=
| Acknowledged
| RetryableFailure (failure_category : Str) (retry_at_unix_milliseconds : Z)
| PermanentFailure (failure_category : Str)
| ManualReview (failure_category : Str).

#[global] Instance eq_dec : EqDecision t.
Proof. solve_decision. Defined.

Definition queue_values (self : t) : OfflineQueueState.t * option Str * option Z :=
  match self with
  | Acknowledged => (OfflineQueueState.Acknowledged, None, None)
  | RetryableFailure failure_category retry_at =>
      (OfflineQueueState.RetryableFailure, Some failure_category, Some retry_at)
  | PermanentFailure failure_category =>
      (OfflineQueueState.PermanentFailure, Some failure_category, None)
  | ManualReview failure_category =>
      (OfflineQueueState.ManualReview, Some failure_category, None)
  end.

End AppliedResolution.

Module DecodedAcknowledgementEntry.

Record t := mk {
  transaction_id : FareTransactionId;
  local_sequence_number : Z;
  resolution : AppliedResolution.t
}.

End DecodedAcknowledgementEntry.

Module ResolutionCounts.

Record t := mk {
  acknowledged : Z;
  retryable_failure : Z;
  permanent_failure : Z;
  manual_review : Z
}.

#[global] Instance eq_dec : EqDecision t.
Proof. solve_decision. Defined.

Definition default : t := mk 0 0 0 0.

Definition record (resolution : AppliedResolution.t) (self : t) : t :=
  match resolution with
  | AppliedResolution.Acknowledged =>
      mk (acknowledged self + 1) (retryable_failure self) (permanent_failure self)
        (manual_review self)
  | AppliedResolution.RetryableFailure _ _ =>
      mk (acknowledged self) (retryable_failure self + 1) (permanent_failure self)
        (manual_review self)
  | AppliedResolution.PermanentFailure _ =>
      mk (acknowledged self) (retryable_failure self) (permanent_failure self + 1)
        (manual_review self)
  | AppliedResolution.ManualReview _ =>
      mk (acknowledged self) (retryable_failure self) (permanent_failure self)
        (manual_review self + 1)
  end.

End ResolutionCounts.

Module SynchronizationAcknowledgementApplication.

Record t := mk {
  batch_id : SynchronizationBatchId;
  applied_now : bool;
  applied_at_unix_milliseconds : Z;
  acknowledged_entries : Z;
  retryable_failure_entries : Z;
  permanent_failure_entries : Z;
  manual_review_entries : Z;
  last_acknowledged_sequence : Z
}.

#[global] Instance eq_dec : EqDecision t.
Proof. solve_decision. Defined.

End SynchronizationAcknowledgementApplication.

Module ReaderAcknowledgementApplication.

Definition invalid (field : string) : ReaderAcknowledgementApplicationError.t :=
  ReaderAcknowledgementApplicationError.invalid_stored_value (lit field).

Definition validated_failure_category (failure_category : option Str)
  : Result ReaderAcknowledgementApplicationError.t Str :=
  failure_category ← ok_or failure_category (invalid "failure_category");
  let normalized := trim failure_category in
  if decide (normalized = []) then Err (invalid "failure_category") else Ok normalized.

Definition decode_resolution (outcome : AcknowledgementOutcome.t) (failure_category : option Str)
    (retry_at : option Z) (received_at : Z)
  : Result ReaderAcknowledgementApplicationError.t AppliedResolution.t :=
  match outcome with
  | AcknowledgementOutcome.Acknowledged =>
      if decide (is_Some failure_category \/ is_Some retry_at) then
        Err (invalid "acknowledgement_outcome")
      else Ok AppliedResolution.Acknowledged
  | AcknowledgementOutcome.RetryableFailure =>
      failure_category ← validated_failure_category failure_category;
      retry_at ← ok_or retry_at (invalid "retry_at_unix_milliseconds");
      if retry_at <? received_at then Err (invalid "retry_at_unix_milliseconds")
      else Ok (AppliedResolution.RetryableFailure failure_category retry_at)
  | AcknowledgementOutcome.PermanentFailure =>
      if decide (is_Some retry_at) then Err (invalid "retry_at_unix_milliseconds")
      else
        failure_category ← validated_failure_category failure_category;
        Ok (AppliedResolution.PermanentFailure failure_category)
  | AcknowledgementOutcome.ManualReview =>
      if decide (is_Some retry_at) then Err (invalid "retry_at_unix_milliseconds")
      else
        failure_category ← validated_failure_category failure_category;
        Ok (AppliedResolution.ManualReview failure_category)
  end.

(** [decode_entries], from the position the loop has reached. *)
Fixpoint decode_entries (expected_position : Z)
    (stored_entries : list AcknowledgementEntryRow.t) (received_at : Z)
  : Result ReaderAcknowledgementApplicationError.t (list DecodedAcknowledgementEntry.t) :=
  match stored_entries with
  | [] => Ok []
  | stored_entry :: stored_entries' =>
      actual_position ←
        ok_or (u64_try_from (AcknowledgementEntryRow.entry_position stored_entry))
          (invalid "entry_position");
      if decide (actual_position <> expected_position) then Err (invalid "entry_position")
      else
        sequence ←
          ok_or (u64_try_from (AcknowledgementEntryRow.local_sequence_number stored_entry))
            (invalid "local_sequence_number");
        if sequence =? 0 then Err (invalid "local_sequence_number")
        else
          resolution ←
            decode_resolution (AcknowledgementEntryRow.outcome stored_entry)
              (AcknowledgementEntryRow.failure_category stored_entry)
              (AcknowledgementEntryRow.retry_at stored_entry) received_at;
          entries ← decode_entries (expected_position + 1) stored_entries' received_at;
          Ok (DecodedAcknowledgementEntry.mk
                (AcknowledgementEntryRow.fare_transaction_id stored_entry)
                (AcknowledgementEntryRow.local_sequence_number stored_entry) resolution :: entries)
  end.

Definition resolution_counts (entries : list DecodedAcknowledgementEntry.t) : ResolutionCounts.t :=
  foldl (fun counts entry =>
           ResolutionCounts.record (DecodedAcknowledgementEntry.resolution entry) counts)
    ResolutionCounts.default entries.

Definition is_resolved_queue_state (queue_state : OfflineQueueState.t) : bool :=
  match queue_state with
  | OfflineQueueState.Acknowledged | OfflineQueueState.PermanentFailure => true
  | _ => false
  end.

(** The loop of [contiguous_resolved_sequence]. *)
Fixpoint advance (last_acknowledged_sequence expected_sequence : Z)
    (queue_states : list (Z * OfflineQueueState.t))
  : Result ReaderAcknowledgementApplicationError.t Z :=
  match queue_states with
  | [] => Ok last_acknowledged_sequence
  | (local_sequence_number, queue_state) :: queue_states' =>
      sequence ← ok_or (u64_try_from local_sequence_number) (invalid "local_sequence_number");
      if sequence =? 0 then Err (invalid "local_sequence_number")
      else if decide (sequence <> expected_sequence) then Ok last_acknowledged_sequence
      else if negb (is_resolved_queue_state queue_state) then Ok last_acknowledged_sequence
      else
        next ← ok_or (u64_checked_add sequence 1) (invalid "last_acknowledged_sequence");
        advance sequence next queue_states'
  end.

Definition contiguous_resolved_sequence (current_last_acknowledged_sequence : Z)
    (queue_states : list (Z * OfflineQueueState.t))
  : Result ReaderAcknowledgementApplicationError.t Z :=
  expected_sequence ←
    ok_or (u64_checked_add current_last_acknowledged_sequence 1)
      (invalid "last_acknowledged_sequence");
  advance current_last_acknowledged_sequence expected_sequence queue_states.

Definition application_report (batch_id : SynchronizationBatchId) (applied_now : bool)
    (applied_at : Z) (counts : ResolutionCounts.t) (last_acknowledged_sequence : Z)
  : SynchronizationAcknowledgementApplication.t :=
  SynchronizationAcknowledgementApplication.mk batch_id applied_now applied_at
    (ResolutionCounts.acknowledged counts) (ResolutionCounts.retryable_failure counts)
    (ResolutionCounts.permanent_failure counts) (ResolutionCounts.manual_review counts)
    last_acknowledged_sequence.

(** The body of the loop over the entries. *)
Definition apply_entry (reader_id : ReaderId) (applied_at : Z)
    (entry : DecodedAcknowledgementEntry.t)
  : Mut ReaderDb ReaderAcknowledgementApplicationError.t unit :=
  let id := DecodedAcknowledgementEntry.transaction_id entry in
  let '(queue_state, failure_category, retry_at) :=
    AppliedResolution.queue_values (DecodedAcknowledgementEntry.resolution entry) in
  rows_affected ←
    statement (ReaderAcknowledgementApplicationError.database (lit "apply acknowledgement entry"))
      (update_offline_transactions
         (fun r => ReaderQueueState.addresses id reader_id applied_at r
                   && bool_decide (OfflineTransactionRow.local_sequence_number r
                                   = DecodedAcknowledgementEntry.local_sequence_number entry)
                   && ReaderQueueState.is_in_flight r)
         (fun r => OfflineTransactionRow.set_state queue_state
                     (OfflineTransactionRow.attempt_count r) retry_at failure_category
                     applied_at r));
  if decide (rows_affected <> 1) then
    fail (ReaderAcknowledgementApplicationError.EntryStateConflict id)
  else mret tt.

Fixpoint apply_entries (reader_id : ReaderId) (applied_at : Z)
    (entries : list DecodedAcknowledgementEntry.t)
  : Mut ReaderDb ReaderAcknowledgementApplicationError.t unit :=
  match entries with
  | [] => mret tt
  | entry :: entries' =>
      _ ← apply_entry reader_id applied_at entry;
      apply_entries reader_id applied_at entries'
  end.

(** The reader's sequence, written only when it advances. *)
Definition advance_reader_state (reader_id : ReaderId) (applied_at current advanced : Z)
  : Mut ReaderDb ReaderAcknowledgementApplicationError.t unit :=
  if current <? advanced then
    stored ← lift (ok_or (i64_try_from advanced) (invalid "last_acknowledged_sequence"));
    updated ←
      statement (ReaderAcknowledgementApplicationError.database (lit "advance acknowledged sequence"))
        (update_reader_state
           (fun r => bool_decide (ReaderStateRow.reader_id r = reader_id)
                     && (ReaderStateRow.last_acknowledged_sequence r <=? stored)
                     && (stored <? ReaderStateRow.next_local_sequence r))
           (fun r => ReaderStateRow.mk (ReaderStateRow.reader_id r)
                       (ReaderStateRow.environment_id r) (ReaderStateRow.software_version r)
                       (ReaderStateRow.protocol_version r) (ReaderStateRow.next_local_sequence r)
                       stored (ReaderStateRow.created_at r)
                       (Z.max (ReaderStateRow.updated_at r) applied_at)));
    if decide (updated = None) then fail (invalid "last_acknowledged_sequence") else mret tt
  else mret tt.

(** The steps from the batch state to the mark on the acknowledgement. *)
Definition apply_unapplied (reader_id : ReaderId) (batch_id : SynchronizationBatchId)
    (applied_at : Z) (entries : list DecodedAcknowledgementEntry.t) (current : Z)
  : Mut ReaderDb ReaderAcknowledgementApplicationError.t Z :=
  let database operation := ReaderAcknowledgementApplicationError.database (lit operation) in
  found ← query (database "load batch application state") (ReaderSync.find_batch reader_id batch_id);
  if decide (BatchRow.batch_state <$> found <> Some SynchronizationBatchState.InFlight) then
    fail (ReaderAcknowledgementApplicationError.BatchNotInFlight batch_id)
  else
    _ ← apply_entries reader_id applied_at entries;
    batch_update ←
      statement (database "complete acknowledged batch")
        (update_batches
           (fun b => ReaderSyncState.addresses batch_id reader_id applied_at b
                     && ReaderSyncState.is_in_flight b)
           (fun b => BatchRow.set_state SynchronizationBatchState.Acknowledged
                       (BatchRow.attempt_count b) (BatchRow.submitted_at b) None None applied_at b));
    if decide (batch_update <> 1) then
      fail (ReaderAcknowledgementApplicationError.BatchNotInFlight batch_id)
    else
      queue_states ←
        query (database "load contiguous queue state")
          (fun t => (fun r => (OfflineTransactionRow.local_sequence_number r,
                               OfflineTransactionRow.queue_state r))
             <$> select_offline_transactions (fun r =>
                   bool_decide (OfflineTransactionRow.reader_id r = reader_id)
                   && (current <? OfflineTransactionRow.local_sequence_number r)) t);
      advanced ← lift (contiguous_resolved_sequence current queue_states);
      _ ← advance_reader_state reader_id applied_at current advanced;
      acknowledgement_update ←
        statement (database "mark acknowledgement applied")
          (update_acknowledgements
             (fun a => bool_decide (AcknowledgementRow.batch_id a = batch_id
                                    /\ AcknowledgementRow.reader_id a = reader_id
                                    /\ AcknowledgementRow.applied_at a = None))
             (AcknowledgementRow.set_applied_at applied_at));
      if decide (acknowledgement_update <> 1) then
        fail (ReaderAcknowledgementApplicationError.AcknowledgementUpdateConflict batch_id)
      else mret advanced.

Definition apply_synchronization_acknowledgement (reader_id : ReaderId)
    (batch_id : SynchronizationBatchId) (applied_at : Z)
  : Mut ReaderDb ReaderAcknowledgementApplicationError.t
      SynchronizationAcknowledgementApplication.t :=
  let database operation := ReaderAcknowledgementApplicationError.database (lit operation) in
  if applied_at <? 0 then
    fail (ReaderAcknowledgementApplicationError.NegativeApplicationTime applied_at)
  else
    transaction_if (fun _ => true) (database "begin acknowledgement application")
      (fun report => if SynchronizationAcknowledgementApplication.applied_now report
                     then database "commit acknowledgement application"
                     else database "finish acknowledgement replay") (
      found ← query (database "load acknowledgement")
                (ReaderAcknowledgementStorage.find_acknowledgement reader_id batch_id);
      acknowledgement ←
        lift (ok_or found
          (ReaderAcknowledgementApplicationError.AcknowledgementNotFound batch_id reader_id));
      let received_at := AcknowledgementRow.received_at acknowledgement in
      if received_at <? 0 then fail (invalid "received_at_unix_milliseconds")
      else
        stored_entries ←
          query (database "load acknowledgement entries")
            (select_acknowledgement_entries (fun e =>
               bool_decide (AcknowledgementEntryRow.batch_id e = batch_id
                            /\ AcknowledgementEntryRow.reader_id e = reader_id)));
        entries ← lift (decode_entries 0 stored_entries received_at);
        if decide (length entries = 0%nat) then fail (invalid "acknowledgement_entries")
        else
          let counts := resolution_counts entries in
          reader ←
            query (database "load reader sequence state")
              (fun t => r ← reader_state t;
                        if decide (ReaderStateRow.reader_id r = reader_id) then Some r else None);
          stored_last ←
            lift (ok_or (ReaderStateRow.last_acknowledged_sequence <$> reader)
              (ReaderAcknowledgementApplicationError.ReaderStateNotFound reader_id));
          current ← lift (ok_or (u64_try_from stored_last) (invalid "last_acknowledged_sequence"));
          match AcknowledgementRow.applied_at acknowledgement with
          | Some stored_applied_at =>
              if stored_applied_at <? 0 then fail (invalid "applied_at_unix_milliseconds")
              else mret (application_report batch_id false stored_applied_at counts current)
          | None =>
              if applied_at <? received_at then
                fail (ReaderAcknowledgementApplicationError.ApplicationBeforeReceipt batch_id
                        applied_at received_at)
              else
                advanced ← apply_unapplied reader_id batch_id applied_at entries current;
                mret (application_report batch_id true applied_at counts advanced)
          end).

End ReaderAcknowledgementApplication.
