(* ===== verification/PersistenceReaderInvariant.v ===== *)
(** * The reader's store never loses or duplicates work

    What every call of the reader's persistence functions keeps, whatever the
    database fails: the invariant [store_ok] and the history relation
    [evolved]. *)

From stdpp Require Import sorting.
From S2P Require Import Prelude Text DomainMoney DomainIdentifier DomainTransaction.
From S2P Require Import DeviceProtocolValues DeviceProtocolSynchronization.
From S2P Require Import PersistenceReaderStore PersistenceReaderIdentity PersistenceReaderQueue.
From S2P Require Import PersistenceReaderSync PersistenceReaderAcknowledgement.
From S2P Require Import PersistenceReaderApplication PersistenceSqlLogic.

Abbreviation OTR := OfflineTransactionRow.t.
Module TX := OfflineTransactionRow.

(** ** Lifecycles *)

(** The moves of a queued transaction; the last three states are final. *)
Inductive queue_step : OfflineQueueState.t -> OfflineQueueState.t -> Prop :=
| queue_reserve : queue_step OfflineQueueState.Pending OfflineQueueState.InFlight
| queue_retry : queue_step OfflineQueueState.RetryableFailure OfflineQueueState.InFlight
| queue_back : queue_step OfflineQueueState.InFlight OfflineQueueState.RetryableFailure
| queue_acknowledge : queue_step OfflineQueueState.InFlight OfflineQueueState.Acknowledged
| queue_reject : queue_step OfflineQueueState.InFlight OfflineQueueState.PermanentFailure
| queue_review : queue_step OfflineQueueState.InFlight OfflineQueueState.ManualReview.

Inductive batch_step : SynchronizationBatchState.t -> SynchronizationBatchState.t -> Prop :=
| batch_submit : batch_step SynchronizationBatchState.Prepared SynchronizationBatchState.InFlight
| batch_retry :
    batch_step SynchronizationBatchState.RetryableFailure SynchronizationBatchState.InFlight
| batch_back :
    batch_step SynchronizationBatchState.InFlight SynchronizationBatchState.RetryableFailure
| batch_acknowledge :
    batch_step SynchronizationBatchState.InFlight SynchronizationBatchState.Acknowledged
| batch_reject :
    batch_step SynchronizationBatchState.InFlight SynchronizationBatchState.PermanentFailure
| batch_review :
    batch_step SynchronizationBatchState.InFlight SynchronizationBatchState.ManualReview.

Abbreviation resolved r :=
  (ReaderAcknowledgementApplication.is_resolved_queue_state (TX.queue_state r) = true).

Lemma resolved_final s s' :
  rtc queue_step s s' -> ReaderAcknowledgementApplication.is_resolved_queue_state s = true -> s' = s.
Proof. intros Hr Hs. destruct Hr as [|s s1 s2 Hstep _]; [done|]. by destruct Hstep. Qed.

Lemma active_back s s' :
  rtc batch_step s s' -> ReaderQueueState.is_active s' = true -> ReaderQueueState.is_active s = true.
Proof.
  intros Hr Hs. destruct Hr as [|s s1 s2 Hstep _]; [done|]. by destruct Hstep.
Qed.

(** What an update may change in a row. *)
Record transaction_evolved (r r' : OTR) : Prop := {
  te_identity : TX.fare_transaction_id r' = TX.fare_transaction_id r
    /\ TX.reader_id r' = TX.reader_id r
    /\ TX.local_sequence_number r' = TX.local_sequence_number r
    /\ TX.fare_credential_id r' = TX.fare_credential_id r
    /\ TX.event_time r' = TX.event_time r
    /\ TX.fare_policy_version r' = TX.fare_policy_version r
    /\ TX.provisional_decision r' = TX.provisional_decision r
    /\ TX.transaction_envelope_json r' = TX.transaction_envelope_json r
    /\ TX.created_at r' = TX.created_at r;
  te_state : rtc queue_step (TX.queue_state r) (TX.queue_state r');
  te_attempts : TX.attempt_count r <= TX.attempt_count r';
  te_updated : TX.updated_at r <= TX.updated_at r'
}.

Record batch_evolved (b b' : BatchRow.t) : Prop := {
  be_identity : BatchRow.batch_id b' = BatchRow.batch_id b
    /\ BatchRow.reader_id b' = BatchRow.reader_id b
    /\ BatchRow.protocol_version b' = BatchRow.protocol_version b
    /\ BatchRow.first_local_sequence_number b' = BatchRow.first_local_sequence_number b
    /\ BatchRow.last_local_sequence_number b' = BatchRow.last_local_sequence_number b
    /\ BatchRow.created_at b' = BatchRow.created_at b;
  be_state : rtc batch_step (BatchRow.batch_state b) (BatchRow.batch_state b');
  be_submitted : is_Some (BatchRow.submitted_at b) -> BatchRow.submitted_at b' = BatchRow.submitted_at b;
  be_attempts : BatchRow.attempt_count b <= BatchRow.attempt_count b';
  be_updated : BatchRow.updated_at b <= BatchRow.updated_at b'
}.

Record acknowledgement_evolved (a a' : AcknowledgementRow.t) : Prop := {
  ae_content : a' = a \/ exists applied, a' = AcknowledgementRow.set_applied_at applied a;
  ae_applied : is_Some (AcknowledgementRow.applied_at a) -> a' = a
}.

Record state_evolved (s s' : ReaderStateRow.t) : Prop := {
  se_identity : ReaderStateRow.reader_id s' = ReaderStateRow.reader_id s
    /\ ReaderStateRow.environment_id s' = ReaderStateRow.environment_id s
    /\ ReaderStateRow.software_version s' = ReaderStateRow.software_version s
    /\ ReaderStateRow.protocol_version s' = ReaderStateRow.protocol_version s;
  se_next : ReaderStateRow.next_local_sequence s <= ReaderStateRow.next_local_sequence s';
  se_last : ReaderStateRow.last_acknowledged_sequence s
            <= ReaderStateRow.last_acknowledged_sequence s'
}.

#[export] Instance transaction_evolved_preorder : PreOrder transaction_evolved.
Proof.
  split; [by constructor|]. intros r1 r2 r3 [H1 ? ? ?] [H2 ? ? ?].
  split; [naive_solver congruence|by etrans|lia|lia].
Qed.

#[export] Instance batch_evolved_preorder : PreOrder batch_evolved.
Proof.
  split; [by constructor|]. intros r1 r2 r3 [H1 ? Hs1 ? ?] [H2 ? Hs2 ? ?].
  split; [naive_solver congruence|by etrans| |lia|lia].
  intros Hs. rewrite <- (Hs1 Hs). apply Hs2. by rewrite (Hs1 Hs).
Qed.

#[export] Instance acknowledgement_evolved_preorder : PreOrder acknowledgement_evolved.
Proof.
  split; [by constructor; [left|]|]. intros a1 a2 a3 [H1 Ha1] [H2 Ha2].
  destruct H1 as [->|[x ->]]; [by constructor|]. rewrite (Ha2 ltac:(by eexists)).
  constructor; [by right; eexists|exact Ha1].
Qed.

#[export] Instance state_evolved_preorder : PreOrder state_evolved.
Proof.
  split; [by constructor|]. intros s1 s2 s3 [H1 ? ?] [H2 ? ?].
  split; [naive_solver congruence|lia|lia].
Qed.

(** Rows persist, and evolve. *)
Definition rows_evolved {K R} `{Countable K} (rel : R -> R -> Prop) (m m' : gmap K R) : Prop :=
  forall k r, m !! k = Some r -> exists r', m' !! k = Some r' /\ rel r r'.

Record evolved (t t' : ReaderTables) : Prop := {
  ev_state : forall s, reader_state t = Some s ->
    exists s', reader_state t' = Some s' /\ state_evolved s s';
  ev_transactions : rows_evolved transaction_evolved (offline_transactions t) (offline_transactions t');
  ev_batches : rows_evolved batch_evolved (synchronization_batches t) (synchronization_batches t');
  (** Only new batches take entries. *)
  ev_entries : exists new, synchronization_entries t' = synchronization_entries t ++ new
    /\ forall e, e ∈ new -> synchronization_batches t !! EntryRow.batch_id e = None;
  ev_acknowledgements : rows_evolved acknowledgement_evolved
    (synchronization_acknowledgements t) (synchronization_acknowledgements t');
  ev_acknowledgement_entries :
    synchronization_acknowledgement_entries t `prefix_of` synchronization_acknowledgement_entries t'
}.

Lemma rows_evolved_refl {K R} `{Countable K} (rel : R -> R -> Prop) (m : gmap K R) :
  Reflexive rel -> rows_evolved rel m m.
Proof. intros Hr k r Hk. eauto. Qed.

Lemma rows_evolved_trans {K R} `{Countable K} (rel : R -> R -> Prop) (m1 m2 m3 : gmap K R) :
  Transitive rel -> rows_evolved rel m1 m2 -> rows_evolved rel m2 m3 -> rows_evolved rel m1 m3.
Proof.
  intros Ht H1 H2 k r Hk. destruct (H1 _ _ Hk) as (r2 & Hk2 & Hr2).
  destruct (H2 _ _ Hk2) as (r3 & Hk3 & Hr3). eauto.
Qed.

Lemma same_entries t (es : list EntryRow.t) :
  exists new, es = es ++ new
    /\ forall e, e ∈ new -> synchronization_batches t !! EntryRow.batch_id e = None.
Proof. exists []. rewrite app_nil_r. split; [done|]. by intros e He%elem_of_nil. Qed.

#[export] Instance evolved_preorder : PreOrder evolved.
Proof.
  split.
  - intros t. split; try done; try (by apply rows_evolved_refl, _); [|by apply same_entries].
    intros s Hs. by exists s.
  - intros t1 t2 t3 H1 H2. split.
    + intros s Hs. destruct (ev_state _ _ H1 _ Hs) as (s2 & Hs2 & Hr2).
      destruct (ev_state _ _ H2 _ Hs2) as (s3 & Hs3 & Hr3). exists s3. split; [done|by etrans].
    + eapply rows_evolved_trans; [apply _|apply H1|apply H2].
    + eapply rows_evolved_trans; [apply _|apply H1|apply H2].
    + destruct (ev_entries _ _ H1) as (new1 & Heq1 & Hnew1).
      destruct (ev_entries _ _ H2) as (new2 & Heq2 & Hnew2). exists (new1 ++ new2).
      split; [by rewrite Heq2, Heq1, app_assoc|]. intros e [He|He]%elem_of_app; [auto|].
      destruct (synchronization_batches t1 !! EntryRow.batch_id e) as [b|] eqn:Hb; [|done].
      destruct (ev_batches _ _ H1 _ _ Hb) as (b2 & Hb2 & _). by rewrite Hnew2 in Hb2.
    + eapply rows_evolved_trans; [apply _|apply H1|apply H2].
    + etrans; [apply H1|apply H2].
Qed.

Lemma rows_evolved_insert_new {K R} `{Countable K} (rel : R -> R -> Prop) (m : gmap K R) k r :
  Reflexive rel -> m !! k = None -> rows_evolved rel m (<[k := r]> m).
Proof.
  intros Hrel Hk k' r' Hk'. exists r'. rewrite lookup_insert_ne by congruence. by split.
Qed.

(** ** The invariant *)

Definition batch_active (t : ReaderTables) (id : SynchronizationBatchId) : Prop :=
  exists b, synchronization_batches t !! id = Some b
    /\ ReaderQueueState.is_active (BatchRow.batch_state b) = true.

(** The stored texts and numbers that the reads decode. *)
Definition row_readable `{JsonLibrary} (r : OTR) : Prop :=
  is_ok (json_from_str (TX.transaction_envelope_json r)) = true
  /\ TX.fare_policy_version r <= i64_max.

(** The entries of a batch, in the order they were inserted. *)
Definition entries_of (t : ReaderTables) (b : BatchRow.t) : list EntryRow.t :=
  base.filter (fun e => ReaderSync.is_entry_of (BatchRow.reader_id b) (BatchRow.batch_id b) e = true)
    (synchronization_entries t).

(** A batch has entries, at the positions 0, 1, .., from its first sequence
    to its last. *)
Definition batch_complete (t : ReaderTables) (b : BatchRow.t) : Prop :=
  EntryRow.entry_position <$> entries_of t b = seqZ 0 (Z.of_nat (length (entries_of t b)))
  /\ EntryRow.local_sequence_number <$> head (entries_of t b)
     = Some (BatchRow.first_local_sequence_number b)
  /\ EntryRow.local_sequence_number <$> last (entries_of t b)
     = Some (BatchRow.last_local_sequence_number b).

(** The primary key and the two unique indexes of a table of entries: within a
    batch no transaction, no sequence and no position twice. *)
Definition unique_in_batch {R A} (batch : R -> SynchronizationBatchId) (column : R -> A)
    (l : list R) : Prop :=
  NoDup ((fun r => (batch r, column r)) <$> l).

Lemma unique_in_batch_snoc {R A} (batch : R -> SynchronizationBatchId) (column : R -> A) l r :
  unique_in_batch batch column l ->
  (forall x, x ∈ l -> batch x = batch r -> column x <> column r) ->
  unique_in_batch batch column (l ++ [r]).
Proof.
  unfold unique_in_batch. intros Hl Hr. rewrite fmap_app. apply NoDup_app. split_and!; [done| |].
  - intros y (x & -> & Hx)%list_elem_of_fmap [= Hb Hc]%list_elem_of_singleton.
    by apply (Hr x).
  - apply NoDup_singleton.
Qed.

(** The constraints of the batch entries on themselves. *)
Record entry_rows_ok (l : list EntryRow.t) : Prop := {
  er_checks : forall e, e ∈ l -> entry_check e = true;
  er_transactions : unique_in_batch EntryRow.batch_id EntryRow.fare_transaction_id l;
  er_sequences : unique_in_batch EntryRow.batch_id EntryRow.local_sequence_number l;
  er_positions : unique_in_batch EntryRow.batch_id EntryRow.entry_position l
}.

(** The constraints of the two tables of acknowledgements on themselves: each
    row satisfies its checks, and an entry belongs to a stored acknowledgement
    of the same reader. *)
Record acknowledgements_ok (m : gmap SynchronizationBatchId AcknowledgementRow.t)
    (l : list AcknowledgementEntryRow.t) : Prop := {
  ak_rows : forall id a, m !! id = Some a ->
    AcknowledgementRow.batch_id a = id /\ acknowledgement_check a = true;
  ak_entries : forall e, e ∈ l -> acknowledgement_entry_check e = true
    /\ AcknowledgementRow.reader_id <$> m !! AcknowledgementEntryRow.batch_id e
       = Some (AcknowledgementEntryRow.reader_id e);
  ak_transactions :
    unique_in_batch AcknowledgementEntryRow.batch_id AcknowledgementEntryRow.fare_transaction_id l;
  ak_sequences :
    unique_in_batch AcknowledgementEntryRow.batch_id AcknowledgementEntryRow.local_sequence_number l;
  ak_positions :
    unique_in_batch AcknowledgementEntryRow.batch_id AcknowledgementEntryRow.entry_position l
}.

(** The references of acknowledgements: to the batch, of the same reader, and
    of their entries to an entry of that batch. *)
Definition refers_to_batches (batches : gmap SynchronizationBatchId BatchRow.t)
    (m : gmap SynchronizationBatchId AcknowledgementRow.t) : Prop :=
  forall id a, m !! id = Some a ->
    BatchRow.reader_id <$> batches !! id = Some (AcknowledgementRow.reader_id a).

Definition refers_to_entries (entries : list EntryRow.t) (l : list AcknowledgementEntryRow.t)
  : Prop :=
  forall e, e ∈ l -> exists x, x ∈ entries
    /\ EntryRow.batch_id x = AcknowledgementEntryRow.batch_id e
    /\ EntryRow.fare_transaction_id x = AcknowledgementEntryRow.fare_transaction_id e.

(** Well-formed tables, but for the batch [open], whose entries are being
    inserted. *)
Record store_ok_but `{JsonLibrary} (open : option SynchronizationBatchId) (t : ReaderTables) : Prop := {
  ok_state : forall s, reader_state t = Some s -> reader_state_check s = true
    /\ ReaderStateRow.next_local_sequence s <= i64_max;
  ok_transactions : forall id r, offline_transactions t !! id = Some r ->
    TX.fare_transaction_id r = id /\ (offline_transaction_check r = true /\ row_readable r)
    /\ ReaderStateRow.reader_id <$> reader_state t = Some (TX.reader_id r);
  ok_batches : forall id b, synchronization_batches t !! id = Some b ->
    BatchRow.batch_id b = id /\ batch_check b = true
    /\ ReaderStateRow.reader_id <$> reader_state t = Some (BatchRow.reader_id b);
  (** The sequence numbers of the queue are 1, 2, .. up to the next one. *)
  ok_sequence_unique : forall id id' r r',
    offline_transactions t !! id = Some r -> offline_transactions t !! id' = Some r' ->
    TX.local_sequence_number r = TX.local_sequence_number r' -> id = id';
  ok_sequences : forall s n, reader_state t = Some s ->
    1 <= n < ReaderStateRow.next_local_sequence s <->
    exists id r, offline_transactions t !! id = Some r /\ TX.local_sequence_number r = n;
  (** Up to the acknowledged sequence everything is resolved. *)
  ok_acknowledged : forall s id r, reader_state t = Some s ->
    offline_transactions t !! id = Some r ->
    TX.local_sequence_number r <= ReaderStateRow.last_acknowledged_sequence s -> resolved r;
  ok_entries : forall e, e ∈ synchronization_entries t ->
    (exists b, synchronization_batches t !! EntryRow.batch_id e = Some b
       /\ BatchRow.reader_id b = EntryRow.reader_id e)
    /\ (exists r, offline_transactions t !! EntryRow.fare_transaction_id e = Some r
       /\ TX.reader_id r = EntryRow.reader_id e
       /\ TX.local_sequence_number r = EntryRow.local_sequence_number e);
  ok_complete : forall id b, synchronization_batches t !! id = Some b -> open <> Some id ->
    batch_complete t b;
  (** No transaction is in two active batches. *)
  ok_exclusive : forall e e', e ∈ synchronization_entries t -> e' ∈ synchronization_entries t ->
    EntryRow.fare_transaction_id e = EntryRow.fare_transaction_id e' ->
    batch_active t (EntryRow.batch_id e) -> batch_active t (EntryRow.batch_id e') ->
    EntryRow.batch_id e = EntryRow.batch_id e';
  ok_entry_rows : entry_rows_ok (synchronization_entries t);
  ok_acknowledgements : acknowledgements_ok (synchronization_acknowledgements t)
    (synchronization_acknowledgement_entries t);
  ok_acknowledged_batches :
    refers_to_batches (synchronization_batches t) (synchronization_acknowledgements t);
  ok_answered_entries :
    refers_to_entries (synchronization_entries t) (synchronization_acknowledgement_entries t)
}.

Arguments ok_state {_ _} _ _.
Arguments ok_transactions {_ _} _ _.
Arguments ok_batches {_ _} _ _.
Arguments ok_sequence_unique {_ _} _ _.
Arguments ok_sequences {_ _} _ _.
Arguments ok_acknowledged {_ _} _ _.
Arguments ok_entries {_ _} _ _.
Arguments ok_complete {_ _} _ _.
Arguments ok_exclusive {_ _} _ _.
Arguments ok_entry_rows {_ _} _ _.
Arguments ok_acknowledgements {_ _} _ _.
Arguments ok_acknowledged_batches {_ _} _ _.
Arguments ok_answered_entries {_ _} _ _.

Abbreviation store_ok := (store_ok_but None).

(** What a call promises. *)
Definition kept_but `{JsonLibrary} (open : option SynchronizationBatchId) (t t' : ReaderTables) : Prop :=
  store_ok_but open t' /\ evolved t t'.

Abbreviation kept := (kept_but None).

Section keeping.
Context `{JsonLibrary}.
Implicit Types open : option SynchronizationBatchId.

Lemma kept_refl t : store_ok t -> kept t t.
Proof. by split. Qed.

Lemma kept_trans open open' t1 t2 t3 :
  kept_but open t1 t2 -> kept_but open' t2 t3 -> kept_but open' t1 t3.
Proof. intros [_ H1] [Hok H2]. split; [done|by etrans]. Qed.

Lemma store_ok_empty : store_ok empty_tables.
Proof.
  split; cbn.
  - done.
  - intros id r Hid. by rewrite lookup_empty in Hid.
  - intros id b Hid. by rewrite lookup_empty in Hid.
  - intros id id' r r' Hid. by rewrite lookup_empty in Hid.
  - done.
  - done.
  - intros e He. by apply elem_of_nil in He.
  - intros id b Hid. by rewrite lookup_empty in Hid.
  - intros e e' He. by apply elem_of_nil in He.
  - split; [|apply NoDup_nil_2..]. intros e He. by apply elem_of_nil in He.
  - split; [| |apply NoDup_nil_2..]; [intros id a Hid; by rewrite lookup_empty in Hid|].
    intros e He. by apply elem_of_nil in He.
  - intros id a Hid. by rewrite lookup_empty in Hid.
  - intros e He. by apply elem_of_nil in He.
Qed.

(** One reader owns every row. *)
Definition rows_of_reader (id : ReaderId) (t : ReaderTables) : Prop :=
  (forall k r, offline_transactions t !! k = Some r -> TX.reader_id r = id)
  /\ (forall k b, synchronization_batches t !! k = Some b -> BatchRow.reader_id b = id)
  /\ (forall e, e ∈ synchronization_entries t -> EntryRow.reader_id e = id)
  /\ (forall k a, synchronization_acknowledgements t !! k = Some a ->
        AcknowledgementRow.reader_id a = id)
  /\ (forall e, e ∈ synchronization_acknowledgement_entries t ->
        AcknowledgementEntryRow.reader_id e = id).

Lemma store_ok_reader open t s :
  store_ok_but open t -> reader_state t = Some s -> rows_of_reader (ReaderStateRow.reader_id s) t.
Proof.
  intros Hok Hs.
  assert (forall k b, synchronization_batches t !! k = Some b ->
    BatchRow.reader_id b = ReaderStateRow.reader_id s) as Hbatch.
  { intros k b Hb. destruct (ok_batches _ Hok _ _ Hb) as (_ & _ & Hr).
    rewrite Hs in Hr. cbn in Hr. congruence. }
  assert (forall k a, synchronization_acknowledgements t !! k = Some a ->
    AcknowledgementRow.reader_id a = ReaderStateRow.reader_id s) as Hack.
  { intros k a Ha. pose proof (ok_acknowledged_batches _ Hok _ _ Ha) as Hr.
    apply fmap_Some in Hr as (b & Hb & ->). by eapply Hbatch. }
  split_and!; [|exact Hbatch| |exact Hack|].
  - intros k r Hr. destruct (ok_transactions _ Hok _ _ Hr) as (_ & _ & Hrd).
    rewrite Hs in Hrd. cbn in Hrd. congruence.
  - intros e He. destruct (ok_entries _ Hok _ He) as [(b & Hb & <-) _]. by eapply Hbatch.
  - intros e He. destruct (ak_entries _ _ (ok_acknowledgements _ Hok) _ He) as [_ Hr].
    apply fmap_Some in Hr as (a & Ha & ->). by eapply Hack.
Qed.

(** A store without a bound reader is empty. *)
Lemma store_ok_unbound open t :
  store_ok_but open t -> reader_state t = None ->
  offline_transactions t = ∅ /\ synchronization_batches t = ∅ /\ synchronization_entries t = []
  /\ synchronization_acknowledgements t = ∅ /\ synchronization_acknowledgement_entries t = [].
Proof.
  intros Hok Hs.
  assert (forall k b, synchronization_batches t !! k = Some b -> False) as Hbatch.
  { intros k b Hb. destruct (ok_batches _ Hok _ _ Hb) as (_ & _ & Hr). by rewrite Hs in Hr. }
  assert (forall k a, synchronization_acknowledgements t !! k = Some a -> False) as Hack.
  { intros k a Ha. pose proof (ok_acknowledged_batches _ Hok _ _ Ha) as Hr.
    apply fmap_Some in Hr as (b & Hb & _). by eapply Hbatch. }
  split_and!.
  - apply map_empty. intros k. apply eq_None_ne_Some. intros r Hr.
    destruct (ok_transactions _ Hok _ _ Hr) as (_ & _ & Hrd). by rewrite Hs in Hrd.
  - apply map_empty. intros k. apply eq_None_ne_Some. intros b Hb. by eapply Hbatch.
  - apply elem_of_nil_inv. intros e He. destruct (ok_entries _ Hok _ He) as [(b & Hb & _) _].
    by eapply Hbatch.
  - apply map_empty. intros k. apply eq_None_ne_Some. intros a Ha. by eapply Hack.
  - apply elem_of_nil_inv. intros e He.
    destruct (ak_entries _ _ (ok_acknowledgements _ Hok) _ He) as [_ Hr].
    apply fmap_Some in Hr as (a & Ha & _). by eapply Hack.
Qed.

Lemma transaction_evolved_resolved r r' : transaction_evolved r r' -> resolved r -> resolved r'.
Proof. intros Hr Hres. by rewrite (resolved_final _ _ (te_state _ _ Hr) Hres). Qed.

(** ** What keeps the store *)

(** An update of transactions that only moves them forward. *)
Lemma update_transactions_kept open p f t t' n :
  store_ok_but open t ->
  (forall id r, offline_transactions t !! id = Some r -> p r = true -> transaction_evolved r (f r)) ->
  update_offline_transactions p f t = Ok (t', n) -> kept_but open t t'.
Proof.
  intros Hok Hf. unfold update_offline_transactions.
  destruct (update_where _ _ _ _) as [[m c]|] eqn:Hu; [|done]. cbn. intros [= <- <-].
  apply update_where_Ok in Hu as (-> & _ & Hc).
  set (g := fun r => if p r then f r else r).
  assert (forall id r', (g <$> offline_transactions t) !! id = Some r' ->
    exists r, offline_transactions t !! id = Some r /\ transaction_evolved r r'
      /\ (offline_transaction_check r = true -> offline_transaction_check r' = true)) as Hback.
  { intros id r' Hr'. rewrite lookup_fmap_Some in Hr'. destruct Hr' as (r & <- & Hr).
    exists r. unfold g. destruct (p r) eqn:Hp; [|by split_and!].
    split_and!; [done|by eapply Hf|]. intros _. by eapply Hc. }
  assert (rows_evolved transaction_evolved (offline_transactions t) (g <$> offline_transactions t))
    as Hfwd.
  { intros id r Hr. exists (g r). rewrite lookup_fmap, Hr. split; [done|]. unfold g.
    destruct (p r) eqn:Hp; [by eapply Hf|done]. }
  assert (forall r r', transaction_evolved r r' -> TX.fare_transaction_id r' = TX.fare_transaction_id r
    /\ TX.reader_id r' = TX.reader_id r
    /\ TX.local_sequence_number r' = TX.local_sequence_number r) as Hid.
  { intros r r' [Hi _ _ _]. by destruct_and! Hi. }
  split; [split|split]; cbn; try done; try (by apply rows_evolved_refl, _);
    try apply same_entries; try apply Hok.
  - intros id r' Hr'. destruct (Hback _ _ Hr') as (r & Hr & He & Hcheck).
    destruct (ok_transactions _ Hok _ _ Hr) as (H1 & [H2 Hread] & H3).
    destruct (Hid _ _ He) as (-> & -> & _). split_and!; auto.
    unfold row_readable. destruct He as [(_ & _ & _ & _ & _ & -> & _ & -> & _) _ _ _]. done.
  - intros id id' r1 r2 H1 H2. destruct (Hback _ _ H1) as (r & Hr & He & _).
    destruct (Hback _ _ H2) as (r' & Hr' & He' & _).
    destruct (Hid _ _ He) as (_ & _ & ->). destruct (Hid _ _ He') as (_ & _ & ->).
    by eapply (ok_sequence_unique _ Hok).
  - intros s k Hs. rewrite (ok_sequences _ Hok _ _ Hs). split; intros (id & r & Hr & <-).
    + destruct (Hfwd _ _ Hr) as (r' & Hr' & He). exists id, r'. split; [done|]. by apply Hid.
    + destruct (Hback _ _ Hr) as (r' & Hr' & He & _). exists id, r'. split; [done|].
      symmetry. by apply Hid.
  - intros s id r' Hs Hr' Hle. destruct (Hback _ _ Hr') as (r & Hr & He & _).
    eapply transaction_evolved_resolved; [exact He|]. eapply (ok_acknowledged _ Hok); [done..|].
    destruct (Hid _ _ He) as (_ & _ & <-). done.
  - intros e He. destruct (ok_entries _ Hok _ He) as [Hb (r & Hr & H1 & H2)]. split; [done|].
    destruct (Hfwd _ _ Hr) as (r' & Hr' & He'). exists r'. destruct (Hid _ _ He') as (_ & -> & ->).
    done.
  - intros s Hs. by exists s.
Qed.

(** An update of batches that only moves them forward. *)
Lemma update_batches_kept p f t t' n :
  store_ok t ->
  (forall id b, synchronization_batches t !! id = Some b -> p b = true -> batch_evolved b (f b)) ->
  update_batches p f t = Ok (t', n) -> kept t t'.
Proof.
  intros Hok Hf. unfold update_batches.
  destruct (update_where _ _ _ _) as [[m c]|] eqn:Hu; [|done]. cbn. intros [= <- <-].
  apply update_where_Ok in Hu as (-> & _ & Hc).
  set (g := fun b => if p b then f b else b).
  assert (forall id b', (g <$> synchronization_batches t) !! id = Some b' ->
    exists b, synchronization_batches t !! id = Some b /\ batch_evolved b b'
      /\ (batch_check b = true -> batch_check b' = true)) as Hback.
  { intros id b' Hb'. rewrite lookup_fmap_Some in Hb'. destruct Hb' as (b & <- & Hb).
    exists b. unfold g. destruct (p b) eqn:Hp; [|by split_and!].
    split_and!; [done|by eapply Hf|]. intros _. by eapply Hc. }
  assert (rows_evolved batch_evolved (synchronization_batches t) (g <$> synchronization_batches t))
    as Hfwd.
  { intros id b Hb. exists (g b). rewrite lookup_fmap, Hb. split; [done|]. unfold g.
    destruct (p b) eqn:Hp; [by eapply Hf|done]. }
  assert (forall id, batch_active (set_synchronization_batches (g <$> synchronization_batches t) t) id
    -> batch_active t id) as Hactive.
  { intros id (b' & Hb' & Ha). destruct (Hback _ _ Hb') as (b & Hb & He & _). exists b.
    split; [done|]. eapply active_back; [apply (be_state _ _ He)|done]. }
  split; [split|split]; cbn; try done; try (by apply rows_evolved_refl, _);
    try apply same_entries; try apply Hok.
  - intros id b' Hb'. destruct (Hback _ _ Hb') as (b & Hb & [Hi _ _ _ _] & Hcheck).
    destruct (ok_batches _ Hok _ _ Hb) as (H1 & H2 & H3). destruct Hi as (-> & -> & _). auto.
  - intros e He. destruct (ok_entries _ Hok _ He) as [(b & Hb & H1) Hr]. split; [|done].
    destruct (Hfwd _ _ Hb) as (b' & Hb' & [Hi _ _ _ _]). exists b'. by destruct Hi as (_ & -> & _).
  - intros id b' Hb' Hopen. destruct (Hback _ _ Hb') as (b & Hb & [Hi _ _ _ _] & _).
    pose proof (ok_complete _ Hok _ _ Hb Hopen) as Hc'. unfold batch_complete, entries_of in *.
    cbn. by destruct Hi as (-> & -> & _ & -> & -> & _).
  - intros e e' He He' Heq Ha Ha'. apply (ok_exclusive _ Hok); auto.
  - intros id a Ha. pose proof (ok_acknowledged_batches _ Hok _ _ Ha) as Hr.
    apply fmap_Some in Hr as (b & Hb & ->). destruct (Hfwd _ _ Hb) as (b' & -> & [Hi _ _ _ _]).
    cbn. by destruct Hi as (_ & -> & _).
  - intros s Hs. by exists s.
Qed.

(** The tables of acknowledgements. *)
Lemma kept_acknowledgements t m l :
  store_ok t -> acknowledgements_ok m l ->
  refers_to_batches (synchronization_batches t) m ->
  refers_to_entries (synchronization_entries t) l ->
  rows_evolved acknowledgement_evolved (synchronization_acknowledgements t) m ->
  synchronization_acknowledgement_entries t `prefix_of` l ->
  forall t', t' = set_synchronization_acknowledgement_entries l
                    (set_synchronization_acknowledgements m t) -> kept t t'.
Proof.
  intros Hok Hml Hmb Hle Hm Hl ? ->.
  split; [split; cbn; first [exact Hml|exact Hmb|exact Hle|apply Hok]|split; cbn; try done; try apply same_entries].
  - intros s Hs. by exists s.
  - by apply rows_evolved_refl, _.
  - by apply rows_evolved_refl, _.
Qed.

Lemma insert_acknowledgement_kept r t t' a :
  store_ok t -> insert_acknowledgement r t = Ok (t', a) -> kept t t'.
Proof.
  intros Hok. unfold insert_acknowledgement. destruct (acknowledgement_check r) eqn:Hc; [|done].
  cbn [negb]. case_decide as Hk; [done|]. case_decide as Hb; [|done]. intros [= <- _].
  destruct (ok_acknowledgements _ Hok) as [Hrows Hentries Ht Hs Hp].
  eapply (kept_acknowledgements t
    (<[AcknowledgementRow.batch_id r := r]> (synchronization_acknowledgements t))
    (synchronization_acknowledgement_entries t)); [done| | | | |done|done].
  - split; [by intros id x [[<- <-]|[_ Hx]]%lookup_insert_Some; auto| |done..].
    intros e He. destruct (Hentries _ He) as [Hcheck Hr]. split; [done|].
    rewrite lookup_insert_ne; [done|]. intros Heq. apply Hk. rewrite Heq.
    apply fmap_Some in Hr as (x & -> & _). done.
  - intros id x [[<- <-]|[_ Hx]]%lookup_insert_Some; [done|]. by apply (ok_acknowledged_batches _ Hok).
  - apply (ok_answered_entries _ Hok).
  - apply rows_evolved_insert_new; [apply _|]. by apply eq_None_not_Some.
Qed.

Lemma insert_acknowledgement_entry_kept r t t' a :
  store_ok t -> insert_acknowledgement_entry r t = Ok (t', a) -> kept t t'.
Proof.
  intros Hok. unfold insert_acknowledgement_entry.
  destruct (acknowledgement_entry_check r) eqn:Hc; [|done]. cbn [negb].
  destruct (existsb _ (synchronization_acknowledgement_entries t)) eqn:Hclash; [done|].
  rewrite existsb_false_Forall, Forall_forall in Hclash.
  case_decide as Hack; [|done].
  destruct (existsb _ (synchronization_entries t)) eqn:Hentry; [|done].
  apply existsb_exists in Hentry as (x & Hx & [Hxb Hxt]%bool_decide_eq_true).
  intros [= <- _]. destruct (ok_acknowledgements _ Hok) as [Hrows Hentries Ht Hs Hp].
  eapply (kept_acknowledgements t (synchronization_acknowledgements t));
    [done| |apply (ok_acknowledged_batches _ Hok)| |by apply rows_evolved_refl, _| |done];
    [| |by apply prefix_app_r].
  - split; [done| |..];
      [|apply unique_in_batch_snoc; [done|]; intros y Hy%Hclash%bool_decide_eq_false Hb Heq;
        apply Hy; auto..].
    intros e [He| ->%list_elem_of_singleton]%elem_of_app; [by apply Hentries|done].
  - intros e [He| ->%list_elem_of_singleton]%elem_of_app; [by apply (ok_answered_entries _ Hok)|].
    exists x. by rewrite list_elem_of_In.
Qed.

Lemma update_acknowledgements_kept p f t t' n :
  store_ok t ->
  (forall id a, synchronization_acknowledgements t !! id = Some a -> p a = true ->
     acknowledgement_evolved a (f a)) ->
  update_acknowledgements p f t = Ok (t', n) -> kept t t'.
Proof.
  intros Hok Hf. unfold update_acknowledgements.
  destruct (update_where _ _ _ _) as [[m c]|] eqn:Hu; [|done]. cbn. intros [= <- <-].
  apply update_where_Ok in Hu as (-> & _ & Hc).
  destruct (ok_acknowledgements _ Hok) as [Hrows Hentries Ht Hs Hp].
  set (g := fun a => if p a then f a else a).
  assert (forall id a, synchronization_acknowledgements t !! id = Some a ->
    acknowledgement_evolved a (g a)) as Hg.
  { intros id a Ha. unfold g. destruct (p a) eqn:Hpa; [by eapply Hf|done]. }
  assert (forall a, acknowledgement_evolved a (g a) ->
    AcknowledgementRow.batch_id (g a) = AcknowledgementRow.batch_id a
    /\ AcknowledgementRow.reader_id (g a) = AcknowledgementRow.reader_id a) as Hsame.
  { intros a [Ha _]. by destruct Ha as [->|[x ->]]. }
  eapply (kept_acknowledgements t (g <$> synchronization_acknowledgements t)
            (synchronization_acknowledgement_entries t)); [done| | | | |done|done].
  - split; [| |done..].
    + intros id a' (a & <- & Ha)%lookup_fmap_Some. destruct (Hrows _ _ Ha) as [<- Hcheck].
      split; [by apply (Hsame _ (Hg _ _ Ha))|]. unfold g. destruct (p a) eqn:Hpa; [by eapply Hc|done].
    + intros e He. destruct (Hentries _ He) as [Hcheck Hr]. split; [done|]. rewrite lookup_fmap.
      apply fmap_Some in Hr as (a & Ha & ->). rewrite Ha. cbn. f_equal. by apply (Hsame _ (Hg _ _ Ha)).
  - intros id a' (a & <- & Ha)%lookup_fmap_Some. rewrite (ok_acknowledged_batches _ Hok _ _ Ha).
    f_equal. symmetry. by apply (Hsame _ (Hg _ _ Ha)).
  - apply (ok_answered_entries _ Hok).
  - intros id a Ha. exists (g a). rewrite lookup_fmap, Ha. split; [done|]. by eapply Hg.
Qed.

(** A new batch holds no transaction yet. *)
Lemma insert_batch_kept r t t' a :
  store_ok t -> insert_batch r t = Ok (t', a) ->
  kept_but (Some (BatchRow.batch_id r)) t t' /\ synchronization_batches t' = <[BatchRow.batch_id r := r]> (synchronization_batches t)
  /\ offline_transactions t' = offline_transactions t
  /\ synchronization_entries t' = synchronization_entries t
  /\ synchronization_batches t !! BatchRow.batch_id r = None.
Proof.
  intros Hok. unfold insert_batch. destruct (batch_check r) eqn:Hc; [|done]. cbn [negb].
  case_decide as Hk; [done|]. case_decide as Hs; [|done].
  intros [= <- _]. apply eq_None_not_Some in Hk. split; [|done].
  assert (forall e, e ∈ synchronization_entries t -> EntryRow.batch_id e <> BatchRow.batch_id r)
    as Hnew.
  { intros e He Heq. destruct (ok_entries _ Hok _ He) as [(b & Hb & _) _]. congruence. }
  split; [split|split]; cbn; try done; try (by apply rows_evolved_refl, _);
    try apply same_entries; try apply Hok.
  - intros id b [[<- <-]|[Hne Hb]]%lookup_insert_Some; [done|]. by apply Hok.
  - intros e He. destruct (ok_entries _ Hok _ He) as [(b & Hb & H1) Hr]. split; [|done].
    exists b. rewrite lookup_insert_ne by (apply not_eq_sym; auto). done.
  - intros id b [[<- <-]|[Hne Hb]]%lookup_insert_Some Hopen; [done|].
    by apply (ok_complete _ Hok) in Hb.
  - intros e e' He He' Heq (b & Hb & Ha) (b' & Hb' & Ha'). cbn in Hb, Hb'.
    rewrite lookup_insert_ne in Hb, Hb' by (apply not_eq_sym; auto).
    apply (ok_exclusive _ Hok); [done..|by exists b|by exists b'].
  - intros id x Hx. pose proof (ok_acknowledged_batches _ Hok _ _ Hx) as Hr.
    rewrite lookup_insert_ne; [done|]. intros <-. by rewrite Hk in Hr.
  - intros s Hs'. by exists s.
  - apply rows_evolved_insert_new; [apply _|done].
Qed.

(** An entry, in a batch created since [t0], of a transaction that no other
    active batch holds. *)
Lemma insert_entry_kept r t0 t t' a :
  kept_but (Some (EntryRow.batch_id r)) t0 t -> synchronization_batches t0 !! EntryRow.batch_id r = None ->
  (forall e, e ∈ synchronization_entries t ->
     EntryRow.fare_transaction_id e = EntryRow.fare_transaction_id r ->
     batch_active t (EntryRow.batch_id e) -> EntryRow.batch_id e = EntryRow.batch_id r) ->
  insert_entry r t = Ok (t', a) ->
  kept_but (Some (EntryRow.batch_id r)) t0 t' /\ t' = set_synchronization_entries (synchronization_entries t ++ [r]) t.
Proof.
  intros [Hok Hev] Hnew Hfree. unfold insert_entry. destruct (entry_check r) eqn:Hcheck; [|done].
  cbn [negb]. destruct (existsb _ _) eqn:Hclash; [done|].
  rewrite existsb_false_Forall, Forall_forall in Hclash. case_decide as Hfk; [|done].
  intros [= <- _]. split; [|done]. destruct Hfk as [Hb Hr].
  split; [split|split]; cbn; try apply Hev; try apply Hok.
  - intros e [He| ->%list_elem_of_singleton]%elem_of_app; [by apply Hok|].
    apply fmap_Some in Hb as (b & Hb & Hbr), Hr as (x & Hx & Hxr). split.
    + by exists b.
    + exists x. split; [done|]. by injection Hxr.
  - intros id b Hid Hopen. pose proof (ok_complete _ Hok _ _ Hid Hopen) as Hc.
    assert (entries_of (set_synchronization_entries (synchronization_entries t ++ [r]) t) b
            = entries_of t b) as Hsame; [|unfold batch_complete in *; by rewrite Hsame].
    unfold entries_of. cbn [synchronization_entries set_synchronization_entries]. rewrite filter_app.
    rewrite (filter_cons_False _ r []); [by rewrite app_nil_r|]. intros Hr'.
    apply bool_decide_eq_true in Hr' as [Hr' _]. destruct (ok_batches _ Hok _ _ Hid) as [<- _].
    by rewrite Hr' in Hopen.
  - intros e e' He He' Heq Ha Ha'. apply elem_of_app in He, He'.
    rewrite list_elem_of_singleton in He, He'.
    change (batch_active t (EntryRow.batch_id e)) in Ha.
    change (batch_active t (EntryRow.batch_id e')) in Ha'.
    destruct He as [He| ->], He' as [He'| ->].
    + by apply (ok_exclusive _ Hok).
    + by apply Hfree.
    + symmetry. by apply Hfree.
    + done.
  - destruct (ok_entry_rows _ Hok) as [Hchecks Ht Hs Hp]. split;
      [|apply unique_in_batch_snoc; [done|]; intros y Hy%Hclash%bool_decide_eq_false Hyb Heq;
        apply Hy; auto..].
    intros e [He| ->%list_elem_of_singleton]%elem_of_app; auto.
  - intros e He. destruct (ok_answered_entries _ Hok _ He) as (x & Hx & Hxe). exists x.
    split; [by apply elem_of_app; left|done].
  - destruct (ev_entries _ _ Hev) as (new & Hes & Hin). exists (new ++ [r]).
    split; [by rewrite Hes, app_assoc|].
    intros e [He| ->%list_elem_of_singleton]%elem_of_app; auto.
Qed.

(** The first binding: nothing is queued yet. *)
Lemma first_state_kept s t :
  store_ok t -> reader_state t = None -> reader_state_check s = true ->
  ReaderStateRow.next_local_sequence s = 1 -> kept t (set_reader_state (Some s) t).
Proof.
  intros Hok Hnone Hs Hnext.
  assert (forall id r, offline_transactions t !! id = Some r -> False) as Htx.
  { intros id r Hr. destruct (ok_transactions _ Hok _ _ Hr) as (_ & _ & Hrd). by rewrite Hnone in Hrd. }
  split; [split|split]; cbn; try done; try (by apply rows_evolved_refl, _);
    try apply same_entries; try apply Hok.
  - intros s' [= <-]. split; [done|]. rewrite Hnext. int_lia.
  - intros id r Hr. by destruct (Htx id r).
  - intros id b Hb. destruct (ok_batches _ Hok _ _ Hb) as (_ & _ & Hrd). by rewrite Hnone in Hrd.
  - intros s' n [= <-]. rewrite Hnext. split; [lia|]. intros (id & r & Hr & _). by destruct (Htx id r).
  - intros s' id r _ Hr. by destruct (Htx id r).
  - intros s' Hs'. congruence.
Qed.

(** The sequence is assigned and the transaction stored together. *)
Lemma enqueue_kept id created r t t1 t2 n a :
  store_ok t -> assign_local_sequence id created t = Ok (t1, Some n) ->
  row_readable r -> TX.reader_id r = id -> TX.local_sequence_number r = n ->
  insert_offline_transaction r t1 = Ok (t2, a) -> kept t t2.
Proof.
  intros Hok Hassign Hread Hid Hn Hins. unfold assign_local_sequence, update_reader_state in Hassign.
  destruct (reader_state t) as [s|] eqn:Hs; [|done].
  destruct (bool_decide _ && _) eqn:Hp; [|done].
  set (s' := ReaderStateRow.mk _ _ _ _ _ _ _ _) in *.
  destruct (reader_state_check s') eqn:Hcheck; [|done]. cbn in Hassign.
  injection Hassign as <- Hseq. apply andb_prop in Hp as [Hreader%bool_decide_eq_true Hmax%Z.ltb_lt].
  assert (TX.local_sequence_number r = ReaderStateRow.next_local_sequence s) as Hr by lia.
  unfold insert_offline_transaction in Hins. cbn in Hins.
  destruct (offline_transaction_check r) eqn:Htx; [|done]. cbn [negb] in Hins.
  destruct (bool_decide _ || _) eqn:Hfree; [done|]. apply orb_false_elim in Hfree as [Hfree Hclash].
  apply bool_decide_eq_false, eq_None_not_Some in Hfree.
  case_decide as Hfk; [|done]. injection Hins as <- _.
  assert (forall id' r', offline_transactions t !! id' = Some r' ->
    TX.local_sequence_number r' < ReaderStateRow.next_local_sequence s) as Hlt.
  { intros id' r' Hr'. apply (ok_sequences _ Hok _ _ Hs). eauto. }
  pose proof (proj1 (ok_state _ Hok _ Hs)) as Hstate.
  assert (ReaderStateRow.last_acknowledged_sequence s < ReaderStateRow.next_local_sequence s)
    as Hlast by (unfold reader_state_check in Hstate; repeat (apply andb_prop in Hstate as [Hstate ?]); lia).
  assert (0 < ReaderStateRow.next_local_sequence s) as Hnext
    by (unfold reader_state_check in Hstate; repeat (apply andb_prop in Hstate as [Hstate ?]); lia).
  split; [split|split]; cbn; try done; try (by apply rows_evolved_refl, _);
    try apply same_entries; try apply Hok.
  - intros ? [= <-]. split; [done|]. cbn. lia.
  - intros k x [[<- <-]|[Hne Hx]]%lookup_insert_Some; [done|].
    destruct (ok_transactions _ Hok _ _ Hx) as (? & ? & Hrd). by rewrite Hs in Hrd.
  - intros k b Hb. destruct (ok_batches _ Hok _ _ Hb) as (? & ? & Hrd). by rewrite Hs in Hrd.
  - intros k k' x x' [[<- <-]|[Hne Hx]]%lookup_insert_Some
      [[<- <-]|[Hne' Hx']]%lookup_insert_Some Heq; [done|..].
    + specialize (Hlt _ _ Hx'). lia.
    + specialize (Hlt _ _ Hx). lia.
    + by eapply (ok_sequence_unique _ Hok).
  - intros ? k [= <-]. cbn. split.
    + intros Hk. destruct (decide (k = ReaderStateRow.next_local_sequence s)) as [->|Hne].
      * exists (TX.fare_transaction_id r), r. by rewrite lookup_insert_eq.
      * destruct (proj1 (ok_sequences _ Hok _ k Hs)) as (id' & x & Hx & Hxk); [lia|].
        exists id', x. rewrite lookup_insert_ne by congruence. done.
    + intros (id' & x & [[_ <-]|[_ Hx]]%lookup_insert_Some & <-); [lia|].
      destruct (proj2 (ok_sequences _ Hok _ (TX.local_sequence_number x) Hs)); [eauto|lia].
  - intros ? k x [= <-] [[<- <-]|[Hne Hx]]%lookup_insert_Some Hle; cbn in Hle; [lia|].
    by eapply (ok_acknowledged _ Hok).
  - intros e He. destruct (ok_entries _ Hok _ He) as [Hb (x & Hx & Hxr)]. split; [done|].
    exists x. rewrite lookup_insert_ne by congruence. done.
  - intros x Hx. rewrite Hs in Hx. injection Hx as <-. exists s'. split; [done|].
    by split; cbn; [|lia|lia].
  - by apply rows_evolved_insert_new; [apply _|].
Qed.

(** The acknowledged sequence may move over resolved transactions. *)
Lemma advance_kept p f t t' a :
  store_ok t ->
  (forall s, reader_state t = Some s -> p s = true -> state_evolved s (f s)
     /\ ReaderStateRow.next_local_sequence (f s) = ReaderStateRow.next_local_sequence s
     /\ forall id r, offline_transactions t !! id = Some r ->
          TX.local_sequence_number r <= ReaderStateRow.last_acknowledged_sequence (f s) ->
          resolved r) ->
  update_reader_state p f t = Ok (t', a) -> kept t t'.
Proof.
  intros Hok Hf. unfold update_reader_state. destruct (reader_state t) as [s|] eqn:Hs.
  2: { intros [= <- _]. by apply kept_refl. }
  destruct (p s) eqn:Hp; [|intros [= <- _]; by apply kept_refl].
  destruct (reader_state_check (f s)) eqn:Hc; [|done]. intros [= <- _].
  destruct (Hf s eq_refl Hp) as (He & Hnext & Hres).
  assert (ReaderStateRow.reader_id (f s) = ReaderStateRow.reader_id s) as Hid by apply He.
  split; [split|split]; cbn; try done; try (by apply rows_evolved_refl, _);
    try apply same_entries; try apply Hok.
  - intros ? [= <-]. split; [done|]. rewrite Hnext. by apply (ok_state _ Hok).
  - intros k x Hx. destruct (ok_transactions _ Hok _ _ Hx) as (? & ? & Hrd).
    rewrite Hs in Hrd. cbn in Hrd. by rewrite Hid.
  - intros k b Hb. destruct (ok_batches _ Hok _ _ Hb) as (? & ? & Hrd).
    rewrite Hs in Hrd. cbn in Hrd. by rewrite Hid.
  - intros ? k [= <-]. rewrite Hnext. by apply (ok_sequences _ Hok).
  - intros ? k x [= <-]. by apply Hres.
  - intros x Hx. rewrite Hs in Hx. injection Hx as <-. by exists (f s).
Qed.

End keeping.

(** ** The updates the code makes *)

Lemma set_state_evolved state attempts retry category now r :
  rtc queue_step (TX.queue_state r) state -> TX.attempt_count r <= attempts ->
  TX.updated_at r <= now ->
  transaction_evolved r (TX.set_state state attempts retry category now r).
Proof. intros. by split. Qed.

Lemma batch_set_state_evolved state attempts submitted retry category now b :
  rtc batch_step (BatchRow.batch_state b) state -> BatchRow.attempt_count b <= attempts ->
  (is_Some (BatchRow.submitted_at b) -> submitted = BatchRow.submitted_at b) ->
  BatchRow.updated_at b <= now ->
  batch_evolved b (BatchRow.set_state state attempts submitted retry category now b).
Proof. intros. by split. Qed.
