(* ===== verification/PersistenceReaderHistory.v ===== *)
(** * What every call of the reader's store keeps

    Each operation of the reader's persistence code, whatever its arguments
    and whatever the database fails, leaves a store that satisfies [store_ok]
    and that evolved from the one it found; hence so does any history of
    calls. *)

From S2P Require Import Prelude Text DomainMoney DomainIdentifier DomainTransaction.
From S2P Require Import DeviceProtocolValues DeviceProtocolSynchronization PersistenceReaderStore.
From S2P Require Import PersistenceReaderIdentity PersistenceReaderQueue PersistenceReaderSync.
From S2P Require Import PersistenceReaderAcknowledgement PersistenceReaderApplication.
From S2P Require Import PersistenceSqlLogic PersistenceReaderInvariant.

(** ** Reads *)

Section reads.
Context `{JsonLibrary}.

Lemma load_offline_queue_reads id : reads (load_offline_queue id).
Proof. unfold load_offline_queue. reads_steps. Qed.

Lemma load_ready_offline_transactions_reads id now limit :
  reads (ReaderQueueState.load_ready_offline_transactions id now limit).
Proof. unfold ReaderQueueState.load_ready_offline_transactions, load_offline_queue. reads_steps. Qed.

Lemma load_synchronization_batch_reads id batch : reads (ReaderSync.load_synchronization_batch id batch).
Proof. unfold ReaderSync.load_synchronization_batch. reads_steps. Qed.

Lemma load_ready_synchronization_batches_reads id now limit :
  reads (ReaderSyncState.load_ready_synchronization_batches id now limit).
Proof.
  unfold ReaderSyncState.load_ready_synchronization_batches. reads_steps.
  match goal with |- reads (ReaderSyncState.load_batches _ ?l) => induction l end; cbn; reads_steps.
  - apply load_synchronization_batch_reads.
  - done.
Qed.

Lemma load_synchronization_batch_request_reads id batch :
  reads (ReaderSyncRequest.load_synchronization_batch_request id batch).
Proof.
  unfold ReaderSyncRequest.load_synchronization_batch_request, transaction. reads_steps.
Qed.

End reads.

#[export] Hint Resolve load_synchronization_batch_reads : reads.

(** ** Conditions and updates *)

#[export] Hint Resolve kept_refl : core.

(** What the conditions of the updates give. *)
Lemma ready_step r now :
  ReaderQueueState.row_is_ready r now = true ->
  rtc queue_step (TX.queue_state r) OfflineQueueState.InFlight.
Proof.
  unfold ReaderQueueState.row_is_ready. destruct (TX.queue_state r); intros Hr; try done;
    apply rtc_once; constructor.
Qed.

Lemma in_flight_state r : ReaderQueueState.is_in_flight r = true ->
  TX.queue_state r = OfflineQueueState.InFlight.
Proof. by intros H%bool_decide_eq_true. Qed.

Lemma batch_ready_step b now :
  ReaderSyncState.batch_is_ready b now = true ->
  rtc batch_step (BatchRow.batch_state b) SynchronizationBatchState.InFlight.
Proof.
  unfold ReaderSyncState.batch_is_ready. destruct (BatchRow.batch_state b); intros Hb; try done;
    apply rtc_once; constructor.
Qed.

Lemma batch_in_flight_state b : ReaderSyncState.is_in_flight b = true ->
  BatchRow.batch_state b = SynchronizationBatchState.InFlight.
Proof. by intros H%bool_decide_eq_true. Qed.

#[export] Hint Constructors queue_step batch_step : core.

Lemma default_submitted now (x : option Z) : is_Some x -> Some (default now x) = x.
Proof. by intros [? ->]. Qed.

(** The goals an update of rows leaves: each condition, read off. *)
Ltac conditions :=
  unfold ReaderSyncState.is_batch_member, ReaderQueueState.addresses, ReaderSyncState.addresses in *;
  repeat match goal with
  | H : _ && _ = true |- _ => apply andb_prop in H as [? ?]
  | H : (_ <=? _) = true |- _ => apply Z.leb_le in H
  | H : ReaderQueueState.is_in_flight _ = true |- _ => apply in_flight_state in H
  | H : ReaderSyncState.is_in_flight _ = true |- _ => apply batch_in_flight_state in H
  | H : ReaderQueueState.row_is_ready _ _ = true |- _ => apply ready_step in H
  | H : ReaderSyncState.batch_is_ready _ _ = true |- _ => apply batch_ready_step in H
  end.

Ltac evolves :=
  intros; conditions;
  first [apply set_state_evolved | apply batch_set_state_evolved];
  try lia; try done; try apply default_submitted;
  try match goal with H : TX.queue_state ?r = _ |- rtc _ _ _ => rewrite H; by apply rtc_once end;
  try match goal with H : BatchRow.batch_state ?b = _ |- rtc _ _ _ => rewrite H; by apply rtc_once end.

(** The statements of a call, one after the other, from [kept t t]. *)
Ltac keeps :=
  repeat match goal with
  | K : kept_but ?o ?t0 ?t1, Hu : update_offline_transactions _ _ ?t1 = Ok (?t2, _) |- _ =>
      assert (kept_but o t0 t2);
        [eapply kept_trans; [exact K|eapply update_transactions_kept; [apply K| |exact Hu]; solve [evolves]]
        |clear K Hu]
  | K : kept_but ?o ?t0 ?t1, Hu : update_batches _ _ ?t1 = Ok (?t2, _) |- _ =>
      assert (kept_but o t0 t2);
        [eapply kept_trans; [exact K|eapply update_batches_kept; [apply K| |exact Hu]; solve [evolves]]
        |clear K Hu]
  end.

Ltac keeps_from Hok := pose proof (kept_refl _ Hok); keeps.

(** ** The queue *)

Section kept.
Context `{JsonLibrary} {laws : JsonLaws}.

Lemma bind_reader_database_kept identity t :
  store_ok t -> leaves (bind_reader_database identity) t (kept t).
Proof.
  intros Hok. unfold bind_reader_database. run_steps.
  all: match goal with H : initialize_reader_state _ ?t0 = Ok _ |- _ =>
    unfold initialize_reader_state in H; destruct (reader_state_check _) eqn:?; [|done];
      cbn [negb] in H; destruct (reader_state t0) eqn:Hs;
      injection H as <- _; [by auto|] end.
  all: by apply first_state_kept.
Qed.

Lemma enqueue_offline_transaction_kept id draft t :
  store_ok t -> leaves (enqueue_offline_transaction id draft) t (kept t).
Proof using laws.
  intros Hok. unfold enqueue_offline_transaction. run_steps.
  repeat match goal with
  | Hr : ok_or _ _ = Ok _ |- _ => apply ok_or_Ok in Hr; subst
  | Hr : map_err _ _ = Ok _ |- _ => apply map_err_Ok in Hr
  end.
  eapply (enqueue_kept id); [exact Hok|eassumption|..|eassumption]; [|reflexivity..].
  split; cbn; [by eapply printed_is_parsed|].
  match goal with Hv : i64_try_from _ = Some _ |- _ => apply i64_try_from_Some in Hv as [? ->] end.
  int_lia.
Qed.

Lemma mark_offline_transaction_in_flight_kept id tx now t :
  store_ok t -> leaves (ReaderQueueState.mark_offline_transaction_in_flight id tx now) t (kept t).
Proof.
  intros Hok. unfold ReaderQueueState.mark_offline_transaction_in_flight. run_steps.
  keeps_from Hok. apply run_lift; auto.
Qed.

Lemma record_retryable_queue_failure_kept id tx category now retry t :
  store_ok t ->
  leaves (ReaderQueueState.record_retryable_queue_failure id tx category now retry) t (kept t).
Proof.
  intros Hok. unfold ReaderQueueState.record_retryable_queue_failure. run_steps.
  keeps_from Hok. apply run_lift; auto.
Qed.

Lemma record_final_failure_kept id tx category now target t :
  store_ok t -> leaves (ReaderQueueState.record_final_failure id tx category now target) t (kept t).
Proof.
  intros Hok. unfold ReaderQueueState.record_final_failure. run_steps.
  destruct target; try done; keeps_from Hok; apply run_lift; auto.
Qed.

Lemma recover_interrupted_offline_queue_kept id now t :
  store_ok t -> leaves (ReaderQueueState.recover_interrupted_offline_queue id now) t (kept t).
Proof.
  intros Hok. unfold ReaderQueueState.recover_interrupted_offline_queue. run_steps. by keeps_from Hok.
Qed.

(** ** Batches *)

(** After a change, the batch is read again. *)
Lemma load_after_kept id batch t t' :
  kept t t' ->
  run (ReaderSync.load_synchronization_batch id batch) t' (fun _ => kept t) (fun _ => kept t).
Proof. intros Hk. apply reads_leaves; [auto with reads|done]. Qed.

Lemma mark_synchronization_batch_in_flight_kept id batch now t :
  store_ok t -> leaves (ReaderSyncState.mark_synchronization_batch_in_flight id batch now) t (kept t).
Proof.
  intros Hok. unfold ReaderSyncState.mark_synchronization_batch_in_flight. run_steps.
  apply load_after_kept. by keeps_from Hok.
Qed.

Lemma record_synchronization_retryable_failure_kept id batch category now retry t :
  store_ok t ->
  leaves (ReaderSyncState.record_synchronization_retryable_failure id batch category now retry) t
    (kept t).
Proof.
  intros Hok. unfold ReaderSyncState.record_synchronization_retryable_failure. run_steps.
  all: keeps_from Hok; try done. by apply load_after_kept.
Qed.

Lemma recover_interrupted_synchronization_batches_kept id now t :
  store_ok t -> leaves (ReaderSyncState.recover_interrupted_synchronization_batches id now) t (kept t).
Proof.
  intros Hok. unfold ReaderSyncState.recover_interrupted_synchronization_batches. run_steps.
  by keeps_from Hok.
Qed.

Lemma record_final_synchronization_failure_kept id batch category now target transition t :
  store_ok t ->
  leaves (ReaderSyncFailure.record_final_synchronization_failure id batch category now target
            transition) t (kept t).
Proof.
  intros Hok. unfold ReaderSyncFailure.record_final_synchronization_failure. run_steps.
  apply load_after_kept. destruct target; by keeps_from Hok.
Qed.

(** ** Creating a batch *)

Lemma update_transactions_frame p f t t' n :
  update_offline_transactions p f t = Ok (t', n) ->
  synchronization_entries t' = synchronization_entries t
  /\ synchronization_batches t' = synchronization_batches t.
Proof.
  unfold update_offline_transactions. destruct (update_where _ _ _ _) as [[m c]|]; [|done].
  by intros [= <- _].
Qed.

(** No other active batch holds the transaction. *)
Definition free_for (bid : SynchronizationBatchId) (t : ReaderTables) (id : FareTransactionId) : Prop :=
  forall e, e ∈ synchronization_entries t -> EntryRow.fare_transaction_id e = id ->
    batch_active t (EntryRow.batch_id e) -> EntryRow.batch_id e = bid.

Lemma free_for_frame bid t t' id :
  synchronization_entries t' = synchronization_entries t ->
  synchronization_batches t' = synchronization_batches t ->
  free_for bid t id -> free_for bid t' id.
Proof. unfold free_for, batch_active. by intros -> ->. Qed.

(** A candidate is free for the new batch. *)
Lemma candidate_free bid r t t' now limit id :
  store_ok t -> synchronization_batches t !! bid = None ->
  synchronization_batches t' = <[bid := r]> (synchronization_batches t) ->
  synchronization_entries t' = synchronization_entries t ->
  forall x, x ∈ ReaderSync.select_candidates id now limit t ->
    free_for bid t' (TX.fare_transaction_id x).
Proof.
  intros Hok Hnone Hb He x Hx e Hin Hid (b & Hlook & Hact). rewrite He in Hin. rewrite Hb in Hlook.
  unfold ReaderSync.select_candidates in Hx. apply elem_of_take in Hx as (i & Hx & _).
  apply list_elem_of_lookup_2, elem_of_select_offline_transactions in Hx as [Hp [k Hk]].
  conditions. destruct (ok_entries _ Hok _ Hin) as [(b0 & Hb0 & Hbr) (x' & Hx' & Hxr & _)].
  assert (x' = x) as ->.
  { destruct (ok_transactions _ Hok _ _ Hk) as [Hkid _]. congruence. }
  apply lookup_insert_Some in Hlook as [[-> _]|[Hne Hlook]]; [done|].
  match goal with H : negb (ReaderQueueState.in_active_batch t x) = true |- _ =>
    apply negb_true_iff in H; rename H into Hnot end.
  assert (ReaderQueueState.in_active_batch t x = true); [|congruence].
  unfold ReaderQueueState.in_active_batch. apply existsb_exists. exists e.
  split; [by apply list_elem_of_In|]. rewrite Hlook. apply andb_true_intro. split.
  - apply bool_decide_eq_true. by split.
  - simplify_eq. rewrite Hact. by rewrite bool_decide_eq_true_2.
Qed.

(** The rows that the reservation of entries inserts. *)
Fixpoint entry_rows (bid : SynchronizationBatchId) (id : ReaderId) (position : nat)
    (entries : list SynchronizationBatchEntry.t) : list EntryRow.t :=
  match entries with
  | [] => []
  | e :: entries' =>
      EntryRow.mk bid id (SynchronizationBatchEntry.transaction_id e)
        (LocalSequenceNumber.value (SynchronizationBatchEntry.local_sequence_number e))
        (Z.of_nat position) :: entry_rows bid id (S position) entries'
  end.

Lemma reserve_entry_kept bid id now position entry t0 t :
  kept_but (Some bid) t0 t -> synchronization_batches t0 !! bid = None ->
  free_for bid t (SynchronizationBatchEntry.transaction_id entry) ->
  run (ReaderSync.reserve_entry bid id now position entry) t
    (fun _ t' => kept_but (Some bid) t0 t'
       /\ synchronization_entries t' = synchronization_entries t ++ entry_rows bid id position [entry]
       /\ synchronization_batches t' = synchronization_batches t
       /\ forall k, free_for bid t k -> free_for bid t' k)
    (fun _ _ => True).
Proof.
  intros K Hnew Hfree. unfold ReaderSync.reserve_entry. run_steps.
  match goal with H : update_offline_transactions _ _ _ = Ok _ |- _ =>
    pose proof (update_transactions_frame _ _ _ _ _ H) as [He Hb] end.
  unfold ReaderSync.sequence_to_i64 in *.
  repeat match goal with H : ok_or _ _ = Ok _ |- _ =>
    apply ok_or_Ok, i64_try_from_Some in H as [_ ->] end.
  keeps. match goal with K : kept_but _ t0 ?t1, H : insert_entry _ ?t1 = Ok _ |- _ =>
    eapply insert_entry_kept in H as [K' ->]; [|exact K|exact Hnew|by apply (free_for_frame _ t)] end.
  split_and!; [done|cbn; by rewrite He|done|].
  intros k Hk e [Hin| ->%list_elem_of_singleton]%elem_of_app Hid Ha; [|done].
  apply Hk; [by rewrite <- He|done|]. destruct Ha as (b & Hlook & Ha). exists b.
  by rewrite <- Hb.
Qed.

Lemma reserve_entries_kept bid id now position entries t0 t :
  kept_but (Some bid) t0 t -> synchronization_batches t0 !! bid = None ->
  (forall e, e ∈ entries -> free_for bid t (SynchronizationBatchEntry.transaction_id e)) ->
  run (ReaderSync.reserve_entries bid id now position entries) t
    (fun _ t' => kept_but (Some bid) t0 t'
       /\ synchronization_entries t' = synchronization_entries t ++ entry_rows bid id position entries
       /\ synchronization_batches t' = synchronization_batches t)
    (fun _ _ => True).
Proof.
  revert position t. induction entries as [|e entries IH]; intros position t K Hnew Hfree;
    cbn [ReaderSync.reserve_entries].
  { apply run_ret. cbn. by rewrite app_nil_r. }
  apply run_bind. eapply run_mono; [apply (reserve_entry_kept _ _ _ _ _ t0 t); [done..|]| |done].
  - apply Hfree. by left.
  - intros ? t' (K' & He & Hb & Hkeep). eapply run_mono; [apply IH; [done..|]| |done].
    + intros e' He'. apply Hkeep, Hfree. by right.
    + intros ? t'' (K'' & He' & Hb'). split_and!; [done|rewrite He', He, <- app_assoc; done|congruence].
Qed.

(** The batch whose entries are all inserted. *)
Lemma close_kept bid t0 t :
  (forall b, synchronization_batches t !! bid = Some b -> batch_complete t b) ->
  kept_but (Some bid) t0 t -> kept t0 t.
Proof.
  intros Hb [Hok Hev]. split; [|done]. split; try apply Hok. intros id b Hid _.
  destruct (decide (id = bid)) as [->|]; [by apply Hb|]. apply (ok_complete _ Hok id); congruence.
Qed.

Lemma entry_rows_spec bid id position entries :
  base.filter (fun e => ReaderSync.is_entry_of id bid e = true) (entry_rows bid id position entries)
    = entry_rows bid id position entries
  /\ EntryRow.entry_position <$> entry_rows bid id position entries
     = seqZ (Z.of_nat position) (Z.of_nat (length entries))
  /\ EntryRow.local_sequence_number <$> entry_rows bid id position entries
     = (fun e => LocalSequenceNumber.value (SynchronizationBatchEntry.local_sequence_number e))
         <$> entries.
Proof.
  revert position. induction entries as [|e entries IH]; intros position; [done|].
  destruct (IH (S position)) as (H1 & H2 & H3). cbn [entry_rows]. split_and!.
  - rewrite filter_cons_True, H1; [done|]. by apply bool_decide_eq_true.
  - rewrite fmap_cons, H2. cbn [length]. rewrite (seqZ_cons (Z.of_nat position)) by lia.
    f_equal. f_equal; lia.
  - by rewrite !fmap_cons, H3.
Qed.

Lemma create_complete b entries t0 t :
  store_ok t0 -> synchronization_batches t0 !! BatchRow.batch_id b = None ->
  synchronization_entries t = synchronization_entries t0
    ++ entry_rows (BatchRow.batch_id b) (BatchRow.reader_id b) 0 entries ->
  (fun e => LocalSequenceNumber.value (SynchronizationBatchEntry.local_sequence_number e))
    <$> head entries = Some (BatchRow.first_local_sequence_number b) ->
  (fun e => LocalSequenceNumber.value (SynchronizationBatchEntry.local_sequence_number e))
    <$> last entries = Some (BatchRow.last_local_sequence_number b) ->
  batch_complete t b.
Proof.
  intros Hok Hnone He Hfirst Hlast.
  destruct (entry_rows_spec (BatchRow.batch_id b) (BatchRow.reader_id b) 0 entries)
    as (Hrows & Hpos & Hseq).
  assert (entries_of t b = entry_rows (BatchRow.batch_id b) (BatchRow.reader_id b) 0 entries) as Heq.
  { unfold entries_of. rewrite He, filter_app, Hrows.
    assert (base.filter (fun e => ReaderSync.is_entry_of (BatchRow.reader_id b) (BatchRow.batch_id b) e
              = true) (synchronization_entries t0) = []) as ->; [|done].
    apply elem_of_nil_inv. intros e [Hp Hin]%list_elem_of_filter.
    apply bool_decide_eq_true in Hp as [Hid _]. destruct (ok_entries _ Hok _ Hin) as [(x & Hx & _) _].
    congruence. }
  unfold batch_complete. rewrite Heq, Hpos, <- (length_fmap EntryRow.local_sequence_number), Hseq,
    length_fmap.
  rewrite <- !head_fmap, <- fmap_last, Hseq, head_fmap, fmap_last. done.
Qed.

Lemma create_synchronization_batch_kept id version now limit bid t :
  store_ok t -> leaves (ReaderSync.create_synchronization_batch id version now limit bid) t (kept t).
Proof.
  intros Hok. unfold ReaderSync.create_synchronization_batch. run_steps.
  unfold ReaderSync.sequence_to_i64 in *.
  repeat match goal with
  | Hr : ok_or (i64_try_from _) _ = Ok _ |- _ => apply ok_or_Ok, i64_try_from_Some in Hr as [_ ->]
  | Hr : ok_or _ _ = Ok _ |- _ => apply ok_or_Ok in Hr
  end.
  match goal with Hi : insert_batch _ _ = Ok _ |- _ =>
    apply insert_batch_kept in Hi as (K & Hb & _ & He & Hnone); [|done] end.
  match goal with Ht : try_map _ _ = Ok _ |- _ => apply try_map_Ok in Ht; rename Ht into Htry end.
  match type of Htry with Forall2 _ _ ?l => rename l into entries0 end.
  eapply run_mono; [eapply (reserve_entries_kept _ _ _ _ _ t); [exact K|exact Hnone|]| |].
  - intros e Hin. apply list_elem_of_lookup in Hin as [i Hi].
    destruct (Forall2_lookup_r _ _ _ _ _ Htry Hi) as (x & Hx & Hdec). cbn beta in Hdec.
    unfold ReaderSync.decode_candidate in Hdec. result_inv. cbn.
    eapply candidate_free; [exact Hok|exact Hnone|exact Hb|exact He|].
    by eapply list_elem_of_lookup_2.
  - intros ? t'' (K' & He' & Hb'). apply run_ret. eapply close_kept; [|exact K'].
    intros b Hlook. cbn in Hb, Hnone. rewrite Hb', Hb, lookup_insert_eq in Hlook. injection Hlook as <-.
    eapply create_complete; [exact Hok|exact Hnone|by rewrite He', He|..]; cbn.
    + destruct (head entries0) as [e|]; cbn in *; [congruence|done].
    + destruct (last entries0) as [e|]; cbn in *; [congruence|done].
  - intros. by apply kept_refl.
Qed.

(** ** Acknowledgements *)

Lemma run_reads {E A B} (m : Mut ReaderDb E A) (k : A -> Mut ReaderDb E B) t Q S :
  reads m -> (forall e, S e t) -> (forall a, run (k a) t Q S) -> run (m ≫= k) t Q S.
Proof.
  intros Hm HS Hk. apply run_bind. eapply run_mono; [apply Hm|..]; [by intros a t' <-|].
  by intros e t' <-.
Qed.

Section acknowledgements.
Context `{UuidLibrary}.

Lemma insert_entries_kept id bid position entries t0 t :
  kept t0 t -> store_ok t0 ->
  run (ReaderAcknowledgementStorage.insert_entries id bid position entries) t
    (fun _ => kept t0) (fun _ _ => kept t0 t0).
Proof.
  intros K Hok. revert position t K.
  induction entries as [|e entries IH]; intros position t K;
    cbn [ReaderAcknowledgementStorage.insert_entries]; [by apply run_ret|].
  apply run_bind. unfold ReaderAcknowledgementStorage.insert_entry. run_step. run_step.
  destruct (ReaderAcknowledgement.stored_resolution _) as [[outcome category] retry].
  run_steps. apply IH. eapply kept_trans; [exact K|].
  eapply insert_acknowledgement_entry_kept; [apply K|eassumption].
Qed.

Lemma store_synchronization_acknowledgement_kept acknowledgement t :
  store_ok t ->
  leaves (ReaderAcknowledgementStorage.store_synchronization_acknowledgement acknowledgement) t
    (kept t).
Proof.
  intros Hok. unfold ReaderAcknowledgementStorage.store_synchronization_acknowledgement, leaves.
  apply run_reads; [auto with reads|by auto|]. intros batch. do 2 (run_step; run_step).
  apply run_transaction_if; [by auto..|]. run_step. run_step.
  destruct (ReaderAcknowledgementStorage.find_acknowledgement _ _ _); run_steps; [by auto|].
  match goal with H : insert_acknowledgement _ _ = Ok _ |- _ =>
    apply insert_acknowledgement_kept in H; [|exact Hok] end.
  eapply run_mono; [by eapply insert_entries_kept| |done].
  intros ? t'' K. by apply run_ret.
Qed.

Lemma store_protocol_synchronization_acknowledgement_kept acknowledgement t :
  store_ok t ->
  leaves (ReaderProtocolAcknowledgement.store_protocol_synchronization_acknowledgement
            acknowledgement) t (kept t).
Proof.
  intros Hok.
  unfold ReaderProtocolAcknowledgement.store_protocol_synchronization_acknowledgement. run_steps.
  by apply store_synchronization_acknowledgement_kept.
Qed.

End acknowledgements.

Lemma u64_checked_add_Some a b c : u64_checked_add a b = Some c -> c = a + b.
Proof. unfold u64_checked_add. intros Hc. by apply u64_try_from_Some in Hc as [_ ->]. Qed.

(** The sequence an application reaches: everything on the way is resolved. *)
Lemma advance_spec last l a :
  ReaderAcknowledgementApplication.advance last (last + 1) l = Ok a ->
  last <= a /\ forall n, last < n <= a ->
    exists s, (n, s) ∈ l /\ ReaderAcknowledgementApplication.is_resolved_queue_state s = true.
Proof.
  revert last. induction l as [|[n s] l IH]; intros last;
    cbn [ReaderAcknowledgementApplication.advance].
  { intros [= <-]. split; [done|]. intros n Hn. lia. }
  intros Ha. apply Result_bind_Ok in Ha as (sequence & Hseq & Ha).
  apply ok_or_Ok, u64_try_from_Some in Hseq as [_ ->].
  destruct (n =? 0); [done|]. case_decide as Hn.
  { injection Ha as <-. split; [done|]. intros ? ?. lia. }
  destruct (ReaderAcknowledgementApplication.is_resolved_queue_state s) eqn:Hs; cbn [negb] in Ha.
  2: { injection Ha as <-. split; [done|]. intros ? ?. lia. }
  apply Result_bind_Ok in Ha as (next & Hnext & Ha). apply ok_or_Ok in Hnext.
  apply u64_checked_add_Some in Hnext as ->.
  assert (n = last + 1) by (destruct (decide (n = last + 1)); [done|by destruct Hn]).
  subst n. destruct (IH _ Ha) as [Hle Hall]. split; [lia|]. intros k Hk.
  destruct (decide (k = last + 1)) as [->|]; [exists s; split; [by left|done]|].
  destruct (Hall k) as (s' & Hin & Hs'); [lia|]. exists s'. split; [by right|done].
Qed.

Lemma contiguous_resolved_sequence_spec last l a :
  ReaderAcknowledgementApplication.contiguous_resolved_sequence last l = Ok a ->
  last <= a /\ forall n, last < n <= a ->
    exists s, (n, s) ∈ l /\ ReaderAcknowledgementApplication.is_resolved_queue_state s = true.
Proof.
  unfold ReaderAcknowledgementApplication.contiguous_resolved_sequence. intros Ha.
  apply Result_bind_Ok in Ha as (next & Hnext & Ha). apply ok_or_Ok in Hnext.
  apply u64_checked_add_Some in Hnext as ->.
  by apply advance_spec.
Qed.

Lemma apply_entry_kept id now entry t0 t :
  kept t0 t -> store_ok t0 ->
  run (ReaderAcknowledgementApplication.apply_entry id now entry) t (fun _ => kept t0)
    (fun _ _ => kept t0 t0).
Proof.
  intros K Hok. unfold ReaderAcknowledgementApplication.apply_entry.
  destruct (DecodedAcknowledgementEntry.resolution entry); cbn [AppliedResolution.queue_values];
    run_steps; by keeps.
Qed.

Lemma apply_entries_kept id now entries t0 t :
  kept t0 t -> store_ok t0 ->
  run (ReaderAcknowledgementApplication.apply_entries id now entries) t (fun _ => kept t0)
    (fun _ _ => kept t0 t0).
Proof.
  intros K Hok. revert t K. induction entries as [|e entries IH]; intros t K;
    cbn [ReaderAcknowledgementApplication.apply_entries]; [by apply run_ret|].
  apply run_bind. eapply run_mono; [by apply apply_entry_kept| |done]. intros ? t' K'. by apply IH.
Qed.

(** Up to a sequence reached from the current one, everything is resolved. *)
Lemma advanced_resolved id current advanced t s :
  store_ok t -> reader_state t = Some s ->
  current <= ReaderStateRow.last_acknowledged_sequence s ->
  ReaderAcknowledgementApplication.contiguous_resolved_sequence current
    ((fun r => (TX.local_sequence_number r, TX.queue_state r))
       <$> select_offline_transactions (fun r => bool_decide (TX.reader_id r = id)
             && (current <? TX.local_sequence_number r)) t) = Ok advanced ->
  forall k r, offline_transactions t !! k = Some r -> TX.local_sequence_number r <= advanced ->
    resolved r.
Proof.
  intros Hok Hs Hcur [_ Hall]%contiguous_resolved_sequence_spec k r Hr Hle.
  destruct (decide (TX.local_sequence_number r <= current)).
  { eapply (ok_acknowledged _ Hok); [exact Hs|exact Hr|lia]. }
  destruct (Hall (TX.local_sequence_number r)) as (q & Hin & Hq); [lia|].
  apply list_elem_of_fmap in Hin as (r' & Heq & Hin). injection Heq as Hn ->.
  apply elem_of_select_offline_transactions in Hin as [_ [k' Hr']].
  assert (k' = k) as -> by (by eapply (ok_sequence_unique _ Hok)).
  by simplify_eq.
Qed.

Lemma apply_unapplied_kept id bid now entries current t :
  store_ok t ->
  (exists s, reader_state t = Some s /\ current <= ReaderStateRow.last_acknowledged_sequence s) ->
  run (ReaderAcknowledgementApplication.apply_unapplied id bid now entries current) t
    (fun _ => kept t) (fun _ _ => kept t t).
Proof.
  intros Hok (s & Hs & Hcur). unfold ReaderAcknowledgementApplication.apply_unapplied.
  run_step. run_step. run_step; [by run_step|]. run_step.
  eapply run_mono; [by apply apply_entries_kept; [apply kept_refl|]| |done]. intros ? t1 K. cbn beta in K.
  run_step. run_step. run_step; [by run_step|]. keeps.
  match goal with K : kept t ?t2 |- _ =>
    assert (exists s2, reader_state t2 = Some s2
      /\ current <= ReaderStateRow.last_acknowledged_sequence s2) as (s2 & Hs2 & Hcur2)
      by (destruct (ev_state _ _ (proj2 K) _ Hs) as (s2 & Hs2 & [_ _ ?]); exists s2; split; [done|lia]);
    pose proof (proj1 K) as Hok2 end.
  run_step. run_step. run_step. run_step. run_step.
  match goal with H : ReaderAcknowledgementApplication.contiguous_resolved_sequence _ _ = Ok _ |- _ =>
    pose proof (advanced_resolved _ _ _ _ _ Hok2 Hs2 Hcur2 H) as Hres end.
  eapply run_mono with (Q := fun _ t' => kept t t') (S := fun _ _ => kept t t).
  - unfold ReaderAcknowledgementApplication.advance_reader_state. run_steps; try done.
    eapply kept_trans; [eassumption|].
    eapply advance_kept; [exact Hok2| |eassumption].
    intros x _ Hp. conditions. repeat match goal with
    | H : ok_or _ _ = Ok _ |- _ => apply ok_or_Ok, i64_try_from_Some in H as [_ ->] end.
    cbn. split_and!; [by split; cbn; [|lia|lia]|done|exact Hres].
  - intros ? t3 K3. run_steps.
    match goal with H : update_acknowledgements _ _ _ = Ok _ |- _ =>
      eapply kept_trans; [exact K3|eapply update_acknowledgements_kept; [apply K3| |exact H]] end.
    intros k x _ Hx%bool_decide_eq_true. destruct Hx as (_ & _ & Hx). split; [by right; eexists|].
    rewrite Hx. by intros [? ?].
  - done.
Qed.

Lemma apply_synchronization_acknowledgement_kept id bid now t :
  store_ok t ->
  leaves (ReaderAcknowledgementApplication.apply_synchronization_acknowledgement id bid now) t (kept t).
Proof.
  intros Hok. unfold ReaderAcknowledgementApplication.apply_synchronization_acknowledgement.
  run_step. run_step; [run_step|]. apply run_transaction_if; [by auto..|].
  do 4 run_step. run_step; [by run_step|]. do 4 run_step. run_step; [by run_step|].
  do 6 run_step. destruct (AcknowledgementRow.applied_at _).
  { run_step; [by run_step|]. run_step. by apply kept_refl. }
  run_step; [by run_step|]. run_step. eapply run_mono; [apply apply_unapplied_kept; [done|]| |done].
  2: { intros ? t' K. by apply run_ret. }
  repeat match goal with H : ok_or _ _ = Ok _ |- _ => apply ok_or_Ok in H end.
  destruct (reader_state t) as [s|] eqn:Hs; [|by cbn in *]. exists s. split; [done|].
  cbn in *. case_decide; [|by cbn in *]. cbn in *. simplify_eq.
  match goal with H : u64_try_from _ = Some _ |- _ => apply u64_try_from_Some in H as [_ ->] end.
  lia.
Qed.

(** ** Histories *)

Section history.
Context `{UuidLibrary}.

(** The public calls of the reader's persistence code. *)
Inductive ReaderCall :=
| BindReaderDatabase (identity : ReaderDatabaseIdentity.t)
| EnqueueOfflineTransaction (id : ReaderId) (draft : OfflineTransactionDraft.t)
| LoadOfflineQueue (id : ReaderId)
| LoadReadyOfflineTransactions (id : ReaderId) (now : Z) (limit : nat)
| MarkOfflineTransactionInFlight (id : ReaderId) (tx : FareTransactionId) (now : Z)
| RecordRetryableQueueFailure (id : ReaderId) (tx : FareTransactionId) (category : Str)
    (now retry : Z)
| RecordPermanentQueueFailure (id : ReaderId) (tx : FareTransactionId) (category : Str) (now : Z)
| RecordManualReviewRequired (id : ReaderId) (tx : FareTransactionId) (category : Str) (now : Z)
| RecoverInterruptedOfflineQueue (id : ReaderId) (now : Z)
| CreateSynchronizationBatch (id : ReaderId) (version : DeviceProtocolVersion.t) (now : Z)
    (limit : nat) (generated : SynchronizationBatchId)
| LoadSynchronizationBatch (id : ReaderId) (batch : SynchronizationBatchId)
| LoadReadySynchronizationBatches (id : ReaderId) (now : Z) (limit : nat)
| LoadSynchronizationBatchRequest (id : ReaderId) (batch : SynchronizationBatchId)
| MarkSynchronizationBatchInFlight (id : ReaderId) (batch : SynchronizationBatchId) (now : Z)
| RecordSynchronizationRetryableFailure (id : ReaderId) (batch : SynchronizationBatchId)
    (category : Str) (now retry : Z)
| RecordSynchronizationPermanentFailure (id : ReaderId) (batch : SynchronizationBatchId)
    (category : Str) (now : Z)
| RecordSynchronizationManualReview (id : ReaderId) (batch : SynchronizationBatchId)
    (category : Str) (now : Z)
| RecoverInterruptedSynchronizationBatches (id : ReaderId) (now : Z)
| StoreSynchronizationAcknowledgement (acknowledgement : ReaderAcknowledgement.t)
| StoreProtocolSynchronizationAcknowledgement
    (acknowledgement : SynchronizationBatchAcknowledgement.t)
| ApplySynchronizationAcknowledgement (id : ReaderId) (batch : SynchronizationBatchId) (now : Z).

(** What a call leaves in the database, and whether it succeeds. *)
Definition reported {E A} (m : Mut ReaderDb E A) (db : ReaderDb) : ReaderDb * bool :=
  let '(db', r) := m db in (db', is_ok r).

Definition perform (call : ReaderCall) : ReaderDb -> ReaderDb * bool :=
  match call with
  | BindReaderDatabase identity => reported (bind_reader_database identity)
  | EnqueueOfflineTransaction id draft => reported (enqueue_offline_transaction id draft)
  | LoadOfflineQueue id => reported (load_offline_queue id)
  | LoadReadyOfflineTransactions id now limit =>
      reported (ReaderQueueState.load_ready_offline_transactions id now limit)
  | MarkOfflineTransactionInFlight id tx now =>
      reported (ReaderQueueState.mark_offline_transaction_in_flight id tx now)
  | RecordRetryableQueueFailure id tx category now retry =>
      reported (ReaderQueueState.record_retryable_queue_failure id tx category now retry)
  | RecordPermanentQueueFailure id tx category now =>
      reported (ReaderQueueState.record_permanent_queue_failure id tx category now)
  | RecordManualReviewRequired id tx category now =>
      reported (ReaderQueueState.record_manual_review_required id tx category now)
  | RecoverInterruptedOfflineQueue id now =>
      reported (ReaderQueueState.recover_interrupted_offline_queue id now)
  | CreateSynchronizationBatch id version now limit generated =>
      reported (ReaderSync.create_synchronization_batch id version now limit generated)
  | LoadSynchronizationBatch id batch => reported (ReaderSync.load_synchronization_batch id batch)
  | LoadReadySynchronizationBatches id now limit =>
      reported (ReaderSyncState.load_ready_synchronization_batches id now limit)
  | LoadSynchronizationBatchRequest id batch =>
      reported (ReaderSyncRequest.load_synchronization_batch_request id batch)
  | MarkSynchronizationBatchInFlight id batch now =>
      reported (ReaderSyncState.mark_synchronization_batch_in_flight id batch now)
  | RecordSynchronizationRetryableFailure id batch category now retry =>
      reported (ReaderSyncState.record_synchronization_retryable_failure id batch category now retry)
  | RecordSynchronizationPermanentFailure id batch category now =>
      reported (ReaderSyncFailure.record_synchronization_permanent_failure id batch category now)
  | RecordSynchronizationManualReview id batch category now =>
      reported (ReaderSyncFailure.record_synchronization_manual_review id batch category now)
  | RecoverInterruptedSynchronizationBatches id now =>
      reported (ReaderSyncState.recover_interrupted_synchronization_batches id now)
  | StoreSynchronizationAcknowledgement acknowledgement =>
      reported (ReaderAcknowledgementStorage.store_synchronization_acknowledgement acknowledgement)
  | StoreProtocolSynchronizationAcknowledgement acknowledgement =>
      reported (ReaderProtocolAcknowledgement.store_protocol_synchronization_acknowledgement
         acknowledgement)
  | ApplySynchronizationAcknowledgement id batch now =>
      reported (ReaderAcknowledgementApplication.apply_synchronization_acknowledgement id batch now)
  end.

(** A history: calls in any order, each with the faults it meets. *)
Definition reader_history (t : ReaderTables) (calls : list (ReaderCall * list (option Fault))) : ReaderTables :=
  foldl (fun t '(call, script) => tables (perform call (MkDb t script)).1) t calls.

Lemma leaves_tables {E A} (m : Mut ReaderDb E A) t P script :
  leaves m t P -> P (tables (reported m (MkDb t script)).1).
Proof.
  intros Hm. specialize (Hm script). unfold wp in Hm. unfold reported.
  destruct (m (MkDb t script)) as [db [a|e]]; exact Hm.
Qed.

Lemma perform_kept call t script : store_ok t -> kept t (tables (perform call (MkDb t script)).1).
Proof using laws.
  intros Hok. destruct call; cbn [perform]; apply (leaves_tables _ t (kept t)).
  - by apply bind_reader_database_kept.
  - by apply enqueue_offline_transaction_kept.
  - apply reads_leaves; [apply load_offline_queue_reads|by apply kept_refl].
  - apply reads_leaves; [apply load_ready_offline_transactions_reads|by apply kept_refl].
  - by apply mark_offline_transaction_in_flight_kept.
  - by apply record_retryable_queue_failure_kept.
  - by apply record_final_failure_kept.
  - by apply record_final_failure_kept.
  - by apply recover_interrupted_offline_queue_kept.
  - by apply create_synchronization_batch_kept.
  - apply reads_leaves; [apply load_synchronization_batch_reads|by apply kept_refl].
  - apply reads_leaves; [apply load_ready_synchronization_batches_reads|by apply kept_refl].
  - apply reads_leaves; [apply load_synchronization_batch_request_reads|by apply kept_refl].
  - by apply mark_synchronization_batch_in_flight_kept.
  - by apply record_synchronization_retryable_failure_kept.
  - by apply record_final_synchronization_failure_kept.
  - by apply record_final_synchronization_failure_kept.
  - by apply recover_interrupted_synchronization_batches_kept.
  - by apply store_synchronization_acknowledgement_kept.
  - by apply store_protocol_synchronization_acknowledgement_kept.
  - by apply apply_synchronization_acknowledgement_kept.
Qed.

Lemma reader_history_kept calls t : store_ok t -> kept t (reader_history t calls).
Proof using laws.
  revert t. induction calls as [|[call script] calls IH]; intros t Hok; cbn; [by apply kept_refl|].
  pose proof (perform_kept call t script Hok) as K. eapply kept_trans; [exact K|]. apply IH, K.
Qed.

Lemma history_ok calls : store_ok (reader_history empty_tables calls).
Proof using laws. apply reader_history_kept, store_ok_empty. Qed.

Lemma history_kept calls more :
  kept (reader_history empty_tables calls) (reader_history empty_tables (calls ++ more)).
Proof using laws. unfold reader_history. rewrite foldl_app. apply reader_history_kept, history_ok. Qed.

(** C26. Whatever calls the reader makes of its store, in whatever order and
    with whatever arguments, and whichever statements the database fails, the
    store stays well formed.  In each of the six tables every row satisfies
    its CHECK constraints, its key and unique indexes, and its references: a
    batch entry names a queued transaction with its sequence, an
    acknowledgement its batch, and an acknowledgement entry its acknowledgement
    and an entry of that batch.  Every row belongs to the bound reader, and
    without one there are no rows.  The queue holds exactly the sequence
    numbers from 1 up to the next one, each once, every transaction up to the
    acknowledged sequence is resolved, every batch has entries at the positions
    0, 1, .. from its first sequence to its last, and no transaction is in two
    active batches. *)
Theorem reader_store_invariant calls :
  let t := reader_history empty_tables calls in
  store_ok t
  /\ match reader_state t with
     | Some s => rows_of_reader (ReaderStateRow.reader_id s) t
     | None => t = empty_tables
     end.
Proof using laws.
  intros t. pose proof (history_ok calls) as Hok. split; [exact Hok|].
  destruct (reader_state t) as [s|] eqn:Hs; [by eapply store_ok_reader|].
  destruct (store_ok_unbound _ _ Hok Hs) as (H1 & H2 & H3 & H4 & H5). fold t in H1, H2, H3, H4, H5.
  unfold empty_tables. destruct t. cbn in *. by subst.
Qed.

(** C27. From any point of such a history on, nothing is lost and nothing is
    rewritten: the reader keeps its identity and its sequences only advance;
    every queued transaction stays, with its identity, sequence, envelope and
    decision, and its state follows the lifecycle, final states being final;
    every batch stays with its range, its first submission time and its
    entries, and its state follows its lifecycle; stored acknowledgements stay
    as received and are applied at most once. *)
Theorem reader_history_evolves calls more :
  evolved (reader_history empty_tables calls) (reader_history empty_tables (calls ++ more)).
Proof using laws. apply history_kept. Qed.

End history.

End kept.

(** ** Faults only abort

    Whatever the database fails during a call of the reader's store, the
    tables end as they were or as the call leaves them when nothing fails; and
    a call that succeeds does what it does when nothing fails. *)

(** ** Calls *)

Section calls.
Context `{JsonLibrary} `{UuidLibrary}.

Lemma load_synchronization_batch_transparent id batch :
  transparent (ReaderSync.load_synchronization_batch id batch).
Proof. unfold ReaderSync.load_synchronization_batch. transparent_steps. Qed.

Lemma load_batches_transparent id ids : transparent (ReaderSyncState.load_batches id ids).
Proof.
  induction ids; cbn [ReaderSyncState.load_batches]; transparent_steps; [|done].
  apply load_synchronization_batch_transparent.
Qed.

Lemma reserve_entries_transparent bid id now position entries :
  transparent (ReaderSync.reserve_entries bid id now position entries).
Proof.
  revert position. induction entries; intros position; cbn [ReaderSync.reserve_entries];
    unfold ReaderSync.reserve_entry; transparent_steps; auto.
Qed.

Lemma insert_entries_transparent id bid position entries :
  transparent (ReaderAcknowledgementStorage.insert_entries id bid position entries).
Proof.
  revert position. induction entries; intros position;
    cbn [ReaderAcknowledgementStorage.insert_entries];
    unfold ReaderAcknowledgementStorage.insert_entry; transparent_steps; auto.
Qed.

Lemma apply_entries_transparent id now entries :
  transparent (ReaderAcknowledgementApplication.apply_entries id now entries).
Proof.
  induction entries; cbn [ReaderAcknowledgementApplication.apply_entries];
    unfold ReaderAcknowledgementApplication.apply_entry; transparent_steps; auto.
Qed.

Lemma apply_unapplied_transparent id bid now entries current :
  transparent (ReaderAcknowledgementApplication.apply_unapplied id bid now entries current).
Proof.
  unfold ReaderAcknowledgementApplication.apply_unapplied. transparent_steps.
  - apply apply_entries_transparent.
  - unfold ReaderAcknowledgementApplication.advance_reader_state. transparent_steps.
Qed.

Lemma store_synchronization_acknowledgement_atomic acknowledgement :
  atomic (ReaderAcknowledgementStorage.store_synchronization_acknowledgement acknowledgement).
Proof.
  unfold ReaderAcknowledgementStorage.store_synchronization_acknowledgement. cbn beta zeta.
  apply atomic_after; [apply reads_map_error, load_synchronization_batch_reads| |intros ?].
  { apply transparent_map_error, load_synchronization_batch_transparent. }
  atomic_steps. apply insert_entries_transparent.
Qed.

(** The batch is read again after the change. *)
Lemma change_then_load_atomic {E} f (m : Mut ReaderDb E unit) id batch :
  atomic m -> atomic (_ ← m; map_error f (ReaderSync.load_synchronization_batch id batch)).
Proof.
  intros Hm. apply atomic_before; [done|..]; intros _.
  - apply reads_map_error, load_synchronization_batch_reads.
  - apply transparent_map_error, load_synchronization_batch_transparent.
Qed.

Lemma record_final_synchronization_failure_atomic id batch category now target transition :
  atomic (ReaderSyncFailure.record_final_synchronization_failure id batch category now target
            transition).
Proof.
  unfold ReaderSyncFailure.record_final_synchronization_failure. cbn beta zeta.
  do 2 atomic_step. apply change_then_load_atomic. atomic_steps.
Qed.

Lemma record_final_failure_atomic id tx category now target :
  atomic (ReaderQueueState.record_final_failure id tx category now target).
Proof. unfold ReaderQueueState.record_final_failure. atomic_steps. Qed.

(** Every call reports a success exactly when and as a run without faults
    would, or leaves the tables of before or of such a run. *)
Definition call_atomic (m : ReaderDb -> ReaderDb * bool) : Prop :=
  forall t script db ok, m (MkDb t script) = (db, ok) ->
    (ok = true -> m (MkDb t []) = (MkDb (tables db) [], true))
    /\ (ok = false -> tables db = t \/ tables db = tables (m (MkDb t [])).1).

Lemma reported_atomic {E A} (m : Mut ReaderDb E A) : atomic m -> call_atomic (reported m).
Proof.
  intros [Ht Ha] t script db ok. unfold reported.
  destruct (m (MkDb t script)) as [db' [a|e]] eqn:Hm; intros [= <- <-]; split; try done; intros _.
  - by rewrite (Ht _ _ _ _ Hm).
  - destruct (Ha _ _ _ _ Hm) as [?|Hs]; [by left|right]. rewrite Hs.
    by destruct (m (MkDb t [])) as [? ?].
Qed.

(** C28. Every call of the reader's store is all or nothing: whichever
    statements the database fails while it runs, a call that succeeds has done
    exactly what it does on a database that fails nothing, and a call that
    reports an error leaves the tables either untouched or exactly as the
    call without faults leaves them (a batch transition whose change is
    committed and whose last read fails); a change is never kept in part. *)
Theorem reader_calls_all_or_nothing (call : ReaderCall) t script :
  let '(db, ok) := perform call (MkDb t script) in
  if ok then perform call (MkDb t []) = (MkDb (tables db) [], true)
  else tables db = t \/ tables db = tables (perform call (MkDb t [])).1.
Proof.
  cut (call_atomic (perform call)).
  { intros Hc. destruct (perform call (MkDb t script)) as [db []] eqn:Hp; by eapply Hc. }
  destruct call; cbn [perform]; apply reported_atomic.
  - unfold bind_reader_database. atomic_steps.
  - unfold enqueue_offline_transaction. atomic_steps.
  - apply reads_atomic; [apply load_offline_queue_reads|unfold load_offline_queue; transparent_steps].
  - apply reads_atomic; [apply load_ready_offline_transactions_reads|].
    unfold ReaderQueueState.load_ready_offline_transactions, load_offline_queue. transparent_steps.
  - unfold ReaderQueueState.mark_offline_transaction_in_flight. atomic_steps.
  - unfold ReaderQueueState.record_retryable_queue_failure. atomic_steps.
  - apply record_final_failure_atomic.
  - apply record_final_failure_atomic.
  - unfold ReaderQueueState.recover_interrupted_offline_queue. atomic_steps.
  - unfold ReaderSync.create_synchronization_batch. atomic_steps. apply reserve_entries_transparent.
  - apply reads_atomic; [apply load_synchronization_batch_reads|].
    apply load_synchronization_batch_transparent.
  - apply reads_atomic; [apply load_ready_synchronization_batches_reads|].
    unfold ReaderSyncState.load_ready_synchronization_batches. transparent_steps.
    apply load_batches_transparent.
  - apply reads_atomic; [apply load_synchronization_batch_request_reads|].
    unfold ReaderSyncRequest.load_synchronization_batch_request, transaction. transparent_steps.
  - unfold ReaderSyncState.mark_synchronization_batch_in_flight. cbn beta zeta. atomic_step.
    apply change_then_load_atomic. atomic_steps.
  - unfold ReaderSyncState.record_synchronization_retryable_failure. atomic_steps.
    + apply load_synchronization_batch_reads.
    + apply load_synchronization_batch_transparent.
  - apply record_final_synchronization_failure_atomic.
  - apply record_final_synchronization_failure_atomic.
  - unfold ReaderSyncState.recover_interrupted_synchronization_batches. atomic_steps.
  - apply store_synchronization_acknowledgement_atomic.
  - unfold ReaderProtocolAcknowledgement.store_protocol_synchronization_acknowledgement.
    atomic_steps. apply store_synchronization_acknowledgement_atomic.
  - unfold ReaderAcknowledgementApplication.apply_synchronization_acknowledgement. atomic_steps.
    all: apply apply_unapplied_transparent.
Qed.

End calls.
