(* ===== verification/PersistenceReaderExample.v ===== *)
(** * A reader at work, evaluated

    Concrete calls that the witnesses of the reader's theorems use, and one
    run of the whole cycle: two transactions are queued, submitted in a batch,
    the submission fails and is retried, and the acknowledgement is applied. *)

From S2P Require Import Prelude Text DomainMoney DomainIdentifier DomainTransaction DomainAccount.
From S2P Require Import JsonReference DeviceProtocolValues DeviceProtocolSynchronization.
From S2P Require Import PersistenceReaderStore PersistenceReaderIdentity PersistenceReaderQueue.
From S2P Require Import PersistenceReaderSync PersistenceReaderAcknowledgement.
From S2P Require Import PersistenceReaderApplication PersistenceReaderInvariant.
From S2P Require Import PersistenceReaderHistory.

Definition sample_reader : ReaderId := MkIdentifier uuid_1.
Definition sample_batch : SynchronizationBatchId := MkIdentifier uuid_2.
Definition sample_transaction (n : Z) : FareTransactionId :=
  if n =? 1 then MkIdentifier uuid_1 else MkIdentifier uuid_2.


Definition sample_identity : ReaderDatabaseIdentity.t :=
  ReaderDatabaseIdentity.mk sample_reader (lit "development") (lit "0.1.0")
    DeviceProtocolVersion.CURRENT 1000.

Definition sample_draft (n : Z) : OfflineTransactionDraft.t :=
  OfflineTransactionDraft.mk (sample_transaction n) (MkIdentifier uuid_1)
    (EventTime.mk 1000) (FarePolicyVersion.mk 1)
    (FareDecision.Approved (sample_money 275) FareApprovalReason.StandardFare) (JObject []) 1000.

(** Bind, queue two transactions, create a batch, submit it. *)
Definition sample_submission : list (ReaderCall * list (option Fault)) :=
  [(BindReaderDatabase sample_identity, []);
   (EnqueueOfflineTransaction sample_reader (sample_draft 1), []);
   (EnqueueOfflineTransaction sample_reader (sample_draft 2), []);
   (CreateSynchronizationBatch sample_reader DeviceProtocolVersion.CURRENT 2000 10 sample_batch, []);
   (MarkSynchronizationBatchInFlight sample_reader sample_batch 3000, [])].

(** The submission fails, a statement fails, the batch is submitted again. *)
Definition sample_retry : list (ReaderCall * list (option Fault)) :=
  [(RecordSynchronizationRetryableFailure sample_reader sample_batch (lit "timeout") 4000 5000, []);
   (MarkSynchronizationBatchInFlight sample_reader sample_batch 6000, [None; None; Some (Fails OtherSqlError)]);
   (RecoverInterruptedSynchronizationBatches sample_reader 6000, []);
   (MarkSynchronizationBatchInFlight sample_reader sample_batch 7000, [])].

Definition sample_received : ReaderAcknowledgement.t :=
  ReaderAcknowledgement.mk sample_reader sample_batch DeviceProtocolVersion.CURRENT
    (sample_sequence 1) (sample_sequence 2) 8000
    [ReaderAcknowledgement.Entry.new (sample_transaction 1) (sample_sequence 1)
       SynchronizationEntryResolution.Acknowledged;
     ReaderAcknowledgement.Entry.new (sample_transaction 2) (sample_sequence 2)
       (SynchronizationEntryResolution.RetryableFailure (lit "busy") 9000)].

Definition sample_acknowledged : list (ReaderCall * list (option Fault)) :=
  [(StoreSynchronizationAcknowledgement sample_received, []);
   (ApplySynchronizationAcknowledgement sample_reader sample_batch 8500, [])].

Definition sample_tables : ReaderTables :=
  reader_history empty_tables (sample_submission ++ sample_retry ++ sample_acknowledged).

(** After the cycle the first transaction is acknowledged, the second waits
    for its retry, and the acknowledged sequence is 1. *)
Example sample_cycle :
  (OfflineTransactionRow.queue_state <$> offline_transactions sample_tables !! sample_transaction 1,
   OfflineTransactionRow.queue_state <$> offline_transactions sample_tables !! sample_transaction 2,
   OfflineTransactionRow.attempt_count <$> offline_transactions sample_tables !! sample_transaction 2,
   BatchRow.batch_state <$> synchronization_batches sample_tables !! sample_batch,
   BatchRow.submitted_at <$> synchronization_batches sample_tables !! sample_batch,
   ReaderStateRow.last_acknowledged_sequence <$> reader_state sample_tables)
  = (Some OfflineQueueState.Acknowledged, Some OfflineQueueState.RetryableFailure, Some 2,
     Some SynchronizationBatchState.Acknowledged, Some (Some 3000), Some 1).
Proof. vm_compute. reflexivity. Qed.

Lemma is_ok_inv {E A} (r : Result E A) : is_ok r = true -> {a : A | r = Ok a}.
Proof. destruct r as [a|e]; [by exists a|done]. Defined.

(** The theorems about histories, at the sample history. *)
Lemma reader_store_invariant_witness :
  store_ok (reader_history empty_tables (sample_submission ++ sample_retry)).
Proof. exact (proj1 (reader_store_invariant (sample_submission ++ sample_retry))). Defined.

Lemma reader_history_evolves_witness :
  evolved (reader_history empty_tables sample_submission)
    (reader_history empty_tables (sample_submission ++ sample_retry)).
Proof. exact (reader_history_evolves sample_submission sample_retry). Defined.
