(* ===== verification/PersistenceReaderDurability.v ===== *)
(** * What was queued is loaded

    The durable queue of a reader reads back completely, in sequence order,
    and a transaction that was enqueued is there after any later history. *)

From stdpp Require Import sorting.
From S2P Require Import Prelude Text JsonReference DomainMoney DomainIdentifier DomainTransaction.
From S2P Require Import DeviceProtocolValues DeviceProtocolSynchronization.
From S2P Require Import PersistenceReaderStore PersistenceReaderIdentity PersistenceReaderQueue.
From S2P Require Import PersistenceReaderSync PersistenceReaderAcknowledgement.
From S2P Require Import PersistenceReaderApplication PersistenceSqlLogic.
From S2P Require Import PersistenceReaderInvariant PersistenceReaderHistory.
From S2P Require Import PersistenceReaderExample.

Module QOT := QueuedOfflineTransaction.

Lemma seqZ_sorted m n : Sorted Z.le (seqZ m n).
Proof.
  destruct (decide (n <= 0)); [by rewrite seqZ_nil by lia|].
  assert (0 <= n) as Hn by lia. clear - Hn. revert n Hn m.
  apply (natlike_ind (fun n => forall m, Sorted Z.le (seqZ m n))); [constructor|].
  intros n Hn IH m. rewrite seqZ_cons by lia. rewrite Z.pred_succ.
  constructor; [apply IH|]. destruct (decide (n = 0)) as [->|]; [constructor|].
  rewrite seqZ_cons by lia. constructor. lia.
Qed.

Section durability.
Context `{JsonLibrary}.

(** The queue of the bound reader, row by row. *)
Lemma queue_rows t s :
  store_ok t -> reader_state t = Some s ->
  TX.local_sequence_number <$> select_offline_transactions
    (fun r => bool_decide (TX.reader_id r = ReaderStateRow.reader_id s)) t
  = seqZ 1 (ReaderStateRow.next_local_sequence s - 1).
Proof.
  intros Hok Hs. apply (Sorted_unique Z.le).
  - apply order_by_sorted.
  - apply seqZ_sorted.
  - apply NoDup_Permutation.
    + apply NoDup_fmap_2_strong.
      * intros x y Hx Hy Heq.
        apply elem_of_select_offline_transactions in Hx as [_ [k Hx]].
        apply elem_of_select_offline_transactions in Hy as [_ [k' Hy]].
        assert (k = k') as <- by (by eapply (ok_sequence_unique _ Hok)). congruence.
      * unfold select_offline_transactions. rewrite order_by_permutation.
        apply NoDup_filter, NoDup_fmap_2_strong; [|apply NoDup_map_to_list].
        intros [k x] [k' y] Hx Hy Heq. cbn in Heq. subst y. apply elem_of_map_to_list in Hx, Hy.
        destruct (ok_transactions _ Hok _ _ Hx) as [<- _].
        by destruct (ok_transactions _ Hok _ _ Hy) as [<- _].
    + apply NoDup_seqZ.
    + intros n. rewrite elem_of_seqZ, list_elem_of_fmap. split.
      * intros (x & -> & Hx). apply elem_of_select_offline_transactions in Hx as [_ [k Hx]].
        assert (1 <= TX.local_sequence_number x < ReaderStateRow.next_local_sequence s); [|lia].
        apply (ok_sequences _ Hok _ _ Hs). eauto.
      * intros Hn. destruct (proj1 (ok_sequences _ Hok _ n Hs)) as (k & x & Hx & <-); [lia|].
        exists x. split; [done|]. apply elem_of_select_offline_transactions. split; [|by exists k].
        apply bool_decide_eq_true. destruct (ok_transactions _ Hok _ _ Hx) as (_ & _ & Hr).
        rewrite Hs in Hr. cbn in Hr. congruence.
Qed.

(** A stored row decodes to what it holds. *)
Definition decodes_to (r : OTR) (q : QOT.t) : Prop :=
  QOT.transaction_id q = TX.fare_transaction_id r
  /\ QOT.reader_id q = TX.reader_id r
  /\ LocalSequenceNumber.value (QOT.local_sequence_number q) = TX.local_sequence_number r
  /\ QOT.fare_credential_id q = TX.fare_credential_id r
  /\ EventTime.unix_milliseconds (QOT.event_time q) = TX.event_time r
  /\ FarePolicyVersion.value (QOT.fare_policy_version q) = TX.fare_policy_version r
  /\ QOT.provisional_decision q = TX.provisional_decision r
  /\ json_from_str (TX.transaction_envelope_json r) = Ok (QOT.transaction_envelope q)
  /\ QOT.queue_state q = TX.queue_state r
  /\ QOT.attempt_count q = TX.attempt_count r
  /\ QOT.next_retry_at_unix_milliseconds q = TX.next_retry_at r
  /\ QOT.last_failure_category q = TX.last_failure_category r
  /\ QOT.created_at_unix_milliseconds q = TX.created_at r
  /\ QOT.updated_at_unix_milliseconds q = TX.updated_at r.

Lemma row_decodes r :
  offline_transaction_check r = true -> row_readable r -> TX.local_sequence_number r <= i64_max ->
  TX.attempt_count r <= 4294967295 ->
  exists q, decode_stored_transaction r = Ok q /\ decodes_to r q.
Proof.
  intros Hc [Hread Hpolicy] Hseq Hatt. unfold offline_transaction_check in Hc.
  repeat (apply andb_prop in Hc as [Hc ?]).
  repeat match goal with
  | Hx : (_ <? _) = true |- _ => apply Z.ltb_lt in Hx
  | Hx : (_ <=? _) = true |- _ => apply Z.leb_le in Hx
  end.
  destruct (json_from_str (TX.transaction_envelope_json r)) as [v|e] eqn:Hv; [|done].
  unfold decode_stored_transaction, u64_try_from, u32_try_from, LocalSequenceNumber.new,
    FarePolicyVersion.new, EventTime.from_unix_milliseconds.
  repeat (rewrite decide_True by int_lia; cbn [ok_or mbind Result_bind]).
  repeat (rewrite (proj2 (Z.eqb_neq _ 0)) by lia; cbn [map_err mbind Result_bind]).
  rewrite (proj2 (Z.ltb_ge (TX.event_time r) 0)) by lia. cbn [map_err mbind Result_bind].
  repeat (rewrite decide_True by int_lia; cbn [ok_or mbind Result_bind]).
  rewrite Hv. cbn [map_err mbind Result_bind].
  repeat (rewrite decide_True by int_lia; cbn [ok_or mbind Result_bind]).
  match goal with Hx : at_least 0 _ = true |- _ => rewrite Hx end. cbn [negb].
  rewrite !(proj2 (Z.ltb_ge _ _)) by lia.
  eexists. split; [reflexivity|]. by repeat split.
Qed.

Lemma load_offline_queue_eq id t :
  load_offline_queue id (MkDb t [])
  = (MkDb t [], try_map decode_stored_transaction
       (select_offline_transactions (fun r => bool_decide (TX.reader_id r = id)) t)).
Proof. done. Qed.

(** The whole queue loads. *)
Lemma load_offline_queue_total t s :
  store_ok t -> reader_state t = Some s ->
  (forall k r, offline_transactions t !! k = Some r -> TX.attempt_count r <= 4294967295) ->
  exists qs, outcome (load_offline_queue (ReaderStateRow.reader_id s)) (MkDb t []) = Ok qs
    /\ Forall2 decodes_to (select_offline_transactions
         (fun r => bool_decide (TX.reader_id r = ReaderStateRow.reader_id s)) t) qs.
Proof.
  intros Hok Hs Hatt. unfold outcome. rewrite load_offline_queue_eq. cbn [snd].
  set (rows := select_offline_transactions _ t).
  assert (forall r, r ∈ rows -> exists q, decode_stored_transaction r = Ok q /\ decodes_to r q) as Hdec.
  { intros r Hr. apply elem_of_select_offline_transactions in Hr as [_ [k Hr]].
    destruct (ok_transactions _ Hok _ _ Hr) as (_ & [Hc Hread] & _).
    apply row_decodes; [done|done| |by eapply Hatt].
    pose proof (proj2 (ok_state _ Hok _ Hs)).
    assert (1 <= TX.local_sequence_number r < ReaderStateRow.next_local_sequence s); [|lia].
    apply (ok_sequences _ Hok _ _ Hs). eauto. }
  destruct (try_map_total decode_stored_transaction rows) as [qs Hqs].
  { intros r Hr. destruct (Hdec _ Hr) as (q & Hq & _). by exists q. }
  exists qs. rewrite Hqs. split; [done|]. apply try_map_Ok in Hqs.
  eapply Forall2_impl in Hqs; [|intros ? ? Hx; exact Hx].
  apply Forall2_same_length_lookup. split; [by eapply Forall2_length|]. intros i r q Hr Hq.
  destruct (Hdec r) as (q' & Hq' & Hd); [by eapply list_elem_of_lookup_2|].
  assert (decode_stored_transaction r = Ok q) as Hq'' by (by eapply Forall2_lookup_lr in Hqs).
  rewrite Hq'' in Hq'. by injection Hq' as ->.
Qed.

Lemma insert_offline_transaction_Ok r t t' a :
  insert_offline_transaction r t = Ok (t', a) ->
  t' = set_offline_transactions (<[TX.fare_transaction_id r := r]> (offline_transactions t)) t.
Proof.
  unfold insert_offline_transaction. destruct (negb _); [done|]. destruct (_ || _); [done|].
  case_decide; [|done]. by intros [= <- _].
Qed.

(** What a successful enqueue has stored. *)
Lemma enqueue_inv id draft t db q :
  enqueue_offline_transaction id draft (MkDb t []) = (db, Ok q) ->
  exists text policy,
    json_to_string (OfflineTransactionDraft.transaction_envelope draft) = Ok text
    /\ policy = FarePolicyVersion.value (OfflineTransactionDraft.fare_policy_version draft)
    /\ QOT.reader_id q = id
    /\ offline_transactions (tables db) !! OfflineTransactionDraft.transaction_id draft
       = Some (TX.mk (OfflineTransactionDraft.transaction_id draft) id
           (LocalSequenceNumber.value (QOT.local_sequence_number q))
           (OfflineTransactionDraft.fare_credential_id draft)
           (EventTime.unix_milliseconds (OfflineTransactionDraft.event_time draft)) policy
           (OfflineTransactionDraft.provisional_decision draft) text OfflineQueueState.Pending 0 None
           None (OfflineTransactionDraft.created_at_unix_milliseconds draft)
           (OfflineTransactionDraft.created_at_unix_milliseconds draft)).
Proof.
  intros Hq. unfold enqueue_offline_transaction in Hq. cbn beta zeta in Hq. invert_run.
  match goal with Ht : transaction _ _ _ _ = _ |- _ =>
    apply transaction_inv in Ht as (t' & script & Ht & Htab) end.
  invert_run.
  repeat match goal with
  | Hu : u64_try_from _ = Some _ |- _ => apply u64_try_from_Some in Hu as [_ ->]
  | Hu : i64_try_from _ = Some _ |- _ => apply i64_try_from_Some in Hu as [_ ->]
  | Hu : LocalSequenceNumber.new _ = Ok _ |- _ => unfold LocalSequenceNumber.new in Hu; case_match; [done|]; injection Hu as <-
  end.
  do 2 eexists. split; [eassumption|]. split; [reflexivity|].
  match goal with Hi : insert_offline_transaction _ _ = Ok _ |- _ =>
    apply insert_offline_transaction_Ok in Hi; subst end.
  split; [reflexivity|]. cbn. by rewrite lookup_insert_eq.
Qed.

Lemma enqueue_transparent id draft : transparent (enqueue_offline_transaction id draft).
Proof. unfold enqueue_offline_transaction, transaction. transparent_steps. Qed.

Lemma load_offline_queue_transparent id : transparent (load_offline_queue id).
Proof. unfold load_offline_queue. transparent_steps. Qed.

(** What a transaction keeps from its draft on. *)
Definition keeps_draft (id : ReaderId) (draft : OfflineTransactionDraft.t) (number : Z) (q : QOT.t)
  : Prop :=
  QOT.transaction_id q = OfflineTransactionDraft.transaction_id draft
  /\ QOT.reader_id q = id
  /\ LocalSequenceNumber.value (QOT.local_sequence_number q) = number
  /\ QOT.fare_credential_id q = OfflineTransactionDraft.fare_credential_id draft
  /\ QOT.event_time q = OfflineTransactionDraft.event_time draft
  /\ QOT.fare_policy_version q = OfflineTransactionDraft.fare_policy_version draft
  /\ QOT.provisional_decision q = OfflineTransactionDraft.provisional_decision draft
  /\ QOT.created_at_unix_milliseconds q = OfflineTransactionDraft.created_at_unix_milliseconds draft
  /\ exists text, json_to_string (OfflineTransactionDraft.transaction_envelope draft) = Ok text
       /\ json_from_str text = Ok (QOT.transaction_envelope q).

Lemma seqZ_index t s r (qs : list QOT.t) k :
  store_ok t -> reader_state t = Some s -> offline_transactions t !! k = Some r ->
  TX.reader_id r = ReaderStateRow.reader_id s ->
  Forall2 decodes_to (select_offline_transactions
    (fun r => bool_decide (TX.reader_id r = ReaderStateRow.reader_id s)) t) qs ->
  (fun q => LocalSequenceNumber.value (QOT.local_sequence_number q)) <$> qs
    = seqZ 1 (Z.of_nat (length qs))
  /\ exists q, qs !! Z.to_nat (TX.local_sequence_number r - 1) = Some q /\ decodes_to r q.
Proof.
  intros Hok Hs Hr Hid Hqs. pose proof (queue_rows _ _ Hok Hs) as Hrows.
  set (rows := select_offline_transactions _ t) in *.
  assert ((fun q => LocalSequenceNumber.value (QOT.local_sequence_number q)) <$> qs
          = TX.local_sequence_number <$> rows) as Hseq.
  { clear Hrows. induction Hqs as [|x q rows qs Hx _ IH]; [done|]. rewrite !fmap_cons, IH.
    by destruct Hx as (_ & _ & -> & _). }
  assert (1 <= TX.local_sequence_number r < ReaderStateRow.next_local_sequence s) as Hn
    by (apply (ok_sequences _ Hok _ _ Hs); eauto).
  assert (length qs = Z.to_nat (ReaderStateRow.next_local_sequence s - 1)) as Hlen.
  { rewrite <- (Forall2_length _ _ _ Hqs), <- (length_fmap TX.local_sequence_number), Hrows.
    by rewrite length_seqZ. }
  split; [rewrite Hseq, Hrows, Hlen; f_equal; lia|].
  assert ((TX.local_sequence_number <$> rows) !! Z.to_nat (TX.local_sequence_number r - 1)
          = Some (TX.local_sequence_number r)) as Hi.
  { rewrite Hrows. apply lookup_seqZ. lia. }
  rewrite list_lookup_fmap in Hi. apply fmap_Some in Hi as (x & Hx & Heq).
  destruct (Forall2_lookup_l _ _ _ _ _ Hqs Hx) as (q & Hq & Hd). exists q. split; [done|].
  apply list_elem_of_lookup_2, elem_of_select_offline_transactions in Hx as [_ [k' Hk']].
  assert (k' = k) as -> by (by eapply (ok_sequence_unique _ Hok)). by simplify_eq.
Qed.

Context `{UuidLibrary} {laws : JsonLaws}.

(** C32. A transaction that was enqueued is never lost: after any later
    history, with any failures, the queue loads completely, in the order of
    the sequence numbers 1, 2, .., and at the place of the assigned sequence
    stands the transaction, with the identity, credential, time, policy
    version, decision and envelope of its draft (as long as no transaction
    was attempted 2^32 times). *)
Theorem enqueued_transaction_durable calls script more id draft q :
  outcome (enqueue_offline_transaction id draft) (MkDb (reader_history empty_tables calls) script)
    = Ok q ->
  let t := reader_history empty_tables (calls ++ (EnqueueOfflineTransaction id draft, script) :: more) in
  (forall k r, offline_transactions t !! k = Some r -> TX.attempt_count r <= 4294967295) ->
  exists qs q', outcome (load_offline_queue id) (MkDb t []) = Ok qs
    /\ (fun q => LocalSequenceNumber.value (QOT.local_sequence_number q)) <$> qs
       = seqZ 1 (Z.of_nat (length qs))
    /\ qs !! Z.to_nat (LocalSequenceNumber.value (QOT.local_sequence_number q) - 1) = Some q'
    /\ keeps_draft id draft (LocalSequenceNumber.value (QOT.local_sequence_number q)) q'.
Proof using laws.
  intros Hq t Hatt. set (t1 := reader_history empty_tables calls) in *.
  set (t2 := reader_history t1 [(EnqueueOfflineTransaction id draft, script)]).
  assert (t = reader_history t2 more) as Ht by (unfold t, t2, t1, reader_history; by rewrite foldl_app).
  assert (store_ok t) as Hok by apply history_ok.
  assert (store_ok t2) as Hok2 by (apply reader_history_kept, history_ok).
  assert (evolved t2 t) as Hev by (rewrite Ht; by apply reader_history_kept).
  unfold outcome in Hq.
  destruct (enqueue_offline_transaction id draft (MkDb t1 script)) as [db o] eqn:Hrun. cbn in Hq.
  subst o.
  assert (t2 = tables db) as Ht2 by (unfold t2; cbn; unfold reported; by rewrite Hrun).
  apply enqueue_transparent, enqueue_inv in Hrun as (text & policy & Htext & -> & _ & Hrow).
  cbn [tables] in Hrow. rewrite <- Ht2 in Hrow.
  destruct (ev_transactions _ _ Hev _ _ Hrow) as (r & Hr & [Hi _ _ _]). cbn in Hi.
  destruct (ok_transactions _ Hok _ _ Hr) as (_ & _ & Hreader).
  destruct Hi as (Hi1 & Hi2 & Hi3 & Hi4 & Hi5 & Hi6 & Hi7 & Hi8 & Hi9).
  destruct (reader_state t) as [s|] eqn:Hs; [|done]. cbn in Hreader. injection Hreader as Hreader.
  assert (ReaderStateRow.reader_id s = id) as Hsid by congruence.
  destruct (load_offline_queue_total _ _ Hok Hs Hatt) as (qs & Hqs & Hall).
  destruct (seqZ_index _ _ _ _ _ Hok Hs Hr (eq_sym Hreader) Hall) as (Hseq & q' & Hq' & Hd).
  rewrite Hi3 in Hq'. rewrite Hsid in Hqs. exists qs, q'. split_and!; [done..|].
  destruct Hd as (D1 & D2 & D3 & D4 & D5 & D6 & D7 & D8 & _ & _ & _ & _ & D9 & _).
  unfold keeps_draft. split_and!; try congruence.
  - destruct (QOT.event_time q'), (OfflineTransactionDraft.event_time draft); cbn in *; congruence.
  - destruct (QOT.fare_policy_version q'), (OfflineTransactionDraft.fare_policy_version draft);
      cbn in *; congruence.
  - exists text. split; [done|]. by rewrite <- Hi8.
Qed.

End durability.


(** A second transaction enqueued, then submitted, failed and retried. *)
Lemma enqueued_transaction_durable_witness :
  let calls := take 2 sample_submission in
  let more := drop 3 sample_submission ++ sample_retry in
  exists q,
    outcome (enqueue_offline_transaction sample_reader (sample_draft 2))
      (MkDb (reader_history empty_tables calls) []) = Ok q
    /\ exists qs q',
         outcome (load_offline_queue sample_reader)
           (MkDb (reader_history empty_tables
              (calls ++ (EnqueueOfflineTransaction sample_reader (sample_draft 2), []) :: more)) [])
         = Ok qs
         /\ (fun q => LocalSequenceNumber.value (QOT.local_sequence_number q)) <$> qs
            = seqZ 1 (Z.of_nat (length qs))
         /\ qs !! Z.to_nat (LocalSequenceNumber.value (QOT.local_sequence_number q) - 1) = Some q'
         /\ keeps_draft sample_reader (sample_draft 2)
              (LocalSequenceNumber.value (QOT.local_sequence_number q)) q'.
Proof.
  intros calls more.
  destruct (is_ok_inv (outcome (enqueue_offline_transaction sample_reader (sample_draft 2))
    (MkDb (reader_history empty_tables calls) []))) as [q Hq]; [vm_compute; reflexivity|].
  exists q. split; [exact Hq|].
  apply (enqueued_transaction_durable calls [] more sample_reader (sample_draft 2) q Hq).
  match goal with |- context [offline_transactions ?t] =>
    assert (map_Forall (fun _ r => TX.attempt_count r <= 4294967295) (offline_transactions t)) as Hall
      by (refine (bool_decide_unpack _ _); vm_compute; exact I) end.
  exact Hall.
Defined.
