(* ===== verification/PersistenceReaderHealth.v ===== *)
(** * The health of the reader's queue (crates/persistence/src/reader_health.rs)

    One [SELECT] counts the rows of the queue, of the batches and of the
    acknowledgements by state, and [decode_health_snapshot] checks what it
    returns and computes the ages.  The theorem says what the snapshot means:
    for a well-formed store it accounts for every sequence number the reader
    ever gave out, and never reports invalid data. *)

From stdpp Require Import sorting.
From S2P Require Import Prelude Text JsonReference DomainMoney DomainIdentifier DomainTransaction.
From S2P Require Import DeviceProtocolValues DeviceProtocolSynchronization.
From S2P Require Import PersistenceSqlLogic.
From S2P Require Import PersistenceReaderStore PersistenceReaderIdentity PersistenceReaderQueue.
From S2P Require Import PersistenceReaderSync PersistenceReaderAcknowledgement.
From S2P Require Import PersistenceReaderApplication.
From S2P Require Import PersistenceReaderInvariant PersistenceReaderHistory.
From S2P Require Import PersistenceReaderExample PersistenceReaderDurability.

(** [u64::saturating_add]. *)
Definition u64_saturating_add (a b : Z) : Z := Z.min (a + b) u64_max.

Module ReaderQueueHealthCounts.

Record t := mk {
  pending : Z;
  in_flight : Z;
  acknowledged : Z;
  retryable_failure : Z;
  permanent_failure : Z;
  manual_review : Z
}.

Definition total (self : t) : Z :=
  u64_saturating_add
    (u64_saturating_add
       (u64_saturating_add
          (u64_saturating_add
             (u64_saturating_add (pending self) (in_flight self)) (acknowledged self))
          (retryable_failure self))
       (permanent_failure self))
    (manual_review self).

Definition unresolved (self : t) : Z :=
  u64_saturating_add
    (u64_saturating_add (u64_saturating_add (pending self) (in_flight self))
       (retryable_failure self))
    (manual_review self).

Definition retained_failures (self : t) : Z :=
  u64_saturating_add (u64_saturating_add (retryable_failure self) (permanent_failure self))
    (manual_review self).

End ReaderQueueHealthCounts.

Module ReaderSynchronizationHealthCounts.

Record t := mk {
  prepared_batches : Z;
  in_flight_batches : Z;
  retryable_batches : Z;
  unapplied_acknowledgements : Z
}.

Definition active_batches (self : t) : Z :=
  u64_saturating_add (u64_saturating_add (prepared_batches self) (in_flight_batches self))
    (retryable_batches self).

End ReaderSynchronizationHealthCounts.

Module ReaderQueueHealthSnapshot.

Record t := mk {
  reader_id : ReaderId;
  observed_at_unix_milliseconds : Z;
  next_local_sequence : Z;
  last_acknowledged_sequence : Z;
  queue_counts : ReaderQueueHealthCounts.t;
  synchronization_counts : ReaderSynchronizationHealthCounts.t;
  lowest_unresolved_sequence : option Z;
  oldest_unresolved_age_milliseconds : option Z;
  next_retry_at_unix_milliseconds : option Z
}.

Definition has_pending_work (self : t) : bool :=
  (0 <? ReaderQueueHealthCounts.unresolved (queue_counts self))
  || (0 <? ReaderSynchronizationHealthCounts.active_batches (synchronization_counts self))
  || (0 <? ReaderSynchronizationHealthCounts.unapplied_acknowledgements
           (synchronization_counts self)).

Definition requires_operator_attention (self : t) : bool :=
  (0 <? ReaderQueueHealthCounts.permanent_failure (queue_counts self))
  || (0 <? ReaderQueueHealthCounts.manual_review (queue_counts self)).

End ReaderQueueHealthSnapshot.

Module ReaderHealthError.

Inductive t :=
| NegativeObservationTime (unix_milliseconds : Z)
| ReaderNotFound (reader_id : ReaderId)
| ObservationBeforeQueueActivity (observed_at_unix_milliseconds stored_at_unix_milliseconds : Z)
| InvalidStoredValue (field : Str)
| Database (operation : Str) (source : SqlError).

#[global] Instance eq_dec : EqDecision t.
Proof. solve_decision. Defined.

Definition database (operation : Str) (source : SqlError) : t := Database operation source.
Definition invalid_stored_value (field : Str) : t := InvalidStoredValue field.

End ReaderHealthError.

Module StoredReaderQueueHealth.

Record t := mk {
  next_local_sequence : Z;
  last_acknowledged_sequence : Z;
  pending_count : Z;
  in_flight_count : Z;
  acknowledged_count : Z;
  retryable_failure_count : Z;
  permanent_failure_count : Z;
  manual_review_count : Z;
  prepared_batch_count : Z;
  in_flight_batch_count : Z;
  retryable_batch_count : Z;
  unapplied_acknowledgement_count : Z;
  lowest_unresolved_sequence : option Z;
  oldest_unresolved_created_at_unix_milliseconds : option Z;
  next_retry_at_unix_milliseconds : option Z
}.

End StoredReaderQueueHealth.

Module Counts := ReaderQueueHealthCounts.
Module SyncCounts := ReaderSynchronizationHealthCounts.
Module Snapshot := ReaderQueueHealthSnapshot.
Module Stored := StoredReaderQueueHealth.

(** ** Aggregates *)

(** [SELECT COUNT( * ) .. WHERE p]. *)
Definition sql_count {R} (p : R -> bool) (rows : list R) : Z :=
  Z.of_nat (length (base.filter (fun r => p r = true) rows)).

(** [MIN]: the least of the values, and [NULL] when there is none. *)
Fixpoint sql_min (values : list Z) : option Z :=
  match values with
  | [] => None
  | z :: values' => Some (match sql_min values' with Some z' => Z.min z z' | None => z end)
  end.

(** [SELECT MIN(column) .. WHERE p]: [MIN] passes over [NULL]. *)
Definition sql_min_where {R} (column : R -> option Z) (p : R -> bool) (rows : list R) : option Z :=
  sql_min (omap column (base.filter (fun r => p r = true) rows)).

(** The rows of the three tables. *)
Definition transaction_rows (t : ReaderTables) : list OfflineTransactionRow.t :=
  (map_to_list (offline_transactions t)).*2.
Definition batch_rows (t : ReaderTables) : list BatchRow.t :=
  (map_to_list (synchronization_batches t)).*2.
Definition acknowledgement_rows (t : ReaderTables) : list AcknowledgementRow.t :=
  (map_to_list (synchronization_acknowledgements t)).*2.

(** [reader_id = reader.reader_id AND queue_state = ..]. *)
Definition in_queue_state (reader_id : ReaderId) (state : OfflineQueueState.t)
    (r : OfflineTransactionRow.t) : bool :=
  bool_decide (OfflineTransactionRow.reader_id r = reader_id)
  && bool_decide (OfflineTransactionRow.queue_state r = state).

(** [queue_state IN ('pending', 'in_flight', 'retryable_failure',
    'manual_review')]. *)
Definition in_unresolved_state (reader_id : ReaderId) (r : OfflineTransactionRow.t) : bool :=
  bool_decide (OfflineTransactionRow.reader_id r = reader_id)
  && bool_decide (OfflineTransactionRow.queue_state r
       ∈ [OfflineQueueState.Pending; OfflineQueueState.InFlight;
          OfflineQueueState.RetryableFailure; OfflineQueueState.ManualReview]).

Definition in_batch_state (reader_id : ReaderId) (state : SynchronizationBatchState.t)
    (b : BatchRow.t) : bool :=
  bool_decide (BatchRow.reader_id b = reader_id) && bool_decide (BatchRow.batch_state b = state).

Definition is_unapplied (reader_id : ReaderId) (a : AcknowledgementRow.t) : bool :=
  bool_decide (AcknowledgementRow.reader_id a = reader_id)
  && bool_decide (AcknowledgementRow.applied_at a = None).

(** The statement of [load_reader_queue_health]. *)
Definition select_queue_health (reader_id : ReaderId) (t : ReaderTables) : option Stored.t :=
  let transactions := transaction_rows t in
  let queued state := sql_count (in_queue_state reader_id state) transactions in
  let batches state := sql_count (in_batch_state reader_id state) (batch_rows t) in
  match reader_state t with
  | Some reader =>
      if decide (ReaderStateRow.reader_id reader = reader_id) then
        Some (Stored.mk
          (ReaderStateRow.next_local_sequence reader)
          (ReaderStateRow.last_acknowledged_sequence reader)
          (queued OfflineQueueState.Pending)
          (queued OfflineQueueState.InFlight)
          (queued OfflineQueueState.Acknowledged)
          (queued OfflineQueueState.RetryableFailure)
          (queued OfflineQueueState.PermanentFailure)
          (queued OfflineQueueState.ManualReview)
          (batches SynchronizationBatchState.Prepared)
          (batches SynchronizationBatchState.InFlight)
          (batches SynchronizationBatchState.RetryableFailure)
          (sql_count (is_unapplied reader_id) (acknowledgement_rows t))
          (sql_min_where (fun r => Some (OfflineTransactionRow.local_sequence_number r))
             (in_unresolved_state reader_id) transactions)
          (sql_min_where (fun r => Some (OfflineTransactionRow.created_at r))
             (in_unresolved_state reader_id) transactions)
          (sql_min_where OfflineTransactionRow.next_retry_at
             (in_queue_state reader_id OfflineQueueState.RetryableFailure) transactions))
      else None
  | None => None
  end.

(** ** Decoding *)

Definition nonnegative_u64 (value : Z) (field : Str) : Result ReaderHealthError.t Z :=
  ok_or (u64_try_from value) (ReaderHealthError.invalid_stored_value field).

Definition positive_u64 (value : Z) (field : Str) : Result ReaderHealthError.t Z :=
  value ← nonnegative_u64 value field;
  if value =? 0 then Err (ReaderHealthError.invalid_stored_value field) else Ok value.

Definition count (value : Z) (field : Str) : Result ReaderHealthError.t Z :=
  nonnegative_u64 value field.

Definition optional_positive_u64 (value : option Z) (field : Str)
  : Result ReaderHealthError.t (option Z) :=
  match value with
  | Some value => map_ok Some (positive_u64 value field)
  | None => Ok None
  end.

Definition optional_nonnegative_i64 (value : option Z) (field : Str)
  : Result ReaderHealthError.t (option Z) :=
  match value with
  | Some value =>
      if value <? 0 then Err (ReaderHealthError.invalid_stored_value field) else Ok (Some value)
  | None => Ok None
  end.

Definition decode_health_snapshot (reader_id : ReaderId) (observed_at_unix_milliseconds : Z)
    (stored : Stored.t) : Result ReaderHealthError.t Snapshot.t :=
  let invalid field := Err (ReaderHealthError.invalid_stored_value (lit field)) in
  next_local_sequence ←
    positive_u64 (Stored.next_local_sequence stored) (lit "next_local_sequence");
  last_acknowledged_sequence ←
    nonnegative_u64 (Stored.last_acknowledged_sequence stored) (lit "last_acknowledged_sequence");
  if next_local_sequence <=? last_acknowledged_sequence then invalid "last_acknowledged_sequence"
  else
    pending ← count (Stored.pending_count stored) (lit "pending_count");
    in_flight ← count (Stored.in_flight_count stored) (lit "in_flight_count");
    acknowledged ← count (Stored.acknowledged_count stored) (lit "acknowledged_count");
    retryable_failure ←
      count (Stored.retryable_failure_count stored) (lit "retryable_failure_count");
    permanent_failure ←
      count (Stored.permanent_failure_count stored) (lit "permanent_failure_count");
    manual_review ← count (Stored.manual_review_count stored) (lit "manual_review_count");
    let queue_counts :=
      Counts.mk pending in_flight acknowledged retryable_failure permanent_failure
        manual_review in
    prepared_batches ← count (Stored.prepared_batch_count stored) (lit "prepared_batch_count");
    in_flight_batches ← count (Stored.in_flight_batch_count stored) (lit "in_flight_batch_count");
    retryable_batches ← count (Stored.retryable_batch_count stored) (lit "retryable_batch_count");
    unapplied_acknowledgements ←
      count (Stored.unapplied_acknowledgement_count stored)
        (lit "unapplied_acknowledgement_count");
    let synchronization_counts :=
      SyncCounts.mk prepared_batches in_flight_batches retryable_batches
        unapplied_acknowledgements in
    lowest_unresolved_sequence ←
      optional_positive_u64 (Stored.lowest_unresolved_sequence stored)
        (lit "lowest_unresolved_sequence");
    oldest_created_at ←
      optional_nonnegative_i64 (Stored.oldest_unresolved_created_at_unix_milliseconds stored)
        (lit "oldest_unresolved_created_at_unix_milliseconds");
    if xorb (bool_decide (is_Some lowest_unresolved_sequence)) (bool_decide (is_Some oldest_created_at))
    then
      invalid "unresolved_queue_metadata"
    else
      oldest_unresolved_age_milliseconds ←
        match oldest_created_at with
        | Some created_at =>
            if observed_at_unix_milliseconds <? created_at then
              Err (ReaderHealthError.ObservationBeforeQueueActivity
                     observed_at_unix_milliseconds created_at)
            else
              map_ok Some
                (ok_or (u64_try_from (observed_at_unix_milliseconds - created_at))
                   (ReaderHealthError.invalid_stored_value
                      (lit "oldest_unresolved_age_milliseconds")))
        | None => Ok None
        end;
      next_retry_at_unix_milliseconds ←
        optional_nonnegative_i64 (Stored.next_retry_at_unix_milliseconds stored)
          (lit "next_retry_at_unix_milliseconds");
      Ok (Snapshot.mk reader_id observed_at_unix_milliseconds next_local_sequence
            last_acknowledged_sequence queue_counts synchronization_counts
            lowest_unresolved_sequence oldest_unresolved_age_milliseconds
            next_retry_at_unix_milliseconds).

Definition load_reader_queue_health (reader_id : ReaderId) (observed_at_unix_milliseconds : Z)
  : Mut ReaderDb ReaderHealthError.t Snapshot.t :=
  if observed_at_unix_milliseconds <? 0 then
    fail (ReaderHealthError.NegativeObservationTime observed_at_unix_milliseconds)
  else
    found ← query (ReaderHealthError.database (lit "load queue health"))
              (select_queue_health reader_id);
    stored ← lift (ok_or found (ReaderHealthError.ReaderNotFound reader_id));
    lift (decode_health_snapshot reader_id observed_at_unix_milliseconds stored).

(** The health of the sample store after its cycle, and at a time before the
    queue was written. *)
Example sample_health :
  (load_reader_queue_health sample_reader 9000 (MkDb sample_tables [])).2
  = Ok (Snapshot.mk sample_reader 9000 3 1 (Counts.mk 0 0 1 1 0 0) (SyncCounts.mk 0 0 0 0)
          (Some 2) (Some 8000) (Some 9000))
  /\ (load_reader_queue_health sample_reader 999 (MkDb sample_tables [])).2
     = Err (ReaderHealthError.ObservationBeforeQueueActivity 999 1000).
Proof. vm_compute. done. Qed.

(** ** Aggregates, characterised *)

Lemma sql_count_range {R} (p : R -> bool) (rows : list R) :
  0 <= sql_count p rows <= Z.of_nat (length rows).
Proof. unfold sql_count. pose proof (length_filter (fun r => p r = true) rows). lia. Qed.

Lemma sql_count_cons {R} (p : R -> bool) r (rows : list R) :
  sql_count p (r :: rows) = (if p r then 1 else 0) + sql_count p rows.
Proof. unfold sql_count. rewrite filter_cons. destruct (p r); case_decide; cbn [length]; lia. Qed.

Lemma sql_count_pos {R} (p : R -> bool) (rows : list R) :
  0 < sql_count p rows <-> exists r, r ∈ rows /\ p r = true.
Proof.
  unfold sql_count. split.
  - destruct (base.filter _ rows) as [|r l] eqn:Hl; [cbn; lia|]. intros _. exists r.
    apply and_comm. apply (list_elem_of_filter (fun r => p r = true)). rewrite Hl. by left.
  - intros (r & Hr & Hp).
    assert (r ∈ base.filter (fun r => p r = true) rows) as Hin by by apply list_elem_of_filter.
    apply list_elem_of_split in Hin as (l1 & l2 & ->). rewrite length_app. cbn. lia.
Qed.

Lemma sql_min_None values : sql_min values = None <-> values = [].
Proof. destruct values; naive_solver. Qed.

Lemma sql_min_Some values z :
  sql_min values = Some z -> z ∈ values /\ forall z', z' ∈ values -> z <= z'.
Proof.
  revert z. induction values as [|y values IH]; intros z; [done|]. cbn. intros [= <-].
  destruct (sql_min values) as [x|] eqn:Hx.
  - destruct (IH _ eq_refl) as [Hin Hle]. split.
    + destruct (Z.min_spec y x) as [[_ ->]|[_ ->]]; [by left|by right].
    + intros z' [->|Hz']%elem_of_cons; [lia|]. specialize (Hle _ Hz'). lia.
  - apply sql_min_None in Hx as ->. split; [by left|].
    intros z' [->|Hz']%elem_of_cons; [lia|by apply elem_of_nil in Hz'].
Qed.

Lemma sql_min_where_spec {R} (column : R -> option Z) p (rows : list R) :
  match sql_min_where column p rows with
  | Some z =>
      (exists r, r ∈ rows /\ p r = true /\ column r = Some z)
      /\ forall r z', r ∈ rows -> p r = true -> column r = Some z' -> z <= z'
  | None => forall r, r ∈ rows -> p r = true -> column r = None
  end.
Proof.
  unfold sql_min_where.
  assert (forall z, z ∈ omap column (base.filter (fun r => p r = true) rows)
    <-> exists r, r ∈ rows /\ p r = true /\ column r = Some z) as Hin.
  { intros z. rewrite list_elem_of_omap. setoid_rewrite list_elem_of_filter. naive_solver. }
  destruct (sql_min _) as [z|] eqn:Hz.
  - apply sql_min_Some in Hz as [Hz Hle]. split; [by apply Hin|]. intros. apply Hle, Hin. eauto.
  - apply sql_min_None in Hz. intros r Hr Hp. destruct (column r) as [z|] eqn:Hc; [|done].
    exfalso. assert (z ∈ @nil Z) as []%elem_of_nil. rewrite <- Hz. apply Hin. eauto.
Qed.

(** ** What a snapshot means *)

(** A row of the queue in a state; a row that is not resolved. *)
Definition queued (t : ReaderTables) (state : OfflineQueueState.t) (r : OTR) : Prop :=
  r ∈ transaction_rows t /\ TX.queue_state r = state.
Definition waiting (t : ReaderTables) (r : OTR) : Prop := r ∈ transaction_rows t /\ ~ resolved r.

(** The number of rows of a table that satisfy a property. *)
Definition rows_where {K R} `{Countable K} (P : R -> Prop) `{!forall r, Decision (P r)}
    (m : gmap K R) : Z :=
  Z.of_nat (size (filter (fun kr : K * R => P kr.2) m)).

(** [least P f z]: [z] is the least value of [f] where [P] holds. *)
Definition least {R} (P : R -> Prop) (f : R -> option Z) (z : option Z) : Prop :=
  match z with
  | Some z => (exists r, P r /\ f r = Some z) /\ forall r z', P r -> f r = Some z' -> z <= z'
  | None => forall r, P r -> f r = None
  end.

Record health_describes (t : ReaderTables) (s : ReaderStateRow.t) (observed : Z)
    (h : Snapshot.t) : Prop := {
  hd_reader : Snapshot.reader_id h = ReaderStateRow.reader_id s
    /\ Snapshot.observed_at_unix_milliseconds h = observed
    /\ Snapshot.next_local_sequence h = ReaderStateRow.next_local_sequence s
    /\ Snapshot.last_acknowledged_sequence h = ReaderStateRow.last_acknowledged_sequence s;
  (** Each count is the number of rows in its state. *)
  hd_pending_count : Counts.pending (Snapshot.queue_counts h)
    = rows_where (fun r => TX.queue_state r = OfflineQueueState.Pending) (offline_transactions t);
  hd_in_flight_count : Counts.in_flight (Snapshot.queue_counts h)
    = rows_where (fun r => TX.queue_state r = OfflineQueueState.InFlight) (offline_transactions t);
  hd_acknowledged_count : Counts.acknowledged (Snapshot.queue_counts h)
    = rows_where (fun r => TX.queue_state r = OfflineQueueState.Acknowledged)
        (offline_transactions t);
  hd_retryable_count : Counts.retryable_failure (Snapshot.queue_counts h)
    = rows_where (fun r => TX.queue_state r = OfflineQueueState.RetryableFailure)
        (offline_transactions t);
  hd_permanent_count : Counts.permanent_failure (Snapshot.queue_counts h)
    = rows_where (fun r => TX.queue_state r = OfflineQueueState.PermanentFailure)
        (offline_transactions t);
  hd_review_count : Counts.manual_review (Snapshot.queue_counts h)
    = rows_where (fun r => TX.queue_state r = OfflineQueueState.ManualReview)
        (offline_transactions t);
  hd_prepared_batches : SyncCounts.prepared_batches (Snapshot.synchronization_counts h)
    = rows_where (fun b => BatchRow.batch_state b = SynchronizationBatchState.Prepared)
        (synchronization_batches t);
  hd_in_flight_batches : SyncCounts.in_flight_batches (Snapshot.synchronization_counts h)
    = rows_where (fun b => BatchRow.batch_state b = SynchronizationBatchState.InFlight)
        (synchronization_batches t);
  hd_retryable_batches : SyncCounts.retryable_batches (Snapshot.synchronization_counts h)
    = rows_where (fun b => BatchRow.batch_state b = SynchronizationBatchState.RetryableFailure)
        (synchronization_batches t);
  hd_unapplied : SyncCounts.unapplied_acknowledgements (Snapshot.synchronization_counts h)
    = rows_where (fun a => AcknowledgementRow.applied_at a = None)
        (synchronization_acknowledgements t);
  (** The sums do not saturate. *)
  hd_unresolved_sum : Counts.unresolved (Snapshot.queue_counts h)
    = rows_where (fun r => ~ resolved r) (offline_transactions t);
  hd_retained : Counts.retained_failures (Snapshot.queue_counts h)
    = Counts.retryable_failure (Snapshot.queue_counts h)
      + Counts.permanent_failure (Snapshot.queue_counts h)
      + Counts.manual_review (Snapshot.queue_counts h);
  hd_active : SyncCounts.active_batches (Snapshot.synchronization_counts h)
    = rows_where (fun b => ReaderQueueState.is_active (BatchRow.batch_state b) = true)
        (synchronization_batches t);
  (** Every sequence number given out is counted, once. *)
  hd_accounted : Counts.total (Snapshot.queue_counts h) = ReaderStateRow.next_local_sequence s - 1
    /\ Counts.total (Snapshot.queue_counts h)
       = Counts.unresolved (Snapshot.queue_counts h)
         + Counts.acknowledged (Snapshot.queue_counts h)
         + Counts.permanent_failure (Snapshot.queue_counts h);
  hd_unresolved : 0 < Counts.unresolved (Snapshot.queue_counts h) <-> exists r, waiting t r;
  (** The lowest unresolved sequence lies above the acknowledged one. *)
  hd_lowest : least (waiting t) (fun r => Some (TX.local_sequence_number r))
      (Snapshot.lowest_unresolved_sequence h)
    /\ forall n, Snapshot.lowest_unresolved_sequence h = Some n ->
       ReaderStateRow.last_acknowledged_sequence s < n < ReaderStateRow.next_local_sequence s;
  hd_oldest : least (waiting t) (fun r => Some (TX.created_at r))
      ((fun age => observed - age) <$> Snapshot.oldest_unresolved_age_milliseconds h)
    /\ forall age, Snapshot.oldest_unresolved_age_milliseconds h = Some age -> 0 <= age;
  hd_retry : least (queued t OfflineQueueState.RetryableFailure) TX.next_retry_at
      (Snapshot.next_retry_at_unix_milliseconds h);
  hd_pending : Snapshot.has_pending_work h = true <->
    (exists r, waiting t r)
    \/ (exists id, batch_active t id)
    \/ (exists a, a ∈ acknowledgement_rows t /\ AcknowledgementRow.applied_at a = None
          /\ AcknowledgementRow.reader_id a = ReaderStateRow.reader_id s);
  hd_attention : Snapshot.requires_operator_attention h = true <->
    exists r, queued t OfflineQueueState.PermanentFailure r
      \/ queued t OfflineQueueState.ManualReview r
}.

(** What a call with no fault answers. *)
Definition health_answer (t : ReaderTables) (reader_id : ReaderId) (observed : Z)
    (r : Result ReaderHealthError.t Snapshot.t) : Prop :=
  match r with
  | Ok h => 0 <= observed /\ exists s, reader_state t = Some s
      /\ ReaderStateRow.reader_id s = reader_id /\ health_describes t s observed h
  | Err (ReaderHealthError.NegativeObservationTime z) => z = observed /\ observed < 0
  | Err (ReaderHealthError.ReaderNotFound id) =>
      id = reader_id /\ 0 <= observed
      /\ ReaderStateRow.reader_id <$> reader_state t <> Some reader_id
  | Err (ReaderHealthError.ObservationBeforeQueueActivity o stored) =>
      o = observed /\ 0 <= observed < stored
      /\ least (waiting t) (fun r => Some (TX.created_at r)) (Some stored)
  | Err (ReaderHealthError.InvalidStoredValue _) | Err (ReaderHealthError.Database _ _) => False
  end.

(** SQLite numbers the rows of a table by positive 64-bit integers. *)
Definition tables_fit (t : ReaderTables) : Prop :=
  Z.of_nat (size (synchronization_batches t)) <= i64_max
  /\ Z.of_nat (size (synchronization_acknowledgements t)) <= i64_max.

(** A count over the rows of a table, as a number of rows of the map. *)
Lemma sql_count_rows {K R} `{Countable K} (p : R -> bool) (P : R -> Prop)
    `{!forall r, Decision (P r)} (m : gmap K R) :
  (forall k r, m !! k = Some r -> p r = true <-> P r) ->
  sql_count p (map_to_list m).*2 = rows_where P m.
Proof.
  unfold rows_where. induction m as [|k r m Hk IH] using map_ind; intros Hp.
  { by rewrite map_to_list_empty, map_filter_empty, map_size_empty. }
  unfold sql_count.
  rewrite (filter_Permutation _ _ _ (fmap_Permutation snd _ _ (map_to_list_insert m k r Hk))).
  change (sql_count p (r :: (map_to_list m).*2)
    = Z.of_nat (size (filter (fun kr : K * R => P kr.2) (<[k:=r]> m)))).
  rewrite sql_count_cons, IH.
  2: { intros k' r' Hr'. apply (Hp k'). rewrite lookup_insert_ne by congruence. done. }
  rewrite map_filter_insert, delete_id by done.
  pose proof (Hp k r (lookup_insert_eq m k r)) as Hr. cbn.
  case_decide as HP; [rewrite (proj2 Hr HP)|destruct (p r); [by destruct HP; apply Hr|done]].
  rewrite map_size_insert_None by (by rewrite map_lookup_filter, Hk). lia.
Qed.

(** ** The counts of a well-formed store *)

(** Evaluates the comparisons of constant states. *)
Ltac compute_states :=
  repeat match goal with
  | |- context [bool_decide ?P] =>
      let b := eval vm_compute in (bool_decide P) in
      match b with true => idtac | false => idtac end; change (bool_decide P) with b
  end.

Section counts.
Context `{JsonLibrary}.
Variable t : ReaderTables.
Variable s : ReaderStateRow.t.
Hypothesis ok : store_ok t.
Hypothesis bound : reader_state t = Some s.

Abbreviation reader := (ReaderStateRow.reader_id s).
Abbreviation queued_count state := (sql_count (in_queue_state reader state) (transaction_rows t)).
Abbreviation batch_count state := (sql_count (in_batch_state reader state) (batch_rows t)).

Lemma transaction_rows_lookup r :
  r ∈ transaction_rows t -> exists id, offline_transactions t !! id = Some r.
Proof.
  intros [[id r'] [-> Hin]]%list_elem_of_fmap. exists id. by apply elem_of_map_to_list in Hin.
Qed.

Lemma transaction_rows_reader r : r ∈ transaction_rows t -> TX.reader_id r = reader.
Proof using ok bound.
  intros [id Hr]%transaction_rows_lookup. destruct (ok_transactions _ ok _ _ Hr) as (_ & _ & He).
  rewrite bound in He. cbn in He. congruence.
Qed.

Lemma transaction_rows_length :
  Z.of_nat (length (transaction_rows t)) = ReaderStateRow.next_local_sequence s - 1.
Proof using ok bound.
  destruct (ok_state _ ok _ bound) as [Hcheck _].
  assert (0 < ReaderStateRow.next_local_sequence s) as Hpos.
  { unfold reader_state_check in Hcheck. rewrite !andb_true_iff in Hcheck. lia. }
  pose proof (f_equal length (queue_rows _ _ ok bound)) as Hlen.
  rewrite length_fmap, length_seqZ in Hlen. unfold select_offline_transactions in Hlen.
  rewrite (Permutation_length (order_by_permutation _ _)) in Hlen.
  rewrite filter_all in Hlen; [fold (transaction_rows t) in Hlen; lia|].
  intros r Hr. rewrite bool_decide_eq_true. by apply transaction_rows_reader.
Qed.

Lemma in_queue_state_iff state r :
  r ∈ transaction_rows t -> in_queue_state reader state r = true <-> TX.queue_state r = state.
Proof using ok bound.
  intros Hr%transaction_rows_reader. unfold in_queue_state.
  rewrite andb_true_iff, !bool_decide_eq_true. naive_solver.
Qed.

Lemma in_unresolved_state_iff r :
  r ∈ transaction_rows t -> in_unresolved_state reader r = true <-> ~ resolved r.
Proof using ok bound.
  intros Hr%transaction_rows_reader. unfold in_unresolved_state.
  rewrite andb_true_iff, !bool_decide_eq_true, Hr.
  destruct (TX.queue_state r); cbn; set_solver.
Qed.

Lemma queued_counts :
  queued_count OfflineQueueState.Pending + queued_count OfflineQueueState.InFlight
  + queued_count OfflineQueueState.Acknowledged + queued_count OfflineQueueState.RetryableFailure
  + queued_count OfflineQueueState.PermanentFailure + queued_count OfflineQueueState.ManualReview
  = ReaderStateRow.next_local_sequence s - 1
  /\ queued_count OfflineQueueState.Pending + queued_count OfflineQueueState.InFlight
     + queued_count OfflineQueueState.RetryableFailure
     + queued_count OfflineQueueState.ManualReview
     = sql_count (in_unresolved_state reader) (transaction_rows t).
Proof using ok bound.
  rewrite <- transaction_rows_length. pose proof transaction_rows_reader as Hreader.
  induction (transaction_rows t) as [|r rows IH]; [done|].
  destruct IH as [IH1 IH2]; [intros; apply Hreader; by right|].
  assert (TX.reader_id r = reader) as Hr by (apply Hreader; by left).
  rewrite !sql_count_cons. cbn [length]. unfold in_queue_state, in_unresolved_state in *.
  rewrite !(bool_decide_eq_true_2 _ Hr). cbn [andb].
  destruct (TX.queue_state r); compute_states; split; lia.
Qed.

(** A batch of the reader that is active. *)
Definition active_row (b : BatchRow.t) : bool :=
  bool_decide (BatchRow.reader_id b = reader) && ReaderQueueState.is_active (BatchRow.batch_state b).

Lemma batch_counts :
  batch_count SynchronizationBatchState.Prepared + batch_count SynchronizationBatchState.InFlight
  + batch_count SynchronizationBatchState.RetryableFailure
  = sql_count active_row (batch_rows t).
Proof using Type.
  induction (batch_rows t) as [|b rows IH]; [done|]. rewrite !sql_count_cons.
  unfold in_batch_state, active_row in *.
  destruct (decide (BatchRow.reader_id b = reader)) as [Hb|Hb];
    [rewrite !(bool_decide_eq_true_2 _ Hb)|rewrite !(bool_decide_eq_false_2 _ Hb)];
    cbn [andb]; [|lia].
  destruct (BatchRow.batch_state b); compute_states; cbn [ReaderQueueState.is_active]; lia.
Qed.

Lemma active_rows : (exists b, b ∈ batch_rows t /\ active_row b = true) <-> exists id, batch_active t id.
Proof using ok bound.
  unfold batch_active, batch_rows, active_row.
  setoid_rewrite andb_true_iff. setoid_rewrite bool_decide_eq_true. split.
  - intros (b & ([id b'] & -> & Hb)%list_elem_of_fmap & _ & Ha).
    apply elem_of_map_to_list in Hb. eauto.
  - intros (id & b & Hb & Ha). exists b. destruct (ok_batches _ ok _ _ Hb) as (_ & _ & He).
    rewrite bound in He. cbn in He. split_and!; [|congruence|done].
    apply list_elem_of_fmap. exists (id, b). by rewrite elem_of_map_to_list.
Qed.

End counts.

(** ** Decoding a well-formed store *)

Section decoding.
Context `{JsonLibrary}.
Variable t : ReaderTables.
Variable s : ReaderStateRow.t.
Hypothesis ok : store_ok t.
Hypothesis bound : reader_state t = Some s.
Hypothesis fit : tables_fit t.

Abbreviation reader := (ReaderStateRow.reader_id s).

Lemma nonnegative_Ok z field : 0 <= z <= i64_max -> nonnegative_u64 z field = Ok z.
Proof using Type.
  intros Hz. unfold nonnegative_u64, u64_try_from.
  by rewrite decide_True by (unfold in_u64, u64_max, i64_max in *; lia).
Qed.

Lemma count_Ok {R} (p : R -> bool) (rows : list R) field :
  Z.of_nat (length rows) <= i64_max -> count (sql_count p rows) field = Ok (sql_count p rows).
Proof using Type.
  intros Hlen. pose proof (sql_count_range p rows). apply nonnegative_Ok. lia.
Qed.

Lemma rows_fit : Z.of_nat (length (transaction_rows t)) <= i64_max
  /\ Z.of_nat (length (batch_rows t)) <= i64_max
  /\ Z.of_nat (length (acknowledgement_rows t)) <= i64_max.
Proof using ok bound fit.
  destruct fit as [Hb Ha]. destruct (ok_state _ ok _ bound) as [_ Hnext].
  rewrite (transaction_rows_length _ _ ok bound). unfold batch_rows, acknowledgement_rows.
  rewrite !length_fmap, !length_map_to_list. split_and!; [lia|done|done].
Qed.

(** The lowest unresolved sequence, the oldest unresolved row and the next
    retry, as the statement computes them. *)
Lemma least_select {R} (rows : list R) (P : R -> Prop) p column :
  (forall r, r ∈ rows -> p r = true <-> P r) ->
  least (fun r => r ∈ rows /\ P r) column (sql_min_where column p rows).
Proof using Type.
  intros Hp. pose proof (sql_min_where_spec column p rows) as Hmin.
  destruct (sql_min_where _ _ _) as [z|]; cbn.
  - destruct Hmin as [(r & Hr & Hpr & Hc) Hle]. split; [naive_solver|].
    intros r' z' [Hr' HP]. apply Hle; [done|]. by apply Hp.
  - intros r [Hr HP]. apply Hmin; [done|]. by apply Hp.
Qed.

Lemma waiting_least column :
  least (waiting t) column
    (sql_min_where column (in_unresolved_state reader) (transaction_rows t)).
Proof using ok bound.
  apply least_select. intros r. by apply in_unresolved_state_iff.
Qed.

Lemma waiting_row r :
  waiting t r ->
  ReaderStateRow.last_acknowledged_sequence s < TX.local_sequence_number r
    < ReaderStateRow.next_local_sequence s
  /\ 0 < TX.local_sequence_number r /\ 0 <= TX.created_at r.
Proof using ok bound.
  intros [[id Hr]%transaction_rows_lookup Hres].
  destruct (ok_transactions _ ok _ _ Hr) as (_ & [Hcheck _] & _).
  unfold offline_transaction_check in Hcheck. rewrite !andb_true_iff in Hcheck.
  assert (1 <= TX.local_sequence_number r < ReaderStateRow.next_local_sequence s) as Hn
    by (apply (ok_sequences _ ok _ _ bound); eauto).
  destruct (decide (TX.local_sequence_number r <= ReaderStateRow.last_acknowledged_sequence s));
    [|lia]. destruct Hres. by eapply (ok_acknowledged _ ok).
Qed.

Lemma retry_nonnegative r z :
  r ∈ transaction_rows t -> TX.next_retry_at r = Some z -> 0 <= z.
Proof using ok.
  intros [id Hr]%transaction_rows_lookup Hz.
  destruct (ok_transactions _ ok _ _ Hr) as (_ & [Hcheck _] & _).
  unfold offline_transaction_check in Hcheck. rewrite !andb_true_iff, Hz in Hcheck. cbn in Hcheck.
  lia.
Qed.

(** The counts and minima of the statement. *)
Abbreviation queued_count state := (sql_count (in_queue_state reader state) (transaction_rows t)).
Abbreviation batch_count state := (sql_count (in_batch_state reader state) (batch_rows t)).
Abbreviation lowest :=
  (sql_min_where (fun r => Some (TX.local_sequence_number r)) (in_unresolved_state reader)
     (transaction_rows t)).
Abbreviation oldest :=
  (sql_min_where (fun r => Some (TX.created_at r)) (in_unresolved_state reader)
     (transaction_rows t)).
Abbreviation retry :=
  (sql_min_where TX.next_retry_at (in_queue_state reader OfflineQueueState.RetryableFailure)
     (transaction_rows t)).

Definition snapshot_counts : Counts.t :=
  Counts.mk (queued_count OfflineQueueState.Pending) (queued_count OfflineQueueState.InFlight)
    (queued_count OfflineQueueState.Acknowledged) (queued_count OfflineQueueState.RetryableFailure)
    (queued_count OfflineQueueState.PermanentFailure)
    (queued_count OfflineQueueState.ManualReview).

Definition snapshot_sync : SyncCounts.t :=
  SyncCounts.mk (batch_count SynchronizationBatchState.Prepared)
    (batch_count SynchronizationBatchState.InFlight)
    (batch_count SynchronizationBatchState.RetryableFailure)
    (sql_count (is_unapplied reader) (acknowledgement_rows t)).

Definition queue_health_snapshot (observed : Z) : Snapshot.t :=
  Snapshot.mk reader observed (ReaderStateRow.next_local_sequence s)
    (ReaderStateRow.last_acknowledged_sequence s) snapshot_counts snapshot_sync lowest
    ((fun created => observed - created) <$> oldest) retry.

Lemma positive_Ok z field : 0 < z <= i64_max -> positive_u64 z field = Ok z.
Proof using Type.
  intros Hz. unfold positive_u64. rewrite nonnegative_Ok by lia. cbn.
  destruct (Z.eqb_spec z 0); [lia|done].
Qed.

Lemma lowest_oldest :
  (lowest = None /\ oldest = None)
  \/ (exists n c, lowest = Some n /\ oldest = Some c /\ 0 < n <= i64_max /\ 0 <= c).
Proof using ok bound.
  pose proof (waiting_least (fun r => Some (TX.local_sequence_number r))) as Hlow.
  pose proof (waiting_least (fun r => Some (TX.created_at r))) as Hold.
  destruct (ok_state _ ok _ bound) as [_ Hnext]. unfold least in *.
  destruct lowest as [n|], oldest as [c|]; [right|right|right|by left].
  - destruct Hlow as [(r & Hr & [= Hn]) _], Hold as [(r' & Hr' & [= Hc]) _].
    pose proof (waiting_row _ Hr). pose proof (waiting_row _ Hr'). exists n, c. split_and!; lia || done.
  - destruct Hlow as [(r & Hr & _) _]. by specialize (Hold _ Hr).
  - destruct Hold as [(r & Hr & _) _]. by specialize (Hlow _ Hr).
Qed.

Lemma retry_Ok field : optional_nonnegative_i64 retry field = Ok retry.
Proof using ok.
  pose proof (sql_min_where_spec TX.next_retry_at
    (in_queue_state reader OfflineQueueState.RetryableFailure) (transaction_rows t)) as Hmin.
  destruct retry as [z|]; [|done]. destruct Hmin as [(r & Hr & _ & Hz) _].
  pose proof (retry_nonnegative _ _ Hr Hz). cbn. by rewrite (proj2 (Z.ltb_ge _ _)).
Qed.

(** A well-formed store decodes, unless it was written after the
    observation. *)
Lemma decode_snapshot observed stored :
  in_i64 observed -> select_queue_health reader t = Some stored ->
  decode_health_snapshot reader observed stored
  = match oldest with
    | Some created =>
        if observed <? created then
          Err (ReaderHealthError.ObservationBeforeQueueActivity observed created)
        else Ok (queue_health_snapshot observed)
    | None => Ok (queue_health_snapshot observed)
    end.
Proof using ok bound fit.
  intros Hobs. unfold select_queue_health. rewrite bound, decide_True by done. intros [= <-].
  destruct (ok_state _ ok _ bound) as [Hcheck Hnext]. unfold reader_state_check in Hcheck.
  rewrite !andb_true_iff in Hcheck. destruct rows_fit as (Ht & Hb & Ha).
  unfold decode_health_snapshot.
  cbn [Stored.next_local_sequence Stored.last_acknowledged_sequence Stored.pending_count
       Stored.in_flight_count Stored.acknowledged_count Stored.retryable_failure_count
       Stored.permanent_failure_count Stored.manual_review_count Stored.prepared_batch_count
       Stored.in_flight_batch_count Stored.retryable_batch_count
       Stored.unapplied_acknowledgement_count Stored.lowest_unresolved_sequence
       Stored.oldest_unresolved_created_at_unix_milliseconds
       Stored.next_retry_at_unix_milliseconds].
  rewrite positive_Ok by lia. cbn [mbind Result_bind].
  rewrite (nonnegative_Ok (ReaderStateRow.last_acknowledged_sequence s)) by lia. cbn [mbind Result_bind].
  destruct (Z.leb_spec (ReaderStateRow.next_local_sequence s)
    (ReaderStateRow.last_acknowledged_sequence s)); [lia|].
  rewrite !count_Ok by done. cbn [mbind Result_bind].
  rewrite retry_Ok. fold snapshot_counts snapshot_sync.
  destruct lowest_oldest as [[Hlow Hold]|(n & c & Hlow & Hold & Hn & Hc)]; unfold queue_health_snapshot;
    rewrite Hlow, Hold; [done|].
  cbn [optional_positive_u64 optional_nonnegative_i64]. rewrite positive_Ok by done.
  rewrite (proj2 (Z.ltb_ge c 0)) by done. cbn [map_ok mbind Result_bind].
  rewrite !bool_decide_eq_true_2 by done. cbn [xorb].
  destruct (Z.ltb_spec observed c); [done|].
  unfold u64_try_from. rewrite decide_True; [done|].
  unfold in_i64, in_u64, u64_max, i64_min, i64_max in *. lia.
Qed.

Lemma saturating_small a b : a + b <= u64_max -> u64_saturating_add a b = a + b.
Proof using Type. intros. unfold u64_saturating_add. lia. Qed.

(** The totals do not saturate. *)
Lemma snapshot_totals :
  Counts.total snapshot_counts = ReaderStateRow.next_local_sequence s - 1
  /\ Counts.unresolved snapshot_counts
     = sql_count (in_unresolved_state reader) (transaction_rows t)
  /\ Counts.total snapshot_counts
     = Counts.unresolved snapshot_counts + Counts.acknowledged snapshot_counts
       + Counts.permanent_failure snapshot_counts.
Proof using ok bound.
  destruct (queued_counts _ _ ok bound) as [Hall Hun]. destruct (ok_state _ ok _ bound) as [_ Hnext].
  assert (forall st, 0 <= queued_count st) as Hpos by (intros; apply sql_count_range).
  pose proof (Hpos OfflineQueueState.Pending). pose proof (Hpos OfflineQueueState.InFlight).
  pose proof (Hpos OfflineQueueState.Acknowledged).
  pose proof (Hpos OfflineQueueState.RetryableFailure).
  pose proof (Hpos OfflineQueueState.PermanentFailure).
  pose proof (Hpos OfflineQueueState.ManualReview).
  unfold Counts.total, Counts.unresolved, snapshot_counts.
  cbn [Counts.pending Counts.in_flight Counts.acknowledged Counts.retryable_failure
       Counts.permanent_failure Counts.manual_review].
  unfold u64_saturating_add, u64_max, i64_max in *. split_and!; lia.
Qed.

(** A count of the statement is a number of rows. *)
Lemma queued_count_rows state :
  queued_count state = rows_where (fun r => TX.queue_state r = state) (offline_transactions t).
Proof using ok bound.
  apply sql_count_rows. intros id r Hr. apply (in_queue_state_iff t s ok bound).
  apply list_elem_of_fmap. exists (id, r). by rewrite elem_of_map_to_list.
Qed.

Lemma batch_count_rows state :
  batch_count state = rows_where (fun b => BatchRow.batch_state b = state) (synchronization_batches t).
Proof using ok bound.
  apply sql_count_rows. intros id b Hb.
  destruct (store_ok_reader _ _ _ ok bound) as (_ & Hreader & _).
  unfold in_batch_state. rewrite andb_true_iff, !bool_decide_eq_true, (Hreader _ _ Hb). tauto.
Qed.

Lemma unapplied_count_rows :
  sql_count (is_unapplied reader) (acknowledgement_rows t)
  = rows_where (fun a => AcknowledgementRow.applied_at a = None) (synchronization_acknowledgements t).
Proof using ok bound.
  apply sql_count_rows. intros id a Ha.
  destruct (store_ok_reader _ _ _ ok bound) as (_ & _ & _ & Hreader & _).
  unfold is_unapplied. rewrite andb_true_iff, !bool_decide_eq_true, (Hreader _ _ Ha). tauto.
Qed.

Lemma unresolved_rows :
  Counts.unresolved snapshot_counts = rows_where (fun r => ~ resolved r) (offline_transactions t).
Proof using ok bound.
  destruct snapshot_totals as (_ & -> & _). apply sql_count_rows. intros id r Hr.
  apply (in_unresolved_state_iff t s ok bound).
  apply list_elem_of_fmap. exists (id, r). by rewrite elem_of_map_to_list.
Qed.

Lemma active_count_rows :
  SyncCounts.active_batches snapshot_sync
  = rows_where (fun b => ReaderQueueState.is_active (BatchRow.batch_state b) = true)
      (synchronization_batches t).
Proof using ok bound fit.
  transitivity (sql_count (active_row s) (batch_rows t)).
  - rewrite <- batch_counts. destruct rows_fit as (_ & Hb & _).
    pose proof (sql_count_range (active_row s) (batch_rows t)) as Hr.
    rewrite <- batch_counts in Hr.
    assert (forall st, 0 <= batch_count st) as Hpos by (intros; apply sql_count_range).
    pose proof (Hpos SynchronizationBatchState.Prepared).
    pose proof (Hpos SynchronizationBatchState.InFlight).
    pose proof (Hpos SynchronizationBatchState.RetryableFailure).
    unfold SyncCounts.active_batches, snapshot_sync, u64_saturating_add, u64_max, i64_max in *.
    cbn [SyncCounts.prepared_batches SyncCounts.in_flight_batches SyncCounts.retryable_batches].
    lia.
  - apply sql_count_rows. intros id b Hb.
    destruct (store_ok_reader _ _ _ ok bound) as (_ & Hreader & _).
    unfold active_row. rewrite andb_true_iff, !bool_decide_eq_true, (Hreader _ _ Hb). tauto.
Qed.

Lemma retained_sum :
  Counts.retained_failures snapshot_counts
  = Counts.retryable_failure snapshot_counts + Counts.permanent_failure snapshot_counts
    + Counts.manual_review snapshot_counts.
Proof using ok bound.
  destruct (queued_counts _ _ ok bound) as [Hall _]. destruct (ok_state _ ok _ bound) as [_ Hnext].
  assert (forall st, 0 <= queued_count st) as Hpos by (intros; apply sql_count_range).
  pose proof (Hpos OfflineQueueState.Pending). pose proof (Hpos OfflineQueueState.InFlight).
  pose proof (Hpos OfflineQueueState.Acknowledged).
  pose proof (Hpos OfflineQueueState.RetryableFailure).
  pose proof (Hpos OfflineQueueState.PermanentFailure).
  pose proof (Hpos OfflineQueueState.ManualReview).
  unfold Counts.retained_failures, snapshot_counts.
  cbn [Counts.retryable_failure Counts.permanent_failure Counts.manual_review].
  unfold u64_saturating_add, u64_max, i64_max in *. lia.
Qed.

Lemma waiting_count : 0 < Counts.unresolved snapshot_counts <-> exists r, waiting t r.
Proof using ok bound.
  destruct snapshot_totals as (_ & -> & _). rewrite sql_count_pos. unfold waiting.
  split; intros (r & Hr & Hp); exists r; (split; [done|]); by apply (in_unresolved_state_iff t s).
Qed.

Lemma queued_positive state : 0 < queued_count state <-> exists r, queued t state r.
Proof using ok bound.
  rewrite sql_count_pos. unfold queued.
  split; intros (r & Hr & Hp); exists r; (split; [done|]); by apply (in_queue_state_iff t s).
Qed.

Lemma active_count :
  0 < SyncCounts.active_batches snapshot_sync <-> exists id, batch_active t id.
Proof using ok bound.
  rewrite <- (active_rows _ _ ok bound), <- sql_count_pos, <- batch_counts.
  assert (forall st, 0 <= batch_count st) as Hpos by (intros; apply sql_count_range).
  pose proof (Hpos SynchronizationBatchState.Prepared).
  pose proof (Hpos SynchronizationBatchState.InFlight).
  pose proof (Hpos SynchronizationBatchState.RetryableFailure).
  unfold SyncCounts.active_batches, snapshot_sync, u64_saturating_add, u64_max.
  cbn [SyncCounts.prepared_batches SyncCounts.in_flight_batches SyncCounts.retryable_batches].
  lia.
Qed.

Lemma unapplied_count :
  0 < SyncCounts.unapplied_acknowledgements snapshot_sync
  <-> exists a, a ∈ acknowledgement_rows t /\ AcknowledgementRow.applied_at a = None
        /\ AcknowledgementRow.reader_id a = reader.
Proof using Type.
  cbn. rewrite sql_count_pos. unfold is_unapplied. setoid_rewrite andb_true_iff.
  setoid_rewrite bool_decide_eq_true. naive_solver.
Qed.

Lemma snapshot_describes observed :
  (forall created, oldest = Some created -> created <= observed) ->
  health_describes t s observed (queue_health_snapshot observed).
Proof using ok bound fit.
  intros Hold. destruct snapshot_totals as (Htotal & _ & Hsplit).
  split; unfold queue_health_snapshot; cbn [Snapshot.queue_counts Snapshot.lowest_unresolved_sequence
    Snapshot.oldest_unresolved_age_milliseconds Snapshot.next_retry_at_unix_milliseconds].
  - done.
  - apply queued_count_rows.
  - apply queued_count_rows.
  - apply queued_count_rows.
  - apply queued_count_rows.
  - apply queued_count_rows.
  - apply queued_count_rows.
  - apply batch_count_rows.
  - apply batch_count_rows.
  - apply batch_count_rows.
  - apply unapplied_count_rows.
  - apply unresolved_rows.
  - apply retained_sum.
  - apply active_count_rows.
  - by split.
  - apply waiting_count.
  - pose proof (waiting_least (fun r => Some (TX.local_sequence_number r))) as Hlow.
    split; [exact Hlow|]. intros n Hn. rewrite Hn in Hlow. destruct Hlow as [(r & Hr & [= <-]) _].
    by apply waiting_row.
  - rewrite <- option_fmap_compose. split.
    + rewrite (option_fmap_ext _ id), option_fmap_id by (intros; cbn; unfold id; lia).
      apply waiting_least.
    + destruct oldest as [c|]; [|done]. intros age [= <-]. specialize (Hold c eq_refl). lia.
  - apply least_select. intros r. by apply in_queue_state_iff.
  - unfold Snapshot.has_pending_work.
    cbn [Snapshot.queue_counts Snapshot.synchronization_counts].
    rewrite !orb_true_iff, !Z.ltb_lt, waiting_count, active_count, unapplied_count. tauto.
  - unfold Snapshot.requires_operator_attention. cbn [Snapshot.queue_counts].
    rewrite orb_true_iff, !Z.ltb_lt.
    change (0 < queued_count OfflineQueueState.PermanentFailure
            \/ 0 < queued_count OfflineQueueState.ManualReview
            <-> exists r, queued t OfflineQueueState.PermanentFailure r
                  \/ queued t OfflineQueueState.ManualReview r).
    rewrite !queued_positive. naive_solver.
Qed.

End decoding.

Lemma select_bound reader_id t stored :
  select_queue_health reader_id t = Some stored ->
  exists s, reader_state t = Some s /\ ReaderStateRow.reader_id s = reader_id.
Proof.
  unfold select_queue_health. destruct (reader_state t) as [s|]; [|done].
  case_decide; [|done]. eauto.
Qed.

Lemma select_unbound reader_id t :
  ReaderStateRow.reader_id <$> reader_state t = Some reader_id ->
  select_queue_health reader_id t <> None.
Proof.
  unfold select_queue_health. destruct (reader_state t) as [s|]; [|done].
  cbn. intros [= ->]. by rewrite decide_True.
Qed.

Lemma load_health_runs reader_id observed t faults :
  0 <= observed ->
  load_reader_queue_health reader_id observed (MkDb t faults)
  = (MkDb t (tail faults),
     match next_fault faults with
     | Some e => Err (ReaderHealthError.Database (lit "load queue health") e)
     | None =>
         stored ← ok_or (select_queue_health reader_id t)
                    (ReaderHealthError.ReaderNotFound reader_id);
         decode_health_snapshot reader_id observed stored
     end).
Proof.
  intros Hpos. unfold load_reader_queue_health, query, statement, lift.
  rewrite (proj2 (Z.ltb_ge _ _) Hpos). unfold mbind, Mut_bind.
  cbn [PersistenceSql.faults PersistenceSql.tables].
  destruct (next_fault faults); [done|]. by destruct (select_queue_health reader_id t).
Qed.

(** C29. The health report of a reader is truthful.  For a well-formed store,
    and unless the database fails, [load_reader_queue_health] leaves the
    tables alone and either returns a snapshot that describes the store, or
    refuses for the reason it gives: the time is negative, the database
    belongs to no or another reader, or the oldest waiting transaction was
    written after the observation.  It never reports invalid stored data.
    In the snapshot each of the six counts of transactions is the number of
    stored transactions in just that state, each of the three counts of
    batches the number of stored batches in that state, and the fourth the
    number of acknowledgements not applied; the unresolved, retained and
    active sums are exact.  It accounts for every sequence number given out once, its
    lowest unresolved sequence lies strictly between the acknowledged and the
    next one, its age is that of the oldest waiting transaction, and the
    reader has pending work exactly when a transaction waits, a batch is
    active or an acknowledgement is not applied. *)
Theorem reader_health_truthful `{JsonLibrary} (t : ReaderTables) (faults : list (option Fault))
    (reader_id : ReaderId) (observed : Z) :
  store_ok t -> tables_fit t -> in_i64 observed ->
  tables (load_reader_queue_health reader_id observed (MkDb t faults)).1 = t
  /\ match next_fault faults with
     | Some e =>
         0 <= observed -> (load_reader_queue_health reader_id observed (MkDb t faults)).2
         = Err (ReaderHealthError.Database (lit "load queue health") e)
     | None =>
         health_answer t reader_id observed
           (load_reader_queue_health reader_id observed (MkDb t faults)).2
     end.
Proof.
  intros Hok Hfit Hobs. destruct (Z.ltb_spec observed 0) as [Hneg|Hpos].
  { unfold load_reader_queue_health. rewrite (proj2 (Z.ltb_lt _ _) Hneg).
    split; [done|]. destruct (next_fault faults); [lia|by split]. }
  rewrite (load_health_runs _ _ _ _ Hpos). destruct (next_fault faults) as [e|]; [by split|].
  split; [done|]. cbn [snd].
  destruct (select_queue_health reader_id t) as [stored|] eqn:Hsel;
    cbn [ok_or mbind Result_bind].
  - apply select_bound in Hsel as Hs. destruct Hs as (s & Hs & <-).
    rewrite (decode_snapshot _ _ Hok Hs Hfit _ _ Hobs Hsel).
    pose proof (waiting_least _ _ Hok Hs (fun r => Some (TX.created_at r))) as Hold.
    pose proof (snapshot_describes _ _ Hok Hs Hfit observed) as Hd.
    destruct (sql_min_where _ _ _) as [c|]; [destruct (Z.ltb_spec observed c)|].
    + by split_and!.
    + split; [done|]. exists s. split_and!; [done..|]. apply Hd. intros c' [= <-]. lia.
    + split; [done|]. exists s. split_and!; [done..|]. by apply Hd.
  - split_and!; [done..|]. intros Hs. by apply (select_unbound _ _ Hs).
Qed.

(** At the sample store after its cycle: one transaction waits, so the reader
    has pending work, and the lowest unresolved sequence is 2. *)
Lemma reader_health_truthful_witness :
  tables (load_reader_queue_health sample_reader 9000 (MkDb sample_tables [])).1 = sample_tables
  /\ health_answer sample_tables sample_reader 9000
       (load_reader_queue_health sample_reader 9000 (MkDb sample_tables [])).2.
Proof.
  assert (store_ok sample_tables) as Hok
    by exact (history_ok (sample_submission ++ sample_retry ++ sample_acknowledged)).
  assert (tables_fit sample_tables) as Hfit by (split; vm_compute; discriminate).
  assert (in_i64 9000) as Hobs by (split; vm_compute; discriminate).
  exact (reader_health_truthful sample_tables [] sample_reader 9000 Hok Hfit Hobs).
Defined.
