(* ===== verification/PersistenceReaderRequest.v ===== *)
(** * A retried batch sends the same request

    The request assembled for a batch depends only on what never changes, so
    every submission of the batch sends the same message: the backend sees one
    identity and one fingerprint however often the reader retries.  A batch of
    more entries than the protocol allows has no request at all. *)

From S2P Require Import Prelude Text JsonReference DomainMoney DomainIdentifier DomainTransaction.
From S2P Require Import DeviceProtocolValues DeviceProtocolSynchronization DeviceProtocolFingerprint.
From S2P Require Import PersistenceReaderStore PersistenceReaderIdentity PersistenceReaderQueue.
From S2P Require Import PersistenceReaderSync PersistenceReaderAcknowledgement.
From S2P Require Import PersistenceReaderApplication PersistenceSqlLogic.
From S2P Require Import PersistenceReaderInvariant PersistenceReaderHistory.
From S2P Require Import PersistenceReaderExample DomainAccount.

Module SBE := SynchronizationBatchEntry.

(** ** The request of a batch *)

Section request.
Context `{JsonLibrary}.

Lemma decode_sequence_value v field l :
  ReaderSyncRequest.decode_sequence v field = Ok l -> LocalSequenceNumber.value l = v.
Proof.
  unfold ReaderSyncRequest.decode_sequence. intros Hd. result_inv. subst.
  unfold LocalSequenceNumber.new in *. by case_match; result_inv.
Qed.

(** Everything a request is made of. *)
Lemma load_request_inv id bid t r :
  outcome (ReaderSyncRequest.load_synchronization_batch_request id bid) (MkDb t []) = Ok r ->
  exists b s submitted version first last es environment software,
    ReaderSync.find_batch id bid t = Some b
    /\ BatchRow.batch_state b = SynchronizationBatchState.InFlight
    /\ BatchRow.submitted_at b = Some submitted
    /\ reader_state t = Some s
    /\ ReaderSyncRequest.decode_protocol_version (BatchRow.protocol_version b) = Ok version
    /\ ReaderSyncRequest.decode_sequence (BatchRow.first_local_sequence_number b)
         (lit "first_local_sequence_number") = Ok first
    /\ ReaderSyncRequest.decode_sequence (BatchRow.last_local_sequence_number b)
         (lit "last_local_sequence_number") = Ok last
    /\ ReaderSyncRequest.decode_request_entries 0
         (ReaderSyncRequest.select_request_entries id bid t) = Ok es
    /\ ProtocolEnvironmentId.new (ReaderStateRow.environment_id s) = Ok environment
    /\ ReaderSoftwareVersion.new (ReaderStateRow.software_version s) = Ok software
    /\ SynchronizationBatchRequest.new (SynchronizationBatchRequestDefinition.mk version environment
         id software bid first last submitted es) = Ok r.
Proof.
  unfold outcome. intros Hload.
  destruct (ReaderSyncRequest.load_synchronization_batch_request id bid (MkDb t [])) as [db o] eqn:Hl.
  cbn in Hload. subst o. unfold ReaderSyncRequest.load_synchronization_batch_request in Hl.
  apply transaction_inv in Hl as (t' & script & Hl & _). invert_run.
  repeat match goal with H : ~ (?x <> ?y) |- _ =>
    assert (x = y) by (destruct (decide (x = y)); [done|by destruct H]); clear H end.
  simplify_eq. do 9 eexists. split_and!; try eassumption.
Qed.

Lemma sequence_outcome_transparent {A E} (m : Mut ReaderDb E A) t script a :
  transparent m -> outcome m (MkDb t script) = Ok a -> outcome m (MkDb t []) = Ok a.
Proof.
  unfold outcome. intros Hm Ho. destruct (m (MkDb t script)) as [db o] eqn:Hr. cbn in Ho. subst o.
  by rewrite (Hm _ _ _ _ Hr).
Qed.

(** The entries of a batch are fixed when it is created. *)
Lemma select_entries_stable id bid b t t' :
  evolved t t' -> ReaderSync.find_batch id bid t = Some b ->
  select_entries (ReaderSync.is_entry_of id bid) t' = select_entries (ReaderSync.is_entry_of id bid) t.
Proof.
  intros Hev Hb. destruct (ev_entries _ _ Hev) as (new & Heq & Hnew). unfold select_entries.
  rewrite Heq, filter_app.
  assert (base.filter (fun r => ReaderSync.is_entry_of id bid r = true) new = []) as ->;
    [|by rewrite app_nil_r].
  apply elem_of_nil_inv. intros e [Hp He]%list_elem_of_filter.
  apply bool_decide_eq_true in Hp as [Hid _].
  specialize (Hnew _ He). rewrite Hid in Hnew. unfold ReaderSync.find_batch in Hb.
  by rewrite Hnew in Hb.
Qed.

Lemma select_request_entries_stable id bid b t t' :
  store_ok t -> evolved t t' -> ReaderSync.find_batch id bid t = Some b ->
  ReaderSyncRequest.select_request_entries id bid t'
  = ReaderSyncRequest.select_request_entries id bid t.
Proof.
  intros Hok Hev Hb. unfold ReaderSyncRequest.select_request_entries.
  rewrite (select_entries_stable _ _ _ _ _ Hev Hb). apply omap_ext_in. intros e He.
  unfold select_entries in He. rewrite elem_of_order_by, list_elem_of_filter in He.
  destruct (ok_entries _ Hok e (proj2 He)) as [_ (x & Hx & _)]. rewrite Hx.
  destruct (ev_transactions _ _ Hev _ _ Hx) as (x' & Hx' & [Hi _ _ _]). rewrite Hx'. cbn.
  destruct Hi as (_ & -> & -> & _ & _ & _ & _ & -> & _). done.
Qed.

Lemma find_batch_stable id bid b t t' :
  evolved t t' -> ReaderSync.find_batch id bid t = Some b ->
  exists b', ReaderSync.find_batch id bid t' = Some b' /\ batch_evolved b b'.
Proof.
  intros Hev Hb. unfold ReaderSync.find_batch in *.
  destruct (synchronization_batches t !! bid) as [x|] eqn:Hx; [|done]. cbn in Hb.
  case_decide as Hid; [|done]. injection Hb as ->.
  destruct (ev_batches _ _ Hev _ _ Hx) as (b' & Hb' & He). exists b'. rewrite Hb'. cbn.
  assert (BatchRow.reader_id b' = BatchRow.reader_id b) as Hr by apply He.
  rewrite decide_True by congruence. done.
Qed.

(** The entry of a batch that a request entry stands for. *)
Definition batch_entry (s : SRE.t) : SBE.t :=
  SBE.mk (SRE.transaction_id s) (SRE.local_sequence_number s).

(** A sequence that the one reader decodes, the other decodes. *)
Lemma decode_sequence_same v field field' l :
  ReaderSyncRequest.decode_sequence v field = Ok l -> ReaderSync.decode_sequence v field' = Ok l.
Proof.
  unfold ReaderSyncRequest.decode_sequence, ReaderSync.decode_sequence.
  destruct (u64_try_from v) as [n|]; cbn; [|done].
  destruct (LocalSequenceNumber.new n); [by intros [= ->]|done].
Qed.

Lemma decode_positions_request position rows es :
  ReaderSyncRequest.decode_request_entries position rows = Ok es ->
  ReaderSync.decode_positions position rows.*1 = Ok (batch_entry <$> es).
Proof.
  revert position es. induction rows as [|[stored text] rows IH]; intros position es.
  { by intros [= <-]. }
  cbn [ReaderSyncRequest.decode_request_entries ReaderSync.decode_positions fmap list_fmap fst].
  destruct (u64_try_from (EntryRow.entry_position stored)) as [n|]; cbn [ok_or mbind Result_bind]; [|done].
  case_decide; [done|]. intros Hd. apply Result_bind_Ok in Hd as (l & Hl & Hd).
  apply Result_bind_Ok in Hd as (envelope & _ & Hd). apply Result_bind_Ok in Hd as (es' & Hes & [= <-]).
  unfold ReaderSync.decode_candidate. rewrite (decode_sequence_same _ _ _ _ Hl).
  cbn [mbind Result_bind]. by rewrite (IH _ _ Hes).
Qed.

(** Every entry of a well-formed store joins its transaction. *)
Lemma request_entries_joined t id bid :
  store_ok t ->
  (ReaderSyncRequest.select_request_entries id bid t).*1
  = select_entries (ReaderSync.is_entry_of id bid) t.
Proof.
  intros Hok. unfold ReaderSyncRequest.select_request_entries.
  assert (forall e : EntryRow.t, e ∈ select_entries (ReaderSync.is_entry_of id bid) t ->
    e ∈ synchronization_entries t) as Hin.
  { intros e He. unfold select_entries in He.
    by apply elem_of_order_by, list_elem_of_filter in He as [_ He]. }
  induction (select_entries _ t) as [|e l IH]; [done|]. cbn [omap list_omap].
  destruct (ok_entries _ Hok e (Hin e ltac:(left))) as [_ (r & Hr & Hid & Hseq)].
  rewrite Hr. cbn [mbind option_bind]. rewrite decide_True by done. cbn [fmap list_fmap fst].
  f_equal. apply IH. intros e' He'. apply Hin. by right.
Qed.

Lemma decode_positions_length position l entries :
  ReaderSync.decode_positions position l = Ok entries -> length entries = length l.
Proof.
  revert position entries. induction l as [|e l IH]; intros position entries; cbn -[lit].
  { by intros [= <-]. }
  intros Hd. apply Result_bind_Ok in Hd as (n & _ & Hd). case_decide; [done|].
  apply Result_bind_Ok in Hd as (x & _ & Hd). apply Result_bind_Ok in Hd as (xs & Hxs & [= <-]).
  cbn. f_equal. by eapply IH.
Qed.

Context `{UuidLibrary} {laws : JsonLaws}.

Lemma load_request_transparent id bid :
  transparent (ReaderSyncRequest.load_synchronization_batch_request id bid).
Proof.
  unfold ReaderSyncRequest.load_synchronization_batch_request, transaction. transparent_steps.
Qed.

Lemma decode_request_entries_in position rows es e :
  ReaderSyncRequest.decode_request_entries position rows = Ok es -> e ∈ es ->
  exists stored text, (stored, text) ∈ rows
    /\ SRE.transaction_id e = EntryRow.fare_transaction_id stored
    /\ LocalSequenceNumber.value (SRE.local_sequence_number e) = EntryRow.local_sequence_number stored
    /\ CanonicalTransactionEnvelope.from_json text = Ok (SRE.transaction_envelope e).
Proof.
  revert position es. induction rows as [|[stored text] rows IH]; intros position es; cbn.
  { intros [= <-] He. by apply elem_of_nil in He. }
  intros Hd He. result_inv. case_decide; [done|]. result_inv. subst.
  apply elem_of_cons in He as [->|He].
  - exists stored, text. split_and!; [by left|done| |done]. cbn. by eapply decode_sequence_value.
  - match goal with Hd : ReaderSyncRequest.decode_request_entries _ _ = Ok _ |- _ =>
      destruct (IH _ _ Hd He) as (stored' & text' & Hin & Hrest) end.
    exists stored', text'. split; [by right|done].
Qed.

Lemma select_request_entries_in id bid t stored text :
  (stored, text) ∈ ReaderSyncRequest.select_request_entries id bid t ->
  exists r, offline_transactions t !! EntryRow.fare_transaction_id stored = Some r
    /\ TX.reader_id r = id /\ TX.local_sequence_number r = EntryRow.local_sequence_number stored
    /\ TX.transaction_envelope_json r = text
    /\ stored ∈ synchronization_entries t /\ EntryRow.batch_id stored = bid.
Proof.
  unfold ReaderSyncRequest.select_request_entries. intros (e & He & Hsome)%list_elem_of_omap.
  destruct (offline_transactions t !! EntryRow.fare_transaction_id e) as [r|] eqn:Hr; [|done].
  cbn in Hsome. case_decide as Hjoin; [|done]. injection Hsome as -> <-. exists r.
  unfold select_entries in He. rewrite elem_of_order_by, list_elem_of_filter in He.
  destruct He as [Hp Hin]. apply bool_decide_eq_true in Hp as [Hbid Hid].
  split_and!; [done| |apply Hjoin|done..]. destruct Hjoin as [-> _]. congruence.
Qed.

(** Where each entry of a request comes from. *)
Lemma request_entry_row id bid t script request e :
  outcome (ReaderSyncRequest.load_synchronization_batch_request id bid) (MkDb t script) = Ok request ->
  e ∈ SBR.entries request ->
  exists r, offline_transactions t !! SRE.transaction_id e = Some r
    /\ TX.reader_id r = SBR.reader_id request
    /\ TX.local_sequence_number r = LocalSequenceNumber.value (SRE.local_sequence_number e)
    /\ CanonicalTransactionEnvelope.from_json (TX.transaction_envelope_json r)
       = Ok (SRE.transaction_envelope e)
    /\ exists stored, stored ∈ synchronization_entries t /\ EntryRow.batch_id stored = bid
         /\ EntryRow.fare_transaction_id stored = SRE.transaction_id e.
Proof.
  intros Hload%sequence_outcome_transparent He; [|apply load_request_transparent].
  apply load_request_inv in Hload as (b & s & submitted & version & first & last & es & environment
    & software & _ & _ & _ & _ & _ & _ & _ & Hes & _ & _ & Hnew).
  unfold SBR.new in Hnew. apply Result_bind_Ok in Hnew as ([] & _ & Hnew).
  apply Result_bind_Ok in Hnew as ([] & _ & [= <-]). cbn in He |- *.
  destruct (decode_request_entries_in _ _ _ _ Hes He) as (stored & text & Hin & -> & -> & Ht).
  destruct (select_request_entries_in _ _ _ _ _ Hin) as (r & Hr & Hid & Hseq & <- & Hst & Hbid).
  exists r. split_and!; [done..|]. by exists stored.
Qed.

(** C33. However often a batch is submitted, its request is the same: from
    two assemblies of the request of a batch, at any two points of any
    history, with any failures, retries and restarts between them, come equal
    messages, hence equal fingerprints, by which the backend recognises the
    replay. *)
Theorem retried_request_identical calls more id bid script1 script2 r1 r2 :
  outcome (ReaderSyncRequest.load_synchronization_batch_request id bid)
    (MkDb (reader_history empty_tables calls) script1) = Ok r1 ->
  outcome (ReaderSyncRequest.load_synchronization_batch_request id bid)
    (MkDb (reader_history empty_tables (calls ++ more)) script2) = Ok r2 ->
  r1 = r2.
Proof using laws.
  pose proof (history_ok calls) as Hok.
  destruct (history_kept calls more) as [_ Hev].
  set (t1 := reader_history empty_tables calls) in *.
  set (t2 := reader_history empty_tables (calls ++ more)) in *.
  intros H1%sequence_outcome_transparent H2%sequence_outcome_transparent;
    [|apply load_request_transparent..].
  apply load_request_inv in H1 as (b & s & submitted & version & first & last & es & environment
    & software & Hb & _ & Hsub & Hs & Hversion & Hfirst & Hlast & Hes & Henv & Hsoft & Hnew).
  apply load_request_inv in H2 as (b' & s' & submitted' & version' & first' & last' & es'
    & environment' & software' & Hb' & _ & Hsub' & Hs' & Hversion' & Hfirst' & Hlast' & Hes' & Henv'
    & Hsoft' & Hnew').
  rewrite (select_request_entries_stable _ _ _ _ _ Hok Hev Hb) in Hes'.
  destruct (find_batch_stable _ _ _ _ _ Hev Hb) as (x & Hx & [Hi _ Hsame _ _]).
  rewrite Hx in Hb'. injection Hb' as ->.
  rewrite Hsame in Hsub' by (by eexists). destruct Hi as (_ & _ & Hv & Hf & Hl & _).
  destruct (ev_state _ _ Hev _ Hs) as (y & Hy & [(_ & He & Hw & _) _ _]). rewrite Hy in Hs'.
  injection Hs' as ->. congruence.
Qed.

(** C34. A batch of more entries than the protocol allows can never be
    submitted: its request cannot be assembled, now or after any further calls: [create_synchronization_batch] takes any limit, [new] of a request
    at most [MAX_SYNCHRONIZATION_BATCH_ENTRIES] entries. *)
Theorem oversized_batch_never_submitted calls more script id bid b :
  ReaderSync.find_batch id bid (reader_history empty_tables calls) = Some b ->
  MAX_SYNCHRONIZATION_BATCH_ENTRIES
    < Z.of_nat (length (select_entries (ReaderSync.is_entry_of id bid)
                          (reader_history empty_tables calls))) ->
  is_ok (outcome (ReaderSyncRequest.load_synchronization_batch_request id bid)
    (MkDb (reader_history empty_tables (calls ++ more)) script)) = false.
Proof using laws.
  intros Hb Hmany. destruct (outcome _ _) as [request|e] eqn:Hload; [exfalso|done].
  apply sequence_outcome_transparent in Hload; [|apply load_request_transparent].
  destruct (history_kept calls more) as [Hok Hev].
  rewrite <- (select_entries_stable _ _ _ _ _ Hev Hb) in Hmany.
  apply load_request_inv in Hload as (b' & s & submitted & version & first & last & es & environment
    & software & _ & _ & _ & _ & _ & _ & _ & Hes & _ & _ & Hnew).
  apply decode_positions_request in Hes. rewrite (request_entries_joined _ _ _ Hok) in Hes.
  pose proof (request_new_Ok _ _ Hnew) as [Hcount _ _ _ _]. apply request_new_of in Hnew as ->.
  cbn in Hcount. rewrite length_fmap in Hcount.
  apply decode_positions_length in Hes. rewrite length_fmap in Hes.
  unfold MAX_SYNCHRONIZATION_BATCH_ENTRIES in Hmany. lia.
Qed.

End request.


(** The request of the first submission, and of the one after a failure. *)
Lemma retried_request_identical_witness :
  exists r1 r2,
    outcome (ReaderSyncRequest.load_synchronization_batch_request sample_reader sample_batch)
      (MkDb (reader_history empty_tables sample_submission) []) = Ok r1
    /\ outcome (ReaderSyncRequest.load_synchronization_batch_request sample_reader sample_batch)
         (MkDb (reader_history empty_tables (sample_submission ++ sample_retry)) [None]) = Ok r2
    /\ r1 = r2.
Proof.
  destruct (is_ok_inv (outcome
    (ReaderSyncRequest.load_synchronization_batch_request sample_reader sample_batch)
    (MkDb (reader_history empty_tables sample_submission) []))) as [r1 H1];
    [vm_compute; reflexivity|].
  destruct (is_ok_inv (outcome
    (ReaderSyncRequest.load_synchronization_batch_request sample_reader sample_batch)
    (MkDb (reader_history empty_tables (sample_submission ++ sample_retry)) [None]))) as [r2 H2];
    [vm_compute; reflexivity|].
  exists r1, r2. split; [exact H1|split; [exact H2|]].
  exact (retried_request_identical sample_submission sample_retry sample_reader sample_batch _ _ _ _
           H1 H2).
Defined.

(** It happens: 257 transactions, and a limit that takes them all. *)
Definition crowded_draft (n : nat) : OfflineTransactionDraft.t :=
  OfflineTransactionDraft.mk (MkIdentifier (default uuid_1 (uuid_from_u128 (N.of_nat n))))
    (MkIdentifier uuid_1) (EventTime.mk 1000) (FarePolicyVersion.mk 1)
    (FareDecision.Approved (sample_money 275) FareApprovalReason.StandardFare) (JObject []) 1000.

Definition crowded_batch : list (ReaderCall * list (option Fault)) :=
  (BindReaderDatabase sample_identity, [])
  :: ((fun n => (EnqueueOfflineTransaction sample_reader (crowded_draft n), [])) <$> seq 1 257)
  ++ [(CreateSynchronizationBatch sample_reader DeviceProtocolVersion.CURRENT 2000 300 sample_batch, []);
      (MarkSynchronizationBatchInFlight sample_reader sample_batch 3000, [])].

Lemma oversized_batch_never_submitted_witness :
  is_ok (outcome (ReaderSyncRequest.load_synchronization_batch_request sample_reader sample_batch)
    (MkDb (reader_history empty_tables (crowded_batch ++ sample_retry)) [])) = false.
Proof.
  assert ((fun t => match ReaderSync.find_batch sample_reader sample_batch t with
    | Some _ => MAX_SYNCHRONIZATION_BATCH_ENTRIES <? Z.of_nat (length
        (select_entries (ReaderSync.is_entry_of sample_reader sample_batch) t))
    | None => false
    end) (reader_history empty_tables crowded_batch) = true) as Hmany by (vm_compute; reflexivity).
  cbn beta in Hmany.
  destruct (ReaderSync.find_batch sample_reader sample_batch (reader_history empty_tables crowded_batch))
    as [b|] eqn:Hb; [|discriminate Hmany].
  apply Z.ltb_lt in Hmany. exact (oversized_batch_never_submitted crowded_batch sample_retry [] _ _ b Hb Hmany).
Defined.
