(* ===== verification/PersistenceReaderSettlement.v ===== *)
(** * Why a queued transaction counts as acknowledged

    Only the application of a stored acknowledgement moves a transaction to
    [Acknowledged], and only if the acknowledgement says so of it; only the
    storage of an acknowledgement adds acknowledgement entries, and only those
    of the message. *)

From S2P Require Import Prelude Text JsonReference DomainMoney DomainIdentifier DomainTransaction.
From S2P Require Import DeviceProtocolValues DeviceProtocolSynchronization.
From S2P Require Import PersistenceReaderStore PersistenceReaderIdentity PersistenceReaderQueue.
From S2P Require Import PersistenceReaderSync PersistenceReaderAcknowledgement.
From S2P Require Import PersistenceReaderApplication PersistenceSqlLogic.
From S2P Require Import PersistenceReaderInvariant PersistenceReaderHistory PersistenceReaderExample.

Module AE := AcknowledgementEntryRow.

Definition settled (r : OTR) : Prop := TX.queue_state r = OfflineQueueState.Acknowledged.

(** An acknowledgement says that the transaction was accepted. *)
Definition accepted (t : ReaderTables) (id : FareTransactionId) : Prop :=
  exists a, a ∈ synchronization_acknowledgement_entries t /\ AE.fare_transaction_id a = id
    /\ AE.outcome a = AcknowledgementOutcome.Acknowledged.

Definition keyed (t : ReaderTables) : Prop :=
  forall id r, offline_transactions t !! id = Some r -> TX.fare_transaction_id r = id.

(** No new acknowledgements; what is newly settled was [earned]. *)
Record settles (earned : FareTransactionId -> Prop) (t t' : ReaderTables) : Prop := {
  st_entries : synchronization_acknowledgement_entries t' = synchronization_acknowledgement_entries t;
  st_rows : forall id r', offline_transactions t' !! id = Some r' -> settled r' ->
    (exists r, offline_transactions t !! id = Some r /\ settled r)
    \/ earned id;
  st_keyed : keyed t -> keyed t'
}.

Definition nothing (_ : FareTransactionId) : Prop := False.

#[export] Instance settles_preorder earned : PreOrder (settles earned).
Proof.
  split.
  - intros t. split; [done|eauto|done].
  - intros t1 t2 t3 [He1 Hr1 Hk1] [He2 Hr2 Hk2]. split; [congruence| |by auto]. intros id r3 Hr3 Hs.
    destruct (Hr2 _ _ Hr3 Hs) as [(r2 & Hl2 & Hs2)|]; [|by right]. eauto.
Qed.

Lemma settles_refl earned t : settles earned t t.
Proof. reflexivity. Qed.

#[export] Hint Resolve settles_refl : core.

(** ** Statements *)

Lemma settles_frame earned t t' :
  offline_transactions t' = offline_transactions t ->
  synchronization_acknowledgement_entries t' = synchronization_acknowledgement_entries t ->
  settles earned t t'.
Proof. intros Ho Ha. unfold keyed. split; [done|..]; unfold keyed; rewrite Ho; eauto. Qed.

Lemma update_transactions_settles earned p f t t' n :
  (forall r, TX.fare_transaction_id (f r) = TX.fare_transaction_id r) ->
  (forall id r, offline_transactions t !! id = Some r -> p r = true -> settled (f r) ->
     settled r \/ earned id) ->
  update_offline_transactions p f t = Ok (t', n) -> settles earned t t'.
Proof.
  intros Hid Hf. unfold update_offline_transactions.
  destruct (update_where _ _ _ _) as [[m c]|] eqn:Hu; [|done]. cbn. intros [= <- <-].
  apply update_where_Ok in Hu as (-> & _). split; [done|..].
  - intros id r' Hr' Hs. cbn in Hr'. rewrite lookup_fmap_Some in Hr'. destruct Hr' as (r & <- & Hr).
    destruct (p r) eqn:Hp; [|by left; eauto].
    destruct (Hf _ _ Hr Hp Hs); [left; eauto|by right].
  - intros Hk id r' Hr'. cbn in Hr'. rewrite lookup_fmap_Some in Hr'. destruct Hr' as (r & <- & Hr).
    destruct (p r); rewrite ?Hid; by apply Hk.
Qed.

Lemma update_batches_settles earned p f t t' n :
  update_batches p f t = Ok (t', n) -> settles earned t t'.
Proof.
  unfold update_batches. destruct (update_where _ _ _ _) as [[m c]|]; [|done]. cbn.
  intros [= <- <-]. by apply settles_frame.
Qed.

Lemma update_acknowledgements_settles earned p f t t' n :
  update_acknowledgements p f t = Ok (t', n) -> settles earned t t'.
Proof.
  unfold update_acknowledgements. destruct (update_where _ _ _ _) as [[m c]|]; [|done]. cbn.
  intros [= <- <-]. by apply settles_frame.
Qed.

Lemma update_reader_state_settles earned p f t t' a :
  update_reader_state p f t = Ok (t', a) -> settles earned t t'.
Proof.
  unfold update_reader_state. destruct (reader_state t) as [s|]; [|by intros [= <- <-]].
  destruct (p s); [|by intros [= <- <-]]. destruct (reader_state_check _); [|done].
  intros [= <- <-]. by apply settles_frame.
Qed.

Lemma insert_batch_settles earned r t t' a : insert_batch r t = Ok (t', a) -> settles earned t t'.
Proof.
  unfold insert_batch. repeat (case_match; try done). intros [= <- <-]. by apply settles_frame.
Qed.

Lemma insert_entry_settles earned r t t' a : insert_entry r t = Ok (t', a) -> settles earned t t'.
Proof.
  unfold insert_entry. repeat (case_match; try done). intros [= <- <-]. by apply settles_frame.
Qed.

Lemma insert_transaction_settles earned r t t' a :
  ~ settled r -> insert_offline_transaction r t = Ok (t', a) -> settles earned t t'.
Proof.
  intros Hr. unfold insert_offline_transaction. repeat (case_match; try done). intros [= <- <-].
  split; [done|..]; cbn.
  - intros id r' [[<- <-]|[_ Hr']]%lookup_insert_Some Hs; [done|eauto].
  - intros Hk id r'. cbn. intros [[<- <-]|[_ Hr']]%lookup_insert_Some; [done|by apply Hk].
Qed.

Lemma initialize_settles earned s t t' a :
  initialize_reader_state s t = Ok (t', a) -> settles earned t t'.
Proof.
  unfold initialize_reader_state. repeat (case_match; try done); intros [= <- <-]; [done|].
  by apply settles_frame.
Qed.

Lemma assign_settles earned id now t t' a :
  assign_local_sequence id now t = Ok (t', a) -> settles earned t t'.
Proof.
  unfold assign_local_sequence. destruct (update_reader_state _ _ _) as [[t1 o]|] eqn:Hu; [|done].
  cbn. intros [= <- _]. by eapply update_reader_state_settles.
Qed.

Create HintDb settles discriminated.

#[export] Hint Resolve update_batches_settles update_acknowledgements_settles
  update_reader_state_settles insert_batch_settles insert_entry_settles initialize_settles
  assign_settles : settles.

(** A move that does not settle. *)
Ltac unsettled :=
  intros; conditions; unfold settled in *;
  lazymatch goal with
  | H : TX.queue_state ?r = OfflineQueueState.InFlight |- _ => cbn in *; congruence
  | |- _ => cbn in *; congruence
  end.

(** The statements of a call, one after the other, from [settles e t t]. *)
Ltac settling :=
  repeat match goal with
  | K : settles ?e ?t0 ?t1, Hu : update_offline_transactions _ _ ?t1 = Ok (?t2, _) |- _ =>
      assert (settles e t0 t2);
        [etrans; [exact K|eapply update_transactions_settles; cycle 2; [exact Hu|done|solve [unsettled]]]
        |clear K Hu]
  | K : settles ?e ?t0 ?t1, Hu : insert_offline_transaction _ ?t1 = Ok (?t2, _) |- _ =>
      assert (settles e t0 t2);
        [etrans; [exact K|eapply insert_transaction_settles; [|exact Hu]; done]|clear K Hu]
  | K : settles ?e ?t0 ?t1, Hu : _ ?t1 = Ok (?t2, _) |- _ =>
      assert (settles e t0 t2); [etrans; [exact K|solve [eauto with settles]]|clear K Hu]
  end.

Ltac settling_from e t := assert (settles e t t) by reflexivity; settling.

Ltac leaves_settled m := unfold m; run_steps; try done.

Section settles.
Context `{JsonLibrary}.

Lemma bind_reader_database_settles identity t :
  leaves (bind_reader_database identity) t (settles nothing t).
Proof. unfold bind_reader_database. run_steps; try done; by settling_from nothing t. Qed.

Lemma enqueue_offline_transaction_settles id draft t :
  leaves (enqueue_offline_transaction id draft) t (settles nothing t).
Proof. unfold enqueue_offline_transaction. run_steps; try done; by settling_from nothing t. Qed.

Lemma mark_offline_transaction_in_flight_settles id tx now t :
  leaves (ReaderQueueState.mark_offline_transaction_in_flight id tx now) t (settles nothing t).
Proof.
  unfold ReaderQueueState.mark_offline_transaction_in_flight. run_steps.
  settling_from nothing t. apply run_lift; auto.
Qed.

Lemma record_retryable_queue_failure_settles id tx category now retry t :
  leaves (ReaderQueueState.record_retryable_queue_failure id tx category now retry) t
    (settles nothing t).
Proof.
  unfold ReaderQueueState.record_retryable_queue_failure. run_steps.
  settling_from nothing t. apply run_lift; auto.
Qed.

Lemma record_final_failure_settles id tx category now target t :
  leaves (ReaderQueueState.record_final_failure id tx category now target) t (settles nothing t).
Proof.
  unfold ReaderQueueState.record_final_failure. run_steps.
  destruct target; try done; settling_from nothing t; apply run_lift; auto.
Qed.

Lemma recover_interrupted_offline_queue_settles id now t :
  leaves (ReaderQueueState.recover_interrupted_offline_queue id now) t (settles nothing t).
Proof.
  unfold ReaderQueueState.recover_interrupted_offline_queue. run_steps. by settling_from nothing t.
Qed.

(** After a change, the batch is read again. *)
Lemma load_after_settles earned id batch t t' :
  settles earned t t' ->
  run (ReaderSync.load_synchronization_batch id batch) t' (fun _ => settles earned t)
    (fun _ => settles earned t).
Proof. intros Hs. apply reads_leaves; [auto with reads|done]. Qed.

Lemma mark_synchronization_batch_in_flight_settles id batch now t :
  leaves (ReaderSyncState.mark_synchronization_batch_in_flight id batch now) t (settles nothing t).
Proof.
  unfold ReaderSyncState.mark_synchronization_batch_in_flight. run_steps.
  apply load_after_settles. by settling_from nothing t.
Qed.

Lemma record_synchronization_retryable_failure_settles id batch category now retry t :
  leaves (ReaderSyncState.record_synchronization_retryable_failure id batch category now retry) t
    (settles nothing t).
Proof.
  unfold ReaderSyncState.record_synchronization_retryable_failure. run_steps.
  all: settling_from nothing t; try done. by apply load_after_settles.
Qed.

Lemma recover_interrupted_synchronization_batches_settles id now t :
  leaves (ReaderSyncState.recover_interrupted_synchronization_batches id now) t (settles nothing t).
Proof.
  unfold ReaderSyncState.recover_interrupted_synchronization_batches. run_steps.
  by settling_from nothing t.
Qed.

Lemma record_final_synchronization_failure_settles id batch category now target transition t :
  leaves (ReaderSyncFailure.record_final_synchronization_failure id batch category now target
            transition) t (settles nothing t).
Proof.
  unfold ReaderSyncFailure.record_final_synchronization_failure. run_steps.
  apply load_after_settles. destruct target; by settling_from nothing t.
Qed.

Lemma reserve_entries_settles bid id now position entries t0 t :
  settles nothing t0 t ->
  run (ReaderSync.reserve_entries bid id now position entries) t
    (fun _ => settles nothing t0) (fun _ _ => settles nothing t0 t0).
Proof.
  revert position t. induction entries as [|e entries IH]; intros position t K;
    cbn [ReaderSync.reserve_entries]; [by apply run_ret|].
  unfold ReaderSync.reserve_entry. run_steps; try done. settling. by apply IH.
Qed.

Lemma create_synchronization_batch_settles id version now limit bid t :
  leaves (ReaderSync.create_synchronization_batch id version now limit bid) t (settles nothing t).
Proof.
  unfold ReaderSync.create_synchronization_batch. run_steps; try done.
  settling_from nothing t. eapply run_mono; [by apply reserve_entries_settles| |by auto].
  intros ? tables' K. by apply run_ret.
Qed.

(** ** Applying an acknowledgement *)

(** The entries that an application decodes. *)
Lemma decode_resolution_Acknowledged outcome category retry received :
  ReaderAcknowledgementApplication.decode_resolution outcome category retry received
  = Ok AppliedResolution.Acknowledged -> outcome = AcknowledgementOutcome.Acknowledged.
Proof.
  unfold ReaderAcknowledgementApplication.decode_resolution. destruct outcome; [done|..];
    intros Hd; result_inv; repeat case_match; result_inv; try done.
Qed.

Lemma decode_entries_accepted position l received entries :
  ReaderAcknowledgementApplication.decode_entries position l received = Ok entries ->
  forall d, d ∈ entries -> DecodedAcknowledgementEntry.resolution d = AppliedResolution.Acknowledged ->
  exists a, a ∈ l /\ AE.fare_transaction_id a = DecodedAcknowledgementEntry.transaction_id d
    /\ AE.outcome a = AcknowledgementOutcome.Acknowledged.
Proof.
  revert position entries. induction l as [|a l IH]; intros position entries;
    cbn [ReaderAcknowledgementApplication.decode_entries].
  { intros [= <-] d Hd. by apply elem_of_nil in Hd. }
  intros Hd. result_inv. intros d [->|Hin]%elem_of_cons Hres.
  - exists a. split; [by left|]. split; [done|]. cbn in Hres. subst.
    by eapply decode_resolution_Acknowledged.
  - edestruct IH as (a' & Ha' & ?); [eassumption..|]. exists a'. split; [by right|done].
Qed.

Lemma apply_entry_settles id now entry t0 t :
  keyed t0 -> settles (accepted t0) t0 t ->
  (DecodedAcknowledgementEntry.resolution entry = AppliedResolution.Acknowledged ->
   accepted t0 (DecodedAcknowledgementEntry.transaction_id entry)) ->
  run (ReaderAcknowledgementApplication.apply_entry id now entry) t (fun _ => settles (accepted t0) t0)
    (fun _ _ => True).
Proof.
  intros Hkey K Hacc. unfold ReaderAcknowledgementApplication.apply_entry.
  destruct (DecodedAcknowledgementEntry.resolution entry) eqn:Hres;
    cbn [AppliedResolution.queue_values]; run_steps; try by settling.
  etrans; [exact K|]. eapply update_transactions_settles; cycle 2; [eassumption|done|].
  intros k r Hr Hp _. right. conditions.
  match goal with H : bool_decide (_ /\ _) = true |- _ => apply bool_decide_eq_true in H as [Hid _] end.
  rewrite <- (st_keyed _ _ _ K Hkey _ _ Hr), Hid. by apply Hacc.
Qed.

Lemma apply_entries_settles id now entries t0 t :
  keyed t0 -> settles (accepted t0) t0 t ->
  (forall d, d ∈ entries -> DecodedAcknowledgementEntry.resolution d = AppliedResolution.Acknowledged ->
     accepted t0 (DecodedAcknowledgementEntry.transaction_id d)) ->
  run (ReaderAcknowledgementApplication.apply_entries id now entries) t
    (fun _ => settles (accepted t0) t0) (fun _ _ => True).
Proof.
  intros Hkey K Hacc. revert t K. induction entries as [|e entries IH]; intros t K;
    cbn [ReaderAcknowledgementApplication.apply_entries]; [by apply run_ret|].
  apply run_bind. eapply run_mono; [apply apply_entry_settles; [done..|apply Hacc; by left]| |done].
  intros ? t' K'. apply IH; [|done]. intros d Hd. apply Hacc. by right.
Qed.

Lemma apply_unapplied_settles id bid now entries current t :
  keyed t ->
  (forall d, d ∈ entries -> DecodedAcknowledgementEntry.resolution d = AppliedResolution.Acknowledged ->
     accepted t (DecodedAcknowledgementEntry.transaction_id d)) ->
  run (ReaderAcknowledgementApplication.apply_unapplied id bid now entries current) t
    (fun _ => settles (accepted t) t) (fun _ _ => True).
Proof.
  intros Hkey Hacc. unfold ReaderAcknowledgementApplication.apply_unapplied.
  run_step. run_step. run_step; [by run_step|]. run_step.
  eapply run_mono; [by apply apply_entries_settles| |done]. intros ? t1 K. cbn beta in K.
  unfold ReaderAcknowledgementApplication.advance_reader_state. run_steps; try done; by settling.
Qed.

Lemma apply_synchronization_acknowledgement_settles id bid now t :
  keyed t ->
  leaves (ReaderAcknowledgementApplication.apply_synchronization_acknowledgement id bid now) t
    (settles (accepted t) t).
Proof.
  intros Hkey. unfold ReaderAcknowledgementApplication.apply_synchronization_acknowledgement.
  run_step. run_step; [by run_step|]. apply run_transaction_if; [by auto..|].
  do 4 run_step. run_step; [by run_step|]. do 4 run_step. run_step; [by run_step|].
  do 6 run_step. destruct (AcknowledgementRow.applied_at _).
  { run_step; [by run_step|]. run_step. by auto. }
  run_step; [by run_step|]. run_step.
  eapply run_mono; [apply apply_unapplied_settles; [done|]| |by auto].
  2: { intros ? t' K. by apply run_ret. }
  intros d Hd Hres.
  match goal with H : ReaderAcknowledgementApplication.decode_entries _ _ _ = Ok _ |- _ =>
    destruct (decode_entries_accepted _ _ _ _ H _ Hd Hres) as (x & Ha & ?) end.
  exists x. split; [|done]. unfold select_acknowledgement_entries in Ha.
  by apply elem_of_order_by, list_elem_of_filter in Ha as [_ Ha].
Qed.

End settles.

(** ** Storing an acknowledgement *)

(** The acknowledgement entries that a message leaves behind. *)
Record stores (says : FareTransactionId -> Prop) (t t' : ReaderTables) : Prop := {
  sr_rows : offline_transactions t' = offline_transactions t;
  sr_accepted : forall id, accepted t' id -> accepted t id \/ says id
}.

Section stores.
Context `{JsonLibrary} `{UuidLibrary}.

Definition says (a : ReaderAcknowledgement.t) (id : FareTransactionId) : Prop :=
  exists e, e ∈ ReaderAcknowledgement.entries a /\ ReaderAcknowledgement.Entry.transaction_id e = id
    /\ ReaderAcknowledgement.Entry.resolution e = SynchronizationEntryResolution.Acknowledged.

Lemma insert_acknowledgement_frame r t t' a :
  insert_acknowledgement r t = Ok (t', a) ->
  offline_transactions t' = offline_transactions t
  /\ synchronization_acknowledgement_entries t' = synchronization_acknowledgement_entries t.
Proof. unfold insert_acknowledgement. repeat (case_match; try done). by intros [= <- _]. Qed.

Lemma insert_acknowledgement_entry_frame r t t' a :
  insert_acknowledgement_entry r t = Ok (t', a) ->
  offline_transactions t' = offline_transactions t
  /\ synchronization_acknowledgement_entries t' = synchronization_acknowledgement_entries t ++ [r].
Proof. unfold insert_acknowledgement_entry. repeat (case_match; try done). by intros [= <- _]. Qed.

Lemma insert_entries_stores id bid position entries says t0 t :
  stores says t0 t ->
  (forall e, e ∈ entries ->
     ReaderAcknowledgement.Entry.resolution e = SynchronizationEntryResolution.Acknowledged ->
     says (ReaderAcknowledgement.Entry.transaction_id e)) ->
  run (ReaderAcknowledgementStorage.insert_entries id bid position entries) t
    (fun _ => stores says t0) (fun _ _ => True).
Proof.
  revert position t. induction entries as [|e entries IH]; intros position t K Hsays;
    cbn [ReaderAcknowledgementStorage.insert_entries]; [by apply run_ret|].
  apply run_bind. unfold ReaderAcknowledgementStorage.insert_entry. run_step. run_step.
  destruct (ReaderAcknowledgement.stored_resolution _) as [[outcome category] retry] eqn:Hres.
  run_steps. apply IH; [|intros e' He'; apply Hsays; by right].
  match goal with H : insert_acknowledgement_entry _ _ = Ok _ |- _ =>
    apply insert_acknowledgement_entry_frame in H as [Ho Ha] end.
  destruct K as [Hrows Hacc]. split; [congruence|]. intros k (x & Hin & Hk & Hout).
  rewrite Ha in Hin. apply elem_of_app in Hin as [Hin|Hin].
  - apply Hacc. by exists x.
  - apply list_elem_of_singleton in Hin as ->. cbn in Hk, Hout. subst. right.
    apply Hsays; [by left|]. unfold ReaderAcknowledgement.stored_resolution in Hres.
    by destruct (ReaderAcknowledgement.Entry.resolution e).
Qed.

Lemma store_synchronization_acknowledgement_stores a t :
  leaves (ReaderAcknowledgementStorage.store_synchronization_acknowledgement a) t (stores (says a) t).
Proof.
  assert (stores (says a) t t) as Hrefl by (split; auto).
  unfold ReaderAcknowledgementStorage.store_synchronization_acknowledgement, leaves.
  apply run_reads; [auto with reads|by auto|]. intros batch. do 2 (run_step; run_step).
  apply run_transaction_if; [by auto..|]. run_step. run_step.
  destruct (ReaderAcknowledgementStorage.find_acknowledgement _ _ _); run_steps; [by auto|].
  match goal with H : insert_acknowledgement _ _ = Ok _ |- _ =>
    apply insert_acknowledgement_frame in H as [Ho Ha] end.
  eapply run_mono; [apply (insert_entries_stores _ _ _ _ (says a) t)| |by auto].
  - split; [done|]. unfold accepted. rewrite Ha. auto.
  - intros e He Hr. by exists e.
  - intros ? t'' K. by apply run_ret.
Qed.

(** The protocol message says so. *)
Definition acknowledges (a : SBA.t) (id : FareTransactionId) : Prop :=
  exists e, e ∈ SBA.entries a /\ SAE.transaction_id e = id
    /\ SAE.outcome e = SynchronizationEntryOutcome.Acknowledged.

Lemma translated_says a translated id :
  ReaderProtocolAcknowledgement.translate_protocol_synchronization_acknowledgement a = Ok translated ->
  says translated id -> acknowledges a id.
Proof.
  unfold ReaderProtocolAcknowledgement.translate_protocol_synchronization_acknowledgement.
  intros Ht (e & He & Hid & Hres). result_inv.
  match goal with H : try_map _ _ = Ok _ |- _ => apply try_map_Ok in H; rename H into Hall end.
  match goal with H : ReaderAcknowledgement.new _ _ _ _ _ _ _ = Ok _ |- _ => rename H into Hnew end.
  unfold ReaderAcknowledgement.new in Hnew. repeat (case_match; try done). result_inv. cbn in He.
  apply list_elem_of_lookup in He as [i Hi].
  destruct (Forall2_lookup_r _ _ _ _ _ Hall Hi) as (message & Hx & Htr).
  exists message. split; [by eapply list_elem_of_lookup_2|]. cbn beta in Htr.
  unfold ReaderProtocolAcknowledgement.translate_entry in Htr. result_inv. cbn in Hres |- *.
  split; [done|]. subst. by destruct (SAE.outcome message); result_inv.
Qed.

Lemma store_protocol_synchronization_acknowledgement_stores a t :
  leaves (ReaderProtocolAcknowledgement.store_protocol_synchronization_acknowledgement a) t
    (stores (acknowledges a) t).
Proof.
  assert (stores (acknowledges a) t t) as Hrefl by (split; auto).
  unfold ReaderProtocolAcknowledgement.store_protocol_synchronization_acknowledgement. run_steps.
  match goal with H : _ = Ok ?translated |- _ =>
    eapply run_mono; [apply store_synchronization_acknowledgement_stores|..];
      intros ? t' [Hrows Hacc]; (split; [done|]); intros id Hid;
      (destruct (Hacc id Hid) as [|Hs]; [by left|right; by eapply translated_says]) end.
Qed.

End stores.

(** ** Histories *)

Lemma settles_mono (P Q : FareTransactionId -> Prop) t t' :
  (forall id, P id -> Q id) -> settles P t t' -> settles Q t t'.
Proof.
  intros HPQ [He Hr Hk]. split; [done| |done]. intros id r' Hr' Hs.
  destruct (Hr _ _ Hr' Hs); [by left|right; auto].
Qed.

Lemma store_ok_keyed `{JsonLibrary} t : store_ok t -> keyed t.
Proof. intros Hok id r Hr. by destruct (ok_transactions _ Hok _ _ Hr). Qed.

(** Every settled transaction was accepted by a stored acknowledgement. *)
Definition justified (t : ReaderTables) : Prop :=
  forall id r, offline_transactions t !! id = Some r -> settled r -> accepted t id.

Lemma accepted_evolved t t' id : evolved t t' -> accepted t id -> accepted t' id.
Proof.
  intros Hev (a & Hin & Hid & Hout). exists a. split; [|done].
  by eapply elem_of_prefix, (ev_acknowledgement_entries _ _ Hev).
Qed.

Section histories.
Context `{JsonLibrary} {laws : JsonLaws} `{UuidLibrary}.

(** The calls that store an acknowledgement. *)
Definition stores_acknowledgement (call : ReaderCall) : bool :=
  match call with
  | StoreSynchronizationAcknowledgement _ | StoreProtocolSynchronizationAcknowledgement _ => true
  | _ => false
  end.

Lemma reads_settles {E A} (m : Mut ReaderDb E A) t earned : reads m -> leaves m t (settles earned t).
Proof. intros Hm. by apply reads_leaves. Qed.

Lemma leaves_settles {E A} (m : Mut ReaderDb E A) t earned :
  leaves m t (settles nothing t) -> leaves m t (settles earned t).
Proof.
  intros Hm. eapply run_mono; [exact Hm|..]; intros ? t'; apply settles_mono; by intros ? [].
Qed.

Lemma perform_settles call t script :
  store_ok t -> stores_acknowledgement call = false ->
  settles (accepted t) t (tables (perform call (MkDb t script)).1).
Proof.
  intros Hok Hcall. destruct call; try done; cbn [perform];
    apply (leaves_tables _ t (settles (accepted t) t));
    lazymatch goal with
    | |- leaves (ReaderAcknowledgementApplication.apply_synchronization_acknowledgement _ _ _) _ _ =>
        by apply apply_synchronization_acknowledgement_settles, store_ok_keyed
    | |- _ => idtac
    end;
    try (apply reads_settles; first [apply load_offline_queue_reads
      |apply load_ready_offline_transactions_reads|apply load_synchronization_batch_reads
      |apply load_ready_synchronization_batches_reads|apply load_synchronization_batch_request_reads]);
    apply leaves_settles.
  - apply bind_reader_database_settles.
  - apply enqueue_offline_transaction_settles.
  - apply mark_offline_transaction_in_flight_settles.
  - apply record_retryable_queue_failure_settles.
  - apply record_final_failure_settles.
  - apply record_final_failure_settles.
  - apply recover_interrupted_offline_queue_settles.
  - apply create_synchronization_batch_settles.
  - apply mark_synchronization_batch_in_flight_settles.
  - apply record_synchronization_retryable_failure_settles.
  - apply record_final_synchronization_failure_settles.
  - apply record_final_synchronization_failure_settles.
  - apply recover_interrupted_synchronization_batches_settles.
Qed.

Lemma settles_justified t t' : settles (accepted t) t t' -> justified t -> justified t'.
Proof.
  intros [He Hr _] Hj id r' Hr' Hs. unfold accepted in *. rewrite He.
  destruct (Hr _ _ Hr' Hs) as [(r & Hlook & Hset)|Ha]; [by eapply Hj|done].
Qed.

Lemma stores_justified says t t' :
  stores says t t' -> evolved t t' -> justified t -> justified t'.
Proof.
  intros [Hrows _] Hev Hj id r Hr Hs. rewrite Hrows in Hr.
  eapply accepted_evolved; [exact Hev|by eapply Hj].
Qed.

Lemma perform_justified call t script :
  store_ok t -> justified t -> justified (tables (perform call (MkDb t script)).1).
Proof using laws.
  intros Hok Hj. destruct (stores_acknowledgement call) eqn:Hcall.
  - destruct (perform_kept call t script Hok) as [_ Hev]. destruct call; try done; cbn [perform] in *.
    + eapply stores_justified; [|exact Hev|done].
      apply (leaves_tables _ t (stores _ t)), store_synchronization_acknowledgement_stores.
    + eapply stores_justified; [|exact Hev|done].
      apply (leaves_tables _ t (stores _ t)), store_protocol_synchronization_acknowledgement_stores.
  - by eapply settles_justified; [apply perform_settles|].
Qed.

Lemma history_justified calls : justified (reader_history empty_tables calls).
Proof using laws.
  induction calls as [|[call script] calls IH] using rev_ind.
  { intros id r Hr. cbn in Hr. by rewrite lookup_empty in Hr. }
  unfold reader_history. rewrite foldl_app. apply perform_justified; [apply history_ok|exact IH].
Qed.

(** C25. A reader never takes a transaction for acknowledged on its own.
    Whatever calls it makes, and whatever the database fails, each transaction
    that its queue shows as acknowledged has an entry, with the outcome
    acknowledged, in an acknowledgement that was stored. *)
Theorem acknowledged_only_by_acknowledgement calls id r :
  let t := reader_history empty_tables calls in
  offline_transactions t !! id = Some r -> TX.queue_state r = OfflineQueueState.Acknowledged ->
  exists a, a ∈ synchronization_acknowledgement_entries t /\ AE.fare_transaction_id a = id
    /\ AE.outcome a = AcknowledgementOutcome.Acknowledged.
Proof using laws. intros t Hr Hs. by eapply history_justified. Qed.

End histories.


Lemma acknowledged_only_by_acknowledgement_witness :
  let t := reader_history empty_tables (sample_submission ++ sample_retry ++ sample_acknowledged) in
  exists a, a ∈ synchronization_acknowledgement_entries t
    /\ AE.fare_transaction_id a = sample_transaction 1
    /\ AE.outcome a = AcknowledgementOutcome.Acknowledged.
Proof.
  intros t.
  assert (TX.queue_state <$> offline_transactions t !! sample_transaction 1
    = Some OfflineQueueState.Acknowledged) as Hs by (vm_compute; reflexivity).
  destruct (offline_transactions t !! sample_transaction 1) as [r|] eqn:Hr; [|discriminate Hs].
  injection Hs as Hs.
  pose proof (acknowledged_only_by_acknowledgement
    (sample_submission ++ sample_retry ++ sample_acknowledged) (sample_transaction 1) r) as Hc.
  cbv zeta in Hc. fold t in Hc. exact (Hc Hr Hs).
Defined.
