(* ===== verification/PersistenceReaderProgress.v ===== *)
(** * An acknowledgement that arrives settles its batch

    What the other theorems about the reader's store forbid does not keep it
    from doing its work: without faults, an acknowledgement that answers the
    request of a batch in flight is stored and applied, and every transaction
    of the batch gets the state that the acknowledgement says. *)

From stdpp Require Import sorting.
From S2P Require Import Prelude Text JsonReference DomainMoney DomainIdentifier DomainTransaction.
From S2P Require Import DeviceProtocolValues DeviceProtocolSynchronization.
From S2P Require Import PersistenceReaderStore PersistenceReaderIdentity PersistenceReaderQueue.
From S2P Require Import PersistenceReaderSync PersistenceReaderAcknowledgement.
From S2P Require Import PersistenceReaderApplication PersistenceSqlLogic.
From S2P Require Import PersistenceReaderInvariant PersistenceReaderHistory.
From S2P Require Import PersistenceReaderDurability PersistenceReaderRequest PersistenceReaderSettlement.
From S2P Require Import PersistenceReaderExample.

Module RA := ReaderAcknowledgement.
Module RAE := ReaderAcknowledgement.Entry.
Module DE := DecodedAcknowledgementEntry.

Lemma size_list_to_set_le {A} `{Countable A} (l : list A) :
  (size (list_to_set (C := gset A) l) <= length l)%nat.
Proof.
  induction l as [|x l IH]; cbn; [by rewrite size_empty|]. rewrite size_union_alt, size_singleton.
  pose proof (subseteq_size (list_to_set (C := gset A) l ∖ {[x]}) (list_to_set l) ltac:(set_solver)).
  lia.
Qed.

(** ** Storing the entries *)

(** What a resolution must be for the database and for its later reading. *)
Definition resolution_storable (received_at : Z) (resolution : SynchronizationEntryResolution.t)
  : Prop :=
  let category_ok category :=
    sql_not_blank category = true /\ trim category = category /\ category <> [] in
  match resolution with
  | SynchronizationEntryResolution.Acknowledged => True
  | SynchronizationEntryResolution.RetryableFailure category retry_at =>
      category_ok category /\ received_at <= retry_at
  | SynchronizationEntryResolution.PermanentFailure category
  | SynchronizationEntryResolution.ManualReview category => category_ok category
  end.

Definition entry_storable (received_at : Z) (e : RAE.t) : Prop :=
  0 < LocalSequenceNumber.value (RAE.local_sequence_number e) <= i64_max
  /\ resolution_storable received_at (RAE.resolution e).

(** The rows that [insert_entries] writes. *)
Definition acknowledgement_row (bid : SynchronizationBatchId) (id : ReaderId) (position : nat)
    (e : RAE.t) : AE.t :=
  let '(outcome, category, retry_at) := RA.stored_resolution (RAE.resolution e) in
  AE.mk bid id (RAE.transaction_id e) (LocalSequenceNumber.value (RAE.local_sequence_number e))
    (Z.of_nat position) outcome category retry_at.

Fixpoint acknowledgement_rows (bid : SynchronizationBatchId) (id : ReaderId) (position : nat)
    (entries : list RAE.t) : list AE.t :=
  match entries with
  | [] => []
  | e :: entries' =>
      acknowledgement_row bid id position e :: acknowledgement_rows bid id (S position) entries'
  end.

Definition sequence_of (e : RAE.t) : Z := LocalSequenceNumber.value (RAE.local_sequence_number e).

Section store.
Context `{JsonLibrary} `{UuidLibrary}.
Implicit Types (t : ReaderTables).

Lemma acknowledgement_row_fields bid id position e :
  let row := acknowledgement_row bid id position e in
  AE.batch_id row = bid /\ AE.reader_id row = id
  /\ AE.fare_transaction_id row = RAE.transaction_id e
  /\ AE.local_sequence_number row = sequence_of e
  /\ AE.entry_position row = Z.of_nat position.
Proof. unfold acknowledgement_row. by destruct (RA.stored_resolution _) as [[? ?] ?]. Qed.

Lemma acknowledgement_row_check received_at bid id position e :
  0 <= received_at -> entry_storable received_at e ->
  acknowledgement_entry_check (acknowledgement_row bid id position e) = true.
Proof.
  intros Hr [[Hlow Hhigh] Hres]. unfold acknowledgement_row, acknowledgement_entry_check, outcome_check.
  assert (Z.of_nat position >= 0) by lia.
  destruct (RAE.resolution e); cbn in Hres |- *; destruct_and? Hres;
    repeat (rewrite (proj2 (Z.ltb_lt _ _)) by lia); repeat (rewrite (proj2 (Z.leb_le _ _)) by lia);
    done.
Qed.

(** The rows of other positions, transactions and sequences do not clash. *)
Definition room_for (bid : SynchronizationBatchId) (position : nat) (entries : list RAE.t) t : Prop :=
  forall x, x ∈ synchronization_acknowledgement_entries t -> AE.batch_id x = bid ->
    AE.entry_position x < Z.of_nat position
    /\ (AE.fare_transaction_id x ∉ RAE.transaction_id <$> entries)
    /\ (AE.local_sequence_number x ∉ sequence_of <$> entries).

Definition has_entry bid t e : Prop :=
  exists x, x ∈ synchronization_entries t /\ EntryRow.batch_id x = bid
    /\ EntryRow.fare_transaction_id x = RAE.transaction_id e.

Lemma insert_row_quiet received_at bid id position e entries t :
  0 <= received_at -> entry_storable received_at e ->
  AcknowledgementRow.reader_id <$> synchronization_acknowledgements t !! bid = Some id ->
  has_entry bid t e -> room_for bid position (e :: entries) t ->
  insert_acknowledgement_entry (acknowledgement_row bid id position e) t
  = Ok (set_synchronization_acknowledgement_entries
          (synchronization_acknowledgement_entries t ++ [acknowledgement_row bid id position e]) t, tt).
Proof.
  intros Hr He Hack (x & Hx & Hxb & Hxt) Hroom.
  destruct (acknowledgement_row_fields bid id position e) as (Hb & Hid & Ht & Hs & Hp).
  unfold insert_acknowledgement_entry. rewrite (acknowledgement_row_check received_at) by done.
  cbn [negb]. rewrite Hb, Hid, Ht, Hs, Hp.
  destruct (existsb _ (synchronization_acknowledgement_entries t)) eqn:Hclash.
  { exfalso. apply existsb_exists in Hclash as (y & Hy%list_elem_of_In & Hc).
    apply bool_decide_eq_true in Hc as [Hyb Hc]. destruct (Hroom _ Hy Hyb) as (H1 & H2 & H3).
    destruct Hc as [Hc|[Hc|Hc]]; [apply H2|apply H3|lia]; rewrite Hc; left. }
  rewrite decide_True by done. destruct (existsb _ (synchronization_entries t)) eqn:Hin; [done|].
  exfalso. rewrite <- not_true_iff_false in Hin. apply Hin, existsb_exists. exists x.
  split; [by apply list_elem_of_In|]. by apply bool_decide_eq_true.
Qed.

Lemma insert_entry_quiet received_at bid id position e entries t :
  0 <= received_at -> entry_storable received_at e -> Z.of_nat position <= i64_max ->
  AcknowledgementRow.reader_id <$> synchronization_acknowledgements t !! bid = Some id ->
  has_entry bid t e -> room_for bid position (e :: entries) t ->
  ReaderAcknowledgementStorage.insert_entry id bid position e (MkDb t [])
  = (MkDb (set_synchronization_acknowledgement_entries
       (synchronization_acknowledgement_entries t ++ [acknowledgement_row bid id position e]) t) [],
     Ok tt).
Proof.
  intros Hr He Hpos Hack Hent Hroom.
  pose proof (insert_row_quiet _ _ _ _ _ _ _ Hr He Hack Hent Hroom) as Hins.
  unfold ReaderAcknowledgementStorage.insert_entry, RA.sequence_to_i64.
  destruct He as [Hseq _]. rewrite !i64_try_from_in by int_lia. cbn [ok_or]. rewrite quiet_lift_Ok.
  unfold acknowledgement_row in Hins |- *.
  destruct (RA.stored_resolution (RAE.resolution e)) as [[outcome category] retry].
  rewrite quiet_lift_Ok.
  by rewrite quiet_statement, Hins.
Qed.

(** All the entries are inserted, in their order. *)
Lemma insert_entries_quiet received_at bid id position entries t :
  0 <= received_at -> Forall (entry_storable received_at) entries ->
  Z.of_nat position + Z.of_nat (length entries) <= i64_max ->
  AcknowledgementRow.reader_id <$> synchronization_acknowledgements t !! bid = Some id ->
  Forall (has_entry bid t) entries -> room_for bid position entries t ->
  NoDup (RAE.transaction_id <$> entries) -> NoDup (sequence_of <$> entries) ->
  ReaderAcknowledgementStorage.insert_entries id bid position entries (MkDb t [])
  = (MkDb (set_synchronization_acknowledgement_entries
       (synchronization_acknowledgement_entries t ++ acknowledgement_rows bid id position entries) t) [],
     Ok tt).
Proof.
  intros Hr. revert position t. induction entries as [|e entries IH];
    intros position t Hst Hpos Hack Hent Hroom Hids Hseqs.
  { cbn. rewrite app_nil_r. by destruct t. }
  cbn [length] in Hpos. inversion Hst; inversion Hent; subst.
  cbn [fmap list_fmap] in Hids, Hseqs. apply NoDup_cons in Hids as [Hid Hids], Hseqs as [Hseq Hseqs].
  cbn [ReaderAcknowledgementStorage.insert_entries].
  erewrite quiet_bind_Ok; [|eapply (insert_entry_quiet received_at); [done..|lia|done|done|exact Hroom]].
  rewrite IH; [|done|lia|done|done| |done|done].
  - cbn [synchronization_acknowledgement_entries set_synchronization_acknowledgement_entries].
    by rewrite <- app_assoc.
  - intros x Hx Hxb. cbn in Hx.
    destruct (acknowledgement_row_fields bid id position e) as (_ & _ & Ht & Hs & Hp).
    apply elem_of_app in Hx as [Hx| ->%list_elem_of_singleton].
    + destruct (Hroom _ Hx Hxb) as (? & Hn1 & Hn2). cbn in Hn1, Hn2.
      apply not_elem_of_cons in Hn1 as [_ ?], Hn2 as [_ ?]. split_and!; [lia|done|done].
    + rewrite Ht, Hs, Hp. split_and!; [lia|done|done].
Qed.

(** ** The batch of a request *)

(** The batch that [load_synchronization_batch] returns for a request. *)
Definition request_batch (b : BatchRow.t) (request : SBR.t) : SynchronizationBatch.t :=
  SynchronizationBatch.mk (BatchRow.batch_id b) (BatchRow.reader_id b) (SBR.protocol_version request)
    (SBR.first_local_sequence_number request) (SBR.last_local_sequence_number request)
    (BatchRow.batch_state b) (BatchRow.attempt_count b) (BatchRow.submitted_at b)
    (BatchRow.next_retry_at b) (BatchRow.last_failure_category b) (BatchRow.created_at b)
    (BatchRow.updated_at b) (batch_entry <$> SBR.entries request).

Lemma decode_batch_request id bid t request b :
  store_ok t ->
  outcome (ReaderSyncRequest.load_synchronization_batch_request id bid) (MkDb t []) = Ok request ->
  ReaderSync.find_batch id bid t = Some b -> BatchRow.attempt_count b <= 4294967295 ->
  ReaderSync.decode_stored_batch b (select_entries (ReaderSync.is_entry_of id bid) t)
  = Ok (request_batch b request).
Proof.
  intros Hok Hload Hb Hatt.
  apply load_request_inv in Hload as (b' & s & submitted & version & first & last & es & environment
    & software & Hb' & _ & _ & _ & Hversion & Hfirst & Hlast & Hes & _ & _ & Hnew).
  assert (b' = b) as -> by congruence.
  assert (batch_check b = true) as Hcheck.
  { unfold ReaderSync.find_batch in Hb. destruct (synchronization_batches t !! bid) eqn:Hx; [|done].
    cbn in Hb. case_decide; [|done]. injection Hb as ->. by apply (ok_batches _ Hok) in Hx as (_ & ? & _). }
  unfold batch_check in Hcheck. repeat (apply andb_prop in Hcheck as [Hcheck ?]).
  apply decode_positions_request in Hes. rewrite request_entries_joined in Hes by done.
  pose proof (request_new_Ok _ _ Hnew) as [_ Hhead Hlast' _ _]. apply request_new_of in Hnew as ->.
  cbn [SBR.of_definition SBR.first_local_sequence_number SBR.last_local_sequence_number SBR.entries
    SBRD.first_local_sequence_number SBRD.last_local_sequence_number SBRD.entries
    SBR.protocol_version SBRD.protocol_version] in Hhead, Hlast' |- *.
  unfold ReaderSync.decode_stored_batch, request_batch. cbn zeta.
  cbn [SBR.of_definition SBR.protocol_version SBR.first_local_sequence_number
    SBR.last_local_sequence_number SBR.entries SBRD.first_local_sequence_number
    SBRD.last_local_sequence_number SBRD.entries SBRD.protocol_version].
  pose proof (decode_sequence_value _ _ _ Hfirst) as Hf. pose proof (decode_sequence_value _ _ _ Hlast) as Hl.
  unfold ReaderSyncRequest.decode_protocol_version in Hversion.
  destruct (u16_try_from (BatchRow.protocol_version b)) as [v|]; [|done].
  cbn [ok_or mbind Result_bind] in Hversion |- *.
  destruct (DeviceProtocolVersion.new v) as [version'|]; [|done]. injection Hversion as ->.
  cbn [map_err mbind Result_bind].
  rewrite (decode_sequence_same _ _ _ _ Hfirst), (decode_sequence_same _ _ _ _ Hlast).
  cbn [mbind Result_bind]. rewrite (proj2 (Z.ltb_ge _ _)) by lia.
  unfold u32_try_from. rewrite decide_True by lia. cbn [ok_or mbind Result_bind].
  repeat match goal with Hx : at_least 0 _ = true |- _ => rewrite Hx; clear Hx end. cbn [negb].
  rewrite !(proj2 (Z.ltb_ge _ _)) by lia. rewrite Hes. cbn [mbind Result_bind].
  rewrite head_fmap in Hhead. rewrite fmap_last in Hlast'. rewrite head_fmap, fmap_last.
  destruct (head es) as [x|], (list.last es) as [y|]; try done. injection Hhead as <-.
  injection Hlast' as <-. cbn [fmap option_fmap option_map ok_or mbind Result_bind batch_entry
    SBE.local_sequence_number]. by rewrite decide_False by (by intros []).
Qed.

(** What the request of a batch in flight says of the batch. *)
Lemma load_batch_quiet id bid t request b :
  store_ok t ->
  outcome (ReaderSyncRequest.load_synchronization_batch_request id bid) (MkDb t []) = Ok request ->
  ReaderSync.find_batch id bid t = Some b -> BatchRow.attempt_count b <= 4294967295 ->
  ReaderSync.load_synchronization_batch id bid (MkDb t []) = (MkDb t [], Ok (request_batch b request)).
Proof.
  intros Hok Hload Hb Hatt. unfold ReaderSync.load_synchronization_batch. cbn zeta.
  rewrite quiet_query, Hb. cbn [ok_or]. rewrite quiet_lift_Ok, quiet_query.
  unfold lift. by rewrite (decode_batch_request _ _ _ _ _ Hok Hload Hb Hatt).
Qed.

(** An acknowledgement at the reader that answers a request. *)
Record answers_request (a : RA.t) (request : SBR.t) : Prop := {
  ar_reader : RA.reader_id a = SBR.reader_id request;
  ar_batch : RA.batch_id a = SBR.batch_id request;
  ar_version : RA.protocol_version a = SBR.protocol_version request;
  ar_first : RA.first_local_sequence_number a = SBR.first_local_sequence_number request;
  ar_last : RA.last_local_sequence_number a = SBR.last_local_sequence_number request;
  ar_entries : Forall2 (fun e s => RAE.transaction_id e = SRE.transaction_id s
    /\ RAE.local_sequence_number e = SRE.local_sequence_number s) (RA.entries a) (SBR.entries request)
}.

Lemma compare_entries_answers bid position entries submitted :
  Forall2 (fun e s => RAE.transaction_id e = SRE.transaction_id s
    /\ RAE.local_sequence_number e = SRE.local_sequence_number s) entries submitted ->
  RA.compare_entries bid position (batch_entry <$> submitted) entries = Ok tt.
Proof.
  intros Hans. revert position. induction Hans as [|e s entries submitted [Hid Hseq] _ IH];
    intros position; [done|]. cbn [fmap list_fmap RA.compare_entries batch_entry SBE.transaction_id
    SBE.local_sequence_number]. rewrite decide_False; [apply IH|]. by intros [[]|[]].
Qed.

Lemma validate_batch_answers a request b :
  answers_request a request -> RA.validate_against_batch a (request_batch b request) = Ok tt.
Proof.
  intros [_ _ Hv Hf Hl Hentries]. unfold RA.validate_against_batch, request_batch. cbn zeta.
  cbn [SynchronizationBatch.batch_id SynchronizationBatch.protocol_version
    SynchronizationBatch.first_local_sequence_number SynchronizationBatch.last_local_sequence_number
    SynchronizationBatch.entries].
  rewrite decide_False by (by intros []). rewrite decide_False by (by intros [[]|[]]).
  rewrite length_fmap. apply Forall2_length in Hentries as Hlen. rewrite decide_False by (by intros []).
  by apply compare_entries_answers.
Qed.

(** What is known of the batch of a request that was assembled. *)
Record batch_of_request (id : ReaderId) (bid : SynchronizationBatchId) t (request : SBR.t)
    (b : BatchRow.t) : Prop := {
  br_found : ReaderSync.find_batch id bid t = Some b;
  br_in_flight : BatchRow.batch_state b = SynchronizationBatchState.InFlight;
  br_reader : SBR.reader_id request = id;
  br_batch : SBR.batch_id request = bid;
  br_version : DeviceProtocolVersion.value (SBR.protocol_version request) = BatchRow.protocol_version b;
  br_first : LocalSequenceNumber.value (SBR.first_local_sequence_number request)
             = BatchRow.first_local_sequence_number b;
  br_last : LocalSequenceNumber.value (SBR.last_local_sequence_number request)
            = BatchRow.last_local_sequence_number b;
  br_entries : batch_ok (SBR.first_local_sequence_number request)
    (SBR.last_local_sequence_number request) (SRE.transaction_id <$> SBR.entries request)
    (SRE.local_sequence_number <$> SBR.entries request)
}.

Lemma loaded_batch id bid t request :
  outcome (ReaderSyncRequest.load_synchronization_batch_request id bid) (MkDb t []) = Ok request ->
  exists b, batch_of_request id bid t request b.
Proof.
  intros Hload. apply load_request_inv in Hload as (b & s & submitted & version & first & last & es
    & environment & software & Hb & Hst & _ & _ & Hversion & Hfirst & Hlast & _ & _ & _ & Hnew).
  exists b. pose proof (request_new_Ok _ _ Hnew) as Hok. apply request_new_of in Hnew as ->.
  split; try done; cbn.
  - unfold ReaderSyncRequest.decode_protocol_version in Hversion.
    apply Result_bind_Ok in Hversion as (v & Hv & Hversion). apply ok_or_Ok in Hv.
    unfold u16_try_from in Hv. case_decide; [|done]. injection Hv as <-.
    unfold DeviceProtocolVersion.new in Hversion. case_match; [done|]. by injection Hversion as <-.
  - by eapply decode_sequence_value.
  - by eapply decode_sequence_value.
Qed.

Lemma find_batch_lookup id bid t b :
  ReaderSync.find_batch id bid t = Some b ->
  synchronization_batches t !! bid = Some b /\ BatchRow.reader_id b = id.
Proof.
  unfold ReaderSync.find_batch. destruct (synchronization_batches t !! bid) as [x|]; [|done]. cbn.
  case_decide; [|done]. by intros [= ->].
Qed.

(** The sequence numbers of stored transactions fit [BIGINT]. *)
Lemma stored_sequence t x r :
  store_ok t -> offline_transactions t !! x = Some r ->
  0 < TX.local_sequence_number r <= i64_max
  /\ exists s, reader_state t = Some s /\ ReaderStateRow.reader_id s = TX.reader_id r
       /\ TX.local_sequence_number r < ReaderStateRow.next_local_sequence s.
Proof.
  intros Hok Hr. destruct (ok_transactions _ Hok _ _ Hr) as (_ & _ & Hs).
  apply fmap_Some in Hs as (s & Hs & Hid). destruct (ok_state _ Hok _ Hs) as [_ Hnext].
  assert (1 <= TX.local_sequence_number r < ReaderStateRow.next_local_sequence s) as Hseq.
  { apply (ok_sequences _ Hok _ _ Hs). eauto. }
  split; [lia|]. exists s. split_and!; [done..|lia].
Qed.

Lemma strictly_increasing_unique l : StronglySorted Z.lt l -> NoDup l.
Proof.
  induction 1 as [|x l _ IH Hx]; constructor; [|done]. intros Hin. rewrite Forall_forall in Hx.
  specialize (Hx _ Hin). lia.
Qed.

Lemma answered_entries a request :
  answers_request a request ->
  RAE.transaction_id <$> RA.entries a = SRE.transaction_id <$> SBR.entries request
  /\ sequence_of <$> RA.entries a
     = values (SRE.local_sequence_number <$> SBR.entries request).
Proof.
  intros [_ _ _ _ _ Hentries]. unfold values, sequence_of.
  induction Hentries as [|e s l k [Hid Hseq] _ [IHid IHseq]]; [done|].
  cbn. rewrite Hid, Hseq, IHid. split; [done|]. f_equal. exact IHseq.
Qed.

(** The row of a stored acknowledgement, and the tables that have it. *)
Definition stored_acknowledgement (a : RA.t) (payload : Str) : AcknowledgementRow.t :=
  AcknowledgementRow.mk (RA.batch_id a) (RA.reader_id a)
    (DeviceProtocolVersion.value (RA.protocol_version a))
    (LocalSequenceNumber.value (RA.first_local_sequence_number a))
    (LocalSequenceNumber.value (RA.last_local_sequence_number a))
    (RA.received_at_unix_milliseconds a) payload None.

Definition with_acknowledgement (a : RA.t) (payload : Str) t : ReaderTables :=
  set_synchronization_acknowledgements
    (<[RA.batch_id a := stored_acknowledgement a payload]> (synchronization_acknowledgements t)) t.

Definition acknowledged_tables (a : RA.t) (payload : Str) t : ReaderTables :=
  set_synchronization_acknowledgement_entries
    (synchronization_acknowledgement_entries t
       ++ acknowledgement_rows (RA.batch_id a) (RA.reader_id a) 0 (RA.entries a))
    (with_acknowledgement a payload t).

(** A text that the column of the payload takes. *)
Definition storable_payload (a : RA.t) (payload : Str) : Prop :=
  RA.canonical_payload a = Ok payload /\ sql_not_blank payload = true.

(** An acknowledgement that answers a request in flight, and is the first. *)
Record acceptable (a : RA.t) (payload : Str) id bid t (request : SBR.t) (b : BatchRow.t) : Prop := {
  ac_ok : store_ok t;
  ac_loaded : outcome (ReaderSyncRequest.load_synchronization_batch_request id bid) (MkDb t [])
              = Ok request;
  ac_batch : batch_of_request id bid t request b;
  ac_attempts : BatchRow.attempt_count b <= 4294967295;
  ac_answers : answers_request a request;
  ac_received : 0 <= RA.received_at_unix_milliseconds a;
  ac_resolutions : Forall (fun e => resolution_storable (RA.received_at_unix_milliseconds a)
                                      (RAE.resolution e)) (RA.entries a);
  ac_payload : storable_payload a payload;
  ac_first : synchronization_acknowledgements t !! bid = None
}.

Section acceptable.
Context {a : RA.t} {payload : Str} {id : ReaderId} {bid : SynchronizationBatchId} {t : ReaderTables}
  {request : SBR.t} {b : BatchRow.t} (Ha : acceptable a payload id bid t request b).

Lemma acceptable_ids : RA.reader_id a = id /\ RA.batch_id a = bid.
Proof using Ha. destruct Ha as [_ _ [_ _ Hr Hb _ _ _ _] _ [Hr' Hb' _ _ _ _] _ _ _ _]. split; congruence. Qed.

(** Each entry stands for a row of the queue and an entry of the batch. *)
Lemma acceptable_entry e :
  e ∈ RA.entries a ->
  (exists r, offline_transactions t !! RAE.transaction_id e = Some r /\ TX.reader_id r = id
     /\ TX.local_sequence_number r = sequence_of e)
  /\ has_entry bid t e /\ entry_storable (RA.received_at_unix_milliseconds a) e.
Proof using Ha.
  intros He. destruct (Forall2_in_l _ _ _ _ (ar_entries _ _ (ac_answers _ _ _ _ _ _ _ Ha)) He)
    as (s & Hs & Hid & Hseq).
  destruct (request_entry_row _ _ _ _ _ _ (ac_loaded _ _ _ _ _ _ _ Ha) Hs)
    as (r & Hr & Hrd & Hrs & _ & x & Hx & Hxb & Hxt).
  rewrite <- Hid in Hr, Hxt. rewrite <- Hseq in Hrs. split_and!.
  - exists r. split_and!; [done| |done]. rewrite Hrd. apply Ha.
  - by exists x.
  - split; [|pose proof (ac_resolutions _ _ _ _ _ _ _ Ha) as Hres; rewrite Forall_forall in Hres; auto].
    rewrite <- Hrs. by apply (stored_sequence t _ _ (ac_ok _ _ _ _ _ _ _ Ha) Hr).
Qed.

Lemma acceptable_unique :
  NoDup (RAE.transaction_id <$> RA.entries a) /\ NoDup (sequence_of <$> RA.entries a)
  /\ 1 <= Z.of_nat (length (RA.entries a)) <= 256.
Proof using Ha.
  destruct (answered_entries _ _ (ac_answers _ _ _ _ _ _ _ Ha)) as [Hids Hseqs].
  destruct (br_entries _ _ _ _ _ (ac_batch _ _ _ _ _ _ _ Ha)) as [Hcount _ _ Hu Hs].
  rewrite Hids, Hseqs. split_and!; [done|by apply strictly_increasing_unique|..];
    apply (f_equal length) in Hids; rewrite !length_fmap in Hids; rewrite length_fmap in Hcount; lia.
Qed.

Lemma acceptable_range :
  RA.sequence_to_i64 (RA.first_local_sequence_number a)
    = Ok (LocalSequenceNumber.value (RA.first_local_sequence_number a))
  /\ RA.sequence_to_i64 (RA.last_local_sequence_number a)
    = Ok (LocalSequenceNumber.value (RA.last_local_sequence_number a)).
Proof using Ha.
  destruct (br_entries _ _ _ _ _ (ac_batch _ _ _ _ _ _ _ Ha)) as [_ Hf Hl _ _].
  assert (forall n, n ∈ SRE.local_sequence_number <$> SBR.entries request ->
    RA.sequence_to_i64 n = Ok (LocalSequenceNumber.value n)) as Hn.
  { intros n (s & -> & Hs)%list_elem_of_fmap.
    destruct (request_entry_row _ _ _ _ _ _ (ac_loaded _ _ _ _ _ _ _ Ha) Hs) as (r & Hr & _ & Hrs & _).
    apply (stored_sequence t _ _ (ac_ok _ _ _ _ _ _ _ Ha)) in Hr as [Hr _].
    unfold RA.sequence_to_i64. by rewrite i64_try_from_in by int_lia. }
  rewrite (ar_first _ _ (ac_answers _ _ _ _ _ _ _ Ha)), (ar_last _ _ (ac_answers _ _ _ _ _ _ _ Ha)).
  split; apply Hn.
  - apply head_Some_elem_of in Hf. exact Hf.
  - by apply last_Some_elem_of in Hl.
Qed.

(** The row passes the checks of its table. *)
Lemma insert_acknowledgement_quiet :
  insert_acknowledgement (stored_acknowledgement a payload) t = Ok (with_acknowledgement a payload t, tt).
Proof using Ha.
  destruct acceptable_ids as [Hid Hbid].
  destruct Ha as [Hok _ [Hb _ _ _ Hv Hf Hl _] _ [_ _ Hv' Hf' Hl' _] Hr _ [_ Hpay] Hfirst].
  apply find_batch_lookup in Hb as [Hb Hrd]. destruct (ok_batches _ Hok _ _ Hb) as (_ & Hcheck & _).
  unfold batch_check in Hcheck. repeat (apply andb_prop in Hcheck as [Hcheck ?]).
  unfold insert_acknowledgement, acknowledgement_check, stored_acknowledgement.
  cbn -[i64_max Z.ltb Z.leb lit].
  rewrite Hv', Hf', Hl', Hv, Hf, Hl, Hpay, Hbid, Hid, (proj2 (Z.leb_le 0 _) Hr).
  rewrite decide_False by (rewrite Hfirst; by intros [? ?]). rewrite Hb. cbn [fmap option_fmap option_map].
  repeat match goal with Hx : _ = true |- _ => rewrite Hx; clear Hx end. cbn [andb negb].
  rewrite decide_True by congruence. unfold with_acknowledgement, stored_acknowledgement.
  by rewrite Hv', Hf', Hl', Hv, Hf, Hl, Hbid, Hid.
Qed.

Lemma room_at_start : room_for bid 0 (RA.entries a) (with_acknowledgement a payload t).
Proof using Ha.
  intros x Hx Hxb. cbn in Hx. destruct (ok_acknowledgements _ (ac_ok _ _ _ _ _ _ _ Ha)) as [_ Hent _ _ _].
  destruct (Hent _ Hx) as [_ Hrow]. rewrite Hxb, (ac_first _ _ _ _ _ _ _ Ha) in Hrow. done.
Qed.

(** Storing it succeeds. *)
Lemma store_acknowledgement_quiet :
  ReaderAcknowledgementStorage.store_synchronization_acknowledgement a (MkDb t [])
  = (MkDb (acknowledged_tables a payload t) [],
     Ok (StoredSynchronizationAcknowledgement.mk a false)).
Proof using Ha.
  destruct acceptable_ids as [Hid Hbid]. destruct acceptable_unique as (Hids & Hseqs & Hcount).
  pose proof insert_acknowledgement_quiet as Hins. pose proof (ac_batch _ _ _ _ _ _ _ Ha) as Hbatch.
  assert (Forall (fun e => has_entry bid (with_acknowledgement a payload t) e) (RA.entries a)
    /\ Forall (entry_storable (RA.received_at_unix_milliseconds a)) (RA.entries a)) as [Hent Hst].
  { split; apply Forall_forall; intros e He; by apply acceptable_entry. }
  unfold ReaderAcknowledgementStorage.store_synchronization_acknowledgement. cbn zeta.
  rewrite Hid, Hbid. erewrite quiet_bind_Ok.
  2: { eapply quiet_map_error, load_batch_quiet; apply Ha. }
  rewrite (validate_batch_answers _ _ _ (ac_answers _ _ _ _ _ _ _ Ha)), quiet_lift_Ok.
  rewrite (proj1 (ac_payload _ _ _ _ _ _ _ Ha)), quiet_lift_Ok.
  apply quiet_transaction_if; [|done].
  unfold ReaderAcknowledgementStorage.find_acknowledgement.
  rewrite quiet_query, (ac_first _ _ _ _ _ _ _ Ha). cbn [mbind option_bind].
  rewrite quiet_query, (br_found _ _ _ _ _ Hbatch). cbn [fmap option_fmap option_map].
  rewrite decide_False by (rewrite (br_in_flight _ _ _ _ _ Hbatch); by intros []).
  destruct acceptable_range as [-> ->]. rewrite !quiet_lift_Ok.
  unfold stored_acknowledgement in Hins. rewrite Hid, Hbid in Hins.
  erewrite quiet_bind_Ok; [|rewrite quiet_statement, Hins; reflexivity].
  erewrite quiet_bind_Ok.
  2: { eapply (insert_entries_quiet (RA.received_at_unix_milliseconds a));
       [apply Ha|done|cbn [Z.of_nat]; int_lia| |done|apply room_at_start|done|done].
       cbn. by rewrite Hbid, lookup_insert_eq, <- Hid. }
  unfold acknowledged_tables. by rewrite Hid, Hbid.
Qed.

End acceptable.

(** ** Applying it *)

Definition applied_resolution (resolution : SynchronizationEntryResolution.t) : AppliedResolution.t :=
  match resolution with
  | SynchronizationEntryResolution.Acknowledged => AppliedResolution.Acknowledged
  | SynchronizationEntryResolution.RetryableFailure category retry_at =>
      AppliedResolution.RetryableFailure category retry_at
  | SynchronizationEntryResolution.PermanentFailure category =>
      AppliedResolution.PermanentFailure category
  | SynchronizationEntryResolution.ManualReview category => AppliedResolution.ManualReview category
  end.

Definition decoded (e : RAE.t) : DE.t :=
  DE.mk (RAE.transaction_id e) (sequence_of e) (applied_resolution (RAE.resolution e)).

(** What a resolution makes of a row. *)
Definition settle_row (now : Z) (resolution : AppliedResolution.t) (r : OTR) : OTR :=
  let '(state, category, retry_at) := AppliedResolution.queue_values resolution in
  TX.set_state state (TX.attempt_count r) retry_at category now r.

Lemma validated_category category :
  trim category = category -> category <> [] ->
  ReaderAcknowledgementApplication.validated_failure_category (Some category) = Ok category.
Proof.
  intros Ht Hne. unfold ReaderAcknowledgementApplication.validated_failure_category.
  cbn [ok_or mbind Result_bind]. rewrite Ht. by rewrite decide_False.
Qed.

Lemma decode_entry_row received_at bid id position e :
  entry_storable received_at e ->
  let row := acknowledgement_row bid id position e in
  ReaderAcknowledgementApplication.decode_resolution (AE.outcome row) (AE.failure_category row)
    (AE.retry_at row) received_at = Ok (applied_resolution (RAE.resolution e)).
Proof.
  intros [_ Hres]. unfold acknowledgement_row.
  destruct (RAE.resolution e) as [|category retry_at|category|category]; cbn in Hres;
    cbn [RA.stored_resolution AE.outcome AE.failure_category AE.retry_at applied_resolution
      ReaderAcknowledgementApplication.decode_resolution].
  - by rewrite decide_False by (by intros [[]|[]]).
  - destruct Hres as [(_ & Ht & Hne) Hle]. rewrite validated_category by done.
    cbn [ok_or mbind Result_bind]. by rewrite (proj2 (Z.ltb_ge _ _)) by lia.
  - destruct Hres as (_ & Ht & Hne). rewrite decide_False by (by intros []).
    by rewrite validated_category.
  - destruct Hres as (_ & Ht & Hne). rewrite decide_False by (by intros []).
    by rewrite validated_category.
Qed.

(** What was stored is decoded. *)
Lemma decode_rows received_at bid id position entries :
  Forall (entry_storable received_at) entries ->
  Z.of_nat position + Z.of_nat (length entries) <= i64_max ->
  ReaderAcknowledgementApplication.decode_entries (Z.of_nat position)
    (acknowledgement_rows bid id position entries) received_at = Ok (decoded <$> entries).
Proof.
  revert position. induction entries as [|e entries IH]; intros position Hst Hpos; [done|].
  inversion Hst as [|? ? He Hrest]; subst. cbn [length] in Hpos.
  destruct (acknowledgement_row_fields bid id position e) as (_ & _ & Ht & Hs & Hp).
  pose proof (decode_entry_row received_at bid id position e He) as Hdec. cbn zeta in Hdec.
  destruct He as [Hseq _]. fold (sequence_of e) in Hseq.
  cbn [acknowledgement_rows ReaderAcknowledgementApplication.decode_entries fmap list_fmap].
  rewrite Ht, Hs, Hp, Hdec. unfold u64_try_from. rewrite !decide_True by int_lia.
  cbn [ok_or mbind Result_bind]. rewrite decide_False by (by intros []).
  rewrite (proj2 (Z.eqb_neq _ _)) by lia.
  replace (Z.of_nat position + 1) with (Z.of_nat (S position)) by lia.
  rewrite IH by (done || lia). done.
Qed.

Lemma acknowledgement_rows_sorted bid id position entries :
  Sorted Z.le (AE.entry_position <$> acknowledgement_rows bid id position entries).
Proof.
  revert position. induction entries as [|e entries IH]; intros position; cbn; [constructor|].
  constructor; [apply IH|]. destruct entries as [|e' entries]; cbn; constructor.
  destruct (acknowledgement_row_fields bid id position e) as (_ & _ & _ & _ & ->).
  destruct (acknowledgement_row_fields bid id (S position) e') as (_ & _ & _ & _ & ->). lia.
Qed.

Lemma acknowledgement_rows_of bid id position entries x :
  x ∈ acknowledgement_rows bid id position entries -> AE.batch_id x = bid /\ AE.reader_id x = id.
Proof.
  revert position. induction entries as [|e entries IH]; intros position; cbn.
  { by intros ?%elem_of_nil. }
  intros [->|Hx]%elem_of_cons; [|by eapply IH].
  by destruct (acknowledgement_row_fields bid id position e) as (? & ? & _).
Qed.

(** The rows of the acknowledgement are read back, in order. *)
Lemma select_rows l bid id entries t :
  synchronization_acknowledgement_entries t = l ++ acknowledgement_rows bid id 0 entries ->
  (forall x, x ∈ l -> AE.batch_id x <> bid) ->
  select_acknowledgement_entries
    (fun x => bool_decide (AE.batch_id x = bid /\ AE.reader_id x = id)) t
  = acknowledgement_rows bid id 0 entries.
Proof.
  intros Heq Hl. unfold select_acknowledgement_entries. rewrite Heq, filter_app.
  rewrite (filter_all _ (acknowledgement_rows _ _ _ _)).
  2: { intros x Hx%acknowledgement_rows_of. by apply bool_decide_eq_true. }
  replace (base.filter _ l) with (@nil AE.t); [apply order_by_id, acknowledgement_rows_sorted|].
  symmetry. apply elem_of_nil_inv. intros x [[Hp _]%bool_decide_eq_true Hx]%list_elem_of_filter.
  by apply (Hl x Hx).
Qed.

(** A row that the application of an entry finds. *)
Definition row_due (id : ReaderId) (now : Z) (e : RAE.t) (r : OTR) : Prop :=
  TX.reader_id r = id /\ TX.local_sequence_number r = sequence_of e
  /\ TX.queue_state r = OfflineQueueState.InFlight /\ TX.updated_at r <= now.

Lemma settled_row_check received_at now e r :
  offline_transaction_check r = true -> 0 <= received_at -> entry_storable received_at e ->
  TX.updated_at r <= now ->
  offline_transaction_check (settle_row now (applied_resolution (RAE.resolution e)) r) = true.
Proof.
  intros Hc Hr [_ Hres] Hup. unfold offline_transaction_check in *.
  repeat (apply andb_prop in Hc as [Hc ?]). unfold settle_row.
  destruct (RAE.resolution e); cbn in Hres; cbn -[Z.ltb Z.leb];
    repeat match goal with Hx : _ = true |- _ => rewrite Hx; clear Hx end; cbn [andb].
  all: try rewrite (proj2 (Z.leb_le 0 _)) by (destruct Hres; lia).
  all: cbn [andb]; rewrite (proj2 (Z.leb_le _ _)); [done|lia].
Qed.

Lemma apply_entry_quiet received_at id now e t r :
  keyed t -> offline_transactions t !! RAE.transaction_id e = Some r ->
  offline_transaction_check r = true -> 0 <= received_at -> entry_storable received_at e ->
  row_due id now e r ->
  ReaderAcknowledgementApplication.apply_entry id now (decoded e) (MkDb t [])
  = (MkDb (set_offline_transactions
       (<[RAE.transaction_id e := settle_row now (applied_resolution (RAE.resolution e)) r]>
          (offline_transactions t)) t) [], Ok tt).
Proof.
  intros Hkeyed Hr Hc Hrec He (Hid & Hseq & Hst & Hup).
  pose proof (settled_row_check _ now _ _ Hc Hrec He Hup) as Hcheck. revert Hcheck.
  unfold ReaderAcknowledgementApplication.apply_entry, decoded, settle_row. cbn zeta.
  cbn [DE.transaction_id DE.local_sequence_number DE.resolution].
  destruct (AppliedResolution.queue_values _) as [[state category] retry_at]. intros Hcheck.
  erewrite quiet_bind_Ok.
  2: { rewrite quiet_statement. unfold update_offline_transactions.
    erewrite (update_where_at _ _ _ _ (RAE.transaction_id e) r); [reflexivity| |done| |done].
    - intros k r' Hr' Hp. rewrite <- (Hkeyed _ _ Hr').
      apply andb_prop in Hp as [Hp _]. apply andb_prop in Hp as [Hp _].
      apply andb_prop in Hp as [Hp _]. by apply bool_decide_eq_true in Hp as [-> _].
    - unfold ReaderQueueState.addresses, ReaderQueueState.is_in_flight.
      rewrite Hid, Hseq, Hst, (Hkeyed _ _ Hr), (proj2 (Z.leb_le _ _) Hup).
      by rewrite !bool_decide_eq_true_2. }
  by rewrite decide_False by (by intros []).
Qed.

(** The entries together: each of their rows is settled, no other changes. *)
Lemma apply_entries_quiet received_at id now entries t :
  keyed t -> 0 <= received_at -> Forall (entry_storable received_at) entries ->
  NoDup (RAE.transaction_id <$> entries) ->
  (forall e, e ∈ entries -> exists r, offline_transactions t !! RAE.transaction_id e = Some r
     /\ offline_transaction_check r = true /\ row_due id now e r) ->
  exists m, ReaderAcknowledgementApplication.apply_entries id now (decoded <$> entries) (MkDb t [])
      = (MkDb (set_offline_transactions m t) [], Ok tt)
    /\ (forall e r, e ∈ entries -> offline_transactions t !! RAE.transaction_id e = Some r ->
          m !! RAE.transaction_id e
          = Some (settle_row now (applied_resolution (RAE.resolution e)) r))
    /\ forall x, x ∉ RAE.transaction_id <$> entries -> m !! x = offline_transactions t !! x.
Proof.
  intros Hkeyed Hrec. revert t Hkeyed. induction entries as [|e entries IH]; intros t Hkeyed Hst Hids Hrows.
  { exists (offline_transactions t). cbn. split_and!; [by destruct t| |done].
    by intros e r ?%elem_of_nil. }
  inversion Hst as [|? ? He Hrest]; subst. cbn [fmap list_fmap] in Hids.
  apply NoDup_cons in Hids as [Hnew Hids].
  destruct (Hrows e ltac:(left)) as (r & Hr & Hc & Hdue).
  set (r' := settle_row now (applied_resolution (RAE.resolution e)) r).
  set (t' := set_offline_transactions (<[RAE.transaction_id e := r']> (offline_transactions t)) t).
  assert (forall x, x ≠ RAE.transaction_id e ->
    offline_transactions t' !! x = offline_transactions t !! x) as Hother
    by (intros x Hx; cbn; by rewrite lookup_insert_ne).
  assert (forall e', e' ∈ entries -> RAE.transaction_id e' ≠ RAE.transaction_id e) as Hne.
  { intros e' He' Heq. apply Hnew. rewrite <- Heq. by apply list_elem_of_fmap_2. }
  destruct (IH t') as (m & Hrun & Hm & Hmother); [|done|done|..].
  - intros x y Hy. destruct (decide (x = RAE.transaction_id e)) as [->|Hx].
    + cbn in Hy. rewrite lookup_insert_eq in Hy. injection Hy as <-. unfold r', settle_row.
      destruct (AppliedResolution.queue_values _) as [[? ?] ?]. exact (Hkeyed _ _ Hr).
    + rewrite Hother in Hy by done. by apply Hkeyed.
  - intros e' He'. rewrite Hother by auto. apply Hrows. by right.
  - exists m. split_and!.
    + cbn [fmap list_fmap ReaderAcknowledgementApplication.apply_entries].
      erewrite quiet_bind_Ok; [|by eapply apply_entry_quiet]. exact Hrun.
    + intros e' x He' Hx. apply elem_of_cons in He' as [->|He'].
      * rewrite Hmother by done. cbn. rewrite lookup_insert_eq. unfold r'. congruence.
      * apply Hm; [done|]. rewrite Hother; auto.
    + intros x Hx. apply not_elem_of_cons in Hx as [Hx Hxs]. rewrite Hmother by done. auto.
Qed.

(** The contiguous sequence is found: where it was, or at a row. *)
Lemma advance_total last expected l :
  (forall n state, (n, state) ∈ l -> 0 < n <= i64_max) ->
  exists a, ReaderAcknowledgementApplication.advance last expected l = Ok a
    /\ (a = last \/ exists state, (a, state) ∈ l).
Proof.
  revert last expected. induction l as [|[n state] l IH]; intros last expected Hl.
  { exists last. split; [done|by left]. }
  cbn [ReaderAcknowledgementApplication.advance]. pose proof (Hl n state ltac:(left)) as Hn.
  unfold u64_try_from. rewrite decide_True by int_lia. cbn [ok_or mbind Result_bind].
  rewrite (proj2 (Z.eqb_neq _ _)) by lia.
  case_decide; [exists last; split; [done|by left]|].
  destruct (ReaderAcknowledgementApplication.is_resolved_queue_state state); cbn [negb];
    [|exists last; split; [done|by left]].
  unfold u64_checked_add, u64_try_from. rewrite decide_True by int_lia. cbn [ok_or mbind Result_bind].
  destruct (IH n (n + 1)) as (a & -> & Ha); [intros k s' Hk; apply (Hl k s'); by right|].
  exists a. split; [done|]. right. destruct Ha as [->|[s' Hs']]; [exists state; by left|].
  exists s'. by right.
Qed.

Lemma contiguous_total current l :
  0 <= current <= i64_max -> (forall n state, (n, state) ∈ l -> 0 < n <= i64_max) ->
  exists a, ReaderAcknowledgementApplication.contiguous_resolved_sequence current l = Ok a
    /\ (a = current \/ exists state, (a, state) ∈ l).
Proof.
  intros Hc Hl. unfold ReaderAcknowledgementApplication.contiguous_resolved_sequence, u64_checked_add,
    u64_try_from. rewrite decide_True by int_lia. cbn [ok_or mbind Result_bind]. by apply advance_total.
Qed.

(** The reader's row after the advance. *)
Lemma advance_reader_state_quiet id now current advanced t s :
  reader_state t = Some s -> ReaderStateRow.reader_id s = id -> reader_state_check s = true ->
  ReaderStateRow.next_local_sequence s <= i64_max ->
  current = ReaderStateRow.last_acknowledged_sequence s ->
  advanced < ReaderStateRow.next_local_sequence s ->
  exists s', ReaderAcknowledgementApplication.advance_reader_state id now current advanced (MkDb t [])
    = (MkDb (set_reader_state (Some s') t) [], Ok tt).
Proof.
  intros Hs Hid Hc Hmax -> Hadv. unfold ReaderAcknowledgementApplication.advance_reader_state.
  destruct (Z.ltb_spec (ReaderStateRow.last_acknowledged_sequence s) advanced) as [Hlt|];
    [|exists s; rewrite <- Hs; by destruct t].
  unfold reader_state_check in Hc. repeat (apply andb_prop in Hc as [Hc ?]).
  repeat match goal with
  | Hx : (_ <? _) = true |- _ => apply Z.ltb_lt in Hx
  | Hx : (_ <=? _) = true |- _ => apply Z.leb_le in Hx
  end.
  rewrite i64_try_from_in by int_lia. cbn [ok_or]. rewrite quiet_lift_Ok.
  eexists. erewrite quiet_bind_Ok.
  2: { rewrite quiet_statement. unfold update_reader_state. rewrite Hs.
    rewrite (proj2 (Z.leb_le _ advanced)), (proj2 (Z.ltb_lt advanced _)), bool_decide_eq_true_2 by (done || lia).
    cbn [andb]. unfold reader_state_check. cbn -[Z.ltb Z.leb].
    repeat (rewrite (proj2 (Z.ltb_lt _ _)) by lia). repeat (rewrite (proj2 (Z.leb_le _ _)) by lia).
    cbn [andb].
    match goal with Hx : sql_not_blank (ReaderStateRow.software_version s) = true |- _ => rewrite Hx end.
    rewrite Hc. reflexivity. }
  by rewrite decide_False.
Qed.

(** Everything is in flight, and nothing was touched after [now]. *)
Record batch_due (a : RA.t) (now : Z) t (b : BatchRow.t) : Prop := {
  bd_received : RA.received_at_unix_milliseconds a <= now;
  bd_batch : BatchRow.updated_at b <= now;
  bd_rows : forall e r, e ∈ RA.entries a -> offline_transactions t !! RAE.transaction_id e = Some r ->
    TX.queue_state r = OfflineQueueState.InFlight /\ TX.updated_at r <= now
}.

(** The batch as the application leaves it. *)
Definition acknowledged_batch (now : Z) (b : BatchRow.t) : BatchRow.t :=
  BatchRow.set_state SynchronizationBatchState.Acknowledged (BatchRow.attempt_count b)
    (BatchRow.submitted_at b) None None now b.

Section applied.
Context {a : RA.t} {payload : Str} {id : ReaderId} {bid : SynchronizationBatchId} {t : ReaderTables}
  {request : SBR.t} {b : BatchRow.t} (Ha : acceptable a payload id bid t request b).
Context {now : Z} (Hdue : batch_due a now t b).

#[local] Abbreviation t1 := (acknowledged_tables a payload t).

Lemma acknowledged_tables_ok : store_ok t1.
Proof using Ha.
  pose proof (store_synchronization_acknowledgement_kept a t (ac_ok _ _ _ _ _ _ _ Ha) []) as Hk.
  unfold wp in Hk. rewrite (store_acknowledgement_quiet Ha) in Hk. apply Hk.
Qed.

Lemma applied_entries :
  exists m, ReaderAcknowledgementApplication.apply_entries id now (decoded <$> RA.entries a) (MkDb t1 [])
      = (MkDb (set_offline_transactions m t1) [], Ok tt)
    /\ store_ok (set_offline_transactions m t1)
    /\ (forall e r, e ∈ RA.entries a -> offline_transactions t !! RAE.transaction_id e = Some r ->
          m !! RAE.transaction_id e
          = Some (settle_row now (applied_resolution (RAE.resolution e)) r))
    /\ forall x, x ∉ RAE.transaction_id <$> RA.entries a -> m !! x = offline_transactions t !! x.
Proof using Ha Hdue.
  pose proof acknowledged_tables_ok as Hok. destruct (acceptable_unique Ha) as (Hids & _ & _).
  destruct (apply_entries_quiet (RA.received_at_unix_milliseconds a) id now (RA.entries a) t1)
    as (m & Hrun & Hm & Hother).
  - by apply store_ok_keyed.
  - apply Ha.
  - apply Forall_forall. intros e He. by apply (acceptable_entry Ha).
  - done.
  - intros e He. destruct (acceptable_entry Ha _ He) as [(r & Hr & Hrd & Hseq) _]. exists r.
    destruct (bd_rows _ _ _ _ Hdue _ _ He Hr) as [Hst Hup]. split_and!; [done| |by split_and!].
    apply (ok_transactions _ (ac_ok _ _ _ _ _ _ _ Ha) _ _ Hr).
  - exists m. split_and!; [done| |done|done].
    pose proof (apply_entries_kept id now (decoded <$> RA.entries a) t1 t1 (kept_refl _ Hok) Hok []) as Hk.
    unfold wp in Hk. rewrite Hrun in Hk. apply Hk.
Qed.

(** The batch is settled. *)
Lemma applied_batch t' :
  synchronization_batches t' = synchronization_batches t ->
  update_batches (fun b => ReaderSyncState.addresses bid id now b && ReaderSyncState.is_in_flight b)
    (acknowledged_batch now) t'
  = Ok (set_synchronization_batches
          (<[bid := acknowledged_batch now b]> (synchronization_batches t)) t', 1).
Proof using Ha Hdue.
  intros Heq. pose proof (ac_ok _ _ _ _ _ _ _ Ha) as Hok.
  pose proof (ac_batch _ _ _ _ _ _ _ Ha) as Hbatch.
  destruct (find_batch_lookup _ _ _ _ (br_found _ _ _ _ _ Hbatch)) as [Hb Hrd].
  destruct (ok_batches _ Hok _ _ Hb) as (Hid & Hcheck & _).
  unfold update_batches. rewrite Heq. erewrite update_where_at; [reflexivity| |exact Hb|..].
  - intros k r Hr [Hp _]%andb_prop. apply andb_prop in Hp as [Hp _].
    apply bool_decide_eq_true in Hp as [Hp _]. rewrite <- Hp. symmetry. by apply (ok_batches _ Hok _ _ Hr).
  - unfold ReaderSyncState.addresses, ReaderSyncState.is_in_flight.
    rewrite (proj2 (Z.leb_le _ _) (bd_batch _ _ _ _ Hdue)), Hid, Hrd, (br_in_flight _ _ _ _ _ Hbatch).
    by rewrite !bool_decide_eq_true_2.
  - pose proof (bd_batch _ _ _ _ Hdue) as Hup. unfold batch_check in *. cbn -[Z.ltb Z.leb].
    repeat (apply andb_prop in Hcheck as [Hcheck ?]).
    repeat match goal with
    | Hx : (_ <=? BatchRow.updated_at b) = true |- _ => apply Z.leb_le in Hx
    | Hx : _ = true |- _ => rewrite Hx; clear Hx
    end. cbn [andb]. by rewrite (proj2 (Z.leb_le _ _)) by lia.
Qed.

(** The acknowledgement is marked. *)
Lemma applied_mark t' :
  synchronization_acknowledgements t' = synchronization_acknowledgements t1 ->
  exists m, update_acknowledgements
    (fun x => bool_decide (AcknowledgementRow.batch_id x = bid /\ AcknowledgementRow.reader_id x = id
                           /\ AcknowledgementRow.applied_at x = None))
    (AcknowledgementRow.set_applied_at now) t'
  = Ok (set_synchronization_acknowledgements m t', 1).
Proof using Ha Hdue.
  intros Heq. destruct (acceptable_ids Ha) as [Hid Hbid].
  pose proof (ok_acknowledgements _ acknowledged_tables_ok) as [Hkeys _ _ _ _].
  unfold update_acknowledgements. rewrite Heq. eexists.
  erewrite (update_where_at _ _ _ _ bid (stored_acknowledgement a payload)); [reflexivity|..].
  - intros k x Hx (Hp & _)%bool_decide_eq_true. rewrite <- Hp. symmetry.
    by apply (Hkeys _ _ Hx).
  - cbn. by rewrite Hbid, lookup_insert_eq.
  - by apply bool_decide_eq_true.
  - pose proof (insert_acknowledgement_quiet Ha) as Hins. unfold insert_acknowledgement in Hins.
    destruct (acknowledgement_check _) eqn:Hc; [|done]. unfold acknowledgement_check in *.
    cbn -[Z.ltb Z.leb] in Hc |- *. repeat (apply andb_prop in Hc as [Hc ?]).
    repeat match goal with Hx : _ = true |- _ => rewrite Hx; clear Hx end. cbn [andb].
    apply Z.leb_le, (bd_received _ _ _ _ Hdue).
Qed.

(** The steps after the entries. *)
Lemma apply_unapplied_quiet s :
  reader_state t = Some s -> ReaderStateRow.reader_id s = id ->
  exists advanced t',
    ReaderAcknowledgementApplication.apply_unapplied id bid now (decoded <$> RA.entries a)
      (ReaderStateRow.last_acknowledged_sequence s) (MkDb t1 []) = (MkDb t' [], Ok advanced)
    /\ synchronization_batches t' !! bid = Some (acknowledged_batch now b)
    /\ (forall e r, e ∈ RA.entries a -> offline_transactions t !! RAE.transaction_id e = Some r ->
          offline_transactions t' !! RAE.transaction_id e
          = Some (settle_row now (applied_resolution (RAE.resolution e)) r))
    /\ forall x, x ∉ RAE.transaction_id <$> RA.entries a ->
         offline_transactions t' !! x = offline_transactions t !! x.
Proof using Ha Hdue.
  intros Hs Hid. destruct applied_entries as (m & Hrun & Hok & Hm & Hother).
  pose proof (ac_batch _ _ _ _ _ _ _ Ha) as Hbatch.
  unfold ReaderAcknowledgementApplication.apply_unapplied. cbn zeta.
  rewrite quiet_query. change (ReaderSync.find_batch id bid t1) with (ReaderSync.find_batch id bid t).
  rewrite (br_found _ _ _ _ _ Hbatch). cbn [fmap option_fmap option_map].
  rewrite decide_False by (rewrite (br_in_flight _ _ _ _ _ Hbatch); by intros []).
  rewrite (quiet_bind_Ok _ _ _ _ _ Hrun).
  erewrite quiet_bind_Ok; [|rewrite quiet_statement, applied_batch by done; reflexivity].
  rewrite decide_False by (by intros []). rewrite quiet_query.
  destruct (ok_state _ Hok s Hs) as [Hcheck Hmax].
  assert (0 <= ReaderStateRow.last_acknowledged_sequence s < ReaderStateRow.next_local_sequence s)
    as Hlast by (unfold reader_state_check in Hcheck; lia).
  match goal with |- context [lift (ReaderAcknowledgementApplication.contiguous_resolved_sequence _ ?l)] =>
    assert (forall n state, (n, state) ∈ l ->
      0 < n <= i64_max /\ n < ReaderStateRow.next_local_sequence s) as Hl end.
  { intros n state (r & [= -> ->] & Hr)%list_elem_of_fmap.
    apply elem_of_select_offline_transactions in Hr as [_ [x Hx]].
    destruct (stored_sequence _ x r Hok Hx) as [Hn (s' & Hs' & _ & Hlt)].
    assert (s' = s) as -> by (cbn in Hs'; congruence). done. }
  match goal with |- context [lift (ReaderAcknowledgementApplication.contiguous_resolved_sequence _ ?l)] =>
    destruct (contiguous_total (ReaderStateRow.last_acknowledged_sequence s) l) as (advanced & -> & Hadv);
      [lia|intros n state Hn; by eapply Hl|] end.
  rewrite quiet_lift_Ok.
  assert (advanced < ReaderStateRow.next_local_sequence s) as Hlt.
  { destruct Hadv as [->|[state Hin]]; [lia|]. by destruct (Hl _ _ Hin). }
  match goal with |- context [MkDb ?t2 []] =>
    destruct (advance_reader_state_quiet id now (ReaderStateRow.last_acknowledged_sequence s) advanced
      t2 s Hs Hid Hcheck Hmax eq_refl Hlt) as [s' Hadvance] end.
  rewrite (quiet_bind_Ok _ _ _ _ _ Hadvance).
  match type of Hadvance with _ = (MkDb ?t3 [], _) => destruct (applied_mark t3) as [acks Hmark]; [done|] end.
  exists advanced. eexists.
  erewrite quiet_bind_Ok; [|rewrite quiet_statement, Hmark; reflexivity].
  rewrite decide_False by (by intros []). split_and!; [reflexivity|..]; cbn.
  - by rewrite lookup_insert_eq.
  - exact Hm.
  - exact Hother.
Qed.

(** Applying the stored acknowledgement succeeds, and does what it says. *)
Lemma apply_quiet :
  exists report t',
    ReaderAcknowledgementApplication.apply_synchronization_acknowledgement id bid now (MkDb t1 [])
      = (MkDb t' [], Ok report)
    /\ SynchronizationAcknowledgementApplication.applied_now report = true
    /\ synchronization_batches t' !! bid = Some (acknowledged_batch now b)
    /\ (forall e r, e ∈ RA.entries a -> offline_transactions t !! RAE.transaction_id e = Some r ->
          offline_transactions t' !! RAE.transaction_id e
          = Some (settle_row now (applied_resolution (RAE.resolution e)) r))
    /\ forall x, x ∉ RAE.transaction_id <$> RA.entries a ->
         offline_transactions t' !! x = offline_transactions t !! x.
Proof using Ha Hdue.
  destruct (acceptable_ids Ha) as [Hid Hbid]. destruct (acceptable_unique Ha) as (_ & _ & Hcount).
  pose proof (ac_received _ _ _ _ _ _ _ Ha) as Hrec. pose proof (bd_received _ _ _ _ Hdue) as Hnow.
  destruct (find_batch_lookup _ _ _ _ (br_found _ _ _ _ _ (ac_batch _ _ _ _ _ _ _ Ha))) as [Hb Hrd].
  destruct (ok_batches _ (ac_ok _ _ _ _ _ _ _ Ha) _ _ Hb) as (_ & _ & Hs).
  apply fmap_Some in Hs as (s & Hs & Hsid). rewrite Hrd in Hsid. symmetry in Hsid.
  destruct (apply_unapplied_quiet s Hs Hsid) as (advanced & t' & Hrun & Hrest).
  exists (ReaderAcknowledgementApplication.application_report bid true now
    (ReaderAcknowledgementApplication.resolution_counts (decoded <$> RA.entries a)) advanced), t'.
  split; [|by split].
  unfold ReaderAcknowledgementApplication.apply_synchronization_acknowledgement. cbn zeta.
  rewrite (proj2 (Z.ltb_ge _ _)) by lia. apply quiet_transaction_if; [|done].
  rewrite quiet_query.
  assert (ReaderAcknowledgementStorage.find_acknowledgement id bid t1
    = Some (stored_acknowledgement a payload)) as ->.
  { unfold ReaderAcknowledgementStorage.find_acknowledgement. cbn.
    rewrite Hbid, lookup_insert_eq. cbn. by rewrite decide_True. }
  cbn [ok_or]. rewrite quiet_lift_Ok. cbn zeta. cbn [stored_acknowledgement AcknowledgementRow.received_at
    AcknowledgementRow.applied_at]. rewrite (proj2 (Z.ltb_ge _ _)) by lia. rewrite quiet_query.
  rewrite (select_rows (synchronization_acknowledgement_entries t) bid id (RA.entries a)).
  2: { cbn. by rewrite Hid, Hbid. }
  2: { intros x Hx Hxb. destruct (room_at_start Ha x Hx Hxb) as [Hpos _].
    destruct (ok_acknowledgements _ (ac_ok _ _ _ _ _ _ _ Ha)) as [_ Hent _ _ _].
    destruct (Hent _ Hx) as [_ Hrow]. by rewrite Hxb, (ac_first _ _ _ _ _ _ _ Ha) in Hrow. }
  rewrite (decode_rows _ bid id 0%nat); [|apply Forall_forall; intros e He; by apply (acceptable_entry Ha)
    |int_lia].
  rewrite quiet_lift_Ok, length_fmap, decide_False by lia. rewrite quiet_query.
  change (reader_state t1) with (reader_state t). rewrite Hs. cbn [mbind option_bind].
  rewrite decide_True by done. cbn [fmap option_fmap option_map ok_or]. rewrite quiet_lift_Ok.
  destruct (ok_state _ (ac_ok _ _ _ _ _ _ _ Ha) s Hs) as [Hcheck Hmax].
  unfold u64_try_from. rewrite decide_True by (unfold reader_state_check in Hcheck; int_lia).
  cbn [ok_or]. rewrite quiet_lift_Ok. cbn match. rewrite (proj2 (Z.ltb_ge _ _)) by lia.
  by rewrite (quiet_bind_Ok _ _ _ _ _ Hrun).
Qed.

End applied.

(** ** The message of the protocol *)

(** What the reader makes of an entry, and of an acknowledgement. *)
Definition entry_resolution (e : SAE.t) : SynchronizationEntryResolution.t :=
  let category := default [] (SynchronizationFailureCategory.as_str <$> SAE.failure_category e) in
  match SAE.outcome e with
  | SynchronizationEntryOutcome.Acknowledged => SynchronizationEntryResolution.Acknowledged
  | SynchronizationEntryOutcome.RetryableFailure =>
      SynchronizationEntryResolution.RetryableFailure category
        (default 0 (SAE.next_retry_at_unix_milliseconds e))
  | SynchronizationEntryOutcome.PermanentFailure =>
      SynchronizationEntryResolution.PermanentFailure category
  | SynchronizationEntryOutcome.ManualReview => SynchronizationEntryResolution.ManualReview category
  end.

Definition reader_entry (e : SAE.t) : RAE.t :=
  RAE.new (SAE.transaction_id e) (SAE.local_sequence_number e) (entry_resolution e).

Definition reader_acknowledgement (a : SBA.t) : RA.t :=
  RA.mk (SBA.reader_id a) (SBA.batch_id a) (SBA.protocol_version a)
    (SBA.first_local_sequence_number a) (SBA.last_local_sequence_number a)
    (SBA.received_at_unix_milliseconds a) (reader_entry <$> SBA.entries a).

(** No retry before the acknowledgement. *)
Definition retries_later (a : SBA.t) : Prop :=
  forall (e : SAE.t) z, e ∈ SBA.entries a -> SAE.next_retry_at_unix_milliseconds e = Some z ->
    SBA.received_at_unix_milliseconds a <= z.

Lemma category_text category :
  let text := SynchronizationFailureCategory.as_str category in
  sql_not_blank text = true /\ trim text = text /\ text <> [].
Proof. by destruct category; vm_compute. Qed.

Lemma entry_resolution_storable a (e : SAE.t) :
  e ∈ SBA.entries a -> SAE.wf e -> retries_later a ->
  ReaderProtocolAcknowledgement.translate_entry e = Ok (reader_entry e)
  /\ resolution_storable (SBA.received_at_unix_milliseconds a) (entry_resolution e).
Proof.
  intros He Hwf Hretries. specialize (Hretries e). apply validate_outcome_metadata_Ok in Hwf.
  unfold ReaderProtocolAcknowledgement.translate_entry,
    ReaderProtocolAcknowledgement.required_failure_category, reader_entry, entry_resolution.
  destruct (SAE.outcome e), (SAE.failure_category e) as [category|],
    (SAE.next_retry_at_unix_milliseconds e) as [z|]; try (exfalso; naive_solver);
    (split; [done|]); cbn [resolution_storable default fmap option_fmap option_map]; try done;
    try apply category_text. split; [apply category_text|auto].
Qed.

Lemma resolution_valid received_at id resolution :
  resolution_storable received_at resolution -> RA.validate_resolution id resolution received_at = Ok tt.
Proof.
  unfold RA.validate_resolution, RA.validate_failure_category. intros Hres.
  destruct resolution as [|category retry_at|category|category]; cbn in Hres; [done|..].
  - destruct Hres as [(_ & Ht & Hne) Hle]. rewrite Ht, decide_False by done.
    cbn [mbind Result_bind]. by rewrite (proj2 (Z.ltb_ge _ _)) by lia.
  - destruct Hres as (_ & Ht & Hne). by rewrite Ht, decide_False.
  - destruct Hres as (_ & Ht & Hne). by rewrite Ht, decide_False.
Qed.

Lemma validate_entries_total received_at (entries : list RAE.t) ids seqs :
  Forall (fun e => resolution_storable received_at (RAE.resolution e)) entries ->
  NoDup (RAE.transaction_id <$> entries) -> NoDup (sequence_of <$> entries) ->
  (forall e, e ∈ entries -> (RAE.transaction_id e ∉ ids) /\ (sequence_of e ∉ seqs)) ->
  RA.validate_entries received_at ids seqs entries = Ok tt.
Proof.
  revert ids seqs. induction entries as [|e entries IH]; intros ids seqs Hres Hids Hseqs Hnew; [done|].
  inversion Hres; subst. cbn [fmap list_fmap] in Hids, Hseqs.
  apply NoDup_cons in Hids as [Hid Hids], Hseqs as [Hseq Hseqs].
  destruct (Hnew e ltac:(left)) as [Hn1 Hn2]. cbn [RA.validate_entries]. cbn zeta. fold (sequence_of e).
  rewrite !decide_False, resolution_valid by done. cbn [mbind Result_bind]. apply IH; [done..|].
  intros e' He'. destruct (Hnew e' ltac:(by right)) as [Hn1' Hn2'].
  apply (list_elem_of_fmap_2 RAE.transaction_id) in He' as Hi.
  apply (list_elem_of_fmap_2 sequence_of) in He' as Hq. set_solver.
Qed.

(** An acknowledgement as the protocol makes it is taken over. *)
Lemma translate_total d a :
  SBA.new d = Ok a -> Forall SAE.wf (SBA.entries a) -> retries_later a ->
  ReaderProtocolAcknowledgement.translate_protocol_synchronization_acknowledgement a = Ok (reader_acknowledgement a)
  /\ 0 <= SBA.received_at_unix_milliseconds a
  /\ Forall (fun e => resolution_storable (SBA.received_at_unix_milliseconds a) (RAE.resolution e))
       (RA.entries (reader_acknowledgement a)).
Proof.
  intros Hnew Hwf Hretries. rewrite Forall_forall in Hwf.
  pose proof (acknowledgement_new_Ok _ _ Hnew) as [Hcount Hf Hl Hids Hseqs].
  assert (0 <= SBA.received_at_unix_milliseconds a) as Hrec.
  { unfold SBA.new in Hnew. apply Result_bind_Ok in Hnew as ([] & Ht & Hnew).
    apply Result_bind_Ok in Hnew as ([] & _ & [= <-]). unfold validate_timestamp in Ht. cbn.
    case_match eqn:Hlt; [done|]. by apply Z.ltb_ge in Hlt. }
  assert (Forall (fun e => resolution_storable (SBA.received_at_unix_milliseconds a) (RAE.resolution e))
    (RA.entries (reader_acknowledgement a))) as Hres.
  { cbn. apply Forall_fmap, Forall_forall. intros e He. cbn.
    by apply (entry_resolution_storable _ _ He (Hwf _ He)). }
  split_and!; [|done|done].
  unfold ReaderProtocolAcknowledgement.translate_protocol_synchronization_acknowledgement.
  assert (try_map ReaderProtocolAcknowledgement.translate_entry (SBA.entries a)
    = Ok (reader_entry <$> SBA.entries a)) as ->.
  { assert (forall e, e ∈ SBA.entries a ->
      ReaderProtocolAcknowledgement.translate_entry e = Ok (reader_entry e)) as Htr
      by (intros e He; by apply (entry_resolution_storable a e He (Hwf _ He))).
    clear - Htr. induction (SBA.entries a) as [|e l IH]; [done|]. cbn.
    rewrite (Htr e ltac:(left)). cbn. rewrite IH; [done|]. intros e' He'. apply Htr. by right. }
  cbn [mbind Result_bind]. unfold RA.new. rewrite (proj2 (Z.ltb_ge _ 0)) by done.
  assert (LocalSequenceNumber.value (SBA.first_local_sequence_number a)
    <= LocalSequenceNumber.value (SBA.last_local_sequence_number a)) as Hrange.
  { apply (StronglySorted_head_last _ _ _ Hseqs); unfold values; rewrite ?head_fmap, ?fmap_last.
    - by rewrite <- head_fmap, Hf.
    - by rewrite <- fmap_last, Hl. }
  rewrite (proj2 (Z.ltb_ge _ _)) by done.
  rewrite decide_False.
  2: { intros Hnil%(f_equal length). rewrite length_fmap in Hnil. rewrite length_fmap in Hcount.
    cbn in Hnil. lia. }
  rewrite validate_entries_total; [done|exact Hres|..].
  - rewrite <- list_fmap_compose. exact Hids.
  - rewrite <- list_fmap_compose. apply strictly_increasing_unique in Hseqs. unfold values in Hseqs.
    rewrite <- list_fmap_compose in Hseqs. exact Hseqs.
  - intros e _. set_solver.
Qed.

Lemma received_answers a request :
  SBA.validate_against_request a request = Ok tt -> answers_request (reader_acknowledgement a) request.
Proof.
  intros [(Hv & _ & Hr & Hb & Hf & Hl) Hans]%validate_against_request_Ok. split; cbn; try done.
  apply Forall2_fmap_l. eapply Forall2_impl; [exact Hans|]. by intros e s [? ?].
Qed.

(** ** An acknowledgement that arrives settles its batch *)

(** The reader waits for the first acknowledgement of a batch: the batch and
    its transactions are in flight and last changed before [now], the time of
    the application. *)
Record waiting (id : ReaderId) (bid : SynchronizationBatchId) t (request : SBR.t) (now : Z) : Prop := {
  wt_loaded : outcome (ReaderSyncRequest.load_synchronization_batch_request id bid) (MkDb t [])
              = Ok request;
  wt_first : synchronization_acknowledgements t !! bid = None;
  wt_batch : forall b, synchronization_batches t !! bid = Some b ->
    BatchRow.attempt_count b <= 4294967295 /\ BatchRow.updated_at b <= now;
  wt_rows : forall e r, e ∈ SBR.entries request ->
    offline_transactions t !! SRE.transaction_id e = Some r ->
    TX.queue_state r = OfflineQueueState.InFlight /\ TX.updated_at r <= now
}.

(** An acknowledgement that answers the request, made by the protocol's
    constructors, with a text that can be stored. *)
Record acknowledging (request : SBR.t) (a : SBA.t) (payload : Str) : Prop := {
  ak_valid : SBA.validate_against_request a request = Ok tt;
  ak_made : exists d, SBA.new d = Ok a;
  ak_entries : Forall SAE.wf (SBA.entries a);
  ak_retries : retries_later a;
  ak_payload : storable_payload (reader_acknowledgement a) payload
}.

(** What an entry makes of its row. *)
Definition answered_row (now : Z) (e : SAE.t) (r : OTR) : OTR :=
  settle_row now (applied_resolution (entry_resolution e)) r.

(** The tables after the application of an acknowledgement. *)
Record settled_by (bid : SynchronizationBatchId) (a : SBA.t) (now : Z) t t' : Prop := {
  sb_batch : exists b, synchronization_batches t !! bid = Some b
    /\ synchronization_batches t' !! bid = Some (acknowledged_batch now b);
  sb_rows : forall e, e ∈ SBA.entries a ->
    exists r, offline_transactions t !! SAE.transaction_id e = Some r
      /\ offline_transactions t' !! SAE.transaction_id e = Some (answered_row now e r);
  sb_others : forall x, (x ∉ SAE.transaction_id <$> SBA.entries a) ->
    offline_transactions t' !! x = offline_transactions t !! x
}.

(** Both calls that follow a submission succeed. *)
Lemma waiting_settles id bid t request a payload now :
  store_ok t -> waiting id bid t request now -> acknowledging request a payload ->
  SBA.received_at_unix_milliseconds a <= now ->
  exists t1 t2 report,
    ReaderProtocolAcknowledgement.store_protocol_synchronization_acknowledgement a (MkDb t [])
      = (MkDb t1 [], Ok (StoredSynchronizationAcknowledgement.mk (reader_acknowledgement a) false))
    /\ ReaderAcknowledgementApplication.apply_synchronization_acknowledgement id bid now (MkDb t1 [])
      = (MkDb t2 [], Ok report)
    /\ SynchronizationAcknowledgementApplication.applied_now report = true
    /\ settled_by bid a now t t2.
Proof.
  intros Hok [Hload Hfirst Hbatch Hrows] [Hvalid [d Hnew] Hwf Hretries Hpay] Hnow.
  destruct (translate_total _ _ Hnew Hwf Hretries) as (Htr & Hrec & Hres).
  destruct (loaded_batch _ _ _ _ Hload) as [b Hb].
  destruct (find_batch_lookup _ _ _ _ (br_found _ _ _ _ _ Hb)) as [Hlook _].
  destruct (Hbatch _ Hlook) as [Hatt Hup].
  assert (acceptable (reader_acknowledgement a) payload id bid t request b) as Ha
    by (split; try done; by apply received_answers).
  assert (batch_due (reader_acknowledgement a) now t b) as Hdue.
  { split; [done|done|]. intros e r (e' & -> & He')%list_elem_of_fmap Hr.
    apply validate_against_request_Ok in Hvalid as [_ Hans].
    destruct (Forall2_in_l _ _ _ _ Hans He') as (x & Hx & Hid & _). cbn in Hr. rewrite Hid in Hr.
    by eapply Hrows. }
  destruct (apply_quiet Ha Hdue) as (report & t' & Happly & Hreport & Hb' & Hm & Hother).
  exists (acknowledged_tables (reader_acknowledgement a) payload t), t', report. split_and!; [|done|done|split].
  - unfold ReaderProtocolAcknowledgement.store_protocol_synchronization_acknowledgement.
    rewrite Htr, quiet_lift_Ok. apply quiet_map_error, (store_acknowledgement_quiet Ha).
  - by exists b.
  - intros e He. apply (list_elem_of_fmap_2 reader_entry) in He as Hin.
    destruct (acceptable_entry Ha _ Hin) as [(r & Hr & _) _]. exists r. split; [exact Hr|].
    exact (Hm _ _ Hin Hr).
  - intros x Hx. apply Hother. cbn. by rewrite <- list_fmap_compose.
Qed.

(** ** Where a submission begins *)

(** As many rows as entries: every entry has one. *)
Lemma members_all id bid n t (f : OTR -> OTR) t' k e r :
  keyed t -> update_offline_transactions (ReaderSyncState.is_batch_member id bid n t) f t = Ok (t', k) ->
  k = ReaderSyncState.count_entries id bid t ->
  e ∈ select_entries (ReaderSync.is_entry_of id bid) t ->
  offline_transactions t !! EntryRow.fare_transaction_id e = Some r ->
  ReaderSyncState.is_batch_member id bid n t r = true
  /\ offline_transactions t' !! EntryRow.fare_transaction_id e = Some (f r).
Proof.
  intros Hkeyed Hu Hk He Hr. unfold update_offline_transactions in Hu.
  destruct (update_where _ _ _ _) as [[m c]|] eqn:Hw; [|done]. cbn in Hu. injection Hu as <- ->.
  apply update_where_Ok in Hw as (-> & Hc & _). cbn.
  set (p := ReaderSyncState.is_batch_member id bid n t) in *.
  set (es := select_entries (ReaderSync.is_entry_of id bid) t) in *.
  set (members := filter (fun kr : FareTransactionId * OTR => p kr.2 = true) (offline_transactions t)) in *.
  assert (dom members ⊆@{gset FareTransactionId} list_to_set (EntryRow.fare_transaction_id <$> es)) as Hsub.
  { intros x (y & [Hy Hp]%map_lookup_filter_Some)%elem_of_dom. cbn in Hp. unfold p in Hp.
    apply andb_prop in Hp as [_ Hp]. apply existsb_exists in Hp as (e' & Hin & Hp).
    apply andb_prop in Hp as [He' Hid%bool_decide_eq_true]. rewrite elem_of_list_to_set, <- (Hkeyed _ _ Hy), <- Hid.
    apply list_elem_of_fmap_2. unfold es, select_entries. apply elem_of_order_by, list_elem_of_filter.
    split; [done|]. by apply list_elem_of_In. }
  assert (size (list_to_set (C := gset FareTransactionId) (EntryRow.fare_transaction_id <$> es))
    <= size (dom members))%nat as Hsize.
  { rewrite size_dom. unfold ReaderSyncState.count_entries in Hk. fold es in Hk.
    assert (size members = length es) as -> by lia.
    rewrite <- (length_fmap EntryRow.fare_transaction_id es). apply size_list_to_set_le. }
  assert (EntryRow.fare_transaction_id e ∈ dom members) as Hin.
  { rewrite (set_subseteq_size_eq _ _ Hsub Hsize). apply elem_of_list_to_set. by apply list_elem_of_fmap_2. }
  apply elem_of_dom in Hin as (y & [Hy Hp]%map_lookup_filter_Some). cbn in Hp.
  assert (y = r) as -> by congruence. split; [done|]. rewrite lookup_fmap, Hr. cbn. by rewrite Hp.
Qed.

Lemma decoded_attempts b l batch :
  ReaderSync.decode_stored_batch b l = Ok batch -> BatchRow.attempt_count b <= 4294967295.
Proof.
  unfold ReaderSync.decode_stored_batch. cbn zeta. intros Hd.
  apply Result_bind_Ok in Hd as (? & _ & Hd). apply Result_bind_Ok in Hd as (? & _ & Hd).
  apply Result_bind_Ok in Hd as (? & _ & Hd). apply Result_bind_Ok in Hd as (? & _ & Hd).
  case_match; [done|]. apply Result_bind_Ok in Hd as (? & Hattempts%ok_or_Ok & _).
  unfold u32_try_from in Hattempts. case_decide; [lia|done].
Qed.

(** The tables that an update of transactions, or of batches, does not touch. *)
Lemma update_transactions_others p f t t' k :
  update_offline_transactions p f t = Ok (t', k) ->
  exists m, t' = set_offline_transactions m t.
Proof.
  unfold update_offline_transactions. destruct (update_where _ _ _ _) as [[m c]|]; [|done].
  cbn. intros [= <- _]. by exists m.
Qed.

(** One batch, addressed by its key. *)
Lemma update_batch_one p f id bid n t t' :
  store_ok t -> (forall b, p b = true -> ReaderSyncState.addresses bid id n b = true) ->
  update_batches p f t = Ok (t', 1) ->
  exists b, synchronization_batches t !! bid = Some b
    /\ t' = set_synchronization_batches (<[bid := f b]> (synchronization_batches t)) t.
Proof.
  intros Hok Hp. unfold update_batches. destruct (update_where _ _ _ _) as [[m c]|] eqn:Hw; [|done].
  cbn. intros [= <- ->]. apply (update_where_one _ _ _ _ _ bid) in Hw as (b & Hb & _ & _ & ->).
  - by exists b.
  - intros k r Hr Hpr. apply Hp, andb_prop in Hpr as [Ha _].
    apply bool_decide_eq_true in Ha as [<- _]. symmetry. by apply (ok_batches _ Hok _ _ Hr).
Qed.

(** What [mark_synchronization_batch_in_flight] leaves waits for an
    acknowledgement, if the request can be assembled. *)
Lemma marked_batch_waits id bid n t db batch request now :
  store_ok t ->
  ReaderSyncState.mark_synchronization_batch_in_flight id bid n (MkDb t []) = (db, Ok batch) ->
  outcome (ReaderSyncRequest.load_synchronization_batch_request id bid) (MkDb (tables db) []) = Ok request ->
  synchronization_acknowledgements t !! bid = None -> n <= now ->
  waiting id bid (tables db) request now.
Proof.
  intros Hok Hmark Hload Hfirst Hn.
  pose proof (mark_synchronization_batch_in_flight_kept id bid n t Hok []) as Hkept.
  unfold wp in Hkept. rewrite Hmark in Hkept. unfold ReaderSyncState.mark_synchronization_batch_in_flight in Hmark.
  cbn zeta in Hmark. apply bind_inv in Hmark as ([] & db1 & Hv & Hmark).
  apply lift_inv in Hv as [-> _]. apply bind_inv in Hmark as ([] & db1 & Htr & Hmark).
  apply transaction_inv in Htr as (t2 & script & Hbody & Hdb). invert_run.
  match goal with H : update_batches _ _ _ = Ok (?x, _) |- _ => rename H into Hbatch, x into t1 end.
  match goal with H : update_offline_transactions _ _ _ = Ok (?x, _) |- _ => rename H into Hrows, x into t3 end.
  match goal with H : mret _ _ = _ |- _ => injection H as Ht3 end.
  pose proof (reads_tables _ (tables db1) (faults db1) (load_synchronization_batch_reads id bid)) as Hreads.
  replace (MkDb (tables db1) (faults db1)) with db1 in Hreads by (by destruct db1).
  rewrite Hmark in Hreads. cbn in Hreads. rewrite <- Ht3 in Hreads. rewrite Hreads in Hload |- *.
  assert (x = 1) as -> by lia. match goal with H : ~ (?k <> ?c) |- _ => assert (k = c) as Hcount by lia end.
  match goal with H : u64_try_from _ = Some _ |- _ => apply u64_try_from_Some in H as [_ ->] end.
  apply (update_batch_one _ _ id bid n) in Hbatch as (b0 & Hb0 & ->);
    [|done|by intros b [Hb _]%andb_prop].
  destruct (update_transactions_others _ _ _ _ _ Hrows) as [m Hm].
  destruct db1 as [t1 script1]. cbn [tables] in Ht3. subst t1.
  apply load_synchronization_batch_transparent in Hmark as Hquiet.
  rewrite Hreads in Hkept. destruct Hkept as [Hok3 _].
  split.
  - exact Hload.
  - by rewrite Hm.
  - intros b Hb. rewrite Hm in Hb. cbn in Hb. rewrite lookup_insert_eq in Hb. injection Hb as <-. cbn.
    split; [|done]. unfold ReaderSync.load_synchronization_batch in Hquiet. cbn zeta in Hquiet.
    invert_run. match goal with H : ReaderSync.decode_stored_batch _ _ = Ok _ |- _ =>
      apply decoded_attempts in H as Hattempts end.
    match goal with H : ReaderSync.find_batch _ _ _ = Some _ |- _ => apply find_batch_lookup in H as [Hb _] end.
    rewrite Hm in Hb. cbn in Hb. rewrite lookup_insert_eq in Hb. injection Hb as <-. exact Hattempts.
  - intros e r He Hr.
    destruct (request_entry_row _ _ _ _ _ _ Hload He) as (r' & Hr' & Hrd & _ & _ & x & Hx & Hxb & Hxt).
    assert (r' = r) as -> by congruence.
    assert (SBR.reader_id request = id) as Hid.
    { destruct (loaded_batch _ _ _ _ Hload) as [b Hb]. apply Hb. }
    destruct (ok_entries _ Hok3 _ Hx) as [_ (r1 & Hr1 & Hr1id & _)]. rewrite Hxt in Hr1.
    assert (r1 = r) as -> by congruence.
    rewrite Hm in Hx. destruct (ok_entries _ Hok _ Hx) as [_ (r0 & Hr0 & _)].
    eapply (members_all id bid n _ _ _ _ x r0) in Hrows as [Hmember Hset]; [| |exact Hcount| |exact Hr0].
    + rewrite Hxt, Hr in Hset. injection Hset as ->. cbn.
      apply andb_prop in Hmember as [Hmember _]. apply andb_prop in Hmember as [Hmember _].
      apply andb_prop in Hmember as [_ Hmember]. by apply bool_decide_eq_true in Hmember.
    + exact (store_ok_keyed _ Hok).
    + unfold select_entries. apply elem_of_order_by, list_elem_of_filter. split; [|exact Hx].
      apply bool_decide_eq_true. split; [done|]. congruence.
Qed.

End store.
