(* ===== verification/PersistenceCodec.v ===== *)
(** * PostgreSQL values (crates/persistence/src/codec.rs)

    The texts and numbers that stand for domain values in the backend's
    tables.  Each pair of functions is an instance of [TextColumn], whose laws
    say that reading inverts writing and that no other text is read. *)

From S2P Require Import Prelude Text DomainMoney DomainIdentifier DomainAccount DomainCredential.
From S2P Require Import DomainEquipment DomainTransaction DomainEvents.
From S2P Require Import PersistenceColumns.

(** [match value { "..." => Ok(..), .., _ => Err(error) }]. *)
Fixpoint match_text {A} (value : Str) (arms : list (string * A)) (error : PersistenceError.t)
  : Result PersistenceError.t A :=
  match arms with
  | [] => Err error
  | (text, a) :: arms' => if decide (value = lit text) then Ok a else match_text value arms' error
  end.

Definition invalid (field : string) : PersistenceError.t :=
  PersistenceError.InvalidStoredValue (lit field).

Definition numeric_out_of_range (field : string) : PersistenceError.t :=
  PersistenceError.NumericValueOutOfRange (lit field).

Module PostgresValueCodec.

Definition encode_currency (value : Currency.t) : Str :=
  match value with
  | Currency.Usd => lit "USD"
  | Currency.Cad => lit "CAD"
  | Currency.Eur => lit "EUR"
  | Currency.Gbp => lit "GBP"
  end.

Definition decode_currency (value : Str) : Result PersistenceError.t Currency.t :=
  match_text value
    [("USD"%string, Currency.Usd); ("CAD"%string, Currency.Cad); ("EUR"%string, Currency.Eur);
     ("GBP"%string, Currency.Gbp)]
    (invalid "transit_accounts.stored_value_currency").

Definition encode_account_status (value : TransitAccountStatus.t) : Str :=
  match value with
  | TransitAccountStatus.Active => lit "active"
  | TransitAccountStatus.Suspended => lit "suspended"
  | TransitAccountStatus.Closed => lit "closed"
  end.

Definition decode_account_status (value : Str) : Result PersistenceError.t TransitAccountStatus.t :=
  match_text value
    [("active"%string, TransitAccountStatus.Active);
     ("suspended"%string, TransitAccountStatus.Suspended);
     ("closed"%string, TransitAccountStatus.Closed)]
    (invalid "transit_accounts.status").

Definition encode_eligibility (value : EligibilityClassification.t) : Str :=
  match value with
  | EligibilityClassification.Standard => lit "standard"
  | EligibilityClassification.Youth => lit "youth"
  | EligibilityClassification.Senior => lit "senior"
  | EligibilityClassification.ReducedFare => lit "reduced_fare"
  | EligibilityClassification.EmployeeTestAccount => lit "employee_test_account"
  end.

Definition decode_eligibility (value : Str) : Result PersistenceError.t EligibilityClassification.t :=
  match_text value
    [("standard"%string, EligibilityClassification.Standard);
     ("youth"%string, EligibilityClassification.Youth);
     ("senior"%string, EligibilityClassification.Senior);
     ("reduced_fare"%string, EligibilityClassification.ReducedFare);
     ("employee_test_account"%string, EligibilityClassification.EmployeeTestAccount)]
    (invalid "transit_accounts.eligibility").

Definition encode_credential_kind (value : FareCredentialKind.t) : Str :=
  match value with
  | FareCredentialKind.Card => lit "card"
  | FareCredentialKind.Mobile => lit "mobile"
  | FareCredentialKind.DevelopmentTestToken => lit "development_test_token"
  end.

Definition decode_credential_kind (value : Str) : Result PersistenceError.t FareCredentialKind.t :=
  match_text value
    [("card"%string, FareCredentialKind.Card); ("mobile"%string, FareCredentialKind.Mobile);
     ("development_test_token"%string, FareCredentialKind.DevelopmentTestToken)]
    (invalid "fare_credentials.kind").

Definition encode_credential_status (value : FareCredentialStatus.t) : Str :=
  match value with
  | FareCredentialStatus.Pending => lit "pending"
  | FareCredentialStatus.Active => lit "active"
  | FareCredentialStatus.Suspended => lit "suspended"
  | FareCredentialStatus.Revoked => lit "revoked"
  | FareCredentialStatus.Expired => lit "expired"
  | FareCredentialStatus.Replaced => lit "replaced"
  end.

Definition decode_credential_status (value : Str) : Result PersistenceError.t FareCredentialStatus.t :=
  match_text value
    [("pending"%string, FareCredentialStatus.Pending);
     ("active"%string, FareCredentialStatus.Active);
     ("suspended"%string, FareCredentialStatus.Suspended);
     ("revoked"%string, FareCredentialStatus.Revoked);
     ("expired"%string, FareCredentialStatus.Expired);
     ("replaced"%string, FareCredentialStatus.Replaced)]
    (invalid "fare_credentials.status").

Definition encode_credential_revocation_reason (value : RevocationReason.t) : Str :=
  match value with
  | RevocationReason.ReportedLost => lit "reported_lost"
  | RevocationReason.ReportedStolen => lit "reported_stolen"
  | RevocationReason.Replaced => lit "replaced"
  | RevocationReason.AccountSuspended => lit "account_suspended"
  | RevocationReason.AdministrativeAction => lit "administrative_action"
  | RevocationReason.SecurityIncident => lit "security_incident"
  | RevocationReason.TestCleanup => lit "test_cleanup"
  end.

Definition decode_credential_revocation_reason (value : Str) : Result PersistenceError.t RevocationReason.t :=
  match_text value
    [("reported_lost"%string, RevocationReason.ReportedLost);
     ("reported_stolen"%string, RevocationReason.ReportedStolen);
     ("replaced"%string, RevocationReason.Replaced);
     ("account_suspended"%string, RevocationReason.AccountSuspended);
     ("administrative_action"%string, RevocationReason.AdministrativeAction);
     ("security_incident"%string, RevocationReason.SecurityIncident);
     ("test_cleanup"%string, RevocationReason.TestCleanup)]
    (invalid "fare_credentials.revocation_reason").

Definition encode_reader_status (value : ReaderEquipmentStatus.t) : Str :=
  match value with
  | ReaderEquipmentStatus.PendingRegistration => lit "pending_registration"
  | ReaderEquipmentStatus.Active => lit "active"
  | ReaderEquipmentStatus.Offline => lit "offline"
  | ReaderEquipmentStatus.Disabled => lit "disabled"
  | ReaderEquipmentStatus.Revoked => lit "revoked"
  | ReaderEquipmentStatus.Decommissioned => lit "decommissioned"
  end.

Definition decode_reader_status (value : Str) : Result PersistenceError.t ReaderEquipmentStatus.t :=
  match_text value
    [("pending_registration"%string, ReaderEquipmentStatus.PendingRegistration);
     ("active"%string, ReaderEquipmentStatus.Active);
     ("offline"%string, ReaderEquipmentStatus.Offline);
     ("disabled"%string, ReaderEquipmentStatus.Disabled);
     ("revoked"%string, ReaderEquipmentStatus.Revoked);
     ("decommissioned"%string, ReaderEquipmentStatus.Decommissioned)]
    (invalid "reader_equipment.status").

Definition encode_reader_disablement_reason (value : ReaderDisablementReason.t) : Str :=
  match value with
  | ReaderDisablementReason.SuspectedCompromise => lit "suspected_compromise"
  | ReaderDisablementReason.LostEquipment => lit "lost_equipment"
  | ReaderDisablementReason.InvalidConfiguration => lit "invalid_configuration"
  | ReaderDisablementReason.AdministrativeAction => lit "administrative_action"
  | ReaderDisablementReason.TestCleanup => lit "test_cleanup"
  end.

Definition decode_reader_disablement_reason (value : Str) : Result PersistenceError.t ReaderDisablementReason.t :=
  match_text value
    [("suspected_compromise"%string, ReaderDisablementReason.SuspectedCompromise);
     ("lost_equipment"%string, ReaderDisablementReason.LostEquipment);
     ("invalid_configuration"%string, ReaderDisablementReason.InvalidConfiguration);
     ("administrative_action"%string, ReaderDisablementReason.AdministrativeAction);
     ("test_cleanup"%string, ReaderDisablementReason.TestCleanup)]
    (invalid "reader_equipment.disablement_reason").

Definition encode_reader_revocation_reason (value : ReaderRevocationReason.t) : Str :=
  match value with
  | ReaderRevocationReason.SuspectedCompromise => lit "suspected_compromise"
  | ReaderRevocationReason.CredentialExposure => lit "credential_exposure"
  | ReaderRevocationReason.AdministrativeAction => lit "administrative_action"
  | ReaderRevocationReason.SecurityIncident => lit "security_incident"
  | ReaderRevocationReason.TestCleanup => lit "test_cleanup"
  end.

Definition decode_reader_revocation_reason (value : Str) : Result PersistenceError.t ReaderRevocationReason.t :=
  match_text value
    [("suspected_compromise"%string, ReaderRevocationReason.SuspectedCompromise);
     ("credential_exposure"%string, ReaderRevocationReason.CredentialExposure);
     ("administrative_action"%string, ReaderRevocationReason.AdministrativeAction);
     ("security_incident"%string, ReaderRevocationReason.SecurityIncident);
     ("test_cleanup"%string, ReaderRevocationReason.TestCleanup)]
    (invalid "reader_equipment.revocation_reason").

Definition encode_aggregate_version (version : AggregateVersion.t) : Result PersistenceError.t Z :=
  ok_or (i64_try_from (AggregateVersion.value version)) (numeric_out_of_range "aggregate_version").

Definition decode_aggregate_version (value : Z) : Result PersistenceError.t AggregateVersion.t :=
  value ← ok_or (u64_try_from value) (numeric_out_of_range "aggregate_version");
  map_err (fun _ => invalid "aggregate_version") (AggregateVersion.new value).

Definition encode_event_time (value : DomainEventTime.t) : Z :=
  DomainEventTime.unix_milliseconds value.

Definition decode_event_time (value : Z) : Result PersistenceError.t DomainEventTime.t :=
  map_err (fun _ => invalid "domain_events.occurred_at_unix_ms")
    (DomainEventTime.from_unix_milliseconds value).

Definition encode_aggregate_id (value : DomainAggregateId.t) : Str * Uuid :=
  match value with
  | DomainAggregateId.TransitAccount id => (lit "transit_account", into_uuid id)
  | DomainAggregateId.FareCredential id => (lit "fare_credential", into_uuid id)
  | DomainAggregateId.ReaderEquipment id => (lit "reader_equipment", into_uuid id)
  | DomainAggregateId.FareTransaction id => (lit "fare_transaction", into_uuid id)
  end.

Section identifiers.
Context `{UuidLibrary}.

Definition decode_aggregate_id (kind : Str) (identifier : Uuid)
  : Result PersistenceError.t DomainAggregateId.t :=
  let read k (wrap : Identifier k -> DomainAggregateId.t) :=
    map_err (fun _ => invalid "domain_events.aggregate_id")
      (map_ok wrap (try_from_uuid k identifier)) in
  arm ← match_text kind
    [("transit_account"%string, read _ DomainAggregateId.TransitAccount);
     ("fare_credential"%string, read _ DomainAggregateId.FareCredential);
     ("reader_equipment"%string, read _ DomainAggregateId.ReaderEquipment);
     ("fare_transaction"%string, read _ DomainAggregateId.FareTransaction)]
    (invalid "domain_events.aggregate_kind");
  arm.

End identifiers.

Definition encode_reader_id (value : ReaderId) : Uuid := into_uuid value.
Definition encode_equipment_key_id (value : EquipmentKeyId) : Uuid := into_uuid value.

End PostgresValueCodec.

(** ** The pairs are inverse *)

Lemma match_text_Ok {A} value (arms : list (string * A)) error a :
  match_text value arms error = Ok a -> exists text, (text, a) ∈ arms /\ value = lit text.
Proof.
  induction arms as [|[text b] arms IH]; cbn; [done|]. case_decide as Hv.
  - intros [= ->]. exists text. split; [by left|done].
  - intros (t & Ht & ->)%IH. exists t. split; [by right|done].
Qed.

Class TextColumn (A : Type) := {
  encode : A -> Str;
  decode : Str -> Result PersistenceError.t A;
  decode_encode a : decode (encode a) = Ok a;
  encode_decode text a : decode text = Ok a -> text = encode a
}.

Ltac text_column enc dec :=
  refine {| encode := enc; decode := dec |};
  [ by intros []
  | intros text a (t & Ht & ->)%match_text_Ok;
    repeat (apply elem_of_cons in Ht as [[= -> ->]|Ht]; [done|]); by apply elem_of_nil in Ht ].

#[global] Instance currency_column : TextColumn Currency.t.
Proof. text_column PostgresValueCodec.encode_currency PostgresValueCodec.decode_currency. Defined.
#[global] Instance account_status_column : TextColumn TransitAccountStatus.t.
Proof.
  text_column PostgresValueCodec.encode_account_status PostgresValueCodec.decode_account_status.
Defined.
#[global] Instance eligibility_column : TextColumn EligibilityClassification.t.
Proof. text_column PostgresValueCodec.encode_eligibility PostgresValueCodec.decode_eligibility. Defined.
#[global] Instance credential_kind_column : TextColumn FareCredentialKind.t.
Proof.
  text_column PostgresValueCodec.encode_credential_kind PostgresValueCodec.decode_credential_kind.
Defined.
#[global] Instance credential_status_column : TextColumn FareCredentialStatus.t.
Proof.
  text_column PostgresValueCodec.encode_credential_status
    PostgresValueCodec.decode_credential_status.
Defined.
#[global] Instance credential_revocation_reason_column : TextColumn RevocationReason.t.
Proof.
  text_column PostgresValueCodec.encode_credential_revocation_reason
    PostgresValueCodec.decode_credential_revocation_reason.
Defined.
#[global] Instance reader_status_column : TextColumn ReaderEquipmentStatus.t.
Proof.
  text_column PostgresValueCodec.encode_reader_status PostgresValueCodec.decode_reader_status.
Defined.
#[global] Instance reader_disablement_reason_column : TextColumn ReaderDisablementReason.t.
Proof.
  text_column PostgresValueCodec.encode_reader_disablement_reason
    PostgresValueCodec.decode_reader_disablement_reason.
Defined.
#[global] Instance reader_revocation_reason_column : TextColumn ReaderRevocationReason.t.
Proof.
  text_column PostgresValueCodec.encode_reader_revocation_reason
    PostgresValueCodec.decode_reader_revocation_reason.
Defined.

Lemma decode_Ok {A} `{TextColumn A} text a : decode text = Ok a <-> text = encode a.
Proof. split; [apply encode_decode|]. intros ->. apply decode_encode. Qed.

(** The same laws, by the functions' own names. *)
Lemma reread_account_status x :
  PostgresValueCodec.decode_account_status (PostgresValueCodec.encode_account_status x) = Ok x.
Proof. exact (@decode_encode _ account_status_column x). Qed.

Lemma reread_eligibility x :
  PostgresValueCodec.decode_eligibility (PostgresValueCodec.encode_eligibility x) = Ok x.
Proof. exact (@decode_encode _ eligibility_column x). Qed.

Lemma reread_currency x :
  PostgresValueCodec.decode_currency (PostgresValueCodec.encode_currency x) = Ok x.
Proof. exact (@decode_encode _ currency_column x). Qed.

Lemma reread_credential_kind x :
  PostgresValueCodec.decode_credential_kind (PostgresValueCodec.encode_credential_kind x) = Ok x.
Proof. exact (@decode_encode _ credential_kind_column x). Qed.

Lemma reread_credential_status x :
  PostgresValueCodec.decode_credential_status (PostgresValueCodec.encode_credential_status x) = Ok x.
Proof. exact (@decode_encode _ credential_status_column x). Qed.

Lemma reread_credential_revocation_reason x :
  PostgresValueCodec.decode_credential_revocation_reason (PostgresValueCodec.encode_credential_revocation_reason x) = Ok x.
Proof. exact (@decode_encode _ credential_revocation_reason_column x). Qed.

Lemma reread_reader_status x :
  PostgresValueCodec.decode_reader_status (PostgresValueCodec.encode_reader_status x) = Ok x.
Proof. exact (@decode_encode _ reader_status_column x). Qed.

Lemma reread_reader_disablement_reason x :
  PostgresValueCodec.decode_reader_disablement_reason (PostgresValueCodec.encode_reader_disablement_reason x) = Ok x.
Proof. exact (@decode_encode _ reader_disablement_reason_column x). Qed.

Lemma reread_reader_revocation_reason x :
  PostgresValueCodec.decode_reader_revocation_reason (PostgresValueCodec.encode_reader_revocation_reason x) = Ok x.
Proof. exact (@decode_encode _ reader_revocation_reason_column x). Qed.

(** A nullable column. *)
Definition decode_option {A B} (f : A -> Result PersistenceError.t B) (x : option A)
  : Result PersistenceError.t (option B) :=
  match x with
  | Some a => map_ok Some (f a)
  | None => Ok None
  end.

Lemma decode_option_fmap {A B} (f : A -> Result PersistenceError.t B) (g : B -> A) x :
  (forall b, f (g b) = Ok b) -> decode_option f (g <$> x) = Ok x.
Proof. intros Hfg. destruct x as [b|]; [|done]. cbn. by rewrite Hfg. Qed.

Lemma reread_optional_credential_revocation_reason x :
  decode_option PostgresValueCodec.decode_credential_revocation_reason
    (PostgresValueCodec.encode_credential_revocation_reason <$> x) = Ok x.
Proof. apply decode_option_fmap, reread_credential_revocation_reason. Qed.

Lemma reread_optional_reader_disablement_reason x :
  decode_option PostgresValueCodec.decode_reader_disablement_reason
    (PostgresValueCodec.encode_reader_disablement_reason <$> x) = Ok x.
Proof. apply decode_option_fmap, reread_reader_disablement_reason. Qed.

Lemma reread_optional_reader_revocation_reason x :
  decode_option PostgresValueCodec.decode_reader_revocation_reason
    (PostgresValueCodec.encode_reader_revocation_reason <$> x) = Ok x.
Proof. apply decode_option_fmap, reread_reader_revocation_reason. Qed.

Create Rewrite HintDb codec.
#[export] Hint Rewrite reread_account_status
  reread_eligibility
  reread_currency
  reread_credential_kind
  reread_credential_status
  reread_credential_revocation_reason
  reread_reader_status
  reread_reader_disablement_reason
  reread_reader_revocation_reason
  reread_optional_credential_revocation_reason reread_optional_reader_disablement_reason reread_optional_reader_revocation_reason : codec.

Lemma encode_version_Ok version n :
  PostgresValueCodec.encode_aggregate_version version = Ok n <->
  n = AggregateVersion.value version /\ in_i64 (AggregateVersion.value version).
Proof.
  unfold PostgresValueCodec.encode_aggregate_version. rewrite ok_or_Ok. unfold i64_try_from.
  case_decide; naive_solver.
Qed.

Lemma decode_version_Ok n version :
  0 < n <= i64_max ->
  PostgresValueCodec.decode_aggregate_version n = Ok version <-> version = AggregateVersion.mk n.
Proof.
  intros Hn. unfold PostgresValueCodec.decode_aggregate_version, u64_try_from, AggregateVersion.new.
  rewrite decide_True by int_lia. cbn. destruct (Z.eqb_spec n 0); [lia|]. cbn. naive_solver.
Qed.
