(* ===== verification/PersistenceIngestRecord.v ===== *)
(** * Ingest records (crates/persistence/src/synchronization_ingest_record.rs)

    A request and the acknowledgement that answers it, converted to what the
    backend stores. *)

From stdpp Require Import sorting.
From S2P Require Import Prelude Text DomainIdentifier DomainTransaction.
From S2P Require Import DeviceProtocolValues DeviceProtocolSynchronization DeviceProtocolFingerprint.
From S2P Require Import MessageFormats.

(** [to_value] and [from_value] of the messages. *)
Section values.
Context `{JsonLibrary} `{UuidLibrary}.

Definition request_to_value (request : SBR.t) : Result json_Error Json := json_to_value request.
Definition acknowledgement_to_value (acknowledgement : SBA.t) : Result json_Error Json :=
  json_to_value acknowledgement.
Definition acknowledgement_from_value (value : Json) : Result json_Error SBA.t :=
  json_from_value value.

End values.

Module SynchronizationIngestRecordError.

Inductive t :=
| AcknowledgementMismatch (e : SynchronizationProtocolError.t)
| Serialization (payload : Str).

#[global] Instance eq_dec : EqDecision t.
Proof. solve_decision. Defined.

End SynchronizationIngestRecordError.

Module PreparedSynchronizationIngestEntry.
Section entry.
Context `{JsonLibrary}.

Record t := mk {
  entry_position : Z;
  transaction_id : FareTransactionId;
  local_sequence_number : LocalSequenceNumber.t;
  transaction_fingerprint : SynchronizationPayloadFingerprint.t;
  canonical_transaction_envelope_json : Json;
  outcome : SynchronizationEntryOutcome.t;
  failure_category : option SynchronizationFailureCategory.t;
  next_retry_at_unix_milliseconds : option Z;
  resolved_at_unix_milliseconds : Z
}.

End entry.
End PreparedSynchronizationIngestEntry.

Module PreparedSynchronizationIngest.
Section prepare.
Context `{JsonLibrary}.

Record t := mk {
  protocol_version : DeviceProtocolVersion.t;
  environment_id : ProtocolEnvironmentId.t;
  reader_id : ReaderId;
  reader_software_version : ReaderSoftwareVersion.t;
  batch_id : SynchronizationBatchId;
  first_local_sequence_number : LocalSequenceNumber.t;
  last_local_sequence_number : LocalSequenceNumber.t;
  submitted_at_unix_milliseconds : Z;
  received_at_unix_milliseconds : Z;
  request_fingerprint : SynchronizationRequestFingerprint.t;
  canonical_request_json : Json;
  acknowledgement_fingerprint : SynchronizationPayloadFingerprint.t;
  canonical_acknowledgement_json : Json;
  entries : list PreparedSynchronizationIngestEntry.t
}.

Context `{UuidLibrary} `{Sha256Library}.

Definition entry_count (self : t) : Z := Z.of_nat (length (entries self)).

(** The loop over the zipped entries, from [entry_position]. *)
Fixpoint prepare_entries (received_at entry_position : Z)
    (request_entries : list SynchronizationRequestEntry.t)
    (acknowledgement_entries : list SynchronizationAcknowledgementEntry.t)
  : Result SynchronizationIngestRecordError.t (list PreparedSynchronizationIngestEntry.t) :=
  match request_entries, acknowledgement_entries with
  | request_entry :: request_entries', acknowledgement_entry :: acknowledgement_entries' =>
      let envelope := SynchronizationRequestEntry.transaction_envelope request_entry in
      canonical_transaction_envelope_json ←
        map_err (fun _ => SynchronizationIngestRecordError.Serialization (lit "transaction envelope"))
          (json_from_str (CanonicalTransactionEnvelope.as_str envelope));
      entries ← prepare_entries received_at (entry_position + 1) request_entries'
                  acknowledgement_entries';
      Ok (PreparedSynchronizationIngestEntry.mk entry_position
            (SynchronizationRequestEntry.transaction_id request_entry)
            (SynchronizationRequestEntry.local_sequence_number request_entry)
            (SynchronizationPayloadFingerprint.for_transaction_envelope envelope)
            canonical_transaction_envelope_json
            (SynchronizationAcknowledgementEntry.outcome acknowledgement_entry)
            (SynchronizationAcknowledgementEntry.failure_category acknowledgement_entry)
            (SynchronizationAcknowledgementEntry.next_retry_at_unix_milliseconds
               acknowledgement_entry)
            received_at :: entries)
  | _, _ => Ok []
  end.

Definition prepare (request : SynchronizationBatchRequest.t)
    (acknowledgement : SynchronizationBatchAcknowledgement.t)
  : Result SynchronizationIngestRecordError.t t :=
  _ ← map_err SynchronizationIngestRecordError.AcknowledgementMismatch
        (SynchronizationBatchAcknowledgement.validate_against_request acknowledgement request);
  canonical_request_json ←
    map_err (fun _ => SynchronizationIngestRecordError.Serialization (lit "request"))
      (request_to_value request);
  canonical_acknowledgement_json ←
    map_err (fun _ => SynchronizationIngestRecordError.Serialization (lit "acknowledgement"))
      (acknowledgement_to_value acknowledgement);
  let received_at :=
    SynchronizationBatchAcknowledgement.received_at_unix_milliseconds acknowledgement in
  entries ← prepare_entries received_at 0 (SynchronizationBatchRequest.entries request)
              (SynchronizationBatchAcknowledgement.entries acknowledgement);
  Ok (mk (SynchronizationBatchRequest.protocol_version request)
        (SynchronizationBatchRequest.environment_id request)
        (SynchronizationBatchRequest.reader_id request)
        (SynchronizationBatchRequest.reader_software_version request)
        (SynchronizationBatchRequest.batch_id request)
        (SynchronizationBatchRequest.first_local_sequence_number request)
        (SynchronizationBatchRequest.last_local_sequence_number request)
        (SynchronizationBatchRequest.submitted_at_unix_milliseconds request)
        received_at
        (SynchronizationRequestFingerprint.calculate request)
        canonical_request_json
        (SynchronizationPayloadFingerprint.for_acknowledgement acknowledgement)
        canonical_acknowledgement_json
        entries).

End prepare.
End PreparedSynchronizationIngest.

Module PSI := PreparedSynchronizationIngest.
Module PSIE := PreparedSynchronizationIngestEntry.

(** ** What preparing keeps *)

Section lemmas.
Context `{JsonLibrary} `{UuidLibrary} `{Sha256Library}.

(** A prepared entry says what was submitted and how it was answered. *)
Record prepared_from (received_at : Z) (s : SRE.t) (a : SAE.t) (e : PSIE.t) : Prop := {
  pf_transaction : PSIE.transaction_id e = SRE.transaction_id s;
  pf_sequence : PSIE.local_sequence_number e = SRE.local_sequence_number s;
  pf_fingerprint : PSIE.transaction_fingerprint e
    = SynchronizationPayloadFingerprint.for_transaction_envelope (SRE.transaction_envelope s);
  pf_envelope : json_from_str (CanonicalTransactionEnvelope.as_str (SRE.transaction_envelope s))
    = Ok (PSIE.canonical_transaction_envelope_json e);
  pf_outcome : PSIE.outcome e = SAE.outcome a;
  pf_category : PSIE.failure_category e = SAE.failure_category a;
  pf_retry : PSIE.next_retry_at_unix_milliseconds e = SAE.next_retry_at_unix_milliseconds a;
  pf_resolved : PSIE.resolved_at_unix_milliseconds e = received_at
}.

Lemma prepare_entries_Ok received_at position ss acks es :
  length acks = length ss ->
  PSI.prepare_entries received_at position ss acks = Ok es ->
  length es = length ss
  /\ PSIE.entry_position <$> es = seqZ position (Z.of_nat (length ss))
  /\ (forall i e, es !! i = Some e -> exists s a,
        ss !! i = Some s /\ acks !! i = Some a /\ prepared_from received_at s a e).
Proof.
  revert position acks es. induction ss as [|s ss IH]; intros position [|a acks] es Hl Hp;
    cbn in *; try done.
  - injection Hp as <-. split_and!; [done..|]. by intros i e Hi.
  - result_inv.
    match goal with H : PSI.prepare_entries _ _ _ _ = _ |- _ => apply IH in H as (Hlen & Hpos & Hat) end;
      [|lia].
    split_and!; [cbn; congruence| |].
    + cbn [fmap list_fmap PSIE.entry_position]. rewrite Nat2Z.inj_succ, seqZ_cons by lia.
      rewrite Hpos. f_equal. f_equal; lia.
    + intros [|i] e He; cbn in He; [|by apply Hat in He].
      injection He as <-. exists s, a. split_and!; [done..|]. by split.
Qed.

(** A prepared record names the request and has its entries. *)
Lemma prepare_Ok request ack ingest :
  PSI.prepare request ack = Ok ingest ->
  SBA.validate_against_request ack request = Ok tt
  /\ request_to_value request = Ok (PSI.canonical_request_json ingest)
  /\ acknowledgement_to_value ack = Ok (PSI.canonical_acknowledgement_json ingest)
  /\ PSI.prepare_entries (SBA.received_at_unix_milliseconds ack) 0 (SBR.entries request)
       (SBA.entries ack) = Ok (PSI.entries ingest)
  /\ ingest = PSI.mk (SBR.protocol_version request) (SBR.environment_id request)
       (SBR.reader_id request) (SBR.reader_software_version request) (SBR.batch_id request)
       (SBR.first_local_sequence_number request) (SBR.last_local_sequence_number request)
       (SBR.submitted_at_unix_milliseconds request) (SBA.received_at_unix_milliseconds ack)
       (SynchronizationRequestFingerprint.calculate request) (PSI.canonical_request_json ingest)
       (SynchronizationPayloadFingerprint.for_acknowledgement ack)
       (PSI.canonical_acknowledgement_json ingest) (PSI.entries ingest).
Proof.
  unfold PSI.prepare. intros Hp. result_inv.
  match goal with u : () |- _ => destruct u end. split_and!; done.
Qed.

End lemmas.
