(* ===== verification/PersistenceIngestTables.v ===== *)
(** * The backend's ingest tables (crates/persistence/migrations:
    0003_create_reader_equipment_schema.sql,
    0004_create_synchronization_ingest_schema.sql)

    The tables that ingest reads and writes, with the constraints of the
    migrations and the statements of synchronization_ingest.rs.  Of
    [reader_equipment] the status is kept, the only column ingest reads.  The
    time stamps the server writes itself ([created_at], [updated_at]) are left
    out. *)

From S2P Require Import Prelude Text DomainIdentifier DomainEquipment.
From S2P Require Import DeviceProtocolValues DeviceProtocolFingerprint.
From S2P Require Export PersistenceSql PersistenceColumns.

(** ** Rows *)

Module IngestBatchRow.
Section row.
Context `{JsonLibrary}.

Record t := mk {
  batch_id : SynchronizationBatchId;
  reader_id : ReaderId;
  protocol_version : Z;
  environment_id : Str;
  reader_software_version : Str;
  first_local_sequence_number : Z;
  last_local_sequence_number : Z;
  submitted_at : Z;
  received_at : Z;
  entry_count : Z;
  request_fingerprint : Str;
  canonical_request_json : Json;
  acknowledgement_fingerprint : Str;
  canonical_acknowledgement_json : Json
}.

End row.
End IngestBatchRow.

(** The texts that [outcome_name] writes. *)
Abbreviation Resolution := SynchronizationEntryOutcome.t.

Module IngestTransactionRow.
Section row.
Context `{JsonLibrary}.

Record t := mk {
  fare_transaction_id : FareTransactionId;
  reader_id : ReaderId;
  local_sequence_number : Z;
  transaction_fingerprint : Str;
  canonical_transaction_envelope_json : Json;
  first_seen_batch_id : SynchronizationBatchId;
  current_resolution : Resolution;
  first_received_at : Z;
  last_resolved_at : Z
}.

(** The [SET] list of [UPDATE_TRANSACTION_SQL]. *)
Definition resolve (outcome : Resolution) (resolved_at : Z) (self : t) : t :=
  mk (fare_transaction_id self) (reader_id self) (local_sequence_number self)
    (transaction_fingerprint self) (canonical_transaction_envelope_json self)
    (first_seen_batch_id self)
    (if last_resolved_at self <=? resolved_at then outcome else current_resolution self)
    (first_received_at self) (Z.max (last_resolved_at self) resolved_at).

End row.
End IngestTransactionRow.

Module IngestEntryRow.

Record t := mk {
  batch_id : SynchronizationBatchId;
  reader_id : ReaderId;
  entry_position : Z;
  fare_transaction_id : FareTransactionId;
  local_sequence_number : Z;
  outcome : Resolution;
  failure_category : option Str;
  next_retry_at : option Z;
  resolved_at : Z
}.

#[global] Instance eq_dec : EqDecision t.
Proof. solve_decision. Defined.

End IngestEntryRow.

(** ** Constraints *)

Definition is_lower_hex (c : Z) : bool :=
  (48 <=? c) && (c <=? 57) || (97 <=? c) && (c <=? 102).

(** [x ~ '^[0-9a-f]{64}$']. *)
Definition is_fingerprint (x : Str) : bool :=
  (Z.of_nat (length x) =? 64) && forallb is_lower_hex x.

(** [length(trim(x)) > 0]: [trim] removes spaces. *)
Definition not_blank (x : Str) : bool := existsb (fun c => negb (c =? 32)) x.

(** [octet_length(x) <= 128] of a text that is not blank. *)
Definition short_text (x : Str) : bool := not_blank x && (str_len x <=? 128).

(** [x ~ '^[a-z][a-z0-9_]*$']. *)
Definition is_category (x : Str) : bool :=
  match x with
  | [] => false
  | c :: x' =>
      (97 <=? c) && (c <=? 122)
      && forallb (fun d => (97 <=? d) && (d <=? 122) || (48 <=? d) && (d <=? 57) || (d =? 95)) x'
  end.

Section constraints.
Context `{JsonLibrary} `{UuidLibrary}.

Definition ingest_batch_check (r : IngestBatchRow.t) : bool :=
  uuid_check (IngestBatchRow.batch_id r) && uuid_check (IngestBatchRow.reader_id r)
  && (0 <? IngestBatchRow.protocol_version r) && (IngestBatchRow.protocol_version r <=? 65535)
  && short_text (IngestBatchRow.environment_id r)
  && short_text (IngestBatchRow.reader_software_version r)
  && (0 <? IngestBatchRow.first_local_sequence_number r)
  && (IngestBatchRow.first_local_sequence_number r
        <=? IngestBatchRow.last_local_sequence_number r)
  && (0 <=? IngestBatchRow.submitted_at r) && (0 <=? IngestBatchRow.received_at r)
  && (0 <? IngestBatchRow.entry_count r) && (IngestBatchRow.entry_count r <=? 256)
  && is_fingerprint (IngestBatchRow.request_fingerprint r)
  && json_is_object (IngestBatchRow.canonical_request_json r)
  && is_fingerprint (IngestBatchRow.acknowledgement_fingerprint r)
  && json_is_object (IngestBatchRow.canonical_acknowledgement_json r).

Definition ingest_transaction_check (r : IngestTransactionRow.t) : bool :=
  uuid_check (IngestTransactionRow.fare_transaction_id r)
  && negb (as_u128 (into_uuid (IngestTransactionRow.reader_id r)) =? 0)%N
  && (0 <? IngestTransactionRow.local_sequence_number r)
  && is_fingerprint (IngestTransactionRow.transaction_fingerprint r)
  && json_is_object (IngestTransactionRow.canonical_transaction_envelope_json r)
  && (0 <=? IngestTransactionRow.first_received_at r)
  && (IngestTransactionRow.first_received_at r <=? IngestTransactionRow.last_resolved_at r).

Definition ingest_entry_check (r : IngestEntryRow.t) : bool :=
  let category :=
    match IngestEntryRow.failure_category r with
    | Some x => not_blank x && (str_len x <=? 128) && is_category x
    | None => true
    end in
  let metadata :=
    match IngestEntryRow.outcome r, IngestEntryRow.failure_category r,
          IngestEntryRow.next_retry_at r with
    | SynchronizationEntryOutcome.Acknowledged, None, None
    | SynchronizationEntryOutcome.RetryableFailure, Some _, Some _
    | SynchronizationEntryOutcome.PermanentFailure, Some _, None
    | SynchronizationEntryOutcome.ManualReview, Some _, None => true
    | _, _, _ => false
    end in
  (0 <=? IngestEntryRow.entry_position r) && (IngestEntryRow.entry_position r <? 256)
  && (0 <? IngestEntryRow.local_sequence_number r)
  && category && at_least 0 (IngestEntryRow.next_retry_at r) && metadata
  && (0 <=? IngestEntryRow.resolved_at r).

End constraints.

(** ** Tables *)

Section tables.
Context `{JsonLibrary}.

Record IngestTables := MkIngestTables {
  reader_equipment : gmap ReaderId ReaderEquipmentStatus.t;
  ingest_batches : gmap SynchronizationBatchId IngestBatchRow.t;
  ingest_transactions : gmap FareTransactionId IngestTransactionRow.t;
  ingest_entries : list IngestEntryRow.t
}.

Definition set_reader_equipment (x : gmap ReaderId ReaderEquipmentStatus.t) (t : IngestTables)
  : IngestTables :=
  MkIngestTables x (ingest_batches t) (ingest_transactions t) (ingest_entries t).
Definition set_ingest_batches (x : gmap SynchronizationBatchId IngestBatchRow.t) (t : IngestTables)
  : IngestTables :=
  MkIngestTables (reader_equipment t) x (ingest_transactions t) (ingest_entries t).
Definition set_ingest_transactions (x : gmap FareTransactionId IngestTransactionRow.t)
    (t : IngestTables) : IngestTables :=
  MkIngestTables (reader_equipment t) (ingest_batches t) x (ingest_entries t).
Definition set_ingest_entries (x : list IngestEntryRow.t) (t : IngestTables) : IngestTables :=
  MkIngestTables (reader_equipment t) (ingest_batches t) (ingest_transactions t) x.

(** What the migrations leave. *)
Definition empty_ingest_tables : IngestTables := MkIngestTables ∅ ∅ ∅ [].

(** [VALIDATE_READER_SQL]. *)
Definition reader_operational (reader_id : ReaderId) (t : IngestTables) : option bool :=
  (fun status =>
     match status with
     | ReaderEquipmentStatus.Active | ReaderEquipmentStatus.Offline => true
     | _ => false
     end) <$> reader_equipment t !! reader_id.

(** [FIND_TRANSACTION_SQL]. *)
Definition find_transactions (id : FareTransactionId) (reader_id : ReaderId) (sequence : Z)
    (t : IngestTables) : list IngestTransactionRow.t :=
  base.filter (fun r => IngestTransactionRow.fare_transaction_id r = id
      \/ (IngestTransactionRow.reader_id r = reader_id
          /\ IngestTransactionRow.local_sequence_number r = sequence))
    (map_to_list (ingest_transactions t)).*2.

Context `{UuidLibrary}.

(** ** Writes

    PostgreSQL checks a row, then its unique indexes, then its foreign keys. *)

Definition insert_ingest_batch (r : IngestBatchRow.t) (t : IngestTables)
  : Result SqlError (IngestTables * unit) :=
  let id := IngestBatchRow.batch_id r in
  if negb (ingest_batch_check r) then Err CheckViolation
  else if decide (is_Some (ingest_batches t !! id)) then Err UniqueViolation
  else if decide (is_Some (reader_equipment t !! IngestBatchRow.reader_id r)) then
    Ok (set_ingest_batches (<[id := r]> (ingest_batches t)) t, tt)
  else Err ForeignKeyViolation.

Definition insert_ingest_transaction (r : IngestTransactionRow.t) (t : IngestTables)
  : Result SqlError (IngestTables * unit) :=
  let id := IngestTransactionRow.fare_transaction_id r in
  let clashes (x : IngestTransactionRow.t) : bool :=
    bool_decide (IngestTransactionRow.reader_id x = IngestTransactionRow.reader_id r
      /\ IngestTransactionRow.local_sequence_number x
         = IngestTransactionRow.local_sequence_number r) in
  if negb (ingest_transaction_check r) then Err CheckViolation
  else if bool_decide (is_Some (ingest_transactions t !! id))
          || existsb clashes (map_to_list (ingest_transactions t)).*2 then Err UniqueViolation
  else if decide (IngestBatchRow.reader_id
                    <$> ingest_batches t !! IngestTransactionRow.first_seen_batch_id r
                  = Some (IngestTransactionRow.reader_id r)
                /\ is_Some (reader_equipment t !! IngestTransactionRow.reader_id r)) then
    Ok (set_ingest_transactions (<[id := r]> (ingest_transactions t)) t, tt)
  else Err ForeignKeyViolation.

(** [UPDATE_TRANSACTION_SQL]. *)
Definition update_ingest_transactions (p : IngestTransactionRow.t -> bool)
    (f : IngestTransactionRow.t -> IngestTransactionRow.t) (t : IngestTables)
  : Result SqlError (IngestTables * Z) :=
  map_ok (fun '(m, n) => (set_ingest_transactions m t, n))
    (update_where ingest_transaction_check p f (ingest_transactions t)).

Definition insert_ingest_entry (r : IngestEntryRow.t) (t : IngestTables)
  : Result SqlError (IngestTables * unit) :=
  let clashes (x : IngestEntryRow.t) : bool :=
    bool_decide (IngestEntryRow.batch_id x = IngestEntryRow.batch_id r
      /\ (IngestEntryRow.entry_position x = IngestEntryRow.entry_position r
          \/ IngestEntryRow.fare_transaction_id x = IngestEntryRow.fare_transaction_id r
          \/ IngestEntryRow.local_sequence_number x = IngestEntryRow.local_sequence_number r)) in
  if negb (ingest_entry_check r) then Err CheckViolation
  else if existsb clashes (ingest_entries t) then Err UniqueViolation
  else if decide (IngestBatchRow.reader_id <$> ingest_batches t !! IngestEntryRow.batch_id r
                  = Some (IngestEntryRow.reader_id r)
                /\ (fun x => (IngestTransactionRow.reader_id x,
                              IngestTransactionRow.local_sequence_number x))
                   <$> ingest_transactions t !! IngestEntryRow.fare_transaction_id r
                   = Some (IngestEntryRow.reader_id r, IngestEntryRow.local_sequence_number r))
  then Ok (set_ingest_entries (ingest_entries t ++ [r]) t, tt)
  else Err ForeignKeyViolation.

End tables.

(** The backend's database. *)
Abbreviation IngestDb := (Db IngestTables).
