(* ===== verification/PersistenceIngestStore.v ===== *)
(** * The ingest repository (crates/persistence/src/repositories/synchronization_ingest.rs)

    [store] writes one prepared batch in one PostgreSQL transaction.
    Transactions of other requests are not interleaved: a batch row, a
    transaction row and a reader sequence each have a unique index, and the
    rows that are updated are locked ([FOR UPDATE]), so that of two ingests
    that meet one waits, and then finds the other's rows or fails with a
    unique violation, which is one of the scripted faults. *)

From S2P Require Import Prelude Text DomainIdentifier DomainTransaction DomainEquipment.
From S2P Require Import DeviceProtocolValues DeviceProtocolSynchronization DeviceProtocolFingerprint.
From S2P Require Import PersistenceColumns PersistenceIngestRecord PersistenceIngestTables.

Definition BATCH_ENTITY : Str := lit "synchronization ingest batch".
Definition TRANSACTION_ENTITY : Str := lit "synchronization ingest transaction".
Definition ENTRY_ENTITY : Str := lit "synchronization ingest entry".

Module SynchronizationIngestDisposition.

Inductive t := Stored | Replayed.

#[global] Instance eq_dec : EqDecision t.
Proof. solve_decision. Defined.

End SynchronizationIngestDisposition.

Module SynchronizationIngestPersistenceError.

Inductive t :=
| ReaderNotRegistered (reader_id : ReaderId)
| ReaderNotOperational (reader_id : ReaderId)
| BatchIdentityConflict (batch_id : SynchronizationBatchId)
| TransactionIdentityConflict (transaction_id : FareTransactionId)
| Persistence (e : PersistenceError.t).

#[global] Instance eq_dec : EqDecision t.
Proof. solve_decision. Defined.

Definition database (operation : string) (source : SqlError) : t :=
  Persistence (PersistenceError.database (lit operation) source).

Definition write (operation : string) (entity : Str) (source : SqlError) : t :=
  Persistence (PersistenceError.write (lit operation) entity source).

Definition numeric (field : string) : t :=
  Persistence (PersistenceError.NumericValueOutOfRange (lit field)).

End SynchronizationIngestPersistenceError.

Module SIPE := SynchronizationIngestPersistenceError.

Module PostgresSynchronizationIngestRepository.
Section repository.
Context `{JsonLibrary} `{!PostgresJson} `{UuidLibrary}.

Definition sequence_to_i64 (value : Z) (field : string) : Result SIPE.t Z :=
  ok_or (i64_try_from value) (SIPE.numeric field).

Definition validate_reader (ingest : PSI.t) : Mut IngestDb SIPE.t unit :=
  operational ← query (SIPE.database "validate synchronization reader")
                  (reader_operational (PSI.reader_id ingest));
  match operational with
  | Some true => mret tt
  | Some false => fail (SIPE.ReaderNotOperational (PSI.reader_id ingest))
  | None => fail (SIPE.ReaderNotRegistered (PSI.reader_id ingest))
  end.

(** [ExistingBatchRow]: the two columns of the row that are looked at. *)
Definition find_existing_batch (ingest : PSI.t) : Mut IngestDb SIPE.t (option (ReaderId * Str)) :=
  query (SIPE.database "find synchronization ingest batch") (fun t =>
    (fun r => (IngestBatchRow.reader_id r, IngestBatchRow.request_fingerprint r))
      <$> ingest_batches t !! PSI.batch_id ingest).

Definition validate_existing_batch (existing : ReaderId * Str) (ingest : PSI.t)
  : Result SIPE.t SynchronizationIngestDisposition.t :=
  let matches :=
    bool_decide (existing.1 = PSI.reader_id ingest)
    && bool_decide (existing.2
         = SynchronizationRequestFingerprint.to_string (PSI.request_fingerprint ingest)) in
  if matches then Ok SynchronizationIngestDisposition.Replayed
  else Err (SIPE.BatchIdentityConflict (PSI.batch_id ingest)).

Definition insert_batch (ingest : PSI.t) : Mut IngestDb SIPE.t unit :=
  first_sequence ← lift (sequence_to_i64
    (LocalSequenceNumber.value (PSI.first_local_sequence_number ingest))
    "synchronization_ingest_batches.first_local_sequence_number");
  last_sequence ← lift (sequence_to_i64
    (LocalSequenceNumber.value (PSI.last_local_sequence_number ingest))
    "synchronization_ingest_batches.last_local_sequence_number");
  entry_count ← lift (ok_or (i32_try_from (PSI.entry_count ingest))
    (SIPE.numeric "synchronization_ingest_batches.entry_count"));
  statement (SIPE.write "insert synchronization ingest batch" BATCH_ENTITY) (fun t =>
    request_json ← jsonb (PSI.canonical_request_json ingest);
    acknowledgement_json ← jsonb (PSI.canonical_acknowledgement_json ingest);
    insert_ingest_batch
      (IngestBatchRow.mk (PSI.batch_id ingest) (PSI.reader_id ingest)
         (DeviceProtocolVersion.value (PSI.protocol_version ingest))
         (ProtocolEnvironmentId.as_str (PSI.environment_id ingest))
         (ReaderSoftwareVersion.as_str (PSI.reader_software_version ingest))
         first_sequence last_sequence
         (PSI.submitted_at_unix_milliseconds ingest) (PSI.received_at_unix_milliseconds ingest)
         entry_count
         (SynchronizationRequestFingerprint.to_string (PSI.request_fingerprint ingest))
         request_json
         (SynchronizationPayloadFingerprint.to_string (PSI.acknowledgement_fingerprint ingest))
         acknowledgement_json) t).

Definition transaction_identity_matches (stored : IngestTransactionRow.t) (ingest : PSI.t)
    (entry : PSIE.t) (local_sequence : Z) : bool :=
  bool_decide (IngestTransactionRow.fare_transaction_id stored = PSIE.transaction_id entry)
  && bool_decide (IngestTransactionRow.reader_id stored = PSI.reader_id ingest)
  && bool_decide (IngestTransactionRow.local_sequence_number stored = local_sequence)
  && bool_decide (IngestTransactionRow.transaction_fingerprint stored
       = SynchronizationPayloadFingerprint.to_string (PSIE.transaction_fingerprint entry)).

Definition insert_transaction (ingest : PSI.t) (entry : PSIE.t) (local_sequence : Z)
  : Mut IngestDb SIPE.t unit :=
  statement (SIPE.write "insert synchronization ingest transaction" TRANSACTION_ENTITY) (fun t =>
    envelope_json ← jsonb (PSIE.canonical_transaction_envelope_json entry);
    insert_ingest_transaction
      (IngestTransactionRow.mk (PSIE.transaction_id entry) (PSI.reader_id ingest) local_sequence
         (SynchronizationPayloadFingerprint.to_string (PSIE.transaction_fingerprint entry))
         envelope_json (PSI.batch_id ingest) (PSIE.outcome entry)
         (PSI.received_at_unix_milliseconds ingest) (PSIE.resolved_at_unix_milliseconds entry)) t).

Definition update_transaction (entry : PSIE.t) : Mut IngestDb SIPE.t unit :=
  rows_affected ←
    statement (SIPE.write "update synchronization ingest transaction" TRANSACTION_ENTITY)
      (update_ingest_transactions
         (fun r => bool_decide (IngestTransactionRow.fare_transaction_id r
                                = PSIE.transaction_id entry))
         (IngestTransactionRow.resolve (PSIE.outcome entry)
            (PSIE.resolved_at_unix_milliseconds entry)));
  if decide (rows_affected <> 1) then
    fail (SIPE.TransactionIdentityConflict (PSIE.transaction_id entry))
  else mret tt.

Definition store_transaction (ingest : PSI.t) (entry : PSIE.t) : Mut IngestDb SIPE.t unit :=
  local_sequence ← lift (sequence_to_i64
    (LocalSequenceNumber.value (PSIE.local_sequence_number entry))
    "synchronization_ingest_transactions.local_sequence_number");
  existing ← query (SIPE.database "find synchronization ingest transaction")
               (find_transactions (PSIE.transaction_id entry) (PSI.reader_id ingest)
                  local_sequence);
  let conflict := fail (SIPE.TransactionIdentityConflict (PSIE.transaction_id entry)) in
  match existing with
  | [] => insert_transaction ingest entry local_sequence
  | [stored] =>
      if transaction_identity_matches stored ingest entry local_sequence then
        update_transaction entry
      else conflict
  | _ => conflict
  end.

Definition insert_entry (ingest : PSI.t) (entry : PSIE.t) : Mut IngestDb SIPE.t unit :=
  entry_position ← lift (ok_or (i32_try_from (PSIE.entry_position entry))
    (SIPE.numeric "synchronization_ingest_entries.entry_position"));
  local_sequence ← lift (sequence_to_i64
    (LocalSequenceNumber.value (PSIE.local_sequence_number entry))
    "synchronization_ingest_entries.local_sequence_number");
  statement (SIPE.write "insert synchronization ingest entry" ENTRY_ENTITY)
    (insert_ingest_entry
       (IngestEntryRow.mk (PSI.batch_id ingest) (PSI.reader_id ingest) entry_position
          (PSIE.transaction_id entry) local_sequence (PSIE.outcome entry)
          (SynchronizationFailureCategory.as_str <$> PSIE.failure_category entry)
          (PSIE.next_retry_at_unix_milliseconds entry)
          (PSIE.resolved_at_unix_milliseconds entry))).

(** The loop of [store]. *)
Fixpoint store_entries (ingest : PSI.t) (entries : list PSIE.t) : Mut IngestDb SIPE.t unit :=
  match entries with
  | [] => mret tt
  | entry :: entries' =>
      _ ← store_transaction ingest entry;
      _ ← insert_entry ingest entry;
      store_entries ingest entries'
  end.

(** The body of the transaction, and the two commits that end it. *)
Definition store_body (ingest : PSI.t)
  : Mut IngestDb SIPE.t SynchronizationIngestDisposition.t :=
  _ ← validate_reader ingest;
  existing_batch ← find_existing_batch ingest;
  match existing_batch with
  | Some existing_batch => lift (validate_existing_batch existing_batch ingest)
  | None =>
      _ ← insert_batch ingest;
      _ ← store_entries ingest (PSI.entries ingest);
      mret SynchronizationIngestDisposition.Stored
  end.

Definition commit_operation (disposition : SynchronizationIngestDisposition.t) : string :=
  match disposition with
  | SynchronizationIngestDisposition.Replayed => "finish synchronization replay"
  | SynchronizationIngestDisposition.Stored => "commit synchronization ingest"
  end.

Definition store (ingest : PSI.t) : Mut IngestDb SIPE.t SynchronizationIngestDisposition.t :=
  remote_transaction (SIPE.database "begin synchronization ingest")
    (fun disposition => SIPE.database (commit_operation disposition))
    (store_body ingest).

Definition load_acknowledgement (batch_id : SynchronizationBatchId)
  : Mut IngestDb SIPE.t (option SynchronizationBatchAcknowledgement.t) :=
  stored ← query (SIPE.database "load synchronization acknowledgement") (fun t =>
             IngestBatchRow.canonical_acknowledgement_json <$> ingest_batches t !! batch_id);
  match stored with
  | Some value =>
      acknowledgement ← lift (map_err (fun _ =>
          SIPE.Persistence (PersistenceError.serialization
            (lit "decode synchronization acknowledgement")))
          (acknowledgement_from_value value));
      mret (Some acknowledgement)
  | None => mret None
  end.

End repository.
End PostgresSynchronizationIngestRepository.

Module Repository := PostgresSynchronizationIngestRepository.
