(* ===== verification/PersistenceIngestLogic.v ===== *)
(** * What one ingest writes

    The rows of a prepared batch, the tables after it is stored
    ([stored_tables]), and when an entry contradicts what is stored
    ([conflicts]): the pure description that [store] is proved equal to. *)

From stdpp Require Import sorting.
From S2P Require Import Prelude Text DomainIdentifier DomainTransaction DomainEquipment.
From S2P Require Import DeviceProtocolValues DeviceProtocolSynchronization DeviceProtocolFingerprint.
From S2P Require Import PersistenceSqlLogic PersistenceColumns PersistenceIngestRecord.
From S2P Require Import PersistenceIngestTables PersistenceIngestStore.

Module IB := IngestBatchRow.
Module IT := IngestTransactionRow.
Module IE := IngestEntryRow.

Section rows.
Context `{JsonLibrary} `{!PostgresJson} `{UuidLibrary}.

(** What a [JSONB] column holds once the value is accepted. *)
Definition stored_json (v : Json) : Json :=
  match jsonb v with
  | Ok v' => v'
  | Err _ => v
  end.

Definition batch_row (ingest : PSI.t) : IB.t :=
  IB.mk (PSI.batch_id ingest) (PSI.reader_id ingest)
    (DeviceProtocolVersion.value (PSI.protocol_version ingest))
    (ProtocolEnvironmentId.as_str (PSI.environment_id ingest))
    (ReaderSoftwareVersion.as_str (PSI.reader_software_version ingest))
    (LocalSequenceNumber.value (PSI.first_local_sequence_number ingest))
    (LocalSequenceNumber.value (PSI.last_local_sequence_number ingest))
    (PSI.submitted_at_unix_milliseconds ingest) (PSI.received_at_unix_milliseconds ingest)
    (PSI.entry_count ingest)
    (SynchronizationRequestFingerprint.to_string (PSI.request_fingerprint ingest))
    (stored_json (PSI.canonical_request_json ingest))
    (SynchronizationPayloadFingerprint.to_string (PSI.acknowledgement_fingerprint ingest))
    (stored_json (PSI.canonical_acknowledgement_json ingest)).

Definition sequence_of (entry : PSIE.t) : Z :=
  LocalSequenceNumber.value (PSIE.local_sequence_number entry).

Definition transaction_row (ingest : PSI.t) (entry : PSIE.t) : IT.t :=
  IT.mk (PSIE.transaction_id entry) (PSI.reader_id ingest) (sequence_of entry)
    (SynchronizationPayloadFingerprint.to_string (PSIE.transaction_fingerprint entry))
    (stored_json (PSIE.canonical_transaction_envelope_json entry)) (PSI.batch_id ingest)
    (PSIE.outcome entry) (PSI.received_at_unix_milliseconds ingest)
    (PSIE.resolved_at_unix_milliseconds entry).

Definition entry_row (ingest : PSI.t) (entry : PSIE.t) : IE.t :=
  IE.mk (PSI.batch_id ingest) (PSI.reader_id ingest) (PSIE.entry_position entry)
    (PSIE.transaction_id entry) (sequence_of entry) (PSIE.outcome entry)
    (SynchronizationFailureCategory.as_str <$> PSIE.failure_category entry)
    (PSIE.next_retry_at_unix_milliseconds entry) (PSIE.resolved_at_unix_milliseconds entry).

(** The row of a transaction after one more entry of it. *)
Definition resolved_row (ingest : PSI.t) (entry : PSIE.t) (stored : option IT.t) : IT.t :=
  match stored with
  | Some r => IT.resolve (PSIE.outcome entry) (PSIE.resolved_at_unix_milliseconds entry) r
  | None => transaction_row ingest entry
  end.

Definition record_transaction (ingest : PSI.t) (entry : PSIE.t) (t : IngestTables) : IngestTables :=
  let id := PSIE.transaction_id entry in
  set_ingest_transactions
    (<[id := resolved_row ingest entry (ingest_transactions t !! id)]> (ingest_transactions t)) t.

Definition record_entry (ingest : PSI.t) (t : IngestTables) (entry : PSIE.t) : IngestTables :=
  let t := record_transaction ingest entry t in
  set_ingest_entries (ingest_entries t ++ [entry_row ingest entry]) t.

Definition record_batch (ingest : PSI.t) (t : IngestTables) : IngestTables :=
  set_ingest_batches (<[PSI.batch_id ingest := batch_row ingest]> (ingest_batches t)) t.

Definition stored_tables (ingest : PSI.t) (t : IngestTables) : IngestTables :=
  foldl (record_entry ingest) (record_batch ingest t) (PSI.entries ingest).

(** The entry is about a stored transaction, by its identity or by the
    reader's sequence. *)
Definition concerns (ingest : PSI.t) (entry : PSIE.t) (r : IT.t) : Prop :=
  IT.fare_transaction_id r = PSIE.transaction_id entry
  \/ (IT.reader_id r = PSI.reader_id ingest /\ IT.local_sequence_number r = sequence_of entry).

(** It says the same as what is stored. *)
Definition same_transaction (ingest : PSI.t) (entry : PSIE.t) (r : IT.t) : Prop :=
  IT.fare_transaction_id r = PSIE.transaction_id entry
  /\ IT.reader_id r = PSI.reader_id ingest
  /\ IT.local_sequence_number r = sequence_of entry
  /\ IT.transaction_fingerprint r
     = SynchronizationPayloadFingerprint.to_string (PSIE.transaction_fingerprint entry).

#[global] Instance concerns_dec ingest entry r : Decision (concerns ingest entry r).
Proof. unfold concerns. apply _. Defined.

#[global] Instance same_transaction_dec ingest entry r : Decision (same_transaction ingest entry r).
Proof. unfold same_transaction. apply _. Defined.

(** It contradicts what is stored. *)
Definition conflicts (t : IngestTables) (ingest : PSI.t) (entry : PSIE.t) : Prop :=
  map_Exists (fun _ r => concerns ingest entry r /\ ~ same_transaction ingest entry r)
    (ingest_transactions t).

#[global] Instance conflicts_dec t ingest entry : Decision (conflicts t ingest entry).
Proof. unfold conflicts. apply _. Defined.

(** ** The invariant *)

(** The entries of a batch, in the order they were inserted. *)
Definition ingest_entries_of (t : IngestTables) (id : SynchronizationBatchId) : list IE.t :=
  base.filter (fun e => IE.batch_id e = id) (ingest_entries t).

Definition ingest_complete (t : IngestTables) (b : IB.t) : Prop :=
  IE.entry_position <$> ingest_entries_of t (IB.batch_id b) = seqZ 0 (IB.entry_count b).

(** The current resolution of a transaction is the outcome of a latest entry. *)
Definition latest_resolution (t : IngestTables) (r : IT.t) : Prop :=
  (exists e, e ∈ ingest_entries t /\ IE.fare_transaction_id e = IT.fare_transaction_id r
     /\ IE.outcome e = IT.current_resolution r /\ IE.resolved_at e = IT.last_resolved_at r)
  /\ forall e, e ∈ ingest_entries t -> IE.fare_transaction_id e = IT.fare_transaction_id r ->
       IE.resolved_at e <= IT.last_resolved_at r.

(** Well-formed tables, but for the batch [open], whose entries are being
    inserted. *)
Record ingest_ok_but (open : option SynchronizationBatchId) (t : IngestTables) : Prop := {
  ig_batches : forall id b, ingest_batches t !! id = Some b ->
    IB.batch_id b = id /\ ingest_batch_check b = true
    /\ is_Some (reader_equipment t !! IB.reader_id b);
  ig_transactions : forall id r, ingest_transactions t !! id = Some r ->
    IT.fare_transaction_id r = id /\ ingest_transaction_check r = true
    /\ IB.reader_id <$> ingest_batches t !! IT.first_seen_batch_id r = Some (IT.reader_id r)
    /\ latest_resolution t r;
  (** A reader's sequence number names one transaction. *)
  ig_unique : forall id id' r r',
    ingest_transactions t !! id = Some r -> ingest_transactions t !! id' = Some r' ->
    IT.reader_id r = IT.reader_id r' -> IT.local_sequence_number r = IT.local_sequence_number r' ->
    id = id';
  ig_entries : forall e, e ∈ ingest_entries t -> ingest_entry_check e = true
    /\ IB.reader_id <$> ingest_batches t !! IE.batch_id e = Some (IE.reader_id e)
    /\ exists r, ingest_transactions t !! IE.fare_transaction_id e = Some r
         /\ IT.reader_id r = IE.reader_id e
         /\ IT.local_sequence_number r = IE.local_sequence_number e;
  ig_complete : forall id b, ingest_batches t !! id = Some b -> open <> Some id ->
    ingest_complete t b
}.

End rows.

Arguments ig_batches {_ _ _} _.
Arguments ig_transactions {_ _ _} _.
Arguments ig_unique {_ _ _} _.
Arguments ig_entries {_ _ _} _.
Arguments ig_complete {_ _ _} _.

Abbreviation ingest_ok := (ingest_ok_but None).
