(* ===== verification/PersistenceIngestRefinement.v ===== *)
(** * [store] writes what it should

    On a database that fails nothing, [store] equals the pure description of
    PersistenceIngestLogic, on every branch; under faults it is all or
    nothing. *)

From stdpp Require Import sorting.
From S2P Require Import Prelude Text DomainIdentifier DomainEquipment DomainTransaction.
From S2P Require Import DeviceProtocolValues DeviceProtocolSynchronization.
From S2P Require Import DeviceProtocolFingerprint PersistenceSqlLogic PersistenceColumns.
From S2P Require Import PersistenceIngestRecord PersistenceIngestTables PersistenceIngestStore.
From S2P Require Import PersistenceIngestLogic.

Section steps.
Context `{JsonLibrary} `{!PostgresJson} `{UuidLibrary}.
Implicit Types (t : IngestTables) (ingest : PSI.t) (entry : PSIE.t).

(** ** The transaction of an entry *)

Lemma elem_of_find_transactions ingest entry t r :
  r ∈ find_transactions (PSIE.transaction_id entry) (PSI.reader_id ingest) (sequence_of entry) t
  <-> concerns ingest entry r /\ exists id, ingest_transactions t !! id = Some r.
Proof.
  unfold find_transactions. rewrite list_elem_of_filter, list_elem_of_fmap.
  split; intros [Hc Hr]; (split; [done|]).
  - destruct Hr as ([id r'] & -> & Hr). exists id. by apply elem_of_map_to_list.
  - destruct Hr as [id Hr]. exists (id, r). split; [done|]. by apply elem_of_map_to_list.
Qed.

Lemma find_transactions_nodup open id reader sequence t :
  ingest_ok_but open t -> NoDup (find_transactions id reader sequence t).
Proof.
  intros Hok. unfold find_transactions. apply NoDup_filter.
  apply NoDup_fmap_2_strong; [|apply NoDup_map_to_list].
  intros [k r] [k' r'] Hk%elem_of_map_to_list Hk'%elem_of_map_to_list. cbn. intros <-.
  destruct (ig_transactions Hok _ _ Hk) as [<- _], (ig_transactions Hok _ _ Hk') as [<- _]. done.
Qed.

Lemma singleton_of {A} (l : list A) x : NoDup l -> (forall y, y ∈ l <-> y = x) -> l = [x].
Proof.
  intros Hnd Hl. apply Permutation_singleton_r, NoDup_Permutation; [done|apply NoDup_singleton|].
  intros y. by rewrite Hl, list_elem_of_singleton.
Qed.

(** Without a conflict, what is found is the stored transaction itself. *)
Lemma find_transactions_same open t ingest entry :
  ingest_ok_but open t -> ~ conflicts t ingest entry ->
  find_transactions (PSIE.transaction_id entry) (PSI.reader_id ingest) (sequence_of entry) t
  = match ingest_transactions t !! PSIE.transaction_id entry with
    | Some r => [r]
    | None => []
    end
  /\ forall r, ingest_transactions t !! PSIE.transaction_id entry = Some r ->
       same_transaction ingest entry r.
Proof.
  intros Hok Hno.
  assert (forall id r, ingest_transactions t !! id = Some r -> concerns ingest entry r ->
    same_transaction ingest entry r /\ id = PSIE.transaction_id entry) as Hsame.
  { intros id r Hr Hc. destruct (decide (same_transaction ingest entry r)) as [Hs|Hs].
    - split; [done|]. destruct (ig_transactions Hok _ _ Hr) as [<- _]. apply Hs.
    - destruct Hno. by exists id, r. }
  assert (forall r, ingest_transactions t !! PSIE.transaction_id entry = Some r ->
    concerns ingest entry r) as Hcon.
  { intros r Hr. left. by apply (ig_transactions Hok). }
  split; [|intros r Hr; by apply (Hsame _ _ Hr), Hcon].
  destruct (ingest_transactions t !! PSIE.transaction_id entry) as [r|] eqn:Hr.
  - apply singleton_of; [by eapply find_transactions_nodup|]. intros y.
    rewrite elem_of_find_transactions. split.
    + intros [Hc [id Hy]]. destruct (Hsame _ _ Hy Hc) as [_ ->]. congruence.
    + intros ->. split; [by apply Hcon|by eexists].
  - apply elem_of_nil_inv. intros y. rewrite elem_of_find_transactions.
    intros [Hc [id Hy]]. destruct (Hsame _ _ Hy Hc) as [_ ->]. congruence.
Qed.

Lemma identity_matches_spec ingest entry r :
  Repository.transaction_identity_matches r ingest entry (sequence_of entry) = true
  <-> same_transaction ingest entry r.
Proof.
  unfold Repository.transaction_identity_matches, same_transaction.
  rewrite !andb_true_iff, !bool_decide_eq_true. tauto.
Qed.

Definition conflict entry : Result SIPE.t unit :=
  Err (SIPE.TransactionIdentityConflict (PSIE.transaction_id entry)).

(** A conflicting entry is refused before anything is written. *)
Lemma store_transaction_conflict t ingest entry :
  in_i64 (sequence_of entry) -> conflicts t ingest entry ->
  Repository.store_transaction ingest entry (MkDb t []) = (MkDb t [], conflict entry).
Proof.
  intros Hseq (id & r & Hr & Hc & Hns). unfold Repository.store_transaction.
  unfold Repository.sequence_to_i64. fold (sequence_of entry).
  rewrite i64_try_from_in by done. cbn [ok_or]. rewrite quiet_lift_Ok, quiet_query.
  assert (r ∈ find_transactions (PSIE.transaction_id entry) (PSI.reader_id ingest)
    (sequence_of entry) t) as Hin by (apply elem_of_find_transactions; by split; [|eexists]).
  destruct (find_transactions _ _ _ _) as [|x [|y l]]; [by apply elem_of_nil in Hin| |done].
  apply list_elem_of_singleton in Hin as <-.
  destruct (Repository.transaction_identity_matches _ _ _ _) eqn:Hm; [|done].
  by apply identity_matches_spec in Hm.
Qed.

(** What a new transaction needs of the tables. *)
Definition transaction_fits t ingest entry : Prop :=
  ingest_transactions t !! PSIE.transaction_id entry = None ->
  is_ok (jsonb (PSIE.canonical_transaction_envelope_json entry)) = true
  /\ ingest_transaction_check (transaction_row ingest entry) = true
  /\ IB.reader_id <$> ingest_batches t !! PSI.batch_id ingest = Some (PSI.reader_id ingest)
  /\ is_Some (reader_equipment t !! PSI.reader_id ingest).

Lemma resolve_check outcome resolved_at r :
  ingest_transaction_check r = true -> ingest_transaction_check (IT.resolve outcome resolved_at r) = true.
Proof.
  unfold ingest_transaction_check, IT.resolve. cbn [IT.fare_transaction_id IT.reader_id
    IT.local_sequence_number IT.transaction_fingerprint IT.canonical_transaction_envelope_json
    IT.first_received_at IT.last_resolved_at].
  rewrite !andb_true_iff. intros [Hc Hl]. split; [exact Hc|]. apply Z.leb_le in Hl. apply Z.leb_le. lia.
Qed.

Lemma update_transaction_Ok open t entry r :
  ingest_ok_but open t -> ingest_transactions t !! PSIE.transaction_id entry = Some r ->
  Repository.update_transaction entry (MkDb t [])
  = (MkDb (set_ingest_transactions
             (<[PSIE.transaction_id entry := IT.resolve (PSIE.outcome entry)
                (PSIE.resolved_at_unix_milliseconds entry) r]> (ingest_transactions t)) t) [], Ok tt).
Proof.
  intros Hok Hr. destruct (ig_transactions Hok _ _ Hr) as (Hid & Hcheck & _).
  unfold Repository.update_transaction. erewrite quiet_bind_Ok.
  2:{ rewrite quiet_statement. unfold update_ingest_transactions.
      rewrite (update_where_at _ _ _ _ (PSIE.transaction_id entry) r); [reflexivity| |done| |].
      - intros k' r' Hk' Hp%bool_decide_eq_true. by destruct (ig_transactions Hok _ _ Hk') as [<- _].
      - by apply bool_decide_eq_true.
      - by apply resolve_check. }
  done.
Qed.

(** Nothing stored has the reader's sequence of a new transaction. *)
Lemma fresh_sequence open t ingest entry id r :
  ingest_ok_but open t -> ~ conflicts t ingest entry ->
  ingest_transactions t !! PSIE.transaction_id entry = None ->
  ingest_transactions t !! id = Some r ->
  ~ (IT.reader_id r = PSI.reader_id ingest /\ IT.local_sequence_number r = sequence_of entry).
Proof.
  intros Hok Hno Hnone Hr Hsame. apply Hno. exists id, r. split; [done|]. split; [by right|].
  intros (Heq & _). destruct (ig_transactions Hok _ _ Hr) as [<- _]. congruence.
Qed.

Lemma insert_transaction_Ok open t ingest entry db :
  ingest_ok_but open t -> ~ conflicts t ingest entry ->
  ingest_transactions t !! PSIE.transaction_id entry = None ->
  Repository.insert_transaction ingest entry (sequence_of entry) (MkDb t []) = (db, Ok tt)
  <-> transaction_fits t ingest entry /\ db = MkDb (record_transaction ingest entry t) [].
Proof.
  intros Hok Hno Hnone. unfold Repository.insert_transaction, transaction_fits.
  rewrite quiet_statement. unfold record_transaction, resolved_row, transaction_row, stored_json.
  rewrite Hnone. destruct (jsonb _) as [v|e]; cbn [mbind Result_bind];
    [|split; [done|intros [Hf _]; by destruct (Hf eq_refl)]].
  unfold insert_ingest_transaction. cbn beta zeta.
  destruct (ingest_transaction_check _); cbn [negb];
    [|split; [done|intros [Hf _]; by destruct (Hf eq_refl) as (_ & ? & _)]].
  cbn [IT.fare_transaction_id IT.reader_id IT.local_sequence_number IT.first_seen_batch_id].
  rewrite bool_decide_eq_false_2 by (rewrite Hnone; by intros []). cbn [orb].
  destruct (existsb _ _) eqn:Hex.
  - exfalso. apply existsb_exists in Hex as (r & Hr & Hsame%bool_decide_eq_true).
    apply list_elem_of_In, list_elem_of_fmap in Hr as ([id r'] & -> & Hr).
    apply elem_of_map_to_list in Hr. by eapply (fresh_sequence open t ingest entry).
  - case_decide as Hfk; [|split; [done|intros [Hf _]; destruct (Hf eq_refl); tauto]].
    split; [intros [= <-]; by split|]. by intros [_ ->].
Qed.

(** The transaction of an entry is stored exactly when nothing contradicts it
    and a new row fits. *)
Lemma store_transaction_Ok open t ingest entry db :
  ingest_ok_but open t ->
  Repository.store_transaction ingest entry (MkDb t []) = (db, Ok tt)
  <-> (in_i64 (sequence_of entry) /\ ~ conflicts t ingest entry /\ transaction_fits t ingest entry)
      /\ db = MkDb (record_transaction ingest entry t) [].
Proof.
  intros Hok. destruct (decide (in_i64 (sequence_of entry))) as [Hseq|Hseq].
  2:{ split; [|tauto]. unfold Repository.store_transaction, Repository.sequence_to_i64.
      fold (sequence_of entry). rewrite (proj2 (i64_try_from_None _) Hseq). cbn [ok_or].
      by rewrite quiet_lift_Err. }
  destruct (decide (conflicts t ingest entry)) as [Hc|Hno].
  { rewrite store_transaction_conflict by done. unfold conflict. split; [done|tauto]. }
  destruct (find_transactions_same _ _ _ _ Hok Hno) as [Hfind Hsame].
  unfold Repository.store_transaction, Repository.sequence_to_i64. fold (sequence_of entry).
  rewrite i64_try_from_in by done. cbn [ok_or]. rewrite quiet_lift_Ok, quiet_query, Hfind.
  destruct (ingest_transactions t !! PSIE.transaction_id entry) as [r|] eqn:Hr.
  - rewrite (proj2 (identity_matches_spec _ _ _) (Hsame _ eq_refl)).
    rewrite (update_transaction_Ok _ _ _ _ Hok Hr). unfold record_transaction, resolved_row.
    rewrite Hr. split; [intros [= <-]|by intros [_ ->]].
    split; [|done]. split_and!; [done..|]. unfold transaction_fits. congruence.
  - rewrite (insert_transaction_Ok _ _ _ _ _ Hok Hno Hr). tauto.
Qed.

(** ** The entry *)

Definition batch_open t ingest : Prop :=
  IB.reader_id <$> ingest_batches t !! PSI.batch_id ingest = Some (PSI.reader_id ingest).

Definition entry_fits t ingest entry : Prop :=
  i32_min <= PSIE.entry_position entry <= i32_max
  /\ ingest_entry_check (entry_row ingest entry) = true
  /\ forall e, e ∈ ingest_entries t -> IE.batch_id e = PSI.batch_id ingest ->
       IE.entry_position e <> PSIE.entry_position entry
       /\ IE.fare_transaction_id e <> PSIE.transaction_id entry
       /\ IE.local_sequence_number e <> sequence_of entry.

Lemma i32_try_from_Some z a : i32_try_from z = Some a <-> i32_min <= z <= i32_max /\ a = z.
Proof.
  unfold i32_try_from. destruct (Z.leb_spec i32_min z), (Z.leb_spec z i32_max); cbn;
    (split; [intros [=]|intros [? ->]]); (split || f_equal || exfalso); lia.
Qed.

Lemma resolved_row_identity t ingest entry :
  (forall r, ingest_transactions t !! PSIE.transaction_id entry = Some r ->
     same_transaction ingest entry r) ->
  same_transaction ingest entry
    (resolved_row ingest entry (ingest_transactions t !! PSIE.transaction_id entry)).
Proof.
  intros Hsame. unfold resolved_row.
  destruct (ingest_transactions t !! PSIE.transaction_id entry) as [r|]; [|done].
  exact (Hsame r eq_refl).
Qed.

Lemma insert_entry_Ok open t ingest entry db :
  ingest_ok_but open t -> ~ conflicts t ingest entry -> in_i64 (sequence_of entry) ->
  Repository.insert_entry ingest entry (MkDb (record_transaction ingest entry t) []) = (db, Ok tt)
  <-> (entry_fits t ingest entry /\ batch_open t ingest)
      /\ db = MkDb (record_entry ingest t entry) [].
Proof.
  intros Hok Hno Hseq. unfold Repository.insert_entry, entry_fits, batch_open.
  destruct (i32_try_from (PSIE.entry_position entry)) as [p|] eqn:Hp; cbn [ok_or].
  2:{ rewrite quiet_lift_Err. split; [done|]. intros [[[Hr _] _] _].
      by rewrite i32_try_from_in in Hp. }
  apply i32_try_from_Some in Hp as [Hp ->]. rewrite quiet_lift_Ok.
  unfold Repository.sequence_to_i64. fold (sequence_of entry).
  rewrite i64_try_from_in by done. cbn [ok_or]. rewrite quiet_lift_Ok, quiet_statement.
  fold (entry_row ingest entry). unfold insert_ingest_entry. cbn beta zeta.
  destruct (ingest_entry_check _) eqn:Hc; cbn [negb]; [|split; [done|naive_solver]].
  cbn [ingest_entries record_transaction set_ingest_transactions].
  destruct (existsb _ _) eqn:Hex.
  - split; [done|]. intros [[(_ & _ & Hfree) _] _]. apply existsb_exists in Hex as (e & He & Hcl).
    apply list_elem_of_In in He. apply bool_decide_eq_true in Hcl as [Hb Hcl].
    destruct (Hfree _ He Hb) as (? & ? & ?). by destruct Hcl as [|[|]].
  - assert (forall e, e ∈ ingest_entries t -> IE.batch_id e = PSI.batch_id ingest ->
       IE.entry_position e <> PSIE.entry_position entry
       /\ IE.fare_transaction_id e <> PSIE.transaction_id entry
       /\ IE.local_sequence_number e <> sequence_of entry) as Hfree.
    { intros e He Hb. apply existsb_false_Forall in Hex. rewrite Forall_forall in Hex.
      specialize (Hex e He). apply bool_decide_eq_false in Hex. cbn in Hex. tauto. }
    pose proof (proj2 (find_transactions_same _ _ _ _ Hok Hno)) as Hsame.
    apply resolved_row_identity in Hsame as (_ & Hrd & Hsq & _).
    cbn [IE.batch_id IE.reader_id IE.fare_transaction_id IE.local_sequence_number entry_row].
    cbn [record_transaction ingest_batches ingest_transactions set_ingest_transactions].
    rewrite lookup_insert_eq. cbn [fmap option_fmap option_map]. rewrite Hrd, Hsq.
    case_decide as Hfk; [|split; [done|tauto]].
    split; [intros [= <-]; by destruct Hfk|by intros [_ ->]].
Qed.

(** ** Both *)

Definition step_fits t ingest entry : Prop :=
  in_i64 (sequence_of entry) /\ ~ conflicts t ingest entry /\ transaction_fits t ingest entry
  /\ entry_fits t ingest entry /\ batch_open t ingest.

Definition store_entry ingest entry : Mut IngestDb SIPE.t unit :=
  _ ← Repository.store_transaction ingest entry; Repository.insert_entry ingest entry.

Lemma store_entry_Ok open t ingest entry db :
  ingest_ok_but open t ->
  store_entry ingest entry (MkDb t []) = (db, Ok tt)
  <-> step_fits t ingest entry /\ db = MkDb (record_entry ingest t entry) [].
Proof.
  intros Hok. unfold store_entry, step_fits. split.
  - intros (u & db1 & Ht & He)%bind_inv. destruct u.
    apply (store_transaction_Ok _ _ _ _ _ Hok) in Ht as [(Hseq & Hno & Hfits) ->].
    apply (insert_entry_Ok _ _ _ _ _ Hok Hno Hseq) in He as [[Hef Hb] ->]. tauto.
  - intros [(Hseq & Hno & Hfits & Hef & Hb) ->].
    erewrite quiet_bind_Ok by (by apply (store_transaction_Ok _ _ _ _ _ Hok)).
    by apply (insert_entry_Ok _ _ _ _ _ Hok Hno Hseq).
Qed.

End steps.

(** ** The backend's tables stay consistent

    One entry of an open batch keeps the tables well formed and only extends
    them; so does a whole stored batch. *)

Section invariant.
Context `{JsonLibrary} `{!PostgresJson} `{UuidLibrary}.
Implicit Types (t : IngestTables) (ingest : PSI.t) (entry : PSIE.t).

(** ** What is stored stays *)

(** Only the resolution of a transaction changes, and never back in time. *)
Record row_evolved (r r' : IT.t) : Prop := {
  re_identity : IT.fare_transaction_id r' = IT.fare_transaction_id r
    /\ IT.reader_id r' = IT.reader_id r
    /\ IT.local_sequence_number r' = IT.local_sequence_number r
    /\ IT.transaction_fingerprint r' = IT.transaction_fingerprint r
    /\ IT.canonical_transaction_envelope_json r' = IT.canonical_transaction_envelope_json r
    /\ IT.first_seen_batch_id r' = IT.first_seen_batch_id r
    /\ IT.first_received_at r' = IT.first_received_at r;
  re_resolved : IT.last_resolved_at r <= IT.last_resolved_at r'
}.

#[export] Instance row_evolved_preorder : PreOrder row_evolved.
Proof.
  split; [by constructor|]. intros r1 r2 r3 [Hf1 ?] [Hf2 ?].
  split; [naive_solver congruence|lia].
Qed.

Record ingest_evolved t t' : Prop := {
  ie_batches : ingest_batches t ⊆ ingest_batches t';
  ie_transactions : forall id r, ingest_transactions t !! id = Some r ->
    exists r', ingest_transactions t' !! id = Some r' /\ row_evolved r r';
  ie_entries : ingest_entries t `prefix_of` ingest_entries t'
}.

#[export] Instance ingest_evolved_preorder : PreOrder ingest_evolved.
Proof.
  split.
  - intros t. split; [done| |done]. intros id r Hr. by exists r.
  - intros t1 t2 t3 [Hf1 Hf2 Hf3] [Hg1 Hg2 Hg3]. split; [by etrans| |by etrans].
    intros id r Hr. destruct (Hf2 _ _ Hr) as (r2 & Hr2 & He).
    destruct (Hg2 _ _ Hr2) as (r3 & Hr3 & He'). exists r3. split; [done|by etrans].
Qed.

(** ** One entry *)

Lemma resolve_evolved outcome resolved_at r : row_evolved r (IT.resolve outcome resolved_at r).
Proof. split; [done|]. cbn. lia. Qed.

Lemma record_entry_evolved t ingest entry : ingest_evolved t (record_entry ingest t entry).
Proof.
  split; cbn; [done| |by eexists]. intros id r Hr.
  destruct (decide (id = PSIE.transaction_id entry)) as [->|Hne].
  - eexists. rewrite lookup_insert_eq. split; [done|]. unfold resolved_row. rewrite Hr.
    apply resolve_evolved.
  - exists r. by rewrite lookup_insert_ne.
Qed.

(** The row an entry writes. *)
Lemma written_row_ok open t ingest entry :
  ingest_ok_but open t -> step_fits t ingest entry ->
  let r := resolved_row ingest entry (ingest_transactions t !! PSIE.transaction_id entry) in
  same_transaction ingest entry r /\ ingest_transaction_check r = true
  /\ IB.reader_id <$> ingest_batches t !! IT.first_seen_batch_id r = Some (IT.reader_id r)
  /\ latest_resolution (record_entry ingest t entry) r.
Proof.
  intros Hok (Hseq & Hno & Hfits & Hef & Hb). cbn zeta.
  pose proof (proj2 (find_transactions_same _ _ _ _ Hok Hno)) as Hsame.
  split; [by apply resolved_row_identity|]. unfold resolved_row, latest_resolution.
  destruct (ingest_transactions t !! PSIE.transaction_id entry) as [r|] eqn:Hr.
  - destruct (ig_transactions Hok _ _ Hr) as (Hid & Hc & Hf & (e & He & Htx & Ho & Hres) & Hall).
    split; [by apply resolve_check|]. split; [done|].
    cbn [IT.resolve IT.fare_transaction_id IT.current_resolution IT.last_resolved_at
      record_entry set_ingest_entries ingest_entries record_transaction set_ingest_transactions].
    split.
    + destruct (Z.leb_spec (IT.last_resolved_at r) (PSIE.resolved_at_unix_milliseconds entry)).
      * exists (entry_row ingest entry). split_and!; [set_solver|by rewrite Hid|done|cbn; lia].
      * exists e. split_and!; [set_solver|done..|lia].
    + intros e' [He'| ->%list_elem_of_singleton]%elem_of_app Htx'; [|cbn; lia].
      specialize (Hall _ He' Htx'). lia.
  - destruct (Hfits Hr) as (_ & Hc & Hfk & _). split; [done|]. split; [done|].
    cbn [record_entry set_ingest_entries ingest_entries record_transaction set_ingest_transactions].
    split.
    + exists (entry_row ingest entry). split_and!; [set_solver|done..].
    + intros e' [He'| ->%list_elem_of_singleton]%elem_of_app Htx'; [|cbn; lia].
      destruct (ig_entries Hok _ He') as (_ & _ & r & Hr' & _). cbn in Htx'. congruence.
Qed.

Lemma record_entry_ok t ingest entry :
  ingest_ok_but (Some (PSI.batch_id ingest)) t -> step_fits t ingest entry ->
  ingest_ok_but (Some (PSI.batch_id ingest)) (record_entry ingest t entry).
Proof.
  intros Hok Hfit. destruct (written_row_ok _ _ _ _ Hok Hfit) as ((Hid & Hrd & Hsq & _) & Hc & Hf & Hl).
  destruct Hfit as (Hseq & Hno & Hfits & (Hpos & Hec & Hfree) & Hb).
  set (r0 := resolved_row ingest entry (ingest_transactions t !! PSIE.transaction_id entry)) in *.
  assert (forall id r, ingest_transactions (record_entry ingest t entry) !! id = Some r ->
    (id = PSIE.transaction_id entry /\ r = r0)
    \/ (id <> PSIE.transaction_id entry /\ ingest_transactions t !! id = Some r)) as Hrows.
  { intros id r Hr. cbn in Hr. apply lookup_insert_Some in Hr as [[<- <-]|[? ?]]; auto. }
  assert (forall id r, ingest_transactions t !! id = Some r -> id <> PSIE.transaction_id entry ->
    ~ (IT.reader_id r = IT.reader_id r0 /\ IT.local_sequence_number r = IT.local_sequence_number r0))
    as Hother.
  { intros id r Hr Hne. rewrite Hrd, Hsq. intros Hsame. apply Hno. exists id, r. split; [done|].
    split; [by right|]. intros (Heq & _). destruct (ig_transactions Hok _ _ Hr) as [<- _]. congruence. }
  split; [apply Hok|..].
  - intros id r Hr. destruct (Hrows _ _ Hr) as [[-> ->]|[Hne Hr']]; [by split_and!|].
    destruct (ig_transactions Hok _ _ Hr') as (Hf1 & Hg2 & Hf3 & (e & He & Hf4) & Hall).
    split_and!; [done..|]. split; [exists e; split; [set_solver|done]|].
    intros e' [He'| ->%list_elem_of_singleton]%elem_of_app Htx; [by apply Hall|].
    cbn in Htx. congruence.
  - intros id id' r r' Hr Hr' Hrd' Hsq'.
    destruct (Hrows _ _ Hr) as [[-> ->]|[Hne Hold]], (Hrows _ _ Hr') as [[-> ->]|[Hne' Hold']];
      [done| | |by eapply (ig_unique Hok)].
    + by destruct (Hother _ _ Hold' Hne').
    + by destruct (Hother _ _ Hold Hne).
  - intros e [He| ->%list_elem_of_singleton]%elem_of_app.
    + destruct (ig_entries Hok _ He) as (Hf1 & Hg2 & r & Hr & Hf3 & Hf4). split_and!; [done..|].
      destruct (ie_transactions _ _ (record_entry_evolved t ingest entry) _ _ Hr)
        as (r' & Hr' & [(_ & Hrd' & Hsq' & _) _]). exists r'. split_and!; [done|congruence..].
    + split_and!; [done..|]. exists r0. cbn. by rewrite lookup_insert_eq.
  - intros id b Hbatch Hopen. pose proof (ig_complete Hok _ _ Hbatch Hopen) as Hcomp.
    destruct (ig_batches Hok _ _ Hbatch) as [Hbid _].
    unfold ingest_complete, ingest_entries_of in *. cbn. rewrite filter_app, filter_cons_False,
      filter_nil, app_nil_r; [done|]. cbn. congruence.
Qed.

(** ** The batch row *)

Lemma record_batch_evolved t ingest :
  ingest_batches t !! PSI.batch_id ingest = None -> ingest_evolved t (record_batch ingest t).
Proof.
  intros Hnone. split; cbn; [by apply insert_subseteq| |done]. intros id r Hr. by exists r.
Qed.

Lemma record_batch_ok t ingest :
  ingest_ok t -> ingest_batches t !! PSI.batch_id ingest = None ->
  ingest_batch_check (batch_row ingest) = true ->
  is_Some (reader_equipment t !! PSI.reader_id ingest) ->
  ingest_ok_but (Some (PSI.batch_id ingest)) (record_batch ingest t).
Proof.
  intros Hok Hnone Hc Heq.
  assert (forall id (rd : ReaderId), IB.reader_id <$> ingest_batches t !! id = Some rd ->
    IB.reader_id <$> ingest_batches (record_batch ingest t) !! id = Some rd) as Hb.
  { intros id rd Hid. cbn. rewrite lookup_insert_ne; [done|]. intros <-. by rewrite Hnone in Hid. }
  split.
  - intros id b Hid. cbn in Hid. apply lookup_insert_Some in Hid as [[<- <-]|[Hne Hid]]; [done|]. by apply (ig_batches Hok).
  - intros id r Hr. destruct (ig_transactions Hok _ _ Hr) as (Hf1 & Hg2 & Hf3 & Hf4).
    split_and!; [done|done|by apply Hb|done].
  - apply Hok.
  - intros e He. destruct (ig_entries Hok _ He) as (Hf1 & Hg2 & Hf3). split_and!; [done|by apply Hb|done].
  - intros id b Hid Hopen. cbn in Hid.
    apply lookup_insert_Some in Hid as [[<- <-]|[Hne Hid]]; [done|]. by apply (ig_complete Hok _ _ Hid).
Qed.

(** No entry belongs to a batch that is not there. *)
Lemma entries_of_unknown open t id :
  ingest_ok_but open t -> ingest_batches t !! id = None -> ingest_entries_of t id = [].
Proof.
  intros Hok Hnone. apply elem_of_nil_inv. intros e [<- He]%list_elem_of_filter.
  destruct (ig_entries Hok _ He) as (_ & Hb & _). by rewrite Hnone in Hb.
Qed.

End invariant.
