(* ===== verification/PersistenceIngestCorrectness.v ===== *)
(** * The ingest repository is correct

    [store] refines an atomic registry: on every branch, and whatever the
    database fails, it decides as [ingest_decision] says and either writes the
    whole batch or nothing. *)

From stdpp Require Import sorting.
From S2P Require Import Prelude Text DomainIdentifier DomainTransaction DomainEquipment.
From S2P Require Import DeviceProtocolValues DeviceProtocolSynchronization DeviceProtocolFingerprint.
From S2P Require Import PersistenceSqlLogic PersistenceColumns PersistenceIngestRecord.
From S2P Require Import PersistenceIngestTables PersistenceIngestStore PersistenceIngestLogic.
From S2P Require Import PersistenceIngestRefinement.

Section correctness.
Context `{JsonLibrary} `{!PostgresJson} `{UuidLibrary}.
Implicit Types (t : IngestTables) (ingest : PSI.t) (entry : PSIE.t).

(** ** The specification *)

(** The batch as it would be found again. *)
Definition same_batch ingest (b : IB.t) : Prop :=
  IB.reader_id b = PSI.reader_id ingest
  /\ IB.request_fingerprint b
     = SynchronizationRequestFingerprint.to_string (PSI.request_fingerprint ingest).

#[global] Instance same_batch_dec ingest b : Decision (same_batch ingest b).
Proof. unfold same_batch. apply _. Defined.

(** What becomes of a prepared batch: who may submit, replays by identity and
    fingerprint, and the first entry that contradicts what is stored. *)
Definition ingest_decision t ingest : Result SIPE.t SynchronizationIngestDisposition.t :=
  match reader_operational (PSI.reader_id ingest) t with
  | None => Err (SIPE.ReaderNotRegistered (PSI.reader_id ingest))
  | Some false => Err (SIPE.ReaderNotOperational (PSI.reader_id ingest))
  | Some true =>
      match ingest_batches t !! PSI.batch_id ingest with
      | Some b =>
          if decide (same_batch ingest b) then Ok SynchronizationIngestDisposition.Replayed
          else Err (SIPE.BatchIdentityConflict (PSI.batch_id ingest))
      | None =>
          match head (base.filter (conflicts t ingest) (PSI.entries ingest)) with
          | Some entry => Err (SIPE.TransactionIdentityConflict (PSIE.transaction_id entry))
          | None => Ok SynchronizationIngestDisposition.Stored
          end
      end
  end.

(** The tables it leaves. *)
Definition ingest_result t ingest : IngestTables :=
  match ingest_decision t ingest with
  | Ok SynchronizationIngestDisposition.Stored => stored_tables ingest t
  | _ => t
  end.

(** A batch whose rows satisfy every constraint of the migration. *)
Record storable ingest : Prop := {
  sb_first : in_i64 (LocalSequenceNumber.value (PSI.first_local_sequence_number ingest));
  sb_last : in_i64 (LocalSequenceNumber.value (PSI.last_local_sequence_number ingest));
  sb_request : is_ok (jsonb (PSI.canonical_request_json ingest)) = true;
  sb_acknowledgement : is_ok (jsonb (PSI.canonical_acknowledgement_json ingest)) = true;
  sb_check : ingest_batch_check (batch_row ingest) = true;
  sb_entries : forall entry, entry ∈ PSI.entries ingest -> in_i64 (sequence_of entry)
    /\ is_ok (jsonb (PSIE.canonical_transaction_envelope_json entry)) = true
    /\ ingest_transaction_check (transaction_row ingest entry) = true
    /\ ingest_entry_check (entry_row ingest entry) = true;
  sb_ids : NoDup (PSIE.transaction_id <$> PSI.entries ingest);
  sb_sequences : NoDup (sequence_of <$> PSI.entries ingest);
  sb_positions : PSIE.entry_position <$> PSI.entries ingest = seqZ 0 (PSI.entry_count ingest)
}.

(** ** The loop *)

Lemma store_entries_cons ingest entry entries db :
  Repository.store_entries ingest (entry :: entries) db
  = (store_entry ingest entry ≫= fun _ => Repository.store_entries ingest entries) db.
Proof.
  cbn [Repository.store_entries]. unfold store_entry, mbind, Mut_bind.
  by destruct (Repository.store_transaction ingest entry db) as [db1 [[]|e]].
Qed.

(** Entries that were all stored were stored one by one. *)
Lemma store_entries_inv ingest entries t db :
  ingest_ok_but (Some (PSI.batch_id ingest)) t ->
  Repository.store_entries ingest entries (MkDb t []) = (db, Ok tt) ->
  db = MkDb (foldl (record_entry ingest) t entries) []
  /\ ingest_ok_but (Some (PSI.batch_id ingest)) (foldl (record_entry ingest) t entries)
  /\ ingest_evolved t (foldl (record_entry ingest) t entries).
Proof.
  revert t. induction entries as [|entry entries IH]; intros t Hok; [by intros [= <-]|].
  rewrite store_entries_cons. intros ([] & db1 & Hstep & Hrest)%bind_inv.
  apply (store_entry_Ok _ _ _ _ _ Hok) in Hstep as [Hfit ->].
  pose proof (record_entry_ok _ _ _ Hok Hfit) as Hok'.
  destruct (IH _ Hok' Hrest) as (-> & Hok'' & Hev). cbn. split_and!; [done..|].
  etrans; [apply record_entry_evolved|done].
Qed.

(** What an entry leaves concerns no other entry of its batch. *)
Lemma conflicts_stable open t ingest entry entry' :
  ingest_ok_but open t -> step_fits t ingest entry ->
  PSIE.transaction_id entry' <> PSIE.transaction_id entry -> sequence_of entry' <> sequence_of entry ->
  conflicts (record_entry ingest t entry) ingest entry' <-> conflicts t ingest entry'.
Proof.
  intros Hok Hfit Hid Hseq. pose proof Hfit as (_ & Hno & _).
  destruct (written_row_ok _ _ _ _ Hok Hfit) as ((Hwid & Hwrd & Hwsq & _) & _).
  split; intros (id & r & Hr & Hc & Hns); cbn in Hr.
  - apply lookup_insert_Some in Hr as [[<- <-]|[Hne Hr]]; [|by exists id, r].
    destruct Hc as [Hc|[_ Hc]]; congruence.
  - destruct (decide (id = PSIE.transaction_id entry)) as [->|Hne].
    + exfalso. destruct (proj2 (find_transactions_same _ _ _ _ Hok Hno) _ Hr) as (H1' & _ & H2' & _).
      destruct Hc as [Hc|[_ Hc]]; congruence.
    + exists id, r. cbn. by rewrite lookup_insert_ne.
Qed.

(** The entries of the batch that are still to come meet nothing of it. *)
Definition entries_free t ingest (entries : list PSIE.t) : Prop :=
  forall e entry, e ∈ ingest_entries t -> IE.batch_id e = PSI.batch_id ingest -> entry ∈ entries ->
    IE.entry_position e <> PSIE.entry_position entry
    /\ IE.fare_transaction_id e <> PSIE.transaction_id entry
    /\ IE.local_sequence_number e <> sequence_of entry.

Lemma step_fits_storable t ingest entry entries :
  storable ingest -> entry ∈ PSI.entries ingest -> entry ∈ entries ->
  entries_free t ingest entries -> batch_open t ingest ->
  is_Some (reader_equipment t !! PSI.reader_id ingest) ->
  ~ conflicts t ingest entry -> step_fits t ingest entry.
Proof.
  intros Hs Hin Hin' Hfree Hopen Heq Hno.
  destruct (sb_entries _ Hs _ Hin) as (Hseq & Hj & Htc & Hec).
  split_and!; [done|done|by intros _|split_and!|done]; [| |done|].
  - unfold ingest_entry_check in Hec. rewrite !andb_true_iff in Hec.
    destruct Hec as [[[[[[Hp Hp'] _] _] _] _] _]. cbn in Hp, Hp'.
    apply Z.leb_le in Hp. apply Z.ltb_lt in Hp'. unfold i32_min, i32_max. lia.
  - unfold ingest_entry_check in Hec. rewrite !andb_true_iff in Hec.
    destruct Hec as [[[[[[Hp Hp'] _] _] _] _] _]. cbn in Hp, Hp'.
    apply Z.leb_le in Hp. apply Z.ltb_lt in Hp'. unfold i32_min, i32_max. lia.
  - intros e He Hb. by apply Hfree.
Qed.

Lemma entries_free_step t ingest entry entries :
  NoDup (PSIE.entry_position <$> entry :: entries) -> NoDup (PSIE.transaction_id <$> entry :: entries) ->
  NoDup (sequence_of <$> entry :: entries) -> entries_free t ingest (entry :: entries) ->
  entries_free (record_entry ingest t entry) ingest entries.
Proof.
  intros Hp Hi Hs Hfree e entry' He Hb Hin. cbn in He.
  apply elem_of_app in He as [He| ->%list_elem_of_singleton].
  - apply Hfree; [done..|by right].
  - cbn in *. inversion Hp as [|? ? Hp' _]. inversion Hi as [|? ? Hi' _]. inversion Hs as [|? ? Hs' _].
    subst. split_and!; intros Heq; [apply Hp'|apply Hi'|apply Hs']; rewrite Heq;
      by apply list_elem_of_fmap_2.
Qed.

Lemma filter_conflicts_stable open t ingest entry entries :
  ingest_ok_but open t -> step_fits t ingest entry ->
  NoDup (PSIE.transaction_id <$> entry :: entries) -> NoDup (sequence_of <$> entry :: entries) ->
  base.filter (conflicts (record_entry ingest t entry) ingest) entries
  = base.filter (conflicts t ingest) entries.
Proof.
  intros Hok Hfit Hi Hs. apply filter_iff_in. intros entry' Hin.
  inversion Hi as [|? ? Hi' _]. inversion Hs as [|? ? Hs' _]. subst.
  apply (conflicts_stable open); [done..| |]; intros Heq; [apply Hi'|apply Hs']; rewrite <- Heq;
    by apply list_elem_of_fmap_2.
Qed.

(** The loop stops at the first conflicting entry, or records them all. *)
Lemma store_entries_spec ingest entries t :
  storable ingest -> (forall entry, entry ∈ entries -> entry ∈ PSI.entries ingest) ->
  ingest_ok_but (Some (PSI.batch_id ingest)) t -> batch_open t ingest ->
  is_Some (reader_equipment t !! PSI.reader_id ingest) -> entries_free t ingest entries ->
  NoDup (PSIE.entry_position <$> entries) -> NoDup (PSIE.transaction_id <$> entries) ->
  NoDup (sequence_of <$> entries) ->
  match head (base.filter (conflicts t ingest) entries) with
  | Some entry => exists t', Repository.store_entries ingest entries (MkDb t [])
                             = (MkDb t' [], conflict entry)
  | None => Repository.store_entries ingest entries (MkDb t [])
            = (MkDb (foldl (record_entry ingest) t entries) [], Ok tt)
  end.
Proof.
  intros Hst. revert t. induction entries as [|entry entries IH];
    intros t Hsub Hok Hopen Heq Hfree Hp Hi Hs; [done|].
  destruct (decide (conflicts t ingest entry)) as [Hc|Hno].
  - rewrite filter_cons_True by done. cbn [head]. exists t. rewrite store_entries_cons.
    apply quiet_bind_Err. unfold store_entry. apply quiet_bind_Err.
    apply store_transaction_conflict; [|done]. apply (sb_entries _ Hst). apply Hsub. by left.
  - assert (step_fits t ingest entry) as Hfit
      by (eapply step_fits_storable; [done|apply Hsub; by left|by left|done..]).
    pose proof (IH (record_entry ingest t entry)) as Hrest.
    rewrite (filter_conflicts_stable _ _ _ _ _ Hok Hfit Hi Hs) in Hrest.
    rewrite filter_cons_False by done. cbn [foldl].
    assert (forall x, Repository.store_entries ingest entries
        (MkDb (record_entry ingest t entry) []) = x ->
      Repository.store_entries ingest (entry :: entries) (MkDb t []) = x) as Hstep.
    { intros x Hx. rewrite store_entries_cons.
      by erewrite quiet_bind_Ok by (by apply (store_entry_Ok _ _ _ _ _ Hok)). }
    specialize (Hrest ltac:(intros; apply Hsub; by right) (record_entry_ok _ _ _ Hok Hfit) Hopen Heq
      (entries_free_step _ _ _ _ Hp Hi Hs Hfree) (NoDup_cons_1_2 _ _ Hp) (NoDup_cons_1_2 _ _ Hi)
      (NoDup_cons_1_2 _ _ Hs)).
    destruct (head _); [destruct Hrest as [t' Ht']; exists t'|]; by apply Hstep.
Qed.

(** ** The batch row *)

Lemma insert_batch_Ok t ingest db :
  ingest_batches t !! PSI.batch_id ingest = None ->
  Repository.insert_batch ingest (MkDb t []) = (db, Ok tt) <->
  (in_i64 (LocalSequenceNumber.value (PSI.first_local_sequence_number ingest))
   /\ in_i64 (LocalSequenceNumber.value (PSI.last_local_sequence_number ingest))
   /\ i32_min <= PSI.entry_count ingest <= i32_max
   /\ is_ok (jsonb (PSI.canonical_request_json ingest)) = true
   /\ is_ok (jsonb (PSI.canonical_acknowledgement_json ingest)) = true
   /\ ingest_batch_check (batch_row ingest) = true
   /\ is_Some (reader_equipment t !! PSI.reader_id ingest))
  /\ db = MkDb (record_batch ingest t) [].
Proof.
  intros Hnone. unfold Repository.insert_batch, Repository.sequence_to_i64.
  destruct (i64_try_from (LocalSequenceNumber.value (PSI.first_local_sequence_number ingest)))
    as [f|] eqn:Hf; cbn [ok_or]; [apply i64_try_from_Some in Hf as [Hf ->]|];
    [|rewrite quiet_lift_Err; apply i64_try_from_None in Hf; by split; [|tauto]].
  rewrite quiet_lift_Ok.
  destruct (i64_try_from (LocalSequenceNumber.value (PSI.last_local_sequence_number ingest)))
    as [l|] eqn:Hl; cbn [ok_or]; [apply i64_try_from_Some in Hl as [Hl ->]|];
    [|rewrite quiet_lift_Err; apply i64_try_from_None in Hl; by split; [|tauto]].
  rewrite quiet_lift_Ok.
  destruct (i32_try_from (PSI.entry_count ingest)) as [n|] eqn:Hn; cbn [ok_or].
  2:{ rewrite quiet_lift_Err. split; [done|]. intros [(_ & _ & Hr & _) _].
      by rewrite i32_try_from_in in Hn. }
  apply i32_try_from_Some in Hn as [Hn ->]. rewrite quiet_lift_Ok, quiet_statement.
  unfold record_batch, batch_row, stored_json.
  destruct (jsonb (PSI.canonical_request_json ingest)) as [rj|e]; cbn [mbind Result_bind];
    [|by split; [|intros [(_ & _ & _ & ? & _) _]]].
  destruct (jsonb (PSI.canonical_acknowledgement_json ingest)) as [aj|e]; cbn [mbind Result_bind];
    [|by split; [|intros [(_ & _ & _ & _ & ? & _) _]]].
  unfold insert_ingest_batch. cbn beta zeta.
  destruct (ingest_batch_check _); cbn [negb]; [|by split; [|intros [(_ & _ & _ & _ & _ & ? & _) _]]].
  cbn [IB.batch_id IB.reader_id].
  rewrite (decide_False (P := is_Some (ingest_batches t !! _))) by (rewrite Hnone; by intros []).
  case_decide as Heq; [|by split; [|intros [(_ & _ & _ & _ & _ & _ & ?) _]]].
  split; [intros [= <-]; by split|by intros [_ ->]].
Qed.

(** ** The body *)

Lemma store_body_transparent ingest : transparent (Repository.store_body ingest).
Proof.
  assert (forall entries, transparent (Repository.store_entries ingest entries)) as Hloop.
  { intros entries. induction entries as [|entry entries IH]; cbn [Repository.store_entries];
      unfold Repository.store_transaction, Repository.insert_entry, Repository.insert_transaction,
        Repository.update_transaction; transparent_steps;
      repeat (match goal with |- transparent (match ?x with _ => _ end) => destruct x end;
              transparent_steps); done. }
  unfold Repository.store_body, Repository.validate_reader, Repository.find_existing_batch,
    Repository.insert_batch. transparent_steps. apply Hloop.
Qed.

Lemma operational_registered reader_id t b :
  reader_operational reader_id t = Some b -> is_Some (reader_equipment t !! reader_id).
Proof. unfold reader_operational. by destruct (reader_equipment t !! reader_id). Qed.

(** The checks before anything is written. *)
Lemma store_body_checks t ingest :
  Repository.store_body ingest (MkDb t [])
  = match reader_operational (PSI.reader_id ingest) t with
    | None => (MkDb t [], Err (SIPE.ReaderNotRegistered (PSI.reader_id ingest)))
    | Some false => (MkDb t [], Err (SIPE.ReaderNotOperational (PSI.reader_id ingest)))
    | Some true =>
        match ingest_batches t !! PSI.batch_id ingest with
        | Some b =>
            (MkDb t [],
             if decide (same_batch ingest b) then Ok SynchronizationIngestDisposition.Replayed
             else Err (SIPE.BatchIdentityConflict (PSI.batch_id ingest)))
        | None =>
            (_ ← Repository.insert_batch ingest;
             _ ← Repository.store_entries ingest (PSI.entries ingest);
             mret SynchronizationIngestDisposition.Stored) (MkDb t [])
        end
    end.
Proof.
  assert (Repository.validate_reader ingest (MkDb t [])
    = (MkDb t [], match reader_operational (PSI.reader_id ingest) t with
                  | Some true => Ok tt
                  | Some false => Err (SIPE.ReaderNotOperational (PSI.reader_id ingest))
                  | None => Err (SIPE.ReaderNotRegistered (PSI.reader_id ingest))
                  end)) as Hreader.
  { unfold Repository.validate_reader. rewrite quiet_query.
    by destruct (reader_operational _ t) as [[]|]. }
  unfold Repository.store_body. destruct (reader_operational _ t) as [[]|];
    [|by apply quiet_bind_Err..].
  erewrite quiet_bind_Ok by exact Hreader. unfold Repository.find_existing_batch.
  rewrite quiet_query. destruct (ingest_batches t !! PSI.batch_id ingest) as [b|]; [|done].
  cbn [fmap option_fmap option_map]. unfold lift, Repository.validate_existing_batch.
  f_equal. cbn [fst snd]. unfold same_batch.
  repeat (case_decide || case_bool_decide); cbn [andb]; tauto.
Qed.

(** ** What a stored batch leaves *)

Lemma fold_batches ingest entries t :
  ingest_batches (foldl (record_entry ingest) t entries) = ingest_batches t
  /\ reader_equipment (foldl (record_entry ingest) t entries) = reader_equipment t
  /\ ingest_entries (foldl (record_entry ingest) t entries)
     = ingest_entries t ++ (entry_row ingest <$> entries).
Proof.
  revert t. induction entries as [|entry entries IH]; intros t; cbn; [by rewrite app_nil_r|].
  destruct (IH (record_entry ingest t entry)) as (-> & -> & ->). cbn. by rewrite <- app_assoc.
Qed.

Lemma stored_tables_fields ingest t :
  ingest_batches (stored_tables ingest t) = <[PSI.batch_id ingest := batch_row ingest]> (ingest_batches t)
  /\ reader_equipment (stored_tables ingest t) = reader_equipment t
  /\ ingest_entries (stored_tables ingest t)
     = ingest_entries t ++ (entry_row ingest <$> PSI.entries ingest).
Proof. exact (fold_batches ingest (PSI.entries ingest) (record_batch ingest t)). Qed.

(** Every entry's transaction is there, as the entry says. *)
Definition all_recorded t ingest : Prop :=
  forall entry, entry ∈ PSI.entries ingest -> exists r,
    ingest_transactions t !! PSIE.transaction_id entry = Some r /\ same_transaction ingest entry r.

Lemma row_evolved_same ingest entry r r' :
  row_evolved r r' -> same_transaction ingest entry r -> same_transaction ingest entry r'.
Proof. intros [(Hi & Hr & Hs & Hf & _) _]. unfold same_transaction. by rewrite Hi, Hr, Hs, Hf. Qed.

Lemma store_entries_recorded ingest entries t db :
  ingest_ok_but (Some (PSI.batch_id ingest)) t ->
  Repository.store_entries ingest entries (MkDb t []) = (db, Ok tt) ->
  forall entry, entry ∈ entries -> exists r,
    ingest_transactions (tables db) !! PSIE.transaction_id entry = Some r
    /\ same_transaction ingest entry r.
Proof.
  revert t. induction entries as [|x entries IH]; intros t Hok Hrun entry Hin;
    [by apply elem_of_nil in Hin|].
  rewrite store_entries_cons in Hrun. apply bind_inv in Hrun as ([] & db1 & Hstep & Hrest).
  apply (store_entry_Ok _ _ _ _ _ Hok) in Hstep as [Hfit ->].
  pose proof (record_entry_ok _ _ _ Hok Hfit) as Hok'.
  apply elem_of_cons in Hin as [->|Hin]; [|by eapply IH].
  destruct (written_row_ok _ _ _ _ Hok Hfit) as [Hsame _].
  destruct (store_entries_inv _ _ _ _ Hok' Hrest) as (-> & _ & Hev).
  destruct (ie_transactions _ _ Hev (PSIE.transaction_id x)
    (resolved_row ingest x (ingest_transactions t !! PSIE.transaction_id x))) as (r & Hr & He).
  { cbn. by rewrite lookup_insert_eq. }
  exists r. split; [done|]. by eapply row_evolved_same.
Qed.

(** The entries are numbered as they are listed. *)
Definition numbered ingest : Prop :=
  PSIE.entry_position <$> PSI.entries ingest = seqZ 0 (PSI.entry_count ingest).

(** A success without faults: a replay, or the whole batch. *)
Lemma store_body_inv ingest t db d :
  ingest_ok t -> numbered ingest ->
  Repository.store_body ingest (MkDb t []) = (db, Ok d) ->
  reader_operational (PSI.reader_id ingest) t = Some true
  /\ match d with
     | SynchronizationIngestDisposition.Replayed =>
         db = MkDb t []
         /\ exists b, ingest_batches t !! PSI.batch_id ingest = Some b /\ same_batch ingest b
     | SynchronizationIngestDisposition.Stored =>
         db = MkDb (stored_tables ingest t) []
         /\ ingest_batches t !! PSI.batch_id ingest = None
         /\ is_ok (jsonb (PSI.canonical_acknowledgement_json ingest)) = true
         /\ all_recorded (stored_tables ingest t) ingest
         /\ ingest_ok (stored_tables ingest t) /\ ingest_evolved t (stored_tables ingest t)
     end.
Proof.
  intros Hok Hnum. rewrite store_body_checks.
  destruct (reader_operational _ t) as [[]|] eqn:Hop; [|done..].
  destruct (ingest_batches t !! PSI.batch_id ingest) as [b|] eqn:Hb.
  { case_decide as Hsame; [|done]. intros [= <- <-]. split; [done|]. split; [done|]. by exists b. }
  intros ([] & db1 & Hins & Hrun)%bind_inv.
  apply insert_batch_Ok in Hins as [(_ & _ & _ & _ & Hack & Hcheck & Heq) ->]; [|done].
  apply bind_inv in Hrun as ([] & db2 & Hloop & Hret). injection Hret as <- <-.
  pose proof (record_batch_ok _ _ Hok Hb Hcheck Heq) as Hok1.
  pose proof (store_entries_recorded _ _ _ _ Hok1 Hloop) as Hrec.
  destruct (store_entries_inv _ _ _ _ Hok1 Hloop) as (-> & Hok2 & Hev).
  split; [done|]. split_and!; [done..| | |].
  - intros entry Hin. by apply Hrec.
  - split; try apply Hok2. intros id b Hid _. destruct (decide (id = PSI.batch_id ingest)) as [->|Hne].
    + destruct (stored_tables_fields ingest t) as (Hbs & _ & Hes). rewrite Hbs, lookup_insert_eq in Hid.
      injection Hid as <-. unfold ingest_complete, ingest_entries_of. rewrite Hes, filter_app.
      pose proof (entries_of_unknown _ _ _ Hok Hb) as Hnone. unfold ingest_entries_of in Hnone.
      change (IB.batch_id (batch_row ingest)) with (PSI.batch_id ingest). rewrite Hnone. cbn [app].
      rewrite filter_all, <- list_fmap_compose; [exact Hnum|].
      by intros e (entry & -> & _)%list_elem_of_fmap.
    + apply (ig_complete Hok2 _ _ Hid). congruence.
  - etrans; [by apply record_batch_evolved|done].
Qed.

End correctness.
