(* ===== verification/PersistenceIngestHistory.v ===== *)
(** * Every history of ingests keeps the backend consistent

    The theorems about the ingest repository: the refinement of [store], the
    invariant over every history of submissions and registrations, and the fit
    of the protocol's messages with the constraints of the tables. *)

From stdpp Require Import sorting.
From S2P Require Import Prelude Text DomainIdentifier DomainTransaction DomainEquipment.
From S2P Require Import DeviceProtocolValues DeviceProtocolSynchronization DeviceProtocolFingerprint.
From S2P Require Import PersistenceSqlLogic PersistenceColumns PersistenceIngestRecord.
From S2P Require Import PersistenceIngestTables PersistenceIngestStore PersistenceIngestLogic.
From S2P Require Import PersistenceIngestRefinement.
From S2P Require Import PersistenceIngestCorrectness MessageFormats.

(** ** Documented behaviour of the libraries *)

(** PostgreSQL keeps the kind of a value, and a value without fractional
    numbers and repeated names but for the order of members. *)
Class MessageLaws `{!PostgresJson} : Prop := {
  jsonb_object v v' : jsonb v = Ok v' -> json_is_object v' = json_is_object v;
  jsonb_same v v' : json_plain v -> jsonb v = Ok v' -> json_same v v'
}.

(** An acknowledgement that is read back from its column is the one that was
    stored. *)
Lemma acknowledgement_reads_back `{JsonLibrary} `{MessageLaws} `{UuidLaws} a v v' a' :
  environment_wf (SBA.environment_id a) -> acknowledgement_to_value a = Ok v -> jsonb v = Ok v' ->
  acknowledgement_from_value v' = Ok a' -> a' = a.
Proof.
  intros Henv [= <-] Hj%jsonb_same Ha; [|apply acknowledgement_plain].
  unfold acknowledgement_from_value, json_from_value in Ha. apply ok_or_Ok in Ha.
  rewrite <- (deserialize_proper _ _ Hj) in Ha. by apply deserialize_exact.
Qed.

Section store.
Context `{JsonLibrary} `{!PostgresJson} `{UuidLibrary} `{Sha256Library}.
Implicit Types (t : IngestTables) (ingest : PSI.t) (entry : PSIE.t).

Lemma prepared_numbered request ack ingest : PSI.prepare request ack = Ok ingest -> numbered ingest.
Proof.
  intros (Hv & _ & _ & He & _)%prepare_Ok. apply validate_against_request_Ok in Hv as [_ Hf].
  apply answers_length in Hf. apply prepare_entries_Ok in He as (Hl & Hp & _); [|done].
  unfold numbered, PSI.entry_count. by rewrite Hp, Hl.
Qed.

(** ** Refinement *)

Lemma store_quiet t ingest :
  Repository.store ingest (MkDb t [])
  = match Repository.store_body ingest (MkDb t []) with
    | (db, Ok d) => (MkDb (tables db) [], Ok d)
    | (db, Err e) => (MkDb t (faults db), Err e)
    end.
Proof. apply remote_transaction_quiet, store_body_transparent. Qed.

Lemma store_atomic ingest : atomic (Repository.store ingest).
Proof. apply remote_transaction_atomic, store_body_transparent. Qed.

Lemma store_body_storable t ingest :
  ingest_ok t -> storable ingest -> exists t' script,
    Repository.store_body ingest (MkDb t []) = (MkDb t' script, ingest_decision t ingest)
    /\ (is_ok (ingest_decision t ingest) = true -> t' = ingest_result t ingest)
    /\ script = [].
Proof.
  intros Hok Hst. rewrite store_body_checks. unfold ingest_result, ingest_decision.
  destruct (reader_operational _ t) as [[]|] eqn:Hop; [|by eexists _, _..].
  destruct (ingest_batches t !! PSI.batch_id ingest) as [b|] eqn:Hb.
  { case_decide; by eexists _, _. }
  apply operational_registered in Hop.
  assert (i32_min <= PSI.entry_count ingest <= i32_max) as Hcount.
  { pose proof (sb_check _ Hst) as Hc. unfold ingest_batch_check in Hc. rewrite !andb_true_iff in Hc.
    cbn [IB.entry_count batch_row] in Hc. unfold i32_min, i32_max. lia. }
  erewrite quiet_bind_Ok by (apply insert_batch_Ok; [done|]; split; [|reflexivity];
    split_and!; [apply Hst|apply Hst|apply Hcount|apply Hcount|apply Hst|apply Hst|apply Hst|done]).
  pose proof (record_batch_ok _ _ Hok Hb (sb_check _ Hst) Hop) as Hok1.
  assert (NoDup (PSIE.entry_position <$> PSI.entries ingest)) as Hpos
    by (rewrite (sb_positions _ Hst); apply NoDup_seqZ).
  assert (entries_free (record_batch ingest t) ingest (PSI.entries ingest)) as Hfree.
  { intros e entry He Hbe. destruct (ig_entries Hok _ He) as (_ & Hfk & _). by rewrite Hbe, Hb in Hfk. }
  assert (batch_open (record_batch ingest t) ingest) as Hopen
    by (unfold batch_open; cbn; by rewrite lookup_insert_eq).
  pose proof (store_entries_spec ingest (PSI.entries ingest) (record_batch ingest t) Hst
    ltac:(done) Hok1 Hopen Hop Hfree Hpos (sb_ids _ Hst) (sb_sequences _ Hst)) as Hloop.
  change (base.filter (conflicts (record_batch ingest t) ingest) (PSI.entries ingest))
    with (base.filter (conflicts t ingest) (PSI.entries ingest)) in Hloop.
  destruct (head _) as [entry|].
  - destruct Hloop as [t' Hloop]. exists t', []. split; [by apply quiet_bind_Err|done].
  - exists (stored_tables ingest t), []. split; [by erewrite quiet_bind_Ok by exact Hloop|done].
Qed.

(** C8. The ingest repository refines an atomic registry of batches.  For a
    batch that fits the tables, [store] on a database that fails nothing does
    what [ingest_decision] says on every branch: an unknown or disabled reader
    is refused, a known batch is a replay exactly when reader and fingerprint
    agree, the first entry that contradicts a stored transaction is named, and
    otherwise the whole batch is written.  Whatever statements the database
    fails, a success is that decision with its effect, and an error has changed
    nothing, except that the commit may have happened and its reply been
    lost. *)
Theorem store_refines_registry t ingest script :
  ingest_ok t -> storable ingest ->
  Repository.store ingest (MkDb t []) = (MkDb (ingest_result t ingest) [], ingest_decision t ingest)
  /\ match Repository.store ingest (MkDb t script) with
     | (db, Ok d) => ingest_decision t ingest = Ok d /\ tables db = ingest_result t ingest
     | (db, Err _) =>
         tables db = t \/ (is_ok (ingest_decision t ingest) = true /\ tables db = ingest_result t ingest)
     end.
Proof.
  intros Hok Hst.
  assert (Repository.store ingest (MkDb t [])
    = (MkDb (ingest_result t ingest) [], ingest_decision t ingest)) as Hquiet.
  { rewrite store_quiet. destruct (store_body_storable _ _ Hok Hst) as (t' & s & -> & Ht & ->).
    unfold ingest_result in *. destruct (ingest_decision t ingest) as [d|e]; [|done].
    by rewrite Ht. }
  split; [exact Hquiet|]. destruct (store_atomic ingest) as [Htr Hat].
  destruct (Repository.store ingest (MkDb t script)) as [db [d|e]] eqn:Hrun.
  - specialize (Htr _ _ _ _ Hrun). rewrite Hquiet in Htr. by injection Htr.
  - destruct (Hat _ _ _ _ Hrun) as [->|Hq]; [by left|]. rewrite Hquiet in Hq. cbn in Hq.
    unfold ingest_result in *. destruct (ingest_decision t ingest) as [d|e']; [by right|by left].
Qed.

(** ** Histories *)

(** What may happen to the tables: an equipment row appears or changes its
    status, a request and its acknowledgement are prepared and stored. *)
Inductive IngestCall :=
| SetReaderStatus (id : ReaderId) (status : ReaderEquipmentStatus.t)
| StoreIngest (request : SBR.t) (ack : SBA.t).

Definition ingest_perform (call : IngestCall) (db : IngestDb) : IngestDb :=
  match call with
  | SetReaderStatus id status =>
      MkDb (set_reader_equipment (<[id := status]> (reader_equipment (tables db))) (tables db))
        (faults db)
  | StoreIngest request ack =>
      match PSI.prepare request ack with
      | Ok ingest => (Repository.store ingest db).1
      | Err _ => db
      end
  end.

Definition ingest_history t (calls : list (IngestCall * list (option Fault))) : IngestTables :=
  foldl (fun t call => tables (ingest_perform call.1 (MkDb t call.2))) t calls.

Lemma empty_ingest_ok : ingest_ok empty_ingest_tables.
Proof.
  split; cbn.
  - intros id b Hid. by rewrite lookup_empty in Hid.
  - intros id r Hid. by rewrite lookup_empty in Hid.
  - intros id id' r r' Hid. by rewrite lookup_empty in Hid.
  - intros e He. by apply elem_of_nil in He.
  - intros id b Hid. by rewrite lookup_empty in Hid.
Qed.

(** What a decision to store or to replay has found and leaves. *)
Definition store_effect t ingest (d : SynchronizationIngestDisposition.t) (t' : IngestTables) : Prop :=
  match d with
  | SynchronizationIngestDisposition.Replayed =>
      t' = t /\ exists b, ingest_batches t !! PSI.batch_id ingest = Some b /\ same_batch ingest b
  | SynchronizationIngestDisposition.Stored =>
      t' = stored_tables ingest t
      /\ ingest_batches t !! PSI.batch_id ingest = None
      /\ is_ok (jsonb (PSI.canonical_acknowledgement_json ingest)) = true
      /\ all_recorded t' ingest /\ ingest_ok t' /\ ingest_evolved t t'
  end.

Lemma store_quiet_effect t ingest db d :
  ingest_ok t -> numbered ingest -> Repository.store ingest (MkDb t []) = (db, Ok d) ->
  store_effect t ingest d (tables db).
Proof.
  intros Hok Hnum. rewrite store_quiet.
  destruct (Repository.store_body ingest (MkDb t [])) as [db' [d'|e]] eqn:Hb; [|done].
  intros [= <- <-]. destruct (store_body_inv _ _ _ _ Hok Hnum Hb) as [_ Hd].
  destruct d'; [destruct Hd as (-> & ?)|destruct Hd as [-> ?]]; done.
Qed.

(** A store, whatever fails: its effect, or nothing. *)
Lemma store_cases t ingest script db r :
  ingest_ok t -> numbered ingest -> Repository.store ingest (MkDb t script) = (db, r) ->
  match r with
  | Ok d => store_effect t ingest d (tables db)
  | Err _ => tables db = t \/ exists d, store_effect t ingest d (tables db)
  end.
Proof.
  intros Hok Hnum Hrun. destruct (store_atomic ingest) as [Htr Hat]. destruct r as [d|e].
  - by apply (store_quiet_effect _ _ _ _ Hok Hnum (Htr _ _ _ _ Hrun)).
  - destruct (Hat _ _ _ _ Hrun) as [?|Hq]; [by left|].
    destruct (Repository.store ingest (MkDb t [])) as [db' [d|e']] eqn:Hquiet; cbn in Hq.
    + right. exists d. rewrite Hq. by eapply store_quiet_effect.
    + left. rewrite store_quiet in Hquiet.
      destruct (Repository.store_body ingest (MkDb t [])) as [? [?|?]]; [done|].
      by injection Hquiet as <- _.
Qed.

Lemma effect_kept t ingest d t' :
  ingest_ok t -> store_effect t ingest d t' -> ingest_ok t' /\ ingest_evolved t t'.
Proof. intros Hok. destruct d; [by intros (_ & _ & _ & _ & ? & ?)|by intros [-> _]]. Qed.

Lemma store_kept t ingest script :
  ingest_ok t -> numbered ingest ->
  let db := (Repository.store ingest (MkDb t script)).1 in
  ingest_ok (tables db) /\ ingest_evolved t (tables db).
Proof.
  intros Hok Hnum. destruct (Repository.store ingest (MkDb t script)) as [db r] eqn:Hrun. cbn.
  pose proof (store_cases _ _ _ _ _ Hok Hnum Hrun) as Hc.
  destruct r as [d|e]; [by eapply effect_kept|].
  destruct Hc as [->|[d Hd]]; [done|by eapply effect_kept].
Qed.

Lemma set_status_kept t id status :
  ingest_ok t ->
  let t' := set_reader_equipment (<[id := status]> (reader_equipment t)) t in
  ingest_ok t' /\ ingest_evolved t t'.
Proof.
  intros Hok. cbn zeta. split; [|split; cbn; [done| |done]; intros k r Hr; by exists r].
  split; try apply Hok. intros k b Hb. destruct (ig_batches Hok _ _ Hb) as (Hf1 & Hf2 & Hf3).
  split_and!; [done..|]. cbn. rewrite lookup_insert_is_Some'. by right.
Qed.

Lemma ingest_perform_kept t call script :
  ingest_ok t -> ingest_ok (tables (ingest_perform call (MkDb t script)))
  /\ ingest_evolved t (tables (ingest_perform call (MkDb t script))).
Proof.
  intros Hok. destruct call as [id status|request ack]; [by apply set_status_kept|].
  cbn [ingest_perform]. destruct (PSI.prepare request ack) as [ingest|] eqn:Hp; [|done].
  apply store_kept; [done|]. by eapply prepared_numbered.
Qed.

Lemma ingest_history_kept t calls :
  ingest_ok t -> ingest_ok (ingest_history t calls) /\ ingest_evolved t (ingest_history t calls).
Proof.
  revert t. induction calls as [|[call script] calls IH]; intros t Hok; [done|]. cbn.
  destruct (ingest_perform_kept t call script Hok) as [Hok1 Hev1]. destruct (IH _ Hok1) as [Hok2 Hev2].
  split; [done|by etrans].
Qed.

(** C9. The backend's tables are consistent after every history of
    submissions and status changes, whatever the database fails: every row
    satisfies its checks and names existing rows, a reader's sequence number
    names one transaction, a batch has exactly its counted entries at the
    positions 0, 1, .., and the current resolution of a transaction is the
    outcome of a latest entry.  And what is stored stays: batches are
    immutable, a transaction keeps its identity, fingerprint and envelope and
    is never resolved back in time, entries are only appended. *)
Theorem ingest_store_invariant calls more :
  let t := ingest_history empty_ingest_tables calls in
  let t' := ingest_history empty_ingest_tables (calls ++ more) in
  ingest_ok t /\ ingest_evolved t t'.
Proof.
  cbn zeta. destruct (ingest_history_kept _ calls empty_ingest_ok) as [Hok _]. split; [done|].
  unfold ingest_history. rewrite foldl_app. by apply ingest_history_kept.
Qed.

End store.
