(* ===== verification/PersistenceIngestFit.v ===== *)
(** * The protocol's messages fit the backend's tables

    Whatever [new] accepts and [prepare] converts satisfies every check of the
    migration; what is left to fail are sequence numbers beyond [BIGINT] and
    JSON values that PostgreSQL refuses. *)

From stdpp Require Import sorting.
From S2P Require Import Prelude Text DomainIdentifier DomainTransaction DomainEquipment.
From S2P Require Import DeviceProtocolValues DeviceProtocolSynchronization DeviceProtocolFingerprint.
From S2P Require Import PersistenceSqlLogic PersistenceColumns PersistenceIngestRecord.
From S2P Require Import PersistenceIngestTables PersistenceIngestStore PersistenceIngestLogic.
From S2P Require Import PersistenceIngestRefinement.
From S2P Require Import PersistenceIngestCorrectness PersistenceIngestHistory.

(** ** Texts *)

Lemma text_ok_short s : text_ok 128 s -> short_text s = true.
Proof.
  intros (Hne & Htrim & Hlen & _). unfold short_text. apply andb_true_iff.
  split; [|by apply Z.leb_le]. unfold not_blank. apply existsb_exists.
  destruct s as [|c s]; [done|]. exists c. split; [by left|].
  assert (is_whitespace c = false) as Hc.
  { destruct (trim_end_prefix (trim_start (c :: s))) as [k Hk].
    unfold trim in Htrim. rewrite Htrim in Hk. by eapply trim_start_no_ws. }
  destruct (Z.eqb_spec c 32) as [->|]; [by vm_compute in Hc|done].
Qed.

Lemma hex_digit_lower d : In d HEX_DIGITS -> is_lower_hex d = true.
Proof.
  assert (forallb is_lower_hex HEX_DIGITS = true) as Hall by reflexivity.
  by apply (proj1 (forallb_forall _ _) Hall).
Qed.

Lemma nibble_index n i : 0 <= n < 16 -> i = Z.to_nat n -> In (nth i HEX_DIGITS 0) HEX_DIGITS.
Proof. intros Hn ->. apply nth_In. change (length HEX_DIGITS) with 16%nat. lia. Qed.

(** A printed fingerprint matches the column's pattern. *)
Lemma to_hex_fingerprint bs :
  length bs = 32%nat -> Forall is_byte bs -> is_fingerprint (to_hex bs) = true.
Proof.
  intros Hlen Hbs. unfold is_fingerprint. apply andb_true_iff. split.
  - rewrite (proj2 (to_hex_digits bs Hbs)), Hlen. done.
  - apply forallb_forall. intros c Hc%list_elem_of_In. unfold to_hex in Hc.
    apply list_elem_of_bind in Hc as (b & Hc & Hb). rewrite Forall_forall in Hbs.
    specialize (Hbs _ Hb). unfold is_byte in Hbs. apply hex_digit_lower.
    apply elem_of_cons in Hc as [->|Hc]; [|apply list_elem_of_singleton in Hc as ->].
    + eapply nibble_index; [|reflexivity]. rewrite Z.shiftr_div_pow2 by lia.
      change (2 ^ 4) with 16. split; [apply Z.div_pos; lia|]. apply Z.div_lt_upper_bound; lia.
    + eapply nibble_index; [|reflexivity]. change 15 with (Z.ones 4). rewrite Z.land_ones by lia.
      apply Z.mod_pos_bound. lia.
Qed.

(** Every stable category name matches the column's pattern. *)
Lemma category_passes c :
  let x := SynchronizationFailureCategory.as_str c in
  not_blank x && (str_len x <=? 128) && is_category x = true.
Proof. by destruct c. Qed.

Section fit.
Context `{JsonLibrary} `{!PostgresJson} `{UuidLibrary} `{Sha256Library}.
Context {json_laws : JsonLaws} {message_laws : MessageLaws} {uuid_text : UuidTextLaws} {sha_laws : Sha256Laws}.

(** What the constructors of the values in a request guarantee. *)
Record request_values (request : SBR.t) : Prop := {
  rv_version : DeviceProtocolVersion.wf (SBR.protocol_version request);
  rv_environment : text_ok 128 (ProtocolEnvironmentId.as_str (SBR.environment_id request));
  rv_software : text_ok 128 (ReaderSoftwareVersion.as_str (SBR.reader_software_version request));
  rv_reader : identifier_wf (SBR.reader_id request);
  rv_batch : identifier_wf (SBR.batch_id request);
  rv_entries : forall e, e ∈ SBR.entries request ->
    identifier_wf (SRE.transaction_id e) /\ LocalSequenceNumber.wf (SRE.local_sequence_number e)
    /\ exists source, CanonicalTransactionEnvelope.from_json source = Ok (SRE.transaction_envelope e)
}.

(** What the backend cannot promise. *)
Record storage_accepts (ingest : PSI.t) : Prop := {
  sa_sequences : forall entry, entry ∈ PSI.entries ingest -> sequence_of entry <= i64_max;
  sa_request : is_ok (jsonb (PSI.canonical_request_json ingest)) = true;
  sa_acknowledgement : is_ok (jsonb (PSI.canonical_acknowledgement_json ingest)) = true;
  sa_envelopes : forall entry, entry ∈ PSI.entries ingest ->
    is_ok (jsonb (PSIE.canonical_transaction_envelope_json entry)) = true
}.

Lemma stored_json_object v :
  is_ok (jsonb v) = true -> json_is_object v = true -> json_is_object (stored_json v) = true.
Proof using message_laws.
  unfold stored_json. destruct (jsonb v) as [v'|] eqn:Hv; [|done]. intros _ Ho.
  by rewrite (jsonb_object _ _ Hv).
Qed.

Lemma request_new_inv d r :
  SBR.new d = Ok r ->
  0 <= SBR.submitted_at_unix_milliseconds r
  /\ batch_ok (SBR.first_local_sequence_number r) (SBR.last_local_sequence_number r)
       (SRE.transaction_id <$> SBR.entries r) (SRE.local_sequence_number <$> SBR.entries r).
Proof.
  unfold SBR.new. intros Hn. apply Result_bind_Ok in Hn as ([] & Ht & Hn).
  apply Result_bind_Ok in Hn as ([] & Hv & [= <-]).
  apply validate_timestamp_Ok in Ht. by apply validate_entries_Ok in Hv.
Qed.

Lemma acknowledgement_new_inv d a :
  SBA.new d = Ok a -> 0 <= SBA.received_at_unix_milliseconds a.
Proof.
  unfold SBA.new. intros Hn. apply Result_bind_Ok in Hn as ([] & Ht & Hn).
  apply Result_bind_Ok in Hn as ([] & Hv & [= <-]). by apply validate_timestamp_Ok in Ht.
Qed.

Lemma sorted_nodup (l : list Z) : StronglySorted Z.lt l -> NoDup l.
Proof.
  induction 1 as [|x l _ IH Hx]; [constructor|]. constructor; [|done].
  intros Hin. rewrite Forall_forall in Hx. specialize (Hx _ Hin). lia.
Qed.

(** The columns of a prepared batch, as the request has them. *)
Lemma prepared_columns request ack ingest :
  PSI.prepare request ack = Ok ingest ->
  PSIE.transaction_id <$> PSI.entries ingest = SRE.transaction_id <$> SBR.entries request
  /\ PSIE.local_sequence_number <$> PSI.entries ingest
     = SRE.local_sequence_number <$> SBR.entries request
  /\ PSI.entry_count ingest = Z.of_nat (length (SBR.entries request)).
Proof.
  intros (Hv & _ & _ & He & _)%prepare_Ok. apply validate_against_request_Ok in Hv as [_ Hf].
  apply answers_length in Hf. apply prepare_entries_Ok in He as (Hl & _ & Hat); [|done].
  unfold PSI.entry_count. rewrite Hl. split_and!; [..|done].
  all: apply list_eq_same_length with (n := length (SBR.entries request));
    rewrite ?length_fmap; [done|done|]; intros i x y _; rewrite !list_lookup_fmap;
    destruct (PSI.entries ingest !! i) as [e|] eqn:Hi; [|done];
    destruct (Hat _ _ Hi) as (s & a & -> & _ & [Hid Hseq _ _ _ _ _ _]); cbn; congruence.
Qed.

(** An entry of a prepared batch and what it was made of. *)
Lemma prepared_entry request ack ingest entry :
  PSI.prepare request ack = Ok ingest -> entry ∈ PSI.entries ingest ->
  exists s a, s ∈ SBR.entries request /\ a ∈ SBA.entries ack
    /\ prepared_from (SBA.received_at_unix_milliseconds ack) s a entry.
Proof.
  intros (Hv & _ & _ & He & _)%prepare_Ok. apply validate_against_request_Ok in Hv as [_ Hf].
  apply answers_length in Hf. apply prepare_entries_Ok in He as (_ & _ & Hat); [|done].
  intros [i Hi]%list_elem_of_lookup. destruct (Hat _ _ Hi) as (s & a & Hs & Ha & Hfrom).
  exists s, a. split_and!; [by eapply list_elem_of_lookup_2..|done].
Qed.

Lemma entry_position_range ingest entry :
  numbered ingest -> entry ∈ PSI.entries ingest ->
  0 <= PSIE.entry_position entry < PSI.entry_count ingest.
Proof.
  intros Hn Hin. apply (list_elem_of_fmap_2 PSIE.entry_position) in Hin. rewrite Hn in Hin.
  apply elem_of_seqZ in Hin. lia.
Qed.

(** What the JSON encodings must do for a request to be stored. *)
Record json_accepts (request : SBR.t) (ack : SBA.t) : Prop := {
  ja_request : exists v, request_to_value request = Ok v /\ is_ok (jsonb v) = true;
  ja_acknowledgement : exists v, acknowledgement_to_value ack = Ok v /\ is_ok (jsonb v) = true;
  ja_envelopes : forall e v, e ∈ SBR.entries request ->
    json_from_str (CanonicalTransactionEnvelope.as_str (SRE.transaction_envelope e)) = Ok v ->
    is_ok (jsonb v) = true
}.

Lemma prepare_entries_total received_at position ss acks :
  (forall s, s ∈ ss -> exists v,
     json_from_str (CanonicalTransactionEnvelope.as_str (SRE.transaction_envelope s)) = Ok v) ->
  exists es, PSI.prepare_entries received_at position ss acks = Ok es.
Proof.
  revert position acks. induction ss as [|s ss IH]; intros position [|a acks] Hss; cbn;
    [by eexists..|].
  destruct (Hss s) as [v ->]; [by left|]. cbn.
  destruct (IH (position + 1) acks) as [es ->]; [intros; apply Hss; by right|]. by eexists.
Qed.

(** Preparing succeeds, and what it makes can be stored. *)
Lemma prepare_total request ack :
  SBA.validate_against_request ack request = Ok tt -> request_values request ->
  json_accepts request ack ->
  (forall e, e ∈ SBR.entries request ->
     LocalSequenceNumber.value (SRE.local_sequence_number e) <= i64_max) ->
  exists ingest, PSI.prepare request ack = Ok ingest /\ storage_accepts ingest.
Proof using json_laws message_laws.
  intros Hv Hvals [(rv & Hr & Hrj) (av & Ha & Haj) Henv] Hmax.
  destruct (prepare_entries_total (SBA.received_at_unix_milliseconds ack) 0 (SBR.entries request)
    (SBA.entries ack)) as [es Hes].
  { intros s Hs. destruct (rv_entries _ Hvals _ Hs) as (_ & _ & source & Hsource).
    apply from_json_Ok in Hsource as (_ & _ & v & _ & Ho & Hp).
    destruct (json_reads_back _ _ Hp) as (v' & Hv' & _). by exists v'. }
  assert (exists ingest, PSI.prepare request ack = Ok ingest) as [ingest Hp].
  { unfold PSI.prepare. rewrite Hv. cbn [map_err mbind Result_bind]. rewrite Hr, Ha.
    cbn [map_err mbind Result_bind]. rewrite Hes. by eexists. }
  exists ingest. split; [done|]. destruct (prepare_Ok _ _ _ Hp) as (_ & Hr' & Ha' & _ & _). split.
  - intros entry Hin. destruct (prepared_entry _ _ _ _ Hp Hin) as (s & a & Hs & _ & [_ Hseq _ _ _ _ _ _]).
    unfold sequence_of. rewrite Hseq. by apply Hmax.
  - congruence.
  - congruence.
  - intros entry Hin. destruct (prepared_entry _ _ _ _ Hp Hin) as (s & a & Hs & _ & [_ _ _ He _ _ _ _]).
    by eapply Henv.
Qed.

Lemma prepared_entry_fits request ack ingest entry :
  PSI.prepare request ack = Ok ingest -> request_values request -> storage_accepts ingest ->
  Forall SAE.wf (SBA.entries ack) -> 0 <= SBA.received_at_unix_milliseconds ack ->
  PSI.entry_count ingest <= 256 -> entry ∈ PSI.entries ingest ->
  (in_i64 (sequence_of entry) /\ 0 < sequence_of entry)
  /\ ingest_transaction_check (transaction_row ingest entry) = true
  /\ ingest_entry_check (entry_row ingest entry) = true.
Proof using json_laws message_laws uuid_text sha_laws.
  intros Hp Hv Hs Hack Hrec Hcount Hin.
  destruct (prepared_entry _ _ _ _ Hp Hin) as (s & a & Hsin & Hain
    & [Hid Hseq Hfp Henv Hout Hcat Hretry Hres]).
  destruct (rv_entries _ Hv _ Hsin) as (Hidwf & Hseqwf & source & Hsource).
  pose proof (sa_sequences _ Hs _ Hin) as Hmax.
  unfold LocalSequenceNumber.wf in Hseqwf. rewrite <- Hseq in Hseqwf. fold (sequence_of entry) in Hseqwf.
  rewrite <- Hid in Hidwf.
  pose proof (entry_position_range _ _ (prepared_numbered _ _ _ Hp) Hin) as Hpos.
  destruct (prepare_Ok _ _ _ Hp) as (_ & _ & _ & _ & Hing).
  assert (PSI.reader_id ingest = SBR.reader_id request
    /\ PSI.received_at_unix_milliseconds ingest = SBA.received_at_unix_milliseconds ack)
    as [Hreader Hreceived] by (rewrite Hing; by split).
  split; [unfold in_i64, i64_min; split; lia|].
  apply from_json_Ok in Hsource as (_ & _ & v & _ & Hobj & Hprint).
  destruct (json_reads_back _ _ Hprint) as (v' & Hv' & Hobj'). rewrite Hobj in Hobj'.
  rewrite Hv' in Henv. injection Henv as ->.
  pose proof (rv_reader _ Hv) as Hrd%identifier_passes.
  unfold uuid_check in Hrd. rewrite !andb_true_iff in Hrd. destruct Hrd as [[Hnil _] _].
  rewrite Forall_forall in Hack. specialize (Hack _ Hain). unfold SAE.wf in Hack.
  apply validate_outcome_metadata_Ok in Hack. split.
  - unfold ingest_transaction_check. rewrite !andb_true_iff.
    cbn [transaction_row IT.fare_transaction_id IT.reader_id IT.local_sequence_number
      IT.transaction_fingerprint IT.canonical_transaction_envelope_json IT.first_received_at
      IT.last_resolved_at].
    rewrite Hreader, Hreceived, Hres, Hfp. split_and!; [by apply identifier_passes|done|lia| | |lia|lia].
    + apply to_hex_fingerprint; [apply sha256_length|apply sha256_bytes].
    + apply stored_json_object; [by apply (sa_envelopes _ Hs)|done].
  - unfold ingest_entry_check. rewrite !andb_true_iff.
    cbn [entry_row IE.entry_position IE.local_sequence_number IE.failure_category IE.next_retry_at
      IE.outcome IE.resolved_at].
    rewrite Hcat, Hretry, Hout, Hres. split_and!; [lia|lia|lia| | | |lia].
    + destruct (SAE.failure_category a) as [c|]; [apply category_passes|done].
    + destruct (SAE.next_retry_at_unix_milliseconds a) as [z|]; [|done]. cbn.
      destruct (SAE.outcome a); [by destruct Hack| |by destruct Hack..].
      destruct Hack as (_ & z' & [= ->] & Hz). by apply Z.leb_le.
    + destruct (SAE.outcome a), (SAE.failure_category a), (SAE.next_retry_at_unix_milliseconds a);
        try done; naive_solver.
Qed.

Lemma head_elem {A} (l : list A) x : head l = Some x -> x ∈ l.
Proof. destruct l; [done|]. intros [= ->]. by left. Qed.

Lemma last_elem {A} (l : list A) x : last l = Some x -> x ∈ l.
Proof. rewrite last_lookup. by apply list_elem_of_lookup_2. Qed.

(** The batch row, for the sequences of its entries. *)
Lemma batch_row_fits request ack ingest :
  PSI.prepare request ack = Ok ingest -> request_values request -> storage_accepts ingest ->
  1 <= PSI.entry_count ingest <= 256 ->
  0 < LocalSequenceNumber.value (SBR.first_local_sequence_number request)
    <= LocalSequenceNumber.value (SBR.last_local_sequence_number request) ->
  0 <= SBR.submitted_at_unix_milliseconds request -> 0 <= SBA.received_at_unix_milliseconds ack ->
  ingest_batch_check (batch_row ingest) = true.
Proof using json_laws message_laws uuid_text sha_laws.
  intros Hp Hv Hs Hcount Hseq Hsub Hrec.
  destruct (prepare_Ok _ _ _ Hp) as (_ & Hrj & Haj & _ & Hing).
  pose proof (sa_request _ Hs) as Hjr. pose proof (sa_acknowledgement _ Hs) as Hja.
  unfold ingest_batch_check. rewrite Hing in Hcount |- *. rewrite !andb_true_iff.
  destruct (rv_version _ Hv) as [Hv1 Hv2]. unfold u16_max in Hv2.
  cbn -[uuid_check short_text is_fingerprint Z.leb Z.ltb PSI.entry_count].
  split_and!; try lia; try (by apply identifier_passes, Hv); try (by apply text_ok_short, Hv);
    try (apply to_hex_fingerprint; [apply sha256_length|apply sha256_bytes]);
    (apply stored_json_object; [done|]).
  - by injection Hrj as <-.
  - by injection Haj as <-.
Qed.

(** A message that the protocol accepts fits the tables: nothing but a
    sequence number beyond [BIGINT] or a value that [JSONB] refuses keeps it
    from being written. *)
Lemma prepared_storable rd request ad ack ingest :
  SBR.new rd = Ok request -> SBA.new ad = Ok ack -> PSI.prepare request ack = Ok ingest ->
  request_values request -> Forall SAE.wf (SBA.entries ack) -> storage_accepts ingest ->
  storable ingest.
Proof using json_laws message_laws uuid_text sha_laws.
  intros [Hsub Hb]%request_new_inv Hrec%acknowledgement_new_inv Hp Hv Hack Hs.
  destruct (prepared_columns _ _ _ Hp) as (Hids & Hseqs & Hcount).
  destruct Hb as [Hlen Hfirst Hlast Hunique Hinc]. rewrite length_fmap in Hlen.
  assert (sequence_of <$> PSI.entries ingest
    = values (SRE.local_sequence_number <$> SBR.entries request)) as Hvals.
  { rewrite <- Hseqs, <- list_fmap_compose. done. }
  pose proof (fun entry => prepared_entry_fits _ _ _ entry Hp Hv Hs Hack Hrec ltac:(lia)) as Hfits.
  destruct (prepare_Ok _ _ _ Hp) as (_ & Hrj & Haj & _ & Hing).
  assert (forall x, x ∈ SRE.local_sequence_number <$> SBR.entries request ->
    in_i64 (LocalSequenceNumber.value x) /\ 0 < LocalSequenceNumber.value x) as Hseq.
  { intros x Hx. rewrite <- Hseqs in Hx. apply list_elem_of_fmap in Hx as (entry & -> & Hin).
    by apply Hfits. }
  pose proof (Hseq _ (head_elem _ _ Hfirst)) as [Hf Hfpos].
  pose proof (Hseq _ (last_elem _ _ Hlast)) as [Hl _].
  assert (LocalSequenceNumber.value (SBR.first_local_sequence_number request)
    <= LocalSequenceNumber.value (SBR.last_local_sequence_number request)) as Hle.
  { apply (StronglySorted_head_last _ _ _ Hinc);
      [by rewrite head_fmap, Hfirst|by rewrite fmap_last, Hlast]. }
  split; rewrite ?Hids, ?Hvals.
  - by rewrite Hing.
  - by rewrite Hing.
  - apply Hs.
  - apply Hs.
  - eapply batch_row_fits; [done..|lia|lia|done|done].
  - intros entry Hin. destruct (Hfits _ Hin) as ([? _] & ? & ?).
    split_and!; [done|by apply (sa_envelopes _ Hs)|done..].
  - done.
  - by apply sorted_nodup.
  - by eapply prepared_numbered.
Qed.

End fit.
