(* ===== verification/ApiSynchronizationService.v ===== *)
(** * The synchronization service (apps/api/src/synchronization_service.rs)

    The backend's use case: check the context of a request, acknowledge every
    entry, store the batch atomically, and answer a replay with the
    acknowledgement that was stored first.  The time of receipt is an
    argument. *)

From stdpp Require Import sorting.
From S2P Require Import Prelude Text DomainIdentifier DomainTransaction DomainEquipment.
From S2P Require Import DeviceProtocolValues DeviceProtocolSynchronization DeviceProtocolFingerprint.
From S2P Require Import PersistenceColumns PersistenceSqlLogic PersistenceIngestRecord.
From S2P Require Import PersistenceIngestTables PersistenceIngestStore.

Module SynchronizationServiceError.

Inductive t :=
| UnsupportedProtocol
| EnvironmentMismatch
| ReaderNotRegistered
| ReaderNotOperational
| BatchIdentityConflict
| TransactionIdentityConflict
| BackendTemporarilyUnavailable
| IngestRecord
| Protocol (e : SynchronizationProtocolError.t).

#[global] Instance eq_dec : EqDecision t.
Proof. solve_decision. Defined.

Definition failure_category (self : t) : SynchronizationFailureCategory.t :=
  match self with
  | UnsupportedProtocol => SynchronizationFailureCategory.UnsupportedProtocol
  | EnvironmentMismatch => SynchronizationFailureCategory.EnvironmentMismatch
  | ReaderNotRegistered => SynchronizationFailureCategory.ReaderNotRegistered
  | ReaderNotOperational => SynchronizationFailureCategory.ReaderNotOperational
  | BatchIdentityConflict => SynchronizationFailureCategory.BatchIdentityConflict
  | TransactionIdentityConflict => SynchronizationFailureCategory.TransactionIdentityConflict
  | BackendTemporarilyUnavailable => SynchronizationFailureCategory.BackendTemporarilyUnavailable
  | IngestRecord | Protocol _ => SynchronizationFailureCategory.BackendValidationFailure
  end.

End SynchronizationServiceError.

Module SSE := SynchronizationServiceError.

Module SynchronizationService.

(** The repository is the database the actions run on. *)
Record t := new { environment_id : ProtocolEnvironmentId.t }.

Definition validate_request_context (request : SBR.t) (environment_id : ProtocolEnvironmentId.t)
  : Result SSE.t unit :=
  if decide (SBR.protocol_version request <> DeviceProtocolVersion.CURRENT) then
    Err SSE.UnsupportedProtocol
  else if decide (SBR.environment_id request <> environment_id) then Err SSE.EnvironmentMismatch
  else Ok tt.

Definition acknowledge_entry (entry : SRE.t) : Result SynchronizationProtocolError.t SAE.t :=
  SAE.new (SRE.transaction_id entry) (SRE.local_sequence_number entry)
    SynchronizationEntryOutcome.Acknowledged None None.

Definition build_acknowledgement (request : SBR.t) (received_at_unix_milliseconds : Z)
  : Result SSE.t SBA.t :=
  entries ← map_err SSE.Protocol (try_map acknowledge_entry (SBR.entries request));
  map_err SSE.Protocol
    (SBA.new (SBAD.mk (SBR.protocol_version request) (SBR.environment_id request)
       (SBR.reader_id request) (SBR.batch_id request) (SBR.first_local_sequence_number request)
       (SBR.last_local_sequence_number request) received_at_unix_milliseconds false entries)).

Definition map_ingest_error (error : SIPE.t) : SSE.t :=
  match error with
  | SIPE.ReaderNotRegistered _ => SSE.ReaderNotRegistered
  | SIPE.ReaderNotOperational _ => SSE.ReaderNotOperational
  | SIPE.BatchIdentityConflict _ => SSE.BatchIdentityConflict
  | SIPE.TransactionIdentityConflict _ => SSE.TransactionIdentityConflict
  | SIPE.Persistence _ => SSE.BackendTemporarilyUnavailable
  end.

Section process.
Context `{JsonLibrary} `{!PostgresJson} `{UuidLibrary} `{Sha256Library}.

Definition process (self : t) (request : SBR.t) (received_at_unix_milliseconds : Z)
  : Mut IngestDb SSE.t SBA.t :=
  _ ← lift (validate_request_context request (environment_id self));
  acknowledgement ← lift (build_acknowledgement request received_at_unix_milliseconds);
  prepared ← lift (map_err (fun _ => SSE.IngestRecord) (PSI.prepare request acknowledgement));
  disposition ← map_error map_ingest_error (Repository.store prepared);
  match disposition with
  | SynchronizationIngestDisposition.Stored => mret acknowledgement
  | SynchronizationIngestDisposition.Replayed =>
      stored ← map_error map_ingest_error
                 (Repository.load_acknowledgement (SBR.batch_id request));
      lift (ok_or ((fun value => SBA.with_replayed value true) <$> stored)
              SSE.BackendTemporarilyUnavailable)
  end.

End process.
End SynchronizationService.

Module Service := SynchronizationService.
