(* ===== verification/ApiServiceCorrectness.v ===== *)
(** * What the backend answers is durable

    The contract of [SynchronizationService::process]: an acknowledgement is
    only ever given for transactions that are stored, it answers the request
    entry by entry, and asking again returns the same acknowledgement. *)

From stdpp Require Import sorting.
From S2P Require Import Prelude Text DomainIdentifier DomainTransaction DomainEquipment.
From S2P Require Import DeviceProtocolValues DeviceProtocolSynchronization DeviceProtocolFingerprint.
From S2P Require Import MessageFormats.
From S2P Require Import PersistenceColumns PersistenceSqlLogic PersistenceIngestRecord.
From S2P Require Import PersistenceIngestTables PersistenceIngestStore PersistenceIngestLogic.
From S2P Require Import PersistenceIngestRefinement.
From S2P Require Import PersistenceIngestCorrectness PersistenceIngestHistory PersistenceIngestFit.
From S2P Require Import ApiSynchronizationService.

(** ** The acknowledgement of a request *)

Definition answer_entry (entry : SRE.t) : SAE.t :=
  SAE.mk (SRE.transaction_id entry) (SRE.local_sequence_number entry)
    SynchronizationEntryOutcome.Acknowledged None None.

Definition answer (request : SBR.t) (received_at : Z) : SBA.t :=
  SBA.mk (SBR.protocol_version request) (SBR.environment_id request) (SBR.reader_id request)
    (SBR.batch_id request) (SBR.first_local_sequence_number request)
    (SBR.last_local_sequence_number request) received_at false (answer_entry <$> SBR.entries request).

Lemma acknowledge_entries_Ok entries :
  try_map Service.acknowledge_entry entries = Ok (answer_entry <$> entries).
Proof. induction entries as [|e entries IH]; [done|]. cbn. by rewrite IH. Qed.

Lemma build_acknowledgement_Ok request received_at a :
  Service.build_acknowledgement request received_at = Ok a ->
  a = answer request received_at /\ exists d, SBA.new d = Ok a.
Proof.
  unfold Service.build_acknowledgement. rewrite acknowledge_entries_Ok. cbn [map_err mbind Result_bind].
  intros Hn%map_err_Ok. split; [|by eexists].
  unfold SBA.new in Hn. apply Result_bind_Ok in Hn as (? & _ & Hn).
  apply Result_bind_Ok in Hn as (? & _ & [= <-]). done.
Qed.

Lemma answer_valid request received_at :
  SBA.validate_against_request (answer request received_at) request = Ok tt.
Proof.
  apply validate_against_request_Ok. split; [by split_and!|]. cbn.
  generalize (SBR.entries request). intros es. induction es as [|e es IH]; [constructor|].
  by constructor.
Qed.

(** A request whose own values are valid gets an acknowledgement. *)
Lemma build_acknowledgement_total d request received_at :
  SBR.new d = Ok request -> 0 <= received_at ->
  Service.build_acknowledgement request received_at = Ok (answer request received_at).
Proof.
  intros [_ Hb]%request_new_inv Hr. unfold Service.build_acknowledgement.
  rewrite acknowledge_entries_Ok. cbn [map_err mbind Result_bind]. apply map_err_Ok.
  unfold SBA.new. cbn [SBAD.received_at_unix_milliseconds SBAD.first_local_sequence_number
    SBAD.last_local_sequence_number SBAD.entries].
  rewrite (proj2 (validate_timestamp_Ok _ _) Hr). cbn [mbind Result_bind].
  unfold validate_acknowledgement_entries. rewrite (proj2 (validate_entries_Ok _ _ _ _ _)).
  - done.
  - by rewrite <- !list_fmap_compose.
Qed.

Section service.
Context `{JsonLibrary} `{!PostgresJson} `{UuidLibrary} `{Sha256Library}.
Implicit Types (t : IngestTables) (ingest : PSI.t) (request : SBR.t).

(** ** Where the stored batches come from *)

(** Every batch was prepared from a request and the time of its receipt, of
    which [P] holds, and its acknowledgement, and its transactions are there. *)
Definition batch_origin (P : SBR.t -> Z -> Prop) t (b : IB.t) : Prop :=
  exists request received_at ingest, P request received_at
    /\ Service.build_acknowledgement request received_at = Ok (answer request received_at)
    /\ PSI.prepare request (answer request received_at) = Ok ingest
    /\ b = batch_row ingest
    /\ is_ok (jsonb (PSI.canonical_acknowledgement_json ingest)) = true
    /\ all_recorded t ingest.

Record service_ok (P : SBR.t -> Z -> Prop) t : Prop := {
  so_tables : ingest_ok t;
  so_origin : forall id b, ingest_batches t !! id = Some b -> batch_origin P t b
}.

Lemma all_recorded_evolved t t' ingest :
  ingest_evolved t t' -> all_recorded t ingest -> all_recorded t' ingest.
Proof.
  intros Hev Hall entry Hin. destruct (Hall _ Hin) as (r & Hr & Hs).
  destruct (ie_transactions _ _ Hev _ _ Hr) as (r' & Hr' & He). exists r'. split; [done|].
  by eapply row_evolved_same.
Qed.

Lemma batch_origin_mono (P Q : SBR.t -> Z -> Prop) t t' b :
  (forall r z, P r z -> Q r z) -> ingest_evolved t t' -> batch_origin P t b -> batch_origin Q t' b.
Proof.
  intros HPQ Hev (request & received_at & ingest & Hr & Hb & Hp & -> & Hj & Hall).
  exists request, received_at, ingest. split_and!; [by apply HPQ|done..|by eapply all_recorded_evolved].
Qed.

(** ** One request *)

(** What [process] answers and leaves, when it answers. *)
Definition answered t request received_at (t' : IngestTables) (a : SBA.t) : Prop :=
  exists ingest, PSI.prepare request (answer request received_at) = Ok ingest
    /\ Service.build_acknowledgement request received_at = Ok (answer request received_at)
    /\ ((store_effect t ingest SynchronizationIngestDisposition.Stored t'
         /\ a = answer request received_at)
        \/ (store_effect t ingest SynchronizationIngestDisposition.Replayed t'
            /\ exists b stored, ingest_batches t !! SBR.batch_id request = Some b
                 /\ acknowledgement_from_value (IB.canonical_acknowledgement_json b) = Ok stored
                 /\ a = SBA.with_replayed stored true)).

Lemma prepared_batch_id request a ingest :
  PSI.prepare request a = Ok ingest -> PSI.batch_id ingest = SBR.batch_id request.
Proof. by intros (_ & _ & _ & _ & ->)%prepare_Ok. Qed.

Lemma load_acknowledgement_inv id db db' r :
  Repository.load_acknowledgement id db = (db', r) ->
  tables db' = tables db
  /\ forall o, r = Ok o -> forall a, o = Some a ->
       exists b, ingest_batches (tables db) !! id = Some b
         /\ acknowledgement_from_value (IB.canonical_acknowledgement_json b) = Ok a.
Proof.
  unfold Repository.load_acknowledgement, mbind at 1, Mut_bind at 1, query, statement.
  destruct (next_fault (faults db)); [by intros [= <- <-]|]. cbn.
  destruct (ingest_batches (tables db) !! id) as [b|]; cbn; [|intros [= <- <-]; naive_solver].
  mut_unfold. destruct (acknowledgement_from_value _) as [a|e] eqn:Ha; cbn;
    intros [= <- <-]; (split; [done|]); intros o Ho; [|done].
  injection Ho as <-. intros a' [= <-]. by exists b.
Qed.

Lemma process_cases self t request received_at script db r :
  ingest_ok t -> Service.process self request received_at (MkDb t script) = (db, r) ->
  match r with
  | Ok a => answered t request received_at (tables db) a
  | Err _ => tables db = t \/ exists ingest d,
      PSI.prepare request (answer request received_at) = Ok ingest
      /\ Service.build_acknowledgement request received_at = Ok (answer request received_at)
      /\ store_effect t ingest d (tables db)
  end.
Proof.
  intros Hok. unfold Service.process.
  destruct (Service.validate_request_context _ _) as [[]|e];
    [rewrite quiet_lift_Ok|rewrite quiet_lift_Err; intros [= <- <-]; by left].
  destruct (Service.build_acknowledgement request received_at) as [a0|e] eqn:Hack;
    [rewrite quiet_lift_Ok|rewrite quiet_lift_Err; intros [= <- <-]; by left].
  apply build_acknowledgement_Ok in Hack as Ha. destruct Ha as [-> _].
  destruct (PSI.prepare request (answer request received_at)) as [ingest|e] eqn:Hp; cbn [map_err];
    [rewrite quiet_lift_Ok|rewrite quiet_lift_Err; intros [= <- <-]; by left].
  unfold mbind, Mut_bind, map_error.
  destruct (Repository.store ingest (MkDb t script)) as [db1 r1] eqn:Hstore.
  pose proof (store_cases _ _ _ _ _ Hok (prepared_numbered _ _ _ Hp) Hstore) as Hc.
  destruct r1 as [[]|e]; cbn [map_err].
  - intros [= <- <-]. exists ingest. split_and!; [done..|]. by left.
  - destruct (Repository.load_acknowledgement (SBR.batch_id request) db1) as [db2 r2] eqn:Hload.
    apply load_acknowledgement_inv in Hload as [Htab Hl].
    destruct r2 as [o|e]; cbn [map_err]; unfold lift; intros [= <- <-].
    + destruct o as [a|]; cbn.
      * exists ingest. split_and!; [done..|]. right. rewrite Htab. split; [done|].
        destruct (Hl _ eq_refl _ eq_refl) as (b & Hb & Hj). destruct Hc as [Hc _]. rewrite Hc in Hb.
        by exists b, a.
      * right. exists ingest, SynchronizationIngestDisposition.Replayed. by rewrite Htab.
    + right. exists ingest, SynchronizationIngestDisposition.Replayed. by rewrite Htab.
  - intros [= <- <-]. destruct Hc as [?|[d Hd]]; [by left|right]. by exists ingest, d.
Qed.

(** ** Histories *)

Inductive ServiceCall :=
| ReaderStatus (id : ReaderId) (status : ReaderEquipmentStatus.t)
| Process (request : SBR.t) (received_at : Z).

Definition service_perform (self : Service.t) (call : ServiceCall) (db : IngestDb) : IngestDb :=
  match call with
  | ReaderStatus id status => ingest_perform (SetReaderStatus id status) db
  | Process request received_at => (Service.process self request received_at db).1
  end.

Definition service_history (self : Service.t) t (calls : list (ServiceCall * list (option Fault)))
  : IngestTables :=
  foldl (fun t call => tables (service_perform self call.1 (MkDb t call.2))) t calls.

Definition call_request (call : ServiceCall * list (option Fault)) : option SBR.t :=
  match call.1 with
  | Process request _ => Some request
  | ReaderStatus _ _ => None
  end.

(** The requests that were ever submitted. *)
Definition submitted (calls : list (ServiceCall * list (option Fault))) : list SBR.t :=
  omap call_request calls.

Lemma effect_service_kept (P : SBR.t -> Z -> Prop) t ingest d t' request received_at :
  service_ok P t -> P request received_at ->
  PSI.prepare request (answer request received_at) = Ok ingest ->
  Service.build_acknowledgement request received_at = Ok (answer request received_at) ->
  store_effect t ingest d t' -> service_ok P t' /\ ingest_evolved t t'.
Proof.
  intros [Hok Horigin] HP Hp Hb Heff. destruct (effect_kept _ _ _ _ Hok Heff) as [Hok' Hev].
  split; [|done]. split; [done|]. intros id b Hid.
  destruct d; [|destruct Heff as [-> _]; by eapply Horigin].
  destruct Heff as (-> & Hnone & Hj & Hall & _).
  destruct (stored_tables_fields ingest t) as (Hbs & _). rewrite Hbs in Hid.
  apply lookup_insert_Some in Hid as [[<- <-]|[_ Hid]].
  - by exists request, received_at, ingest.
  - eapply batch_origin_mono; [done|done|by eapply Horigin].
Qed.

Lemma process_kept (P : SBR.t -> Z -> Prop) self t request received_at script db r :
  service_ok P t -> P request received_at ->
  Service.process self request received_at (MkDb t script) = (db, r) ->
  service_ok P (tables db) /\ ingest_evolved t (tables db).
Proof.
  intros [Hok Horigin] HP Hrun. pose proof (process_cases _ _ _ _ _ _ _ Hok Hrun) as Hc.
  assert (tables db = t \/ exists ingest d,
    PSI.prepare request (answer request received_at) = Ok ingest
    /\ Service.build_acknowledgement request received_at = Ok (answer request received_at)
    /\ store_effect t ingest d (tables db)) as [->|(ingest & d & Hp & Hb & Heff)].
  { destruct r as [a|e]; [|done]. right.
    destruct Hc as (ingest & Hp & Hb & [[Heff _]|[Heff _]]); by eauto. }
  - done.
  - by eapply effect_service_kept.
Qed.

Lemma service_perform_kept (P : SBR.t -> Z -> Prop) self t call script :
  service_ok P t ->
  (forall request received_at, call = Process request received_at -> P request received_at) ->
  service_ok P (tables (service_perform self call (MkDb t script)))
  /\ ingest_evolved t (tables (service_perform self call (MkDb t script))).
Proof.
  intros Hok HP. destruct call as [id status|request received_at].
  - destruct Hok as [Hok Horigin].
    destruct (set_status_kept t id status Hok) as [Hok' Hev]. split; [|done]. split; [done|].
    intros k b Hb. eapply batch_origin_mono; [done|done|by eapply Horigin].
  - cbn [service_perform]. specialize (HP request received_at eq_refl).
    destruct (Service.process self request received_at (MkDb t script)) as [db r] eqn:Hrun.
    by eapply process_kept.
Qed.

Lemma service_history_kept (P : SBR.t -> Z -> Prop) self t calls :
  service_ok P t ->
  (forall request received_at script, (Process request received_at, script) ∈ calls ->
     P request received_at) ->
  service_ok P (service_history self t calls) /\ ingest_evolved t (service_history self t calls).
Proof.
  revert t. induction calls as [|[call script] calls IH]; intros t Hok HP; [done|].
  assert (service_ok P (tables (service_perform self call (MkDb t script)))
    /\ ingest_evolved t (tables (service_perform self call (MkDb t script)))) as [Hok1 Hev1].
  { apply service_perform_kept; [done|]. intros request received_at ->. eapply HP. by left. }
  destruct (IH _ Hok1) as [Hok2 Hev2].
  { intros request received_at s Hin. eapply HP. by right. }
  split; [exact Hok2|]. etrans; [exact Hev1|exact Hev2].
Qed.

Lemma submitted_process calls request received_at script :
  (Process request received_at, script) ∈ calls -> request ∈ submitted calls.
Proof. intros Hin. apply list_elem_of_omap. by eexists. Qed.

Lemma service_history_app self t calls later :
  service_history self t (calls ++ later) = service_history self (service_history self t calls) later.
Proof. apply foldl_app. Qed.

Lemma service_history_process self t request received_at script db r later :
  Service.process self request received_at (MkDb t script) = (db, r) ->
  service_history self t ((Process request received_at, script) :: later)
  = service_history self (tables db) later.
Proof. intros Hrun. unfold service_history. cbn. by rewrite Hrun. Qed.

Lemma empty_service_ok P : service_ok P empty_ingest_tables.
Proof. split; [apply empty_ingest_ok|]. intros id b Hid. cbn in Hid. by rewrite lookup_empty in Hid. Qed.

(** ** What an answer means *)

(** The request is stored: its batch, and every transaction with its reader,
    sequence number and the fingerprint of its envelope. *)
Record request_recorded t request : Prop := {
  rr_batch : exists b, ingest_batches t !! SBR.batch_id request = Some b
    /\ IB.reader_id b = SBR.reader_id request;
  rr_entries : forall e, e ∈ SBR.entries request -> exists r,
    ingest_transactions t !! SRE.transaction_id e = Some r
    /\ IT.reader_id r = SBR.reader_id request
    /\ IT.local_sequence_number r = LocalSequenceNumber.value (SRE.local_sequence_number e)
    /\ IT.transaction_fingerprint r = SynchronizationPayloadFingerprint.to_string
         (SynchronizationPayloadFingerprint.for_transaction_envelope (SRE.transaction_envelope e))
}.

Lemma request_recorded_evolved t t' request :
  ingest_evolved t t' -> request_recorded t request -> request_recorded t' request.
Proof.
  intros Hev [(b & Hb & Hrd) He]. split.
  - exists b. split; [|done]. by eapply lookup_weaken, Hev.
  - intros e Hin. destruct (He _ Hin) as (r & Hr & Hf1 & Hf2 & Hf3).
    destruct (ie_transactions _ _ Hev _ _ Hr) as (r' & Hr' & [(_ & Hg1 & Hg2 & Hg3 & _) _]).
    exists r'. split_and!; [done|congruence..].
Qed.

Lemma all_recorded_request t ingest request a b :
  PSI.prepare request a = Ok ingest -> ingest_batches t !! SBR.batch_id request = Some b ->
  IB.reader_id b = SBR.reader_id request -> all_recorded t ingest -> request_recorded t request.
Proof.
  intros Hp Hb Hrd Hall. split; [by exists b|].
  pose proof (prepare_Ok _ _ _ Hp) as (Hv & _ & _ & He & Hing).
  apply validate_against_request_Ok in Hv as [_ Hf]. apply answers_length in Hf.
  apply prepare_entries_Ok in He as (Hlen & _ & Hat); [|done].
  intros e [i Hi]%list_elem_of_lookup.
  destruct (lookup_lt_is_Some_2 (PSI.entries ingest) i) as [entry Hentry].
  { rewrite Hlen. by eapply lookup_lt_Some. }
  destruct (Hat _ _ Hentry) as (s & x & Hs & _ & [Hid Hseq Hfp _ _ _ _ _]).
  assert (s = e) as -> by congruence.
  destruct (Hall entry) as (r & Hr & _ & Hrr & Hrs & Hrf); [by eapply list_elem_of_lookup_2|].
  exists r. rewrite <- Hid. split_and!; [done| | |by rewrite Hrf, Hfp].
  - rewrite Hrr, Hing. done.
  - rewrite Hrs. unfold sequence_of. by rewrite Hseq.
Qed.

(** Two requests that SHA-256 confuses. *)
Definition collides (r1 r2 : SBR.t) : Prop :=
  SynchronizationRequestFingerprint.feed r1 <> SynchronizationRequestFingerprint.feed r2
  /\ sha256 (SynchronizationRequestFingerprint.feed r1)
     = sha256 (SynchronizationRequestFingerprint.feed r2).

Context {message_laws : MessageLaws} {uuid_laws : UuidLaws} {sha_laws : Sha256Laws}.

Lemma fingerprint_text_inj r1 r2 :
  SynchronizationRequestFingerprint.to_string (SynchronizationRequestFingerprint.calculate r1)
  = SynchronizationRequestFingerprint.to_string (SynchronizationRequestFingerprint.calculate r2) ->
  request_wf r1 -> request_wf r2 -> ~ collides r1 r2 -> r1 = r2.
Proof using uuid_laws sha_laws.
  unfold SynchronizationRequestFingerprint.to_string, SynchronizationRequestFingerprint.calculate.
  cbn [SynchronizationRequestFingerprint.bytes]. intros Heq Hwf1 Hwf2 Hno.
  apply (f_equal (decode_bytes (E := unit) (fun _ => tt) 0)) in Heq.
  rewrite !decode_bytes_to_hex in Heq by apply sha256_bytes. injection Heq as Heq.
  destruct (decide (SynchronizationRequestFingerprint.feed r1
                    = SynchronizationRequestFingerprint.feed r2)) as [Hf|Hf]; [|by destruct Hno].
  rewrite !feed_request_code in Hf. apply app_inv_head in Hf. by apply request_code_inj.
Qed.

(** A request of the program: its fields are in the ranges of their types, and
    its environment in the form that validation gives it. *)
Definition request_valid request : Prop :=
  request_wf request /\ environment_wf (SBR.environment_id request).

(** What is read of a stored acknowledgement. *)
Lemma stored_answer r received i stored :
  environment_wf (SBR.environment_id r) -> PSI.prepare r (answer r received) = Ok i ->
  is_ok (jsonb (PSI.canonical_acknowledgement_json i)) = true ->
  acknowledgement_from_value (IB.canonical_acknowledgement_json (batch_row i)) = Ok stored ->
  stored = answer r received.
Proof using message_laws uuid_laws.
  intros Henv (_ & _ & Hv & _)%prepare_Ok Hj. cbn. unfold stored_json.
  destruct (jsonb _) as [v|] eqn:Hv'; [|done]. intros Hs. by eapply acknowledgement_reads_back.
Qed.

(** Every answer: the request is stored, and the answer is the
    acknowledgement of its first receipt. *)
Lemma answered_recorded P t request received_at t' a :
  service_ok P t -> request_valid request -> P request received_at ->
  (forall r z, P r z -> request_valid r /\ ~ collides r request) ->
  answered t request received_at t' a ->
  request_recorded t' request
  /\ exists first flag, a = SBA.with_replayed (answer request first) flag
       /\ (flag = false -> first = received_at) /\ P request first
       /\ Service.build_acknowledgement request first = Ok (answer request first)
       /\ exists b, ingest_batches t' !! SBR.batch_id request = Some b
            /\ forall stored,
                 acknowledgement_from_value (IB.canonical_acknowledgement_json b) = Ok stored ->
                 stored = answer request first.
Proof using message_laws uuid_laws sha_laws.
  intros [Hok Horigin] [Hwf Henv] HPr HP (ingest & Hp & Hb & Hcase).
  pose proof (prepared_batch_id _ _ _ Hp) as Hid. destruct Hcase as [[Heff ->]|[Heff Hcase]].
  - destruct Heff as (-> & Hnone & Hj & Hall & _). rewrite Hid in Hnone.
    assert (ingest_batches (stored_tables ingest t) !! SBR.batch_id request
      = Some (batch_row ingest)) as Hrow.
    { destruct (stored_tables_fields ingest t) as (-> & _). by rewrite Hid, lookup_insert_eq. }
    split.
    + eapply all_recorded_request; [done|done| |done].
      destruct (prepare_Ok _ _ _ Hp) as (_ & _ & _ & _ & ->). done.
    + exists received_at, false. split_and!; [done..|]. exists (batch_row ingest). split; [done|].
      intros stored Hs. by eapply stored_answer.
  - destruct Heff as [-> (b & Hbatch & Hrd & Hfp)]. rewrite Hid in Hbatch.
    destruct Hcase as (b' & stored & Hb' & Hdecode & ->). rewrite Hbatch in Hb'. injection Hb' as <-.
    destruct (Horigin _ _ Hbatch) as (r0 & first & ingest0 & HPr0 & Hb0 & Hp0 & -> & Hj & Hall).
    destruct (HP _ _ HPr0) as [[Hwf0 Henv0] Hno].
    assert (r0 = request) as ->.
    { apply fingerprint_text_inj; [|done..].
      destruct (prepare_Ok _ _ _ Hp) as (_ & _ & _ & _ & Hing).
      destruct (prepare_Ok _ _ _ Hp0) as (_ & _ & _ & _ & Hing0).
      rewrite Hing, Hing0 in Hfp. exact Hfp. }
    pose proof (stored_answer _ _ _ _ Henv Hp0 Hj Hdecode) as ->. split.
    + eapply all_recorded_request; [done|done| |done].
      destruct (prepare_Ok _ _ _ Hp0) as (_ & _ & _ & _ & ->). done.
    + exists first, true. split_and!; [done..|]. eexists. split; [done|].
      intros stored Hs. by eapply stored_answer.
Qed.

(** Everything that was ever submitted is a valid request that SHA-256 does
    not confuse with this one. *)
Definition distinguishable (calls : list (ServiceCall * list (option Fault))) request : Prop :=
  forall r, r ∈ submitted calls -> request_valid r /\ ~ collides r request.

(** The submissions up to this one. *)
Definition known (calls : list (ServiceCall * list (option Fault))) request (r : SBR.t) (_ : Z) : Prop :=
  r = request \/ r ∈ submitted calls.

Lemma known_distinct calls request r z :
  distinguishable calls request -> request_valid request -> known calls request r z ->
  request_valid r /\ ~ collides r request.
Proof. intros Hd Hv [->|Hr]; [|by apply Hd]. split; [done|]. by intros [? _]. Qed.

Lemma known_history self calls request more :
  (forall r, r ∈ submitted calls -> r ∈ submitted more) ->
  service_ok (known more request) (service_history self empty_ingest_tables calls).
Proof.
  intros Hsub. apply service_history_kept; [apply empty_service_ok|].
  intros r z script Hin. right. by eapply Hsub, submitted_process.
Qed.

Lemma after_process_evolved self calls request received_at script db r later :
  Service.process self request received_at (MkDb (service_history self empty_ingest_tables calls) script)
    = (db, r) ->
  ingest_evolved (tables db) (service_history self (tables db) later).
Proof.
  intros Hrun. apply (service_history_kept (fun _ _ => True)); [|done].
  eapply process_kept; [|done|exact Hrun]. by apply service_history_kept; [apply empty_service_ok|].
Qed.

(** C2. What the backend acknowledges is durable.  After any history of
    requests and status changes, whatever the database fails, an
    acknowledgement returned by [process] answers the request entry by entry,
    every entry as acknowledged, and the tables hold the batch and each of its
    transactions with the reader, the sequence number and the fingerprint of
    the envelope that were submitted; whatever happens afterwards they stay. *)
Theorem acknowledged_is_durable self calls request received_at script db a later :
  distinguishable calls request -> request_valid request ->
  Service.process self request received_at (MkDb (service_history self empty_ingest_tables calls) script)
    = (db, Ok a) ->
  SBA.validate_against_request a request = Ok tt
  /\ Forall (fun e => SAE.outcome e = SynchronizationEntryOutcome.Acknowledged) (SBA.entries a)
  /\ request_recorded (service_history self (tables db) later) request.
Proof using message_laws uuid_laws sha_laws.
  intros Hd Hwf Hrun. pose proof (known_history self calls request calls (fun _ H => H)) as Hok.
  pose proof (process_cases _ _ _ _ _ _ _ (so_tables _ _ Hok) Hrun) as Hans.
  destruct (answered_recorded _ _ _ _ _ _ Hok Hwf (or_introl eq_refl)
    (fun r z => known_distinct _ _ r z Hd Hwf) Hans) as (Hrec & first & flag & -> & _).
  split_and!.
  - apply (answer_valid request first).
  - cbn. apply Forall_fmap, Forall_true. done.
  - eapply request_recorded_evolved; [|exact Hrec].
    by eapply after_process_evolved.
Qed.

(** C3. Asking again is safe.  When a request was acknowledged, then whatever
    happens in between, a later acknowledgement of the same request is the
    first one with the replay marker set, whenever it was received, and the
    second submission changes no table. *)
Theorem replay_returns_original self calls request received_at script db a later received_at' script'
    db' a' :
  distinguishable (calls ++ (Process request received_at, script) :: later) request ->
  request_valid request ->
  Service.process self request received_at (MkDb (service_history self empty_ingest_tables calls) script)
    = (db, Ok a) ->
  Service.process self request received_at' (MkDb (service_history self (tables db) later) script')
    = (db', Ok a') ->
  a' = SBA.with_replayed a true /\ tables db' = service_history self (tables db) later.
Proof using message_laws uuid_laws sha_laws.
  intros Hd Hwf Hrun Hrun'. set (all := calls ++ (Process request received_at, script) :: later) in *.
  assert (service_history self (tables db) later = service_history self empty_ingest_tables all) as Hall.
  { unfold all. rewrite service_history_app. symmetry. by eapply service_history_process. }
  assert (forall r, r ∈ submitted calls -> r ∈ submitted all) as Hsub.
  { intros r Hr. unfold all, submitted. rewrite omap_app. apply elem_of_app. by left. }
  pose proof (known_history self calls request all Hsub) as Hok.
  pose proof (known_history self all request all (fun _ H => H)) as Hok2. rewrite <- Hall in Hok2.
  pose proof (process_cases _ _ _ _ _ _ _ (so_tables _ _ Hok) Hrun) as Hans.
  destruct (answered_recorded _ _ _ _ _ _ Hok Hwf (or_introl eq_refl)
    (fun r z => known_distinct _ _ r z Hd Hwf) Hans)
    as (Hrec & first & flag & -> & _ & _ & _ & b & Hb & Hdec).
  assert (ingest_evolved (tables db) (service_history self (tables db) later)) as Hev
    by (by eapply after_process_evolved).
  assert (ingest_batches (service_history self (tables db) later) !! SBR.batch_id request = Some b)
    as Hb2 by (eapply lookup_weaken; [exact Hb|apply Hev]).
  destruct (process_cases _ _ _ _ _ _ _ (so_tables _ _ Hok2) Hrun')
    as (ingest & Hp & _ & [[Heff _]|[Heff Hcase]]).
  - destruct Heff as (_ & Hnone & _). rewrite (prepared_batch_id _ _ _ Hp) in Hnone. congruence.
  - destruct Heff as [-> _]. split; [|done]. destruct Hcase as (b' & stored & Hb' & Hdec' & ->).
    assert (b' = b) as -> by congruence. by rewrite (Hdec _ Hdec').
Qed.

(** ** Progress *)

Context {json_laws : JsonLaws} {uuid_text : UuidTextLaws}.

(** C4. A valid request is acknowledged.  When nothing fails, an operational
    reader submits a request that the protocol accepts, made of validated
    values, for this environment and version, under a fresh batch identity,
    with sequence numbers within [BIGINT], JSON values that the database
    takes, and no entry that meets a stored transaction by identity or by
    sequence number except as the same transaction, then [process] answers
    with the acknowledgement of every entry and has stored the request. *)
Theorem valid_request_acknowledged self t rd request received_at :
  ingest_ok t -> SBR.new rd = Ok request -> request_values request -> 0 <= received_at ->
  Service.validate_request_context request (Service.environment_id self) = Ok tt ->
  reader_operational (SBR.reader_id request) t = Some true ->
  ingest_batches t !! SBR.batch_id request = None ->
  json_accepts request (answer request received_at) ->
  (forall e, e ∈ SBR.entries request ->
     LocalSequenceNumber.value (SRE.local_sequence_number e) <= i64_max) ->
  (forall ingest entry, PSI.prepare request (answer request received_at) = Ok ingest ->
     entry ∈ PSI.entries ingest -> ~ conflicts t ingest entry) ->
  exists t', Service.process self request received_at (MkDb t [])
      = (MkDb t' [], Ok (answer request received_at))
    /\ request_recorded t' request.
Proof using json_laws message_laws sha_laws uuid_text.
  intros Hok Hnew Hvals Hrec Hctx Hop Hfresh Hjson Hmax Hno.
  pose proof (build_acknowledgement_total _ _ _ Hnew Hrec) as Hbuild.
  destruct (proj2 (build_acknowledgement_Ok _ _ _ Hbuild)) as [ad Had].
  destruct (prepare_total _ _ (answer_valid request received_at) Hvals Hjson Hmax)
    as (ingest & Hp & Hacc).
  assert (Forall SAE.wf (SBA.entries (answer request received_at))) as Hwf
    by (cbn; apply Forall_fmap, Forall_true; done).
  pose proof (prepared_storable _ _ _ _ _ Hnew Had Hp Hvals Hwf Hacc) as Hst.
  assert (Repository.store ingest (MkDb t [])
    = (MkDb (stored_tables ingest t) [], Ok SynchronizationIngestDisposition.Stored)) as Hstore.
  { rewrite store_quiet. destruct (store_body_storable _ _ Hok Hst) as (t' & s & -> & Ht & ->).
    assert (ingest_decision t ingest = Ok SynchronizationIngestDisposition.Stored) as Hdec.
    { unfold ingest_decision. rewrite (prepared_batch_id _ _ _ Hp), Hfresh.
      destruct (prepare_Ok _ _ _ Hp) as (_ & _ & _ & _ & Hing).
      replace (PSI.reader_id ingest) with (SBR.reader_id request) by (rewrite Hing; done).
      rewrite Hop. destruct (base.filter _ _) as [|entry l] eqn:Hf; [done|].
      assert (entry ∈ base.filter (conflicts t ingest) (PSI.entries ingest)) as Hin
        by (rewrite Hf; by left).
      apply list_elem_of_filter in Hin as [Hc Hin]. by destruct (Hno _ _ Hp Hin). }
    rewrite Hdec in Ht |- *. rewrite (Ht eq_refl). unfold ingest_result. by rewrite Hdec. }
  exists (stored_tables ingest t). split.
  - unfold Service.process. rewrite Hctx, quiet_lift_Ok, Hbuild, quiet_lift_Ok, Hp. cbn [map_err].
    rewrite quiet_lift_Ok. erewrite quiet_bind_Ok; [|unfold map_error; by rewrite Hstore]. done.
  - destruct (store_quiet_effect _ _ _ _ Hok (prepared_numbered _ _ _ Hp) Hstore)
      as (_ & _ & _ & Hall & _).
    eapply all_recorded_request; [exact Hp| | |exact Hall].
    + destruct (stored_tables_fields ingest t) as (-> & _).
      by rewrite (prepared_batch_id _ _ _ Hp), lookup_insert_eq.
    + destruct (prepare_Ok _ _ _ Hp) as (_ & _ & _ & _ & ->). done.
Qed.

End service.
