(* ===== verification/BackendExample.v ===== *)
(** * A backend at work, evaluated

    A [JSONB] column that stores values as they are, and concrete submissions: the witnesses of the
    theorems about the ingest repository and the service. *)

From stdpp Require Import sorting.
From S2P Require Import Prelude Text JsonReference DomainIdentifier DomainTransaction DomainEquipment.
From S2P Require Import DeviceProtocolValues DeviceProtocolSynchronization DeviceProtocolFingerprint.
From S2P Require Import PersistenceColumns PersistenceSqlLogic PersistenceIngestRecord.
From S2P Require Import PersistenceIngestTables PersistenceIngestStore PersistenceIngestLogic.
From S2P Require Import PersistenceIngestRefinement.
From S2P Require Import PersistenceIngestCorrectness PersistenceIngestHistory PersistenceIngestFit.
From S2P Require Import PersistenceReaderQueue.
From S2P Require Import MessageFormats ApiSynchronizationService ApiServiceCorrectness.

(** ** Libraries *)

#[global] Instance wire_jsonb : PostgresJson := {| jsonb v := Ok v |}.

#[global] Instance wire_message_laws : MessageLaws.
Proof.
  split.
  - by intros v v' [= <-].
  - by intros v v' _ [= <-].
Qed.

(** ** A submission *)

Definition wire_request : SBR.t := SBR.of_definition wire_definition.
Definition wire_service : Service.t := Service.new wire_environment.

Definition wire_tables : IngestTables :=
  MkIngestTables {[ wire_reader := ReaderEquipmentStatus.Active ]} ∅ ∅ [].

Lemma wire_tables_ok : ingest_ok wire_tables.
Proof.
  split; cbn.
  - intros id b Hid. by rewrite lookup_empty in Hid.
  - intros id r Hid. by rewrite lookup_empty in Hid.
  - intros id id' r r' Hid. by rewrite lookup_empty in Hid.
  - intros e He. by apply elem_of_nil in He.
  - intros id b Hid. by rewrite lookup_empty in Hid.
Qed.

Lemma wire_request_new : SBR.new wire_definition = Ok wire_request.
Proof. vm_compute. reflexivity. Qed.

Lemma wire_request_values : request_values wire_request.
Proof.
  split.
  - vm_compute. split; discriminate.
  - apply sample_environment_wf.
  - apply sample_software_wf.
  - split_and!; vm_compute; reflexivity.
  - split_and!; vm_compute; reflexivity.
  - intros e He. cbn in He. apply elem_of_cons in He as [->|He];
      [|apply list_elem_of_singleton in He as ->];
      (split; [split_and!; vm_compute; reflexivity|]);
      (split; [vm_compute; split; discriminate|]); exists (lit "{}"); vm_compute; reflexivity.
Qed.

Lemma wire_request_wf : request_wf wire_request.
Proof.
  split; cycle 6.
  - constructor; [|constructor; [|constructor]]; (split; [vm_compute; split; discriminate|sample_text]).
  - vm_compute. split; discriminate.
  - vm_compute. split; discriminate.
  - sample_text.
  - sample_text.
  - vm_compute. split; discriminate.
  - vm_compute. split; discriminate.
  - vm_compute. split; discriminate.
Qed.

Lemma wire_request_valid : request_valid wire_request.
Proof. split; [exact wire_request_wf|exact sample_environment_wf]. Qed.

Lemma wire_json_accepts received : json_accepts wire_request (answer wire_request received).
Proof. split; [by eexists..|]. intros e v _ _. done. Qed.

(** A prepared batch, however it is given. *)
Definition wire_ingest : PSI.t :=
  match PSI.prepare wire_request (answer wire_request 3500) with
  | Ok ingest => ingest
  | Err _ => PSI.mk DeviceProtocolVersion.CURRENT wire_environment wire_reader
      (ReaderSoftwareVersion.mk []) wire_batch (sample_sequence 1) (sample_sequence 1) 0 0
      (SynchronizationRequestFingerprint.from_bytes []) JNull
      (SynchronizationPayloadFingerprint.from_bytes []) JNull []
  end.

Lemma wire_ingest_prepared : PSI.prepare wire_request (answer wire_request 3500) = Ok wire_ingest.
Proof. vm_compute. reflexivity. Qed.

Lemma wire_ingest_storable : storable wire_ingest.
Proof.
  destruct (proj2 (build_acknowledgement_Ok wire_request 3500 (answer wire_request 3500)
    ltac:(vm_compute; reflexivity))) as [ad Had].
  apply (prepared_storable wire_definition wire_request ad (answer wire_request 3500));
    [exact wire_request_new|exact Had|exact wire_ingest_prepared|exact wire_request_values|..].
  - repeat constructor.
  - split; [|done..]. intros entry [i Hi]%list_elem_of_lookup.
    destruct (prepared_entry _ _ _ _ wire_ingest_prepared (list_elem_of_lookup_2 _ _ _ Hi))
      as (s & a & Hs & _ & [_ Hseq _ _ _ _ _ _]). unfold sequence_of. rewrite Hseq.
    cbn in Hs. apply elem_of_cons in Hs as [->|Hs]; [by vm_compute|].
    apply list_elem_of_singleton in Hs as ->. by vm_compute.
Qed.

(** ** Witnesses *)

(** The batch is stored, also when the reply to the commit is lost. *)
Lemma store_refines_registry_witness :
  ingest_decision wire_tables wire_ingest = Ok SynchronizationIngestDisposition.Stored
  /\ Repository.store wire_ingest (MkDb wire_tables [])
     = (MkDb (ingest_result wire_tables wire_ingest) [],
        Ok SynchronizationIngestDisposition.Stored).
Proof.
  assert (ingest_decision wire_tables wire_ingest = Ok SynchronizationIngestDisposition.Stored)
    as Hd by (vm_compute; reflexivity).
  split; [exact Hd|]. rewrite <- Hd.
  exact (proj1 (store_refines_registry wire_tables wire_ingest
    (replicate 8 None ++ [Some (LosesReply OtherSqlError)]) wire_tables_ok wire_ingest_storable)).
Defined.

Lemma no_conflicts_wire ingest entry : ~ conflicts wire_tables ingest entry.
Proof. intros (id & r & Hr & _). cbn in Hr. by rewrite lookup_empty in Hr. Qed.

Lemma valid_request_acknowledged_witness :
  exists t', Service.process wire_service wire_request 3500 (MkDb wire_tables [])
    = (MkDb t' [], Ok (answer wire_request 3500)) /\ request_recorded t' wire_request.
Proof.
  apply (valid_request_acknowledged wire_service wire_tables wire_definition wire_request 3500).
  - exact wire_tables_ok.
  - exact wire_request_new.
  - exact wire_request_values.
  - discriminate.
  - vm_compute. reflexivity.
  - vm_compute. reflexivity.
  - vm_compute. reflexivity.
  - apply wire_json_accepts.
  - intros e He. cbn in He. apply elem_of_cons in He as [->|He];
      [|apply list_elem_of_singleton in He as ->]; vm_compute; discriminate.
  - intros ingest entry _ _. apply no_conflicts_wire.
Defined.

Definition wire_calls : list (ServiceCall * list (option Fault)) :=
  [(ReaderStatus wire_reader ReaderEquipmentStatus.Active, []);
   (Process wire_request 3400, [None; None; Some (Fails OtherSqlError)])].

Lemma wire_distinguishable calls :
  Forall (fun r => r = wire_request) (submitted calls) -> distinguishable calls wire_request.
Proof.
  intros Hall r Hr. rewrite Forall_forall in Hall. rewrite (Hall _ Hr).
  split; [exact wire_request_valid|]. by intros [Hne _].
Qed.

(** The first submission fails, the second is acknowledged. *)
Lemma acknowledged_is_durable_witness :
  exists db, Service.process wire_service wire_request 3500
      (MkDb (service_history wire_service empty_ingest_tables wire_calls) [])
      = (db, Ok (answer wire_request 3500))
    /\ request_recorded (service_history wire_service (tables db)
         [(ReaderStatus wire_reader ReaderEquipmentStatus.Disabled, [])]) wire_request.
Proof.
  set (run := Service.process wire_service wire_request 3500
    (MkDb (service_history wire_service empty_ingest_tables wire_calls) [])).
  assert (run.2 = Ok (answer wire_request 3500)) as Hok by (vm_compute; reflexivity).
  exists run.1. split; [rewrite <- Hok; apply surjective_pairing|].
  apply (acknowledged_is_durable wire_service wire_calls wire_request 3500 [] run.1
    (answer wire_request 3500)).
  - apply wire_distinguishable. repeat constructor.
  - exact wire_request_valid.
  - rewrite <- Hok. apply surjective_pairing.
Defined.

Lemma replay_returns_original_witness :
  exists db db', Service.process wire_service wire_request 3500
      (MkDb (service_history wire_service empty_ingest_tables wire_calls) [])
      = (db, Ok (answer wire_request 3500))
    /\ Service.process wire_service wire_request 9000 (MkDb (tables db) [])
       = (db', Ok (SBA.with_replayed (answer wire_request 3500) true))
    /\ tables db' = tables db.
Proof.
  set (run := Service.process wire_service wire_request 3500
    (MkDb (service_history wire_service empty_ingest_tables wire_calls) [])).
  set (again := Service.process wire_service wire_request 9000 (MkDb (tables run.1) [])).
  assert (run.2 = Ok (answer wire_request 3500)) as Hok by (vm_compute; reflexivity).
  assert (again.2 = Ok (SBA.with_replayed (answer wire_request 3500) true)) as Hok'
    by (vm_compute; reflexivity).
  assert (run = (run.1, Ok (answer wire_request 3500))) as Hrun
    by (rewrite <- Hok; apply surjective_pairing).
  assert (again = (again.1, Ok (SBA.with_replayed (answer wire_request 3500) true))) as Hagain
    by (rewrite <- Hok'; apply surjective_pairing).
  exists run.1, again.1. split; [exact Hrun|]. split; [exact Hagain|].
  apply (replay_returns_original wire_service wire_calls wire_request 3500 [] run.1
    (answer wire_request 3500) [] 9000 [] again.1
    (SBA.with_replayed (answer wire_request 3500) true)).
  - apply wire_distinguishable. repeat constructor.
  - exact wire_request_valid.
  - exact Hrun.
  - exact Hagain.
Defined.
