(* ===== verification/Telemetry.v ===== *)
(** * Operational telemetry (crates/telemetry/src/lib.rs)

    The recorder is shared by every task of a process and has no lock: each
    counter is an [AtomicU64].  A method is therefore the sequence of its
    atomic increments, which those of other tasks may interleave, and a
    snapshot is a sequence of loads.  [fetch_add] wraps. *)

From S2P Require Import Prelude.
From S2P Require Import DeviceProtocolValues DeviceProtocolSynchronization.

Definition ACKNOWLEDGED_OUTCOME_INDEX : nat := 0.
Definition RETRYABLE_FAILURE_OUTCOME_INDEX : nat := 1.
Definition PERMANENT_FAILURE_OUTCOME_INDEX : nat := 2.
Definition MANUAL_REVIEW_OUTCOME_INDEX : nat := 3.
Definition OUTCOME_COUNT : nat := 4.

Definition NETWORK_TIMEOUT_FAILURE_INDEX : nat := 0.
Definition CONNECTION_FAILURE_INDEX : nat := 1.
Definition RESPONSE_DECODE_FAILURE_INDEX : nat := 2.
Definition PAYLOAD_TOO_LARGE_FAILURE_INDEX : nat := 3.
Definition UNSUPPORTED_PROTOCOL_FAILURE_INDEX : nat := 4.
Definition READER_NOT_REGISTERED_FAILURE_INDEX : nat := 5.
Definition READER_NOT_OPERATIONAL_FAILURE_INDEX : nat := 6.
Definition ENVIRONMENT_MISMATCH_FAILURE_INDEX : nat := 7.
Definition BATCH_IDENTITY_CONFLICT_FAILURE_INDEX : nat := 8.
Definition BATCH_RANGE_MISMATCH_FAILURE_INDEX : nat := 9.
Definition ENTRY_ORDER_MISMATCH_FAILURE_INDEX : nat := 10.
Definition TRANSACTION_IDENTITY_CONFLICT_FAILURE_INDEX : nat := 11.
Definition BACKEND_TEMPORARILY_UNAVAILABLE_FAILURE_INDEX : nat := 12.
Definition BACKEND_VALIDATION_FAILURE_INDEX : nat := 13.
Definition MANUAL_REVIEW_REQUIRED_FAILURE_INDEX : nat := 14.
Definition FAILURE_COUNT : nat := 15.

Definition outcome_index (outcome : SynchronizationEntryOutcome.t) : nat :=
  match outcome with
  | SynchronizationEntryOutcome.Acknowledged => ACKNOWLEDGED_OUTCOME_INDEX
  | SynchronizationEntryOutcome.RetryableFailure => RETRYABLE_FAILURE_OUTCOME_INDEX
  | SynchronizationEntryOutcome.PermanentFailure => PERMANENT_FAILURE_OUTCOME_INDEX
  | SynchronizationEntryOutcome.ManualReview => MANUAL_REVIEW_OUTCOME_INDEX
  end.

Definition failure_index (category : SynchronizationFailureCategory.t) : nat :=
  match category with
  | SynchronizationFailureCategory.NetworkTimeout => NETWORK_TIMEOUT_FAILURE_INDEX
  | SynchronizationFailureCategory.ConnectionFailure => CONNECTION_FAILURE_INDEX
  | SynchronizationFailureCategory.ResponseDecodeFailure => RESPONSE_DECODE_FAILURE_INDEX
  | SynchronizationFailureCategory.PayloadTooLarge => PAYLOAD_TOO_LARGE_FAILURE_INDEX
  | SynchronizationFailureCategory.UnsupportedProtocol => UNSUPPORTED_PROTOCOL_FAILURE_INDEX
  | SynchronizationFailureCategory.ReaderNotRegistered => READER_NOT_REGISTERED_FAILURE_INDEX
  | SynchronizationFailureCategory.ReaderNotOperational => READER_NOT_OPERATIONAL_FAILURE_INDEX
  | SynchronizationFailureCategory.EnvironmentMismatch => ENVIRONMENT_MISMATCH_FAILURE_INDEX
  | SynchronizationFailureCategory.BatchIdentityConflict => BATCH_IDENTITY_CONFLICT_FAILURE_INDEX
  | SynchronizationFailureCategory.BatchRangeMismatch => BATCH_RANGE_MISMATCH_FAILURE_INDEX
  | SynchronizationFailureCategory.EntryOrderMismatch => ENTRY_ORDER_MISMATCH_FAILURE_INDEX
  | SynchronizationFailureCategory.TransactionIdentityConflict =>
      TRANSACTION_IDENTITY_CONFLICT_FAILURE_INDEX
  | SynchronizationFailureCategory.BackendTemporarilyUnavailable =>
      BACKEND_TEMPORARILY_UNAVAILABLE_FAILURE_INDEX
  | SynchronizationFailureCategory.BackendValidationFailure => BACKEND_VALIDATION_FAILURE_INDEX
  | SynchronizationFailureCategory.ManualReviewRequired => MANUAL_REVIEW_REQUIRED_FAILURE_INDEX
  end.

(** ** The counters *)

Module SynchronizationTelemetryInner.

Record t := mk {
  requests_total : Z;
  acknowledgements_total : Z;
  entries_total : Z;
  request_failures_total : Z;
  outcome_counts : list Z;
  failure_counts : list Z
}.

Definition default : t :=
  mk 0 0 0 0 (replicate OUTCOME_COUNT 0) (replicate FAILURE_COUNT 0).

End SynchronizationTelemetryInner.

Module Inner := SynchronizationTelemetryInner.

(** A reference to one of the atomic counters. *)
Inductive Counter :=
| RequestsTotal
| AcknowledgementsTotal
| EntriesTotal
| RequestFailuresTotal
| OutcomeCount (index : nat)
| FailureCount (index : nat).

#[global] Instance Counter_eq_dec : EqDecision Counter.
Proof. solve_decision. Defined.

Definition u64_wrap (z : Z) : Z := z `mod` 18446744073709551616.

(** [counter.fetch_add(1, Relaxed)]. *)
Definition fetch_add_one (value : Z) : Z := u64_wrap (value + 1).

Definition increment (counter : Counter) (inner : Inner.t) : Inner.t :=
  let '(Inner.mk requests acknowledgements entries failures outcome_counts failure_counts) := inner in
  match counter with
  | RequestsTotal =>
      Inner.mk (fetch_add_one requests) acknowledgements entries failures outcome_counts failure_counts
  | AcknowledgementsTotal =>
      Inner.mk requests (fetch_add_one acknowledgements) entries failures outcome_counts failure_counts
  | EntriesTotal =>
      Inner.mk requests acknowledgements (fetch_add_one entries) failures outcome_counts failure_counts
  | RequestFailuresTotal =>
      Inner.mk requests acknowledgements entries (fetch_add_one failures) outcome_counts failure_counts
  | OutcomeCount index =>
      Inner.mk requests acknowledgements entries failures
        (alter fetch_add_one index outcome_counts) failure_counts
  | FailureCount index =>
      Inner.mk requests acknowledgements entries failures outcome_counts
        (alter fetch_add_one index failure_counts)
  end.

(** ** Recording *)

Module SynchronizationTelemetry.

Definition record_request_started : list Counter := [RequestsTotal].

Definition record_entry_outcome (outcome : SynchronizationEntryOutcome.t) : list Counter :=
  [EntriesTotal; OutcomeCount (outcome_index outcome)].

Definition record_acknowledgement (acknowledgement : SynchronizationBatchAcknowledgement.t)
  : list Counter :=
  AcknowledgementsTotal ::
    (SynchronizationBatchAcknowledgement.entries acknowledgement ≫= fun entry =>
       record_entry_outcome (SynchronizationAcknowledgementEntry.outcome entry)).

Definition record_request_failure (category : SynchronizationFailureCategory.t) : list Counter :=
  [RequestFailuresTotal; FailureCount (failure_index category)].

(** The atomic steps of a method, or of several interleaved. *)
Definition record (steps : list Counter) (inner : Inner.t) : Inner.t :=
  foldl (fun inner counter => increment counter inner) inner steps.

End SynchronizationTelemetry.

(** ** Snapshots *)

Module SynchronizationOutcomeCounts.
Record t := mk {
  acknowledged : Z; retryable_failure : Z; permanent_failure : Z; manual_review : Z
}.
End SynchronizationOutcomeCounts.

Module SynchronizationFailureCounts.
Record t := mk {
  network_timeout : Z;
  connection_failure : Z;
  response_decode_failure : Z;
  payload_too_large : Z;
  unsupported_protocol : Z;
  reader_not_registered : Z;
  reader_not_operational : Z;
  environment_mismatch : Z;
  batch_identity_conflict : Z;
  batch_range_mismatch : Z;
  entry_order_mismatch : Z;
  transaction_identity_conflict : Z;
  backend_temporarily_unavailable : Z;
  backend_validation_failure : Z;
  manual_review_required : Z
}.
End SynchronizationFailureCounts.

Module SynchronizationTelemetrySnapshot.
Record t := mk {
  requests_total : Z;
  acknowledgements_total : Z;
  entries_total : Z;
  request_failures_total : Z;
  outcomes : SynchronizationOutcomeCounts.t;
  failures : SynchronizationFailureCounts.t
}.
End SynchronizationTelemetrySnapshot.

Module Snapshot := SynchronizationTelemetrySnapshot.

(** [load(counter)]; the arrays are never indexed out of range. *)
Definition load (counter : Counter) (inner : Inner.t) : Z :=
  match counter with
  | RequestsTotal => Inner.requests_total inner
  | AcknowledgementsTotal => Inner.acknowledgements_total inner
  | EntriesTotal => Inner.entries_total inner
  | RequestFailuresTotal => Inner.request_failures_total inner
  | OutcomeCount index => default 0 (Inner.outcome_counts inner !! index)
  | FailureCount index => default 0 (Inner.failure_counts inner !! index)
  end.

(** The snapshot of a function that loads counters: its loads may be apart. *)
Definition snapshot_of (load : Counter -> Z) : Snapshot.t :=
  let load_outcome index := load (OutcomeCount index) in
  let load_failure index := load (FailureCount index) in
  Snapshot.mk (load RequestsTotal) (load AcknowledgementsTotal) (load EntriesTotal)
    (load RequestFailuresTotal)
    (SynchronizationOutcomeCounts.mk
       (load_outcome ACKNOWLEDGED_OUTCOME_INDEX) (load_outcome RETRYABLE_FAILURE_OUTCOME_INDEX)
       (load_outcome PERMANENT_FAILURE_OUTCOME_INDEX) (load_outcome MANUAL_REVIEW_OUTCOME_INDEX))
    (SynchronizationFailureCounts.mk
       (load_failure NETWORK_TIMEOUT_FAILURE_INDEX)
       (load_failure CONNECTION_FAILURE_INDEX)
       (load_failure RESPONSE_DECODE_FAILURE_INDEX)
       (load_failure PAYLOAD_TOO_LARGE_FAILURE_INDEX)
       (load_failure UNSUPPORTED_PROTOCOL_FAILURE_INDEX)
       (load_failure READER_NOT_REGISTERED_FAILURE_INDEX)
       (load_failure READER_NOT_OPERATIONAL_FAILURE_INDEX)
       (load_failure ENVIRONMENT_MISMATCH_FAILURE_INDEX)
       (load_failure BATCH_IDENTITY_CONFLICT_FAILURE_INDEX)
       (load_failure BATCH_RANGE_MISMATCH_FAILURE_INDEX)
       (load_failure ENTRY_ORDER_MISMATCH_FAILURE_INDEX)
       (load_failure TRANSACTION_IDENTITY_CONFLICT_FAILURE_INDEX)
       (load_failure BACKEND_TEMPORARILY_UNAVAILABLE_FAILURE_INDEX)
       (load_failure BACKEND_VALIDATION_FAILURE_INDEX)
       (load_failure MANUAL_REVIEW_REQUIRED_FAILURE_INDEX)).

(** A snapshot while nobody records. *)
Definition snapshot (inner : Inner.t) : Snapshot.t := snapshot_of (fun c => load c inner).

(** ** What the counters say *)

(** The traces of tasks that run side by side. *)
Inductive interleaves {A} : list (list A) -> list A -> Prop :=
| interleaves_done threads : Forall (fun thread => thread = []) threads -> interleaves threads []
| interleaves_step before x thread after trace :
    interleaves (before ++ thread :: after) trace ->
    interleaves (before ++ (x :: thread) :: after) (x :: trace).

Lemma interleaves_permutation {A} (threads : list (list A)) trace :
  interleaves threads trace -> trace ≡ₚ concat threads.
Proof.
  induction 1 as [threads Hall|before x thread after trace _ IH].
  - induction Hall as [|thread threads -> _ IH]; [done|exact IH].
  - rewrite IH, !concat_app. cbn. by rewrite Permutation_middle.
Qed.

(** What a task reports. *)
Inductive TelemetryEvent :=
| RequestStarted
| EntryOutcome (outcome : SynchronizationEntryOutcome.t)
| Acknowledgement (acknowledgement : SynchronizationBatchAcknowledgement.t)
| RequestFailure (category : SynchronizationFailureCategory.t).

Definition steps_of (event : TelemetryEvent) : list Counter :=
  match event with
  | RequestStarted => SynchronizationTelemetry.record_request_started
  | EntryOutcome outcome => SynchronizationTelemetry.record_entry_outcome outcome
  | Acknowledgement a => SynchronizationTelemetry.record_acknowledgement a
  | RequestFailure category => SynchronizationTelemetry.record_request_failure category
  end.

Definition reported_outcomes (event : TelemetryEvent) : list SynchronizationEntryOutcome.t :=
  match event with
  | EntryOutcome outcome => [outcome]
  | Acknowledgement a =>
      SynchronizationAcknowledgementEntry.outcome <$> SynchronizationBatchAcknowledgement.entries a
  | _ => []
  end.

(** What a counter should have counted of an event. *)
Definition counted (counter : Counter) (event : TelemetryEvent) : nat :=
  match counter, event with
  | RequestsTotal, RequestStarted => 1
  | AcknowledgementsTotal, Acknowledgement _ => 1
  | EntriesTotal, _ => length (reported_outcomes event)
  | RequestFailuresTotal, RequestFailure _ => 1
  | OutcomeCount index, _ =>
      length (base.filter (fun outcome => outcome_index outcome = index) (reported_outcomes event))
  | FailureCount index, RequestFailure category => if decide (failure_index category = index) then 1 else 0
  | _, _ => 0
  end%nat.

Definition tally (events : list TelemetryEvent) (counter : Counter) : Z :=
  Z.of_nat (sum_list (counted counter <$> events)).

(** The counters of the arrays. *)
Definition counter_exists (counter : Counter) : Prop :=
  match counter with
  | OutcomeCount index => (index < OUTCOME_COUNT)%nat
  | FailureCount index => (index < FAILURE_COUNT)%nat
  | _ => True
  end.

Definition occurrences (counter : Counter) (steps : list Counter) : nat :=
  length (base.filter (eq counter) steps).

Record inner_ok (inner : Inner.t) : Prop := {
  io_outcomes : length (Inner.outcome_counts inner) = OUTCOME_COUNT;
  io_failures : length (Inner.failure_counts inner) = FAILURE_COUNT
}.

Lemma increment_ok counter inner : inner_ok inner -> inner_ok (increment counter inner).
Proof. intros [Ho Hf]. destruct inner, counter; split; cbn in *; by rewrite ?length_alter. Qed.

Lemma load_increment counter counter' inner :
  inner_ok inner -> counter_exists counter ->
  load counter (increment counter' inner)
  = if decide (counter = counter') then u64_wrap (load counter inner + 1) else load counter inner.
Proof.
  intros [Ho Hf] Hc. destruct inner as [rq ak en fl os fs], counter, counter'; cbn in *;
    try (by case_decide); try done.
  - case_decide as Heq; [injection Heq as <-|]; [|by rewrite list_lookup_alter_ne by congruence].
    rewrite list_lookup_alter_eq. destruct (lookup_lt_is_Some_2 os index) as [v ->]; [by rewrite Ho|done].
  - case_decide as Heq; [injection Heq as <-|]; [|by rewrite list_lookup_alter_ne by congruence].
    rewrite list_lookup_alter_eq. destruct (lookup_lt_is_Some_2 fs index) as [v ->]; [by rewrite Hf|done].
Qed.

Lemma load_record steps counter inner :
  inner_ok inner -> counter_exists counter -> load counter inner = u64_wrap (load counter inner) ->
  load counter (SynchronizationTelemetry.record steps inner)
  = u64_wrap (load counter inner + Z.of_nat (occurrences counter steps)).
Proof.
  intros Hok Hc. revert inner Hok. unfold SynchronizationTelemetry.record, occurrences.
  induction steps as [|c steps IH]; intros inner Hok Hw; [cbn; by rewrite Z.add_0_r|].
  cbn [foldl]. rewrite IH; [|by apply increment_ok|]; rewrite load_increment by done.
  - rewrite filter_cons. case_decide; [|done]. unfold u64_wrap. rewrite Zplus_mod_idemp_l.
    f_equal. cbn [length]. lia.
  - case_decide; [|done]. unfold u64_wrap. by rewrite Z.mod_mod by lia.
Qed.

Lemma default_ok : inner_ok Inner.default.
Proof. by split. Qed.

Lemma load_default counter : load counter Inner.default = 0.
Proof.
  destruct counter as [| | | |i|i]; try done; cbn.
  - by do 4 (destruct i as [|i]; [done|]).
  - by do 15 (destruct i as [|i]; [done|]).
Qed.

Lemma occurrences_app counter steps steps' :
  occurrences counter (steps ++ steps') = (occurrences counter steps + occurrences counter steps')%nat.
Proof. unfold occurrences. by rewrite filter_app, length_app. Qed.

Lemma occurrences_cons counter step steps :
  occurrences counter (step :: steps)
  = ((if decide (counter = step) then 1 else 0) + occurrences counter steps)%nat.
Proof. unfold occurrences. rewrite filter_cons. by case_decide. Qed.

Lemma occurrences_outcomes counter (outcomes : list SynchronizationEntryOutcome.t) :
  occurrences counter (outcomes ≫= SynchronizationTelemetry.record_entry_outcome)
  = match counter with
    | EntriesTotal => length outcomes
    | OutcomeCount index =>
        length (base.filter (fun outcome => outcome_index outcome = index) outcomes)
    | _ => 0
    end%nat.
Proof.
  induction outcomes as [|outcome outcomes IH]; [by destruct counter|].
  rewrite bind_cons, occurrences_app, IH. unfold SynchronizationTelemetry.record_entry_outcome.
  rewrite !occurrences_cons. change (occurrences counter []) with 0%nat. destruct counter; try done.
  rewrite filter_cons. repeat case_decide; cbn [length Nat.add]; congruence.
Qed.

(** A report increments what it should count. *)
Lemma occurrences_event counter event : occurrences counter (steps_of event) = counted counter event.
Proof.
  assert (forall category index,
    occurrences (FailureCount index) (SynchronizationTelemetry.record_request_failure category)
    = if decide (failure_index category = index) then 1%nat else 0%nat) as Hfail.
  { intros. unfold SynchronizationTelemetry.record_request_failure. rewrite !occurrences_cons.
    change (occurrences _ []) with 0%nat. repeat case_decide; try done; congruence. }
  destruct event as [|outcome|a|category]; cbn [steps_of].
  - by destruct counter.
  - pose proof (occurrences_outcomes counter [outcome]) as Ho.
    rewrite bind_cons in Ho. change ([] ≫= _) with (@nil Counter) in Ho. rewrite app_nil_r in Ho.
    rewrite Ho. by destruct counter.
  - unfold SynchronizationTelemetry.record_acknowledgement. rewrite occurrences_cons.
    replace (SynchronizationBatchAcknowledgement.entries a ≫= _) with
      (reported_outcomes (Acknowledgement a) ≫= SynchronizationTelemetry.record_entry_outcome)
      by (cbn; by rewrite list_fmap_bind).
    rewrite occurrences_outcomes. by destruct counter.
  - destruct counter; [done..|apply Hfail].
Qed.

Lemma occurrences_events counter events :
  occurrences counter (events ≫= steps_of) = sum_list (counted counter <$> events).
Proof.
  induction events as [|event events IH]; [done|].
  by rewrite bind_cons, occurrences_app, occurrences_event, IH.
Qed.

Lemma concat_steps (tasks : list (list TelemetryEvent)) :
  concat ((fun events => events ≫= steps_of) <$> tasks) = concat tasks ≫= steps_of.
Proof. induction tasks as [|events tasks IH]; [done|]. cbn. by rewrite IH, bind_app. Qed.

(** The counters after reports, one after the other. *)
Lemma load_reports events counter :
  counter_exists counter ->
  load counter (SynchronizationTelemetry.record (events ≫= steps_of) Inner.default)
  = u64_wrap (tally events counter).
Proof.
  intros Hc. rewrite load_record; [|apply default_ok|done|by rewrite load_default].
  rewrite load_default. unfold tally. by rewrite occurrences_events.
Qed.

(** The counters after any interleaving. *)
Lemma load_interleaved tasks trace counter :
  interleaves ((fun events => events ≫= steps_of) <$> tasks) trace -> counter_exists counter ->
  load counter (SynchronizationTelemetry.record trace Inner.default)
  = u64_wrap (tally (concat tasks) counter).
Proof.
  intros Hi Hc. rewrite load_record; [|apply default_ok|done|by rewrite load_default].
  rewrite load_default. unfold tally, occurrences.
  rewrite (Permutation_length (filter_Permutation _ _ _ (interleaves_permutation _ _ Hi))).
  rewrite concat_steps. fold (occurrences counter (concat tasks ≫= steps_of)).
  by rewrite occurrences_events.
Qed.

Lemma snapshot_of_ext f g :
  (forall counter, counter_exists counter -> f counter = g counter) -> snapshot_of f = snapshot_of g.
Proof.
  intros Hfg. unfold snapshot_of.
  by rewrite !Hfg by (vm_compute; repeat constructor).
Qed.

Definition sum_Z : list Z -> Z := foldr Z.add 0.

Definition sum_outcomes (counts : SynchronizationOutcomeCounts.t) : Z :=
  let '(SynchronizationOutcomeCounts.mk a r p m) := counts in sum_Z [a; r; p; m].

Definition sum_failures (counts : SynchronizationFailureCounts.t) : Z :=
  let '(SynchronizationFailureCounts.mk a b c d e f g h i j k l m n o) := counts in
  sum_Z [a; b; c; d; e; f; g; h; i; j; k; l; m; n; o].

Lemma wrap_sum (l : list Z) : u64_wrap (sum_Z (u64_wrap <$> l)) = u64_wrap (sum_Z l).
Proof.
  induction l as [|x l IH]; [done|].
  change (u64_wrap (u64_wrap x + sum_Z (u64_wrap <$> l)) = u64_wrap (x + sum_Z l)).
  unfold u64_wrap in *. by rewrite Zplus_mod_idemp_l, <- Zplus_mod_idemp_r, IH, Zplus_mod_idemp_r.
Qed.

Lemma of_nat_sum {A} (f : A -> nat) (l : list A) :
  Z.of_nat (sum_list (f <$> l)) = sum_Z ((fun x => Z.of_nat (f x)) <$> l).
Proof. induction l as [|x l IH]; [done|]. cbn in *. rewrite <- IH. lia. Qed.

(** Every outcome and every category has a counter of its own. *)
Lemma outcomes_partition (outcomes : list SynchronizationEntryOutcome.t) :
  length outcomes = sum_list ((fun index =>
    length (base.filter (fun outcome => outcome_index outcome = index) outcomes)) <$> seq 0 OUTCOME_COUNT).
Proof.
  induction outcomes as [|outcome outcomes IH]; [done|]. cbn [length]. rewrite IH.
  cbn [seq OUTCOME_COUNT fmap list_fmap sum_list]. rewrite !filter_cons.
  destruct outcome; cbn; unfold ACKNOWLEDGED_OUTCOME_INDEX, RETRYABLE_FAILURE_OUTCOME_INDEX,
    PERMANENT_FAILURE_OUTCOME_INDEX, MANUAL_REVIEW_OUTCOME_INDEX; repeat case_decide; try done;
    cbn [length]; lia.
Qed.

Lemma categories_partition category :
  sum_list ((fun index => if decide (failure_index category = index) then 1%nat else 0%nat)
              <$> seq 0 FAILURE_COUNT) = 1%nat.
Proof. by destruct category. Qed.

Lemma sum_list_swap {A B} (f : A -> B -> nat) (xs : list A) (ys : list B) :
  sum_list ((fun x => sum_list (f x <$> ys)) <$> xs)
  = sum_list ((fun y => sum_list ((fun x => f x y) <$> xs)) <$> ys).
Proof.
  induction xs as [|x xs IH]; cbn.
  - induction ys as [|y ys IHy]; [done|]. by cbn.
  - rewrite IH. clear IH. induction ys as [|y ys IHy]; [done|]. cbn in *. lia.
Qed.

Lemma tally_entries events :
  tally events EntriesTotal
  = Z.of_nat (sum_list ((fun index => sum_list (counted (OutcomeCount index) <$> events))
                          <$> seq 0 OUTCOME_COUNT)).
Proof.
  unfold tally. f_equal. rewrite sum_list_swap. f_equal. apply list_fmap_ext.
  intros i event _. cbn [counted]. apply outcomes_partition.
Qed.

Lemma tally_failures events :
  tally events RequestFailuresTotal
  = Z.of_nat (sum_list ((fun index => sum_list (counted (FailureCount index) <$> events))
                          <$> seq 0 FAILURE_COUNT)).
Proof.
  unfold tally. f_equal. rewrite sum_list_swap. f_equal. apply list_fmap_ext.
  intros i event _. destruct event as [| | |category]; try done. cbn [counted].
  by rewrite categories_partition.
Qed.

Lemma snapshot_reports events :
  snapshot (SynchronizationTelemetry.record (events ≫= steps_of) Inner.default)
  = snapshot_of (fun counter => u64_wrap (tally events counter)).
Proof. apply snapshot_of_ext. intros counter Hc. by apply load_reports. Qed.

(** ** What a snapshot should show, by name

    Read off the reports alone: no counter and no index occurs in it. *)

Definition reported_failures (event : TelemetryEvent) : list SynchronizationFailureCategory.t :=
  match event with
  | RequestFailure category => [category]
  | _ => []
  end.

Definition is_request (event : TelemetryEvent) : bool :=
  match event with RequestStarted => true | _ => false end.

Definition is_acknowledgement (event : TelemetryEvent) : bool :=
  match event with Acknowledgement _ => true | _ => false end.

(** A number of reports as a 64-bit counter shows it. *)
Definition shown (n : nat) : Z := Z.of_nat n `mod` 2 ^ 64.

Definition times {A} `{EqDecision A} (x : A) (l : list A) : nat := length (base.filter (eq x) l).

Definition reported_snapshot (events : list TelemetryEvent) : Snapshot.t :=
  let outcomes := events ≫= reported_outcomes in
  let failures := events ≫= reported_failures in
  let outcome o := shown (times o outcomes) in
  let failure c := shown (times c failures) in
  {| Snapshot.requests_total := shown (length (base.filter is_request events));
     Snapshot.acknowledgements_total := shown (length (base.filter is_acknowledgement events));
     Snapshot.entries_total := shown (length outcomes);
     Snapshot.request_failures_total := shown (length failures);
     Snapshot.outcomes :=
       {| SynchronizationOutcomeCounts.acknowledged :=
            outcome SynchronizationEntryOutcome.Acknowledged;
          SynchronizationOutcomeCounts.retryable_failure :=
            outcome SynchronizationEntryOutcome.RetryableFailure;
          SynchronizationOutcomeCounts.permanent_failure :=
            outcome SynchronizationEntryOutcome.PermanentFailure;
          SynchronizationOutcomeCounts.manual_review :=
            outcome SynchronizationEntryOutcome.ManualReview |};
     Snapshot.failures :=
       {| SynchronizationFailureCounts.network_timeout :=
            failure SynchronizationFailureCategory.NetworkTimeout;
          SynchronizationFailureCounts.connection_failure :=
            failure SynchronizationFailureCategory.ConnectionFailure;
          SynchronizationFailureCounts.response_decode_failure :=
            failure SynchronizationFailureCategory.ResponseDecodeFailure;
          SynchronizationFailureCounts.payload_too_large :=
            failure SynchronizationFailureCategory.PayloadTooLarge;
          SynchronizationFailureCounts.unsupported_protocol :=
            failure SynchronizationFailureCategory.UnsupportedProtocol;
          SynchronizationFailureCounts.reader_not_registered :=
            failure SynchronizationFailureCategory.ReaderNotRegistered;
          SynchronizationFailureCounts.reader_not_operational :=
            failure SynchronizationFailureCategory.ReaderNotOperational;
          SynchronizationFailureCounts.environment_mismatch :=
            failure SynchronizationFailureCategory.EnvironmentMismatch;
          SynchronizationFailureCounts.batch_identity_conflict :=
            failure SynchronizationFailureCategory.BatchIdentityConflict;
          SynchronizationFailureCounts.batch_range_mismatch :=
            failure SynchronizationFailureCategory.BatchRangeMismatch;
          SynchronizationFailureCounts.entry_order_mismatch :=
            failure SynchronizationFailureCategory.EntryOrderMismatch;
          SynchronizationFailureCounts.transaction_identity_conflict :=
            failure SynchronizationFailureCategory.TransactionIdentityConflict;
          SynchronizationFailureCounts.backend_temporarily_unavailable :=
            failure SynchronizationFailureCategory.BackendTemporarilyUnavailable;
          SynchronizationFailureCounts.backend_validation_failure :=
            failure SynchronizationFailureCategory.BackendValidationFailure;
          SynchronizationFailureCounts.manual_review_required :=
            failure SynchronizationFailureCategory.ManualReviewRequired |} |}.

#[global] Instance outcome_index_inj : Inj (=) (=) outcome_index.
Proof. by intros [] []. Qed.

#[global] Instance failure_index_inj : Inj (=) (=) failure_index.
Proof. by intros [] []. Qed.

Lemma shown_tally events counter n :
  sum_list (counted counter <$> events) = n -> u64_wrap (tally events counter) = shown n.
Proof. unfold tally, shown. by intros ->. Qed.

Lemma counted_filter counter (f : TelemetryEvent -> bool) events :
  (forall event, counted counter event = if f event then 1%nat else 0%nat) ->
  sum_list (counted counter <$> events) = length (base.filter f events).
Proof.
  intros Hf. induction events as [|event events IH]; [done|]. cbn [fmap list_fmap sum_list].
  rewrite filter_cons, Hf, IH. by destruct (f event).
Qed.

Lemma counted_entries events :
  sum_list (counted EntriesTotal <$> events) = length (events ≫= reported_outcomes).
Proof.
  induction events as [|event events IH]; [done|].
  by rewrite bind_cons, length_app, <- IH.
Qed.

Lemma counted_failures events :
  sum_list (counted RequestFailuresTotal <$> events) = length (events ≫= reported_failures).
Proof.
  induction events as [|event events IH]; [done|].
  rewrite bind_cons, length_app, <- IH. by destruct event.
Qed.

Lemma filter_index {A} `{EqDecision A} (f : A -> nat) `{!Inj (=) (=) f} (x : A) (l : list A) :
  length (base.filter (fun y => f y = f x) l) = times x l.
Proof.
  unfold times. f_equal. apply list_filter_iff. intros y.
  split; [by intros ->%(inj f)|by intros ->].
Qed.

Lemma counted_outcome events outcome :
  sum_list (counted (OutcomeCount (outcome_index outcome)) <$> events)
  = times outcome (events ≫= reported_outcomes).
Proof.
  rewrite <- (filter_index outcome_index). induction events as [|event events IH]; [done|].
  by rewrite bind_cons, filter_app, length_app, <- IH.
Qed.

Lemma counted_failure events category :
  sum_list (counted (FailureCount (failure_index category)) <$> events)
  = times category (events ≫= reported_failures).
Proof.
  rewrite <- (filter_index failure_index). induction events as [|event events IH]; [done|].
  rewrite bind_cons, filter_app, length_app, <- IH. destruct event as [| | |c]; [done..|].
  cbn [fmap list_fmap sum_list counted reported_failures]. rewrite filter_cons.
  by case_decide.
Qed.

(** The counters the code loads are those of the fields' names. *)
Lemma snapshot_of_reports events :
  snapshot_of (fun counter => u64_wrap (tally events counter)) = reported_snapshot events.
Proof.
  pose proof (fun o => shown_tally events _ _ (counted_outcome events o)) as Ho.
  pose proof (fun c => shown_tally events _ _ (counted_failure events c)) as Hf.
  unfold snapshot_of, reported_snapshot. repeat f_equal;
    try match goal with |- _ = shown (times ?x _) => first [exact (Ho x) | exact (Hf x)] end.
  - apply shown_tally, counted_filter. by intros [].
  - apply shown_tally, counted_filter. by intros [].
  - apply shown_tally, counted_entries.
  - apply shown_tally, counted_failures.
Qed.

(** C31. No report is lost or counted twice.  Tasks that share a recorder report
    requests, acknowledgements, entry outcomes and failures, and their atomic
    increments interleave in any way: when they are done, every field of a
    snapshot, each outcome and each failure category under its own name, shows
    how often just that was reported by all tasks together (modulo 2^64, where
    the counters wrap), an acknowledgement counting the outcome of each of its
    entries; and the totals are the sums of their breakdowns. *)
Theorem telemetry_counts_every_report tasks trace :
  interleaves ((fun events => events ≫= steps_of) <$> tasks) trace ->
  let final := snapshot (SynchronizationTelemetry.record trace Inner.default) in
  final = reported_snapshot (concat tasks)
  /\ Snapshot.entries_total final = u64_wrap (sum_outcomes (Snapshot.outcomes final))
  /\ Snapshot.request_failures_total final = u64_wrap (sum_failures (Snapshot.failures final)).
Proof.
  intros Hi final.
  assert (final = snapshot_of (fun counter => u64_wrap (tally (concat tasks) counter))) as ->.
  { apply snapshot_of_ext. intros counter Hc. by apply load_interleaved. }
  split; [apply snapshot_of_reports|]. cbn [snapshot_of Snapshot.entries_total Snapshot.outcomes
    Snapshot.request_failures_total Snapshot.failures sum_outcomes sum_failures].
  rewrite tally_entries, tally_failures, !of_nat_sum.
  split; by rewrite <- wrap_sum.
Qed.

(** Two tasks, a request and an entry; the trace of one of their runs. *)
Definition sample_reports : list (list TelemetryEvent) :=
  [[RequestStarted; RequestFailure SynchronizationFailureCategory.NetworkTimeout];
   [EntryOutcome SynchronizationEntryOutcome.ManualReview]].

Lemma telemetry_counts_every_report_witness :
  exists trace, interleaves ((fun events => events ≫= steps_of) <$> sample_reports) trace
    /\ Snapshot.entries_total (snapshot (SynchronizationTelemetry.record trace Inner.default)) = 1.
Proof.
  exists [RequestsTotal; EntriesTotal; RequestFailuresTotal; OutcomeCount 3; FailureCount 0].
  assert (interleaves ((fun events => events ≫= steps_of) <$> sample_reports)
    [RequestsTotal; EntriesTotal; RequestFailuresTotal; OutcomeCount 3; FailureCount 0]) as Hi.
  { cbn. apply (interleaves_step []). apply (interleaves_step [_] _ _ []). apply (interleaves_step []).
    apply (interleaves_step [_] _ _ []). apply (interleaves_step []). by repeat constructor. }
  split; [exact Hi|]. destruct (telemetry_counts_every_report _ _ Hi) as [-> _].
  vm_compute. reflexivity.
Defined.

(** A snapshot while others record need not be consistent: here the entry is
    counted and its outcome is not. *)
Example snapshot_between_increments :
  exists before after,
    interleaves [steps_of (EntryOutcome SynchronizationEntryOutcome.Acknowledged)] (before ++ after)
    /\ let seen := snapshot (SynchronizationTelemetry.record before Inner.default) in
       Snapshot.entries_total seen = 1 /\ sum_outcomes (Snapshot.outcomes seen) = 0.
Proof.
  exists [EntriesTotal], [OutcomeCount 0]. split; [|by vm_compute].
  cbn. do 2 apply (interleaves_step [] _ _ []). by repeat constructor.
Qed.
