(* ===== verification/HttpMessages.v ===== *)
(** * HTTP between reader and backend

    What apps/api/src/lib.rs and
    apps/reader-simulator/src/synchronization_transport.rs share: status
    codes, headers and the JSON bodies.  The crates [http], [axum], [reqwest]
    and [serde_json] are classes, with what the code relies on as laws: a
    header that was set is read back, bytes that were written from a JSON value
    are read as that value, and [axum]'s [Json] extractor yields what the body
    decodes to.  That a message decodes to itself follows from its format. *)

From S2P Require Import Prelude Text.
From S2P Require Import DomainIdentifier DeviceProtocolValues DeviceProtocolSynchronization.
From S2P Require Import MessageFormats Telemetry.

Definition SYNCHRONIZATION_BATCH_ENDPOINT : Str := lit "/v1/reader-synchronization/batches".
Definition IDEMPOTENCY_KEY_HEADER : Str := lit "Idempotency-Key".
Definition PROTOCOL_VERSION_HEADER : Str := lit "X-TransitGuard-Protocol-Version".
Definition MAX_SYNCHRONIZATION_REQUEST_BYTES : Z := 1024 * 1024.
Definition MAX_SYNCHRONIZATION_ACKNOWLEDGEMENT_BYTES : Z := 1024 * 1024.

(** [http::header]. *)
Definition ACCEPT : Str := lit "accept".
Definition CONTENT_TYPE : Str := lit "content-type".

(** The codes of [http::StatusCode] that the code names. *)
Module StatusCode.

Definition OK : Z := 200.
Definition BAD_REQUEST : Z := 400.
Definition REQUEST_TIMEOUT : Z := 408.
Definition CONFLICT : Z := 409.
Definition PAYLOAD_TOO_LARGE : Z := 413.
Definition UNSUPPORTED_MEDIA_TYPE : Z := 415.
Definition UNPROCESSABLE_ENTITY : Z := 422.
Definition TOO_MANY_REQUESTS : Z := 429.
Definition INTERNAL_SERVER_ERROR : Z := 500.
Definition BAD_GATEWAY : Z := 502.
Definition SERVICE_UNAVAILABLE : Z := 503.
Definition GATEWAY_TIMEOUT : Z := 504.

Definition is_server_error (status : Z) : bool := (500 <=? status) && (status <? 600).

End StatusCode.

(** ASCII, without control characters: what [HeaderValue::to_str] reads. *)
Definition is_visible_ascii (c : Char) : bool := (32 <=? c) && (c <? 127).

Definition ascii_lower (c : Char) : Char := if (65 <=? c) && (c <=? 90) then c + 32 else c.

(** [str::eq_ignore_ascii_case]. *)
Definition eq_ignore_ascii_case (a b : Str) : bool :=
  bool_decide (ascii_lower <$> a = ascii_lower <$> b).

(** [HeaderMap]; [header_map_of] is a map that [RequestBuilder::header] or a
    response filled. *)
Class HttpLibrary := {
  HeaderMap : Type;
  HeaderValue : Type;
  header_map_of : list (Str * Str) -> HeaderMap;
  header_get : HeaderMap -> Str -> option HeaderValue;
  header_to_str : HeaderValue -> option Str
}.

(** Names are compared without their case. *)
Definition header_names (l : list (Str * Str)) : list Str := (fun h => map ascii_lower h.1) <$> l.

Definition header_text `{HttpLibrary} (headers : HeaderMap) (name : Str) : option Str :=
  match header_get headers name with
  | Some value => header_to_str value
  | None => None
  end.

Class HttpLaws `{HttpLibrary} : Prop := {
  header_text_of l name text :
    NoDup (header_names l) -> (name, text) ∈ l -> forallb is_visible_ascii text = true ->
    header_text (header_map_of l) name = Some text
}.

(** [serde_json] on bytes, and [axum]'s extractor of a request under a body
    limit, which gives the status of the rejection when there is one. *)
Class WireJson `{HttpLibrary} := {
  wire_Error : Type;
  wire_data_error : wire_Error;
  json_to_vec : Json -> Result wire_Error (list Z);
  json_from_slice : list Z -> Result wire_Error Json;
  wire_error_text : wire_Error -> list Z;
  json_extractor : Z -> HeaderMap -> list Z -> Result Z SBR.t
}.

(** [serde_json::to_vec] and [from_slice] of a type. *)
Definition to_vec `{WireJson} `{Serde A} (a : A) : Result wire_Error (list Z) :=
  json_to_vec (serialize a).
Definition from_slice `{WireJson} `{Serde A} (body : list Z) : Result wire_Error A :=
  v ← json_from_slice body; ok_or (deserialize v) wire_data_error.

(** What was written is read back, and the extractor decodes the body as
    [from_slice] does. *)
Class WireLaws `{WireJson} `{UuidLibrary} `{JsonLibrary} : Prop := {
  json_vec_reads_back v body :
    json_plain v -> json_to_vec v = Ok body -> json_from_slice body = Ok v;
  extractor_decodes limit headers body request :
    json_extractor limit headers body = Ok request -> from_slice body = Ok request;
  extractor_accepts limit headers body request :
    header_text headers CONTENT_TYPE = Some (lit "application/json") ->
    Z.of_nat (length body) <= limit -> from_slice body = Ok request ->
    json_extractor limit headers body = Ok request
}.

Section decoding.
Context `{HttpLibrary} `{!WireJson} `{UuidLibrary} `{JsonLibrary}.
Context {uuid_laws : UuidLaws} {wire_laws : WireLaws}.

Lemma from_slice_to_vec `{Serde A} (a : A) body :
  json_plain (serialize a) -> to_vec a = Ok body ->
  from_slice body = ok_or (deserialize (A := A) (serialize a)) wire_data_error.
Proof using wire_laws.
  intros Hp Hv. unfold from_slice. by rewrite (json_vec_reads_back _ _ Hp Hv).
Qed.

(** What is received is valid, and is what was sent. *)
Lemma request_received body request :
  from_slice body = Ok request -> request_typed envelope_built request.
Proof using uuid_laws.
  unfold from_slice. intros (v & _ & Hd%ok_or_Ok)%Result_bind_Ok.
  by apply (deserialize_received v).
Qed.

Lemma request_sent_exact request body request' :
  request_texts request -> to_vec request = Ok body -> from_slice body = Ok request' ->
  request' = request.
Proof using uuid_laws wire_laws.
  intros Ht Hv. rewrite (from_slice_to_vec _ _ (request_plain request) Hv).
  intros Hd%ok_or_Ok. by apply deserialize_exact.
Qed.

Lemma request_decodes request body :
  request_typed envelope_stable request -> to_vec request = Ok body -> from_slice body = Ok request.
Proof using uuid_laws wire_laws.
  intros Ht Hv. rewrite (from_slice_to_vec _ _ (request_plain request) Hv).
  by rewrite deserialize_serialize.
Qed.

Lemma acknowledgement_decodes (a : SBA.t) body :
  acknowledgement_typed a -> to_vec a = Ok body -> from_slice body = Ok a.
Proof using uuid_laws wire_laws.
  intros Ht Hv. rewrite (from_slice_to_vec _ _ (acknowledgement_plain a) Hv).
  by rewrite deserialize_serialize.
Qed.

End decoding.

(** [str::parse::<u16>]: an optional plus sign and decimal digits. *)
Definition parse_u16 (s : Str) : option Z :=
  let digits := match s with
                | 43 :: rest => rest
                | _ => s
                end in
  match digits with
  | [] => None
  | _ => value ← read_dec digits; if value <=? u16_max then Some value else None
  end.

Lemma parse_u16_display n : in_u16 n -> parse_u16 (dec_u64 n) = Some n.
Proof.
  intros Hn. pose proof (read_dec_u64 n ltac:(int_lia)) as Hr.
  pose proof (dec_u64_digits n ltac:(int_lia)) as Hd. unfold parse_u16.
  destruct (dec_u64 n) as [|c s] eqn:Hs.
  { exfalso. assert (length (dec_u64 n) <> 0%nat) as Hl; [|by rewrite Hs in Hl].
    unfold dec_u64. cbn [dec_fuel]. destruct (n <? 10); [done|]. rewrite length_app. cbn. lia. }
  assert (c <> 43) as Hc by (inversion Hd as [|? ? Hc _]; subst; unfold is_digit in Hc; lia).
  assert (match c with 43 => s | _ => c :: s end = c :: s) as ->
    by (destruct c as [|p|p]; try done; do 6 (destruct p as [p|p|]; try done)).
  rewrite Hr. cbn. by rewrite (proj2 (Z.leb_le _ _)) by apply Hn.
Qed.

(** ** Requests and responses *)

(** [reqwest::Error], of which the code asks one thing. *)
Record ReqwestError := MkReqwestError { is_timeout : bool }.

Section messages.
Context `{HttpLibrary}.

Record HttpRequest := MkHttpRequest {
  request_headers : HeaderMap;
  request_body : list Z
}.

(** A response as the client sees it: the body arrives in chunks, and reading
    one may fail. *)
Record HttpResponse := MkHttpResponse {
  response_status : Z;
  response_headers : HeaderMap;
  response_chunks : list (Result ReqwestError (list Z))
}.

End messages.
