(* ===== verification/ApiHandlers.v ===== *)
(** * The backend's HTTP handlers (apps/api/src/lib.rs)

    [axum] extracts the body before it calls the handler: the payload is an
    argument, a request or the status of a rejection.  So is the clock.  The
    handlers run on the state of the process: the database of the repository
    and the telemetry counters. *)

From S2P Require Import Prelude Text DomainIdentifier.
From S2P Require Import MessageFormats DeviceProtocolValues DeviceProtocolSynchronization DeviceProtocolFingerprint.
From S2P Require Import PersistenceIngestTables PersistenceIngestRecord PersistenceIngestStore.
From S2P Require Import ApiSynchronizationService Telemetry HttpMessages.

(** [ApiErrorResponse] *)
Module ApiErrorResponse.
Record t := mk { service : Str; error : Str; category : Str }.
End ApiErrorResponse.

Module HealthResponse.
Record t := mk { service : Str; status : Str }.
End HealthResponse.

(** The bodies, all of them [Json]. *)
Inductive ResponseBody :=
| AcknowledgementBody (acknowledgement : SBA.t)
| ErrorBody (error : ApiErrorResponse.t)
| HealthBody (health : HealthResponse.t)
| TelemetryBody (snapshot : Snapshot.t).

Record Response := MkResponse { status : Z; body : ResponseBody }.

Definition api_error_response (status : Z) (category error : Str) : Response :=
  MkResponse status (ErrorBody (ApiErrorResponse.mk (lit "transitguard-api") error category)).

Module TransportValidationError.

Inductive t :=
| MissingIdempotencyKey
| InvalidIdempotencyKey
| MissingProtocolVersion
| InvalidProtocolVersion
| UnsupportedProtocolVersion.

Definition message (self : t) : Str :=
  match self with
  | MissingIdempotencyKey => lit "idempotency key header is required"
  | InvalidIdempotencyKey => lit "idempotency key does not match the batch"
  | MissingProtocolVersion => lit "protocol version header is required"
  | InvalidProtocolVersion => lit "protocol version header does not match the body"
  | UnsupportedProtocolVersion => lit "protocol version is unsupported"
  end.

Definition failure_category (self : t) : SynchronizationFailureCategory.t :=
  match self with
  | UnsupportedProtocolVersion => SynchronizationFailureCategory.UnsupportedProtocol
  | MissingIdempotencyKey | InvalidIdempotencyKey | MissingProtocolVersion
  | InvalidProtocolVersion => SynchronizationFailureCategory.BackendValidationFailure
  end.

Definition into_response (self : t) : Response :=
  api_error_response StatusCode.UNPROCESSABLE_ENTITY
    (SynchronizationFailureCategory.as_str (failure_category self)) (message self).

End TransportValidationError.

Module TVE := TransportValidationError.

Definition json_rejection_failure_category (status : Z) : SynchronizationFailureCategory.t :=
  if status =? StatusCode.PAYLOAD_TOO_LARGE then SynchronizationFailureCategory.PayloadTooLarge
  else SynchronizationFailureCategory.BackendValidationFailure.

Definition json_rejection_response (rejection : Z) : Response :=
  let '(status, category, message) :=
    if rejection =? StatusCode.BAD_REQUEST then
      (StatusCode.BAD_REQUEST, SynchronizationFailureCategory.BackendValidationFailure,
       lit "request body contains malformed JSON")
    else if rejection =? StatusCode.PAYLOAD_TOO_LARGE then
      (StatusCode.PAYLOAD_TOO_LARGE, SynchronizationFailureCategory.PayloadTooLarge,
       lit "synchronization request body exceeds the configured limit")
    else if rejection =? StatusCode.UNSUPPORTED_MEDIA_TYPE then
      (StatusCode.UNSUPPORTED_MEDIA_TYPE, SynchronizationFailureCategory.BackendValidationFailure,
       lit "content type must be application/json")
    else if rejection =? StatusCode.UNPROCESSABLE_ENTITY then
      (StatusCode.UNPROCESSABLE_ENTITY, SynchronizationFailureCategory.BackendValidationFailure,
       lit "synchronization request body failed validation")
    else
      (StatusCode.UNPROCESSABLE_ENTITY, SynchronizationFailureCategory.BackendValidationFailure,
       lit "synchronization request body could not be processed") in
  api_error_response status (SynchronizationFailureCategory.as_str category) message.

Definition service_error_response (error : SSE.t) : Response :=
  let category := SynchronizationFailureCategory.as_str (SSE.failure_category error) in
  let '(status, message) :=
    match error with
    | SSE.BatchIdentityConflict =>
        (StatusCode.CONFLICT, lit "synchronization batch identity conflicts with stored content")
    | SSE.TransactionIdentityConflict =>
        (StatusCode.CONFLICT,
         lit "synchronization transaction identity conflicts with stored content")
    | SSE.BackendTemporarilyUnavailable =>
        (StatusCode.SERVICE_UNAVAILABLE, lit "backend synchronization dependency is unavailable")
    | SSE.UnsupportedProtocol =>
        (StatusCode.UNPROCESSABLE_ENTITY, lit "protocol version is unsupported")
    | SSE.EnvironmentMismatch =>
        (StatusCode.UNPROCESSABLE_ENTITY, lit "reader environment does not match the backend")
    | SSE.ReaderNotRegistered =>
        (StatusCode.UNPROCESSABLE_ENTITY, lit "reader is not registered")
    | SSE.ReaderNotOperational =>
        (StatusCode.UNPROCESSABLE_ENTITY, lit "reader is not operational")
    | SSE.IngestRecord | SSE.Protocol _ =>
        (StatusCode.UNPROCESSABLE_ENTITY, lit "synchronization request failed validation")
    end in
  api_error_response status category message.

(** [SystemTime::now().duration_since(UNIX_EPOCH)], in milliseconds, is the
    argument: [None] before 1970. *)
Definition current_unix_milliseconds (elapsed : option Z) : option Z :=
  elapsed ≫= i64_try_from.

(** ** The state of the process *)

Module ApiState.
Section state.
Context `{JsonLibrary}.

Record t := mk {
  synchronization_ingest_repository : IngestDb;
  synchronization_service : Service.t;
  synchronization_telemetry : Inner.t
}.

Definition set_repository (db : IngestDb) (self : t) : t :=
  mk db (synchronization_service self) (synchronization_telemetry self).

Definition set_telemetry (inner : Inner.t) (self : t) : t :=
  mk (synchronization_ingest_repository self) (synchronization_service self) inner.

End state.
End ApiState.

Section handlers.
Context `{JsonLibrary} `{!PostgresJson} `{UuidLibrary} `{Sha256Library}.
Context `{HttpLibrary}.

Definition validate_transport_headers (headers : HeaderMap) (request : SBR.t)
  : Result TVE.t unit :=
  idempotency_key ← ok_or (header_get headers IDEMPOTENCY_KEY_HEADER) TVE.MissingIdempotencyKey;
  idempotency_key ← ok_or (header_to_str idempotency_key) TVE.InvalidIdempotencyKey;
  if decide (idempotency_key <> identifier_to_string (SBR.batch_id request)) then
    Err TVE.InvalidIdempotencyKey
  else
    protocol_version ←
      ok_or (header_get headers PROTOCOL_VERSION_HEADER) TVE.MissingProtocolVersion;
    protocol_version ← ok_or (header_to_str protocol_version) TVE.InvalidProtocolVersion;
    protocol_version ← ok_or (parse_u16 protocol_version) TVE.InvalidProtocolVersion;
    if decide (protocol_version <> DeviceProtocolVersion.value (SBR.protocol_version request)) then
      Err TVE.InvalidProtocolVersion
    else if decide (protocol_version <> DeviceProtocolVersion.value DeviceProtocolVersion.CURRENT)
    then Err TVE.UnsupportedProtocolVersion
    else Ok tt.

(** An early [return] is the error of the monad: both sides are responses. *)
Definition record_telemetry (steps : list Counter) : Mut ApiState.t Response unit :=
  modify (fun state =>
    ApiState.set_telemetry
      (SynchronizationTelemetry.record steps (ApiState.synchronization_telemetry state)) state).

Definition returned {S A} (m : Mut S A A) (state : S) : S * A :=
  match m state with
  | (state', Ok a) | (state', Err a) => (state', a)
  end.

(** A call of the service: its result is a value for the handler. *)
Definition call_service (request : SBR.t) (received_at_unix_milliseconds : Z)
  : Mut ApiState.t Response (Result SSE.t SBA.t) := fun state =>
  let '(db, r) := Service.process (ApiState.synchronization_service state) request
                    received_at_unix_milliseconds
                    (ApiState.synchronization_ingest_repository state) in
  (ApiState.set_repository db state, Ok r).

Definition submit_synchronization_batch (headers : HeaderMap) (payload : Result Z SBR.t)
    (elapsed : option Z) : ApiState.t -> ApiState.t * Response :=
  returned (
    _ ← record_telemetry SynchronizationTelemetry.record_request_started;
    request ←
      match payload with
      | Ok payload => mret payload
      | Err rejection =>
          _ ← record_telemetry (SynchronizationTelemetry.record_request_failure
                 (json_rejection_failure_category rejection));
          fail (json_rejection_response rejection)
      end;
    _ ←
      match validate_transport_headers headers request with
      | Ok _ => mret tt
      | Err error =>
          _ ← record_telemetry (SynchronizationTelemetry.record_request_failure
                 (TVE.failure_category error));
          fail (TVE.into_response error)
      end;
    received_at_unix_milliseconds ←
      match current_unix_milliseconds elapsed with
      | Some timestamp => mret timestamp
      | None =>
          let category := SynchronizationFailureCategory.BackendTemporarilyUnavailable in
          _ ← record_telemetry (SynchronizationTelemetry.record_request_failure category);
          fail (api_error_response StatusCode.SERVICE_UNAVAILABLE
                  (SynchronizationFailureCategory.as_str category)
                  (lit "backend time source is unavailable"))
      end;
    processed ← call_service request received_at_unix_milliseconds;
    match processed with
    | Ok acknowledgement =>
        _ ← record_telemetry (SynchronizationTelemetry.record_acknowledgement acknowledgement);
        mret (MkResponse StatusCode.OK (AcknowledgementBody acknowledgement))
    | Err error =>
        _ ← record_telemetry (SynchronizationTelemetry.record_request_failure
               (SSE.failure_category error));
        mret (service_error_response error)
    end).

Definition liveness : Response :=
  MkResponse StatusCode.OK
    (HealthBody (HealthResponse.mk (lit "transitguard-api") (lit "alive"))).

(** [SELECT 1] on the pool. *)
Definition readiness (state : ApiState.t) : ApiState.t * Response :=
  let '(db, database_check) :=
    query (fun error => error) (fun _ => 1) (ApiState.synchronization_ingest_repository state) in
  (ApiState.set_repository db state,
   match database_check with
   | Ok 1 =>
       MkResponse StatusCode.OK
         (HealthBody (HealthResponse.mk (lit "transitguard-api") (lit "ready")))
   | _ =>
       MkResponse StatusCode.SERVICE_UNAVAILABLE
         (HealthBody (HealthResponse.mk (lit "transitguard-api") (lit "database_unavailable")))
   end).

Definition synchronization_health (state : ApiState.t) : Response :=
  MkResponse StatusCode.OK
    (TelemetryBody (snapshot (ApiState.synchronization_telemetry state))).

(** ** The route
    [axum] runs the extractor under the body limit of [build_router] before
    the handler, and turns [Json] into bytes after it; a value that does not
    serialise becomes a 500 with the error's text. *)

Context `{!WireJson}.

Definition outcome_counts_json (counts : SynchronizationOutcomeCounts.t) : Json :=
  JObject [
    (lit "acknowledged", JInteger (SynchronizationOutcomeCounts.acknowledged counts));
    (lit "retryable_failure", JInteger (SynchronizationOutcomeCounts.retryable_failure counts));
    (lit "permanent_failure", JInteger (SynchronizationOutcomeCounts.permanent_failure counts));
    (lit "manual_review", JInteger (SynchronizationOutcomeCounts.manual_review counts))].

Definition failure_counts_json (counts : SynchronizationFailureCounts.t) : Json :=
  JObject [
    (lit "network_timeout", JInteger (SynchronizationFailureCounts.network_timeout counts));
    (lit "connection_failure", JInteger (SynchronizationFailureCounts.connection_failure counts));
    (lit "response_decode_failure",
     JInteger (SynchronizationFailureCounts.response_decode_failure counts));
    (lit "payload_too_large", JInteger (SynchronizationFailureCounts.payload_too_large counts));
    (lit "unsupported_protocol",
     JInteger (SynchronizationFailureCounts.unsupported_protocol counts));
    (lit "reader_not_registered",
     JInteger (SynchronizationFailureCounts.reader_not_registered counts));
    (lit "reader_not_operational",
     JInteger (SynchronizationFailureCounts.reader_not_operational counts));
    (lit "environment_mismatch",
     JInteger (SynchronizationFailureCounts.environment_mismatch counts));
    (lit "batch_identity_conflict",
     JInteger (SynchronizationFailureCounts.batch_identity_conflict counts));
    (lit "batch_range_mismatch",
     JInteger (SynchronizationFailureCounts.batch_range_mismatch counts));
    (lit "entry_order_mismatch",
     JInteger (SynchronizationFailureCounts.entry_order_mismatch counts));
    (lit "transaction_identity_conflict",
     JInteger (SynchronizationFailureCounts.transaction_identity_conflict counts));
    (lit "backend_temporarily_unavailable",
     JInteger (SynchronizationFailureCounts.backend_temporarily_unavailable counts));
    (lit "backend_validation_failure",
     JInteger (SynchronizationFailureCounts.backend_validation_failure counts));
    (lit "manual_review_required",
     JInteger (SynchronizationFailureCounts.manual_review_required counts))].

Definition snapshot_json (seen : Snapshot.t) : Json :=
  JObject [
    (lit "requests_total", JInteger (Snapshot.requests_total seen));
    (lit "acknowledgements_total", JInteger (Snapshot.acknowledgements_total seen));
    (lit "entries_total", JInteger (Snapshot.entries_total seen));
    (lit "request_failures_total", JInteger (Snapshot.request_failures_total seen));
    (lit "outcomes", outcome_counts_json (Snapshot.outcomes seen));
    (lit "failures", failure_counts_json (Snapshot.failures seen))].

Definition api_error_json (error : ApiErrorResponse.t) : Json :=
  JObject [(lit "service", JString (ApiErrorResponse.service error));
           (lit "error", JString (ApiErrorResponse.error error));
           (lit "category", JString (ApiErrorResponse.category error))].

Definition health_json (health : HealthResponse.t) : Json :=
  JObject [(lit "service", JString (HealthResponse.service health));
           (lit "status", JString (HealthResponse.status health))].

Definition body_to_vec (b : ResponseBody) : Result wire_Error (list Z) :=
  json_to_vec
    match b with
    | AcknowledgementBody acknowledgement => serialize acknowledgement
    | ErrorBody error => api_error_json error
    | HealthBody health => health_json health
    | TelemetryBody seen => snapshot_json seen
    end.

(** Status, media type and body. *)
Definition into_response (response : Response) : Z * Str * list Z :=
  match body_to_vec (body response) with
  | Ok bytes => (status response, lit "application/json", bytes)
  | Err e => (StatusCode.INTERNAL_SERVER_ERROR, lit "text/plain; charset=utf-8", wire_error_text e)
  end.

Definition extracted (request : HttpRequest) : Result Z SBR.t :=
  json_extractor MAX_SYNCHRONIZATION_REQUEST_BYTES (request_headers request) (request_body request).

Definition serve (request : HttpRequest) (elapsed : option Z)
  : ApiState.t -> ApiState.t * Response :=
  submit_synchronization_batch (request_headers request) (extracted request) elapsed.

End handlers.

(** ** What a submission answers and reports *)

Lemma json_rejection_response_shape rejection :
  exists message, json_rejection_response rejection
    = api_error_response (status (json_rejection_response rejection))
        (SynchronizationFailureCategory.as_str (json_rejection_failure_category rejection)) message
    /\ status (json_rejection_response rejection) <> StatusCode.OK.
Proof.
  unfold json_rejection_response, json_rejection_failure_category.
  destruct (rejection =? StatusCode.BAD_REQUEST) eqn:Hb.
  { apply Z.eqb_eq in Hb as ->. by eexists. }
  destruct (rejection =? StatusCode.PAYLOAD_TOO_LARGE); [by eexists|].
  destruct (rejection =? StatusCode.UNSUPPORTED_MEDIA_TYPE); [by eexists|].
  destruct (rejection =? StatusCode.UNPROCESSABLE_ENTITY); by eexists.
Qed.

Lemma service_error_response_shape error :
  exists message, service_error_response error
    = api_error_response (status (service_error_response error))
        (SynchronizationFailureCategory.as_str (SSE.failure_category error)) message
    /\ status (service_error_response error) <> StatusCode.OK.
Proof. destruct error; by eexists. Qed.

(** The report that an answer makes. *)
Inductive reports : Response -> TelemetryEvent -> Prop :=
| reports_acknowledgement a :
    reports (MkResponse StatusCode.OK (AcknowledgementBody a)) (Acknowledgement a)
| reports_failure status category message :
    status <> StatusCode.OK ->
    reports (api_error_response status (SynchronizationFailureCategory.as_str category) message)
      (RequestFailure category).

Section submissions.
Context `{JsonLibrary} `{!PostgresJson} `{UuidLibrary} `{Sha256Library}.
Context `{HttpLibrary}.
Implicit Types (state : ApiState.t).

(** What a submission does to the state, and what it answers. *)
Inductive submission_end (headers : HeaderMap) (payload : Result Z SBR.t) (elapsed : option Z) state
  : ApiState.t -> Response -> Prop :=
| submission_refused response category :
    reports response (RequestFailure category) ->
    submission_end headers payload elapsed state
      (ApiState.set_telemetry
         (SynchronizationTelemetry.record
            (SynchronizationTelemetry.record_request_started
             ++ SynchronizationTelemetry.record_request_failure category)
            (ApiState.synchronization_telemetry state)) state)
      response
| submission_served request received_at db r response event :
    payload = Ok request -> validate_transport_headers headers request = Ok tt ->
    current_unix_milliseconds elapsed = Some received_at ->
    Service.process (ApiState.synchronization_service state) request received_at
      (ApiState.synchronization_ingest_repository state) = (db, r) ->
    match r with
    | Ok a => response = MkResponse StatusCode.OK (AcknowledgementBody a)
    | Err e => response = service_error_response e
    end ->
    reports response event ->
    submission_end headers payload elapsed state
      (ApiState.set_telemetry
         (SynchronizationTelemetry.record
            (SynchronizationTelemetry.record_request_started ++ steps_of event)
            (ApiState.synchronization_telemetry state)) (ApiState.set_repository db state))
      response.

#[local] Ltac run_handler :=
  cbn -[SynchronizationFailureCategory.as_str lit api_error_response TVE.into_response
        json_rejection_response service_error_response].

Lemma submission_cases headers payload elapsed state state' response :
  submit_synchronization_batch headers payload elapsed state = (state', response) ->
  submission_end headers payload elapsed state state' response.
Proof.
  unfold submit_synchronization_batch, returned, record_telemetry. mut_unfold.
  destruct payload as [request|rejection]; run_handler.
  2: { intros [= <- <-]. apply (submission_refused _ _ _ state).
    destruct (json_rejection_response_shape rejection) as (message & -> & Hs). by constructor. }
  destruct (validate_transport_headers headers request) as [[]|error] eqn:Hv; run_handler.
  2: { intros [= <- <-]. apply (submission_refused _ _ _ state). by constructor. }
  destruct (current_unix_milliseconds elapsed) as [received_at|] eqn:Ht; run_handler.
  2: { intros [= <- <-].
    apply (submission_refused _ _ _ state _ SynchronizationFailureCategory.BackendTemporarilyUnavailable).
    by apply (reports_failure _ SynchronizationFailureCategory.BackendTemporarilyUnavailable). }
  unfold call_service. run_handler.
  destruct (Service.process _ request received_at _) as [db r] eqn:Hr.
  destruct r as [a|e]; run_handler; intros [= <- <-].
  - eapply (submission_served _ _ _ state _ _ _ _ _ (Acknowledgement a)); [done..|constructor].
  - eapply (submission_served _ _ _ state _ _ _ _ _ (RequestFailure (SSE.failure_category e)));
      [done..|].
    destruct (service_error_response_shape e) as (message & -> & Hs). by constructor.
Qed.

(** The answer to what the service returned. *)
Definition service_response (r : Result SSE.t SBA.t) : Response :=
  match r with
  | Ok a => MkResponse StatusCode.OK (AcknowledgementBody a)
  | Err e => service_error_response e
  end.

(** A request that passes the checks reaches the service. *)
Lemma submission_accepted headers request elapsed received_at state db r :
  validate_transport_headers headers request = Ok tt ->
  current_unix_milliseconds elapsed = Some received_at ->
  Service.process (ApiState.synchronization_service state) request received_at
    (ApiState.synchronization_ingest_repository state) = (db, r) ->
  exists state', submit_synchronization_batch headers (Ok request) elapsed state
      = (state', service_response r)
    /\ ApiState.synchronization_ingest_repository state' = db.
Proof.
  intros Hv Ht Hp. unfold submit_synchronization_batch, returned, record_telemetry. mut_unfold.
  run_handler. rewrite Hv. run_handler. rewrite Ht. run_handler. unfold call_service. run_handler.
  rewrite Hp. destruct r; run_handler; by eexists.
Qed.

(** A sequence of submissions to one process, and the answers. *)
Record SubmissionCall := MkSubmissionCall {
  call_headers : HeaderMap;
  call_payload : Result Z SBR.t;
  call_elapsed : option Z
}.

Fixpoint submissions (calls : list SubmissionCall) state : ApiState.t * list Response :=
  match calls with
  | [] => (state, [])
  | call :: calls' =>
      let '(state1, response) :=
        submit_synchronization_batch (call_headers call) (call_payload call) (call_elapsed call)
          state in
      let '(state2, responses) := submissions calls' state1 in
      (state2, response :: responses)
  end.

Lemma submission_reports call state state' response :
  submit_synchronization_batch (call_headers call) (call_payload call) (call_elapsed call) state
    = (state', response) ->
  exists event, reports response event
    /\ ApiState.synchronization_telemetry state'
       = SynchronizationTelemetry.record (steps_of RequestStarted ++ steps_of event)
           (ApiState.synchronization_telemetry state).
Proof. intros [? category Hr|? ? ? ? ? event ? ? ? ? ? Hr]%submission_cases; by eexists. Qed.

Lemma submissions_report calls state state' responses :
  submissions calls state = (state', responses) ->
  exists events, Forall2 reports responses events
    /\ ApiState.synchronization_telemetry state'
       = SynchronizationTelemetry.record
           ((events ≫= fun event => [RequestStarted; event]) ≫= steps_of)
           (ApiState.synchronization_telemetry state).
Proof.
  revert state responses. induction calls as [|call calls IH]; intros state responses; cbn [submissions].
  { intros [= <- <-]. by exists []. }
  destruct (submit_synchronization_batch _ _ _ state) as [state1 response] eqn:Hs.
  destruct (submissions calls state1) as [state2 responses'] eqn:Hss. intros [= <- <-].
  destruct (submission_reports _ _ _ _ Hs) as (event & Hr & Ht).
  destruct (IH _ _ Hss) as (events & Hall & Hts). exists (event :: events). split; [by constructor|].
  rewrite Hts, Ht. unfold SynchronizationTelemetry.record.
  rewrite bind_cons, bind_app.
  assert ([RequestStarted; event] ≫= steps_of = steps_of RequestStarted ++ steps_of event) as ->.
  { by rewrite bind_cons, bind_singleton. }
  by rewrite (foldl_app _ (_ ++ _)).
Qed.

Lemma length_submissions calls state : length (submissions calls state).2 = length calls.
Proof.
  revert state. induction calls as [|call calls IH]; intros state; [done|]. cbn [submissions].
  destruct (submit_synchronization_batch _ _ _ state) as [state1 response].
  specialize (IH state1). destruct (submissions calls state1) as [state2 responses].
  cbn in *. by rewrite IH.
Qed.

(** Each submission is a request and one end. *)
Lemma tally_submissions responses events :
  Forall2 reports responses events ->
  let all := events ≫= fun event => [RequestStarted; event] in
  tally all RequestsTotal = Z.of_nat (length responses)
  /\ tally all RequestsTotal = tally all AcknowledgementsTotal + tally all RequestFailuresTotal.
Proof.
  induction 1 as [|response event responses events Hr _ [IH1 IH2]]; [done|]. cbn zeta in *.
  rewrite bind_cons. unfold tally in *. rewrite !fmap_app, !sum_list_with_app. cbn [length].
  destruct Hr; cbn in *; lia.
Qed.

(** The health endpoint accounts for every answer.  Whatever requests a
    fresh process receives, and whatever its database fails: every submission
    gets one answer, a 200 with the acknowledgement or an error with a stable
    category, and the telemetry it serves counts exactly those answers, each
    acknowledgement with its entry outcomes and each failure under the
    category that was answered; so the requests are the acknowledgements and
    the failures together. *)
Theorem health_accounts_for_answers calls db service state' responses :
  submissions calls (ApiState.mk db service Inner.default) = (state', responses) ->
  exists events, Forall2 reports responses events
    /\ synchronization_health state'
       = MkResponse StatusCode.OK (TelemetryBody (snapshot_of (fun counter =>
           u64_wrap (tally (events ≫= fun event => [RequestStarted; event]) counter))))
    /\ let seen := snapshot (ApiState.synchronization_telemetry state') in
       Snapshot.requests_total seen = u64_wrap (Z.of_nat (length calls))
       /\ Snapshot.requests_total seen
          = u64_wrap (Snapshot.acknowledgements_total seen + Snapshot.request_failures_total seen).
Proof.
  intros Hs. destruct (submissions_report _ _ _ _ Hs) as (events & Hall & Ht).
  exists events. split; [done|].
  destruct (tally_submissions _ _ Hall) as [Hn Hsum]. cbn zeta in *.
  pose proof (length_submissions calls (ApiState.mk db service Inner.default)) as Hlen.
  rewrite Hs in Hlen. cbn in Hlen. cbn [ApiState.synchronization_telemetry] in Ht.
  unfold synchronization_health. rewrite Ht, snapshot_reports.
  split; [done|]. cbn [snapshot_of Snapshot.requests_total Snapshot.acknowledgements_total
    Snapshot.request_failures_total]. rewrite <- Hlen, Hn. split; [done|].
  rewrite <- Hn, Hsum. unfold u64_wrap. by rewrite <- Zplus_mod.
Qed.

End submissions.
