(* ===== verification/ReaderSimulator.v ===== *)
(** * The reader simulator
    (apps/reader-simulator/src/lib.rs, fare_processing.rs)

    A reader in memory: its lifecycle, its local sequence, and the tap of a
    credential, which evaluates the fare before it takes a sequence number.
    [FareTransactionId::generate] is an argument. *)

From S2P Require Import Prelude Text DomainMoney DomainIdentifier DomainAccount DomainTransaction.
From S2P Require Import FareEnginePolicy FareEngineTransfer FareEngineCap FareEngineProduct.
From S2P Require Import FareEngineEvaluation FareEngineOffline DeviceProtocolValues.

(** ** lib.rs *)

Module ReaderConnectivity.

Inductive t := Connected | Disconnected.

#[global] Instance eq_dec : EqDecision t.
Proof. solve_decision. Defined.

End ReaderConnectivity.

Module ReaderOperatingState.

Inductive t := Booting | ReadyOnline | ReadyOffline | Stopped.

#[global] Instance eq_dec : EqDecision t.
Proof. solve_decision. Defined.

End ReaderOperatingState.

Module ReaderSimulatorError.

Inductive t :=
| InvalidSoftwareVersion
| InvalidStateTransition (state : ReaderOperatingState.t) (operation : Str)
| NotReady (state : ReaderOperatingState.t)
| SequenceExhausted.

#[global] Instance eq_dec : EqDecision t.
Proof. solve_decision. Defined.

End ReaderSimulatorError.

Module ReaderPresentationInput.

Record t := new {
  credential_id : FareCredentialId;
  credential_medium : CredentialMedium.t;
  event_time : EventTime.t;
  origin_zone : ProtocolZoneId.t;
  destination_zone : ProtocolZoneId.t
}.

End ReaderPresentationInput.

Module ReaderHealthSnapshot.

Record t := mk {
  reader_id : ReaderId;
  state : ReaderOperatingState.t;
  protocol_version : DeviceProtocolVersion.t;
  software_version : Str;
  next_local_sequence : Z
}.

End ReaderHealthSnapshot.

Definition state_for_connectivity (connectivity : ReaderConnectivity.t) : ReaderOperatingState.t :=
  match connectivity with
  | ReaderConnectivity.Connected => ReaderOperatingState.ReadyOnline
  | ReaderConnectivity.Disconnected => ReaderOperatingState.ReadyOffline
  end.

(** [u8::is_ascii_alphanumeric]. *)
Definition is_ascii_alphanumeric (b : Z) : bool :=
  ((48 <=? b) && (b <=? 57)) || ((65 <=? b) && (b <=? 90)) || ((97 <=? b) && (b <=? 122)).

Definition validate_software_version (value : Str) : Result ReaderSimulatorError.t unit :=
  let valid_length := negb (bool_decide (value = [])) && (str_len value <=? 64) in
  let valid_characters :=
    forallb (fun character =>
      is_ascii_alphanumeric character
      || bool_decide (character ∈ [46; 45; 43; 95])) (as_bytes value) in
  if negb valid_length || negb valid_characters then Err ReaderSimulatorError.InvalidSoftwareVersion
  else Ok tt.

Module ReaderSimulator.

Record t := mk {
  reader_id : ReaderId;
  protocol_version : DeviceProtocolVersion.t;
  software_version : Str;
  state : ReaderOperatingState.t;
  next_local_sequence : Z
}.

#[global] Instance eq_dec : EqDecision t.
Proof. solve_decision. Defined.

Definition set_state (state : ReaderOperatingState.t) (self : t) : t :=
  mk (reader_id self) (protocol_version self) (software_version self) state
     (next_local_sequence self).

Definition set_next_local_sequence (sequence : Z) (self : t) : t :=
  mk (reader_id self) (protocol_version self) (software_version self) (state self) sequence.

Definition new (reader_id : ReaderId) (protocol_version : DeviceProtocolVersion.t)
    (software_version : Str) : Result ReaderSimulatorError.t t :=
  _ ← validate_software_version software_version;
  Ok (mk reader_id protocol_version software_version ReaderOperatingState.Booting 1).

Definition start (connectivity : ReaderConnectivity.t) : Mut t ReaderSimulatorError.t unit :=
  self ← get;
  if decide (state self <> ReaderOperatingState.Booting) then
    fail (ReaderSimulatorError.InvalidStateTransition (state self) (lit "start"))
  else put (set_state (state_for_connectivity connectivity) self).

Definition set_connectivity (connectivity : ReaderConnectivity.t)
  : Mut t ReaderSimulatorError.t unit :=
  self ← get;
  match state self with
  | ReaderOperatingState.ReadyOnline | ReaderOperatingState.ReadyOffline =>
      put (set_state (state_for_connectivity connectivity) self)
  | ReaderOperatingState.Booting | ReaderOperatingState.Stopped =>
      fail (ReaderSimulatorError.InvalidStateTransition (state self) (lit "set_connectivity"))
  end.

Definition stop : Mut t ReaderSimulatorError.t unit :=
  self ← get;
  if decide (state self = ReaderOperatingState.Stopped) then
    fail (ReaderSimulatorError.InvalidStateTransition (state self) (lit "stop"))
  else put (set_state ReaderOperatingState.Stopped self).

(** The mode of a state that accepts presentations. *)
Definition processing_mode (self : t) : Result ReaderSimulatorError.t FareProcessingMode.t :=
  match state self with
  | ReaderOperatingState.ReadyOnline => Ok FareProcessingMode.Online
  | ReaderOperatingState.ReadyOffline => Ok FareProcessingMode.Offline
  | ReaderOperatingState.Booting | ReaderOperatingState.Stopped =>
      Err (ReaderSimulatorError.NotReady (state self))
  end.

Definition present_credential (transaction_id : FareTransactionId)
    (input : ReaderPresentationInput.t)
  : Mut t ReaderSimulatorError.t CredentialPresentation.t :=
  self ← get;
  processing_mode ← lift (processing_mode self);
  following_sequence ←
    lift (ok_or (u64_checked_add (next_local_sequence self) 1)
            ReaderSimulatorError.SequenceExhausted);
  local_sequence_number ←
    lift (map_err (fun _ => ReaderSimulatorError.SequenceExhausted)
            (LocalSequenceNumber.new (next_local_sequence self)));
  let presentation :=
    CredentialPresentation.from_definition
      (CredentialPresentationDefinition.mk (protocol_version self) transaction_id (reader_id self)
         local_sequence_number (ReaderPresentationInput.credential_id input)
         (ReaderPresentationInput.credential_medium input)
         (ReaderPresentationInput.event_time input) (ReaderPresentationInput.origin_zone input)
         (ReaderPresentationInput.destination_zone input) processing_mode) in
  _ ← put (set_next_local_sequence following_sequence self);
  mret presentation.

Definition health_snapshot (self : t) : ReaderHealthSnapshot.t :=
  ReaderHealthSnapshot.mk (reader_id self) (state self) (protocol_version self)
    (software_version self) (next_local_sequence self).

End ReaderSimulator.

(** ** fare_processing.rs *)

Module ReaderFareContext.

Record t := mk {
  eligibility : EligibilityClassification.t;
  transfer_history : TransferHistory.t;
  fare_cap_history : FareCapHistory.t;
  transit_product : option TransitProduct.t;
  available_balance : Money.t;
  offline_context : option OfflineEvaluationContext.t
}.

Definition online (eligibility : EligibilityClassification.t) (transfer_history : TransferHistory.t)
    (fare_cap_history : FareCapHistory.t) (transit_product : option TransitProduct.t)
    (available_balance : Money.t) : t :=
  mk eligibility transfer_history fare_cap_history transit_product available_balance None.

Definition offline (eligibility : EligibilityClassification.t)
    (transfer_history : TransferHistory.t) (fare_cap_history : FareCapHistory.t)
    (transit_product : option TransitProduct.t) (available_balance : Money.t)
    (offline_context : OfflineEvaluationContext.t) : t :=
  mk eligibility transfer_history fare_cap_history transit_product available_balance
     (Some offline_context).

End ReaderFareContext.

Module ReaderFareEvaluation.

Inductive t :=
| Online (evaluation : FareEvaluation.t)
| Offline (evaluation : OfflineFareEvaluation.t).

Definition evaluation (self : t) : FareEvaluation.t :=
  match self with
  | Online evaluation => evaluation
  | Offline evaluation => OfflineFareEvaluation.evaluation evaluation
  end.

Definition processing_mode (self : t) : FareProcessingMode.t :=
  match self with
  | Online _ => FareProcessingMode.Online
  | Offline _ => FareProcessingMode.Offline
  end.

End ReaderFareEvaluation.

Module ReaderTapDecision.

Record t := mk {
  presentation : CredentialPresentation.t;
  fare_evaluation : ReaderFareEvaluation.t
}.

End ReaderTapDecision.

Module ReaderFareProcessingError.

Inductive t :=
| Reader (e : ReaderSimulatorError.t)
| FareEvaluation (e : FareEvaluationError.t)
| OfflineEvaluation (e : OfflineEvaluationError.t)
| MissingOfflineContext
| ZoneTranslationFailed (value : Z).

#[global] Instance eq_dec : EqDecision t.
Proof. solve_decision. Defined.

End ReaderFareProcessingError.

Module RFPE := ReaderFareProcessingError.

Definition translate_zone (zone : ProtocolZoneId.t) : Result RFPE.t ZoneId.t :=
  map_err (fun _ => RFPE.ZoneTranslationFailed (ProtocolZoneId.value zone))
    (ZoneId.new (ProtocolZoneId.value zone)).

(** [ReaderSimulator::process_fare]: another [impl] block of the struct. *)
Definition process_fare (transaction_id : FareTransactionId) (policy : FarePolicy.t)
    (presentation_input : ReaderPresentationInput.t) (fare_context : ReaderFareContext.t)
  : Mut ReaderSimulator.t RFPE.t ReaderTapDecision.t :=
  self ← get;
  processing_mode ← lift (map_err RFPE.Reader (ReaderSimulator.processing_mode self));
  origin_zone ← lift (translate_zone (ReaderPresentationInput.origin_zone presentation_input));
  destination_zone ←
    lift (translate_zone (ReaderPresentationInput.destination_zone presentation_input));
  let evaluation_input :=
    FareEvaluationInput.mk (ReaderPresentationInput.event_time presentation_input) origin_zone
      destination_zone (ReaderFareContext.eligibility fare_context)
      (ReaderFareContext.transfer_history fare_context)
      (ReaderFareContext.fare_cap_history fare_context)
      (ReaderFareContext.transit_product fare_context)
      (ReaderFareContext.available_balance fare_context) in
  fare_evaluation ←
    match processing_mode with
    | FareProcessingMode.Online =>
        evaluation ← lift (map_err RFPE.FareEvaluation (evaluate_fare policy evaluation_input));
        mret (ReaderFareEvaluation.Online evaluation)
    | FareProcessingMode.Offline =>
        match ReaderFareContext.offline_context fare_context with
        | None => fail RFPE.MissingOfflineContext
        | Some offline_context =>
            evaluation ←
              lift (map_err RFPE.OfflineEvaluation
                      (evaluate_fare_offline policy evaluation_input offline_context));
            mret (ReaderFareEvaluation.Offline evaluation)
        end
    end;
  presentation ←
    map_error RFPE.Reader (ReaderSimulator.present_credential transaction_id presentation_input);
  mret (ReaderTapDecision.mk presentation fare_evaluation).
