(* ===== verification/ReaderScenario.v ===== *)
(** * Scenarios (apps/reader-simulator/src/scenario.rs, demo.rs)

    A scenario runs actions on a reader and records what each did.  The
    identities that the code generates are arguments: a transaction identity
    for each step, which the report does not show. *)

From S2P Require Import Prelude Text DomainMoney DomainIdentifier DomainAccount DomainTransaction.
From S2P Require Import FareEnginePolicy FareEngineTransfer FareEngineCap FareEngineProduct.
From S2P Require Import FareEngineEvaluation FareEngineOffline DeviceProtocolValues ReaderSimulator.

(** ** scenario.rs *)

Module ScenarioAction.

Inductive t :=
| SetConnectivity (connectivity : ReaderConnectivity.t)
| ProcessFare (presentation_input : ReaderPresentationInput.t) (fare_context : ReaderFareContext.t).

End ScenarioAction.

Module ScenarioActionKind.

Inductive t := ConnectivityChange | FarePresentation.

#[global] Instance eq_dec : EqDecision t.
Proof. solve_decision. Defined.

End ScenarioActionKind.

Module ScenarioFailureCategory.

Inductive t :=
| ReaderConfiguration | ReaderNotReady | ReaderStateTransition | SequenceExhausted
| FareEvaluation | OfflineEvaluation | MissingOfflineContext | ZoneTranslation.

#[global] Instance eq_dec : EqDecision t.
Proof. solve_decision. Defined.

End ScenarioFailureCategory.

Module ScenarioStepResult.

Inductive t :=
| ConnectivityChanged (connectivity : ReaderConnectivity.t)
| FareProcessed (local_sequence : Z) (processing_mode : FareProcessingMode.t)
    (outcome : FareEvaluationOutcome.t) (final_fare : Money.t)
| Failed (category : ScenarioFailureCategory.t).

#[global] Instance eq_dec : EqDecision t.
Proof. solve_decision. Defined.

End ScenarioStepResult.

Module ScenarioStepRecord.

Record t := mk {
  step_number : Z;
  action : ScenarioActionKind.t;
  state : ReaderOperatingState.t;
  next_local_sequence : Z;
  result : ScenarioStepResult.t
}.

#[global] Instance eq_dec : EqDecision t.
Proof. solve_decision. Defined.

End ScenarioStepRecord.

Module ScenarioReport.
Record t := mk { steps : list ScenarioStepRecord.t }.
End ScenarioReport.

Definition map_reader_error (error : ReaderSimulatorError.t) : ScenarioFailureCategory.t :=
  match error with
  | ReaderSimulatorError.InvalidSoftwareVersion => ScenarioFailureCategory.ReaderConfiguration
  | ReaderSimulatorError.InvalidStateTransition _ _ => ScenarioFailureCategory.ReaderStateTransition
  | ReaderSimulatorError.NotReady _ => ScenarioFailureCategory.ReaderNotReady
  | ReaderSimulatorError.SequenceExhausted => ScenarioFailureCategory.SequenceExhausted
  end.

Definition map_fare_error (error : RFPE.t) : ScenarioFailureCategory.t :=
  match error with
  | RFPE.Reader error => map_reader_error error
  | RFPE.FareEvaluation _ => ScenarioFailureCategory.FareEvaluation
  | RFPE.OfflineEvaluation _ => ScenarioFailureCategory.OfflineEvaluation
  | RFPE.MissingOfflineContext => ScenarioFailureCategory.MissingOfflineContext
  | RFPE.ZoneTranslationFailed _ => ScenarioFailureCategory.ZoneTranslation
  end.

(** The result of one action; the loop never fails. *)
Definition perform_action (transaction_id : FareTransactionId) (policy : FarePolicy.t)
    (action : ScenarioAction.t) (reader : ReaderSimulator.t)
  : ReaderSimulator.t * (ScenarioActionKind.t * ScenarioStepResult.t) :=
  match action with
  | ScenarioAction.SetConnectivity connectivity =>
      let '(reader, changed) := ReaderSimulator.set_connectivity connectivity reader in
      let result :=
        match changed with
        | Ok _ => ScenarioStepResult.ConnectivityChanged connectivity
        | Err error => ScenarioStepResult.Failed (map_reader_error error)
        end in
      (reader, (ScenarioActionKind.ConnectivityChange, result))
  | ScenarioAction.ProcessFare presentation_input fare_context =>
      let '(reader, processed) :=
        process_fare transaction_id policy presentation_input fare_context reader in
      let result :=
        match processed with
        | Ok decision =>
            let presentation := ReaderTapDecision.presentation decision in
            let evaluation :=
              ReaderFareEvaluation.evaluation (ReaderTapDecision.fare_evaluation decision) in
            ScenarioStepResult.FareProcessed
              (LocalSequenceNumber.value (CredentialPresentation.local_sequence_number presentation))
              (CredentialPresentation.processing_mode presentation)
              (FareEvaluation.outcome evaluation)
              (FareDecisionEvidence.final_fare (FareEvaluation.evidence evaluation))
        | Err error => ScenarioStepResult.Failed (map_fare_error error)
        end in
      (reader, (ScenarioActionKind.FarePresentation, result))
  end.

(** The loop, at [index]. *)
Fixpoint run_actions (transaction_id : nat -> FareTransactionId) (policy : FarePolicy.t)
    (index : nat) (actions : list ScenarioAction.t) (reader : ReaderSimulator.t)
  : ReaderSimulator.t * list ScenarioStepRecord.t :=
  match actions with
  | [] => (reader, [])
  | action :: actions' =>
      let '(reader, (action_kind, result)) :=
        perform_action (transaction_id index) policy action reader in
      let health := ReaderSimulator.health_snapshot reader in
      let step :=
        ScenarioStepRecord.mk (Z.of_nat index + 1) action_kind (ReaderHealthSnapshot.state health)
          (ReaderHealthSnapshot.next_local_sequence health) result in
      let '(reader, steps) := run_actions transaction_id policy (S index) actions' reader in
      (reader, step :: steps)
  end.

Definition run_scenario (transaction_id : nat -> FareTransactionId) (policy : FarePolicy.t)
    (actions : list ScenarioAction.t) (reader : ReaderSimulator.t)
  : ReaderSimulator.t * ScenarioReport.t :=
  let '(reader, steps) := run_actions transaction_id policy 0 actions reader in
  (reader, ScenarioReport.mk steps).

(** ** demo.rs *)

Definition BASE_TIME_MILLISECONDS : Z := 1700000000000.

Module DemoScenarioError.

Inductive t :=
| InvalidStaticConfiguration (field : Str)
| Reader (e : ReaderSimulatorError.t).

End DemoScenarioError.

(** The identities that the demonstration generates, in the order of its
    taps. *)
Record DemoIdentities := MkDemoIdentities {
  demo_reader : ReaderId;
  demo_policy_id : FarePolicyId;
  demo_credential : nat -> FareCredentialId;
  demo_transaction : nat -> FareTransactionId
}.

Definition checked {T E} (result : Result E T) (field : Str) : Result DemoScenarioError.t T :=
  map_err (fun _ => DemoScenarioError.InvalidStaticConfiguration field) result.

Definition event_time (milliseconds : Z) : Result DemoScenarioError.t EventTime.t :=
  checked (EventTime.from_unix_milliseconds milliseconds) (lit "event time").

Definition protocol_zone (value : Z) : Result DemoScenarioError.t ProtocolZoneId.t :=
  checked (ProtocolZoneId.new value) (lit "protocol zone").

Definition offline_context (event_time_milliseconds : Z)
  : Result DemoScenarioError.t ReaderFareContext.t :=
  cached_at ← event_time (event_time_milliseconds - 500);
  Ok (ReaderFareContext.offline EligibilityClassification.Standard TransferHistory.none
        (FareCapHistory.zero Currency.Usd) None (Money.from_minor_units 1000 Currency.Usd)
        (OfflineEvaluationContext.mk cached_at 1000 cached_at 1000
           (Money.from_minor_units 500 Currency.Usd))).

Definition online_context : ReaderFareContext.t :=
  ReaderFareContext.online EligibilityClassification.Standard TransferHistory.none
    (FareCapHistory.zero Currency.Usd) None (Money.from_minor_units 1000 Currency.Usd).

Definition presentation_input (credential_id : FareCredentialId) (event_time_milliseconds : Z)
    (origin_zone destination_zone : Z) : Result DemoScenarioError.t ReaderPresentationInput.t :=
  at_ ← event_time event_time_milliseconds;
  origin ← protocol_zone origin_zone;
  destination ← protocol_zone destination_zone;
  Ok (ReaderPresentationInput.new credential_id CredentialMedium.Card at_ origin destination).

Definition demo_policy (id : FarePolicyId) : Result DemoScenarioError.t FarePolicy.t :=
  version ← checked (FarePolicyVersion.new 1) (lit "fare policy version");
  transfer_window ← checked (TransferWindow.from_milliseconds 5400000) (lit "transfer window");
  checked
    (FarePolicy.validate
       (FarePolicyDefinition.mk id version Currency.Usd
          (Money.from_minor_units 250 Currency.Usd) (Money.from_minor_units 75 Currency.Usd)
          transfer_window (Money.from_minor_units 250 Currency.Usd)
          (Money.from_minor_units 750 Currency.Usd) (Money.from_minor_units 3000 Currency.Usd)
          EligibilityDiscounts.none)) (lit "fare policy").

Definition demo_actions (credential : nat -> FareCredentialId)
  : Result DemoScenarioError.t (list ScenarioAction.t) :=
  let offline_time := BASE_TIME_MILLISECONDS + 1000 in
  first ← presentation_input (credential 0%nat) BASE_TIME_MILLISECONDS 1 3;
  second ← presentation_input (credential 1%nat) offline_time 1 3;
  third ← presentation_input (credential 2%nat) offline_time 1 3;
  third_context ← offline_context offline_time;
  fourth ← presentation_input (credential 3%nat) (BASE_TIME_MILLISECONDS + 2000) 2 2;
  Ok [ScenarioAction.ProcessFare first online_context;
      ScenarioAction.SetConnectivity ReaderConnectivity.Disconnected;
      ScenarioAction.ProcessFare second online_context;
      ScenarioAction.ProcessFare third third_context;
      ScenarioAction.SetConnectivity ReaderConnectivity.Connected;
      ScenarioAction.ProcessFare fourth online_context].

(** [env!("CARGO_PKG_VERSION")] is an argument. *)
Definition run_demo_scenario (ids : DemoIdentities) (version : Str)
  : Result DemoScenarioError.t ScenarioReport.t :=
  reader ← map_err DemoScenarioError.Reader
             (ReaderSimulator.new (demo_reader ids) DeviceProtocolVersion.CURRENT version);
  let '(reader, started) := ReaderSimulator.start ReaderConnectivity.Connected reader in
  _ ← map_err DemoScenarioError.Reader started;
  policy ← demo_policy (demo_policy_id ids);
  actions ← demo_actions (demo_credential ids);
  Ok (run_scenario (demo_transaction ids) policy actions reader).2.
