(* ===== verification/ReaderScenarioCorrectness.v ===== *)
(** * What a scenario guarantees

    Only an accepted tap takes a sequence number, the reader's numbers have no
    gaps, and a report does not depend on any generated identity. *)

From S2P Require Import Prelude Text DomainMoney DomainIdentifier DomainAccount DomainTransaction.
From S2P Require Import FareEnginePolicy FareEngineTransfer FareEngineCap FareEngineProduct.
From S2P Require Import FareEngineEvaluation FareEngineOffline DeviceProtocolValues ReaderSimulator.
From S2P Require Import ReaderScenario.

Implicit Types (reader : ReaderSimulator.t) (input : ReaderPresentationInput.t)
  (context : ReaderFareContext.t) (policy : FarePolicy.t).

(** ** One tap *)

Definition evaluation_input input context (origin destination : ZoneId.t) : FareEvaluationInput.t :=
  FareEvaluationInput.mk (ReaderPresentationInput.event_time input) origin destination
    (ReaderFareContext.eligibility context) (ReaderFareContext.transfer_history context)
    (ReaderFareContext.fare_cap_history context) (ReaderFareContext.transit_product context)
    (ReaderFareContext.available_balance context).

(** The fare of a tap, by the connectivity of the reader. *)
Definition tap_evaluation policy input context (mode : FareProcessingMode.t)
  : Result RFPE.t ReaderFareEvaluation.t :=
  origin ← translate_zone (ReaderPresentationInput.origin_zone input);
  destination ← translate_zone (ReaderPresentationInput.destination_zone input);
  let fare_input := evaluation_input input context origin destination in
  match mode with
  | FareProcessingMode.Online =>
      map_ok ReaderFareEvaluation.Online
        (map_err RFPE.FareEvaluation (evaluate_fare policy fare_input))
  | FareProcessingMode.Offline =>
      offline_context ← ok_or (ReaderFareContext.offline_context context) RFPE.MissingOfflineContext;
      map_ok ReaderFareEvaluation.Offline
        (map_err RFPE.OfflineEvaluation (evaluate_fare_offline policy fare_input offline_context))
  end.

(** The sequence number that the next presentation gets. *)
Definition next_number reader : Result ReaderSimulatorError.t Z :=
  let n := ReaderSimulator.next_local_sequence reader in
  if (n =? u64_max) || (n =? 0) then Err ReaderSimulatorError.SequenceExhausted else Ok n.

Definition in_sequence reader : Prop := in_u64 (ReaderSimulator.next_local_sequence reader).

Definition presented (id : FareTransactionId) reader input (mode : FareProcessingMode.t) (n : Z)
  : CredentialPresentation.t :=
  CredentialPresentation.mk (ReaderSimulator.protocol_version reader) id
    (ReaderSimulator.reader_id reader) (LocalSequenceNumber.mk n)
    (ReaderPresentationInput.credential_id input) (ReaderPresentationInput.credential_medium input)
    (ReaderPresentationInput.event_time input) (ReaderPresentationInput.origin_zone input)
    (ReaderPresentationInput.destination_zone input) mode.

(** What a tap decides. *)
Definition tap_result (id : FareTransactionId) policy input context reader
  : Result RFPE.t ReaderTapDecision.t :=
  mode ← map_err RFPE.Reader (ReaderSimulator.processing_mode reader);
  fare_evaluation ← tap_evaluation policy input context mode;
  n ← map_err RFPE.Reader (next_number reader);
  Ok (ReaderTapDecision.mk (presented id reader input mode n) fare_evaluation).

Lemma next_number_steps reader :
  in_sequence reader ->
  (following ← ok_or (u64_checked_add (ReaderSimulator.next_local_sequence reader) 1)
                 ReaderSimulatorError.SequenceExhausted;
   number ← map_err (fun _ => ReaderSimulatorError.SequenceExhausted)
              (LocalSequenceNumber.new (ReaderSimulator.next_local_sequence reader));
   Ok (following, number))
  = (n ← next_number reader; Ok (n + 1, LocalSequenceNumber.mk n)).
Proof.
  intros Hn. unfold in_sequence in Hn. unfold next_number, u64_checked_add, u64_try_from, LocalSequenceNumber.new.
  destruct (Z.eqb_spec (ReaderSimulator.next_local_sequence reader) u64_max) as [->|Hmax]; [done|].
  rewrite decide_True by (unfold in_u64 in *; lia). cbn.
  by destruct (_ =? 0).
Qed.

Lemma present_credential_closed id input reader :
  in_sequence reader ->
  ReaderSimulator.present_credential id input reader
  = match ReaderSimulator.processing_mode reader with
    | Err e => (reader, Err e)
    | Ok mode =>
        match next_number reader with
        | Err e => (reader, Err e)
        | Ok n => (ReaderSimulator.set_next_local_sequence (n + 1) reader,
                   Ok (presented id reader input mode n))
        end
    end.
Proof.
  intros Hn. pose proof (next_number_steps reader Hn) as Hsteps.
  unfold ReaderSimulator.present_credential. mut_unfold. cbn beta iota.
  destruct (ReaderSimulator.processing_mode reader) as [mode|]; [|done]. cbn beta iota.
  destruct (ok_or _ _) as [following|]; cbn in Hsteps |- *.
  2: { destruct (next_number reader); cbn in Hsteps; by simplify_eq. }
  destruct (map_err _ (LocalSequenceNumber.new _)) as [number|]; cbn in Hsteps |- *;
    destruct (next_number reader); cbn in Hsteps; by simplify_eq.
Qed.

(** A tap evaluates the fare, then takes a number; a tap that fails changes
    nothing. *)
Lemma process_fare_closed id policy input context reader :
  in_sequence reader ->
  process_fare id policy input context reader
  = (match tap_result id policy input context reader with
     | Ok _ => ReaderSimulator.set_next_local_sequence
                 (ReaderSimulator.next_local_sequence reader + 1) reader
     | Err _ => reader
     end, tap_result id policy input context reader).
Proof.
  intros Hn. unfold process_fare, tap_result, tap_evaluation, map_error. mut_unfold. cbn beta iota.
  pose proof (present_credential_closed id input reader Hn) as Hpresent.
  destruct (ReaderSimulator.processing_mode reader) as [mode|] eqn:Hmode; cbn; [|done].
  destruct (translate_zone _) as [origin|]; cbn; [|done].
  destruct (translate_zone (ReaderPresentationInput.destination_zone _)) as [destination|]; cbn; [|done].
  fold (evaluation_input input context origin destination).
  assert (forall n, next_number reader = Ok n -> n = ReaderSimulator.next_local_sequence reader) as Hnum.
  { unfold next_number. intros n. destruct (_ || _); [done|]. by intros [= <-]. }
  destruct mode.
  - destruct (evaluate_fare _ _); cbn; [|done]. rewrite Hpresent.
    destruct (next_number reader) as [n|]; cbn; [|done]. by rewrite (Hnum n).
  - destruct (ReaderFareContext.offline_context context) as [offline_context|]; cbn; [|done].
    destruct (evaluate_fare_offline _ _ _); cbn; [|done]. rewrite Hpresent.
    destruct (next_number reader) as [n|]; cbn; [|done]. by rewrite (Hnum n).
Qed.

(** ** A step and its record *)

Definition ready_state (mode : FareProcessingMode.t) : ReaderOperatingState.t :=
  match mode with
  | FareProcessingMode.Online => ReaderOperatingState.ReadyOnline
  | FareProcessingMode.Offline => ReaderOperatingState.ReadyOffline
  end.

Definition not_ready (state : ReaderOperatingState.t) : Prop :=
  state = ReaderOperatingState.Booting \/ state = ReaderOperatingState.Stopped.

Lemma processing_mode_Ok reader mode :
  ReaderSimulator.processing_mode reader = Ok mode -> ReaderSimulator.state reader = ready_state mode.
Proof.
  unfold ReaderSimulator.processing_mode.
  by destruct (ReaderSimulator.state reader); intros [= <-].
Qed.

Lemma processing_mode_Err reader e :
  ReaderSimulator.processing_mode reader = Err e ->
  not_ready (ReaderSimulator.state reader)
  /\ map_reader_error e = ScenarioFailureCategory.ReaderNotReady.
Proof.
  unfold ReaderSimulator.processing_mode, not_ready.
  destruct (ReaderSimulator.state reader); try done; intros [= <-]; auto.
Qed.

Lemma tap_evaluation_mode policy input context mode fe :
  tap_evaluation policy input context mode = Ok fe -> ReaderFareEvaluation.processing_mode fe = mode.
Proof.
  unfold tap_evaluation.
  destruct (translate_zone (ReaderPresentationInput.origin_zone _)); cbn; [|done].
  destruct (translate_zone _); cbn; [|done].
  destruct mode; cbn.
  - destruct (evaluate_fare _ _); by intros [= <-].
  - destruct (ReaderFareContext.offline_context context) as [oc|]; [cbn|done].
    destruct (evaluate_fare_offline _ _ oc); by intros [= <-].
Qed.

Lemma next_number_Ok reader n :
  next_number reader = Ok n -> n = ReaderSimulator.next_local_sequence reader /\ n <> u64_max.
Proof.
  unfold next_number. destruct (_ || _) eqn:H; [done|]. intros [= <-]. split; [done|].
  intros Hmax. by rewrite Hmax, Z.eqb_refl in H.
Qed.

(** What the record of an action says. *)
Definition step_sound policy (action : ScenarioAction.t) (step : ScenarioStepRecord.t) : Prop :=
  match action, ScenarioStepRecord.result step with
  | ScenarioAction.SetConnectivity c, ScenarioStepResult.ConnectivityChanged c' =>
      c' = c /\ ScenarioStepRecord.state step = state_for_connectivity c
  | ScenarioAction.SetConnectivity _, ScenarioStepResult.Failed category =>
      category = ScenarioFailureCategory.ReaderStateTransition
      /\ not_ready (ScenarioStepRecord.state step)
  | ScenarioAction.ProcessFare input context, ScenarioStepResult.FareProcessed n mode outcome fare =>
      ScenarioStepRecord.state step = ready_state mode
      /\ ScenarioStepRecord.next_local_sequence step = n + 1
      /\ exists fe, tap_evaluation policy input context mode = Ok fe
           /\ ReaderFareEvaluation.processing_mode fe = mode
           /\ outcome = FareEvaluation.outcome (ReaderFareEvaluation.evaluation fe)
           /\ fare = FareDecisionEvidence.final_fare
                (FareEvaluation.evidence (ReaderFareEvaluation.evaluation fe))
  | ScenarioAction.ProcessFare input context, ScenarioStepResult.Failed category =>
      (exists mode e, ScenarioStepRecord.state step = ready_state mode
         /\ tap_evaluation policy input context mode = Err e /\ category = map_fare_error e)
      \/ (not_ready (ScenarioStepRecord.state step)
          /\ category = ScenarioFailureCategory.ReaderNotReady)
      \/ (category = ScenarioFailureCategory.SequenceExhausted
          /\ (ScenarioStepRecord.next_local_sequence step = u64_max
              \/ ScenarioStepRecord.next_local_sequence step = 0))
  | _, _ => False
  end.

(** The number that a record shows. *)
Definition assigned_number (step : ScenarioStepRecord.t) : option Z :=
  match ScenarioStepRecord.result step with
  | ScenarioStepResult.FareProcessed n _ _ _ => Some n
  | _ => None
  end.

Definition step_record (index : nat) (kind : ScenarioActionKind.t)
    (result : ScenarioStepResult.t) reader : ScenarioStepRecord.t :=
  ScenarioStepRecord.mk (Z.of_nat index + 1) kind (ReaderSimulator.state reader)
    (ReaderSimulator.next_local_sequence reader) result.

(** What one action does to the numbers. *)
Definition takes (n : Z) (step : ScenarioStepRecord.t) (n' : Z) : Prop :=
  match assigned_number step with
  | Some number => number = n /\ n' = n + 1 /\ in_u64 n'
  | None => n' = n
  end.

Lemma perform_action_sound id policy action reader index reader' kind result :
  in_sequence reader ->
  perform_action id policy action reader = (reader', (kind, result)) ->
  step_sound policy action (step_record index kind result reader')
  /\ takes (ReaderSimulator.next_local_sequence reader) (step_record index kind result reader')
       (ReaderSimulator.next_local_sequence reader')
  /\ in_sequence reader'.
Proof.
  intros Hn. destruct action as [c|input context]; cbn [perform_action].
  - unfold ReaderSimulator.set_connectivity. mut_unfold. cbn beta iota.
    destruct (ReaderSimulator.state reader) eqn:Hs; cbn; intros [= <- <- <-];
      unfold step_sound, takes, not_ready; cbn; rewrite ?Hs; auto 6.
  - rewrite (process_fare_closed _ _ _ _ _ Hn). unfold tap_result.
    destruct (ReaderSimulator.processing_mode reader) as [mode|e] eqn:Hm; cbn.
    2: { apply processing_mode_Err in Hm as [Hs He]. intros [= <- <- <-].
      split_and!; [|done|done]. right. left. split; [exact Hs|exact He]. }
    apply processing_mode_Ok in Hm.
    destruct (tap_evaluation policy input context mode) as [fe|e] eqn:Hfe; cbn.
    2: { intros [= <- <- <-]. split_and!; [|done|done]. left. by exists mode, e. }
    unfold in_sequence in *. destruct (next_number reader) as [n|e] eqn:Hnum; cbn; intros [= <- <- <-].
    + apply next_number_Ok in Hnum as [-> Hmax]. unfold takes. cbn.
      assert (in_u64 (ReaderSimulator.next_local_sequence reader + 1)) by (unfold in_u64 in *; lia).
      split_and!; try done. exists fe.
      by rewrite (tap_evaluation_mode _ _ _ _ _ Hfe).
    + split_and!; [|done|done]. right. right. unfold next_number in Hnum. cbn.
      destruct (_ || _) eqn:Hor; [|done]. injection Hnum as <-. split; [done|].
      apply orb_true_iff in Hor as [Hz|Hz]; apply Z.eqb_eq in Hz; auto.
Qed.

(** ** The whole scenario *)

Lemma run_actions_sound ids policy index actions reader reader' steps :
  in_sequence reader -> run_actions ids policy index actions reader = (reader', steps) ->
  Forall2 (step_sound policy) actions steps
  /\ ScenarioStepRecord.step_number <$> steps = seqZ (Z.of_nat index + 1) (Z.of_nat (length actions))
  /\ omap assigned_number steps
     = seqZ (ReaderSimulator.next_local_sequence reader)
         (ReaderSimulator.next_local_sequence reader' - ReaderSimulator.next_local_sequence reader)
  /\ ReaderSimulator.next_local_sequence reader <= ReaderSimulator.next_local_sequence reader'
  /\ in_sequence reader'.
Proof.
  revert index reader steps. induction actions as [|action actions IH]; intros index reader steps Hn.
  { intros [= <- <-]. rewrite Z.sub_diag. split_and!; [constructor|done..]. }
  cbn [run_actions].
  destruct (perform_action (ids index) policy action reader) as [reader1 [kind result]] eqn:Hp.
  destruct (run_actions ids policy (S index) actions reader1) as [reader2 steps2] eqn:Hr.
  intros [= <- <-].
  destruct (perform_action_sound _ _ _ _ index _ _ _ Hn Hp) as (Hsound & Htakes & Hn1).
  destruct (IH _ _ _ Hn1 Hr) as (Hall & Hnumbers & Htaken & Hle & Hn2). clear IH.
  fold (step_record index kind result reader1) in *.
  split; [by constructor|]. split.
  { rewrite fmap_cons, Hnumbers. cbn [length]. rewrite (seqZ_cons (Z.of_nat index + 1)) by lia.
    cbn. f_equal. f_equal; lia. }
  unfold takes in Htakes. cbn [omap list_omap].
  destruct (assigned_number (step_record index kind result reader1)) as [n|].
  - destruct Htakes as (-> & Hnext & _). split_and!; [|lia|done].
    rewrite (seqZ_cons (ReaderSimulator.next_local_sequence reader)) by lia.
    f_equal. rewrite Htaken. f_equal; lia.
  - rewrite Htakes in *. split_and!; [done|lia|done].
Qed.

(** C30. A scenario's report is the truth about its taps, and numbers are given
    without gaps.  Whatever actions are run on a reader: each action has one
    record, in order; the record of a tap shows the decision and the fare that
    the fare engine computes for that tap in the mode of the reader's
    connectivity, or the category of the engine's error, and fails otherwise
    only because the reader is not ready or its numbers are used up; the taps
    that succeed carry consecutive sequence numbers from the reader's next one
    on, those that fail take none. *)
Theorem scenario_reports_taps ids policy actions reader reader' report :
  in_u64 (ReaderSimulator.next_local_sequence reader) ->
  run_scenario ids policy actions reader = (reader', report) ->
  let steps := ScenarioReport.steps report in
  let taken := ReaderSimulator.next_local_sequence reader'
               - ReaderSimulator.next_local_sequence reader in
  Forall2 (step_sound policy) actions steps
  /\ ScenarioStepRecord.step_number <$> steps = seqZ 1 (Z.of_nat (length actions))
  /\ omap assigned_number steps = seqZ (ReaderSimulator.next_local_sequence reader) taken
  /\ 0 <= taken /\ in_u64 (ReaderSimulator.next_local_sequence reader').
Proof.
  intros Hn. unfold run_scenario.
  destruct (run_actions ids policy 0 actions reader) as [reader2 steps] eqn:Hr. intros [= <- <-].
  destruct (run_actions_sound _ _ _ _ _ _ _ Hn Hr) as (Hall & Hnumbers & Htaken & Hle & Hn2).
  cbn zeta. split_and!; [done..|lia|done].
Qed.

(** ** What a report hides *)

(** Two actions that differ in the credential only. *)
Inductive same_action : ScenarioAction.t -> ScenarioAction.t -> Prop :=
| same_connectivity c :
    same_action (ScenarioAction.SetConnectivity c) (ScenarioAction.SetConnectivity c)
| same_tap input1 input2 context :
    ReaderPresentationInput.event_time input1 = ReaderPresentationInput.event_time input2 ->
    ReaderPresentationInput.origin_zone input1 = ReaderPresentationInput.origin_zone input2 ->
    ReaderPresentationInput.destination_zone input1
      = ReaderPresentationInput.destination_zone input2 ->
    same_action (ScenarioAction.ProcessFare input1 context)
      (ScenarioAction.ProcessFare input2 context).

(** Two readers in the same state of their lives. *)
Record same_reader reader1 reader2 : Prop := {
  same_state : ReaderSimulator.state reader1 = ReaderSimulator.state reader2;
  same_sequence : ReaderSimulator.next_local_sequence reader1
                  = ReaderSimulator.next_local_sequence reader2
}.

Lemma same_tap_evaluation policy input1 input2 context mode :
  same_action (ScenarioAction.ProcessFare input1 context)
    (ScenarioAction.ProcessFare input2 context) ->
  tap_evaluation policy input1 context mode = tap_evaluation policy input2 context mode.
Proof.
  intros Hsame. inversion Hsame as [|? ? ? Htime Horigin Hdestination]; subst.
  unfold tap_evaluation, evaluation_input. by rewrite Htime, Horigin, Hdestination.
Qed.

Lemma perform_action_same id1 id2 policy action1 action2 reader1 reader2 :
  in_sequence reader1 -> same_reader reader1 reader2 -> same_action action1 action2 ->
  same_reader (perform_action id1 policy action1 reader1).1
    (perform_action id2 policy action2 reader2).1
  /\ (perform_action id1 policy action1 reader1).2 = (perform_action id2 policy action2 reader2).2.
Proof.
  intros Hn Hreaders Hactions. pose proof Hreaders as [Hs Hq].
  assert (in_sequence reader2) as Hn2 by (unfold in_sequence in *; by rewrite <- Hq).
  destruct Hactions as [c|input1 input2 context Htime Horigin Hdestination]; cbn [perform_action].
  - unfold ReaderSimulator.set_connectivity. mut_unfold. cbn beta iota. rewrite <- Hs.
    destruct (ReaderSimulator.state reader1); cbn; split; try done; by constructor.
  - rewrite (process_fare_closed _ _ _ _ _ Hn), (process_fare_closed _ _ _ _ _ Hn2).
    unfold tap_result, ReaderSimulator.processing_mode, next_number. rewrite <- Hs, <- Hq.
    assert (forall mode, tap_evaluation policy input1 context mode
              = tap_evaluation policy input2 context mode) as Htap
      by (intros; apply same_tap_evaluation; by constructor).
    destruct (ReaderSimulator.state reader1); cbn; [done| | |done];
      rewrite <- Htap; destruct (tap_evaluation _ _ _ _); cbn; try done;
      destruct (_ || _); cbn; split; try done;
        (constructor; [apply Hreaders|done]).
Qed.

Lemma run_actions_same ids1 ids2 policy index actions1 actions2 reader1 reader2 :
  in_sequence reader1 -> same_reader reader1 reader2 -> Forall2 same_action actions1 actions2 ->
  same_reader (run_actions ids1 policy index actions1 reader1).1
    (run_actions ids2 policy index actions2 reader2).1
  /\ (run_actions ids1 policy index actions1 reader1).2
     = (run_actions ids2 policy index actions2 reader2).2.
Proof.
  intros Hn Hreaders Hactions. revert index reader1 reader2 Hn Hreaders.
  induction Hactions as [|action1 action2 actions1 actions2 Haction Hactions IH];
    intros index reader1 reader2 Hn Hreaders; [done|]. cbn [run_actions].
  destruct (perform_action_same (ids1 index) (ids2 index) policy _ _ _ _ Hn Hreaders Haction)
    as [Hreaders' Hresults].
  destruct (perform_action (ids1 index) policy action1 reader1) as [reader1' [kind result]] eqn:Hp.
  destruct (perform_action (ids2 index) policy action2 reader2) as [reader2' [kind2 result2]].
  cbn in Hreaders', Hresults. simplify_eq.
  destruct (perform_action_sound _ _ _ _ index _ _ _ Hn Hp) as (_ & _ & Hn').
  destruct (IH (S index) reader1' reader2' Hn' Hreaders') as [Hlast Hsteps].
  destruct (run_actions ids1 policy (S index) actions1 reader1') as [r1 steps1].
  destruct (run_actions ids2 policy (S index) actions2 reader2') as [r2 steps2].
  cbn in *. subst. destruct Hreaders' as [Hs Hq]. by rewrite Hs, Hq.
Qed.

(** A report hides every identity.  Take any two readers that are in the
    same operating state and at the same sequence number, whatever their
    identities, versions and software; any two scenarios whose actions differ
    at most in the credentials that are tapped and in their media; and any
    transaction identities.  Then the two reports are equal. *)
Theorem reports_hide_identities ids1 ids2 policy actions1 actions2 reader1 reader2 :
  in_u64 (ReaderSimulator.next_local_sequence reader1) ->
  same_reader reader1 reader2 -> Forall2 same_action actions1 actions2 ->
  (run_scenario ids1 policy actions1 reader1).2 = (run_scenario ids2 policy actions2 reader2).2.
Proof.
  intros Hn Hreaders Hactions. unfold run_scenario.
  destruct (run_actions_same ids1 ids2 policy 0 _ _ _ _ Hn Hreaders Hactions) as [_ Hsteps].
  destruct (run_actions ids1 _ _ _ _) as [r1 steps1], (run_actions ids2 _ _ _ _) as [r2 steps2].
  cbn in *. by rewrite Hsteps.
Qed.

(** ** The demonstration *)

Definition demo_report : ScenarioReport.t :=
  let usd minor_units := Money.from_minor_units minor_units Currency.Usd in
  let tap n mode fare reason :=
    ScenarioStepResult.FareProcessed n mode (FareEvaluationOutcome.Approved (usd fare) reason)
      (usd fare) in
  ScenarioReport.mk
    [ScenarioStepRecord.mk 1 ScenarioActionKind.FarePresentation ReaderOperatingState.ReadyOnline 2
       (tap 1 FareProcessingMode.Online 400 FareApprovalReason.StandardFare);
     ScenarioStepRecord.mk 2 ScenarioActionKind.ConnectivityChange
       ReaderOperatingState.ReadyOffline 2
       (ScenarioStepResult.ConnectivityChanged ReaderConnectivity.Disconnected);
     ScenarioStepRecord.mk 3 ScenarioActionKind.FarePresentation ReaderOperatingState.ReadyOffline 2
       (ScenarioStepResult.Failed ScenarioFailureCategory.MissingOfflineContext);
     ScenarioStepRecord.mk 4 ScenarioActionKind.FarePresentation ReaderOperatingState.ReadyOffline 3
       (tap 2 FareProcessingMode.Offline 400 FareApprovalReason.OfflineProvisional);
     ScenarioStepRecord.mk 5 ScenarioActionKind.ConnectivityChange ReaderOperatingState.ReadyOnline 3
       (ScenarioStepResult.ConnectivityChanged ReaderConnectivity.Connected);
     ScenarioStepRecord.mk 6 ScenarioActionKind.FarePresentation ReaderOperatingState.ReadyOnline 4
       (tap 3 FareProcessingMode.Online 250 FareApprovalReason.StandardFare)].

(** The demonstration is reproducible: its report does not depend on the
    identities that it generates, nor on the version of the software. *)
Lemma demo_reproducible ids version :
  run_demo_scenario ids version
  = match validate_software_version version with
    | Ok _ => Ok demo_report
    | Err e => Err (DemoScenarioError.Reader e)
    end.
Proof.
  unfold run_demo_scenario, ReaderSimulator.new.
  destruct (validate_software_version version) as [[]|e]; reflexivity.
Qed.

(** ** Witnesses *)

Definition numbered {k} (n : nat) : Identifier k :=
  MkIdentifier (default uuid_1 (uuid_from_u128 (0x70008000000000000000 + N.of_nat n)%N)).

Definition demo_simulator (n : nat) : ReaderSimulator.t :=
  ReaderSimulator.mk (numbered n) DeviceProtocolVersion.CURRENT (lit "0.1.0")
    ReaderOperatingState.ReadyOnline 1.

Definition demo_fare_policy : FarePolicy.t :=
  match demo_policy (numbered 5) with Ok policy => policy | Err _ => sample_policy end.

Definition scenario_of (base : nat) : list ScenarioAction.t :=
  match demo_actions (fun index => numbered (base + index)) with
  | Ok actions => actions
  | Err _ => []
  end.

Lemma scenario_reports_taps_witness :
  exists reader' report,
    run_scenario numbered demo_fare_policy (scenario_of 10) (demo_simulator 1)
      = (reader', report)
    /\ report = demo_report
    /\ Forall2 (step_sound demo_fare_policy) (scenario_of 10) (ScenarioReport.steps report)
    /\ omap assigned_number (ScenarioReport.steps report) = [1; 2; 3].
Proof.
  assert (in_u64 (ReaderSimulator.next_local_sequence (demo_simulator 1))) as Hn
    by (split; vm_compute; discriminate).
  destruct (run_scenario numbered demo_fare_policy (scenario_of 10) (demo_simulator 1))
    as [reader' report] eqn:Hrun.
  exists reader', report.
  pose proof (scenario_reports_taps numbered demo_fare_policy (scenario_of 10)
                (demo_simulator 1) reader' report Hn Hrun) as Hc.
  vm_compute in Hrun. injection Hrun as <- <-. cbv zeta in Hc.
  destruct Hc as (Hall & _ & Hnumbers & _). split_and!; [done|done|exact Hall|].
  rewrite Hnumbers. reflexivity.
Defined.

Lemma reports_hide_identities_witness :
  Forall2 same_action (scenario_of 10) (scenario_of 500)
  /\ (run_scenario numbered demo_fare_policy (scenario_of 10) (demo_simulator 1)).2
     = (run_scenario (fun index => numbered (index + 77)) demo_fare_policy
          (scenario_of 500) (demo_simulator 2)).2.
Proof.
  assert (Forall2 same_action (scenario_of 10) (scenario_of 500)) as Hsame
    by (repeat constructor).
  split; [exact Hsame|].
  apply reports_hide_identities; [split; vm_compute; discriminate|by constructor|exact Hsame].
Defined.
