(* ===== verification/ReaderTransport.v ===== *)
(** * The reader's HTTP transport
    (apps/reader-simulator/src/synchronization_transport.rs)

    [reqwest] is what carries a request to the backend: sending is an action
    on a world, an argument of [submit].  The URL parser is the class
    [UrlLibrary]; building the client either works or fails, which is an
    argument of [new]. *)

From S2P Require Import Prelude Text DomainIdentifier DeviceProtocolValues.
From S2P Require Import DeviceProtocolSynchronization HttpMessages.

Definition JSON_MEDIA_TYPE : Str := lit "application/json".
Definition TRANSITGUARD_API_SERVICE : Str := lit "transitguard-api".

Definition usize_max : Z := u64_max.

(** [usize::checked_add] on 64-bit targets. *)
Definition usize_checked_add (a b : Z) : option Z :=
  if a + b <=? usize_max then Some (a + b) else None.

Module SynchronizationHttpClientError.

Inductive t :=
| InvalidEndpoint
| InvalidTimeout
| ClientConfiguration
| RequestEncoding
| RequestTooLarge (maximum_bytes actual_bytes : Z)
| Request (category : SynchronizationFailureCategory.t) (source : ReqwestError)
| HttpStatus (status : Z) (category : SynchronizationFailureCategory.t)
| UnexpectedContentType
| ResponseRead (category : SynchronizationFailureCategory.t) (source : ReqwestError)
| ResponseTooLarge (maximum_bytes actual_bytes : Z)
| ResponseDecode
| InvalidAcknowledgement (source : SynchronizationProtocolError.t).

Definition failure_category (self : t) : SynchronizationFailureCategory.t :=
  match self with
  | InvalidEndpoint | InvalidTimeout | RequestEncoding =>
      SynchronizationFailureCategory.BackendValidationFailure
  | ClientConfiguration => SynchronizationFailureCategory.ConnectionFailure
  | RequestTooLarge _ _ | ResponseTooLarge _ _ => SynchronizationFailureCategory.PayloadTooLarge
  | Request category _ | ResponseRead category _ | HttpStatus _ category => category
  | UnexpectedContentType | ResponseDecode | InvalidAcknowledgement _ =>
      SynchronizationFailureCategory.ResponseDecodeFailure
  end.

End SynchronizationHttpClientError.

Module HCE := SynchronizationHttpClientError.

Definition request_failure_category (error : ReqwestError) : SynchronizationFailureCategory.t :=
  if is_timeout error then SynchronizationFailureCategory.NetworkTimeout
  else SynchronizationFailureCategory.ConnectionFailure.

Definition response_failure_category (error : ReqwestError) : SynchronizationFailureCategory.t :=
  if is_timeout error then SynchronizationFailureCategory.NetworkTimeout
  else SynchronizationFailureCategory.ResponseDecodeFailure.

Definition fallback_status_category (status : Z) : SynchronizationFailureCategory.t :=
  if (status =? StatusCode.REQUEST_TIMEOUT) || (status =? StatusCode.GATEWAY_TIMEOUT) then
    SynchronizationFailureCategory.NetworkTimeout
  else if (status =? StatusCode.TOO_MANY_REQUESTS) || (status =? StatusCode.BAD_GATEWAY)
          || (status =? StatusCode.SERVICE_UNAVAILABLE) then
    SynchronizationFailureCategory.BackendTemporarilyUnavailable
  else if status =? StatusCode.CONFLICT then SynchronizationFailureCategory.BatchIdentityConflict
  else if status =? StatusCode.PAYLOAD_TOO_LARGE then
    SynchronizationFailureCategory.PayloadTooLarge
  else if StatusCode.is_server_error status then
    SynchronizationFailureCategory.BackendTemporarilyUnavailable
  else SynchronizationFailureCategory.BackendValidationFailure.

(** [value.split(';').next()]. *)
Fixpoint before_semicolon (value : Str) : Str :=
  match value with
  | [] => []
  | c :: value' => if c =? 59 then [] else c :: before_semicolon value'
  end.

(** [url::Url] and the client builder. *)
Class UrlLibrary := {
  Url : Type;
  url_parse : Str -> option Url;
  url_scheme : Url -> Str;
  url_username : Url -> Str;
  url_password : Url -> option Str;
  url_host_str : Url -> option Str;
  url_join : Url -> Str -> option Url
}.

(** The loop over the chunks of a response; [body] is what it collected. *)
Fixpoint read_bounded_body (maximum_bytes : Z) (body : list Z)
    (chunks : list (Result ReqwestError (list Z))) : Result HCE.t (list Z) :=
  match chunks with
  | [] => Ok body
  | Err source :: _ => Err (HCE.ResponseRead (response_failure_category source) source)
  | Ok chunk :: chunks' =>
      match usize_checked_add (Z.of_nat (length body)) (Z.of_nat (length chunk)) with
      | None => Err (HCE.ResponseTooLarge maximum_bytes usize_max)
      | Some total_bytes =>
          if maximum_bytes <? total_bytes then
            Err (HCE.ResponseTooLarge maximum_bytes total_bytes)
          else read_bounded_body maximum_bytes (body ++ chunk) chunks'
      end
  end.

Module ApiErrorEnvelope.

Record t := mk { service : Str; category : SynchronizationFailureCategory.t }.

End ApiErrorEnvelope.

Definition api_error_envelope_format : Serde ApiErrorEnvelope.t :=
  struct_serde [lit "service"; lit "category"]
    (fun self => [serialize (Serde := serde_string) (ApiErrorEnvelope.service self);
                  serialize (ApiErrorEnvelope.category self)])
    (fun fields =>
       match fields with
       | [service; category] =>
           service ← required (H := serde_string) service;
           category ← required category;
           Some (ApiErrorEnvelope.mk service category)
       | _ => None
       end).
#[global] Existing Instance api_error_envelope_format.

Module SynchronizationHttpClient.

Section construction.
Context `{UrlLibrary}.

Record t := mk {
  endpoint : Url;
  maximum_acknowledgement_bytes : Z
}.

(** [Duration] and [Client::builder] by what is asked of them. *)
Definition new (base_url : Str) (request_timeout_is_zero client_builds : bool) : Result HCE.t t :=
  if request_timeout_is_zero then Err HCE.InvalidTimeout
  else
    base_url ← ok_or (url_parse base_url) HCE.InvalidEndpoint;
    let valid_scheme :=
      bool_decide (url_scheme base_url = lit "http" \/ url_scheme base_url = lit "https") in
    let contains_credentials :=
      negb (bool_decide (url_username base_url = []))
      || bool_decide (is_Some (url_password base_url)) in
    if negb valid_scheme || bool_decide (url_host_str base_url = None) || contains_credentials then
      Err HCE.InvalidEndpoint
    else
      endpoint ← ok_or (url_join base_url SYNCHRONIZATION_BATCH_ENDPOINT) HCE.InvalidEndpoint;
      if client_builds then Ok (mk endpoint MAX_SYNCHRONIZATION_ACKNOWLEDGEMENT_BYTES)
      else Err HCE.ClientConfiguration.

End construction.

Section submission.
Context `{UrlLibrary} `{HttpLibrary} `{!WireJson} `{UuidLibrary} `{JsonLibrary}.

Definition has_json_content_type (headers : HeaderMap) : bool :=
  match header_get headers CONTENT_TYPE with
  | None => false
  | Some value =>
      match header_to_str value with
      | None => false
      | Some value => eq_ignore_ascii_case (trim (before_semicolon value)) JSON_MEDIA_TYPE
      end
  end.

Definition decode_api_error_category (body : list Z) : option SynchronizationFailureCategory.t :=
  envelope ← result_ok (from_slice body);
  if decide (ApiErrorEnvelope.service envelope <> TRANSITGUARD_API_SERVICE) then None
  else Some (ApiErrorEnvelope.category envelope).

(** The headers of the request builder. *)
Definition request_header_list (request : SBR.t) : list (Str * Str) :=
  [(ACCEPT, JSON_MEDIA_TYPE); (CONTENT_TYPE, JSON_MEDIA_TYPE);
   (IDEMPOTENCY_KEY_HEADER, identifier_to_string (SBR.batch_id request));
   (PROTOCOL_VERSION_HEADER,
    dec_u64 (DeviceProtocolVersion.value (SBR.protocol_version request)))].

Context {W : Type}.

(** [send] posts to the endpoint. *)
Definition submit (self : t) (send : Url -> HttpRequest -> Mut W ReqwestError HttpResponse)
    (request : SBR.t) : Mut W HCE.t SBA.t :=
  body ← lift (map_err (fun _ => HCE.RequestEncoding) (to_vec request));
  if MAX_SYNCHRONIZATION_REQUEST_BYTES <? Z.of_nat (length body) then
    fail (HCE.RequestTooLarge MAX_SYNCHRONIZATION_REQUEST_BYTES (Z.of_nat (length body)))
  else
    response ← zoom id (fun w _ => w)
      (fun source => HCE.Request (request_failure_category source) source)
      (send (endpoint self)
         (MkHttpRequest (header_map_of (request_header_list request)) body));
    let status := response_status response in
    let response_is_json := has_json_content_type (response_headers response) in
    response_body ← lift (read_bounded_body (maximum_acknowledgement_bytes self) []
                            (response_chunks response));
    if decide (status <> StatusCode.OK) then
      let category := default (fallback_status_category status)
                        (decode_api_error_category response_body) in
      fail (HCE.HttpStatus status category)
    else if negb response_is_json then fail HCE.UnexpectedContentType
    else
      acknowledgement ← lift (map_err (fun _ => HCE.ResponseDecode)
                               (from_slice response_body));
      _ ← lift (map_err HCE.InvalidAcknowledgement
                  (SBA.validate_against_request acknowledgement request));
      mret acknowledgement.

End submission.
End SynchronizationHttpClient.

Module HttpClient := SynchronizationHttpClient.

(** ** What the reader's HTTP client does with a request and a response

    A submission sends at most one request, the encoding of the batch, and
    its result is a function of the response. *)

Section client.
Context `{UrlLibrary} `{HttpLibrary} `{!WireJson} `{UuidLibrary} `{JsonLibrary} {W : Type}.
Implicit Types (client : HttpClient.t) (request : SBR.t) (response : HttpResponse).

(** The result of a response. *)
Definition read_answer client request response : Result HCE.t SBA.t :=
  bytes ← read_bounded_body (HttpClient.maximum_acknowledgement_bytes client) []
            (response_chunks response);
  if decide (response_status response <> StatusCode.OK) then
    Err (HCE.HttpStatus (response_status response)
           (default (fallback_status_category (response_status response))
              (HttpClient.decode_api_error_category bytes)))
  else if negb (HttpClient.has_json_content_type (response_headers response)) then
    Err HCE.UnexpectedContentType
  else
    acknowledgement ← map_err (fun _ => HCE.ResponseDecode) (from_slice bytes);
    _ ← map_err HCE.InvalidAcknowledgement (SBA.validate_against_request acknowledgement request);
    Ok acknowledgement.

(** What is posted. *)
Definition http_request request (bytes : list Z) : HttpRequest :=
  MkHttpRequest (header_map_of (HttpClient.request_header_list request)) bytes.

Lemma submit_equation client (send : Url -> HttpRequest -> Mut W ReqwestError HttpResponse) request w :
  HttpClient.submit client send request w =
  match to_vec request with
  | Err _ => (w, Err HCE.RequestEncoding)
  | Ok bytes =>
      if MAX_SYNCHRONIZATION_REQUEST_BYTES <? Z.of_nat (length bytes) then
        (w, Err (HCE.RequestTooLarge MAX_SYNCHRONIZATION_REQUEST_BYTES (Z.of_nat (length bytes))))
      else
        match send (HttpClient.endpoint client) (http_request request bytes) w with
        | (w', Err source) => (w', Err (HCE.Request (request_failure_category source) source))
        | (w', Ok response) => (w', read_answer client request response)
        end
  end.
Proof.
  unfold HttpClient.submit, read_answer, mbind, Mut_bind, lift, zoom, fail, mret, Mut_ret.
  destruct (to_vec request) as [bytes|]; cbn [map_err]; [|done].
  destruct (MAX_SYNCHRONIZATION_REQUEST_BYTES <? _); [done|]. unfold http_request.
  unfold id. destruct (send _ _ w) as [w' [response|source]]; cbn [map_err]; [|done].
  destruct (read_bounded_body _ _ _) as [body|]; cbn [map_err Result_bind]; [|done].
  destruct (decide (response_status response <> StatusCode.OK)); [done|].
  destruct (negb _); [done|].
  destruct (from_slice body); cbn [map_err Result_bind]; [|done].
  by destruct (SBA.validate_against_request _ _).
Qed.

(** An acknowledgement came with status 200 and answers the request. *)
Lemma read_answer_Ok client request response a :
  read_answer client request response = Ok a ->
  response_status response = StatusCode.OK /\ SBA.validate_against_request a request = Ok tt.
Proof.
  unfold read_answer. intros (bytes & _ & Ha)%Result_bind_Ok. case_decide as Hs; [done|].
  split; [by destruct (decide (response_status response = StatusCode.OK))|].
  destruct (negb _); [done|]. apply Result_bind_Ok in Ha as (a' & _ & Ha).
  apply Result_bind_Ok in Ha as ([] & Hv & [= ->]). by apply map_err_Ok in Hv.
Qed.

(** ** The body within its bound *)

(** The body is read exactly when no chunk fails and all of them together are
    within the bound: then it is all of them. *)
Lemma read_bounded_body_Ok maximum body chunks bytes :
  0 <= maximum <= usize_max -> Z.of_nat (length body) <= maximum ->
  read_bounded_body maximum body chunks = Ok bytes <->
  exists parts, chunks = Ok <$> parts /\ bytes = body ++ concat parts
    /\ Z.of_nat (length bytes) <= maximum.
Proof.
  intros Hmax. revert body. induction chunks as [|[chunk|source] chunks IH]; intros body Hb;
    cbn [read_bounded_body].
  - split.
    + intros [= <-]. exists []. cbn. by rewrite app_nil_r.
    + intros ([|] & [=] & -> & _). cbn. by rewrite app_nil_r.
  - assert (forall part parts, Ok chunk :: chunks = Ok <$> part :: parts ->
      chunk = part /\ chunks = Ok <$> parts) as Hcons by (intros ? ? [=]; done).
    destruct (Z.le_gt_cases (Z.of_nat (length body) + Z.of_nat (length chunk)) maximum) as [Hl|Hl].
    + unfold usize_checked_add. rewrite (proj2 (Z.leb_le _ _)) by lia.
      rewrite (proj2 (Z.ltb_ge _ _)) by lia. rewrite IH by (rewrite length_app; lia). split.
      * intros (parts & -> & -> & Hn). exists (chunk :: parts). cbn. by rewrite (assoc (++)).
      * intros ([|part parts] & Heq & -> & Hn); [done|]. apply Hcons in Heq as [-> ->].
        exists parts. cbn in Hn |- *. by rewrite <- (assoc (++)).
    + assert (forall r : Result HCE.t (list Z), r = Err (HCE.ResponseTooLarge maximum usize_max)
        \/ (exists n, r = Err (HCE.ResponseTooLarge maximum n)) -> r <> Ok bytes) as Hne
        by (intros r [->|[n ->]]; done).
      split.
      * unfold usize_checked_add. destruct (_ <=? usize_max); [|done].
        by rewrite (proj2 (Z.ltb_lt _ _)) by lia.
      * intros ([|part parts] & Heq & -> & Hn); [done|]. apply Hcons in Heq as [-> _].
        cbn in Hn. rewrite !length_app in Hn. lia.
  - split; [done|]. by intros ([|] & [=] & _).
Qed.

(** Why the loop over the chunks stops early. *)
Inductive body_refused (maximum : Z) (next : nat -> Result ReqwestError (list Z)) : HCE.t -> Prop :=
| refused_failure i source :
    next i = Err source ->
    body_refused maximum next (HCE.ResponseRead (response_failure_category source) source)
| refused_length actual :
    maximum < actual <= usize_max ->
    body_refused maximum next (HCE.ResponseTooLarge maximum actual)
| refused_overflow :
    body_refused maximum next (HCE.ResponseTooLarge maximum usize_max).

(** From [body] on, as long as every chunk has a byte. *)
Lemma read_bounded_body_stops maximum next (room : nat) body k :
  (forall i, next i <> Ok []) -> Z.of_nat (length body) + Z.of_nat room = maximum ->
  exists n e, (n <= S room)%nat /\ body_refused maximum next e
    /\ forall more, read_bounded_body maximum body ((next <$> seq k n) ++ more) = Err e.
Proof.
  intros Hnext. revert body k. induction room as [room IH] using lt_wf_ind. intros body k Hroom.
  destruct (next k) as [chunk|source] eqn:Hk.
  2: { exists 1%nat, (HCE.ResponseRead (response_failure_category source) source).
       split; [lia|]. split; [by eapply refused_failure|]. intros more. cbn. by rewrite Hk. }
  assert (length chunk <> 0%nat) as Hchunk by (destruct chunk; [by destruct (Hnext k)|done]).
  destruct (usize_checked_add (Z.of_nat (length body)) (Z.of_nat (length chunk))) as [total|] eqn:Htotal.
  2: { exists 1%nat, (HCE.ResponseTooLarge maximum usize_max). split; [lia|].
       split; [apply refused_overflow|]. intros more. cbn. by rewrite Hk, Htotal. }
  pose proof Htotal as Hsum. unfold usize_checked_add in Hsum.
  destruct (Z.leb_spec (Z.of_nat (length body) + Z.of_nat (length chunk)) usize_max); [|done].
  injection Hsum as <-. destruct (Z.ltb_spec maximum (Z.of_nat (length body) + Z.of_nat (length chunk)))
    as [Hover|Hfits].
  - eexists 1%nat, (HCE.ResponseTooLarge maximum _). split; [lia|].
    split; [by apply refused_length|]. intros more. cbn. rewrite Hk, Htotal.
    by rewrite (proj2 (Z.ltb_lt _ _)).
  - destruct (IH (room - length chunk)%nat ltac:(lia) (body ++ chunk) (S k)) as (n & e & Hn & He & Hread).
    { rewrite length_app. lia. }
    exists (S n), e. split; [lia|]. split; [done|]. intros more. cbn [seq fmap list_fmap].
    cbn [app read_bounded_body]. rewrite Hk, Htotal, (proj2 (Z.ltb_ge _ _)) by lia. apply Hread.
Qed.

(** C7. No response keeps the client busy.  The loop that collects the body of
    a response, also one that never ends, stops: after at most one more chunk
    than the bound has bytes it has refused the response, whatever would
    follow, because a chunk failed or because the bound was passed; and it
    never holds more bytes than the bound.  Every chunk of [reqwest] has a
    byte. *)
Theorem endless_response_refused maximum next :
  0 <= maximum -> (forall i, next i <> Ok []) ->
  (exists n e, Z.of_nat n <= maximum + 1 /\ body_refused maximum next e
     /\ forall more, read_bounded_body maximum [] ((next <$> seq 0 n) ++ more) = Err e)
  /\ forall n body, maximum <= usize_max -> read_bounded_body maximum [] (next <$> seq 0 n) = Ok body ->
       Z.of_nat (length body) <= maximum.
Proof.
  intros Hmax Hnext. split.
  - destruct (read_bounded_body_stops maximum next (Z.to_nat maximum) [] 0 Hnext)
      as (n & e & Hn & He & Hread); [cbn; lia|].
    exists n, e. split; [lia|]. by split.
  - intros n body Husize Hbody. apply read_bounded_body_Ok in Hbody as (parts & _ & _ & Hl);
      [done|lia|cbn; lia].
Qed.

(** A server that sends one byte after the other, and never stops. *)
Lemma endless_response_refused_witness :
  exists n e, Z.of_nat n <= 4
    /\ forall more, read_bounded_body 3 [] (((fun _ => Ok [0]) <$> seq 0 n) ++ more) = Err e.
Proof.
  destruct (endless_response_refused 3 (fun _ => Ok [0])) as [(n & e & Hn & _ & Hread) _].
  - lia.
  - discriminate.
  - exists n, e. exact (conj Hn Hread).
Defined.

End client.
