(* ===== verification/ReaderSubmission.v ===== *)
(** * Submitting a batch from the reader
    (apps/reader-simulator/src/synchronization_submission.rs)

    The trait [SynchronizationTransport] is a class: an action on the world
    outside the reader.  The submission runs on the reader's database, its
    telemetry and that world.  A session of the reader ends with the
    submission, so dropping the future is a crash of the whole process, which
    the histories of calls cover. *)

From S2P Require Import Prelude Text DomainIdentifier DeviceProtocolValues.
From S2P Require Import DeviceProtocolSynchronization PersistenceSqlLogic PersistenceReaderStore.
From S2P Require Import PersistenceReaderQueue PersistenceReaderSync.
From S2P Require Import PersistenceReaderAcknowledgement PersistenceReaderApplication.
From S2P Require Import PersistenceReaderInvariant PersistenceReaderHistory.
From S2P Require Import PersistenceReaderRequest PersistenceReaderSettlement.
From S2P Require Import PersistenceReaderProgress Telemetry HttpMessages ReaderTransport.

Module SynchronizationTransportFailure.

Inductive t :=
| Http (category : SynchronizationFailureCategory.t) (source : HCE.t)
| Classified (category : SynchronizationFailureCategory.t).

Definition classified (category : SynchronizationFailureCategory.t) : t := Classified category.

Definition category (self : t) : SynchronizationFailureCategory.t :=
  match self with
  | Http category _ | Classified category => category
  end.

End SynchronizationTransportFailure.

Module STF := SynchronizationTransportFailure.

Class SynchronizationTransport (W : Type) :=
  transport_submit : SBR.t -> Mut W STF.t SBA.t.

(** [impl SynchronizationTransport for SynchronizationHttpClient]. *)
Definition http_transport `{UrlLibrary} `{HttpLibrary} `{!WireJson} `{UuidLibrary} `{JsonLibrary} {W}
    (client : HttpClient.t) (send : Url -> HttpRequest -> Mut W ReqwestError HttpResponse)
  : SynchronizationTransport W := fun request =>
  zoom id (fun w _ => w)
    (fun source => let category := HCE.failure_category source in STF.Http category source)
    (HttpClient.submit client send request).

Module SynchronizationFailureDisposition.

Inductive t := Retry | PermanentFailure | ManualReview.

#[global] Instance eq_dec : EqDecision t.
Proof. solve_decision. Defined.

End SynchronizationFailureDisposition.

Definition synchronization_failure_disposition (category : SynchronizationFailureCategory.t)
  : SynchronizationFailureDisposition.t :=
  match category with
  | SynchronizationFailureCategory.NetworkTimeout
  | SynchronizationFailureCategory.ConnectionFailure
  | SynchronizationFailureCategory.ResponseDecodeFailure
  | SynchronizationFailureCategory.BackendTemporarilyUnavailable =>
      SynchronizationFailureDisposition.Retry
  | SynchronizationFailureCategory.PayloadTooLarge
  | SynchronizationFailureCategory.UnsupportedProtocol
  | SynchronizationFailureCategory.BackendValidationFailure =>
      SynchronizationFailureDisposition.PermanentFailure
  | SynchronizationFailureCategory.ReaderNotRegistered
  | SynchronizationFailureCategory.ReaderNotOperational
  | SynchronizationFailureCategory.EnvironmentMismatch
  | SynchronizationFailureCategory.BatchIdentityConflict
  | SynchronizationFailureCategory.BatchRangeMismatch
  | SynchronizationFailureCategory.EntryOrderMismatch
  | SynchronizationFailureCategory.TransactionIdentityConflict
  | SynchronizationFailureCategory.ManualReviewRequired =>
      SynchronizationFailureDisposition.ManualReview
  end.

Module SynchronizationSubmissionResult.

Inductive t :=
| Applied (acknowledgement_replayed : bool)
    (application : SynchronizationAcknowledgementApplication.t)
| RetryScheduled (failure : STF.t) (batch : SynchronizationBatch.t)
| PermanentFailure (failure : STF.t) (batch : SynchronizationBatch.t)
| ManualReview (failure : STF.t) (batch : SynchronizationBatch.t).

End SynchronizationSubmissionResult.

Module SSR := SynchronizationSubmissionResult.

Module SynchronizationSubmissionError.

Inductive t :=
| Request (e : ReaderSynchronizationRequestError.t)
| Acknowledgement (e : ReaderProtocolAcknowledgementError.t)
| Application (e : ReaderAcknowledgementApplicationError.t)
| RetryState (e : ReaderSynchronizationStateError.t)
| FinalState (e : ReaderSynchronizationFailureError.t).

End SynchronizationSubmissionError.

Module SSUE := SynchronizationSubmissionError.

(** What a submission runs on. *)
Record Session (W : Type) := MkSession {
  session_pool : ReaderDb;
  session_telemetry : Inner.t;
  session_world : W
}.

Arguments MkSession {W} session_pool session_telemetry session_world.
Arguments session_pool {W} _.
Arguments session_telemetry {W} _.
Arguments session_world {W} _.

Section submission.
Context {W : Type} {transport : SynchronizationTransport W} `{JsonLibrary} `{UuidLibrary}.

Definition on_pool {F A} (convert : F -> SSUE.t) (m : Mut ReaderDb F A)
  : Mut (Session W) SSUE.t A :=
  zoom session_pool (fun db s => MkSession db (session_telemetry s) (session_world s)) convert m.

Definition on_telemetry (steps : list Counter) : Mut (Session W) SSUE.t unit :=
  modify (fun s => MkSession (session_pool s)
    (SynchronizationTelemetry.record steps (session_telemetry s)) (session_world s)).

(** [transport.submit(&request).await]: the result is a value. *)
Definition on_transport (request : SBR.t)
  : Mut (Session W) SSUE.t (Result STF.t SBA.t) := fun s =>
  let '(w, r) := transport_submit request (session_world s) in
  (MkSession (session_pool s) (session_telemetry s) w, Ok r).

Definition submit_in_flight_synchronization_batch_with_telemetry (reader_id : ReaderId)
    (batch_id : SynchronizationBatchId) (completed_at retry_at : Z)
  : Mut (Session W) SSUE.t SSR.t :=
  request ← on_pool SSUE.Request
              (ReaderSyncRequest.load_synchronization_batch_request reader_id batch_id);
  _ ← on_telemetry SynchronizationTelemetry.record_request_started;
  submitted ← on_transport request;
  match submitted with
  | Ok acknowledgement =>
      stored ← on_pool SSUE.Acknowledgement
        (ReaderProtocolAcknowledgement.store_protocol_synchronization_acknowledgement
           acknowledgement);
      _ ← on_telemetry (SynchronizationTelemetry.record_acknowledgement acknowledgement);
      let applied_at := Z.max completed_at (SBA.received_at_unix_milliseconds acknowledgement) in
      application ← on_pool SSUE.Application
        (ReaderAcknowledgementApplication.apply_synchronization_acknowledgement reader_id batch_id
           applied_at);
      mret (SSR.Applied (StoredSynchronizationAcknowledgement.replayed stored) application)
  | Err failure =>
      let category := STF.category failure in
      let failure_category := SynchronizationFailureCategory.as_str category in
      _ ← on_telemetry (SynchronizationTelemetry.record_request_failure category);
      match synchronization_failure_disposition category with
      | SynchronizationFailureDisposition.Retry =>
          batch ← on_pool SSUE.RetryState
            (ReaderSyncState.record_synchronization_retryable_failure reader_id batch_id
               failure_category completed_at retry_at);
          mret (SSR.RetryScheduled failure batch)
      | SynchronizationFailureDisposition.PermanentFailure =>
          batch ← on_pool SSUE.FinalState
            (ReaderSyncFailure.record_synchronization_permanent_failure reader_id batch_id
               failure_category completed_at);
          mret (SSR.PermanentFailure failure batch)
      | SynchronizationFailureDisposition.ManualReview =>
          batch ← on_pool SSUE.FinalState
            (ReaderSyncFailure.record_synchronization_manual_review reader_id batch_id
               failure_category completed_at);
          mret (SSR.ManualReview failure batch)
      end
  end.

(** With a recorder of its own, which is dropped. *)
Definition submit_in_flight_synchronization_batch (reader_id : ReaderId)
    (batch_id : SynchronizationBatchId) (completed_at retry_at : Z)
  : Mut (Session W) SSUE.t SSR.t := fun s =>
  let '(s', r) :=
    submit_in_flight_synchronization_batch_with_telemetry reader_id batch_id completed_at retry_at
      (MkSession (session_pool s) Inner.default (session_world s)) in
  (MkSession (session_pool s') (session_telemetry s) (session_world s'), r).

End submission.

(** ** What a submission does to the reader

    A submission is a short history of calls of the reader's store around one
    use of the transport. *)

Section logic.
Context {W : Type} {transport : SynchronizationTransport W}.
Context `{JsonLibrary} {laws : JsonLaws} `{UuidLibrary}.
Implicit Types (t : ReaderTables) (w : W).

(** The calls that follow the transport's answer: the storage of an
    acknowledgement and its application, or the record of a failure. *)
Inductive aftermath (id : ReaderId) (bid : SynchronizationBatchId)
  : Result STF.t SBA.t -> list (ReaderCall * list (option Fault)) -> Prop :=
| aftermath_stored a script :
    aftermath id bid (Ok a) [(StoreProtocolSynchronizationAcknowledgement a, script)]
| aftermath_applied a script now script' :
    aftermath id bid (Ok a)
      [(StoreProtocolSynchronizationAcknowledgement a, script);
       (ApplySynchronizationAcknowledgement id bid now, script')]
| aftermath_retry f category now retry script :
    aftermath id bid (Err f)
      [(RecordSynchronizationRetryableFailure id bid category now retry, script)]
| aftermath_permanent f category now script :
    aftermath id bid (Err f) [(RecordSynchronizationPermanentFailure id bid category now, script)]
| aftermath_review f category now script :
    aftermath id bid (Err f) [(RecordSynchronizationManualReview id bid category now, script)].

(** What a call leaves is the history of that call. *)
Lemma history_of_call {E A} (m : Mut ReaderDb E A) call t script db r :
  perform call = reported m -> m (MkDb t script) = (db, r) ->
  tables db = reader_history t [(call, script)].
Proof. intros Hc Hm. unfold reader_history. cbn [foldl]. rewrite Hc. unfold reported. by rewrite Hm. Qed.

Lemma reader_history_app t calls calls' :
  reader_history t (calls ++ calls') = reader_history (reader_history t calls) calls'.
Proof. apply foldl_app. Qed.

(** A submission that gets to the transport, and what it leaves. *)
Definition submitted_with id bid t (script : list (option Fault)) w (t' : ReaderTables) (w' : W)
  : Prop :=
  exists request submitted calls,
    outcome (ReaderSyncRequest.load_synchronization_batch_request id bid) (MkDb t script) = Ok request
    /\ transport_submit request w = (w', submitted)
    /\ aftermath id bid submitted calls /\ t' = reader_history t calls.

Lemma reader_submission_cases id bid completed retry t script tel w s' r :
  submit_in_flight_synchronization_batch_with_telemetry id bid completed retry
    (MkSession (MkDb t script) tel w) = (s', r) ->
  (tables (session_pool s') = t /\ session_world s' = w)
  \/ submitted_with id bid t script w (tables (session_pool s')) (session_world s').
Proof.
  unfold submit_in_flight_synchronization_batch_with_telemetry, mbind at 1, Mut_bind at 1.
  unfold on_pool at 1, zoom at 1. cbn [session_pool session_telemetry session_world].
  pose proof (reads_tables _ t script (load_synchronization_batch_request_reads id bid)) as Hreads.
  destruct (ReaderSyncRequest.load_synchronization_batch_request id bid (MkDb t script))
    as [[t0 script1] [request|e]] eqn:Hload; cbn in Hreads; subst t0; cbn [map_err].
  2: { intros [= <- <-]. by left. }
  unfold on_telemetry, on_transport, on_pool, zoom, modify, mbind, Mut_bind, mret, Mut_ret. cbn.
  destruct (transport_submit request w) as [w' submitted] eqn:Ht.
  assert (outcome (ReaderSyncRequest.load_synchronization_batch_request id bid) (MkDb t script)
    = Ok request) as Hout by (unfold outcome; by rewrite Hload).
  assert (forall t' calls, aftermath id bid submitted calls -> t' = reader_history t calls ->
    submitted_with id bid t script w t' w') as Hsub by (intros; by exists request, submitted, calls).
  clear Hload Hout Ht. destruct submitted as [a|f]; cbn.
  - destruct (ReaderProtocolAcknowledgement.store_protocol_synchronization_acknowledgement a
      (MkDb t script1)) as [[t2 script2] r2] eqn:Hs.
    apply (history_of_call _ (StoreProtocolSynchronizationAcknowledgement a)) in Hs; [|done].
    cbn [tables] in Hs. destruct r2 as [stored|e]; cbn.
    2: { intros [= <- <-]. right. by eapply Hsub; [apply aftermath_stored|]. }
    destruct (ReaderAcknowledgementApplication.apply_synchronization_acknowledgement id bid _
      (MkDb t2 script2)) as [[t3 script3] r3] eqn:Ha.
    eapply (history_of_call _ (ApplySynchronizationAcknowledgement id bid _)) in Ha; [|done].
    cbn [tables] in Ha. rewrite Hs, <- reader_history_app in Ha. cbn [app] in Ha.
    destruct r3 as [application|e]; cbn; intros [= <- <-]; right;
      (eapply Hsub; [apply aftermath_applied|exact Ha]).
  - destruct (synchronization_failure_disposition (STF.category f)); cbn.
    + destruct (ReaderSyncState.record_synchronization_retryable_failure id bid _ completed retry
        (MkDb t script1)) as [[t2 script2] r2] eqn:Hs.
      eapply (history_of_call _ (RecordSynchronizationRetryableFailure id bid _ _ _)) in Hs; [|done].
      cbn [tables] in Hs. destruct r2; cbn; intros [= <- <-]; right; (eapply Hsub; [apply aftermath_retry|exact Hs]).
    + destruct (ReaderSyncFailure.record_synchronization_permanent_failure id bid _ completed
        (MkDb t script1)) as [[t2 script2] r2] eqn:Hs.
      eapply (history_of_call _ (RecordSynchronizationPermanentFailure id bid _ _)) in Hs; [|done].
      cbn [tables] in Hs. destruct r2; cbn; intros [= <- <-]; right; (eapply Hsub; [apply aftermath_permanent|exact Hs]).
    + destruct (ReaderSyncFailure.record_synchronization_manual_review id bid _ completed
        (MkDb t script1)) as [[t2 script2] r2] eqn:Hs.
      eapply (history_of_call _ (RecordSynchronizationManualReview id bid _ _)) in Hs; [|done].
      cbn [tables] in Hs. destruct r2; cbn; intros [= <- <-]; right; (eapply Hsub; [apply aftermath_review|exact Hs]).
Qed.

(** An acknowledgement that arrives is stored and applied: the submission
    settles its batch. *)
Lemma submission_settles id bid completed retry t tel w w' request a payload :
  store_ok t ->
  let now := Z.max completed (SBA.received_at_unix_milliseconds a) in
  waiting id bid t request now -> acknowledging request a payload ->
  transport_submit request w = (w', Ok a) ->
  exists t' tel' report,
    submit_in_flight_synchronization_batch_with_telemetry id bid completed retry
      (MkSession (MkDb t []) tel w) = (MkSession (MkDb t' []) tel' w', Ok (SSR.Applied false report))
    /\ SynchronizationAcknowledgementApplication.applied_now report = true
    /\ settled_by bid a now t t'.
Proof.
  intros Hok now Hwait Hack Htr.
  destruct (waiting_settles _ _ _ _ _ _ _ Hok Hwait Hack (Z.le_max_r _ _))
    as (t1 & t2 & report & Hstore & Happly & Hnow & Hsettled).
  exists t2. do 2 eexists. split; [|by split].
  pose proof (wt_loaded _ _ _ _ _ Hwait) as Hload.
  pose proof (reads_tables _ t [] (load_synchronization_batch_request_reads id bid)) as Hreads.
  pose proof (load_request_transparent id bid t []) as Htrans. unfold outcome in Hload.
  destruct (ReaderSyncRequest.load_synchronization_batch_request id bid (MkDb t [])) as [db o] eqn:Hrun.
  cbn in Hload, Hreads. subst o. specialize (Htrans _ _ eq_refl). rewrite Hreads in Htrans.
  injection Htrans as ->.
  unfold submit_in_flight_synchronization_batch_with_telemetry, on_pool, on_telemetry, on_transport, zoom,
    modify, mbind, Mut_bind, mret, Mut_ret. cbn [session_pool session_telemetry session_world].
  rewrite Hrun. cbn [map_err session_pool session_telemetry session_world]. rewrite Htr.
  cbn [session_pool session_telemetry session_world].
  rewrite Hstore. cbn [map_err session_pool session_telemetry session_world].
  fold now. rewrite Happly. reflexivity.
Qed.

End logic.
