(* ===== verification/System.v ===== *)
(** * A reader and the backend, over a network that loses messages

    The reader's store, the backend process and the network between them as
    one transition system.  A submission of the reader runs its own code on
    its own tables, and its HTTP client against the backend's handlers; the
    network decides what becomes of the request and of the reply.  Between
    submissions the reader makes any other call of its store, and the backend
    serves whatever else reaches it: other readers, a request that a reader
    has given up on, the same request twice. *)

From S2P Require Import Prelude Text DomainIdentifier DomainEquipment.
From S2P Require Import DeviceProtocolValues DeviceProtocolSynchronization DeviceProtocolFingerprint.
From S2P Require Import PersistenceReaderStore PersistenceReaderQueue PersistenceReaderSync.
From S2P Require Import PersistenceReaderAcknowledgement PersistenceReaderApplication.
From S2P Require Import PersistenceReaderInvariant PersistenceReaderHistory PersistenceReaderSettlement.
From S2P Require Import PersistenceIngestTables PersistenceIngestRecord PersistenceIngestStore.
From S2P Require Import PersistenceIngestLogic PersistenceIngestHistory ApiSynchronizationService ApiServiceCorrectness.
From S2P Require Import MessageFormats Telemetry HttpMessages ApiHandlers ReaderTransport ReaderSubmission.

(** ** The network *)

(** The reply: lost, or the body in chunks of the given sizes and then either
    the rest of it or an error. *)
Inductive Reply :=
| ReplyLost (error : ReqwestError)
| Replied (sizes : list nat) (broken : option ReqwestError).

(** What becomes of one exchange.  A request that arrives finds the backend
    with a clock and a database that fails as scripted. *)
Inductive Journey :=
| Undelivered (error : ReqwestError)
| Delivered (elapsed : option Z) (script : list (option Fault)) (reply : Reply).

Fixpoint chunks_of (sizes : list nat) (broken : option ReqwestError) (bytes : list Z)
  : list (Result ReqwestError (list Z)) :=
  match sizes with
  | [] => match broken with
          | Some error => [Err error]
          | None => [Ok bytes]
          end
  | n :: sizes' => Ok (take n bytes) :: chunks_of sizes' broken (drop n bytes)
  end.

Section system.
Context `{JsonLibrary} `{!PostgresJson}.
Context `{UuidLibrary} `{Sha256Library} `{HttpLibrary} `{!WireJson} `{UrlLibrary}.

(** ** The backend as the reader's client sees it *)

(** The process, and every request that its extractor ever decoded. *)
Record Backend := MkBackend {
  api : ApiState.t;
  received : list SBR.t
}.

Definition backend_tables (b : Backend) : IngestTables :=
  tables (ApiState.synchronization_ingest_repository (api b)).

(** One request, while the database fails as scripted. *)
Definition backend_serve (request : HttpRequest) (elapsed : option Z)
    (script : list (option Fault)) (b : Backend) : Backend * Response :=
  let state := ApiState.set_repository (MkDb (backend_tables b) script) (api b) in
  let '(state', response) := serve request elapsed state in
  (MkBackend state' (received b ++ match extracted request with
                                   | Ok r => [r]
                                   | Err _ => []
                                   end), response).

Definition http_reply (response : Response) (sizes : list nat) (broken : option ReqwestError)
  : HttpResponse :=
  let '(status, media_type, bytes) := into_response response in
  MkHttpResponse status (header_map_of [(CONTENT_TYPE, media_type)]) (chunks_of sizes broken bytes).

(** What [send] does on a journey. *)
Definition network_send (journey : Journey) (_ : Url) (request : HttpRequest)
  : Mut Backend ReqwestError HttpResponse := fun b =>
  match journey with
  | Undelivered error => (b, Err error)
  | Delivered elapsed script reply =>
      let '(b', response) := backend_serve request elapsed script b in
      match reply with
      | ReplyLost error => (b', Err error)
      | Replied sizes broken => (b', Ok (http_reply response sizes broken))
      end
  end.

(** ** Events *)

Record System := MkSystem {
  reader : ReaderTables;
  backend : Backend
}.

Inductive SystemEvent :=
(** A call of the reader's store. *)
| ReaderEvent (call : ReaderCall) (script : list (option Fault))
(** A submission by the reader's client. *)
| SubmitEvent (client : HttpClient.t) (reader_id : ReaderId) (batch_id : SynchronizationBatchId)
    (completed_at retry_at : Z) (script : list (option Fault)) (journey : Journey)
(** Any other request that arrives at the backend. *)
| ServeEvent (request : HttpRequest) (elapsed : option Z) (script : list (option Fault))
(** The back office registers a reader or moves it. *)
| StatusEvent (id : ReaderId) (status : ReaderEquipmentStatus.t)
(** The backend's process starts anew on its database. *)
| RestartEvent.

Definition submission (client : HttpClient.t) (id : ReaderId) (bid : SynchronizationBatchId)
    (completed_at retry_at : Z) (script : list (option Fault)) (journey : Journey) (s : System)
  : Session Backend * Result SSUE.t SSR.t :=
  submit_in_flight_synchronization_batch
    (transport := http_transport client (network_send journey)) id bid completed_at retry_at
    (MkSession (MkDb (reader s) script) Inner.default (backend s)).

Definition with_api (f : ApiState.t -> ApiState.t) (b : Backend) : Backend :=
  MkBackend (f (api b)) (received b).

Definition set_status (id : ReaderId) (status : ReaderEquipmentStatus.t) (state : ApiState.t)
  : ApiState.t :=
  ApiState.set_repository
    (ingest_perform (SetReaderStatus id status)
       (MkDb (tables (ApiState.synchronization_ingest_repository state)) [])) state.

Definition system_step (s : System) (event : SystemEvent) : System :=
  match event with
  | ReaderEvent call script =>
      MkSystem (tables (perform call (MkDb (reader s) script)).1) (backend s)
  | SubmitEvent client id bid completed_at retry_at script journey =>
      let session := (submission client id bid completed_at retry_at script journey s).1 in
      MkSystem (tables (session_pool session)) (session_world session)
  | ServeEvent request elapsed script =>
      MkSystem (reader s) (backend_serve request elapsed script (backend s)).1
  | StatusEvent id status => MkSystem (reader s) (with_api (set_status id status) (backend s))
  | RestartEvent =>
      MkSystem (reader s) (with_api (ApiState.set_telemetry Inner.default) (backend s))
  end.

Definition initial_system (service : Service.t) : System :=
  MkSystem empty_tables
    (MkBackend (ApiState.mk (MkDb empty_ingest_tables []) service Inner.default) []).

Definition system_run (service : Service.t) (events : list SystemEvent) : System :=
  foldl system_step (initial_system service) events.

(** The reader stores acknowledgements when a submission got one, and at no
    other time. *)
Definition authentic (event : SystemEvent) : bool :=
  match event with
  | ReaderEvent call _ => negb (stores_acknowledgement call)
  | _ => true
  end.

(** The requests are well formed, and SHA-256 tells them apart. *)
Definition distinct_requests (requests : list SBR.t) : Prop :=
  forall r, r ∈ requests -> request_wf r /\ forall r', r' ∈ requests -> ~ collides r' r.

(** The queued envelopes are read back as they are: serde_json parses what it
    has printed of them to the same value.  It does so but for some fractional
    numbers, which it may read as a neighbour. *)
Definition stable_queue (t : ReaderTables) : Prop :=
  forall x r envelope, offline_transactions t !! x = Some r ->
    CanonicalTransactionEnvelope.from_json (OfflineTransactionRow.transaction_envelope_json r)
      = Ok envelope ->
    envelope_stable envelope.

(** ** What acknowledging a transaction promises *)

(** The backend's row of a queued transaction: the same identity, reader and
    sequence number, and the fingerprint of the envelope in the queue. *)
Definition durable (t : ReaderTables) (b : IngestTables) (id : FareTransactionId) : Prop :=
  exists r envelope row,
    offline_transactions t !! id = Some r
    /\ CanonicalTransactionEnvelope.from_json (OfflineTransactionRow.transaction_envelope_json r)
       = Ok envelope
    /\ ingest_transactions b !! id = Some row
    /\ IT.reader_id row = OfflineTransactionRow.reader_id r
    /\ IT.local_sequence_number row = OfflineTransactionRow.local_sequence_number r
    /\ IT.transaction_fingerprint row = SynchronizationPayloadFingerprint.to_string
         (SynchronizationPayloadFingerprint.for_transaction_envelope envelope).

End system.
