(* ===== verification/SystemCorrectness.v ===== *)
(** * What the reader takes for acknowledged, the backend holds

    The end-to-end safety of the synchronization: however the network, the two
    databases and the backend's process fail, a transaction leaves the
    reader's queue as acknowledged only if the backend has it, for good. *)

From stdpp Require Import sorting.
From S2P Require Import Prelude Text DomainIdentifier DomainTransaction DomainEquipment.
From S2P Require Import DeviceProtocolValues DeviceProtocolSynchronization DeviceProtocolFingerprint.
From S2P Require Import PersistenceReaderStore PersistenceReaderQueue PersistenceReaderSync.
From S2P Require Import PersistenceReaderAcknowledgement PersistenceReaderApplication.
From S2P Require Import PersistenceReaderInvariant PersistenceReaderHistory.
From S2P Require Import PersistenceReaderRequest PersistenceReaderSettlement.
From S2P Require Import PersistenceSqlLogic PersistenceIngestTables PersistenceIngestRecord.
From S2P Require Import PersistenceIngestStore PersistenceIngestLogic PersistenceIngestRefinement.
From S2P Require Import PersistenceIngestHistory ApiSynchronizationService ApiServiceCorrectness.
From S2P Require Import MessageFormats Telemetry HttpMessages ApiHandlers ReaderTransport.
From S2P Require Import ReaderSubmission System.

Section system.
Context `{JsonLibrary} {laws : JsonLaws} `{!PostgresJson}.
Context `{UuidLibrary} `{Sha256Library} `{HttpLibrary} `{!WireJson} `{UrlLibrary}.
Context {message_laws : MessageLaws} {uuid_laws : UuidLaws} {sha_laws : Sha256Laws}.
Context {wire_laws : WireLaws}.

(** ** The backend *)

(** A request that was received, at a time that fits its column. *)
Definition receipt (requests : list SBR.t) (r : SBR.t) (received_at : Z) : Prop :=
  r ∈ requests /\ in_i64 received_at.

(** Every batch comes from a request that was received, and what was received
    is valid. *)
Record backend_ok (b : Backend) : Prop := {
  bo_service : service_ok (receipt (received b)) (backend_tables b);
  bo_received : Forall (request_typed envelope_built) (received b)
}.

Lemma extracted_typed request r :
  extracted request = Ok r -> request_typed envelope_built r.
Proof using uuid_laws wire_laws. intros Hr%extractor_decodes. by eapply request_received. Qed.

Lemma distinct_valid requests r :
  Forall (request_typed envelope_built) requests -> distinct_requests requests ->
  r ∈ requests -> request_valid r.
Proof.
  intros Ht Hd Hr. rewrite Forall_forall in Ht. destruct (Ht _ Hr) as [(_ & Henv & _) _].
  split; [by apply Hd|exact Henv].
Qed.

(** What the backend has and has received stays. *)
Record backend_grows (b b' : Backend) : Prop := {
  bg_received : received b `prefix_of` received b';
  bg_tables : ingest_evolved (backend_tables b) (backend_tables b')
}.

#[local] Instance backend_grows_preorder : PreOrder backend_grows.
Proof.
  split; [by split|]. intros b1 b2 b3 [Hr1 Ht1] [Hr2 Ht2]. split; by etrans.
Qed.

Lemma service_ok_mono (P Q : SBR.t -> Z -> Prop) t :
  (forall r z, P r z -> Q r z) -> service_ok P t -> service_ok Q t.
Proof.
  intros HPQ [Hok Ho]. split; [done|]. intros id b Hb. eapply batch_origin_mono; [exact HPQ|done|eauto].
Qed.

Lemma current_unix_milliseconds_in elapsed z :
  current_unix_milliseconds elapsed = Some z -> in_i64 z.
Proof.
  unfold current_unix_milliseconds. intros (x & _ & Hx)%bind_Some.
  by apply i64_try_from_Some in Hx as [? ->].
Qed.

Lemma received_more b request :
  Forall (request_typed envelope_built) (received b) ->
  Forall (request_typed envelope_built)
    (received b ++ match extracted request with Ok r => [r] | Err _ => [] end).
Proof using uuid_laws wire_laws.
  intros Hb. apply Forall_app. split; [done|].
  destruct (extracted request) as [r|] eqn:Hr; [|constructor].
  constructor; [by eapply extracted_typed|constructor].
Qed.

Lemma backend_serve_kept request elapsed script b b' response :
  backend_ok b -> backend_serve request elapsed script b = (b', response) ->
  backend_ok b' /\ backend_grows b b'
  /\ forall r, extracted request = Ok r -> status response = StatusCode.OK ->
       r ∈ received b' /\ exists received_at a, in_i64 received_at /\
         answered (backend_tables b) r received_at (backend_tables b') a.
Proof using uuid_laws wire_laws.
  intros [Hok Hrec]. unfold backend_serve. pose proof (received_more b request Hrec) as Hrec'.
  destruct (serve request elapsed _) as [state' response'] eqn:Hs. intros [= <- <-].
  unfold serve in Hs. apply submission_cases in Hs.
  assert (forall more, service_ok (receipt (received b ++ more)) (backend_tables b)) as Hmore.
  { intros more. eapply service_ok_mono; [|exact Hok]. intros r z [Hr Hz]. split; [|done].
    apply elem_of_app. by left. }
  destruct Hs as [response category Hrep|r received_at db res response event Hp Hv Ht Hrun Hres Hrep].
  - split; [by split; [apply Hmore|]|]. split; [split; [by eexists|done]|]. intros r Hr Hst. exfalso.
    inversion Hrep. subst. done.
  - rewrite Hp in Hrec' |- *. cbn [ApiState.synchronization_service ApiState.set_repository
      ApiState.synchronization_ingest_repository] in Hrun.
    pose proof (Hmore [r]) as Hok'. apply current_unix_milliseconds_in in Ht.
    assert (receipt (received b ++ [r]) r received_at) as Hr
      by (split; [apply elem_of_app; right; by left|done]).
    destruct (process_kept _ _ _ _ _ _ _ _ Hok' Hr Hrun) as [Hkept Hev].
    split; [by split|]. split; [split; [by eexists|exact Hev]|].
    intros r' [= <-] Hst. split; [apply Hr|]. exists received_at.
    pose proof (process_cases _ _ _ _ _ _ _ (so_tables _ _ Hok) Hrun) as Hc.
    destruct res as [a|e]; [by exists a|]. exfalso. subst response.
    by destruct (service_error_response_shape e) as (? & _ & ?).
Qed.

(** A 200 means that the request is stored. *)
Lemma backend_serve_recorded request elapsed script b b' response r :
  backend_ok b -> backend_serve request elapsed script b = (b', response) ->
  extracted request = Ok r -> status response = StatusCode.OK -> distinct_requests (received b') ->
  request_recorded (backend_tables b') r.
Proof using message_laws uuid_laws sha_laws wire_laws.
  intros Hok Hs Hr Hst Hd.
  destruct (backend_serve_kept _ _ _ _ _ _ Hok Hs) as ([_ Hrec] & [Hpre _] & Hans).
  destruct (Hans _ Hr Hst) as (Hin & received_at & a & Ht & Ha).
  assert (service_ok (receipt (received b')) (backend_tables b)) as Hok'.
  { eapply service_ok_mono; [|apply Hok]. intros x z [Hx Hz]. split; [|done].
    eapply elem_of_prefix; [exact Hx|exact Hpre]. }
  eapply answered_recorded in Ha as [? _]; [done|exact Hok'|by eapply distinct_valid|done|].
  intros x z [Hx _]. split; [by eapply distinct_valid|by apply Hd].
Qed.

(** ** The request of a batch, and its rows in the queue *)

(** What a request is made of is in the form that is read back. *)
Lemma loaded_texts id bid t script request :
  stable_queue t ->
  outcome (ReaderSyncRequest.load_synchronization_batch_request id bid) (MkDb t script) = Ok request ->
  request_texts request.
Proof.
  intros Hstable Hload. assert (Forall (fun e => envelope_stable (SRE.transaction_envelope e))
    (SBR.entries request)) as Hentries.
  { apply Forall_forall. intros e He.
    destruct (request_entry_row _ _ _ _ _ _ Hload He) as (r & Hr & _ & _ & Henv & _).
    by eapply Hstable. }
  apply sequence_outcome_transparent in Hload; [|apply load_request_transparent].
  apply load_request_inv in Hload as (b & s & submitted & version & first & last & es & environment
    & software & _ & _ & _ & _ & _ & _ & _ & _ & Henv & Hsoft & Hnew).
  apply request_new_of in Hnew as ->. apply map_ok_Ok in Henv as (env & Henv & ->).
  apply map_ok_Ok in Hsoft as (soft & Hsoft & ->).
  apply validate_text_Ok in Henv as [_ Henv]. apply validate_text_Ok in Hsoft as [_ Hsoft].
  by split.
Qed.

Lemma stable_queue_before t t' : evolved t t' -> stable_queue t' -> stable_queue t.
Proof.
  intros Hev Hs x r envelope Hr. destruct (ev_transactions _ _ Hev _ _ Hr) as (r' & Hr' & [Hi _ _ _]).
  destruct Hi as (_ & _ & _ & _ & _ & _ & _ & Hi & _). rewrite <- Hi. by eapply Hs.
Qed.

Lemma recorded_durable id bid t script request a b x :
  outcome (ReaderSyncRequest.load_synchronization_batch_request id bid) (MkDb t script) = Ok request ->
  SBA.validate_against_request a request = Ok tt -> request_recorded b request ->
  acknowledges a x -> durable t b x.
Proof.
  intros Hload [_ Hans]%validate_against_request_Ok Hrec (m & Hm & <- & _).
  destruct (Forall2_in_l _ _ _ _ Hans Hm) as (e & He & Hid & _). rewrite Hid.
  destruct (request_entry_row _ _ _ _ _ _ Hload He) as (r & Hr & Hrd & Hseq & Henv & _).
  destruct (rr_entries _ _ Hrec _ He) as (row & Hrow & Hf1 & Hf2 & Hf3).
  exists r, (SRE.transaction_envelope e), row. split_and!; [done..|congruence|congruence|done].
Qed.

Lemma durable_kept t t' b b' x :
  evolved t t' -> ingest_evolved b b' -> durable t b x -> durable t' b' x.
Proof.
  intros Hev Hbev (r & envelope & row & Hr & Henv & Hrow & Hf1 & Hf2 & Hf3).
  destruct (ev_transactions _ _ Hev _ _ Hr) as (r' & Hr' & [Hi _ _ _]).
  destruct Hi as (_ & Hi1 & Hi2 & _ & _ & _ & _ & Hi3 & _).
  destruct (ie_transactions _ _ Hbev _ _ Hrow) as (row' & Hrow' & [(_ & Hg1 & Hg2 & Hg3 & _) _]).
  exists r', envelope, row'. rewrite Hi3. split_and!; [done..|congruence|congruence|congruence].
Qed.

(** ** One exchange *)

Lemma network_send_kept journey url request b b' res :
  backend_ok b -> network_send journey url request b = (b', res) ->
  backend_ok b' /\ backend_grows b b'.
Proof using wire_laws uuid_laws.
  intros Hok. unfold network_send. destruct journey as [e|elapsed script reply]; [by intros [= <- _]|].
  destruct (backend_serve request elapsed script b) as [b1 response] eqn:Hs.
  destruct (backend_serve_kept _ _ _ _ _ _ Hok Hs) as (Hok1 & Hg & _).
  by destruct reply; intros [= <- _].
Qed.

(** The status on the wire is the handler's, unless the body did not encode. *)
Lemma http_reply_OK response sizes broken :
  response_status (http_reply response sizes broken) = StatusCode.OK ->
  status response = StatusCode.OK.
Proof. unfold http_reply, into_response. by destruct (body_to_vec _). Qed.

Lemma network_send_recorded journey url request r b b' response :
  backend_ok b -> network_send journey url request b = (b', Ok response) ->
  (forall r', from_slice (request_body request) = Ok r' -> r' = r) -> response_status response = StatusCode.OK ->
  distinct_requests (received b') -> request_recorded (backend_tables b') r.
Proof using message_laws uuid_laws sha_laws wire_laws.
  intros Hok. unfold network_send. destruct journey as [e|elapsed script reply]; [done|].
  destruct (backend_serve request elapsed script b) as [b1 answer] eqn:Hs.
  destruct reply as [e|sizes broken]; intros [= <- <-] Hr Hst%http_reply_OK Hd.
  destruct (extracted request) as [r'|rejection] eqn:Hx.
  - assert (r' = r) as -> by (apply Hr; by eapply extractor_decodes).
    by eapply backend_serve_recorded.
  - exfalso. unfold backend_serve in Hs. destruct (serve _ _ _) as [state' answer'] eqn:Hserve.
    injection Hs as <- <-. unfold serve in Hserve. rewrite Hx in Hserve.
    apply submission_cases in Hserve.
    destruct Hserve as [answer category Hrep|]; [inversion Hrep; by subst|done].
Qed.

Lemma exchange_cases client journey request b b' res :
  transport_submit (SynchronizationTransport := http_transport client (network_send journey))
    request b = (b', res) ->
  exists res', HttpClient.submit client (network_send journey) request b = (b', res')
    /\ forall a, res = Ok a -> res' = Ok a.
Proof.
  unfold transport_submit, http_transport, zoom, id.
  destruct (HttpClient.submit _ _ _ _) as [b1 res1]. intros [= <- <-]. exists res1.
  split; [done|]. by intros a Ha%map_err_Ok.
Qed.

Lemma exchange_kept client journey request b b' res :
  backend_ok b ->
  transport_submit (SynchronizationTransport := http_transport client (network_send journey))
    request b = (b', res) ->
  backend_ok b' /\ backend_grows b b'.
Proof using wire_laws uuid_laws.
  intros Hok (res' & Hs & _)%exchange_cases. rewrite submit_equation in Hs.
  destruct (to_vec request) as [bytes|]; [|by injection Hs as <- _].
  destruct (_ <? _); [by injection Hs as <- _|].
  destruct (network_send _ _ _ _) as [b1 res1] eqn:Hsend.
  assert (b1 = b') as -> by (destruct res1; congruence). by eapply network_send_kept.
Qed.

(** An acknowledgement that the client accepts answers a stored request. *)
Lemma exchange_recorded client journey request b b' a :
  backend_ok b -> request_texts request ->
  transport_submit (SynchronizationTransport := http_transport client (network_send journey))
    request b = (b', Ok a) ->
  distinct_requests (received b') ->
  request_recorded (backend_tables b') request /\ SBA.validate_against_request a request = Ok tt.
Proof using message_laws uuid_laws sha_laws wire_laws.
  intros Hok Htexts (res' & Hs & Hres)%exchange_cases Hd. rewrite (Hres _ eq_refl) in Hs.
  rewrite submit_equation in Hs. destruct (to_vec request) as [bytes|] eqn:Hvec; [|done].
  destruct (_ <? _); [done|].
  destruct (network_send _ _ _ _) as [b1 [response|e]] eqn:Hsend; [|done].
  injection Hs as -> Hread. apply read_answer_Ok in Hread as [Hst Hv]. split; [|done].
  eapply network_send_recorded; [exact Hok|exact Hsend| |done|done].
  cbn. intros r' Hr'. by eapply request_sent_exact.
Qed.

(** ** The reader's side of it *)

Lemma unstored_accepted call t script x :
  store_ok t -> stores_acknowledgement call = false ->
  accepted (tables (perform call (MkDb t script)).1) x -> accepted t x.
Proof.
  intros Hok Hcall. destruct (perform_settles call t script Hok Hcall) as [He _ _].
  unfold accepted. by rewrite He.
Qed.

Lemma stored_accepted a t script x :
  accepted (tables (perform (StoreProtocolSynchronizationAcknowledgement a) (MkDb t script)).1) x ->
  accepted t x \/ acknowledges a x.
Proof.
  pose proof (leaves_tables _ t (stores _ t) script
    (store_protocol_synchronization_acknowledgement_stores a t)) as [_ Hacc]. apply Hacc.
Qed.

Lemma aftermath_accepted id bid res calls t x :
  store_ok t -> aftermath id bid res calls -> accepted (reader_history t calls) x ->
  accepted t x \/ exists a, res = Ok a /\ acknowledges a x.
Proof using laws.
  intros Hok Haft Hx. unfold reader_history in Hx.
  destruct Haft; cbn [foldl fst snd] in Hx;
    try (left; eapply unstored_accepted; [..|exact Hx]; done).
  - apply stored_accepted in Hx as [?|?]; [by left|right; by eexists].
  - eapply unstored_accepted in Hx; [|apply perform_kept, Hok|done].
    apply stored_accepted in Hx as [?|?]; [by left|right; by eexists].
Qed.

Lemma reader_history_justified calls t :
  store_ok t -> justified t -> justified (reader_history t calls).
Proof using laws.
  revert t. induction calls as [|[call script] calls IH]; intros t Hok Hj; [done|].
  apply IH; [apply perform_kept, Hok|by apply perform_justified].
Qed.

(** ** The system *)

(** The last clause needs the requests to be told apart. *)
Record system_ok (s : System) : Prop := {
  so_reader : store_ok (reader s);
  so_justified : justified (reader s);
  so_backend : backend_ok (backend s);
  so_durable : distinct_requests (received (backend s)) -> stable_queue (reader s) ->
    forall x, accepted (reader s) x -> durable (reader s) (backend_tables (backend s)) x
}.

Record system_grows (s s' : System) : Prop := {
  sg_reader : evolved (reader s) (reader s');
  sg_backend : backend_grows (backend s) (backend s')
}.

#[local] Instance system_grows_preorder : PreOrder system_grows.
Proof.
  split; [by split|]. intros s1 s2 s3 [Hr1 Hb1] [Hr2 Hb2]. split; by etrans.
Qed.

Lemma distinct_requests_prefix l l' : l `prefix_of` l' -> distinct_requests l' -> distinct_requests l.
Proof.
  intros Hpre Hd r Hr. assert (forall x, x ∈ l -> x ∈ l') as Hsub
    by (intros x Hx; eapply elem_of_prefix; [exact Hx|exact Hpre]).
  destruct (Hd r (Hsub _ Hr)) as [Hwf Hno]. auto.
Qed.

(** What is accepted after a step was accepted before, or is durable. *)
Lemma system_ok_step s s' :
  system_ok s -> system_grows s s' ->
  store_ok (reader s') -> justified (reader s') -> backend_ok (backend s') ->
  (distinct_requests (received (backend s')) -> stable_queue (reader s') ->
     forall x, accepted (reader s') x ->
     accepted (reader s) x \/ durable (reader s) (backend_tables (backend s')) x) ->
  system_ok s'.
Proof.
  intros Hok [Hr [Hpre Hb]] Hstore Hj Hback Hacc. split; [done..|].
  intros Hd Hst x Hx. destruct (Hacc Hd Hst x Hx) as [Hx'|Hx'].
  - eapply durable_kept; [exact Hr|exact Hb|]. apply Hok; [|by eapply stable_queue_before|done].
    by eapply distinct_requests_prefix.
  - eapply durable_kept; [exact Hr|reflexivity|done].
Qed.

Lemma submission_step client id bid completed retry script journey s :
  system_ok s ->
  let event := SubmitEvent client id bid completed retry script journey in
  system_ok (system_step s event) /\ system_grows s (system_step s event).
Proof using laws message_laws uuid_laws sha_laws wire_laws.
  intros Hok event. unfold event, system_step, submission, submit_in_flight_synchronization_batch.
  cbn [session_pool session_world].
  destruct (submit_in_flight_synchronization_batch_with_telemetry _ _ _ _ _) as [session r] eqn:Hs.
  cbn [fst session_pool session_world]. apply (reader_submission_cases (transport :=
    http_transport client (network_send journey))) in Hs. destruct s as [t b]. cbn in Hs |- *.
  destruct Hs as [[-> ->]|(request & res & calls & Hload & Hex & Haft & ->)]; [by destruct r|].
  pose proof (so_reader _ Hok) as Hstore. cbn in Hstore.
  pose proof (exchange_kept _ _ _ _ _ _ (so_backend _ Hok) Hex) as [Hback Hgrows].
  pose proof (reader_history_kept calls t Hstore) as [Hstore' Hev].
  assert (system_grows (MkSystem t b) (MkSystem (reader_history t calls) (session_world session)))
    as Hg by done.
  split; [|done]. eapply system_ok_step; [exact Hok|exact Hg|done| |done|]; cbn.
  - apply reader_history_justified; [done|apply Hok].
  - intros Hd Hst x Hx. destruct (aftermath_accepted _ _ _ _ _ _ Hstore Haft Hx) as [|(a & -> & Ha)];
      [by left|right].
    pose proof (loaded_texts _ _ _ _ _ (stable_queue_before _ _ Hev Hst) Hload) as Htexts.
    destruct (exchange_recorded _ _ _ _ _ _ (so_backend _ Hok) Htexts Hex Hd) as [Hrec Hv].
    by eapply recorded_durable.
Qed.

Lemma backend_step s b :
  system_ok s -> backend_ok b -> backend_grows (backend s) b ->
  system_ok (MkSystem (reader s) b) /\ system_grows s (MkSystem (reader s) b).
Proof.
  intros Hok Hback Hg. assert (system_grows s (MkSystem (reader s) b)) as Hsg by done.
  split; [|done]. eapply system_ok_step; [exact Hok|done|apply Hok|apply Hok|done|]. by left.
Qed.

Lemma status_kept id status b :
  backend_ok b ->
  backend_ok (with_api (set_status id status) b) /\ backend_grows b (with_api (set_status id status) b).
Proof.
  intros [Hok Hrec]. destruct (service_perform_kept (receipt (received b))
    (ApiState.synchronization_service (api b)) (backend_tables b) (ReaderStatus id status) [] Hok)
    as [Hok' Hev]; [done|]. by split; split.
Qed.

Lemma system_step_kept s event :
  system_ok s -> authentic event = true ->
  system_ok (system_step s event) /\ system_grows s (system_step s event).
Proof using laws message_laws uuid_laws sha_laws wire_laws.
  intros Hok Hauth.
  destruct event as [call script|client id bid completed retry script journey|request elapsed script
    |id status|].
  - cbn in Hauth. apply negb_true_iff in Hauth. cbn [system_step].
    pose proof (perform_kept call _ script (so_reader _ Hok)) as [Hstore Hev].
    assert (system_grows s (MkSystem (tables (perform call (MkDb (reader s) script)).1) (backend s)))
      as Hg by done.
    split; [|done]. eapply system_ok_step; [exact Hok|done|done| |apply Hok|].
    + apply perform_justified; apply Hok.
    + intros _ _ x Hx. left. eapply unstored_accepted; [apply Hok|done|exact Hx].
  - by apply submission_step.
  - cbn [system_step]. destruct (backend_serve request elapsed script (backend s)) as [b r] eqn:Hs.
    destruct (backend_serve_kept _ _ _ _ _ _ (so_backend _ Hok) Hs) as (? & ? & _).
    by apply backend_step.
  - cbn [system_step]. destruct (status_kept id status _ (so_backend _ Hok)). by apply backend_step.
  - cbn [system_step]. apply backend_step; [done| |done]. by destruct (so_backend _ Hok).
Qed.

Lemma initial_system_ok service : system_ok (initial_system service).
Proof.
  split; cbn.
  - apply store_ok_empty.
  - intros x r Hr. cbn in Hr. by rewrite lookup_empty in Hr.
  - split; [apply empty_service_ok|constructor].
  - intros _ _ x (e & He & _). by apply elem_of_nil in He.
Qed.

Lemma system_run_kept s events :
  system_ok s -> forallb authentic events = true ->
  system_ok (foldl system_step s events) /\ system_grows s (foldl system_step s events).
Proof using laws message_laws uuid_laws sha_laws wire_laws.
  revert s. induction events as [|event events IH]; intros s Hok Hauth; [done|].
  cbn in Hauth |- *. apply andb_true_iff in Hauth as [Ha Has].
  destruct (system_step_kept s event Hok Ha) as [Hok1 Hg1].
  destruct (IH _ Hok1 Has) as [Hok2 Hg2]. split; [done|]. by etrans.
Qed.

(** C1. Nothing is lost between a reader and the backend.  Take any run of the
    reader's store, its submissions, the backend's process and the network
    between them: requests and replies get lost, cut or repeated, both
    databases fail at any statement, other readers write, the process
    restarts.  Then every transaction that the reader's queue shows as
    acknowledged is in the backend, with the same identity, reader, sequence
    number and the fingerprint of the envelope in the queue, and stays there;
    and every sequence number up to the one that the reader counts as
    acknowledged belongs to such a transaction, or to one that it shows as
    permanently failed.  The envelopes in the queue are such that writing and
    reading them again changes nothing ([stable_queue]). *)
Theorem acknowledged_end_to_end service events more :
  let s := system_run service events in
  let later := system_run service (events ++ more) in
  forallb authentic (events ++ more) = true ->
  distinct_requests (received (backend s)) -> stable_queue (reader s) ->
  (forall x r, offline_transactions (reader s) !! x = Some r ->
     TX.queue_state r = OfflineQueueState.Acknowledged ->
     durable (reader later) (backend_tables (backend later)) x)
  /\ (forall st n, reader_state (reader s) = Some st ->
        1 <= n <= ReaderStateRow.last_acknowledged_sequence st ->
        exists x r, offline_transactions (reader s) !! x = Some r
          /\ TX.local_sequence_number r = n
          /\ (TX.queue_state r = OfflineQueueState.PermanentFailure
              \/ durable (reader later) (backend_tables (backend later)) x)).
Proof using laws message_laws uuid_laws sha_laws wire_laws.
  cbv zeta. rewrite forallb_app. intros [Ha Hm]%andb_true_iff Hd Hstable.
  destruct (system_run_kept _ _ (initial_system_ok service) Ha) as [Hok _].
  destruct (system_run_kept _ _ Hok Hm) as [_ [Hr [_ Hb]]].
  unfold system_run in Hd, Hstable |- *. rewrite foldl_app.
  set (s := foldl system_step (initial_system service) events) in *.
  assert (forall x r, offline_transactions (reader s) !! x = Some r -> settled r ->
    durable (reader (foldl system_step s more)) (backend_tables (backend (foldl system_step s more))) x)
    as Hsettled.
  { intros x r Hx Hs. eapply durable_kept; [exact Hr|exact Hb|]. apply (so_durable _ Hok Hd Hstable).
    by eapply (so_justified _ Hok). }
  split; [exact Hsettled|]. intros st n Hst Hn. pose proof (so_reader _ Hok) as Hstore.
  destruct (ok_state _ Hstore _ Hst) as [Hcheck _].
  destruct (proj1 (ok_sequences _ Hstore _ n Hst)) as (x & r & Hx & Hseq).
  { unfold reader_state_check in Hcheck. lia. }
  exists x, r. split_and!; [done..|].
  assert (resolved r) as Hres by (eapply (ok_acknowledged _ Hstore); [done..|lia]).
  destruct (TX.queue_state r) eqn:Hs; try done; [right; by eapply Hsettled|by left].
Qed.

End system.
