(* ===== verification/SystemExchange.v ===== *)
(** * A delivered exchange is a call of the service

    When the request and the reply get through, the HTTP layer on both sides
    is transparent: the client's result is the service's, an acknowledgement
    as it was given and an error under its failure category. *)

From stdpp Require Import sorting.
From S2P Require Import Prelude Text DomainIdentifier DomainTransaction DomainEquipment.
From S2P Require Import DeviceProtocolValues DeviceProtocolSynchronization DeviceProtocolFingerprint.
From S2P Require Import PersistenceReaderStore PersistenceReaderQueue PersistenceReaderAcknowledgement.
From S2P Require Import PersistenceReaderSync PersistenceReaderApplication.
From S2P Require Import PersistenceReaderInvariant PersistenceReaderHistory PersistenceReaderSettlement.
From S2P Require Import PersistenceReaderProgress.
From S2P Require Import PersistenceSqlLogic PersistenceIngestTables PersistenceIngestRecord.
From S2P Require Import PersistenceIngestStore PersistenceIngestLogic PersistenceIngestRefinement.
From S2P Require Import PersistenceIngestHistory ApiSynchronizationService ApiServiceCorrectness.
From S2P Require Import MessageFormats Telemetry HttpMessages ApiHandlers ReaderTransport.
From S2P Require Import ReaderSubmission System SystemCorrectness.

(** ** Chunks *)

(** However a body is cut, it is put together again. *)
Lemma chunks_of_parts sizes bytes :
  exists parts, chunks_of sizes None bytes = Ok <$> parts /\ concat parts = bytes.
Proof.
  revert bytes. induction sizes as [|n sizes IH]; intros bytes; cbn [chunks_of].
  - exists [bytes]. cbn. by rewrite app_nil_r.
  - destruct (IH (drop n bytes)) as (parts & -> & Hc). exists (take n bytes :: parts). cbn.
    by rewrite Hc, take_drop.
Qed.

Lemma read_chunks maximum sizes bytes :
  Z.of_nat (length bytes) <= maximum <= usize_max ->
  read_bounded_body maximum [] (chunks_of sizes None bytes) = Ok bytes.
Proof.
  intros Hn. apply read_bounded_body_Ok; [lia|cbn; lia|].
  destruct (chunks_of_parts sizes bytes) as (parts & Hp & Hc). exists parts. split_and!; [done| |lia].
  by rewrite Hc.
Qed.

Section exchange.
Context `{JsonLibrary} {laws : JsonLaws} `{!PostgresJson}.
Context `{UuidLibrary} `{Sha256Library} `{HttpLibrary} `{!WireJson} `{UrlLibrary}.
Context {message_laws : MessageLaws} {uuid_laws : UuidLaws} {sha_laws : Sha256Laws}.
Context {http_laws : HttpLaws} {wire_laws : WireLaws}.

(** ** Headers *)

Lemma header_text_Some headers name text :
  header_text headers name = Some text ->
  exists value, header_get headers name = Some value /\ header_to_str value = Some text.
Proof. unfold header_text. destruct (header_get headers name) as [v|]; [|done]. by exists v. Qed.

(** The identity of the batch as a header. *)
Definition visible_key (request : SBR.t) : Prop :=
  forallb is_visible_ascii (identifier_to_string (SBR.batch_id request)) = true.

Lemma request_header request name text :
  (name, text) ∈ HttpClient.request_header_list request ->
  forallb is_visible_ascii text = true ->
  header_text (header_map_of (HttpClient.request_header_list request)) name = Some text.
Proof using http_laws.
  intros Hin Hv. apply header_text_of; [|done..].
  refine (bool_decide_unpack _ _). vm_compute. exact I.
Qed.

(** The headers that the client sets pass the handler. *)
Lemma client_headers_valid request :
  visible_key request -> SBR.protocol_version request = DeviceProtocolVersion.CURRENT ->
  validate_transport_headers (header_map_of (HttpClient.request_header_list request)) request = Ok tt.
Proof using http_laws.
  intros Hkey Hv. unfold validate_transport_headers.
  destruct (header_text_Some _ _ _ (request_header request IDEMPOTENCY_KEY_HEADER _
    ltac:(do 2 right; by left) Hkey)) as (key & -> & Hk). cbn [ok_or mbind Result_bind].
  rewrite Hk. cbn [ok_or mbind Result_bind]. rewrite decide_False by (by intros []).
  assert (forallb is_visible_ascii
    (dec_u64 (DeviceProtocolVersion.value (SBR.protocol_version request))) = true) as Hdigits
    by (rewrite Hv; vm_compute; reflexivity).
  destruct (header_text_Some _ _ _ (request_header request PROTOCOL_VERSION_HEADER _
    ltac:(do 3 right; by left) Hdigits)) as (version & -> & Hs). cbn [ok_or mbind Result_bind].
  rewrite Hs. cbn [ok_or mbind Result_bind]. rewrite Hv.
  rewrite parse_u16_display by (vm_compute; split; discriminate). cbn [ok_or mbind Result_bind].
  rewrite decide_False by (by intros []). by rewrite decide_False by (by intros []).
Qed.

(** The server's media type. *)
Lemma json_media_type :
  HttpClient.has_json_content_type (header_map_of [(CONTENT_TYPE, lit "application/json")]) = true.
Proof using http_laws.
  unfold HttpClient.has_json_content_type.
  destruct (header_text_Some (header_map_of [(CONTENT_TYPE, lit "application/json")]) CONTENT_TYPE
    (lit "application/json")) as (v & -> & ->); [|by vm_compute].
  apply header_text_of; [|by left|by vm_compute].
  refine (bool_decide_unpack _ _). vm_compute. exact I.
Qed.

(** ** The request arrives *)

Lemma request_extracted request bytes :
  request_typed envelope_stable request -> to_vec request = Ok bytes ->
  Z.of_nat (length bytes) <= MAX_SYNCHRONIZATION_REQUEST_BYTES ->
  extracted (http_request request bytes) = Ok request.
Proof using uuid_laws http_laws wire_laws.
  intros Htyped Hvec Hlen. apply extractor_accepts; cbn; [|done|].
  - apply request_header; [right; by left|by vm_compute].
  - by eapply request_decodes.
Qed.

(** ** The answer comes back *)

(** What the service's result is for the client. *)
Definition client_result (r : Result SSE.t SBA.t) : Result STF.t SBA.t :=
  map_err (fun e => STF.Http (SSE.failure_category e)
    (HCE.HttpStatus (status (service_error_response e)) (SSE.failure_category e))) r.

(** The body of an error, as the client reads it. *)
Lemma api_error_decodes service error category bytes :
  body_to_vec (ErrorBody (ApiErrorResponse.mk service error
    (SynchronizationFailureCategory.as_str category))) = Ok bytes ->
  from_slice bytes = Ok (ApiErrorEnvelope.mk service category).
Proof using wire_laws.
  intros Hvec%json_vec_reads_back.
  - unfold from_slice. rewrite Hvec. destruct category; vm_compute; reflexivity.
  - unfold api_error_json. constructor; [distinct_names|repeat constructor].
Qed.

Lemma read_acknowledgement client request (a : SBA.t) bytes sizes :
  acknowledgement_typed a -> SBA.validate_against_request a request = Ok tt ->
  to_vec a = Ok bytes ->
  Z.of_nat (length bytes) <= HttpClient.maximum_acknowledgement_bytes client <= usize_max ->
  read_answer client request (http_reply (service_response (Ok a)) sizes None) = Ok a.
Proof using uuid_laws http_laws wire_laws.
  intros Htyped Hv Hvec Hlen. unfold http_reply, into_response. cbn [service_response body].
  change (body_to_vec (AcknowledgementBody a)) with (to_vec a). rewrite Hvec. unfold read_answer. cbn [response_status response_headers response_chunks].
  rewrite (read_chunks _ _ _ Hlen). cbn [mbind Result_bind status].
  rewrite decide_False by (by intros []). rewrite json_media_type. cbn [negb].
  rewrite (acknowledgement_decodes _ _ Htyped Hvec). cbn [map_err mbind Result_bind].
  by rewrite Hv.
Qed.

Lemma read_error client request e bytes sizes :
  body_to_vec (body (service_error_response e)) = Ok bytes ->
  Z.of_nat (length bytes) <= HttpClient.maximum_acknowledgement_bytes client <= usize_max ->
  read_answer client request (http_reply (service_response (Err e)) sizes None)
  = Err (HCE.HttpStatus (status (service_error_response e)) (SSE.failure_category e)).
Proof using wire_laws.
  intros Hvec Hlen. destruct (service_error_response_shape e) as (message & Hshape & Hst).
  unfold http_reply, into_response. cbn [service_response]. rewrite Hvec.
  unfold read_answer. cbn [response_status response_headers response_chunks].
  rewrite (read_chunks _ _ _ Hlen). cbn [mbind Result_bind]. rewrite decide_True by done.
  rewrite Hshape in Hvec. unfold HttpClient.decode_api_error_category.
  rewrite (api_error_decodes _ _ _ _ Hvec). cbn [result_ok mbind option_bind].
  by rewrite decide_False by (by intros []).
Qed.

Lemma acknowledgement_new_replayed d a flag :
  SBA.new d = Ok a -> exists d', SBA.new d' = Ok (SBA.with_replayed a flag).
Proof.
  destruct d as [version environment reader batch first last received replayed entries].
  intros Hn. exists (SBAD.mk version environment reader batch first last received flag entries).
  unfold SBA.new in Hn |- *. cbn -[validate_timestamp validate_acknowledgement_entries] in Hn |- *.
  destruct (validate_timestamp _ _); cbn in Hn |- *; [|done].
  destruct (validate_acknowledgement_entries _ _ _); cbn in Hn |- *; [|done].
  by injection Hn as <-.
Qed.

(** What the service acknowledges a request with is in the ranges of its types. *)
Lemma replayed_typed request received_at flag :
  request_typed envelope_stable request -> in_i64 received_at ->
  Service.build_acknowledgement request received_at = Ok (answer request received_at) ->
  acknowledgement_typed (SBA.with_replayed (answer request received_at) flag).
Proof.
  intros [(Hv & Henv & Hrd & _ & Hb & Hf & Hl & _ & Hentries) _] Ht Hbuild.
  apply build_acknowledgement_Ok in Hbuild as [_ [d Hd]].
  split; [|by eapply acknowledgement_new_replayed]. split_and!; [done..|]. cbn.
  apply Forall_fmap. eapply Forall_impl; [exact Hentries|]. intros e (Hid & Hseq & _).
  split; [|done]. by split_and!.
Qed.

Lemma stable_built request :
  request_typed envelope_stable request -> request_typed envelope_built request.
Proof.
  intros [(? & ? & ? & ? & ? & ? & ? & ? & Hentries) Hnew]. split; [|done]. split_and!; [done..|].
  eapply Forall_impl; [exact Hentries|]. intros e (? & ? & Hs). split_and!; [done..|]. by eexists.
Qed.

(** What the service acknowledges is a valid answer to the request. *)
Lemma processed_valid b request received_at script db a :
  backend_ok b -> request_typed envelope_stable request -> in_i64 received_at ->
  distinct_requests (received b ++ [request]) ->
  Service.process (ApiState.synchronization_service (api b)) request received_at
    (MkDb (backend_tables b) script) = (db, Ok a) ->
  acknowledgement_typed a /\ SBA.validate_against_request a request = Ok tt
  /\ SBA.entries a = answer_entry <$> SBR.entries request.
Proof using message_laws uuid_laws sha_laws.
  intros [Hok Hrec] Htyped Ht Hd Hrun.
  pose proof (process_cases _ _ _ _ _ _ _ (so_tables _ _ Hok) Hrun) as Hans.
  set (all := received b ++ [request]) in *.
  assert (Forall (request_typed envelope_built) all) as Hall
    by (apply Forall_app; split; [done|]; constructor; [by apply stable_built|constructor]).
  assert (request ∈ all) as Hin by (apply elem_of_app; right; by left).
  assert (service_ok (receipt all) (backend_tables b)) as Hok'.
  { eapply service_ok_mono; [|exact Hok]. intros r z [Hr Hz]. split; [|done].
    apply elem_of_app. by left. }
  assert (forall r z, receipt all r z -> request_valid r /\ ~ collides r request) as Hvalid
    by (intros r z [Hr _]; split; [by eapply distinct_valid|by apply Hd]).
  destruct (answered_recorded _ _ _ _ _ _ Hok' (distinct_valid _ _ Hall Hd Hin) (conj Hin Ht) Hvalid Hans)
    as (_ & first & flag & -> & _ & [_ Hfirst] & Hbuild & _).
  split_and!; [by apply replayed_typed|apply (answer_valid request first)|done].
Qed.

(** A delivered exchange, at a backend that is well formed. *)
Lemma delivered_exchange b client request bytes elapsed received_at script
    sizes db r :
  backend_ok b -> distinct_requests (received b ++ [request]) ->
  request_typed envelope_stable request -> visible_key request ->
  SBR.protocol_version request = DeviceProtocolVersion.CURRENT ->
  to_vec request = Ok bytes ->
  Z.of_nat (length bytes) <= MAX_SYNCHRONIZATION_REQUEST_BYTES ->
  current_unix_milliseconds elapsed = Some received_at ->
  Service.process (ApiState.synchronization_service (api b)) request received_at
    (MkDb (backend_tables b) script) = (db, r) ->
  (exists reply, body_to_vec (body (service_response r)) = Ok reply
     /\ Z.of_nat (length reply) <= HttpClient.maximum_acknowledgement_bytes client <= usize_max) ->
  exists b', transport_submit (SynchronizationTransport := http_transport client
      (network_send (Delivered elapsed script (Replied sizes None)))) request b
      = (b', client_result r)
    /\ backend_tables b' = tables db.
Proof using laws message_laws uuid_laws sha_laws http_laws wire_laws.
  intros Hok Hd Htyped Hkey Hv Hvec Hlen Ht Hrun (reply & Hreply & Hmax).
  destruct (submission_accepted _ _ _ _
    (ApiState.set_repository (MkDb (backend_tables b) script) (api b)) _ _
    (client_headers_valid request Hkey Hv) Ht Hrun) as (state' & Hsub & Hdb).
  exists (MkBackend state' (received b ++ [request])).
  unfold transport_submit, http_transport, zoom, id. rewrite submit_equation, Hvec.
  rewrite (proj2 (Z.ltb_ge _ _)) by lia. unfold network_send, backend_serve, serve.
  rewrite (request_extracted _ _ Htyped Hvec Hlen). cbn [request_headers http_request].
  rewrite Hsub. split; [|exact (f_equal tables Hdb)]. f_equal. unfold client_result.
  destruct r as [a|e].
  - destruct (processed_valid _ _ _ _ _ _ Hok Htyped (current_unix_milliseconds_in _ _ Ht) Hd Hrun)
      as (Htyped' & Hval & _).
    by rewrite (read_acknowledgement _ _ _ _ _ Htyped' Hval Hreply Hmax).
  - by rewrite (read_error _ _ _ _ _ Hreply Hmax).
Qed.

(** C6. A delivered exchange is a call of the service.  At any point of a run,
    when the reader's client submits a request of the current protocol version,
    its fields in the ranges of their types and its envelopes in canonical
    form, and the network delivers it and the reply, however the reply is cut into
    chunks, then the handler passes the request on unchanged, and the client
    returns what the service returned: the acknowledgement itself, or the
    status of the error with the failure category that the service gave it,
    by which the reader decides to retry, give up or ask for review. *)
Theorem exchange_calls_service service events client request bytes elapsed received_at script
    sizes db r :
  let b := backend (system_run service events) in
  forallb authentic events = true -> distinct_requests (received b ++ [request]) ->
  request_typed envelope_stable request -> visible_key request ->
  SBR.protocol_version request = DeviceProtocolVersion.CURRENT ->
  to_vec request = Ok bytes ->
  Z.of_nat (length bytes) <= MAX_SYNCHRONIZATION_REQUEST_BYTES ->
  current_unix_milliseconds elapsed = Some received_at ->
  Service.process (ApiState.synchronization_service (api b)) request received_at
    (MkDb (backend_tables b) script) = (db, r) ->
  (exists reply, body_to_vec (body (service_response r)) = Ok reply
     /\ Z.of_nat (length reply) <= HttpClient.maximum_acknowledgement_bytes client <= usize_max) ->
  exists b', transport_submit (SynchronizationTransport := http_transport client
      (network_send (Delivered elapsed script (Replied sizes None)))) request b
      = (b', client_result r)
    /\ backend_tables b' = tables db.
Proof using laws message_laws uuid_laws sha_laws http_laws wire_laws.
  intros b Hauth. destruct (system_run_kept _ _ (initial_system_ok service) Hauth) as [Hsys _].
  apply delivered_exchange, Hsys.
Qed.

(** What the service acknowledges is what a waiting reader takes. *)
Lemma answer_acknowledging request a payload :
  acknowledgement_typed a -> SBA.validate_against_request a request = Ok tt ->
  SBA.entries a = answer_entry <$> SBR.entries request ->
  storable_payload (reader_acknowledgement a) payload -> acknowledging request a payload.
Proof.
  intros [(_ & _ & _ & _ & _ & _ & _ & Hentries) Hmade] Hv Heq Hpay. split; [done|done| | |done].
  - eapply Forall_impl; [exact Hentries|]. by intros e [_ ?].
  - intros e z He Hz. rewrite Heq in He. apply list_elem_of_fmap in He as (s & -> & _). done.
Qed.

(** The rows and the batch that an acknowledgement of everything leaves. *)
Lemma settled_by_answer bid request a now t t' :
  SBA.entries a = answer_entry <$> SBR.entries request -> settled_by bid a now t t' ->
  (exists b, synchronization_batches t' !! bid = Some b
     /\ BatchRow.batch_state b = SynchronizationBatchState.Acknowledged)
  /\ (forall e, e ∈ SBR.entries request ->
        exists r, offline_transactions t' !! SRE.transaction_id e = Some r
          /\ TX.queue_state r = OfflineQueueState.Acknowledged)
  /\ forall x, (x ∉ SRE.transaction_id <$> SBR.entries request) ->
        offline_transactions t' !! x = offline_transactions t !! x.
Proof.
  intros Heq [(b & _ & Hb) Hrows Hothers]. split_and!.
  - by exists (acknowledged_batch now b).
  - intros e He. destruct (Hrows (answer_entry e)) as (r & _ & Hr).
    { rewrite Heq. by apply list_elem_of_fmap_2. }
    by exists (answered_row now (answer_entry e) r).
  - intros x Hx. apply Hothers. by rewrite Heq, <- list_fmap_compose.
Qed.

(** C5. One exchange that gets through is enough.  At any point of a run,
    whatever was lost or failed before, let a reader wait for the
    acknowledgement of a batch ([waiting]: the batch and its transactions are
    in flight, their last change was before the application, no acknowledgement
    is stored yet), and let it submit the batch in an exchange that gets
    through, without faults of its database, to a backend that acknowledges it,
    for the first time or as a replay.  Then the submission leaves every
    transaction of the batch, and the batch itself, acknowledged, and no other
    transaction changed.  (The text of the stored acknowledgement must fit its
    column, [storable_payload].) *)
Theorem delivered_exchange_settles service events client id bid completed retry request bytes
    elapsed received_at sizes db a payload :
  let s := system_run service events in
  let b := backend s in
  let event := SubmitEvent client id bid completed retry []
                 (Delivered elapsed [] (Replied sizes None)) in
  let s' := system_step s event in
  forallb authentic events = true -> distinct_requests (received b ++ [request]) ->
  request_typed envelope_stable request -> visible_key request ->
  SBR.protocol_version request = DeviceProtocolVersion.CURRENT ->
  to_vec request = Ok bytes ->
  Z.of_nat (length bytes) <= MAX_SYNCHRONIZATION_REQUEST_BYTES ->
  current_unix_milliseconds elapsed = Some received_at ->
  Service.process (ApiState.synchronization_service (api b)) request received_at
    (MkDb (backend_tables b) []) = (db, Ok a) ->
  (exists reply, to_vec a = Ok reply
     /\ Z.of_nat (length reply) <= HttpClient.maximum_acknowledgement_bytes client <= usize_max) ->
  waiting id bid (reader s) request (Z.max completed (SBA.received_at_unix_milliseconds a)) ->
  storable_payload (reader_acknowledgement a) payload ->
  (exists b', synchronization_batches (reader s') !! bid = Some b'
     /\ BatchRow.batch_state b' = SynchronizationBatchState.Acknowledged)
  /\ (forall e, e ∈ SBR.entries request ->
        exists r, offline_transactions (reader s') !! SRE.transaction_id e = Some r
          /\ TX.queue_state r = OfflineQueueState.Acknowledged)
  /\ (forall x, (x ∉ SRE.transaction_id <$> SBR.entries request) ->
        offline_transactions (reader s') !! x = offline_transactions (reader s) !! x)
  /\ backend_tables (backend s') = tables db.
Proof using laws message_laws uuid_laws sha_laws http_laws wire_laws.
  intros s b event s' Hauth Hd Htyped Hkey Hv Hvec Hlen Ht Hrun Hreply Hwait Hpay.
  destruct (system_run_kept _ _ (initial_system_ok service) Hauth) as [Hsys _].
  fold (system_run service events) in Hsys. fold s in Hsys.
  destruct (processed_valid _ _ _ _ _ _ (so_backend _ Hsys) Htyped (current_unix_milliseconds_in _ _ Ht)
    Hd Hrun) as (Htyped_a & Hvalid & Hanswers).
  destruct (delivered_exchange b client request bytes elapsed received_at [] sizes db (Ok a)
    (so_backend _ Hsys) Hd Htyped Hkey Hv Hvec Hlen Ht Hrun Hreply) as (b' & Hex & Hb').
  destruct (submission_settles (transport := http_transport client
    (network_send (Delivered elapsed [] (Replied sizes None)))) id bid completed retry (reader s)
    Inner.default b b' request a payload (so_reader _ Hsys) Hwait
    (answer_acknowledging _ _ _ Htyped_a Hvalid Hanswers Hpay) Hex)
    as (t' & tel & report & Hsub & _ & Hsettled).
  assert (s' = MkSystem t' b') as ->.
  { unfold s', event, system_step, submission, submit_in_flight_synchronization_batch.
    cbn [session_pool session_world]. fold b. by rewrite Hsub. }
  destruct (settled_by_answer _ _ _ _ _ _ Hanswers Hsettled) as (? & ? & ?). by split_and!.
Qed.

End exchange.
