(* ===== verification/SystemExample.v ===== *)
(** * The system at work, evaluated

    Libraries that meet the interfaces of HTTP and of the wire format, and a
    run in which the first reply of the backend is lost: the witnesses of the
    theorems about the system. *)

From stdpp Require Import sorting.
From S2P Require Import Prelude Text JsonReference DomainMoney DomainIdentifier DomainTransaction DomainAccount.
From S2P Require Import DomainEquipment.
From S2P Require Import DeviceProtocolValues DeviceProtocolSynchronization DeviceProtocolFingerprint.
From S2P Require Import PersistenceColumns PersistenceReaderStore PersistenceReaderIdentity.
From S2P Require Import PersistenceReaderQueue PersistenceReaderSync PersistenceReaderAcknowledgement.
From S2P Require Import PersistenceReaderApplication PersistenceReaderInvariant PersistenceReaderHistory.
From S2P Require Import PersistenceReaderSettlement PersistenceReaderProgress PersistenceIngestTables.
From S2P Require Import PersistenceIngestRecord.
From S2P Require Import PersistenceIngestStore PersistenceIngestLogic PersistenceIngestHistory.
From S2P Require Import ApiSynchronizationService ApiServiceCorrectness BackendExample.
From S2P Require Import MessageFormats Telemetry HttpMessages ApiHandlers ReaderTransport.
From S2P Require Import ReaderSubmission.
From S2P Require Import System SystemCorrectness SystemExchange.

(** ** Headers *)

Definition same_name (name : Str) (h : Str * Str) : bool :=
  bool_decide (map ascii_lower h.1 = map ascii_lower name).

#[global] Instance list_headers : HttpLibrary := {|
  HeaderMap := list (Str * Str);
  HeaderValue := Str;
  header_map_of l := l;
  header_get l name := snd <$> List.find (same_name name) l;
  header_to_str value := if forallb is_visible_ascii value then Some value else None
|}.

Lemma find_header l name text :
  NoDup (header_names l) -> (name, text) ∈ l -> List.find (same_name name) l = Some (name, text).
Proof.
  induction l as [|h l IH]; intros Hnd Hin; [by apply elem_of_nil in Hin|].
  apply NoDup_cons in Hnd as [Hnew Hnd]. cbn [List.find]. unfold same_name at 1.
  apply elem_of_cons in Hin as [<-|Hin]; [by rewrite bool_decide_eq_true_2|].
  rewrite bool_decide_eq_false_2; [by apply IH|]. intros Heq. destruct Hnew. rewrite Heq.
  by apply (list_elem_of_fmap_2 (fun h => map ascii_lower h.1) l (name, text)).
Qed.

#[global] Instance list_headers_laws : HttpLaws.
Proof.
  split. intros l name text Hnd Hin Hv. unfold header_text. cbn.
  rewrite (find_header _ _ _ Hnd Hin). cbn. by rewrite Hv.
Qed.

#[global] Instance text_urls : UrlLibrary := {|
  Url := Str;
  url_parse s := Some s;
  url_scheme _ := lit "https";
  url_username _ := [];
  url_password _ := None;
  url_host_str _ := Some (lit "localhost");
  url_join base path := Some (base ++ path)
|}.

(** ** Messages
    Bodies are what the reference printer prints, a byte per character. *)

Definition wire_read (body : list Z) : Result unit Json := ok_or (parse_json body) tt.

#[global] Instance wire_format : WireJson := {|
  wire_Error := unit;
  wire_data_error := tt;
  json_to_vec v := if printable v then Ok (print_json v) else Err tt;
  json_from_slice := wire_read;
  wire_error_text e := [];
  json_extractor limit headers body :=
    if bool_decide (header_text headers CONTENT_TYPE = Some (lit "application/json")) then
      if limit <? Z.of_nat (length body) then Err StatusCode.PAYLOAD_TOO_LARGE
      else v ← map_err (fun _ => StatusCode.BAD_REQUEST) (wire_read body);
           ok_or (deserialize v) StatusCode.UNPROCESSABLE_ENTITY
    else Err StatusCode.UNSUPPORTED_MEDIA_TYPE
|}.

#[global] Instance wire_format_laws : WireLaws.
Proof.
  split; cbn -[lit printable parse_json print_json].
  - intros v body _. destruct (printable v) eqn:Hv; [|done]. intros [= <-].
    unfold wire_read. by rewrite parse_json_print.
  - intros limit headers body r. case_bool_decide; [|done]. destruct (limit <? _); [done|].
    unfold from_slice. cbn [json_from_slice wire_format]. destruct (wire_read body) as [v|]; [|done].
    cbn [map_err mbind Result_bind]. by intros ->%ok_or_Ok.
  - intros limit headers body r Hc Hlen. rewrite bool_decide_eq_true_2 by done.
    rewrite (proj2 (Z.ltb_ge _ _)) by lia. unfold from_slice. cbn [json_from_slice wire_format].
    destruct (wire_read body) as [v|]; [|done]. cbn [map_err mbind Result_bind]. by intros ->%ok_or_Ok.
Qed.


(** ** The run *)

Definition wire_identity : ReaderDatabaseIdentity.t :=
  ReaderDatabaseIdentity.mk wire_reader (lit "development") (lit "0.1.0")
    DeviceProtocolVersion.CURRENT 1000.

Definition wire_draft (id : Uuid) : OfflineTransactionDraft.t :=
  OfflineTransactionDraft.mk (MkIdentifier id) (MkIdentifier uuid_1)
    (EventTime.mk 1000) (FarePolicyVersion.mk 1)
    (FareDecision.Approved (sample_money 275) FareApprovalReason.StandardFare) (JObject []) 1000.

Definition wire_client : HttpClient.t :=
  HttpClient.mk (lit "https://localhost/v1/reader-synchronization/batches")
    MAX_SYNCHRONIZATION_ACKNOWLEDGEMENT_BYTES.

Definition wire_timeout : ReqwestError := MkReqwestError true.

(** Two transactions are queued and put in a batch. *)
Definition wire_queued : list SystemEvent :=
  [StatusEvent wire_reader ReaderEquipmentStatus.Active;
   ReaderEvent (BindReaderDatabase wire_identity) [];
   ReaderEvent (EnqueueOfflineTransaction wire_reader (wire_draft uuid_first)) [];
   ReaderEvent (EnqueueOfflineTransaction wire_reader (wire_draft uuid_second)) [];
   ReaderEvent (CreateSynchronizationBatch wire_reader DeviceProtocolVersion.CURRENT 2000 10
                  wire_batch) [];
   ReaderEvent (MarkSynchronizationBatchInFlight wire_reader wire_batch 3000) []].

(** The backend stores the batch but its reply is lost; the reader tries again
    later, and the reply comes in pieces. *)
Definition wire_exchanges : list SystemEvent :=
  [SubmitEvent wire_client wire_reader wire_batch 3600 5000 []
     (Delivered (Some 3500) [] (ReplyLost wire_timeout));
   ReaderEvent (MarkSynchronizationBatchInFlight wire_reader wire_batch 6000) [];
   SubmitEvent wire_client wire_reader wire_batch 6600 9000 []
     (Delivered (Some 6500) [] (Replied [1%nat] None))].

Definition wire_run : System := system_run wire_service (wire_queued ++ wire_exchanges).

(** After it both transactions are acknowledged, with the sequence 2. *)
Example wire_run_settles :
  (OfflineTransactionRow.queue_state <$> offline_transactions (reader wire_run) !! MkIdentifier uuid_first,
   OfflineTransactionRow.queue_state <$> offline_transactions (reader wire_run) !! MkIdentifier uuid_second,
   ReaderStateRow.last_acknowledged_sequence <$> reader_state (reader wire_run))
  = (Some OfflineQueueState.Acknowledged, Some OfflineQueueState.Acknowledged, Some 2).
Proof. vm_compute. reflexivity. Qed.

Example wire_run_received : received (backend wire_run) = [wire_request; wire_request].
Proof. vm_compute. reflexivity. Qed.

Lemma wire_distinct requests :
  Forall (fun r => r = wire_request) requests -> distinct_requests requests.
Proof.
  rewrite Forall_forall. intros Hall r Hr. rewrite (Hall _ Hr). split; [exact wire_request_wf|].
  intros r' Hr'. rewrite (Hall _ Hr'). by intros [Hne _].
Qed.

(** The reference library reads what it printed as the same value, so every
    queue is stable. *)
Lemma reference_stable_queue t : stable_queue t.
Proof.
  intros x r envelope _. unfold envelope_stable, CanonicalTransactionEnvelope.from_json.
  case_match; [done|]. intros (parsed & _ & Hc)%Result_bind_Ok.
  destruct (json_is_object parsed) eqn:Hobject; [|done]. cbn [negb] in Hc.
  apply Result_bind_Ok in Hc as (canonical & Hprint%map_err_Ok & Hc).
  case_match eqn:Hsize; [done|]. injection Hc as <-.
  cbn [CanonicalTransactionEnvelope.as_str].
  rewrite Hsize, (reference_json_exact _ _ Hprint). cbn [map_err mbind Result_bind].
  rewrite Hobject, Hprint. cbn [map_err mbind Result_bind negb]. by rewrite Hsize.
Qed.

(** The transaction survives what the backend goes through afterwards. *)
Definition wire_later : list SystemEvent :=
  [RestartEvent; StatusEvent wire_reader ReaderEquipmentStatus.Disabled;
   ServeEvent (MkHttpRequest [(CONTENT_TYPE, lit "application/json")] [1]) None []].

Lemma acknowledged_end_to_end_witness :
  let later := system_run wire_service ((wire_queued ++ wire_exchanges) ++ wire_later) in
  durable (reader later) (backend_tables (backend later)) (MkIdentifier uuid_first).
Proof.
  pose proof (acknowledged_end_to_end wire_service (wire_queued ++ wire_exchanges) wire_later) as Hc.
  cbv zeta in Hc. cbv zeta. fold wire_run in Hc.
  destruct Hc as [Hc _].
  - vm_compute. reflexivity.
  - rewrite wire_run_received. apply wire_distinct. repeat constructor.
  - apply reference_stable_queue.
  - pose proof (f_equal (fun x => x.1.1) wire_run_settles) as Hs. cbn [fst] in Hs.
    destruct (offline_transactions (reader wire_run) !! MkIdentifier uuid_first) as [r|] eqn:Hr;
      [|discriminate Hs].
    injection Hs as Hs. exact (Hc _ r Hr Hs).
Defined.

(** The batch again, at the backend that already has it: the acknowledgement
    comes back as a replay. *)
Lemma exchange_calls_service_witness :
  exists b', transport_submit (SynchronizationTransport := http_transport wire_client
      (network_send (Delivered (Some 7000) [] (Replied [1%nat; 1%nat] None)))) wire_request
      (backend wire_run)
    = (b', Ok (SBA.with_replayed (answer wire_request 3500) true))
  /\ IB.received_at <$> ingest_batches (backend_tables b') !! wire_batch = Some 3500.
Proof.
  set (call := Service.process (ApiState.synchronization_service (api (backend wire_run))) wire_request
    7000 (MkDb (backend_tables (backend wire_run)) [])).
  assert (call.2 = Ok (SBA.with_replayed (answer wire_request 3500) true)) as Hr
    by (vm_compute; reflexivity).
  assert (IB.received_at <$> ingest_batches (tables call.1) !! wire_batch = Some 3500) as Ht
    by (vm_compute; reflexivity).
  assert (call = (call.1, Ok (SBA.with_replayed (answer wire_request 3500) true))) as Hcall
    by (rewrite <- Hr; apply surjective_pairing).
  pose proof (exchange_calls_service wire_service (wire_queued ++ wire_exchanges) wire_client
    wire_request (print_json (serialize wire_request)) (Some 7000) 7000 [] [1%nat; 1%nat] call.1
    (Ok (SBA.with_replayed (answer wire_request 3500) true))) as Hc.
  cbv zeta in Hc. fold wire_run in Hc. destruct Hc as (b' & Hb & Htab).
  - vm_compute. reflexivity.
  - rewrite wire_run_received. apply wire_distinct. repeat constructor.
  - exact wire_definition_typed.
  - vm_compute. reflexivity.
  - reflexivity.
  - vm_compute. reflexivity.
  - vm_compute. discriminate.
  - vm_compute. reflexivity.
  - exact Hcall.
  - exists (print_json (serialize (SBA.with_replayed (answer wire_request 3500) true))).
    split; [vm_compute; reflexivity|]. vm_compute. split; discriminate.
  - exists b'. split; [exact Hb|]. rewrite Htab. exact Ht.
Defined.

(** The run after the lost reply, when the batch is in flight again. *)
Definition wire_retry : list SystemEvent := wire_queued ++ take 2 wire_exchanges.

Definition wire_retried : System := system_run wire_service wire_retry.

Definition wire_answer_again : SBA.t := SBA.with_replayed (answer wire_request 3500) true.

Definition wire_payload : Str :=
  match RA.canonical_payload (reader_acknowledgement wire_answer_again) with
  | Ok payload => payload
  | Err _ => []
  end.

Lemma wire_waiting :
  waiting wire_reader wire_batch (reader wire_retried) wire_request
    (Z.max 6600 (SBA.received_at_unix_milliseconds wire_answer_again)).
Proof.
  replace (Z.max 6600 (SBA.received_at_unix_milliseconds wire_answer_again)) with 6600
    by (vm_compute; reflexivity).
  split.
  - vm_compute. reflexivity.
  - vm_compute. reflexivity.
  - intros b Hb. assert (match synchronization_batches (reader wire_retried)
      !! wire_batch with
      | Some b => (BatchRow.attempt_count b <=? 4294967295) && (BatchRow.updated_at b <=? 6600)
      | None => true
      end = true) as Hcheck by (vm_compute; reflexivity).
    rewrite Hb in Hcheck. apply andb_prop in Hcheck as [H1%Z.leb_le H2%Z.leb_le].
    exact (conj H1 H2).
  - intros e r He Hr. assert (forallb (fun e =>
      match offline_transactions (reader wire_retried)
        !! SRE.transaction_id e with
      | Some r => bool_decide (TX.queue_state r = OfflineQueueState.InFlight)
                  && (TX.updated_at r <=? 6600)
      | None => true
      end) (SBR.entries wire_request) = true) as Hcheck by (vm_compute; reflexivity).
    rewrite forallb_forall in Hcheck. apply list_elem_of_In in He. specialize (Hcheck e He).
    rewrite Hr in Hcheck. apply andb_prop in Hcheck as [H1%bool_decide_eq_true H2%Z.leb_le].
    exact (conj H1 H2).
Qed.

(** The reply to the retry settles the batch that the backend already has. *)
Lemma delivered_exchange_settles_witness :
  let s' := system_step wire_retried
    (SubmitEvent wire_client wire_reader wire_batch 6600 9000 []
       (Delivered (Some 6500) [] (Replied [1%nat] None))) in
  exists b', synchronization_batches (reader s') !! wire_batch = Some b'
    /\ BatchRow.batch_state b' = SynchronizationBatchState.Acknowledged.
Proof.
  set (call := Service.process (ApiState.synchronization_service (api (backend wire_retried)))
    wire_request 6500 (MkDb (backend_tables (backend wire_retried)) [])).
  assert (call.2 = Ok wire_answer_again) as Hr by (vm_compute; reflexivity).
  assert (call = (call.1, Ok wire_answer_again)) as Hcall by (rewrite <- Hr; apply surjective_pairing).
  pose proof (delivered_exchange_settles wire_service wire_retry wire_client wire_reader wire_batch
    6600 9000 wire_request (print_json (serialize wire_request)) (Some 6500) 6500 [1%nat] call.1
    wire_answer_again wire_payload) as Hc.
  cbv zeta in Hc. fold wire_retried in Hc. cbv zeta. destruct Hc as [Hc _].
  - vm_compute. reflexivity.
  - assert (received (backend wire_retried) = [wire_request]) as -> by (vm_compute; reflexivity).
    apply wire_distinct. repeat constructor.
  - exact wire_definition_typed.
  - vm_compute. reflexivity.
  - reflexivity.
  - vm_compute. reflexivity.
  - vm_compute. discriminate.
  - vm_compute. reflexivity.
  - exact Hcall.
  - exists (print_json (serialize wire_answer_again)).
    split; [vm_compute; reflexivity|]. vm_compute. split; discriminate.
  - exact wire_waiting.
  - split; vm_compute; reflexivity.
  - exact Hc.
Defined.

(** A batch, the batch again, and a body that is not JSON. *)
Definition wire_submissions : list SubmissionCall :=
  let headers := header_map_of (HttpClient.request_header_list wire_request) in
  [MkSubmissionCall headers (Ok wire_request) (Some 3500);
   MkSubmissionCall headers (Ok wire_request) (Some 3600);
   MkSubmissionCall headers (Err StatusCode.BAD_REQUEST) (Some 3700)].

Lemma health_accounts_for_answers_witness :
  exists events responses state',
    submissions wire_submissions (ApiState.mk (MkDb wire_tables []) wire_service Inner.default)
      = (state', responses)
    /\ Forall2 reports responses events
    /\ Snapshot.requests_total (snapshot (ApiState.synchronization_telemetry state')) = 3.
Proof.
  set (run := submissions wire_submissions
    (ApiState.mk (MkDb wire_tables []) wire_service Inner.default)).
  destruct (health_accounts_for_answers wire_submissions (MkDb wire_tables []) wire_service run.1 run.2
    (surjective_pairing run)) as (events & Hall & _ & Hn & _).
  exists events, run.2, run.1. split; [apply surjective_pairing|]. split; [exact Hall|]. exact Hn.
Defined.
