(* ===== verification/ApplicationPorts.v ===== *)
(** * Application ports (crates/application/src: error.rs, clock.rs, ports.rs,
    unit_of_work.rs, versioning.rs, use_cases/support.rs)

    The infrastructure behind the ports is an interface, [ApplicationPorts]:
    the methods of [Clock], [TransactionManager], [ApplicationTransaction] and
    the two identifier generators, as state-and-error actions on a world [W]
    with transaction handles [T].  [TransactionLaws] is the contract that the
    documentation of [ApplicationTransaction] states: save conditions are
    enforced and changes stay provisional until [commit] succeeds.  The use
    cases are verified against the interface; [memory_ports] implements it. *)

From S2P Require Import Prelude Text DomainMoney DomainIdentifier DomainAccount.
From S2P Require Import DomainCredential DomainEquipment DomainTransaction DomainEvents.

(** ** Errors *)

Module RepositoryError.

(** The boxed source is never inspected. *)
Record t := new { entity : Str; operation : Str }.

#[global] Instance eq_dec : EqDecision t.
Proof. solve_decision. Defined.

End RepositoryError.

Module ClockError.

Record t := new { operation : Str }.

#[global] Instance eq_dec : EqDecision t.
Proof. solve_decision. Defined.

End ClockError.

Module ApplicationError.

Inductive t :=
| NotFound (entity identifier : Str)
| Conflict (operation reason : Str)
| FareCredential (e : FareCredentialError.t)
| Repository (e : RepositoryError.t)
| Clock (e : ClockError.t).

#[global] Instance eq_dec : EqDecision t.
Proof. solve_decision. Defined.

Definition not_found (entity identifier : Str) : t := NotFound entity identifier.
Definition conflict (operation reason : Str) : t := Conflict operation reason.

End ApplicationError.

(** ** Versions *)

Module SaveCondition.

Inductive t :=
| MustNotExist
| IfVersion (version : AggregateVersion.t).

#[global] Instance eq_dec : EqDecision t.
Proof. solve_decision. Defined.

End SaveCondition.

Module VersionedAggregate.

Record t (A : Type) := new { aggregate : A; version : AggregateVersion.t }.

Arguments new {A} aggregate version.
Arguments aggregate {A} _.
Arguments version {A} _.

#[global] Instance eq_dec {A} `{EqDecision A} : EqDecision (t A).
Proof. solve_decision. Defined.

Definition next_version {A} (self : t A) : option AggregateVersion.t :=
  value ← u64_checked_add (AggregateVersion.value (version self)) 1;
  result_ok (AggregateVersion.new value).

End VersionedAggregate.

Abbreviation Versioned := VersionedAggregate.t.

(** ** The ports *)

Class ApplicationPorts (W T : Type) := {
  now : Mut W ClockError.t DomainEventTime.t;
  generate_credential_id : W -> W * FareCredentialId;
  generate_event_id : W -> W * DomainEventId;
  begin_transaction : Mut W RepositoryError.t T;
  find_transit_account : T -> TransitAccountId ->
    Mut W RepositoryError.t (option (Versioned TransitAccount.t));
  save_transit_account : T -> TransitAccount.t -> SaveCondition.t ->
    Mut W RepositoryError.t unit;
  find_fare_credential : T -> FareCredentialId ->
    Mut W RepositoryError.t (option (Versioned FareCredential.t));
  save_fare_credential : T -> FareCredential.t -> SaveCondition.t ->
    Mut W RepositoryError.t unit;
  find_reader_equipment : T -> ReaderId ->
    Mut W RepositoryError.t (option (Versioned ReaderEquipment.t));
  save_reader_equipment : T -> ReaderEquipment.t -> SaveCondition.t ->
    Mut W RepositoryError.t unit;
  append_domain_event : T -> DomainEvent.t -> Mut W RepositoryError.t unit;
  commit : T -> Mut W RepositoryError.t unit;
  rollback : T -> Mut W RepositoryError.t unit
}.

(** ** What is durable *)

Module Store.

Record t := mk {
  accounts : gmap TransitAccountId (Versioned TransitAccount.t);
  credentials : gmap FareCredentialId (Versioned FareCredential.t);
  readers : gmap ReaderId (Versioned ReaderEquipment.t);
  events : list DomainEvent.t
}.

Definition empty : t := mk ∅ ∅ ∅ [].

End Store.

(** The provisional changes of a transaction. *)
Inductive Write :=
| SaveAccount (account : TransitAccount.t) (condition : SaveCondition.t)
| SaveCredential (credential : FareCredential.t) (condition : SaveCondition.t)
| SaveReader (reader : ReaderEquipment.t) (condition : SaveCondition.t)
| AppendEvent (event : DomainEvent.t).

(** A conditional save: insertion at version one, or replacement of the
    expected version by the next. *)
Definition apply_save {K A} `{Countable K} (key : K) (value : A) (condition : SaveCondition.t)
    (m : gmap K (Versioned A)) : option (gmap K (Versioned A)) :=
  match condition, m !! key with
  | SaveCondition.MustNotExist, None =>
      Some (<[key := VersionedAggregate.new value (AggregateVersion.mk 1)]> m)
  | SaveCondition.IfVersion expected, Some stored =>
      if decide (VersionedAggregate.version stored = expected) then
        next ← VersionedAggregate.next_version stored;
        Some (<[key := VersionedAggregate.new value next]> m)
      else None
  | _, _ => None
  end.

Definition apply_write (s : Store.t) (w : Write) : option Store.t :=
  match w with
  | SaveAccount a condition =>
      m ← apply_save (TransitAccount.id a) a condition (Store.accounts s);
      Some (Store.mk m (Store.credentials s) (Store.readers s) (Store.events s))
  | SaveCredential c condition =>
      m ← apply_save (FareCredential.id c) c condition (Store.credentials s);
      Some (Store.mk (Store.accounts s) m (Store.readers s) (Store.events s))
  | SaveReader r condition =>
      m ← apply_save (ReaderEquipment.id r) r condition (Store.readers s);
      Some (Store.mk (Store.accounts s) (Store.credentials s) m (Store.events s))
  | AppendEvent e =>
      Some (Store.mk (Store.accounts s) (Store.credentials s) (Store.readers s)
              (Store.events s ++ [e]))
  end.

Fixpoint apply_writes (ws : list Write) (s : Store.t) : option Store.t :=
  match ws with
  | [] => Some s
  | w :: ws' => s' ← apply_write s w; apply_writes ws' s'
  end.

(** ** How a store evolves *)

(** Versions only grow, and one version is one value. *)
Definition advances {K A} `{Countable K} (m m' : gmap K (Versioned A)) : Prop :=
  forall k x, m !! k = Some x ->
  exists x', m' !! k = Some x'
    /\ AggregateVersion.value (VersionedAggregate.version x)
       <= AggregateVersion.value (VersionedAggregate.version x')
    /\ (VersionedAggregate.version x = VersionedAggregate.version x' -> x = x').

(** Every credential is stored under its own identity. *)
Definition store_wf (s : Store.t) : Prop :=
  forall id x, Store.credentials s !! id = Some x ->
  FareCredential.id (VersionedAggregate.aggregate x) = id.

Record evolves (s s' : Store.t) : Prop := {
  evolves_accounts : advances (Store.accounts s) (Store.accounts s');
  evolves_credentials : advances (Store.credentials s) (Store.credentials s');
  evolves_readers : advances (Store.readers s) (Store.readers s');
  evolves_events : Store.events s `prefix_of` Store.events s';
  evolves_wf : store_wf s -> store_wf s'
}.

(** ** The contract

    [others s s'] says that the commits of other transactions may lead from
    [s] to [s']; they interleave with every operation. *)
Class TransactionLaws (W T : Type) `{ApplicationPorts W T} := {
  durable : W -> Store.t;
  pending : T -> W -> list Write;
  others : Store.t -> Store.t -> Prop;
  #[global] others_preorder :: PreOrder others;
  others_evolve s s' : others s s' -> evolves s s';
  now_law w : let w' := (now w).1 in
    others (durable w) (durable w') /\ forall t, pending t w' = pending t w;
  generate_credential_id_law w : let w' := (generate_credential_id w).1 in
    others (durable w) (durable w') /\ forall t, pending t w' = pending t w;
  generate_event_id_law w : let w' := (generate_event_id w).1 in
    others (durable w) (durable w') /\ forall t, pending t w' = pending t w;
  begin_law w : let '(w', r) := begin_transaction w in
    others (durable w) (durable w') /\ forall t, r = Ok t -> pending t w' = [];
  find_account_law t id w : let '(w', r) := find_transit_account t id w in
    others (durable w) (durable w')
    /\ forall x, r = Ok x -> pending t w' = pending t w
         /\ exists s seen, others (durable w) s /\ others s (durable w')
              /\ apply_writes (pending t w) s = Some seen /\ x = Store.accounts seen !! id;
  find_credential_law t id w : let '(w', r) := find_fare_credential t id w in
    others (durable w) (durable w')
    /\ forall x, r = Ok x -> pending t w' = pending t w
         /\ exists s seen, others (durable w) s /\ others s (durable w')
              /\ apply_writes (pending t w) s = Some seen /\ x = Store.credentials seen !! id;
  save_credential_law t c condition w : let '(w', r) := save_fare_credential t c condition w in
    others (durable w) (durable w')
    /\ (r = Ok tt -> pending t w' = pending t w ++ [SaveCredential c condition]);
  append_law t e w : let '(w', r) := append_domain_event t e w in
    others (durable w) (durable w')
    /\ (r = Ok tt -> pending t w' = pending t w ++ [AppendEvent e]);
  commit_law t w : let '(w', r) := commit t w in
    (exists s s', others (durable w) s /\ apply_writes (pending t w) s = Some s'
       /\ others s' (durable w'))
    \/ (r <> Ok tt /\ others (durable w) (durable w'));
  rollback_law t w : others (durable w) (durable (rollback t w).1)
}.

(** ** Rolling back *)

Section rollback.
Context {W T : Type} `{ApplicationPorts W T}.

(** A rollback failure replaces the original error. *)
Definition rollback_with {A} (transaction : T) (original_error : ApplicationError.t)
  : Mut W ApplicationError.t A := fun w =>
  match rollback transaction w with
  | (w', Ok _) => (w', Err original_error)
  | (w', Err rollback_error) => (w', Err (ApplicationError.Repository rollback_error))
  end.

(** [match action { Ok(a) => a, Err(e) => return rollback_with(..) }]. *)
Definition or_rollback {E A} (transaction : T) (convert : E -> ApplicationError.t)
    (action : Mut W E A) : Mut W ApplicationError.t A := fun w =>
  match action w with
  | (w', Ok a) => (w', Ok a)
  | (w', Err e) => rollback_with transaction (convert e) w'
  end.

(** [match value { Some(a) => a, None => return rollback_with(..) }]. *)
Definition some_or_rollback {A} (transaction : T) (error : ApplicationError.t) (value : option A)
  : Mut W ApplicationError.t A :=
  match value with
  | Some a => mret a
  | None => rollback_with transaction error
  end.

(** The [?] operator on a port: only the error is converted. *)
Definition convert_error {E A} (convert : E -> ApplicationError.t) (action : Mut W E A)
  : Mut W ApplicationError.t A := fun w =>
  let '(w', r) := action w in (w', map_err convert r).

(** An infallible generator. *)
Definition generated {A} (g : W -> W * A) : Mut W ApplicationError.t A := fun w =>
  let '(w', a) := g w in (w', Ok a).

End rollback.

(** ** Evolution is an order that every transaction follows *)

Lemma VersionedAggregate_next {A} (x : Versioned A) v :
  VersionedAggregate.next_version x = Some v <->
  v = AggregateVersion.mk (AggregateVersion.value (VersionedAggregate.version x) + 1)
  /\ in_u64 (AggregateVersion.value v)
  /\ AggregateVersion.value v <> 0.
Proof.
  unfold VersionedAggregate.next_version, u64_checked_add, u64_try_from, AggregateVersion.new.
  case_decide as Hr; cbn; [|split; [done|intros (-> & ? & _); done]].
  match goal with |- context [?z =? 0] => destruct (Z.eqb_spec z 0) end; cbn.
  - split; [done|]. intros (-> & _ & Hne). done.
  - split; [by intros [= <-]|]. by intros (-> & _ & _).
Qed.

Section advances.
Context {K A : Type} `{Countable K}.
Implicit Types m : gmap K (Versioned A).

Lemma advances_refl m : advances m m.
Proof. intros k x Hx. exists x. split_and!; [done|lia|done]. Qed.

Lemma advances_trans m1 m2 m3 : advances m1 m2 -> advances m2 m3 -> advances m1 m3.
Proof.
  intros H12 H23 k x Hx. destruct (H12 k x Hx) as (y & Hy & Hle & Heq).
  destruct (H23 k y Hy) as (z & Hz & Hle' & Heq'). exists z. split_and!; [done|lia|].
  intros Hv. assert (Hxy : VersionedAggregate.version x = VersionedAggregate.version y).
  { destruct (VersionedAggregate.version x) as [a] eqn:Ex,
      (VersionedAggregate.version y) as [b] eqn:Ey, (VersionedAggregate.version z) as [c] eqn:Ez.
    cbn in *. injection Hv as ->. f_equal. lia. }
  rewrite (Heq Hxy). apply Heq'. congruence.
Qed.

Lemma apply_save_advances key value condition m m' :
  apply_save key value condition m = Some m' -> advances m m'.
Proof.
  unfold apply_save. destruct condition as [|expected]; destruct (m !! key) as [stored|] eqn:Hk;
    try done.
  - intros [= <-] k x Hx. exists x. rewrite lookup_insert_ne by congruence.
    split_and!; [done|lia|done].
  - case_decide as Hv; [|done].
    destruct (VersionedAggregate.next_version stored) as [next|] eqn:Hn; cbn; [|done].
    intros [= <-] k x Hx. apply VersionedAggregate_next in Hn as (-> & _ & _).
    destruct (decide (k = key)) as [->|Hne].
    + rewrite lookup_insert_eq. eexists. split; [done|]. rewrite Hk in Hx. injection Hx as <-.
      cbn. split; [lia|]. intros Heq. destruct (VersionedAggregate.version stored). cbn in *.
      injection Heq as Heq. lia.
    + rewrite lookup_insert_ne by done. exists x. split_and!; [done|lia|done].
Qed.

End advances.

Lemma evolves_refl s : evolves s s.
Proof. split; [apply advances_refl..|done|done]. Qed.

Lemma evolves_trans s1 s2 s3 : evolves s1 s2 -> evolves s2 s3 -> evolves s1 s3.
Proof.
  intros [] []. split; try (by eapply advances_trans); [by etrans|by auto].
Qed.

#[export] Instance evolves_preorder : PreOrder evolves.
Proof. split; [exact evolves_refl|exact evolves_trans]. Qed.

Lemma apply_save_wf (key : FareCredentialId) c condition m m' :
  apply_save key c condition m = Some m' -> FareCredential.id c = key ->
  (forall id x, m !! id = Some x -> FareCredential.id (VersionedAggregate.aggregate x) = id) ->
  forall id x, m' !! id = Some x -> FareCredential.id (VersionedAggregate.aggregate x) = id.
Proof.
  intros Hs Hc Hm id x. unfold apply_save in Hs.
  assert (exists v, m' = <[key := VersionedAggregate.new c v]> m) as [v ->].
  { destruct condition, (m !! key); try done; [by eexists; injection Hs as <-|].
    case_decide; [|done].
    destruct (VersionedAggregate.next_version _); cbn in Hs; [|done].
    injection Hs as <-. by eexists. }
  rewrite lookup_insert_Some. intros [[<- <-]|[_ Hx]]; [done|by apply Hm].
Qed.

(** A committed transaction is an evolution, whatever it wrote: this is why
    the transactions of the application may be each other's [others]. *)
Lemma apply_write_evolves w s s' : apply_write s w = Some s' -> evolves s s'.
Proof.
  destruct w as [a condition|c condition|r condition|e]; cbn;
    [destruct (apply_save _ a _ _) as [m|] eqn:Hs|destruct (apply_save _ c _ _) as [m|] eqn:Hs
    |destruct (apply_save _ r _ _) as [m|] eqn:Hs|]; cbn; intros [= <-];
    (split; cbn; try apply advances_refl; try (by eapply apply_save_advances); try done).
  - intros Hwf. exact (apply_save_wf _ _ _ _ _ Hs eq_refl Hwf).
  - by apply prefix_app_r.
Qed.

Lemma apply_writes_evolves ws s s' : apply_writes ws s = Some s' -> evolves s s'.
Proof.
  revert s. induction ws as [|w ws IH]; intros s; cbn; [intros [= <-]; apply evolves_refl|].
  destruct (apply_write s w) as [s1|] eqn:Hw; cbn; [|done]. intros Hws.
  etrans; [by eapply apply_write_evolves|by apply IH].
Qed.

(** ** Steps of a use case before its commit *)

Section steps.
Context {W T : Type} `{TL : TransactionLaws W T}.

(** The transaction [t] holds the writes [ws], and only other transactions
    have changed the store since it was [s0]. *)
Definition holds (t : T) (s0 : Store.t) (ws : list Write) (w : W) : Prop :=
  others s0 (durable w) /\ pending t w = ws.

(** Errors that leave the store to the other transactions. *)
Definition untouched (s0 : Store.t) (e : ApplicationError.t) (w : W) : Prop :=
  others s0 (durable w).

Lemma wp_rollback_with {A} t s0 w e (Q : A -> W -> Prop) :
  others s0 (durable w) -> wp (rollback_with t e) Q (untouched s0) w.
Proof.
  intros Ho. unfold wp, rollback_with. pose proof (rollback_law t w) as Hr.
  destruct (rollback t w) as [w' [[]|e']]; cbn in *; unfold untouched; by etrans.
Qed.

Lemma wp_or_rollback {E A} t s0 (convert : E -> ApplicationError.t) (action : Mut W E A) Q w :
  wp action Q (fun _ w' => others s0 (durable w')) w ->
  wp (or_rollback t convert action) Q (untouched s0) w.
Proof.
  unfold wp, or_rollback. destruct (action w) as [w' [a|e]]; [done|].
  intros Ho. exact (wp_rollback_with t s0 w' (convert e) Q Ho).
Qed.

Lemma wp_some_or_rollback {A} t s0 e (o : option A) Q w :
  others s0 (durable w) -> (forall a, o = Some a -> Q a w) ->
  wp (some_or_rollback t e o) Q (untouched s0) w.
Proof.
  intros Ho HQ. destruct o as [a|]; [by apply HQ|]. by apply wp_rollback_with.
Qed.

Lemma wp_lift_or_rollback {E A} t s0 (convert : E -> ApplicationError.t) (r : Result E A) Q w :
  others s0 (durable w) -> (forall a, r = Ok a -> Q a w) ->
  wp (or_rollback t convert (lift r)) Q (untouched s0) w.
Proof.
  intros Ho HQ. apply wp_or_rollback. unfold wp, lift. destruct r; [by apply HQ|done].
Qed.

Lemma wp_begin s0 w Q :
  others s0 (durable w) -> (forall t w', holds t s0 [] w' -> Q t w') ->
  wp (convert_error ApplicationError.Repository begin_transaction) Q (untouched s0) w.
Proof.
  intros Ho HQ. unfold wp, convert_error. pose proof (begin_law w) as Hl.
  destruct (begin_transaction w) as [w' [t|e]]; cbn; destruct Hl as [Hl Hp].
  - apply HQ. split; [by etrans|by apply Hp].
  - unfold untouched. by etrans.
Qed.

Lemma wp_now t s0 ws w Q :
  holds t s0 ws w -> (forall time w', holds t s0 ws w' -> Q time w') ->
  wp (or_rollback t ApplicationError.Clock now) Q (untouched s0) w.
Proof.
  intros [Ho Hp] HQ. apply wp_or_rollback. unfold wp. destruct (now_law w) as [Hl Hl'].
  destruct (now w) as [w' [time|e]]; cbn in *; [|by etrans].
  apply HQ. split; [by etrans|by rewrite Hl'].
Qed.

(** The clock read before any transaction. *)
Lemma wp_clock s0 w Q :
  others s0 (durable w) -> (forall time w', others s0 (durable w') -> Q time w') ->
  wp (convert_error ApplicationError.Clock now) Q (untouched s0) w.
Proof.
  intros Ho HQ. unfold wp, convert_error. destruct (now_law w) as [Hl _].
  destruct (now w) as [w' [time|e]]; cbn in *; [apply HQ|unfold untouched]; by etrans.
Qed.

Lemma wp_event_id t s0 ws w Q :
  holds t s0 ws w -> (forall id w', holds t s0 ws w' -> Q id w') ->
  wp (generated generate_event_id) Q (untouched s0) w.
Proof.
  intros [Ho Hp] HQ. unfold wp, generated. destruct (generate_event_id_law w) as [Hl Hl'].
  destruct (generate_event_id w) as [w' id]; cbn in *. apply HQ. split; [by etrans|by rewrite Hl'].
Qed.

Lemma wp_credential_id t s0 ws w Q :
  holds t s0 ws w -> (forall id w', holds t s0 ws w' -> Q id w') ->
  wp (generated generate_credential_id) Q (untouched s0) w.
Proof.
  intros [Ho Hp] HQ. unfold wp, generated. destruct (generate_credential_id_law w) as [Hl Hl'].
  destruct (generate_credential_id w) as [w' id]; cbn in *.
  apply HQ. split; [by etrans|by rewrite Hl'].
Qed.

(** Reading in a transaction that has written nothing shows a store of that
    moment. *)
Lemma wp_find_credential t s0 id w Q :
  holds t s0 [] w ->
  (forall x w' s, holds t s0 [] w' -> others s0 s -> others s (durable w') ->
     x = Store.credentials s !! id -> Q x w') ->
  wp (or_rollback t ApplicationError.Repository (find_fare_credential t id)) Q (untouched s0) w.
Proof.
  intros [Ho Hp] HQ. apply wp_or_rollback. unfold wp. pose proof (find_credential_law t id w) as Hl.
  destruct (find_fare_credential t id w) as [w' [x|e]]; destruct Hl as (Hl & Hx);
    [|by etrans].
  destruct (Hx x eq_refl) as (Hp' & s & seen & H1 & H2 & Hseen & ->). rewrite Hp in Hseen.
  injection Hseen as <-. apply (HQ _ _ s); [split; [by etrans|congruence]|by etrans|done|done].
Qed.

Lemma wp_find_account t s0 id w Q :
  holds t s0 [] w ->
  (forall x w' s, holds t s0 [] w' -> others s0 s -> others s (durable w') ->
     x = Store.accounts s !! id -> Q x w') ->
  wp (or_rollback t ApplicationError.Repository (find_transit_account t id)) Q (untouched s0) w.
Proof.
  intros [Ho Hp] HQ. apply wp_or_rollback. unfold wp. pose proof (find_account_law t id w) as Hl.
  destruct (find_transit_account t id w) as [w' [x|e]]; destruct Hl as (Hl & Hx);
    [|by etrans].
  destruct (Hx x eq_refl) as (Hp' & s & seen & H1 & H2 & Hseen & ->). rewrite Hp in Hseen.
  injection Hseen as <-. apply (HQ _ _ s); [split; [by etrans|congruence]|by etrans|done|done].
Qed.

Lemma wp_save_credential t s0 ws c condition w (Q : unit -> W -> Prop) :
  holds t s0 ws w ->
  (forall w', holds t s0 (ws ++ [SaveCredential c condition]) w' -> Q tt w') ->
  wp (or_rollback t ApplicationError.Repository (save_fare_credential t c condition)) Q
    (untouched s0) w.
Proof.
  intros [Ho Hp] HQ. apply wp_or_rollback. unfold wp.
  pose proof (save_credential_law t c condition w) as Hl.
  destruct (save_fare_credential t c condition w) as [w' [[]|e]]; destruct Hl as [Hl Hl'];
    [|by etrans].
  apply HQ. split; [by etrans|]. by rewrite Hl', Hp.
Qed.

Lemma wp_append t s0 ws e w (Q : unit -> W -> Prop) :
  holds t s0 ws w -> (forall w', holds t s0 (ws ++ [AppendEvent e]) w' -> Q tt w') ->
  wp (or_rollback t ApplicationError.Repository (append_domain_event t e)) Q (untouched s0) w.
Proof.
  intros [Ho Hp] HQ. apply wp_or_rollback. unfold wp. pose proof (append_law t e w) as Hl.
  destruct (append_domain_event t e w) as [w' [[]|err]]; destruct Hl as [Hl Hl']; [|by etrans].
  apply HQ. split; [by etrans|]. by rewrite Hl', Hp.
Qed.

(** The writes [ws] have become durable at one moment. *)
Definition committed (ws : list Write) (s0 : Store.t) (w : W) : Prop :=
  exists s s', others s0 s /\ apply_writes ws s = Some s' /\ others s' (durable w).

Lemma wp_commit t s0 ws w (Q : unit -> W -> Prop) (R : ApplicationError.t -> W -> Prop) :
  holds t s0 ws w ->
  (forall w', committed ws s0 w' -> Q tt w') ->
  (forall e w', others s0 (durable w') \/ committed ws s0 w' ->
     R (ApplicationError.Repository e) w') ->
  wp (convert_error ApplicationError.Repository (commit t)) Q R w.
Proof.
  intros [Ho Hp] HQ HR. unfold wp, convert_error. pose proof (commit_law t w) as Hl.
  assert (Hc : forall w' : W, (exists s s', others (durable w) s
    /\ apply_writes (pending t w) s = Some s' /\ others s' (durable w')) -> committed ws s0 w').
  { intros w' (s & s' & H1 & H2 & H3). exists s, s'. rewrite Hp in H2.
    split_and!; [by etrans|done|done]. }
  destruct (commit t w) as [w' [[]|e]]; cbn.
  - apply HQ, Hc. by destruct Hl as [?|[? _]].
  - apply HR. destruct Hl as [?|[_ ?]]; [right; by apply Hc|left; by etrans].
Qed.

End steps.
