(* ===== verification/ApplicationMemory.v ===== *)
(** * An in-memory implementation of the ports

    One store, numbered transactions that buffer their writes, and a script of
    faults: every repository call consumes one entry, and fails when it says
    so.  It meets [TransactionLaws] with no other transactions, so the
    contract the use cases are verified against can be met, failures
    included. *)

From S2P Require Import Prelude Text DomainMoney DomainIdentifier DomainAccount.
From S2P Require Import DomainCredential DomainEquipment DomainTransaction DomainEvents.
From S2P Require Import ApplicationPorts.

Record Memory := {
  m_store : Store.t;
  m_open : gmap nat (list Write);
  m_next_transaction : nat;
  m_faults : list bool;
  m_time : Result ClockError.t DomainEventTime.t;
  m_next_id : N
}.

Definition m_pending (t : nat) (m : Memory) : list Write := default [] (m_open m !! t).

Definition m_consume (m : Memory) : Memory :=
  {| m_store := m_store m; m_open := m_open m; m_next_transaction := m_next_transaction m;
     m_faults := tail (m_faults m); m_time := m_time m; m_next_id := m_next_id m |}.

Definition m_set_open (t : nat) (ws : list Write) (m : Memory) : Memory :=
  {| m_store := m_store m; m_open := <[t := ws]> (m_open m);
     m_next_transaction := m_next_transaction m;
     m_faults := m_faults m; m_time := m_time m; m_next_id := m_next_id m |}.

Definition m_set_store (s : Store.t) (m : Memory) : Memory :=
  {| m_store := s; m_open := m_open m; m_next_transaction := m_next_transaction m;
     m_faults := m_faults m; m_time := m_time m; m_next_id := m_next_id m |}.

Definition m_error (entity operation : Str) : RepositoryError.t :=
  RepositoryError.new entity operation.

(** A repository call: fail when the script says so. *)
Definition m_call {A} (entity operation : Str)
    (body : Memory -> Memory * Result RepositoryError.t A) : Mut Memory RepositoryError.t A :=
  fun m =>
  if default false (head (m_faults m)) then (m_consume m, Err (m_error entity operation))
  else body (m_consume m).

Definition m_find {A} (entity : Str) (t : nat) (view : Store.t -> option A)
  : Mut Memory RepositoryError.t (option A) :=
  m_call entity (lit "find by identifier") (fun m =>
    match apply_writes (m_pending t m) (m_store m) with
    | Some seen => (m, Ok (view seen))
    | None => (m, Err (m_error entity (lit "find by identifier")))
    end).

Definition m_write (entity operation : Str) (t : nat) (w : Write)
  : Mut Memory RepositoryError.t unit :=
  m_call entity operation (fun m =>
    match apply_writes (m_pending t m ++ [w]) (m_store m) with
    | Some _ => (m_set_open t (m_pending t m ++ [w]) m, Ok tt)
    | None => (m, Err (m_error entity operation))
    end).

Definition m_uuid (n : N) : Uuid := default uuid_1 (uuid_from_u128 n).

Definition m_generate {k} : Memory -> Memory * Identifier k := fun m =>
  ({| m_store := m_store m; m_open := m_open m; m_next_transaction := m_next_transaction m;
      m_faults := m_faults m; m_time := m_time m; m_next_id := (m_next_id m + 1)%N |},
   MkIdentifier (m_uuid (m_next_id m))).

Definition m_begin : Mut Memory RepositoryError.t nat :=
  m_call (lit "application transaction") (lit "begin") (fun m =>
    let t := m_next_transaction m in
    ({| m_store := m_store m; m_open := <[t := []]> (m_open m);
        m_next_transaction := S t; m_faults := m_faults m; m_time := m_time m;
        m_next_id := m_next_id m |}, Ok t)).

Definition m_commit (t : nat) : Mut Memory RepositoryError.t unit :=
  m_call (lit "application transaction") (lit "commit") (fun m =>
    match apply_writes (m_pending t m) (m_store m) with
    | Some s => (m_set_store s m, Ok tt)
    | None => (m, Err (m_error (lit "application transaction") (lit "commit")))
    end).

Definition m_rollback (t : nat) : Mut Memory RepositoryError.t unit :=
  m_call (lit "application transaction") (lit "rollback") (fun m => (m_set_open t [] m, Ok tt)).

#[export] Instance memory_ports : ApplicationPorts Memory nat := {|
  now := fun m => (m, m_time m);
  generate_credential_id := m_generate;
  generate_event_id := m_generate;
  begin_transaction := m_begin;
  find_transit_account := fun t id =>
    m_find (lit "transit account") t (fun s => Store.accounts s !! id);
  save_transit_account := fun t a condition =>
    m_write (lit "transit account") (lit "save") t (SaveAccount a condition);
  find_fare_credential := fun t id =>
    m_find (lit "fare credential") t (fun s => Store.credentials s !! id);
  save_fare_credential := fun t c condition =>
    m_write (lit "fare credential") (lit "save") t (SaveCredential c condition);
  find_reader_equipment := fun t id =>
    m_find (lit "reader equipment") t (fun s => Store.readers s !! id);
  save_reader_equipment := fun t r condition =>
    m_write (lit "reader equipment") (lit "save") t (SaveReader r condition);
  append_domain_event := fun t e =>
    m_write (lit "domain event") (lit "append") t (AppendEvent e);
  commit := m_commit;
  rollback := m_rollback
|}.

Lemma m_find_ok {A} entity t (view : Store.t -> option A) m :
  let '(m', r) := m_find entity t view m in
  m_store m = m_store m'
  /\ forall x, r = Ok x -> m_pending t m' = m_pending t m
       /\ exists s seen, m_store m = s /\ s = m_store m'
            /\ apply_writes (m_pending t m) s = Some seen /\ x = view seen.
Proof.
  unfold m_find, m_call. destruct (default false (head (m_faults m))); [done|].
  change (m_pending t (m_consume m)) with (m_pending t m).
  change (m_store (m_consume m)) with (m_store m).
  destruct (apply_writes (m_pending t m) (m_store m)) as [seen|] eqn:Hs; [|done].
  split; [done|]. intros x [= <-]. split; [done|]. by exists (m_store m), seen.
Qed.

Lemma m_write_ok entity operation t write m :
  let '(m', r) := m_write entity operation t write m in
  m_store m = m_store m' /\ (r = Ok tt -> m_pending t m' = m_pending t m ++ [write]).
Proof.
  unfold m_write, m_call. destruct (default false (head (m_faults m))); [done|].
  change (m_pending t (m_consume m)) with (m_pending t m).
  change (m_store (m_consume m)) with (m_store m).
  destruct (apply_writes (m_pending t m ++ [write]) (m_store m)); [|done].
  split; [done|]. intros _. unfold m_pending at 1. cbn. by rewrite lookup_insert_eq.
Qed.

Lemma m_begin_ok m :
  let '(m', r) := m_begin m in
  m_store m = m_store m' /\ forall t, r = Ok t -> m_pending t m' = [].
Proof.
  unfold m_begin, m_call. destruct (default false (head (m_faults m))); [done|].
  split; [done|]. intros t [= <-]. unfold m_pending. cbn. by rewrite lookup_insert_eq.
Qed.

Lemma m_commit_ok t m :
  let '(m', r) := m_commit t m in
  (exists s s', m_store m = s /\ apply_writes (m_pending t m) s = Some s' /\ s' = m_store m')
  \/ (r <> Ok tt /\ m_store m = m_store m').
Proof.
  unfold m_commit, m_call. destruct (default false (head (m_faults m))); [by right|].
  change (m_pending t (m_consume m)) with (m_pending t m).
  change (m_store (m_consume m)) with (m_store m).
  destruct (apply_writes (m_pending t m) (m_store m)) as [s|] eqn:Hs; [|by right].
  left. by exists (m_store m), s.
Qed.

Lemma m_rollback_ok t m : m_store m = m_store (m_rollback t m).1.
Proof. unfold m_rollback, m_call. by destruct (default false (head (m_faults m))). Qed.

#[export] Program Instance memory_laws : TransactionLaws Memory nat := {|
  durable := m_store;
  pending := m_pending;
  others := eq
|}.
Next Obligation. intros s s' <-. apply evolves_refl. Qed.
Next Obligation. done. Qed.
Next Obligation. done. Qed.
Next Obligation. done. Qed.
Next Obligation. intros m. exact (m_begin_ok m). Qed.
Next Obligation. intros t id m. exact (m_find_ok _ t (fun s => Store.accounts s !! id) m). Qed.
Next Obligation. intros t id m. exact (m_find_ok _ t (fun s => Store.credentials s !! id) m). Qed.
Next Obligation. intros t c condition m. exact (m_write_ok _ _ t (SaveCredential c condition) m). Qed.
Next Obligation. intros t e m. exact (m_write_ok _ _ t (AppendEvent e) m). Qed.
Next Obligation. intros t m. exact (m_commit_ok t m). Qed.
Next Obligation. intros t m. exact (m_rollback_ok t m). Qed.
