(* ===== verification/ApplicationUseCases.v ===== *)
(** * Use cases (crates/application/src/use_cases: issue, activate, suspend,
    revoke and replace a fare credential)

    Each service is a module; its [execute] is an action over the ports.  The
    five files repeat the same sequence of calls and early returns: look the
    credential up, answer a repeated command, persist a status change.  The
    repeated sequences are [find_credential_or_rollback] and
    [persist_status_change]. *)

From S2P Require Import Prelude Text DomainMoney DomainIdentifier DomainAccount.
From S2P Require Import DomainCredential DomainEquipment DomainTransaction DomainEvents.
From S2P Require Import ApplicationPorts.

Section shared.
Context `{UuidLibrary} {W T : Type} `{ApplicationPorts W T}.

(** The [match transaction.find_fare_credential(..).await] of four services. *)
Definition find_credential_or_rollback (transaction : T) (credential_id : FareCredentialId)
  : Mut W ApplicationError.t (Versioned FareCredential.t) :=
  found ← or_rollback transaction ApplicationError.Repository
            (find_fare_credential transaction credential_id);
  some_or_rollback transaction
    (ApplicationError.not_found (lit "fare credential") (identifier_to_string credential_id)) found.

(** From [loaded.version()] to [commit] in the activate, suspend and revoke
    services: the method, the texts and the new status are what differs. *)
Definition persist_status_change (transaction : T) (operation invalid_event : Str)
    (credential_id : FareCredentialId) (method : Mut FareCredential.t FareCredentialError.t unit)
    (current_status : FareCredentialStatus.t) (loaded : Versioned FareCredential.t)
  : Mut W ApplicationError.t FareCredential.t :=
  let aggregate := VersionedAggregate.aggregate loaded in
  let previous_status := FareCredential.status aggregate in
  let expected_version := VersionedAggregate.version loaded in
  next_version ←
    some_or_rollback transaction
      (ApplicationError.conflict operation (lit "aggregate version is exhausted"))
      (VersionedAggregate.next_version loaded);
  _ ← or_rollback transaction ApplicationError.FareCredential (lift (outcome method aggregate));
  let credential := after method aggregate in
  occurred_at ← or_rollback transaction ApplicationError.Clock now;
  event_id ← generated generate_event_id;
  event ←
    or_rollback transaction (fun _ => ApplicationError.conflict operation invalid_event)
      (lift (DomainEvent.new event_id next_version occurred_at
               (DomainEventPayload.FareCredentialStatusChanged credential_id previous_status
                  current_status)));
  _ ← or_rollback transaction ApplicationError.Repository
        (save_fare_credential transaction credential (SaveCondition.IfVersion expected_version));
  _ ← or_rollback transaction ApplicationError.Repository
        (append_domain_event transaction event);
  _ ← convert_error ApplicationError.Repository (commit transaction);
  mret credential.

End shared.

Module ActivateFareCredentialCommand.
Record t := mk { credential_id : FareCredentialId }.
End ActivateFareCredentialCommand.

Module ActivatedFareCredential.

Record t := mk {
  credential_id : FareCredentialId;
  previous_status : FareCredentialStatus.t;
  current_status : FareCredentialStatus.t;
  changed : bool
}.

#[global] Instance eq_dec : EqDecision t.
Proof. solve_decision. Defined.

End ActivatedFareCredential.

Module ActivateFareCredentialService.
Section execute.
Context `{UuidLibrary} {W T : Type} `{ApplicationPorts W T}.

Definition execute (command : ActivateFareCredentialCommand.t)
  : Mut W ApplicationError.t ActivatedFareCredential.t :=
  let credential_id := ActivateFareCredentialCommand.credential_id command in
  transaction ← convert_error ApplicationError.Repository begin_transaction;
  loaded ← find_credential_or_rollback transaction credential_id;
  let previous_status := FareCredential.status (VersionedAggregate.aggregate loaded) in
  if decide (previous_status = FareCredentialStatus.Active) then
    _ ← convert_error ApplicationError.Repository (commit transaction);
    mret (ActivatedFareCredential.mk credential_id previous_status FareCredentialStatus.Active
            false)
  else
    credential ←
      persist_status_change transaction (lit "activate fare credential")
        (lit "credential activation event is invalid") credential_id FareCredential.activate
        FareCredentialStatus.Active loaded;
    mret (ActivatedFareCredential.mk credential_id previous_status
            (FareCredential.status credential) true).

End execute.
End ActivateFareCredentialService.

Module SuspendFareCredentialCommand.
Record t := mk { credential_id : FareCredentialId }.
End SuspendFareCredentialCommand.

Module SuspendedFareCredential.

Record t := mk {
  credential_id : FareCredentialId;
  previous_status : FareCredentialStatus.t;
  current_status : FareCredentialStatus.t;
  changed : bool
}.

#[global] Instance eq_dec : EqDecision t.
Proof. solve_decision. Defined.

End SuspendedFareCredential.

Module SuspendFareCredentialService.
Section execute.
Context `{UuidLibrary} {W T : Type} `{ApplicationPorts W T}.

Definition execute (command : SuspendFareCredentialCommand.t)
  : Mut W ApplicationError.t SuspendedFareCredential.t :=
  let credential_id := SuspendFareCredentialCommand.credential_id command in
  transaction ← convert_error ApplicationError.Repository begin_transaction;
  loaded ← find_credential_or_rollback transaction credential_id;
  let previous_status := FareCredential.status (VersionedAggregate.aggregate loaded) in
  if decide (previous_status = FareCredentialStatus.Suspended) then
    _ ← convert_error ApplicationError.Repository (commit transaction);
    mret (SuspendedFareCredential.mk credential_id previous_status FareCredentialStatus.Suspended
            false)
  else
    credential ←
      persist_status_change transaction (lit "suspend fare credential")
        (lit "credential suspension event is invalid") credential_id FareCredential.suspend
        FareCredentialStatus.Suspended loaded;
    mret (SuspendedFareCredential.mk credential_id previous_status
            (FareCredential.status credential) true).

End execute.
End SuspendFareCredentialService.

Module RevokeFareCredentialCommand.
Record t := mk { credential_id : FareCredentialId; reason : RevocationReason.t }.
End RevokeFareCredentialCommand.

Module RevokedFareCredential.

Record t := mk {
  credential_id : FareCredentialId;
  previous_status : FareCredentialStatus.t;
  current_status : FareCredentialStatus.t;
  reason : RevocationReason.t;
  changed : bool
}.

#[global] Instance eq_dec : EqDecision t.
Proof. solve_decision. Defined.

End RevokedFareCredential.

Module RevokeFareCredentialService.
Section execute.
Context `{UuidLibrary} {W T : Type} `{ApplicationPorts W T}.

Definition execute (command : RevokeFareCredentialCommand.t)
  : Mut W ApplicationError.t RevokedFareCredential.t :=
  let credential_id := RevokeFareCredentialCommand.credential_id command in
  transaction ← convert_error ApplicationError.Repository begin_transaction;
  loaded ← find_credential_or_rollback transaction credential_id;
  let aggregate := VersionedAggregate.aggregate loaded in
  let previous_status := FareCredential.status aggregate in
  if decide (previous_status = FareCredentialStatus.Revoked) then
    let preserved_reason :=
      default (RevokeFareCredentialCommand.reason command)
        (FareCredential.revocation_reason aggregate) in
    _ ← convert_error ApplicationError.Repository (commit transaction);
    mret (RevokedFareCredential.mk credential_id previous_status FareCredentialStatus.Revoked
            preserved_reason false)
  else
    credential ←
      persist_status_change transaction (lit "revoke fare credential")
        (lit "credential revocation event is invalid") credential_id
        (FareCredential.revoke (RevokeFareCredentialCommand.reason command))
        FareCredentialStatus.Revoked loaded;
    let recorded_reason :=
      default (RevokeFareCredentialCommand.reason command)
        (FareCredential.revocation_reason credential) in
    mret (RevokedFareCredential.mk credential_id previous_status
            (FareCredential.status credential) recorded_reason true).

End execute.
End RevokeFareCredentialService.

Module IssueFareCredentialCommand.
Record t := mk { transit_account_id : TransitAccountId; kind : FareCredentialKind.t }.
End IssueFareCredentialCommand.

Module IssuedFareCredential.

Record t := mk {
  credential_id : FareCredentialId;
  transit_account_id : TransitAccountId;
  kind : FareCredentialKind.t;
  status : FareCredentialStatus.t
}.

#[global] Instance eq_dec : EqDecision t.
Proof. solve_decision. Defined.

End IssuedFareCredential.

Module IssueFareCredentialService.
Section execute.
Context `{UuidLibrary} {W T : Type} `{ApplicationPorts W T}.

Definition execute (command : IssueFareCredentialCommand.t)
  : Mut W ApplicationError.t IssuedFareCredential.t :=
  let operation := lit "issue fare credential" in
  let account_id := IssueFareCredentialCommand.transit_account_id command in
  let kind := IssueFareCredentialCommand.kind command in
  occurred_at ← convert_error ApplicationError.Clock now;
  transaction ← convert_error ApplicationError.Repository begin_transaction;
  found ← or_rollback transaction ApplicationError.Repository
            (find_transit_account transaction account_id);
  account ←
    some_or_rollback transaction
      (ApplicationError.not_found (lit "transit account") (identifier_to_string account_id)) found;
  if negb (TransitAccount.is_active (VersionedAggregate.aggregate account)) then
    rollback_with transaction
      (ApplicationError.conflict operation (lit "transit account is not active"))
  else
    credential_id ← generated generate_credential_id;
    let credential := FareCredential.new_pending credential_id account_id kind in
    aggregate_version ←
      or_rollback transaction
        (fun _ => ApplicationError.conflict operation
                    (lit "initial aggregate version is invalid"))
        (lift (AggregateVersion.new 1));
    event_id ← generated generate_event_id;
    event ←
      or_rollback transaction
        (fun _ => ApplicationError.conflict operation
                    (lit "credential issuance event is invalid"))
        (lift (DomainEvent.new event_id aggregate_version occurred_at
                 (DomainEventPayload.FareCredentialIssued credential_id account_id kind)));
    _ ← or_rollback transaction ApplicationError.Repository
          (save_fare_credential transaction credential SaveCondition.MustNotExist);
    _ ← or_rollback transaction ApplicationError.Repository
          (append_domain_event transaction event);
    _ ← convert_error ApplicationError.Repository (commit transaction);
    mret (IssuedFareCredential.mk credential_id account_id kind
            (FareCredential.status credential)).

End execute.
End IssueFareCredentialService.

Module ReplaceFareCredentialCommand.
Record t := mk { credential_id : FareCredentialId; replacement_kind : FareCredentialKind.t }.
End ReplaceFareCredentialCommand.

Module ReplacedFareCredential.

Record t := mk {
  original_credential_id : FareCredentialId;
  replacement_credential_id : FareCredentialId;
  previous_status : FareCredentialStatus.t;
  current_status : FareCredentialStatus.t;
  replacement_status : FareCredentialStatus.t;
  changed : bool
}.

#[global] Instance eq_dec : EqDecision t.
Proof. solve_decision. Defined.

End ReplacedFareCredential.

Module ReplaceFareCredentialService.
Section execute.
Context `{UuidLibrary} {W T : Type} `{ApplicationPorts W T}.

Definition conflict (reason : Str) : ApplicationError.t :=
  ApplicationError.conflict (lit "replace fare credential") reason.

(** The answer to a credential that is replaced already. *)
Definition recorded (transaction : T) (credential_id : FareCredentialId)
    (loaded : Versioned FareCredential.t) : Mut W ApplicationError.t ReplacedFareCredential.t :=
  let previous_status := FareCredential.status (VersionedAggregate.aggregate loaded) in
  replacement_credential_id ←
    some_or_rollback transaction (conflict (lit "replaced credential has no successor"))
      (FareCredential.replacement_id (VersionedAggregate.aggregate loaded));
  let original_account_id :=
    FareCredential.transit_account_id (VersionedAggregate.aggregate loaded) in
  found ← or_rollback transaction ApplicationError.Repository
            (find_fare_credential transaction replacement_credential_id);
  recorded_replacement ←
    some_or_rollback transaction
      (conflict (lit "recorded replacement credential is missing")) found;
  if decide (FareCredential.transit_account_id
               (VersionedAggregate.aggregate recorded_replacement) <> original_account_id) then
    rollback_with transaction (conflict (lit "recorded replacement belongs to another account"))
  else
    let replacement_status :=
      FareCredential.status (VersionedAggregate.aggregate recorded_replacement) in
    _ ← convert_error ApplicationError.Repository (commit transaction);
    mret (ReplacedFareCredential.mk credential_id replacement_credential_id previous_status
            FareCredentialStatus.Replaced replacement_status false).

Definition execute (command : ReplaceFareCredentialCommand.t)
  : Mut W ApplicationError.t ReplacedFareCredential.t :=
  let credential_id := ReplaceFareCredentialCommand.credential_id command in
  let kind := ReplaceFareCredentialCommand.replacement_kind command in
  transaction ← convert_error ApplicationError.Repository begin_transaction;
  loaded ← find_credential_or_rollback transaction credential_id;
  let aggregate := VersionedAggregate.aggregate loaded in
  let previous_status := FareCredential.status aggregate in
  if decide (previous_status = FareCredentialStatus.Replaced) then
    recorded transaction credential_id loaded
  else
    let expected_version := VersionedAggregate.version loaded in
    next_original_version ←
      some_or_rollback transaction (conflict (lit "aggregate version is exhausted"))
        (VersionedAggregate.next_version loaded);
    replacement_version ←
      or_rollback transaction
        (fun _ => conflict (lit "replacement aggregate version is invalid"))
        (lift (AggregateVersion.new 1));
    let transit_account_id := FareCredential.transit_account_id aggregate in
    replacement_credential_id ← generated generate_credential_id;
    let replacement :=
      FareCredential.new_pending replacement_credential_id transit_account_id kind in
    let replace := FareCredential.replace_with replacement_credential_id in
    _ ← or_rollback transaction ApplicationError.FareCredential (lift (outcome replace aggregate));
    let original := after replace aggregate in
    occurred_at ← or_rollback transaction ApplicationError.Clock now;
    original_event_id ← generated generate_event_id;
    original_event ←
      or_rollback transaction (fun _ => conflict (lit "original credential event is invalid"))
        (lift (DomainEvent.new original_event_id next_original_version occurred_at
                 (DomainEventPayload.FareCredentialStatusChanged credential_id previous_status
                    FareCredentialStatus.Replaced)));
    replacement_event_id ← generated generate_event_id;
    replacement_event ←
      or_rollback transaction (fun _ => conflict (lit "replacement issuance event is invalid"))
        (lift (DomainEvent.new replacement_event_id replacement_version occurred_at
                 (DomainEventPayload.FareCredentialIssued replacement_credential_id
                    transit_account_id kind)));
    _ ← or_rollback transaction ApplicationError.Repository
          (save_fare_credential transaction original (SaveCondition.IfVersion expected_version));
    _ ← or_rollback transaction ApplicationError.Repository
          (save_fare_credential transaction replacement SaveCondition.MustNotExist);
    _ ← or_rollback transaction ApplicationError.Repository
          (append_domain_event transaction original_event);
    _ ← or_rollback transaction ApplicationError.Repository
          (append_domain_event transaction replacement_event);
    _ ← convert_error ApplicationError.Repository (commit transaction);
    mret (ReplacedFareCredential.mk credential_id replacement_credential_id previous_status
            (FareCredential.status original) (FareCredential.status replacement) true).

End execute.
End ReplaceFareCredentialService.
