(* ===== verification/ApplicationRegistry.v ===== *)
(** * The credential registry: what the use cases promise

    An abstract registry of credentials changes in atomic steps, one per
    command.  The theorems say that each service refines its step: whatever
    other transactions do meanwhile, a successful call is one step of the
    registry at one moment between call and return, and a failing call is no
    step at all (or, when [commit] itself reported the error, possibly the
    step).  [replay] reads the registry back from the event log. *)

From S2P Require Import Prelude Text DomainMoney DomainIdentifier DomainAccount.
From S2P Require Import DomainCredential DomainEquipment DomainTransaction DomainEvents.
From S2P Require Import ApplicationPorts ApplicationUseCases.

(** ** The steps *)

Definition record_status (id : FareCredentialId) (event_id : DomainEventId)
    (time : DomainEventTime.t) (next : AggregateVersion.t)
    (previous current : FareCredentialStatus.t) : DomainEvent.t :=
  DomainEvent.mk event_id (DomainAggregateId.FareCredential id) next time
    (DomainEventPayload.FareCredentialStatusChanged id previous current).

Definition record_issue (id : FareCredentialId) (event_id : DomainEventId)
    (time : DomainEventTime.t) (account : TransitAccountId) (kind : FareCredentialKind.t)
  : DomainEvent.t :=
  DomainEvent.mk event_id (DomainAggregateId.FareCredential id) (AggregateVersion.mk 1) time
    (DomainEventPayload.FareCredentialIssued id account kind).

Definition with_credentials (s : Store.t)
    (credentials : gmap FareCredentialId (Versioned FareCredential.t))
    (new_events : list DomainEvent.t) : Store.t :=
  Store.mk (Store.accounts s) credentials (Store.readers s) (Store.events s ++ new_events).

(** A status change of a stored credential by one of its methods, recorded at
    the next version. *)
Inductive status_step (id : FareCredentialId)
    (method : Mut FareCredential.t FareCredentialError.t unit) (target : FareCredentialStatus.t)
    (c c' : FareCredential.t) : Store.t -> Store.t -> Prop :=
| status_step_intro s v next event_id time :
    Store.credentials s !! id = Some (VersionedAggregate.new c v) ->
    VersionedAggregate.next_version (VersionedAggregate.new c v) = Some next ->
    method c = (c', Ok tt) ->
    FareCredential.status c <> target ->
    status_step id method target c c' s
      (with_credentials s
         (<[id := VersionedAggregate.new c' next]> (Store.credentials s))
         [record_status id event_id time next (FareCredential.status c) target]).

(** The answer to a repeated command. *)
Definition already (id : FareCredentialId) (target : FareCredentialStatus.t)
    (c : FareCredential.t) (s s' : Store.t) : Prop :=
  s' = s /\ FareCredential.status c = target
  /\ exists v, Store.credentials s !! id = Some (VersionedAggregate.new c v).

Definition activate_step (command : ActivateFareCredentialCommand.t)
    (r : ActivatedFareCredential.t) (s s' : Store.t) : Prop :=
  let id := ActivateFareCredentialCommand.credential_id command in
  exists c, if ActivatedFareCredential.changed r then
    exists c', status_step id FareCredential.activate FareCredentialStatus.Active c c' s s'
      /\ r = ActivatedFareCredential.mk id (FareCredential.status c)
               FareCredentialStatus.Active true
  else already id FareCredentialStatus.Active c s s'
    /\ r = ActivatedFareCredential.mk id FareCredentialStatus.Active
             FareCredentialStatus.Active false.

Definition suspend_step (command : SuspendFareCredentialCommand.t)
    (r : SuspendedFareCredential.t) (s s' : Store.t) : Prop :=
  let id := SuspendFareCredentialCommand.credential_id command in
  exists c, if SuspendedFareCredential.changed r then
    exists c', status_step id FareCredential.suspend FareCredentialStatus.Suspended c c' s s'
      /\ r = SuspendedFareCredential.mk id (FareCredential.status c)
               FareCredentialStatus.Suspended true
  else already id FareCredentialStatus.Suspended c s s'
    /\ r = SuspendedFareCredential.mk id FareCredentialStatus.Suspended
             FareCredentialStatus.Suspended false.

Definition revoke_step (command : RevokeFareCredentialCommand.t)
    (r : RevokedFareCredential.t) (s s' : Store.t) : Prop :=
  let id := RevokeFareCredentialCommand.credential_id command in
  let reason := RevokeFareCredentialCommand.reason command in
  exists c, if RevokedFareCredential.changed r then
    exists c', status_step id (FareCredential.revoke reason) FareCredentialStatus.Revoked c c' s s'
      /\ r = RevokedFareCredential.mk id (FareCredential.status c)
               FareCredentialStatus.Revoked reason true
  else already id FareCredentialStatus.Revoked c s s'
    /\ r = RevokedFareCredential.mk id FareCredentialStatus.Revoked FareCredentialStatus.Revoked
             (default reason (FareCredential.revocation_reason c)) false.

Inductive issue_step (command : IssueFareCredentialCommand.t)
  : IssuedFareCredential.t -> Store.t -> Store.t -> Prop :=
| issue_step_intro s id event_id time :
    let account := IssueFareCredentialCommand.transit_account_id command in
    let kind := IssueFareCredentialCommand.kind command in
    Store.credentials s !! id = None ->
    issue_step command
      (IssuedFareCredential.mk id account kind FareCredentialStatus.Pending) s
      (with_credentials s
         (<[id := VersionedAggregate.new (FareCredential.new_pending id account kind)
                    (AggregateVersion.mk 1)]> (Store.credentials s))
         [record_issue id event_id time account kind]).

(** Replacement supersedes the original and issues its successor at once. *)
Inductive replace_step (command : ReplaceFareCredentialCommand.t)
  : ReplacedFareCredential.t -> Store.t -> Store.t -> Prop :=
| replace_step_intro s c c' v next successor event_id event_id' time :
    let id := ReplaceFareCredentialCommand.credential_id command in
    let kind := ReplaceFareCredentialCommand.replacement_kind command in
    let account := FareCredential.transit_account_id c in
    Store.credentials s !! id = Some (VersionedAggregate.new c v) ->
    Store.credentials s !! successor = None ->
    VersionedAggregate.next_version (VersionedAggregate.new c v) = Some next ->
    FareCredential.replace_with successor c = (c', Ok tt) ->
    FareCredential.status c <> FareCredentialStatus.Replaced ->
    replace_step command
      (ReplacedFareCredential.mk id successor (FareCredential.status c)
         FareCredentialStatus.Replaced FareCredentialStatus.Pending true) s
      (with_credentials s
         (<[successor := VersionedAggregate.new
                           (FareCredential.new_pending successor account kind)
                           (AggregateVersion.mk 1)]>
          (<[id := VersionedAggregate.new c' next]> (Store.credentials s)))
         [record_status id event_id time next (FareCredential.status c)
            FareCredentialStatus.Replaced;
          record_issue successor event_id' time account kind]).

(** ** What the methods do to the fields the services report *)

Definition keeps_identity (method : Mut FareCredential.t FareCredentialError.t unit) : Prop :=
  forall c c' u, method c = (c', Ok u) -> FareCredential.id c' = FareCredential.id c.

Lemma command_keeps_identity (op : CredentialCommand.t) : keeps_identity (step op).
Proof.
  intros c c' u Hm. destruct (credential_step_move c op) as [He|[_ Hmove]];
    unfold exec, after in *; rewrite Hm in *; cbn in *; [by subst|by destruct Hmove].
Qed.

(** The status a successful method leaves. *)
Ltac method_cases s := destruct s; intros; simplify_eq/=; split_and?; done.

Lemma activate_Ok c c' u :
  FareCredential.activate c = (c', Ok u) -> FareCredential.status c' = FareCredentialStatus.Active.
Proof.
  destruct c as [i a k s r p]. unfold FareCredential.activate. mut_simpl. method_cases s.
Qed.

Lemma suspend_Ok c c' u :
  FareCredential.suspend c = (c', Ok u) ->
  FareCredential.status c' = FareCredentialStatus.Suspended.
Proof.
  destruct c as [i a k s r p]. unfold FareCredential.suspend. mut_simpl. method_cases s.
Qed.

Lemma revoke_Ok reason c c' u :
  FareCredential.revoke reason c = (c', Ok u) ->
  FareCredential.status c <> FareCredentialStatus.Revoked ->
  FareCredential.status c' = FareCredentialStatus.Revoked
  /\ FareCredential.revocation_reason c' = Some reason.
Proof.
  destruct c as [i a k s r p]. unfold FareCredential.revoke. mut_simpl. method_cases s.
Qed.

Lemma replace_with_Ok successor c c' u :
  FareCredential.replace_with successor c = (c', Ok u) ->
  FareCredential.status c <> FareCredentialStatus.Replaced ->
  FareCredential.status c' = FareCredentialStatus.Replaced
  /\ FareCredential.replacement_id c' = Some successor
  /\ FareCredential.id c' = FareCredential.id c
  /\ FareCredential.transit_account_id c' = FareCredential.transit_account_id c
  /\ successor <> FareCredential.id c.
Proof.
  destruct c as [i a k s r p]. unfold FareCredential.replace_with. mut_simpl.
  case_decide; [done|]. method_cases s.
Qed.

(** ** Committing the writes of a service *)

Lemma apply_save_new {K A} `{Countable K} (key : K) (value : A) m m' :
  apply_save key value SaveCondition.MustNotExist m = Some m' <->
  m !! key = None /\ m' = <[key := VersionedAggregate.new value (AggregateVersion.mk 1)]> m.
Proof. unfold apply_save. destruct (m !! key); naive_solver. Qed.

Lemma apply_save_version {K A} `{Countable K} (key : K) (value : A) v m m' :
  apply_save key value (SaveCondition.IfVersion v) m = Some m' <->
  exists stored next, m !! key = Some stored /\ VersionedAggregate.version stored = v
    /\ VersionedAggregate.next_version stored = Some next
    /\ m' = <[key := VersionedAggregate.new value next]> m.
Proof.
  unfold apply_save. destruct (m !! key) as [stored|] eqn:Hk.
  2: { split; [done|]. by intros (? & ? & ? & _). }
  case_decide as Hv.
  2: { split; [done|]. by intros (? & ? & [= <-] & ? & _). }
  destruct (VersionedAggregate.next_version stored) as [next|] eqn:Hn; cbn.
  - split; [intros [= <-]; by exists stored, next|].
    intros (? & ? & [= <-] & _ & Hn' & ->). congruence.
  - split; [done|]. intros (? & ? & [= <-] & _ & Hn' & _). congruence.
Qed.

(** One version is one value: if the stored version has not moved, neither
    has the credential. *)
Lemma evolves_same_version s s' id x x' :
  evolves s s' -> Store.credentials s !! id = Some x -> Store.credentials s' !! id = Some x' ->
  VersionedAggregate.version x' = VersionedAggregate.version x -> x' = x.
Proof.
  intros He Hx Hx' Hv. destruct (evolves_credentials _ _ He id x Hx) as (y & Hy & _ & Heq).
  rewrite Hx' in Hy. injection Hy as <-. symmetry. by apply Heq.
Qed.

Lemma apply_status_writes s s1 s2 id method target loaded c' next event_id time :
  evolves s s1 ->
  Store.credentials s !! id = Some loaded ->
  VersionedAggregate.next_version loaded = Some next ->
  method (VersionedAggregate.aggregate loaded) = (c', Ok tt) ->
  FareCredential.status (VersionedAggregate.aggregate loaded) <> target ->
  FareCredential.id c' = id ->
  apply_writes
    [SaveCredential c' (SaveCondition.IfVersion (VersionedAggregate.version loaded));
     AppendEvent (record_status id event_id time next
       (FareCredential.status (VersionedAggregate.aggregate loaded)) target)] s1 = Some s2 ->
  status_step id method target (VersionedAggregate.aggregate loaded) c' s1 s2.
Proof.
  intros He Hl Hn Hm Hne Hid. cbn [apply_writes apply_write]. rewrite Hid.
  destruct (apply_save id c' _ (Store.credentials s1)) as [m|] eqn:Hs; cbn; [|done].
  intros [= <-]. apply apply_save_version in Hs as (stored & next' & Hst & Hv & Hn' & ->).
  assert (stored = loaded) as -> by (by eapply evolves_same_version).
  rewrite Hn in Hn'. injection Hn' as <-. destruct loaded as [c v]. cbn in *.
  by apply (status_step_intro id method target c c' s1 v next event_id time).
Qed.

(** ** The services refine the registry *)

Section refinement.
Context `{UuidLibrary} {W T : Type} `{TL : TransactionLaws W T}.

(** [step] happened at one moment since [s0]. *)
Definition atomically (step : Store.t -> Store.t -> Prop) (s0 : Store.t) (w : W) : Prop :=
  exists s s', others s0 s /\ step s s' /\ others s' (durable w).

(** A failed call: no step, unless the commit itself reported the error. *)
Definition fails_cleanly (step : Store.t -> Store.t -> Prop) (s0 : Store.t)
    (e : ApplicationError.t) (w : W) : Prop :=
  others s0 (durable w)
  \/ ((exists re, e = ApplicationError.Repository re) /\ atomically step s0 w).

Lemma untouched_fails step s0 s e w : others s0 s -> untouched s e w -> fails_cleanly step s0 e w.
Proof. intros Ho Hu. left. unfold untouched in Hu. by etrans. Qed.

(** One call of a service: the errors before its commit leave the store
    alone. *)
Lemma wp_call {A B} (m : Mut W ApplicationError.t A) (k : A -> Mut W ApplicationError.t B) Q R s w :
  (forall e w', untouched s e w' -> R e w') ->
  wp m (fun a w' => wp (k a) Q R w') (untouched s) w ->
  wp (m ≫= k) Q R w.
Proof. intros HR Hm. apply wp_bind. eapply wp_mono; [exact Hm|done|exact HR]. Qed.

Lemma others_wf s s' : others s s' -> store_wf s -> store_wf s'.
Proof. intros Ho. apply evolves_wf. by apply others_evolve. Qed.

Lemma wp_find_or_rollback t s0 id w Q :
  holds t s0 [] w ->
  (forall x w' s, Store.credentials s !! id = Some x -> others s0 s -> holds t s [] w' -> Q x w') ->
  wp (find_credential_or_rollback t id) Q (untouched s0) w.
Proof.
  intros Hh HQ. apply wp_bind. eapply wp_find_credential; [exact Hh|].
  intros x w1 s Hh1 Ho Ho' ->. apply wp_some_or_rollback; [apply Hh1|].
  intros a Ha. eapply HQ; [exact Ha|done|]. split; [done|apply Hh1].
Qed.

(** The empty transaction of a repeated command. *)
Lemma wp_commit_nothing t s w Q step s0 :
  others s0 s -> holds t s [] w -> (forall w', others s (durable w') -> Q tt w') ->
  wp (convert_error ApplicationError.Repository (commit t)) Q (fails_cleanly step s0) w.
Proof.
  intros Ho Hh HQ.
  assert (Hc : forall w' : W, committed [] s w' -> others s (durable w')).
  { intros w' (s1 & s2 & H1 & [= <-] & H2). by etrans. }
  eapply wp_commit; [exact Hh| |].
  - intros w' Hw. by apply HQ, Hc.
  - intros e w' Hw. left. etrans; [exact Ho|]. by destruct Hw as [Hw|Hw]; [|apply Hc].
Qed.

Lemma wp_persist_status_change t s0 s operation invalid id method target loaded w Q
    (R : ApplicationError.t -> W -> Prop) :
  keeps_identity method -> store_wf s -> others s0 s -> holds t s [] w ->
  Store.credentials s !! id = Some loaded ->
  (forall e w', others s0 (durable w') -> R e w') ->
  (forall re c' w', atomically (status_step id method target
       (VersionedAggregate.aggregate loaded) c') s0 w' -> R (ApplicationError.Repository re) w') ->
  (forall c' w', method (VersionedAggregate.aggregate loaded) = (c', Ok tt) ->
     atomically (status_step id method target (VersionedAggregate.aggregate loaded) c') s0 w' ->
     Q c' w') ->
  wp (persist_status_change t operation invalid id method target loaded) Q R w.
Proof.
  intros Hkeep Hwf Ho Hh Hl HR HR' HQ.
  assert (Hid : FareCredential.id (VersionedAggregate.aggregate loaded) = id) by (by eapply Hwf).
  assert (Hu : forall e w', untouched s e w' -> R e w').
  { intros e w' Hu. apply HR. unfold untouched in Hu. by etrans. }
  unfold persist_status_change.
  apply (wp_call _ _ _ _ s); [exact Hu|].
  apply wp_some_or_rollback; [apply Hh|]. intros next Hn.
  apply (wp_call _ _ _ _ s); [exact Hu|].
  apply wp_lift_or_rollback; [apply Hh|]. intros [] Hm.
  assert (Hm' : method (VersionedAggregate.aggregate loaded)
    = (after method (VersionedAggregate.aggregate loaded), Ok tt)).
  { unfold outcome in Hm. unfold after. by destruct (method _) as [? ?]; cbn in *; subst. }
  set (c' := after method (VersionedAggregate.aggregate loaded)) in *.
  apply (wp_call _ _ _ _ s); [exact Hu|].
  eapply wp_now; [exact Hh|]. intros time w1 Hh1.
  apply (wp_call _ _ _ _ s); [exact Hu|].
  eapply wp_event_id; [exact Hh1|]. intros event_id w2 Hh2.
  apply (wp_call _ _ _ _ s); [exact Hu|].
  apply wp_lift_or_rollback; [apply Hh2|]. intros event He.
  apply DomainEvent_new_Ok in He as [Hrec ->]. inversion Hrec as [| | | |? ? ? Hne| | | | |]; subst.
  apply (wp_call _ _ _ _ s); [exact Hu|].
  eapply wp_save_credential; [exact Hh2|]. intros w3 Hh3.
  apply (wp_call _ _ _ _ s); [exact Hu|].
  eapply wp_append; [exact Hh3|]. intros w4 Hh4. cbn [app] in Hh4.
  assert (Hstep : forall w', committed
    [SaveCredential c' (SaveCondition.IfVersion (VersionedAggregate.version loaded));
     AppendEvent (record_status (FareCredential.id (VersionedAggregate.aggregate loaded)) event_id
       time next (FareCredential.status (VersionedAggregate.aggregate loaded)) target)] s w' ->
    atomically (status_step (FareCredential.id (VersionedAggregate.aggregate loaded)) method target
      (VersionedAggregate.aggregate loaded) c') s0 w').
  { intros w' (s1 & s2 & H1 & H2 & H3). exists s1, s2. split_and!; [by etrans| |done].
    eapply apply_status_writes; [by apply others_evolve|exact Hl|exact Hn|exact Hm'|exact Hne| |].
    - by eapply Hkeep.
    - exact H2. }
  apply wp_bind. eapply wp_commit; [exact Hh4| |].
  - intros w5 Hc. apply wp_ret, HQ; [done|]. by apply Hstep.
  - intros e w5 [Hw|Hw]; [apply HR; by etrans|]. eapply HR', Hstep, Hw.
Qed.


(** The beginning of four services: begin, and look the credential up. *)
Lemma wp_begin_find {A} id (k : T -> Versioned FareCredential.t -> Mut W ApplicationError.t A)
    step Q w :
  store_wf (durable w) ->
  (forall t x w' s, Store.credentials s !! id = Some x -> store_wf s -> others (durable w) s ->
     holds t s [] w' -> wp (k t x) Q (fails_cleanly step (durable w)) w') ->
  wp (transaction ← convert_error ApplicationError.Repository begin_transaction;
      loaded ← find_credential_or_rollback transaction id; k transaction loaded)
    Q (fails_cleanly step (durable w)) w.
Proof.
  intros Hwf Hk.
  assert (HR : forall e w', untouched (durable w) e w' -> fails_cleanly step (durable w) e w')
    by (intros e w'; by apply untouched_fails).
  apply (wp_call _ _ _ _ (durable w)); [exact HR|]. apply wp_begin; [done|].
  intros t w1 Hh. apply (wp_call _ _ _ _ (durable w)); [exact HR|].
  eapply wp_find_or_rollback; [exact Hh|]. intros x w2 s Hx Ho Hh2.
  apply (Hk _ _ _ s); [done| |done|done]. by eapply others_wf.
Qed.

Lemma atomically_now step s0 s w : others s0 s -> step s s -> others s (durable w) ->
  atomically step s0 w.
Proof. intros H1 H2 H3. by exists s, s. Qed.

Lemma atomically_mono (step step' : Store.t -> Store.t -> Prop) s0 w :
  atomically step s0 w -> (forall s s', step s s' -> step' s s') -> atomically step' s0 w.
Proof. intros (s & s' & H1 & H2 & H3) Hm. exists s, s'. auto. Qed.

Lemma status_step_method id method target c c' s s' :
  status_step id method target c c' s s' ->
  method c = (c', Ok tt) /\ FareCredential.status c <> target.
Proof. by intros []. Qed.

Lemma execute_activate_ok command w :
  store_wf (durable w) ->
  wp (ActivateFareCredentialService.execute command)
    (fun r => atomically (activate_step command r) (durable w))
    (fails_cleanly (fun s s' => exists r, ActivatedFareCredential.changed r = true
       /\ activate_step command r s s') (durable w)) w.
Proof.
  intros Hwf. apply wp_begin_find; [done|]. intros t [c v] w1 s Hx Hs Ho Hh.
  cbn [VersionedAggregate.aggregate]. case_decide as Hst.
  - apply wp_bind. eapply wp_commit_nothing; [exact Ho|exact Hh|]. intros w2 Ho2.
    apply wp_ret. eapply atomically_now; [exact Ho| |exact Ho2]. exists c.
    cbn [ActivatedFareCredential.changed]. rewrite Hst. split; [|done]. by split_and!; [..|exists v].
  - apply wp_bind. eapply wp_persist_status_change;
      [apply (command_keeps_identity CredentialCommand.Activate)|exact Hs|exact Ho|exact Hh|exact Hx
      |intros e w2 Hw; by left| |].
    + intros re c' w2 Ha. right. split; [by exists re|]. eapply atomically_mono; [exact Ha|].
      intros s1 s2 Hstep. eexists (ActivatedFareCredential.mk _ _ _ true). split; [done|].
      exists c, c'. by split.
    + intros c' w2 Hm Ha. apply wp_ret. eapply atomically_mono; [exact Ha|].
      intros s1 s2 Hstep. exists c, c'. split; [done|]. by rewrite (activate_Ok _ _ _ Hm).
Qed.

Lemma execute_suspend_ok command w :
  store_wf (durable w) ->
  wp (SuspendFareCredentialService.execute command)
    (fun r => atomically (suspend_step command r) (durable w))
    (fails_cleanly (fun s s' => exists r, SuspendedFareCredential.changed r = true
       /\ suspend_step command r s s') (durable w)) w.
Proof.
  intros Hwf. apply wp_begin_find; [done|]. intros t [c v] w1 s Hx Hs Ho Hh.
  cbn [VersionedAggregate.aggregate]. case_decide as Hst.
  - apply wp_bind. eapply wp_commit_nothing; [exact Ho|exact Hh|]. intros w2 Ho2.
    apply wp_ret. eapply atomically_now; [exact Ho| |exact Ho2]. exists c.
    cbn [SuspendedFareCredential.changed]. rewrite Hst. split; [|done]. by split_and!; [..|exists v].
  - apply wp_bind. eapply wp_persist_status_change;
      [apply (command_keeps_identity CredentialCommand.Suspend)|exact Hs|exact Ho|exact Hh|exact Hx
      |intros e w2 Hw; by left| |].
    + intros re c' w2 Ha. right. split; [by exists re|]. eapply atomically_mono; [exact Ha|].
      intros s1 s2 Hstep. eexists (SuspendedFareCredential.mk _ _ _ true). split; [done|].
      exists c, c'. by split.
    + intros c' w2 Hm Ha. apply wp_ret. eapply atomically_mono; [exact Ha|].
      intros s1 s2 Hstep. exists c, c'. split; [done|]. by rewrite (suspend_Ok _ _ _ Hm).
Qed.

Lemma execute_revoke_ok command w :
  store_wf (durable w) ->
  wp (RevokeFareCredentialService.execute command)
    (fun r => atomically (revoke_step command r) (durable w))
    (fails_cleanly (fun s s' => exists r, RevokedFareCredential.changed r = true
       /\ revoke_step command r s s') (durable w)) w.
Proof.
  intros Hwf. apply wp_begin_find; [done|]. intros t [c v] w1 s Hx Hs Ho Hh.
  cbn [VersionedAggregate.aggregate]. case_decide as Hst.
  - apply wp_bind. eapply wp_commit_nothing; [exact Ho|exact Hh|]. intros w2 Ho2.
    apply wp_ret. eapply atomically_now; [exact Ho| |exact Ho2]. exists c.
    cbn [RevokedFareCredential.changed]. rewrite Hst. split; [|done]. by split_and!; [..|exists v].
  - apply wp_bind. eapply wp_persist_status_change;
      [apply (command_keeps_identity (CredentialCommand.Revoke _))|exact Hs|exact Ho|exact Hh
      |exact Hx|intros e w2 Hw; by left| |].
    + intros re c' w2 Ha. right. split; [by exists re|]. eapply atomically_mono; [exact Ha|].
      intros s1 s2 Hstep. eexists (RevokedFareCredential.mk _ _ _ _ true). split; [done|].
      exists c, c'. by split.
    + intros c' w2 Hm Ha. apply wp_ret. eapply atomically_mono; [exact Ha|].
      intros s1 s2 Hstep. exists c, c'. split; [done|].
      destruct (revoke_Ok _ _ _ _ Hm Hst) as [-> ->]. done.
Qed.

(** An account that is active in a store. *)
Definition active_account (s : Store.t) (id : TransitAccountId) : Prop :=
  exists x, Store.accounts s !! id = Some x
    /\ TransitAccount.is_active (VersionedAggregate.aggregate x) = true.

Lemma execute_issue_ok command w :
  wp (IssueFareCredentialService.execute command)
    (fun r w' => exists s, others (durable w) s
       /\ active_account s (IssueFareCredentialCommand.transit_account_id command)
       /\ atomically (issue_step command r) s w')
    (fails_cleanly (fun s s' => exists r, issue_step command r s s') (durable w)) w.
Proof.
  set (R := fails_cleanly _ _). unfold IssueFareCredentialService.execute.
  assert (HR : forall s, others (durable w) s -> forall e w', untouched s e w' -> R e w')
    by (intros s Ho e w'; by apply untouched_fails).
  apply (wp_call _ _ _ _ (durable w)); [by apply HR|]. apply wp_clock; [done|].
  intros time w0 Ho0. apply (wp_call _ _ _ _ (durable w)); [by apply HR|].
  apply wp_begin; [done|]. intros t w1 Hh.
  apply (wp_call _ _ _ _ (durable w)); [by apply HR|].
  eapply wp_find_account; [exact Hh|]. intros found w2 s Hh2 Ho Ho2 ->.
  assert (Hs : holds t s [] w2) by (split; [done|apply Hh2]). clear Hh Hh2.
  apply (wp_call _ _ _ _ s); [by apply HR|]. apply wp_some_or_rollback; [done|].
  intros account Hacc.
  destruct (TransitAccount.is_active (VersionedAggregate.aggregate account)) eqn:Hact; cbn [negb].
  2: { apply (wp_mono _ (fun _ _ => False) _ (untouched s));
         [by apply wp_rollback_with|done|by apply HR]. }
  apply (wp_call _ _ _ _ s); [by apply HR|]. eapply wp_credential_id; [exact Hs|].
  intros id w3 Hh3. apply (wp_call _ _ _ _ s); [by apply HR|].
  apply wp_lift_or_rollback; [apply Hh3|]. intros version [= <-].
  apply (wp_call _ _ _ _ s); [by apply HR|]. eapply wp_event_id; [exact Hh3|].
  intros event_id w4 Hh4. apply (wp_call _ _ _ _ s); [by apply HR|].
  apply wp_lift_or_rollback; [apply Hh4|]. intros event He.
  apply DomainEvent_new_Ok in He as [_ ->].
  apply (wp_call _ _ _ _ s); [by apply HR|]. eapply wp_save_credential; [exact Hh4|].
  intros w5 Hh5. apply (wp_call _ _ _ _ s); [by apply HR|]. eapply wp_append; [exact Hh5|].
  intros w6 Hh6. cbn [app] in Hh6.
  match type of Hh6 with holds _ _ ?ws _ => assert (Hstep : forall w', committed ws s w' ->
    atomically (issue_step command (IssuedFareCredential.mk id
      (IssueFareCredentialCommand.transit_account_id command)
      (IssueFareCredentialCommand.kind command) FareCredentialStatus.Pending)) s w') end.
  { intros w' (s1 & s2 & H1 & H2 & H3). exists s1, s2. split_and!; [done| |done].
    cbn [apply_writes apply_write] in H2.
    destruct (apply_save _ _ _ (Store.credentials s1)) as [m|] eqn:Hm; cbn in H2; [|done].
    apply apply_save_new in Hm as [Hnone ->]. injection H2 as <-.
    by apply (issue_step_intro command s1 id event_id time). }
  apply wp_bind. eapply wp_commit; [exact Hh6| |].
  - intros w7 Hc. apply wp_ret. exists s. split_and!; [done|by exists account|by apply Hstep].
  - intros e w7 [Hw|Hw]; [left; by etrans|]. right. split; [by exists e|].
    apply Hstep in Hw as (s1 & s2 & H1 & H2 & H3). exists s1, s2.
    split_and!; [by etrans|by eexists|done].
Qed.

(** The answer to a repeated replacement: what the two reads showed. *)
Definition replaced_already (command : ReplaceFareCredentialCommand.t)
    (r : ReplacedFareCredential.t) (s0 : Store.t) (w : W) : Prop :=
  let id := ReplaceFareCredentialCommand.credential_id command in
  exists s1 s2 x y,
    others s0 s1 /\ others s1 s2 /\ others s2 (durable w)
    /\ Store.credentials s1 !! id = Some x
    /\ Store.credentials s2 !! ReplacedFareCredential.replacement_credential_id r = Some y
    /\ FareCredential.replacement_id (VersionedAggregate.aggregate x)
       = Some (ReplacedFareCredential.replacement_credential_id r)
    /\ FareCredential.transit_account_id (VersionedAggregate.aggregate y)
       = FareCredential.transit_account_id (VersionedAggregate.aggregate x)
    /\ r = ReplacedFareCredential.mk id (ReplacedFareCredential.replacement_credential_id r)
             FareCredentialStatus.Replaced FareCredentialStatus.Replaced
             (FareCredential.status (VersionedAggregate.aggregate y)) false.

Lemma replace_recorded_ok command t loaded s w w1 (step : Store.t -> Store.t -> Prop) :
  let id := ReplaceFareCredentialCommand.credential_id command in
  others (durable w) s -> holds t s [] w1 -> Store.credentials s !! id = Some loaded ->
  FareCredential.status (VersionedAggregate.aggregate loaded) = FareCredentialStatus.Replaced ->
  wp (ReplaceFareCredentialService.recorded t id loaded)
    (fun r w' => ReplacedFareCredential.changed r = false
       /\ replaced_already command r (durable w) w')
    (fails_cleanly step (durable w)) w1.
Proof.
  intros id Ho Hh Hx Hst. unfold ReplaceFareCredentialService.recorded.
  assert (HR : forall s, others (durable w) s -> forall e w', untouched s e w' ->
    fails_cleanly step (durable w) e w') by (intros s' Ho' e w'; by apply untouched_fails).
  apply (wp_call _ _ _ _ s); [by apply HR|]. apply wp_some_or_rollback; [apply Hh|].
  intros successor Hsucc. apply (wp_call _ _ _ _ s); [by apply HR|].
  eapply wp_find_credential; [exact Hh|]. intros found w2 s2 Hh2 Ho2 Ho2' ->.
  apply (wp_call _ _ _ _ s2); [apply HR; by etrans|]. apply wp_some_or_rollback; [done|].
  intros y Hy. case_decide as Hacc.
  { apply (wp_mono _ (fun _ _ => False) _ (untouched s2));
      [by apply wp_rollback_with|done|apply HR; by etrans]. }
  apply wp_bind. eapply (wp_commit_nothing _ s2); [by etrans|split; [done|apply Hh2]|].
  intros w3 Ho3. apply wp_ret. split; [done|]. exists s, s2, loaded, y.
  cbn [ReplacedFareCredential.replacement_credential_id]. rewrite Hst. by split_and!.
Qed.

Lemma apply_replace_writes command s s1 s2 c v c' next successor event_id event_id' time :
  let id := ReplaceFareCredentialCommand.credential_id command in
  let kind := ReplaceFareCredentialCommand.replacement_kind command in
  let account := FareCredential.transit_account_id c in
  evolves s s1 -> FareCredential.id c = id ->
  Store.credentials s !! id = Some (VersionedAggregate.new c v) ->
  VersionedAggregate.next_version (VersionedAggregate.new c v) = Some next ->
  FareCredential.replace_with successor c = (c', Ok tt) ->
  FareCredential.status c <> FareCredentialStatus.Replaced ->
  apply_writes
    [SaveCredential c' (SaveCondition.IfVersion v);
     SaveCredential (FareCredential.new_pending successor account kind) SaveCondition.MustNotExist;
     AppendEvent (record_status id event_id time next (FareCredential.status c)
                    FareCredentialStatus.Replaced);
     AppendEvent (record_issue successor event_id' time account kind)] s1 = Some s2 ->
  replace_step command
    (ReplacedFareCredential.mk id successor (FareCredential.status c)
       FareCredentialStatus.Replaced FareCredentialStatus.Pending true) s1 s2.
Proof.
  intros id kind account He Hid Hl Hn Hm Hne. cbn [apply_writes apply_write].
  destruct (replace_with_Ok _ _ _ _ Hm Hne) as (_ & _ & Hid' & _ & Hself).
  rewrite Hid', Hid.
  destruct (apply_save id c' _ (Store.credentials s1)) as [m|] eqn:Hs;
    cbn [mbind option_bind Store.credentials FareCredential.id FareCredential.new_pending];
    [|done].
  apply apply_save_version in Hs as (stored & next' & Hst & Hv & Hn' & ->).
  assert (stored = VersionedAggregate.new c v) as -> by (by eapply evolves_same_version).
  rewrite Hn in Hn'. injection Hn' as <-.
  destruct (apply_save successor _ _ _) as [m|] eqn:Hs'; cbn; [|done].
  apply apply_save_new in Hs' as [Hnone ->]. intros [= <-].
  rewrite lookup_insert_ne in Hnone by congruence. rewrite <- app_assoc.
  by apply (replace_step_intro command s1 c c' v next successor event_id event_id' time).
Qed.

Lemma execute_replace_ok command w :
  store_wf (durable w) ->
  wp (ReplaceFareCredentialService.execute command)
    (fun r w' => if ReplacedFareCredential.changed r then
         atomically (replace_step command r) (durable w) w'
       else replaced_already command r (durable w) w')
    (fails_cleanly (fun s s' => exists r, replace_step command r s s') (durable w)) w.
Proof.
  intros Hwf. set (R := fails_cleanly _ _).
  assert (HR : forall s, others (durable w) s -> forall e w', untouched s e w' -> R e w')
    by (intros s Ho e w'; by apply untouched_fails).
  apply wp_begin_find; [done|]. intros t [c v] w1 s Hx Hs Ho Hh.
  cbn [VersionedAggregate.aggregate VersionedAggregate.version]. case_decide as Hst.
  { eapply wp_mono; [by eapply replace_recorded_ok|intros r w' [-> Hr]; exact Hr|done]. }
  assert (Hid : FareCredential.id c = ReplaceFareCredentialCommand.credential_id command)
    by (exact (Hs _ _ Hx)).
  apply (wp_call _ _ _ _ s); [by apply HR|]. apply wp_some_or_rollback; [apply Hh|].
  intros next Hn. apply (wp_call _ _ _ _ s); [by apply HR|].
  apply wp_lift_or_rollback; [apply Hh|]. intros version [= <-].
  apply (wp_call _ _ _ _ s); [by apply HR|]. eapply wp_credential_id; [exact Hh|].
  intros successor w2 Hh2. apply (wp_call _ _ _ _ s); [by apply HR|].
  apply wp_lift_or_rollback; [apply Hh2|]. intros [] Hm.
  assert (Hm' : FareCredential.replace_with successor c
    = (after (FareCredential.replace_with successor) c, Ok tt)).
  { unfold outcome in Hm. unfold after.
    by destruct (FareCredential.replace_with successor c); cbn in *; subst. }
  clear Hm. set (c' := after _ c) in *.
  apply (wp_call _ _ _ _ s); [by apply HR|]. eapply wp_now; [exact Hh2|].
  intros time w3 Hh3. apply (wp_call _ _ _ _ s); [by apply HR|].
  eapply wp_event_id; [exact Hh3|]. intros event_id w4 Hh4.
  apply (wp_call _ _ _ _ s); [by apply HR|]. apply wp_lift_or_rollback; [apply Hh4|].
  intros event He. apply DomainEvent_new_Ok in He as [_ ->].
  apply (wp_call _ _ _ _ s); [by apply HR|]. eapply wp_event_id; [exact Hh4|].
  intros event_id' w5 Hh5. apply (wp_call _ _ _ _ s); [by apply HR|].
  apply wp_lift_or_rollback; [apply Hh5|]. intros event' He.
  apply DomainEvent_new_Ok in He as [_ ->].
  apply (wp_call _ _ _ _ s); [by apply HR|]. eapply wp_save_credential; [exact Hh5|].
  intros w6 Hh6. apply (wp_call _ _ _ _ s); [by apply HR|]. eapply wp_save_credential; [exact Hh6|].
  intros w7 Hh7. apply (wp_call _ _ _ _ s); [by apply HR|]. eapply wp_append; [exact Hh7|].
  intros w8 Hh8. apply (wp_call _ _ _ _ s); [by apply HR|]. eapply wp_append; [exact Hh8|].
  intros w9 Hh9. cbn [app] in Hh9.
  destruct (replace_with_Ok _ _ _ _ Hm' Hst) as (Hst' & _).
  match type of Hh9 with holds _ _ ?ws _ => assert (Hstep : forall w', committed ws s w' ->
    atomically (replace_step command (ReplacedFareCredential.mk
      (ReplaceFareCredentialCommand.credential_id command) successor (FareCredential.status c)
      FareCredentialStatus.Replaced FareCredentialStatus.Pending true)) (durable w) w') end.
  { intros w' (s1 & s2 & H1 & H2 & H3). exists s1, s2. split_and!; [by etrans| |done].
    eapply apply_replace_writes; [by apply others_evolve|exact Hid|exact Hx|exact Hn|exact Hm'
      |exact Hst|exact H2]. }
  apply wp_bind. eapply wp_commit; [exact Hh9| |].
  - intros w10 Hc. apply wp_ret. rewrite Hst'. by apply Hstep.
  - intros e w10 [Hw|Hw]; [left; by etrans|]. right. split; [by exists e|].
    eapply atomically_mono; [by apply Hstep|]. intros s1 s2 ?. by eexists.
Qed.

End refinement.

(** ** The event log *)

(** What the events of one credential say about it. *)
Inductive Log :=
| Absent
| Present (status : FareCredentialStatus.t) (version : Z)
| Broken.

Definition log_step (id : FareCredentialId) (log : Log) (e : DomainEvent.t) : Log :=
  let version := AggregateVersion.value (DomainEvent.aggregate_version e) in
  match DomainEvent.payload e with
  | DomainEventPayload.FareCredentialIssued issued _ _ =>
      if decide (issued = id) then
        match log with
        | Absent => if decide (version = 1) then Present FareCredentialStatus.Pending 1 else Broken
        | _ => Broken
        end
      else log
  | DomainEventPayload.FareCredentialStatusChanged changed previous current =>
      if decide (changed = id) then
        match log with
        | Present status n =>
            if decide (status = previous /\ version = n + 1) then Present current version
            else Broken
        | _ => Broken
        end
      else log
  | _ => log
  end.

Definition replay (id : FareCredentialId) (events : list DomainEvent.t) : Log :=
  foldl (log_step id) Absent events.

Definition stored_log (s : Store.t) (id : FareCredentialId) : Log :=
  match Store.credentials s !! id with
  | Some x => Present (FareCredential.status (VersionedAggregate.aggregate x))
                (AggregateVersion.value (VersionedAggregate.version x))
  | None => Absent
  end.

(** One command of any of the five services. *)
Inductive registry_step (s s' : Store.t) : Prop :=
| step_activate command r : activate_step command r s s' -> registry_step s s'
| step_suspend command r : suspend_step command r s s' -> registry_step s s'
| step_revoke command r : revoke_step command r s s' -> registry_step s s'
| step_issue command r : issue_step command r s s' -> registry_step s s'
| step_replace command r : replace_step command r s s' -> registry_step s s'.

(** The registry's invariant: credentials are well formed and the log replays
    to what is stored. *)
Record registry_ok (s : Store.t) : Prop := {
  registry_credentials : forall id x, Store.credentials s !! id = Some x ->
    FareCredential.id (VersionedAggregate.aggregate x) = id
    /\ credential_wf (VersionedAggregate.aggregate x);
  registry_log : forall id, replay id (Store.events s) = stored_log s id
}.

Lemma replay_app id events new :
  replay id (events ++ new) = foldl (log_step id) (replay id events) new.
Proof. unfold replay. by rewrite foldl_app. Qed.

Lemma credential_wf_new id account kind :
  credential_wf (FareCredential.new_pending id account kind).
Proof. split; cbn; [split; [done|by intros []]..|done]. Qed.

Lemma command_wf op c c' u : step op c = (c', Ok u) -> credential_wf c -> credential_wf c'.
Proof.
  intros Hm Hc. pose proof (credential_wf_invariant c op Hc) as Hi.
  unfold exec, after in Hi. by rewrite Hm in Hi.
Qed.

Lemma log_step_status id id' event_id time next previous current log :
  log_step id log (record_status id' event_id time next previous current) =
  if decide (id' = id) then
    match log with
    | Present status n =>
        if decide (status = previous /\ AggregateVersion.value next = n + 1) then
          Present current (AggregateVersion.value next)
        else Broken
    | _ => Broken
    end
  else log.
Proof. done. Qed.

Lemma log_step_issue id id' event_id time account kind :
  log_step id Absent (record_issue id' event_id time account kind) =
  if decide (id' = id) then Present FareCredentialStatus.Pending 1 else Absent.
Proof. unfold log_step. cbn. by case_decide. Qed.

Lemma log_step_issue_other id id' event_id time account kind log :
  id' <> id -> log_step id log (record_issue id' event_id time account kind) = log.
Proof. intros Hne. unfold log_step. cbn. by rewrite decide_False. Qed.

Lemma status_step_registry op id target c c' s s' :
  (FareCredential.status c <> target -> FareCredential.status c' = target) ->
  status_step id (step op) target c c' s s' -> registry_ok s -> registry_ok s'.
Proof.
  intros Htarget Hstep Hok.
  destruct Hstep as [s v next event_id time Hx Hn Hm Hne], Hok as [Hc Hlog].
  destruct (Hc _ _ Hx) as [Hid Hwf]. cbn in Hid, Hwf. split; cbn [Store.credentials Store.events with_credentials].
  - intros i x. rewrite lookup_insert_Some. intros [[<- <-]|[_ Hi]]; [|by apply Hc]. cbn. split.
    + rewrite <- Hid. by eapply command_keeps_identity.
    + by eapply command_wf.
  - intros i. rewrite replay_app, Hlog. cbn [foldl].
    rewrite log_step_status. unfold stored_log.
    cbn [Store.credentials with_credentials].
    case_decide as Hi.
    + subst i. rewrite Hx, lookup_insert_eq. cbn.
      apply VersionedAggregate_next in Hn as (-> & _ & _). cbn.
      rewrite decide_True by done. by rewrite Htarget.
    + by rewrite lookup_insert_ne.
Qed.

Lemma already_registry id target c s s' : already id target c s s' -> registry_ok s -> registry_ok s'.
Proof. by intros (-> & _). Qed.

Lemma issue_step_registry command r s s' :
  issue_step command r s s' -> registry_ok s -> registry_ok s'.
Proof.
  intros Hstep Hok. destruct Hstep as [s id event_id time account kind Hnone], Hok as [Hc Hlog].
  split; cbn [Store.credentials Store.events with_credentials].
  - intros i x. rewrite lookup_insert_Some. intros [[<- <-]|[_ Hi]]; [|by apply Hc].
    split; [done|apply credential_wf_new].
  - intros i. rewrite replay_app, Hlog. cbn [foldl].
    unfold stored_log.
    cbn [Store.credentials with_credentials].
    destruct (decide (id = i)) as [->|Hne].
    + rewrite Hnone, lookup_insert_eq, log_step_issue. by rewrite decide_True.
    + rewrite lookup_insert_ne by done. by apply log_step_issue_other.
Qed.

Lemma replace_step_registry command r s s' :
  replace_step command r s s' -> registry_ok s -> registry_ok s'.
Proof.
  intros Hstep Hok. destruct Hstep as
    [s c c' v next successor event_id event_id' time id kind account Hx Hnone Hn Hm Hne],
    Hok as [Hc Hlog].
  destruct (Hc _ _ Hx) as [Hid Hwf]. cbn in Hid, Hwf.
  destruct (replace_with_Ok _ _ _ _ Hm Hne) as (Hst & _ & Hid' & _ & Hself).
  assert (Hsi : successor <> id) by congruence. split; cbn [Store.credentials Store.events with_credentials].
  - intros i x. rewrite !lookup_insert_Some.
    intros [[<- <-]|[_ [[<- <-]|[_ Hi]]]]; [split; [done|apply credential_wf_new]| |by apply Hc].
    split; [cbn; congruence|]. by eapply (command_wf (CredentialCommand.ReplaceWith successor)).
  - intros i. rewrite replay_app, Hlog. cbn [foldl].
    rewrite log_step_status. unfold stored_log.
    cbn [Store.credentials with_credentials].
    destruct (decide (id = i)) as [<-|Hi].
    + rewrite log_step_issue_other by done. rewrite Hx. cbn.
      rewrite lookup_insert_ne, lookup_insert_eq by done. cbn.
      apply VersionedAggregate_next in Hn as (-> & _ & _). cbn.
      rewrite decide_True by done. by rewrite Hst.
    + destruct (decide (successor = i)) as [<-|Hsn].
      * rewrite Hnone, lookup_insert_eq, log_step_issue. by rewrite decide_True.
      * rewrite log_step_issue_other by done. by rewrite !lookup_insert_ne by done.
Qed.

Lemma registry_step_ok s s' : registry_step s s' -> registry_ok s -> registry_ok s'.
Proof.
  intros [command r (c & Hs)|command r (c & Hs)|command r (c & Hs)|command r Hs|command r Hs].
  - destruct (ActivatedFareCredential.changed r); [|by destruct Hs as [? _]; eapply already_registry].
    destruct Hs as (c' & Hs & _). destruct (status_step_method _ _ _ _ _ _ _ Hs) as [Hm _].
    eapply (status_step_registry CredentialCommand.Activate); [|exact Hs].
    intros _. by eapply activate_Ok.
  - destruct (SuspendedFareCredential.changed r); [|by destruct Hs as [? _]; eapply already_registry].
    destruct Hs as (c' & Hs & _). destruct (status_step_method _ _ _ _ _ _ _ Hs) as [Hm _].
    eapply (status_step_registry CredentialCommand.Suspend); [|exact Hs].
    intros _. by eapply suspend_Ok.
  - destruct (RevokedFareCredential.changed r); [|by destruct Hs as [? _]; eapply already_registry].
    destruct Hs as (c' & Hs & _). destruct (status_step_method _ _ _ _ _ _ _ Hs) as [Hm _].
    eapply (status_step_registry (CredentialCommand.Revoke _)); [|exact Hs].
    intros Hne. by eapply revoke_Ok.
  - by eapply issue_step_registry.
  - by eapply replace_step_registry.
Qed.

Lemma registry_ok_empty : registry_ok Store.empty.
Proof. split; [intros id x; cbn; by rewrite lookup_empty|done]. Qed.

Lemma registry_reachable_ok s : rtc registry_step Store.empty s -> registry_ok s.
Proof.
  intros Hr. assert (H : forall s0, registry_ok s0 -> rtc registry_step s0 s -> registry_ok s).
  { intros s0 H0 Hrt. induction Hrt as [|s0 s1 s2 Hs _ IH]; [done|].
    by eapply IH, registry_step_ok. }
  by apply (H _ registry_ok_empty).
Qed.

(** ** Calls of the services *)

Inductive ServiceCall :=
| CallActivate (command : ActivateFareCredentialCommand.t)
| CallSuspend (command : SuspendFareCredentialCommand.t)
| CallRevoke (command : RevokeFareCredentialCommand.t)
| CallIssue (command : IssueFareCredentialCommand.t)
| CallReplace (command : ReplaceFareCredentialCommand.t).

Section calls.
Context `{UuidLibrary} {W T : Type} `{TL : TransactionLaws W T}.

(** The world after a call, successful or not. *)
Definition call_service (w : W) (call : ServiceCall) : W :=
  match call with
  | CallActivate command => (ActivateFareCredentialService.execute command w).1
  | CallSuspend command => (SuspendFareCredentialService.execute command w).1
  | CallRevoke command => (RevokeFareCredentialService.execute command w).1
  | CallIssue command => (IssueFareCredentialService.execute command w).1
  | CallReplace command => (ReplaceFareCredentialService.execute command w).1
  end.

(** What a call can do to the registry. *)
Definition call_effect (s0 : Store.t) (w : W) : Prop :=
  others s0 (durable w) \/ atomically registry_step s0 w.

Lemma wp_call_effect {A} (m : Mut W ApplicationError.t A) (Q : A -> W -> Prop)
    (R : ApplicationError.t -> W -> Prop) s0 w :
  wp m Q R w -> (forall a w', Q a w' -> call_effect s0 w') ->
  (forall e w', R e w' -> call_effect s0 w') -> call_effect s0 (m w).1.
Proof. unfold wp. destruct (m w) as [w' [a|e]]; cbn; eauto. Qed.

Lemma fails_cleanly_effect step s0 e w :
  (forall s s', step s s' -> registry_step s s') -> fails_cleanly step s0 e w -> call_effect s0 w.
Proof.
  intros Hs [Ho|[_ Ha]]; [by left|right]. by eapply atomically_mono.
Qed.

Lemma atomically_effect step s0 w :
  (forall s s', step s s' -> registry_step s s') -> atomically step s0 w -> call_effect s0 w.
Proof. intros Hs Ha. right. eapply atomically_mono; [exact Ha|exact Hs]. Qed.

Lemma call_service_effect w call :
  store_wf (durable w) -> call_effect (durable w) (call_service w call).
Proof.
  intros Hwf. destruct call as [c|c|c|c|c]; cbn [call_service].
  - eapply wp_call_effect; [by apply execute_activate_ok|intros r w'|intros e w'].
    + apply atomically_effect. intros s s'. apply step_activate.
    + apply fails_cleanly_effect. intros s s' (r & _ & Hs). by eapply step_activate.
  - eapply wp_call_effect; [by apply execute_suspend_ok|intros r w'|intros e w'].
    + apply atomically_effect. intros s s'. apply step_suspend.
    + apply fails_cleanly_effect. intros s s' (r & _ & Hs). by eapply step_suspend.
  - eapply wp_call_effect; [by apply execute_revoke_ok|intros r w'|intros e w'].
    + apply atomically_effect. intros s s'. apply step_revoke.
    + apply fails_cleanly_effect. intros s s' (r & _ & Hs). by eapply step_revoke.
  - eapply wp_call_effect; [by apply execute_issue_ok|intros r w'|intros e w'].
    + intros (s & Ho & _ & s1 & s2 & H1 & Hs & H2). right. exists s1, s2.
      split_and!; [by etrans|by eapply step_issue|done].
    + apply fails_cleanly_effect. intros s s' (r & Hs). by eapply step_issue.
  - eapply wp_call_effect; [by apply execute_replace_ok|intros r w'|intros e w'].
    + cbv beta. destruct (ReplacedFareCredential.changed r).
      * apply atomically_effect. intros s s'. apply step_replace.
      * intros (s1 & s2 & x & y & H1 & H2 & H3 & _). left. by do 2 (etrans; [eassumption|]).
    + apply fails_cleanly_effect. intros s s' (r & Hs). by eapply step_replace.
Qed.

Lemma registry_ok_wf s : registry_ok s -> store_wf s.
Proof. intros Hok id x Hx. by apply (registry_credentials _ Hok). Qed.

(** The invariant survives any calls, if the other transactions keep it. *)
Lemma call_service_ok w call :
  (forall s s', others s s' -> registry_ok s -> registry_ok s') ->
  registry_ok (durable w) -> registry_ok (durable (call_service w call)).
Proof.
  intros Hothers Hok.
  destruct (call_service_effect w call (registry_ok_wf _ Hok)) as [Ho|(s & s' & H1 & Hs & H2)].
  - by eapply Hothers.
  - eapply Hothers; [exact H2|]. eapply registry_step_ok; [exact Hs|]. by eapply Hothers.
Qed.

Lemma calls_ok calls w :
  (forall s s', others s s' -> registry_ok s -> registry_ok s') ->
  registry_ok (durable w) -> registry_ok (durable (foldl call_service w calls)).
Proof.
  intros Hothers. revert w. induction calls as [|call calls IH]; intros w Hok; [done|].
  by apply IH, call_service_ok.
Qed.

End calls.
