(* ===== verification/ApplicationErrors.v ===== *)
(** * What the errors of the use cases say

    Every error a service returns is either one its ports reported, or a
    statement about the credential or account that is true of the store at
    one moment of the call. *)

From S2P Require Import Prelude Text DomainMoney DomainIdentifier DomainAccount.
From S2P Require Import DomainCredential DomainEquipment DomainTransaction DomainEvents.
From S2P Require Import ApplicationPorts ApplicationMemory ApplicationUseCases ApplicationRegistry.

(** ** Errors that satisfy a predicate *)

Section blames.
Context `{UuidLibrary} {W T : Type} `{TL : TransactionLaws W T}.
Variable P : ApplicationError.t -> Prop.
Hypothesis repository_blamed : forall e, P (ApplicationError.Repository e).
Hypothesis clock_blamed : forall e, P (ApplicationError.Clock e).

Definition blames (e : ApplicationError.t) (w : W) : Prop := P e.

Lemma blame_convert {E A} convert (m : Mut W E A) Q w :
  (forall e, P (convert e)) -> (forall a w', Q a w') -> wp (convert_error convert m) Q blames w.
Proof.
  intros He HQ. unfold wp, convert_error. destruct (m w) as [w' [a|e]]; [apply HQ|apply He].
Qed.

Lemma blame_rollback_with {A} t e (Q : A -> W -> Prop) w :
  P e -> wp (rollback_with t e) Q blames w.
Proof using repository_blamed.
  intros He. unfold wp, rollback_with.
  destruct (rollback t w) as [w' [u|e']]; [exact He|apply repository_blamed].
Qed.

Lemma blame_or_rollback {E A} t convert (m : Mut W E A) Q w :
  (forall e, P (convert e)) -> (forall a w', Q a w') -> wp (or_rollback t convert m) Q blames w.
Proof using repository_blamed.
  intros He HQ. unfold wp, or_rollback. destruct (m w) as [w' [a|e]]; [apply HQ|].
  apply (blame_rollback_with t (convert e) Q w'), He.
Qed.

Lemma blame_lift {E A} t convert (r : Result E A) Q w :
  (forall e, r = Err e -> P (convert e)) -> (forall a, r = Ok a -> Q a w) ->
  wp (or_rollback t convert (lift r)) Q blames w.
Proof using repository_blamed.
  intros He HQ. unfold wp, or_rollback, lift. destruct r as [a|e]; [by apply HQ|].
  by apply (blame_rollback_with t (convert e) Q w), He.
Qed.

Lemma blame_some {A} t e (o : option A) Q w :
  (o = None -> P e) -> (forall a, o = Some a -> Q a w) ->
  wp (some_or_rollback t e o) Q blames w.
Proof using repository_blamed.
  intros He HQ. destruct o as [a|]; [by apply HQ|]. by apply blame_rollback_with, He.
Qed.

Lemma blame_generated {A} (g : W -> W * A) Q w :
  (forall a w', Q a w') -> wp (generated g) Q blames w.
Proof. intros HQ. unfold wp, generated. by destruct (g w). Qed.

Lemma blame_begin s0 w Q :
  others s0 (durable w) -> (forall t w', holds t s0 [] w' -> Q t w') ->
  wp (convert_error ApplicationError.Repository begin_transaction) Q blames w.
Proof using repository_blamed.
  intros Ho HQ. unfold wp, convert_error. pose proof (begin_law w) as Hl.
  destruct (begin_transaction w) as [w' [t|e]]; cbn; [|apply repository_blamed].
  destruct Hl as [Hl Hp]. apply HQ. split; [by etrans|by apply Hp].
Qed.

Lemma blame_clock s0 w Q :
  others s0 (durable w) -> (forall time w', others s0 (durable w') -> Q time w') ->
  wp (convert_error ApplicationError.Clock now) Q blames w.
Proof using clock_blamed.
  intros Ho HQ. unfold wp, convert_error. destruct (now_law w) as [Hl _].
  destruct (now w) as [w' [time|e]]; cbn in *; [apply HQ; by etrans|apply clock_blamed].
Qed.

Lemma blame_find_credential t s0 id w Q :
  holds t s0 [] w ->
  (forall s w', others s0 s -> holds t s [] w' -> Q (Store.credentials s !! id) w') ->
  wp (or_rollback t ApplicationError.Repository (find_fare_credential t id)) Q blames w.
Proof using repository_blamed.
  intros [Ho Hp] HQ. unfold wp, or_rollback. pose proof (find_credential_law t id w) as Hl.
  destruct (find_fare_credential t id w) as [w' [x|e]]; destruct Hl as (_ & Hx).
  - destruct (Hx x eq_refl) as (Hp' & s & seen & H1 & H2 & Hseen & ->). rewrite Hp in Hseen.
    injection Hseen as <-. apply HQ; [by etrans|]. split; [done|congruence].
  - apply blame_rollback_with, repository_blamed.
Qed.

End blames.

Ltac blame_step :=
  lazymatch goal with
  | |- wp (mbind _ _) _ _ _ => apply wp_bind
  | |- wp (mret _) _ _ _ => apply wp_ret
  | |- wp (convert_error _ _) _ _ _ => apply blame_convert
  | |- wp (or_rollback _ _ (lift _)) _ _ _ => apply blame_lift
  | |- wp (or_rollback _ _ _) _ _ _ => apply blame_or_rollback
  | |- wp (some_or_rollback _ _ _) _ _ _ => apply blame_some
  | |- wp (rollback_with _ _) _ _ _ => apply blame_rollback_with
  | |- wp (generated _) _ _ _ => apply blame_generated
  | |- forall _, _ => intros ?
  | |- True => exact I
  end.

Ltac blame := cbv beta zeta; repeat (blame_step; cbv beta zeta); try done.

(** ** The errors of the status services *)

Section errors.
Context `{UuidLibrary} {W T : Type} `{TL : TransactionLaws W T}.

(** A fact about what is stored under a credential at one moment. *)
Definition seen_credential (s0 : Store.t) (id : FareCredentialId)
    (fact : option (Versioned FareCredential.t) -> Prop) : Prop :=
  exists s, others s0 s /\ fact (Store.credentials s !! id).

Definition exhausted (found : option (Versioned FareCredential.t)) : Prop :=
  exists x, found = Some x /\ VersionedAggregate.next_version x = None.

Definition refuses (method : Mut FareCredential.t FareCredentialError.t unit)
    (target : FareCredentialStatus.t) (e : FareCredentialError.t)
    (found : option (Versioned FareCredential.t)) : Prop :=
  exists x, found = Some x
    /\ FareCredential.status (VersionedAggregate.aggregate x) <> target
    /\ outcome method (VersionedAggregate.aggregate x) = Err e.

Definition status_error (operation : Str) (id : FareCredentialId)
    (method : Mut FareCredential.t FareCredentialError.t unit) (target : FareCredentialStatus.t)
    (s0 : Store.t) (e : ApplicationError.t) : Prop :=
  match e with
  | ApplicationError.NotFound entity identifier =>
      entity = lit "fare credential" /\ identifier = identifier_to_string id
      /\ seen_credential s0 id (fun found => found = None)
  | ApplicationError.Conflict conflicting reason =>
      conflicting = operation /\ reason = lit "aggregate version is exhausted"
      /\ seen_credential s0 id exhausted
  | ApplicationError.FareCredential e => seen_credential s0 id (refuses method target e)
  | ApplicationError.Repository _ | ApplicationError.Clock _ => True
  end.

Lemma blame_persist operation invalid id method target s0 s t loaded w :
  others s0 s -> Store.credentials s !! id = Some loaded ->
  FareCredential.status (VersionedAggregate.aggregate loaded) <> target ->
  wp (persist_status_change t operation invalid id method target loaded) (fun _ _ => True)
    (blames (status_error operation id method target s0)) w.
Proof.
  intros Ho Hl Hne. unfold persist_status_change.
  assert (Hseen : forall fact : option (Versioned FareCredential.t) -> Prop,
    fact (Some loaded) -> seen_credential s0 id fact)
    by (intros fact Hf; exists s; by rewrite Hl).
  blame.
  - cbn. split_and!; [done..|]. apply Hseen. by exists loaded.
  - apply Hseen. by exists loaded.
  - lazymatch goal with He : DomainEvent.new _ _ _ _ = Err _ |- _ => rename He into Hevent end.
    unfold DomainEvent.new, DomainEvent.validate_payload in Hevent. cbn in Hevent.
    by rewrite decide_False in Hevent.
Qed.

Lemma blame_status_call {A} id operation method target s0 w
    (k : T -> Versioned FareCredential.t -> Mut W ApplicationError.t A) :
  others s0 (durable w) ->
  (forall t x w' s, others s0 s -> Store.credentials s !! id = Some x ->
     wp (k t x) (fun _ _ => True) (blames (status_error operation id method target s0)) w') ->
  wp (transaction ← convert_error ApplicationError.Repository begin_transaction;
      loaded ← find_credential_or_rollback transaction id; k transaction loaded)
    (fun _ _ => True) (blames (status_error operation id method target s0)) w.
Proof.
  intros Ho Hk. apply wp_bind. eapply blame_begin; [done|exact Ho|]. intros t w1 Hh.
  apply wp_bind. unfold find_credential_or_rollback. apply wp_bind.
  eapply blame_find_credential; [done|exact Hh|]. intros s w2 Hs _. blame_step; [done| |].
  - intros Hnone. cbn. split_and!; [done..|]. by exists s.
  - intros x Hx. by eapply Hk.
Qed.

Definition issue_error (command : IssueFareCredentialCommand.t) (s0 : Store.t)
    (e : ApplicationError.t) : Prop :=
  let id := IssueFareCredentialCommand.transit_account_id command in
  match e with
  | ApplicationError.NotFound entity identifier =>
      entity = lit "transit account" /\ identifier = identifier_to_string id
      /\ exists s, others s0 s /\ Store.accounts s !! id = None
  | ApplicationError.Conflict operation reason =>
      operation = lit "issue fare credential" /\ reason = lit "transit account is not active"
      /\ exists s x, others s0 s /\ Store.accounts s !! id = Some x
           /\ TransitAccount.is_active (VersionedAggregate.aggregate x) = false
  | ApplicationError.FareCredential _ => False
  | ApplicationError.Repository _ | ApplicationError.Clock _ => True
  end.

(** What can be wrong with the successor of a replaced credential. *)
Definition broken_successor (s0 : Store.t) (reason : Str) (x : FareCredential.t) : Prop :=
  FareCredential.status x = FareCredentialStatus.Replaced
  /\ match FareCredential.replacement_id x with
     | None => reason = lit "replaced credential has no successor"
     | Some successor => seen_credential s0 successor (fun found =>
         match found with
         | None => reason = lit "recorded replacement credential is missing"
         | Some y => reason = lit "recorded replacement belongs to another account"
             /\ FareCredential.transit_account_id (VersionedAggregate.aggregate y)
                <> FareCredential.transit_account_id x
         end)
     end.

Definition replace_error (command : ReplaceFareCredentialCommand.t) (s0 : Store.t)
    (e : ApplicationError.t) : Prop :=
  let id := ReplaceFareCredentialCommand.credential_id command in
  match e with
  | ApplicationError.NotFound entity identifier =>
      entity = lit "fare credential" /\ identifier = identifier_to_string id
      /\ seen_credential s0 id (fun found => found = None)
  | ApplicationError.Conflict operation reason =>
      operation = lit "replace fare credential"
      /\ (reason = lit "aggregate version is exhausted" /\ seen_credential s0 id exhausted
          \/ seen_credential s0 id (fun found => exists x, found = Some x
               /\ broken_successor s0 reason (VersionedAggregate.aggregate x)))
  | ApplicationError.FareCredential e => exists successor,
      seen_credential s0 id
        (refuses (FareCredential.replace_with successor) FareCredentialStatus.Replaced e)
  | ApplicationError.Repository _ | ApplicationError.Clock _ => True
  end.

Lemma blame_find_account P (HP : forall e, P (ApplicationError.Repository e)) t s0 id w Q :
  holds t s0 [] w ->
  (forall s w', others s0 s -> Q (Store.accounts s !! id) w') ->
  wp (or_rollback t ApplicationError.Repository (find_transit_account t id)) Q (blames P) w.
Proof.
  intros [Ho Hp] HQ. unfold wp, or_rollback. pose proof (find_account_law t id w) as Hl.
  destruct (find_transit_account t id w) as [w' [x|e]]; destruct Hl as (_ & Hx).
  - destruct (Hx x eq_refl) as (Hp' & s & seen & H1 & H2 & Hseen & ->). rewrite Hp in Hseen.
    injection Hseen as <-. apply HQ. by etrans.
  - by apply blame_rollback_with.
Qed.

Lemma blame_issue command w :
  wp (IssueFareCredentialService.execute command) (fun _ _ => True)
    (blames (issue_error command (durable w))) w.
Proof.
  unfold IssueFareCredentialService.execute. apply wp_bind.
  eapply blame_clock; [done|done|]. intros time w1 Ho.
  apply wp_bind. eapply blame_begin; [done|exact Ho|]. intros t w2 Hh.
  apply wp_bind. eapply blame_find_account; [done|exact Hh|]. intros s w3 Hs.
  apply wp_bind. apply blame_some; [done| |].
  { intros Hnone. cbn. split_and!; [done..|]. by exists s. }
  intros x Hx. destruct (TransitAccount.is_active (VersionedAggregate.aggregate x)) eqn:Ha;
    cbn [negb].
  - blame.
  - apply blame_rollback_with; [done|]. cbn. split_and!; [done..|]. by exists s, x.
Qed.

Lemma blame_recorded command s0 s t loaded w :
  let id := ReplaceFareCredentialCommand.credential_id command in
  others s0 s -> holds t s [] w -> Store.credentials s !! id = Some loaded ->
  FareCredential.status (VersionedAggregate.aggregate loaded) = FareCredentialStatus.Replaced ->
  wp (ReplaceFareCredentialService.recorded t id loaded) (fun _ _ => True)
    (blames (replace_error command s0)) w.
Proof.
  intros id Ho Hh Hl Hst. unfold ReplaceFareCredentialService.recorded.
  assert (Hseen : forall reason,
    broken_successor s0 reason (VersionedAggregate.aggregate loaded) ->
    replace_error command s0 (ReplaceFareCredentialService.conflict reason)).
  { intros reason Hb. cbn. split; [done|]. right. exists s. split; [done|].
    exists loaded. by split. }
  apply wp_bind. apply blame_some; [done| |].
  { intros Hnone. apply Hseen. split; [done|]. by rewrite Hnone. }
  intros successor Hsucc. apply wp_bind. eapply blame_find_credential; [done|exact Hh|].
  intros s2 w2 Hs2 _. assert (Ho2 : others s0 s2) by (by etrans).
  apply wp_bind. apply blame_some; [done| |].
  { intros Hnone. apply Hseen. split; [done|]. rewrite Hsucc. exists s2. by rewrite Hnone. }
  intros y Hy. case_decide as Hacc; [|blame].
  apply blame_rollback_with; [done|]. apply Hseen. split; [done|]. rewrite Hsucc.
  exists s2. by rewrite Hy.
Qed.

Lemma blame_replace command w :
  wp (ReplaceFareCredentialService.execute command) (fun _ _ => True)
    (blames (replace_error command (durable w))) w.
Proof.
  unfold ReplaceFareCredentialService.execute. apply wp_bind.
  eapply blame_begin; [done|done|]. intros t w1 Hh. unfold find_credential_or_rollback.
  apply wp_bind, wp_bind. eapply blame_find_credential; [done|exact Hh|]. intros s w2 Hs Hh2.
  apply blame_some; [done| |].
  { intros Hnone. cbn. split_and!; [done..|]. by exists s. }
  intros x Hx. case_decide as Hst; [by eapply blame_recorded|]. blame.
  - split; [done|]. left. split; [done|]. exists s. split; [done|]. by exists x.
  - lazymatch goal with Hr : outcome (FareCredential.replace_with ?successor) _ = Err _ |- _ =>
      exists successor end.
    exists s. split; [done|]. by exists x.
  - lazymatch goal with He : DomainEvent.new _ _ _ _ = Err _ |- _ => rename He into Hevent end.
    unfold DomainEvent.new, DomainEvent.validate_payload in Hevent. cbn in Hevent.
    by rewrite decide_False in Hevent.
Qed.

(** C24. The services' errors are truthful.  When a service fails without its
    ports having failed, what the error says was so at one moment of the
    call: the credential or account it calls missing was missing, the
    account it calls inactive was not active, the credential's method refused
    the move with the error passed on, the version it calls exhausted had no
    successor, the successor of a replaced credential was unrecorded, missing
    or of another account.  The conflicts about invalid events and initial
    versions, for which the services have a branch, never occur. *)
Theorem service_errors_truthful activate suspend revoke issue replace w :
  (forall w' e, ActivateFareCredentialService.execute activate w = (w', Err e) ->
     status_error (lit "activate fare credential")
       (ActivateFareCredentialCommand.credential_id activate)
       FareCredential.activate FareCredentialStatus.Active (durable w) e)
  /\ (forall w' e, SuspendFareCredentialService.execute suspend w = (w', Err e) ->
     status_error (lit "suspend fare credential")
       (SuspendFareCredentialCommand.credential_id suspend)
       FareCredential.suspend FareCredentialStatus.Suspended (durable w) e)
  /\ (forall w' e, RevokeFareCredentialService.execute revoke w = (w', Err e) ->
     status_error (lit "revoke fare credential")
       (RevokeFareCredentialCommand.credential_id revoke)
       (FareCredential.revoke (RevokeFareCredentialCommand.reason revoke))
       FareCredentialStatus.Revoked (durable w) e)
  /\ (forall w' e, IssueFareCredentialService.execute issue w = (w', Err e) ->
     issue_error issue (durable w) e)
  /\ (forall w' e, ReplaceFareCredentialService.execute replace w = (w', Err e) ->
     replace_error replace (durable w) e).
Proof.
  split_and!; intros w' e He.
  - eapply wp_Err; [exact He|]. apply blame_status_call; [done|]. intros t x w1 s Ho Hx.
    case_decide; [blame|]. apply wp_bind.
    eapply wp_mono; [by eapply blame_persist| |done]. blame.
  - eapply wp_Err; [exact He|]. apply blame_status_call; [done|]. intros t x w1 s Ho Hx.
    case_decide; [blame|]. apply wp_bind.
    eapply wp_mono; [by eapply blame_persist| |done]. blame.
  - eapply wp_Err; [exact He|]. apply blame_status_call; [done|]. intros t x w1 s Ho Hx.
    case_decide; [blame|]. apply wp_bind.
    eapply wp_mono; [by eapply blame_persist| |done]. blame.
  - eapply wp_Err; [exact He|]. apply blame_issue.
  - eapply wp_Err; [exact He|]. apply blame_replace.
Qed.

End errors.
