(* ===== verification/ApplicationCorrectness.v ===== *)
(** * Correctness of the use cases

    The theorems about the five services, for any implementation of the ports
    that keeps the transaction contract, and their instances on the in-memory
    one. *)

From S2P Require Import Prelude Text DomainMoney DomainIdentifier DomainAccount.
From S2P Require Import DomainCredential DomainEquipment DomainTransaction DomainEvents.
From S2P Require Import ApplicationPorts ApplicationMemory ApplicationUseCases ApplicationRegistry.
From S2P Require Import ApplicationErrors.

Section correctness.
Context `{UuidLibrary} {W T : Type} `{TL : TransactionLaws W T}.

(** C19. Activation, suspension and revocation are atomic.  Whatever other
    transactions commit meanwhile, a successful call is one step of the
    credential registry at one moment: the credential that was loaded (no
    concurrent update is overwritten, because the version is still the loaded
    one) moves by its own method, its version goes up by one, and exactly the
    matching event is appended; or the credential already had the status and
    nothing is written.  A failed call writes nothing, except that the step
    may have happened when the commit itself reported the error. *)
Theorem status_services_atomic activate suspend revoke w :
  store_wf (durable w) ->
  wp (ActivateFareCredentialService.execute activate)
    (fun r => atomically (activate_step activate r) (durable w))
    (fails_cleanly (fun s s' => exists r, ActivatedFareCredential.changed r = true
       /\ activate_step activate r s s') (durable w)) w
  /\ wp (SuspendFareCredentialService.execute suspend)
    (fun r => atomically (suspend_step suspend r) (durable w))
    (fails_cleanly (fun s s' => exists r, SuspendedFareCredential.changed r = true
       /\ suspend_step suspend r s s') (durable w)) w
  /\ wp (RevokeFareCredentialService.execute revoke)
    (fun r => atomically (revoke_step revoke r) (durable w))
    (fails_cleanly (fun s s' => exists r, RevokedFareCredential.changed r = true
       /\ revoke_step revoke r s s') (durable w)) w.
Proof.
  intros Hwf. split_and!;
    [by apply execute_activate_ok|by apply execute_suspend_ok|by apply execute_revoke_ok].
Qed.

(** C22. Issuing is atomic.  A successful call found the account active at one
    moment and, at a later one, stored a new pending credential of that
    account and kind under an identity that was free, at version one,
    together with its issue event; a failed call issued nothing (or its
    commit reported the error). *)
Theorem issue_service_atomic command w :
  wp (IssueFareCredentialService.execute command)
    (fun r w' => exists s, others (durable w) s
       /\ active_account s (IssueFareCredentialCommand.transit_account_id command)
       /\ atomically (issue_step command r) s w')
    (fails_cleanly (fun s s' => exists r, issue_step command r s s') (durable w)) w.
Proof. apply execute_issue_ok. Qed.

(** C20. Replacement is atomic: in one step the loaded credential becomes
    replaced by a successor, the successor is stored as a new pending
    credential of the same account under a free identity, and both events are
    appended; never one without the other.  A credential that is replaced
    already is answered with its recorded successor and nothing is written,
    and a failed call replaced nothing (or its commit reported the error). *)
Theorem replace_service_atomic command w :
  store_wf (durable w) ->
  wp (ReplaceFareCredentialService.execute command)
    (fun r w' => if ReplacedFareCredential.changed r then
         atomically (replace_step command r) (durable w) w'
       else replaced_already command r (durable w) w')
    (fails_cleanly (fun s s' => exists r, replace_step command r s s') (durable w)) w.
Proof. intros Hwf. by apply execute_replace_ok. Qed.

(** C21. The event log is a faithful audit trail.  Start from a registry whose
    log replays to what is stored (an empty one does) and make any calls of
    the five services, with any failures, beside other transactions that keep
    their part of the bargain: replaying the events of any credential still
    gives its stored status and version (so every version has its event, in
    order, and each event starts from the status the one before ended in), a
    credential without events is not stored, and every stored credential is
    well formed and stored under its own identity. *)
Theorem event_log_replays calls w :
  (forall s s', others s s' -> registry_ok s -> registry_ok s') ->
  registry_ok (durable w) ->
  let s := durable (foldl call_service w calls) in
  (forall id, replay id (Store.events s) = stored_log s id)
  /\ (forall id x, Store.credentials s !! id = Some x ->
        FareCredential.id (VersionedAggregate.aggregate x) = id
        /\ credential_wf (VersionedAggregate.aggregate x)).
Proof. intros Ho Hw s. by destruct (calls_ok calls w Ho Hw). Qed.

End correctness.

Lemma status_step_after id method target c c' s s' :
  status_step id method target c c' s s' ->
  exists next, Store.credentials s' !! id = Some (VersionedAggregate.new c' next).
Proof. intros []. eexists. cbn. apply lookup_insert_eq. Qed.

Lemma status_step_from id method target c c' s s' :
  status_step id method target c c' s s' ->
  exists v, Store.credentials s !! id = Some (VersionedAggregate.new c v).
Proof. intros []. by eexists. Qed.

(** A second command finds the credential in its target status. *)
Lemma repeated_status_step id method target c c1 c1' v s1 s2 :
  Store.credentials s1 !! id = Some (VersionedAggregate.new c v) ->
  FareCredential.status c = target ->
  ~ status_step id method target c1 c1' s1 s2.
Proof.
  intros Hc Hst Hs. destruct (status_step_method _ _ _ _ _ _ _ Hs) as [_ Hne].
  destruct (status_step_from _ _ _ _ _ _ _ Hs) as [v1 Hc1]. congruence.
Qed.

Lemma repeated_already id target c c1 v s1 s2 :
  Store.credentials s1 !! id = Some (VersionedAggregate.new c v) ->
  already id target c1 s1 s2 -> s2 = s1 /\ c1 = c.
Proof. intros Hc (-> & _ & v1 & Hc1). split; [done|congruence]. Qed.

Lemma activate_step_status command r s s1 :
  activate_step command r s s1 ->
  exists c v, Store.credentials s1 !! ActivateFareCredentialCommand.credential_id command
      = Some (VersionedAggregate.new c v)
    /\ FareCredential.status c = FareCredentialStatus.Active
    /\ ActivatedFareCredential.current_status r = FareCredentialStatus.Active.
Proof.
  intros (c & Hstep). destruct (ActivatedFareCredential.changed r).
  - destruct Hstep as (c' & Hs & ->). destruct (status_step_method _ _ _ _ _ _ _ Hs) as [Hm _].
    destruct (status_step_after _ _ _ _ _ _ _ Hs) as [v Hv].
    exists c', v. split_and!; [done|by eapply activate_Ok|done].
  - destruct Hstep as [(-> & Hst & v & Hv) ->]. by exists c, v.
Qed.

Lemma suspend_step_status command r s s1 :
  suspend_step command r s s1 ->
  exists c v, Store.credentials s1 !! SuspendFareCredentialCommand.credential_id command
      = Some (VersionedAggregate.new c v)
    /\ FareCredential.status c = FareCredentialStatus.Suspended
    /\ SuspendedFareCredential.current_status r = FareCredentialStatus.Suspended.
Proof.
  intros (c & Hstep). destruct (SuspendedFareCredential.changed r).
  - destruct Hstep as (c' & Hs & ->). destruct (status_step_method _ _ _ _ _ _ _ Hs) as [Hm _].
    destruct (status_step_after _ _ _ _ _ _ _ Hs) as [v Hv].
    exists c', v. split_and!; [done|by eapply suspend_Ok|done].
  - destruct Hstep as [(-> & Hst & v & Hv) ->]. by exists c, v.
Qed.

Lemma revoke_step_reason id reason r s s1 :
  revoke_step (RevokeFareCredentialCommand.mk id reason) r s s1 -> registry_ok s ->
  exists c v, Store.credentials s1 !! id = Some (VersionedAggregate.new c v)
    /\ FareCredential.status c = FareCredentialStatus.Revoked
    /\ FareCredential.revocation_reason c = Some (RevokedFareCredential.reason r).
Proof.
  intros (c & Hstep) Hok. destruct (RevokedFareCredential.changed r) eqn:Hch.
  - destruct Hstep as (c' & Hs & ->). destruct (status_step_method _ _ _ _ _ _ _ Hs) as [Hm Hne].
    destruct (status_step_after _ _ _ _ _ _ _ Hs) as [v Hv].
    destruct (revoke_Ok _ _ _ _ Hm Hne) as [Hst Hr]. by exists c', v.
  - destruct Hstep as [(-> & Hst & v & Hv) ->]. exists c, v. cbn in Hv |- *. split_and!; [done..|].
    destruct (registry_credentials _ Hok _ _ Hv) as [_ Hwf]. cbn in Hwf.
    apply (credential_revoked_reason _ Hwf) in Hst as [x Hx]. by rewrite Hx.
Qed.

Lemma repeat_activate command r r' s s1 s2 :
  activate_step command r s s1 -> activate_step command r' s1 s2 ->
  s2 = s1 /\ ActivatedFareCredential.changed r' = false
  /\ ActivatedFareCredential.current_status r' = ActivatedFareCredential.current_status r.
Proof.
  intros H1 (c1 & H2). destruct (activate_step_status _ _ _ _ H1) as (c & v & Hc & Hst & Hr).
  destruct (ActivatedFareCredential.changed r').
  { destruct H2 as (c2 & Hs & _). by eapply repeated_status_step in Hs. }
  destruct H2 as [Ha ->]. destruct (repeated_already _ _ _ _ _ _ _ Hc Ha) as [-> _].
  by rewrite Hr.
Qed.

Lemma repeat_suspend command r r' s s1 s2 :
  suspend_step command r s s1 -> suspend_step command r' s1 s2 ->
  s2 = s1 /\ SuspendedFareCredential.changed r' = false
  /\ SuspendedFareCredential.current_status r' = SuspendedFareCredential.current_status r.
Proof.
  intros H1 (c1 & H2). destruct (suspend_step_status _ _ _ _ H1) as (c & v & Hc & Hst & Hr).
  destruct (SuspendedFareCredential.changed r').
  { destruct H2 as (c2 & Hs & _). by eapply repeated_status_step in Hs. }
  destruct H2 as [Ha ->]. destruct (repeated_already _ _ _ _ _ _ _ Hc Ha) as [-> _].
  by rewrite Hr.
Qed.

Lemma repeat_revoke id reason reason' r r' s s1 s2 :
  revoke_step (RevokeFareCredentialCommand.mk id reason) r s s1 ->
  revoke_step (RevokeFareCredentialCommand.mk id reason') r' s1 s2 -> registry_ok s ->
  s2 = s1 /\ RevokedFareCredential.changed r' = false
  /\ RevokedFareCredential.reason r' = RevokedFareCredential.reason r.
Proof.
  intros H1 (c1 & H2) Hok. destruct (revoke_step_reason _ _ _ _ _ H1 Hok) as (c & v & Hc & Hst & Hr).
  destruct (RevokedFareCredential.changed r').
  { destruct H2 as (c2 & Hs & _). by eapply repeated_status_step in Hs. }
  destruct H2 as [Ha ->]. destruct (repeated_already _ _ _ _ _ _ _ Hc Ha) as [-> ->].
  cbn. by rewrite Hr.
Qed.

(** What a replacement leaves under the identity of the original. *)
Lemma replace_step_successor command r s s' :
  replace_step command r s s' ->
  exists c v, Store.credentials s' !! ReplaceFareCredentialCommand.credential_id command
      = Some (VersionedAggregate.new c v)
    /\ FareCredential.status c = FareCredentialStatus.Replaced
    /\ FareCredential.replacement_id c = Some (ReplacedFareCredential.replacement_credential_id r).
Proof.
  intros [s0 c c' v next successor event_id event_id' time id kind account Hx Hnone Hn Hm Hne].
  destruct (replace_with_Ok _ _ _ _ Hm Hne) as (Hst & Hrep & _).
  exists c', next. cbn. split_and!; [|done..].
  assert (successor <> id) by (intros ->; congruence).
  rewrite lookup_insert_ne by done. apply lookup_insert_eq.
Qed.

Lemma replace_step_fresh command r s s' c v :
  replace_step command r s s' ->
  Store.credentials s !! ReplaceFareCredentialCommand.credential_id command
    = Some (VersionedAggregate.new c v) ->
  FareCredential.status c <> FareCredentialStatus.Replaced.
Proof. intros [] Hc. unfold id in *. congruence. Qed.

Section alone.
Context `{UuidLibrary} {W T : Type} `{TL : TransactionLaws W T}.
Hypothesis alone : forall s s', others s s' -> s = s'.

Lemma atomically_alone step s w : atomically step s w -> step s (durable w).
Proof using alone. intros (s1 & s2 & ->%alone & Hs & ->%alone). exact Hs. Qed.

Lemma execute_activate_alone command w w' r :
  registry_ok (durable w) ->
  ActivateFareCredentialService.execute command w = (w', Ok r) ->
  activate_step command r (durable w) (durable w').
Proof using alone.
  intros Hok He. apply atomically_alone.
  exact (wp_Ok _ _ _ _ _ _ He (execute_activate_ok command w (registry_ok_wf _ Hok))).
Qed.

Lemma execute_suspend_alone command w w' r :
  registry_ok (durable w) ->
  SuspendFareCredentialService.execute command w = (w', Ok r) ->
  suspend_step command r (durable w) (durable w').
Proof using alone.
  intros Hok He. apply atomically_alone.
  exact (wp_Ok _ _ _ _ _ _ He (execute_suspend_ok command w (registry_ok_wf _ Hok))).
Qed.

Lemma execute_revoke_alone command w w' r :
  registry_ok (durable w) ->
  RevokeFareCredentialService.execute command w = (w', Ok r) ->
  revoke_step command r (durable w) (durable w').
Proof using alone.
  intros Hok He. apply atomically_alone.
  exact (wp_Ok _ _ _ _ _ _ He (execute_revoke_ok command w (registry_ok_wf _ Hok))).
Qed.

(** A successful replacement leaves the credential replaced by the successor
    it reports, and a repetition writes nothing. *)
Lemma execute_replace_alone command w w' r :
  registry_ok (durable w) ->
  ReplaceFareCredentialService.execute command w = (w', Ok r) ->
  (exists c v, Store.credentials (durable w') !! ReplaceFareCredentialCommand.credential_id command
       = Some (VersionedAggregate.new c v)
     /\ FareCredential.status c = FareCredentialStatus.Replaced
     /\ FareCredential.replacement_id c = Some (ReplacedFareCredential.replacement_credential_id r))
  /\ (forall c v, Store.credentials (durable w) !! ReplaceFareCredentialCommand.credential_id command
        = Some (VersionedAggregate.new c v) ->
      FareCredential.status c = FareCredentialStatus.Replaced ->
      durable w' = durable w /\ ReplacedFareCredential.changed r = false).
Proof using alone.
  intros Hok He.
  pose proof (wp_Ok _ _ _ _ _ _ He (execute_replace_ok command w (registry_ok_wf _ Hok))) as Hr.
  cbv beta in Hr. destruct (ReplacedFareCredential.changed r) eqn:Hch.
  - apply atomically_alone in Hr. split; [by eapply replace_step_successor|].
    intros c v Hc Hst. by destruct (replace_step_fresh _ _ _ _ _ _ Hr Hc).
  - destruct Hr as (s1 & s2 & [c v] & y & H1%alone & H2%alone & H3%alone & Hx & _ & Hrep & _).
    rewrite <- H3, <- H2, <- H1. rewrite <- H1 in Hx. split; [|done]. exists c, v. split_and!; [done| |done].
    destruct (registry_credentials _ Hok _ _ Hx) as [_ Hwf]. cbn in Hwf, Hrep.
    apply (credential_replaced_successor _ Hwf). by rewrite Hrep.
Qed.

(** C23. Commands are safe to retry.  Repeat a command right after it
    succeeded, nothing else committing in between; when the repetition
    succeeds, it has changed nothing: no second event, no second version, no
    second replacement.  The status is the one the first call reported, a
    repeated revocation keeps and reports the reason recorded first, not the
    new one, and a repeated replacement reports the successor recorded first,
    not a new one. *)
Theorem repeated_commands_change_nothing w :
  registry_ok (durable w) ->
  (forall command w1 w2 r r',
     ActivateFareCredentialService.execute command w = (w1, Ok r) ->
     ActivateFareCredentialService.execute command w1 = (w2, Ok r') ->
     durable w2 = durable w1 /\ ActivatedFareCredential.changed r' = false
     /\ ActivatedFareCredential.current_status r' = ActivatedFareCredential.current_status r)
  /\ (forall command w1 w2 r r',
     SuspendFareCredentialService.execute command w = (w1, Ok r) ->
     SuspendFareCredentialService.execute command w1 = (w2, Ok r') ->
     durable w2 = durable w1 /\ SuspendedFareCredential.changed r' = false
     /\ SuspendedFareCredential.current_status r' = SuspendedFareCredential.current_status r)
  /\ (forall id reason reason' w1 w2 r r',
     RevokeFareCredentialService.execute (RevokeFareCredentialCommand.mk id reason) w
       = (w1, Ok r) ->
     RevokeFareCredentialService.execute (RevokeFareCredentialCommand.mk id reason') w1
       = (w2, Ok r') ->
     durable w2 = durable w1 /\ RevokedFareCredential.changed r' = false
     /\ RevokedFareCredential.reason r' = RevokedFareCredential.reason r)
  /\ (forall id kind kind' w1 w2 r r',
     ReplaceFareCredentialService.execute (ReplaceFareCredentialCommand.mk id kind) w
       = (w1, Ok r) ->
     ReplaceFareCredentialService.execute (ReplaceFareCredentialCommand.mk id kind') w1
       = (w2, Ok r') ->
     durable w2 = durable w1 /\ ReplacedFareCredential.changed r' = false
     /\ ReplacedFareCredential.replacement_credential_id r'
        = ReplacedFareCredential.replacement_credential_id r).
Proof using alone.
  intros Hok.
  assert (Hkeep : forall s s', others s s' -> registry_ok s -> registry_ok s')
    by (intros s s' Ho; by rewrite (alone _ _ Ho)).
  pose proof (fun call => call_service_ok w call Hkeep Hok) as Hnext.
  split_and!.
  - intros command w1 w2 r r' H1 H2. pose proof (Hnext (CallActivate command)) as Hok1.
    cbn in Hok1. rewrite H1 in Hok1. cbn in Hok1.
    exact (repeat_activate _ _ _ _ _ _ (execute_activate_alone _ _ _ _ Hok H1)
             (execute_activate_alone _ _ _ _ Hok1 H2)).
  - intros command w1 w2 r r' H1 H2. pose proof (Hnext (CallSuspend command)) as Hok1.
    cbn in Hok1. rewrite H1 in Hok1. cbn in Hok1.
    exact (repeat_suspend _ _ _ _ _ _ (execute_suspend_alone _ _ _ _ Hok H1)
             (execute_suspend_alone _ _ _ _ Hok1 H2)).
  - intros id reason reason' w1 w2 r r' H1 H2.
    pose proof (Hnext (CallRevoke (RevokeFareCredentialCommand.mk id reason))) as Hok1.
    cbn in Hok1. rewrite H1 in Hok1. cbn in Hok1.
    exact (repeat_revoke _ _ _ _ _ _ _ _ (execute_revoke_alone _ _ _ _ Hok H1)
             (execute_revoke_alone _ _ _ _ Hok1 H2) Hok).
  - intros id kind kind' w1 w2 r r' H1 H2.
    pose proof (Hnext (CallReplace (ReplaceFareCredentialCommand.mk id kind))) as Hok1.
    cbn in Hok1. rewrite H1 in Hok1. cbn in Hok1.
    destruct (execute_replace_alone _ _ _ _ Hok H1) as [(c & v & Hc & Hst & Hrep) _].
    destruct (execute_replace_alone _ _ _ _ Hok1 H2) as [(c2 & v2 & Hc2 & _ & Hrep2) Hsame].
    destruct (Hsame c v Hc Hst) as [Hd Hch]. rewrite Hd in Hc2.
    split; [exact Hd|]. split; [exact Hch|].
    cbn [ReplaceFareCredentialCommand.credential_id] in Hc, Hc2. rewrite Hc in Hc2.
    injection Hc2 as <- <-. rewrite Hrep in Hrep2. by injection Hrep2.
Qed.

End alone.

(** ** Witnesses *)

Definition sample_account : TransitAccount.t :=
  TransitAccount.mk (MkIdentifier uuid_1) (MkIdentifier uuid_1) TransitAccountStatus.Active
    EligibilityClassification.Standard (StoredValueBalance.mk (sample_money 500)).

(** An active account and nothing else; no faults, a clock that works. *)
Definition sample_memory : Memory :=
  {| m_store := Store.mk {[ MkIdentifier uuid_1 := VersionedAggregate.new sample_account
                              (AggregateVersion.mk 1) ]} ∅ ∅ [];
     m_open := ∅; m_next_transaction := 0; m_faults := [];
     m_time := Ok (DomainEventTime.mk 1000); m_next_id := 10 |}.

Definition sample_credential_id : FareCredentialId := MkIdentifier (m_uuid 10).

Definition sample_issue : IssueFareCredentialCommand.t :=
  IssueFareCredentialCommand.mk (MkIdentifier uuid_1) FareCredentialKind.Card.

(** The memory after issuing one credential. *)
Definition issued_memory : Memory := call_service sample_memory (CallIssue sample_issue).

(** The calls run and succeed: issue, activate, replace. *)
Example sample_calls_succeed :
  outcome (IssueFareCredentialService.execute sample_issue) sample_memory
    = Ok (IssuedFareCredential.mk sample_credential_id (MkIdentifier uuid_1)
            FareCredentialKind.Card FareCredentialStatus.Pending)
  /\ outcome (ActivateFareCredentialService.execute
        (ActivateFareCredentialCommand.mk sample_credential_id)) issued_memory
    = Ok (ActivatedFareCredential.mk sample_credential_id FareCredentialStatus.Pending
            FareCredentialStatus.Active true)
  /\ outcome (SuspendFareCredentialService.execute
        (SuspendFareCredentialCommand.mk sample_credential_id)) issued_memory
    = Err (ApplicationError.FareCredential (FareCredentialError.InvalidStatusTransition
             FareCredentialStatus.Pending FareCredentialStatus.Suspended)).
Proof. vm_compute. done. Qed.

Lemma sample_memory_wf : store_wf (durable sample_memory).
Proof. intros id x. cbn. by rewrite lookup_empty. Qed.

Lemma issued_memory_wf : store_wf (durable issued_memory).
Proof.
  apply (bool_decide_eq_true_1 (map_Forall (fun id x =>
    FareCredential.id (VersionedAggregate.aggregate x) = id)
    (Store.credentials (m_store issued_memory)))). vm_compute. reflexivity.
Qed.

Definition sample_activate : ActivateFareCredentialCommand.t :=
  ActivateFareCredentialCommand.mk sample_credential_id.
Definition sample_suspend : SuspendFareCredentialCommand.t :=
  SuspendFareCredentialCommand.mk sample_credential_id.
Definition sample_revoke : RevokeFareCredentialCommand.t :=
  RevokeFareCredentialCommand.mk sample_credential_id RevocationReason.ReportedLost.

Lemma status_services_atomic_witness :
  let r := ActivatedFareCredential.mk sample_credential_id FareCredentialStatus.Pending
             FareCredentialStatus.Active true in
  let w := (ActivateFareCredentialService.execute sample_activate issued_memory).1 in
  outcome (ActivateFareCredentialService.execute sample_activate) issued_memory = Ok r
  /\ atomically (activate_step sample_activate r) (durable issued_memory) w.
Proof.
  assert (Ho : outcome (ActivateFareCredentialService.execute sample_activate) issued_memory
    = Ok (ActivatedFareCredential.mk sample_credential_id FareCredentialStatus.Pending
             FareCredentialStatus.Active true)) by (vm_compute; reflexivity).
  split; [exact Ho|].
  destruct (status_services_atomic sample_activate sample_suspend sample_revoke issued_memory
    issued_memory_wf) as [H _].
  unfold wp in H. unfold outcome in Ho.
  destruct (ActivateFareCredentialService.execute sample_activate issued_memory) as [w [r|e]];
    cbn in Ho; [|done].
  injection Ho as ->. exact H.
Defined.

Definition sample_replace : ReplaceFareCredentialCommand.t :=
  ReplaceFareCredentialCommand.mk sample_credential_id FareCredentialKind.Mobile.

Lemma replace_service_atomic_witness :
  let r := ReplacedFareCredential.mk sample_credential_id (MkIdentifier (m_uuid 13))
             FareCredentialStatus.Active FareCredentialStatus.Replaced
             FareCredentialStatus.Pending true in
  let active_memory := (ActivateFareCredentialService.execute sample_activate issued_memory).1 in
  let w := (ReplaceFareCredentialService.execute sample_replace active_memory).1 in
  outcome (ReplaceFareCredentialService.execute sample_replace) active_memory = Ok r
  /\ atomically (replace_step sample_replace r) (durable active_memory) w.
Proof.
  intros r active_memory.
  assert (Ho : outcome (ReplaceFareCredentialService.execute sample_replace) active_memory = Ok r)
    by (vm_compute; reflexivity).
  assert (Hwf : store_wf (durable active_memory)).
  { apply (bool_decide_eq_true_1 (map_Forall (fun id x =>
      FareCredential.id (VersionedAggregate.aggregate x) = id)
      (Store.credentials (m_store active_memory)))). vm_compute. reflexivity. }
  split; [exact Ho|].
  pose proof (replace_service_atomic sample_replace active_memory Hwf) as H.
  unfold wp in H. unfold outcome in Ho.
  destruct (ReplaceFareCredentialService.execute sample_replace active_memory) as [w [r'|e]];
    cbn in Ho; [|done].
  injection Ho as ->. exact H.
Defined.

Lemma memory_alone s s' : others s s' -> s = s'.
Proof. done. Qed.

Lemma memory_others s s' : others s s' -> registry_ok s -> registry_ok s'.
Proof. by intros <-. Qed.

Lemma sample_memory_ok : registry_ok (durable sample_memory).
Proof. split; [intros id x; cbn; by rewrite lookup_empty|done]. Qed.

Definition sample_calls : list ServiceCall :=
  [CallIssue sample_issue; CallActivate sample_activate; CallReplace sample_replace].

Lemma event_log_replays_witness :
  let s := durable (foldl call_service sample_memory sample_calls) in
  replay sample_credential_id (Store.events s) = Present FareCredentialStatus.Replaced 3
  /\ List.length (Store.events s) = 4%nat.
Proof.
  pose proof (proj1 (event_log_replays sample_calls sample_memory memory_others sample_memory_ok)
    sample_credential_id) as Hreplay.
  split; [refine (eq_trans Hreplay _)|]; vm_compute; reflexivity.
Defined.

Lemma issued_memory_ok : registry_ok (durable issued_memory).
Proof.
  unfold issued_memory. generalize (CallIssue sample_issue). intros call.
  exact (call_service_ok sample_memory call memory_others sample_memory_ok).
Qed.

Lemma repeated_commands_change_nothing_witness :
  let m1 := (ActivateFareCredentialService.execute sample_activate issued_memory).1 in
  let m2 := (ActivateFareCredentialService.execute sample_activate m1).1 in
  outcome (ActivateFareCredentialService.execute sample_activate) issued_memory
    = Ok (ActivatedFareCredential.mk sample_credential_id FareCredentialStatus.Pending
             FareCredentialStatus.Active true)
  /\ outcome (ActivateFareCredentialService.execute sample_activate) m1
    = Ok (ActivatedFareCredential.mk sample_credential_id FareCredentialStatus.Active
             FareCredentialStatus.Active false)
  /\ durable m2 = durable m1.
Proof.
  intros m1 m2.
  assert (H1 : outcome (ActivateFareCredentialService.execute sample_activate) issued_memory
    = Ok (ActivatedFareCredential.mk sample_credential_id FareCredentialStatus.Pending
             FareCredentialStatus.Active true)) by (vm_compute; reflexivity).
  assert (H2 : outcome (ActivateFareCredentialService.execute sample_activate) m1
    = Ok (ActivatedFareCredential.mk sample_credential_id FareCredentialStatus.Active
             FareCredentialStatus.Active false)) by (vm_compute; reflexivity).
  split; [exact H1|]. split; [exact H2|]. unfold outcome in H1, H2.
  eapply (proj1 (repeated_commands_change_nothing memory_alone issued_memory issued_memory_ok)).
  - unfold m1. rewrite <- H1. apply surjective_pairing.
  - unfold m2. rewrite <- H2. apply surjective_pairing.
Defined.

(** A pending credential cannot be suspended, and the error says so. *)
Lemma service_errors_truthful_witness :
  let e := FareCredentialError.InvalidStatusTransition FareCredentialStatus.Pending
             FareCredentialStatus.Suspended in
  outcome (SuspendFareCredentialService.execute sample_suspend) issued_memory
    = Err (ApplicationError.FareCredential e)
  /\ seen_credential (durable issued_memory) sample_credential_id
       (refuses FareCredential.suspend FareCredentialStatus.Suspended e).
Proof.
  intros e.
  assert (H1 : outcome (SuspendFareCredentialService.execute sample_suspend) issued_memory
    = Err (ApplicationError.FareCredential e)) by (vm_compute; reflexivity).
  split; [exact H1|].
  destruct (service_errors_truthful sample_activate sample_suspend sample_revoke sample_issue
    sample_replace issued_memory) as (_ & Hs & _).
  unfold outcome in H1.
  apply (Hs (SuspendFareCredentialService.execute sample_suspend issued_memory).1
    (ApplicationError.FareCredential e)).
  rewrite <- H1. apply surjective_pairing.
Defined.
