(* ===== verification/PersistenceRows.v ===== *)
(** * Rows of the backend's aggregates
    (crates/persistence/src/repositories/transit_account.rs,
    fare_credential.rs, reader_equipment.rs, domain_event.rs)

    The structures that the repositories bind and fetch, with the conversions
    from and to domain values.  The conversion of an event's payload, which
    [serde] derives, is the interface [EventJson]. *)

From S2P Require Import Prelude Text DomainMoney DomainIdentifier DomainAccount DomainCredential.
From S2P Require Import DomainEquipment DomainTransaction DomainEvents DeviceProtocolValues.
From S2P Require Import ApplicationPorts PersistenceColumns PersistenceCodec.

(** A method called on a local variable; its error is replaced. *)
Definition updated {S E} (method : Mut S E unit) (self : S) (error : PersistenceError.t)
  : Result PersistenceError.t S :=
  let '(self', r) := method self in
  _ ← map_err (fun _ => error) r;
  Ok self'.

(** ** transit_account.rs *)

Module TransitAccountRow.

Record t := mk {
  id : Uuid;
  rider_id : Uuid;
  status : Str;
  eligibility : Str;
  stored_value_minor_units : Z;
  stored_value_currency : Str;
  aggregate_version : Z
}.

#[global] Instance eq_dec : EqDecision t.
Proof. solve_decision. Defined.

Definition from_domain (account : TransitAccount.t) (aggregate_version : Z) : t :=
  let stored_value := StoredValueBalance.amount (TransitAccount.stored_value account) in
  mk (into_uuid (TransitAccount.id account)) (into_uuid (TransitAccount.rider_id account))
    (PostgresValueCodec.encode_account_status (TransitAccount.status account))
    (PostgresValueCodec.encode_eligibility (TransitAccount.eligibility account))
    (Money.minor_units stored_value)
    (PostgresValueCodec.encode_currency (Money.currency stored_value))
    aggregate_version.

Definition into_versioned `{UuidLibrary} (self : t)
  : Result PersistenceError.t (Versioned TransitAccount.t) :=
  account_id ← map_err (fun _ => invalid "transit_accounts.id") (try_from_uuid _ (id self));
  rider_id ← map_err (fun _ => invalid "transit_accounts.rider_id")
               (try_from_uuid _ (rider_id self));
  status ← PostgresValueCodec.decode_account_status (status self);
  eligibility ← PostgresValueCodec.decode_eligibility (eligibility self);
  currency ← PostgresValueCodec.decode_currency (trim (stored_value_currency self));
  let initial_balance := Money.from_minor_units (stored_value_minor_units self) currency in
  account ← map_err (fun _ => invalid "transit_accounts.stored_value_minor_units")
              (TransitAccount.new account_id rider_id eligibility initial_balance);
  account ←
    match status with
    | TransitAccountStatus.Active => Ok account
    | TransitAccountStatus.Suspended =>
        updated TransitAccount.suspend account (invalid "transit_accounts.status")
    | TransitAccountStatus.Closed => Ok (after TransitAccount.close account)
    end;
  version ← PostgresValueCodec.decode_aggregate_version (aggregate_version self);
  Ok (VersionedAggregate.new account version).

End TransitAccountRow.

(** ** fare_credential.rs *)

Module FareCredentialRow.

Record t := mk {
  id : Uuid;
  transit_account_id : Uuid;
  kind : Str;
  status : Str;
  revocation_reason : option Str;
  replacement_id : option Uuid;
  aggregate_version : Z
}.

#[global] Instance eq_dec : EqDecision t.
Proof. solve_decision. Defined.

Definition from_domain (credential : FareCredential.t) (aggregate_version : Z) : t :=
  mk (into_uuid (FareCredential.id credential))
    (into_uuid (FareCredential.transit_account_id credential))
    (PostgresValueCodec.encode_credential_kind (FareCredential.kind credential))
    (PostgresValueCodec.encode_credential_status (FareCredential.status credential))
    (PostgresValueCodec.encode_credential_revocation_reason
       <$> FareCredential.revocation_reason credential)
    (into_uuid <$> FareCredential.replacement_id credential)
    aggregate_version.

Definition validate_lifecycle_fields (status : FareCredentialStatus.t)
    (revocation_reason : option RevocationReason.t) (replacement_id : option FareCredentialId)
  : Result PersistenceError.t unit :=
  match status with
  | FareCredentialStatus.Revoked =>
      if negb (bool_decide (is_Some revocation_reason)) then
        Err (invalid "fare_credentials.revocation_reason")
      else if bool_decide (is_Some replacement_id) then
        Err (invalid "fare_credentials.replacement_id")
      else Ok tt
  | FareCredentialStatus.Replaced =>
      if bool_decide (is_Some revocation_reason) then
        Err (invalid "fare_credentials.revocation_reason")
      else if negb (bool_decide (is_Some replacement_id)) then
        Err (invalid "fare_credentials.replacement_id")
      else Ok tt
  | FareCredentialStatus.Pending | FareCredentialStatus.Active
  | FareCredentialStatus.Suspended | FareCredentialStatus.Expired =>
      if bool_decide (is_Some revocation_reason) then
        Err (invalid "fare_credentials.revocation_reason")
      else if bool_decide (is_Some replacement_id) then
        Err (invalid "fare_credentials.replacement_id")
      else Ok tt
  end.

(** The [match status] of [into_versioned]: the methods that lead from a
    pending credential to the stored one. *)
Definition restore (status : FareCredentialStatus.t)
    (revocation_reason : option RevocationReason.t) (replacement_id : option FareCredentialId)
    (credential : FareCredential.t) : Result PersistenceError.t FareCredential.t :=
  let bad_status := invalid "fare_credentials.status" in
  match status with
  | FareCredentialStatus.Pending => Ok credential
  | FareCredentialStatus.Active => updated FareCredential.activate credential bad_status
  | FareCredentialStatus.Suspended =>
      credential ← updated FareCredential.activate credential bad_status;
      updated FareCredential.suspend credential bad_status
  | FareCredentialStatus.Revoked =>
      reason ← ok_or revocation_reason (invalid "fare_credentials.revocation_reason");
      updated (FareCredential.revoke reason) credential bad_status
  | FareCredentialStatus.Expired => updated FareCredential.expire credential bad_status
  | FareCredentialStatus.Replaced =>
      replacement_id ← ok_or replacement_id (invalid "fare_credentials.replacement_id");
      credential ← updated FareCredential.activate credential bad_status;
      updated (FareCredential.replace_with replacement_id) credential
        (invalid "fare_credentials.replacement_id")
  end.

Definition into_versioned `{UuidLibrary} (self : t)
  : Result PersistenceError.t (Versioned FareCredential.t) :=
  credential_id ← map_err (fun _ => invalid "fare_credentials.id") (try_from_uuid _ (id self));
  account_id ← map_err (fun _ => invalid "fare_credentials.transit_account_id")
                 (try_from_uuid _ (transit_account_id self));
  kind ← PostgresValueCodec.decode_credential_kind (kind self);
  status ← PostgresValueCodec.decode_credential_status (status self);
  revocation_reason ←
    decode_option PostgresValueCodec.decode_credential_revocation_reason (revocation_reason self);
  replacement_id ←
    decode_option (fun value => map_err (fun _ => invalid "fare_credentials.replacement_id")
                                  (try_from_uuid _ value)) (replacement_id self);
  _ ← validate_lifecycle_fields status revocation_reason replacement_id;
  credential ← restore status revocation_reason replacement_id
                 (FareCredential.new_pending credential_id account_id kind);
  version ← PostgresValueCodec.decode_aggregate_version (aggregate_version self);
  Ok (VersionedAggregate.new credential version).

End FareCredentialRow.

(** ** reader_equipment.rs *)

Module ReaderEquipmentRow.

Record t := mk {
  id : Uuid;
  equipment_key_id : Uuid;
  status : Str;
  disablement_reason : option Str;
  revocation_reason : option Str;
  aggregate_version : Z
}.

#[global] Instance eq_dec : EqDecision t.
Proof. solve_decision. Defined.

Definition from_domain (reader : ReaderEquipment.t) (aggregate_version : Z) : t :=
  mk (into_uuid (ReaderEquipment.id reader))
    (into_uuid (EquipmentIdentity.key_id (ReaderEquipment.identity reader)))
    (PostgresValueCodec.encode_reader_status (ReaderEquipment.status reader))
    (PostgresValueCodec.encode_reader_disablement_reason
       <$> ReaderEquipment.disablement_reason reader)
    (PostgresValueCodec.encode_reader_revocation_reason
       <$> ReaderEquipment.revocation_reason reader)
    aggregate_version.

Definition validate_lifecycle_fields (status : ReaderEquipmentStatus.t)
    (disablement_reason : option ReaderDisablementReason.t)
    (revocation_reason : option ReaderRevocationReason.t) : Result PersistenceError.t unit :=
  match status with
  | ReaderEquipmentStatus.Disabled =>
      if negb (bool_decide (is_Some disablement_reason)) then
        Err (invalid "reader_equipment.disablement_reason")
      else if bool_decide (is_Some revocation_reason) then
        Err (invalid "reader_equipment.revocation_reason")
      else Ok tt
  | ReaderEquipmentStatus.Revoked =>
      if bool_decide (is_Some disablement_reason) then
        Err (invalid "reader_equipment.disablement_reason")
      else if negb (bool_decide (is_Some revocation_reason)) then
        Err (invalid "reader_equipment.revocation_reason")
      else Ok tt
  | ReaderEquipmentStatus.PendingRegistration | ReaderEquipmentStatus.Active
  | ReaderEquipmentStatus.Offline | ReaderEquipmentStatus.Decommissioned =>
      if bool_decide (is_Some disablement_reason) then
        Err (invalid "reader_equipment.disablement_reason")
      else if bool_decide (is_Some revocation_reason) then
        Err (invalid "reader_equipment.revocation_reason")
      else Ok tt
  end.

(** The [match status] of [into_versioned]. *)
Definition restore (status : ReaderEquipmentStatus.t)
    (disablement_reason : option ReaderDisablementReason.t)
    (revocation_reason : option ReaderRevocationReason.t) (reader : ReaderEquipment.t)
  : Result PersistenceError.t ReaderEquipment.t :=
  let bad_status := invalid "reader_equipment.status" in
  match status with
  | ReaderEquipmentStatus.PendingRegistration => Ok reader
  | ReaderEquipmentStatus.Active => updated ReaderEquipment.activate reader bad_status
  | ReaderEquipmentStatus.Offline =>
      reader ← updated ReaderEquipment.activate reader bad_status;
      updated ReaderEquipment.mark_offline reader bad_status
  | ReaderEquipmentStatus.Disabled =>
      reason ← ok_or disablement_reason (invalid "reader_equipment.disablement_reason");
      updated (ReaderEquipment.disable reason) reader bad_status
  | ReaderEquipmentStatus.Revoked =>
      reason ← ok_or revocation_reason (invalid "reader_equipment.revocation_reason");
      updated (ReaderEquipment.revoke reason) reader bad_status
  | ReaderEquipmentStatus.Decommissioned =>
      updated ReaderEquipment.decommission reader bad_status
  end.

Definition into_versioned `{UuidLibrary} (self : t)
  : Result PersistenceError.t (Versioned ReaderEquipment.t) :=
  reader_id ← map_err (fun _ => invalid "reader_equipment.id") (try_from_uuid _ (id self));
  key_id ← map_err (fun _ => invalid "reader_equipment.equipment_key_id")
             (try_from_uuid _ (equipment_key_id self));
  status ← PostgresValueCodec.decode_reader_status (status self);
  disablement_reason ←
    decode_option PostgresValueCodec.decode_reader_disablement_reason (disablement_reason self);
  revocation_reason ←
    decode_option PostgresValueCodec.decode_reader_revocation_reason (revocation_reason self);
  _ ← validate_lifecycle_fields status disablement_reason revocation_reason;
  reader ← restore status disablement_reason revocation_reason
             (ReaderEquipment.new_pending reader_id key_id);
  version ← PostgresValueCodec.decode_aggregate_version (aggregate_version self);
  Ok (VersionedAggregate.new reader version).

End ReaderEquipmentRow.

(** ** domain_event.rs *)

(** [Serialize] and [Deserialize] of [DomainEventPayload].  Only valid payloads
    are values of the type; their format is [payload_format] of
    MessageFormats.v. *)
Class EventJson `{JsonLibrary} := {
  payload_to_value : DomainEventPayload.t -> Result json_Error Json;
  payload_from_value : Json -> option DomainEventPayload.t
}.

Module DomainEventRecord.
Section record.
Context `{JsonLibrary}.

Record t := mk {
  id : Uuid;
  aggregate_kind : Str;
  aggregate_id : Uuid;
  aggregate_version : Z;
  event_name : Str;
  occurred_at_unix_ms : Z;
  payload : Json
}.

Definition from_domain `{!EventJson} (event : DomainEvent.t) : Result PersistenceError.t t :=
  let '(aggregate_kind, aggregate_id) :=
    PostgresValueCodec.encode_aggregate_id (DomainEvent.aggregate_id event) in
  aggregate_version ←
    PostgresValueCodec.encode_aggregate_version (DomainEvent.aggregate_version event);
  payload ←
    map_err (fun _ => PersistenceError.serialization (lit "serialize domain event payload"))
      (payload_to_value (DomainEvent.payload event));
  Ok (mk (into_uuid (DomainEvent.id event)) aggregate_kind aggregate_id aggregate_version
        (DomainEvent.event_name event)
        (PostgresValueCodec.encode_event_time (DomainEvent.occurred_at event)) payload).

End record.
End DomainEventRecord.
