(* ===== verification/PersistenceCoreTables.v ===== *)
(** * The backend's core tables (crates/persistence/migrations:
    0002_create_core_persistence_schema.sql,
    0003_create_reader_equipment_schema.sql)

    Accounts, credentials, reader equipment and events, with the constraints
    of the migrations and the statements of the repositories.  [TableRow] is
    what an aggregate's table declares: its key, its checks and its unique
    columns.  The columns that the server fills in ([created_at],
    [updated_at], [recorded_at]) are left out. *)

From S2P Require Import Prelude Text DomainMoney DomainIdentifier DomainAccount DomainCredential.
From S2P Require Import DomainEquipment DomainEvents DeviceProtocolValues PersistenceSql.
From S2P Require Import PersistenceColumns PersistenceCodec ApplicationPorts.
From S2P Require Import PersistenceRows.

(** ** Columns *)

(** [x IN ('..', ..)]. *)
Definition text_in (x : Str) (texts : list string) : bool :=
  existsb (fun text => bool_decide (x = lit text)) texts.

Definition nullable {A} (check : A -> bool) (x : option A) : bool :=
  match x with
  | Some a => check a
  | None => true
  end.

Definition is_not_null {A} (x : option A) : bool := bool_decide (is_Some x).
Definition is_null {A} (x : option A) : bool := negb (is_not_null x).

(** The three checks on a UUID column. *)
Definition uuid_column `{UuidLibrary} (u : Uuid) : bool :=
  uuid_check (MkIdentifier (k := KTransitAccountId) u).

(** [BIGINT]. *)
Definition bigint (n : Z) : bool := (i64_min <=? n) && (n <=? i64_max).

(** [aggregate_version BIGINT], with its check. *)
Definition version_column (n : Z) : bool := bigint n && (0 <? n).

(** [text LIKE kind || '.%']: in a pattern, [_] is any character. *)
Fixpoint like_dotted (kind text : Str) : bool :=
  match kind, text with
  | [], c :: _ => c =? 46
  | k :: kind', c :: text' => ((k =? 95) || (k =? c)) && like_dotted kind' text'
  | _, [] => false
  end.

(** ** Rows *)

Class TableRow (R : Type) := {
  row_key : R -> Uuid;
  row_version : R -> Z;
  row_check : R -> bool;
  row_clash : R -> R -> bool
}.

Section rows.
Context `{UuidLibrary}.

Definition account_check (r : TransitAccountRow.t) : bool :=
  uuid_column (TransitAccountRow.id r)
  && uuid_column (TransitAccountRow.rider_id r)
  && text_in (TransitAccountRow.status r) ["active"; "suspended"; "closed"]
  && text_in (TransitAccountRow.eligibility r)
       ["standard"; "youth"; "senior"; "reduced_fare"; "employee_test_account"]
  && bigint (TransitAccountRow.stored_value_minor_units r)
  && (0 <=? TransitAccountRow.stored_value_minor_units r)
  && text_in (TransitAccountRow.stored_value_currency r) ["USD"; "CAD"; "EUR"; "GBP"]
  && version_column (TransitAccountRow.aggregate_version r).

Definition credential_check (r : FareCredentialRow.t) : bool :=
  let revoked := bool_decide (FareCredentialRow.status r = lit "revoked") in
  let replaced := bool_decide (FareCredentialRow.status r = lit "replaced") in
  let reason := FareCredentialRow.revocation_reason r in
  let replacement := FareCredentialRow.replacement_id r in
  uuid_column (FareCredentialRow.id r)
  && text_in (FareCredentialRow.kind r) ["card"; "mobile"; "development_test_token"]
  && text_in (FareCredentialRow.status r)
       ["pending"; "active"; "suspended"; "revoked"; "expired"; "replaced"]
  && nullable (fun x => text_in x
       ["reported_lost"; "reported_stolen"; "replaced"; "account_suspended";
        "administrative_action"; "security_incident"; "test_cleanup"]) reason
  && ((revoked && is_not_null reason) || (negb revoked && is_null reason))
  && ((replaced && is_not_null replacement) || (negb replaced && is_null replacement))
  && nullable (fun x => negb (bool_decide (x = FareCredentialRow.id r))) replacement
  && version_column (FareCredentialRow.aggregate_version r).

Definition reader_check (r : ReaderEquipmentRow.t) : bool :=
  let disabled := bool_decide (ReaderEquipmentRow.status r = lit "disabled") in
  let revoked := bool_decide (ReaderEquipmentRow.status r = lit "revoked") in
  let disablement := ReaderEquipmentRow.disablement_reason r in
  let revocation := ReaderEquipmentRow.revocation_reason r in
  uuid_column (ReaderEquipmentRow.id r)
  && uuid_column (ReaderEquipmentRow.equipment_key_id r)
  && text_in (ReaderEquipmentRow.status r)
       ["pending_registration"; "active"; "offline"; "disabled"; "revoked"; "decommissioned"]
  && nullable (fun x => text_in x
       ["suspected_compromise"; "lost_equipment"; "invalid_configuration";
        "administrative_action"; "test_cleanup"]) disablement
  && nullable (fun x => text_in x
       ["suspected_compromise"; "credential_exposure"; "administrative_action";
        "security_incident"; "test_cleanup"]) revocation
  && ((disabled && is_not_null disablement && is_null revocation)
      || (revoked && is_null disablement && is_not_null revocation)
      || (negb (disabled || revoked) && is_null disablement && is_null revocation))
  && version_column (ReaderEquipmentRow.aggregate_version r).

#[global] Instance account_row : TableRow TransitAccountRow.t := {|
  row_key := TransitAccountRow.id;
  row_version := TransitAccountRow.aggregate_version;
  row_check := account_check;
  row_clash x y := bool_decide (TransitAccountRow.rider_id x = TransitAccountRow.rider_id y)
|}.

(** Two nulls are not equal. *)
#[global] Instance credential_row : TableRow FareCredentialRow.t := {|
  row_key := FareCredentialRow.id;
  row_version := FareCredentialRow.aggregate_version;
  row_check := credential_check;
  row_clash x y :=
    is_not_null (FareCredentialRow.replacement_id x)
    && bool_decide (FareCredentialRow.replacement_id x = FareCredentialRow.replacement_id y)
|}.

#[global] Instance reader_row : TableRow ReaderEquipmentRow.t := {|
  row_key := ReaderEquipmentRow.id;
  row_version := ReaderEquipmentRow.aggregate_version;
  row_check := reader_check;
  row_clash x y :=
    bool_decide (ReaderEquipmentRow.equipment_key_id x = ReaderEquipmentRow.equipment_key_id y)
|}.

End rows.

(** PostgreSQL checks a row, then its unique indexes. *)
Section aggregate_table.
Context {R : Type} `{TableRow R}.

(** [INSERT INTO .. VALUES ..]. *)
Definition insert_row (row : R) (m : gmap Uuid R) : Result SqlError (gmap Uuid R * Z) :=
  if negb (row_check row) then Err CheckViolation
  else if bool_decide (is_Some (m !! row_key row))
          || existsb (row_clash row) (map_to_list m).*2 then Err UniqueViolation
  else Ok (<[row_key row := row]> m, 1).

(** [UPDATE .. SET .. WHERE id = $1 AND aggregate_version = expected]: the
    rows affected, none or one. *)
Definition update_row (row : R) (expected : Z) (m : gmap Uuid R)
  : Result SqlError (gmap Uuid R * Z) :=
  match m !! row_key row with
  | Some stored =>
      if row_version stored =? expected then
        if negb (row_check row) then Err CheckViolation
        else if existsb (row_clash row) (map_to_list (delete (row_key row) m)).*2 then
          Err UniqueViolation
        else Ok (<[row_key row := row]> m, 1)
      else Ok (m, 0)
  | None => Ok (m, 0)
  end.

End aggregate_table.

(** ** The tables *)

Section tables.
Context `{JsonLibrary}.

Record CoreTables := MkCoreTables {
  transit_accounts : gmap Uuid TransitAccountRow.t;
  fare_credentials : gmap Uuid FareCredentialRow.t;
  reader_equipment : gmap Uuid ReaderEquipmentRow.t;
  domain_events : list DomainEventRecord.t
}.

Definition set_transit_accounts (x : gmap Uuid TransitAccountRow.t) (t : CoreTables) : CoreTables :=
  MkCoreTables x (fare_credentials t) (reader_equipment t) (domain_events t).
Definition set_fare_credentials (x : gmap Uuid FareCredentialRow.t) (t : CoreTables) : CoreTables :=
  MkCoreTables (transit_accounts t) x (reader_equipment t) (domain_events t).
Definition set_equipment_rows (x : gmap Uuid ReaderEquipmentRow.t) (t : CoreTables) : CoreTables :=
  MkCoreTables (transit_accounts t) (fare_credentials t) x (domain_events t).
Definition set_domain_events (x : list DomainEventRecord.t) (t : CoreTables) : CoreTables :=
  MkCoreTables (transit_accounts t) (fare_credentials t) (reader_equipment t) x.

(** What the migrations leave. *)
Definition empty_core_tables : CoreTables := MkCoreTables ∅ ∅ ∅ [].

Context `{!PostgresJson} `{UuidLibrary}.

Definition event_check (r : DomainEventRecord.t) : bool :=
  uuid_column (DomainEventRecord.id r)
  && uuid_column (DomainEventRecord.aggregate_id r)
  && text_in (DomainEventRecord.aggregate_kind r)
       ["transit_account"; "fare_credential"; "reader_equipment"; "fare_transaction"]
  && version_column (DomainEventRecord.aggregate_version r)
  && bigint (DomainEventRecord.occurred_at_unix_ms r)
  && (0 <=? DomainEventRecord.occurred_at_unix_ms r)
  && json_is_object (DomainEventRecord.payload r)
  && negb (bool_decide (DomainEventRecord.event_name r = []))
  && like_dotted (DomainEventRecord.aggregate_kind r) (DomainEventRecord.event_name r).

(** The primary key, and one event for each version of an aggregate. *)
Definition event_clash (x y : DomainEventRecord.t) : bool :=
  bool_decide (DomainEventRecord.id x = DomainEventRecord.id y)
  || (bool_decide (DomainEventRecord.aggregate_kind x = DomainEventRecord.aggregate_kind y)
      && bool_decide (DomainEventRecord.aggregate_id x = DomainEventRecord.aggregate_id y)
      && (DomainEventRecord.aggregate_version x =? DomainEventRecord.aggregate_version y)).

Definition stored_event (payload : Json) (r : DomainEventRecord.t) : DomainEventRecord.t :=
  DomainEventRecord.mk (DomainEventRecord.id r) (DomainEventRecord.aggregate_kind r)
    (DomainEventRecord.aggregate_id r) (DomainEventRecord.aggregate_version r)
    (DomainEventRecord.event_name r) (DomainEventRecord.occurred_at_unix_ms r) payload.

(** ** Statements *)

Inductive Statement :=
| InsertAccount (row : TransitAccountRow.t)
| UpdateAccount (row : TransitAccountRow.t) (expected : Z)
| InsertCredential (row : FareCredentialRow.t)
| UpdateCredential (row : FareCredentialRow.t) (expected : Z)
| InsertReader (row : ReaderEquipmentRow.t)
| UpdateReader (row : ReaderEquipmentRow.t) (expected : Z)
| InsertEvent (record : DomainEventRecord.t).

(** [fare_credentials_account_fk], checked at once. *)
Definition account_exists (row : FareCredentialRow.t) (t : CoreTables) : bool :=
  bool_decide (is_Some (transit_accounts t !! FareCredentialRow.transit_account_id row)).

Definition run_statement (s : Statement) (t : CoreTables) : Result SqlError (CoreTables * Z) :=
  match s with
  | InsertAccount row =>
      '(m, n) ← insert_row row (transit_accounts t); Ok (set_transit_accounts m t, n)
  | UpdateAccount row expected =>
      '(m, n) ← update_row row expected (transit_accounts t); Ok (set_transit_accounts m t, n)
  | InsertCredential row =>
      '(m, n) ← insert_row row (fare_credentials t);
      if account_exists row t then Ok (set_fare_credentials m t, n) else Err ForeignKeyViolation
  | UpdateCredential row expected =>
      '(m, n) ← update_row row expected (fare_credentials t);
      if (n =? 0) || account_exists row t then Ok (set_fare_credentials m t, n)
      else Err ForeignKeyViolation
  | InsertReader row =>
      '(m, n) ← insert_row row (reader_equipment t); Ok (set_equipment_rows m t, n)
  | UpdateReader row expected =>
      '(m, n) ← update_row row expected (reader_equipment t); Ok (set_equipment_rows m t, n)
  | InsertEvent record =>
      payload ← jsonb (DomainEventRecord.payload record);
      let row := stored_event payload record in
      if negb (event_check row) then Err CheckViolation
      else if existsb (event_clash row) (domain_events t) then Err UniqueViolation
      else Ok (set_domain_events (domain_events t ++ [row]) t, 1)
  end.

(** [fare_credentials_replacement_fk], checked when a transaction commits. *)
Definition replacements_exist (t : CoreTables) : bool :=
  forallb (fun row => nullable (fun id => bool_decide (is_Some (fare_credentials t !! id)))
                        (FareCredentialRow.replacement_id row))
    (map_to_list (fare_credentials t)).*2.

(** The statements of a transaction one after the other; each writes a row. *)
Fixpoint replay (statements : list Statement) (t : CoreTables) : option CoreTables :=
  match statements with
  | [] => Some t
  | s :: statements' =>
      match run_statement s t with
      | Ok (t', n) => if n =? 1 then replay statements' t' else None
      | Err _ => None
      end
  end.

End tables.

(** ** What the core tables hold

    A table of rows stands for a map of versioned aggregates: [decode_table].
    A statement that writes one row is the conditional save of the port's
    contract on that map ([statement_refines]), and keeps every constraint of
    the migrations ([statement_constraints]). *)

Lemma bigint_spec n : bigint n = true <-> in_i64 n.
Proof. unfold bigint, in_i64. rewrite andb_true_iff, !Z.leb_le. done. Qed.

Lemma version_column_spec n : version_column n = true <-> 0 < n <= i64_max.
Proof.
  unfold version_column. rewrite andb_true_iff, bigint_spec, Z.ltb_lt. split; int_lia.
Qed.

(** Every text that a check admits is the encoding of a value. *)
Lemma text_in_decode {A} `{TextColumn A} (texts : list string) x :
  forallb (fun text => is_ok (decode (A := A) (lit text))) texts = true ->
  text_in x texts = true -> exists a : A, x = encode a.
Proof.
  intros Hall (text & Htext & Hx)%existsb_exists. apply bool_decide_eq_true in Hx as ->.
  rewrite forallb_forall in Hall. specialize (Hall _ Htext).
  destruct (decode (A := A) (lit text)) as [a|] eqn:Ha; [|done]. exists a. by apply decode_Ok.
Qed.

Lemma nullable_text_in_decode {A} `{TextColumn A} (texts : list string) x :
  forallb (fun text => is_ok (decode (A := A) (lit text))) texts = true ->
  nullable (fun text => text_in text texts) x = true -> exists a : option A, x = encode <$> a.
Proof.
  intros Hall. destruct x as [x|]; [|by exists None]. intros [a ->]%(text_in_decode (A := A)); [|done].
  by exists (Some a).
Qed.

(** ** One table *)

Class StoredAggregate (R A : Type) (k : IdentifierKind) `{TableRow R} := {
  aggregate_key : A -> Identifier k;
  row_value : R -> option A;
  row_value_key r a : row_value r = Some a -> into_uuid (aggregate_key a) = row_key r;
  row_check_value r : row_check r = true -> is_Some (row_value r);
  row_check_version r : row_check r = true -> 0 < row_version r <= i64_max;
  row_clash_symmetric r r' : row_clash r r' = true -> row_clash r' r = true
}.

Section one_table.
Context {R A : Type} {k : IdentifierKind} {columns : TableRow R} {aggregates : StoredAggregate R A k}.
Implicit Types (m : gmap Uuid R) (r : R) (a : A).

(** The constraints of the table. *)
Record table_ok m : Prop := {
  table_keys u r : m !! u = Some r -> row_key r = u;
  table_checks u r : m !! u = Some r -> row_check r = true;
  table_unique u u' r r' :
    m !! u = Some r -> m !! u' = Some r' -> row_clash r r' = true -> u = u'
}.

Definition row_versioned r : option (Versioned A) :=
  (fun a => VersionedAggregate.new a (AggregateVersion.mk (row_version r))) <$> row_value r.

Definition decode_table m : gmap (Identifier k) (Versioned A) :=
  kmap MkIdentifier (omap row_versioned m).

#[local] Instance identifier_inj : Inj (=) (=) (@MkIdentifier k).
Proof. by intros u v [=]. Qed.

Lemma decode_table_lookup m id : decode_table m !! id = (m !! into_uuid id) ≫= row_versioned.
Proof.
  destruct id as [u]. unfold decode_table. rewrite (lookup_kmap MkIdentifier). apply lookup_omap.
Qed.

Lemma decode_table_insert m r a u :
  row_value r = Some a -> row_key r = u ->
  decode_table (<[u := r]> m)
  = <[aggregate_key a := VersionedAggregate.new a (AggregateVersion.mk (row_version r))]>
      (decode_table m).
Proof.
  intros Hv <-. apply map_eq. intros id. rewrite decode_table_lookup.
  pose proof (row_value_key _ _ Hv) as Hk. destruct (decide (id = aggregate_key a)) as [->|Hne].
  - rewrite Hk, !lookup_insert_eq. cbn. unfold row_versioned. by rewrite Hv.
  - assert (row_key r <> into_uuid id) as Hu.
    { rewrite <- Hk. intros Heq. apply Hne. destruct id as [v]. cbn in Heq. subst v.
      by destruct (aggregate_key a). }
    by rewrite !lookup_insert_ne, decode_table_lookup by done.
Qed.

Lemma unique_spec r m :
  existsb (row_clash r) (map_to_list m).*2 = false <->
  forall u r', m !! u = Some r' -> row_clash r r' = false.
Proof.
  rewrite <- not_true_iff_false, existsb_exists. split.
  - intros Hno u r' Hu. apply not_true_iff_false. intros Hc. apply Hno. exists r'. split; [|done].
    apply list_elem_of_In, list_elem_of_fmap. exists (u, r'). split; [done|].
    by apply elem_of_map_to_list.
  - intros Hall (r' & Hin & Hc). apply list_elem_of_In, list_elem_of_fmap in Hin as ([u r2] & -> & Hin).
    apply elem_of_map_to_list in Hin. cbn in Hc. by rewrite (Hall _ _ Hin) in Hc.
Qed.

Lemma table_ok_insert m r :
  table_ok m -> row_check r = true ->
  (forall u r', u <> row_key r -> m !! u = Some r' -> row_clash r r' = false) ->
  table_ok (<[row_key r := r]> m).
Proof using aggregates.
  intros Hok Hc Hno. split.
  - intros u r' [[<- <-]|[_ Hu]]%lookup_insert_Some; [done|by eapply table_keys].
  - intros u r' [[<- <-]|[_ Hu]]%lookup_insert_Some; [done|by eapply table_checks].
  - intros u u' r1 r2 [[<- <-]|[Hne Hu]]%lookup_insert_Some [[<- <-]|[Hne' Hu']]%lookup_insert_Some
      Hclash; [done| | |by eapply table_unique].
    + by rewrite (Hno u' r2) in Hclash.
    + apply row_clash_symmetric in Hclash. by rewrite (Hno u r1) in Hclash.
Qed.

Lemma insert_row_Ok r m m' n :
  insert_row r m = Ok (m', n) ->
  m' = <[row_key r := r]> m /\ n = 1 /\ m !! row_key r = None /\ row_check r = true
  /\ forall u r', m !! u = Some r' -> row_clash r r' = false.
Proof.
  unfold insert_row. destruct (row_check r) eqn:Hc; [cbn|done].
  destruct (bool_decide _ || _) eqn:Hor; [done|]. apply orb_false_iff in Hor as [Hno Hu].
  apply bool_decide_eq_false, eq_None_not_Some in Hno. intros [= <- <-].
  split_and!; [done..|]. by apply unique_spec.
Qed.

Lemma update_row_Ok r expected m m' n :
  update_row r expected m = Ok (m', n) ->
  (n = 0 /\ m' = m)
  \/ (n = 1 /\ m' = <[row_key r := r]> m /\ row_check r = true
      /\ (exists stored, m !! row_key r = Some stored /\ row_version stored = expected)
      /\ forall u r', u <> row_key r -> m !! u = Some r' -> row_clash r r' = false).
Proof.
  unfold update_row. destruct (m !! row_key r) as [stored|] eqn:Hm; [|intros [= <- <-]; by left].
  destruct (Z.eqb_spec (row_version stored) expected) as [Hv|_]; [|intros [= <- <-]; by left].
  destruct (row_check r) eqn:Hc; [cbn|done]. destruct (existsb _ _) eqn:Hu; [done|].
  intros [= <- <-]. right. split_and!; [done..|by exists stored|]. rewrite unique_spec in Hu.
  intros u r' Hne Hr'. apply (Hu u). by rewrite lookup_delete_ne by congruence.
Qed.

Lemma insert_row_ok r m m' n : table_ok m -> insert_row r m = Ok (m', n) -> table_ok m'.
Proof using aggregates.
  intros Hok (-> & _ & _ & Hc & Hu)%insert_row_Ok. apply table_ok_insert; [done..|]. eauto.
Qed.

Lemma update_row_ok r expected m m' n :
  table_ok m -> update_row r expected m = Ok (m', n) -> table_ok m'.
Proof using aggregates.
  intros Hok [(_ & ->)|(_ & -> & Hc & _ & Hu)]%update_row_Ok; [done|]. by apply table_ok_insert.
Qed.

(** An insertion of version one is a save that requires absence. *)
Lemma insert_row_save r a m m' n :
  insert_row r m = Ok (m', n) -> row_value r = Some a -> row_version r = 1 ->
  apply_save (aggregate_key a) a SaveCondition.MustNotExist (decode_table m)
  = Some (decode_table m').
Proof.
  intros (-> & _ & Hno & _)%insert_row_Ok Hv H1. unfold apply_save.
  rewrite decode_table_lookup, (row_value_key _ _ Hv), Hno. cbn.
  by rewrite (decode_table_insert _ _ _ _ Hv eq_refl), H1.
Qed.

(** An update of one row to the next version is a save that requires the
    expected version. *)
Lemma update_row_save r a expected m m' :
  table_ok m -> update_row r expected m = Ok (m', 1) -> row_value r = Some a ->
  row_version r = expected + 1 ->
  apply_save (aggregate_key a) a (SaveCondition.IfVersion (AggregateVersion.mk expected))
    (decode_table m) = Some (decode_table m').
Proof.
  intros Hok [(? & _)|(_ & -> & Hc & (stored & Hs & Hv) & _)]%update_row_Ok Ha Hr; [done|].
  unfold apply_save. rewrite decode_table_lookup, (row_value_key _ _ Ha), Hs. cbn.
  destruct (row_check_value stored) as [b Hb]; [by eapply table_checks|].
  unfold row_versioned at 1. rewrite Hb. cbn. rewrite decide_True by (by rewrite Hv).
  assert (VersionedAggregate.next_version
            (VersionedAggregate.new b (AggregateVersion.mk (row_version stored)))
          = Some (AggregateVersion.mk (expected + 1))) as ->.
  { apply VersionedAggregate_next. cbn. rewrite Hv.
    pose proof (row_check_version _ Hc). pose proof (row_check_version stored).
    assert (row_check stored = true) by (by eapply table_checks). split_and!; [done|int_lia|int_lia]. }
  cbn. by rewrite (decode_table_insert _ _ _ _ Ha eq_refl), Hr.
Qed.

End one_table.
