(* ===== verification/PersistenceRowLogic.v ===== *)
(** * Rows stand for domain values

    [account_value], [credential_value] and [reader_value] read a row without
    judging it.  A row that passes the checks of its table is the encoding of
    the value it stands for; [into_versioned] gives that value back, and fails
    only on an identifier that is not a random UUID of version 7. *)

From S2P Require Import Prelude Text DomainMoney DomainIdentifier DomainAccount DomainCredential.
From S2P Require Import DomainEquipment DomainEvents DeviceProtocolValues ApplicationPorts.
From S2P Require Import PersistenceSql PersistenceColumns PersistenceCodec.
From S2P Require Import PersistenceRows PersistenceCoreTables.

Definition account_value (r : TransitAccountRow.t) : option TransitAccount.t :=
  status ← result_ok (PostgresValueCodec.decode_account_status (TransitAccountRow.status r));
  eligibility ← result_ok (PostgresValueCodec.decode_eligibility (TransitAccountRow.eligibility r));
  currency ← result_ok (PostgresValueCodec.decode_currency
                          (TransitAccountRow.stored_value_currency r));
  Some (TransitAccount.mk (MkIdentifier (TransitAccountRow.id r))
          (MkIdentifier (TransitAccountRow.rider_id r)) status eligibility
          (StoredValueBalance.mk
             (Money.from_minor_units (TransitAccountRow.stored_value_minor_units r) currency))).

Definition credential_value (r : FareCredentialRow.t) : option FareCredential.t :=
  kind ← result_ok (PostgresValueCodec.decode_credential_kind (FareCredentialRow.kind r));
  status ← result_ok (PostgresValueCodec.decode_credential_status (FareCredentialRow.status r));
  reason ← result_ok (decode_option PostgresValueCodec.decode_credential_revocation_reason
                        (FareCredentialRow.revocation_reason r));
  Some (FareCredential.mk (MkIdentifier (FareCredentialRow.id r))
          (MkIdentifier (FareCredentialRow.transit_account_id r)) kind status reason
          (MkIdentifier <$> FareCredentialRow.replacement_id r)).

Definition reader_value (r : ReaderEquipmentRow.t) : option ReaderEquipment.t :=
  status ← result_ok (PostgresValueCodec.decode_reader_status (ReaderEquipmentRow.status r));
  disablement ← result_ok (decode_option PostgresValueCodec.decode_reader_disablement_reason
                             (ReaderEquipmentRow.disablement_reason r));
  revocation ← result_ok (decode_option PostgresValueCodec.decode_reader_revocation_reason
                            (ReaderEquipmentRow.revocation_reason r));
  let id := MkIdentifier (ReaderEquipmentRow.id r) in
  Some (ReaderEquipment.mk id
          (EquipmentIdentity.new id (MkIdentifier (ReaderEquipmentRow.equipment_key_id r)))
          status disablement revocation).

(** ** Writing, then reading *)

Lemma account_value_from_domain account n :
  account_value (TransitAccountRow.from_domain account n) = Some account.
Proof.
  destruct account as [[i] [r] status eligibility [[units currency]]].
  unfold account_value. cbn. by destruct status, eligibility, currency.
Qed.

Lemma credential_value_from_domain credential n :
  credential_value (FareCredentialRow.from_domain credential n) = Some credential.
Proof.
  destruct credential as [[i] [a] kind status reason replacement].
  unfold credential_value. cbn -[decode_option]. autorewrite with codec.
  destruct kind, status; cbn; repeat f_equal; by destruct replacement as [[]|].
Qed.

Lemma reader_value_from_domain reader n :
  EquipmentIdentity.reader_id (ReaderEquipment.identity reader) = ReaderEquipment.id reader ->
  reader_value (ReaderEquipmentRow.from_domain reader n) = Some reader.
Proof.
  destruct reader as [[i] [[i'] [key]] status disablement revocation]. cbn. intros [= <-].
  unfold reader_value. cbn -[decode_option].
  autorewrite with codec. by destruct status.
Qed.

(** ** A row that passes the checks *)

Section checked.
Context `{UuidLibrary}.

Lemma account_checked r :
  account_check r = true ->
  exists account, r = TransitAccountRow.from_domain account (TransitAccountRow.aggregate_version r)
    /\ account_wf account
    /\ uuid_column (TransitAccountRow.id r) = true /\ uuid_column (TransitAccountRow.rider_id r) = true
    /\ 0 < TransitAccountRow.aggregate_version r <= i64_max.
Proof.
  destruct r as [i rider status eligibility units currency n]. unfold account_check. cbn -[lit text_in version_column bigint uuid_column nullable is_not_null is_null orb andb].
  rewrite !andb_true_iff, Z.leb_le, version_column_spec.
  intros [[[[[[[Hi Hrider] Hs] He] Hbig%bigint_spec] Hunits] Hc] Hn].
  apply (text_in_decode (A := TransitAccountStatus.t)) in Hs as [s ->]; [|done].
  apply (text_in_decode (A := EligibilityClassification.t)) in He as [e ->]; [|done].
  apply (text_in_decode (A := Currency.t)) in Hc as [c ->]; [|done].
  by exists (TransitAccount.mk (MkIdentifier i) (MkIdentifier rider) s e
            (StoredValueBalance.mk (Money.from_minor_units units c))).
Qed.

Lemma credential_checked r :
  credential_check r = true ->
  exists credential,
    r = FareCredentialRow.from_domain credential (FareCredentialRow.aggregate_version r)
    /\ credential_wf credential
    /\ uuid_column (FareCredentialRow.id r) = true
    /\ 0 < FareCredentialRow.aggregate_version r <= i64_max.
Proof.
  destruct r as [i account kind status reason replacement n]. unfold credential_check. cbn -[lit text_in version_column bigint uuid_column nullable is_not_null is_null orb andb].
  rewrite !andb_true_iff, version_column_spec.
  intros [[[[[[[Hi Hk] Hs] Hr] Hrevoked] Hreplaced] Hself] Hn].
  apply (text_in_decode (A := FareCredentialKind.t)) in Hk as [k ->]; [|done].
  apply (text_in_decode (A := FareCredentialStatus.t)) in Hs as [s ->]; [|done].
  apply (nullable_text_in_decode (A := RevocationReason.t)) in Hr as [x ->]; [|done].
  exists (FareCredential.mk (MkIdentifier i) (MkIdentifier account) k s x (MkIdentifier <$> replacement)).
  split_and!; [|split; cbn|done|apply Hn..].
  - unfold FareCredentialRow.from_domain. cbn. f_equal. by destruct replacement.
  - destruct s, x; vm_compute in Hrevoked; split; try done; by intros [? [=]].
  - destruct s, replacement; vm_compute in Hreplaced; split; try done; by intros [? [=]].
  - destruct replacement as [u|]; [|done]. cbn in Hself |- *. intros [= ->].
    by rewrite bool_decide_true in Hself.
Qed.

Lemma reader_checked r :
  reader_check r = true ->
  exists reader, r = ReaderEquipmentRow.from_domain reader (ReaderEquipmentRow.aggregate_version r)
    /\ equipment_wf reader
    /\ uuid_column (ReaderEquipmentRow.id r) = true
    /\ uuid_column (ReaderEquipmentRow.equipment_key_id r) = true
    /\ 0 < ReaderEquipmentRow.aggregate_version r <= i64_max.
Proof.
  destruct r as [i key status disablement revocation n]. unfold reader_check. cbn -[lit text_in version_column bigint uuid_column nullable is_not_null is_null orb andb].
  rewrite !andb_true_iff, version_column_spec.
  intros [[[[[[Hi Hk] Hs] Hd] Hr] Hstate] Hn].
  apply (text_in_decode (A := ReaderEquipmentStatus.t)) in Hs as [s ->]; [|done].
  apply (nullable_text_in_decode (A := ReaderDisablementReason.t)) in Hd as [d ->]; [|done].
  apply (nullable_text_in_decode (A := ReaderRevocationReason.t)) in Hr as [x ->]; [|done].
  exists (ReaderEquipment.mk (MkIdentifier i) (EquipmentIdentity.new (MkIdentifier i) (MkIdentifier key))
            s d x).
  split_and!; [done| |done|done|apply Hn..]. split; cbn; [done| |];
    destruct s, d, x; vm_compute in Hstate; split; try done; by intros [? [=]].
Qed.

End checked.

(** ** Reading *)

Section reading.
Context `{UuidLibrary}.

Lemma try_from_uuid_Ok k u id : try_from_uuid k u = Ok id -> id = MkIdentifier u.
Proof. by intros [-> _]%validate_identifier_Ok. Qed.

Lemma try_from_uuid_wf {k} (id : Identifier k) :
  identifier_wf id -> try_from_uuid k (into_uuid id) = Ok id.
Proof. intros Hid. apply validate_identifier_Ok. split; [by destruct id|done]. Qed.

Lemma decode_version_mk n :
  0 < n <= i64_max -> PostgresValueCodec.decode_aggregate_version n = Ok (AggregateVersion.mk n).
Proof. intros Hn. by apply decode_version_Ok. Qed.

Lemma trim_currency c :
  trim (PostgresValueCodec.encode_currency c) = PostgresValueCodec.encode_currency c.
Proof. by destruct c. Qed.

(** Reading an account back: only an identifier can be refused. *)
Lemma account_into_versioned account n :
  0 <= account_units account -> 0 < n <= i64_max ->
  TransitAccountRow.into_versioned (TransitAccountRow.from_domain account n)
  = (_ ← map_err (fun _ => invalid "transit_accounts.id")
           (try_from_uuid KTransitAccountId (into_uuid (TransitAccount.id account)));
     _ ← map_err (fun _ => invalid "transit_accounts.rider_id")
           (try_from_uuid KRiderId (into_uuid (TransitAccount.rider_id account)));
     Ok (VersionedAggregate.new account (AggregateVersion.mk n))).
Proof.
  intros Hunits Hn. destruct account as [i rider status eligibility [[units currency]]].
  assert (StoredValueBalance.new (Money.from_minor_units units currency)
          = Ok (StoredValueBalance.mk (Money.from_minor_units units currency))) as Hnew
    by (by apply StoredValueBalance_new_Ok).
  unfold TransitAccountRow.into_versioned, TransitAccountRow.from_domain.
  cbn -[PostgresValueCodec.decode_aggregate_version mbind PostgresValueCodec.decode_account_status
        PostgresValueCodec.decode_eligibility PostgresValueCodec.decode_currency trim
        StoredValueBalance.new].
  rewrite (trim_currency currency). autorewrite with codec.
  destruct (try_from_uuid KTransitAccountId (into_uuid i)) as [i'|] eqn:Hi; [|done].
  apply try_from_uuid_Ok in Hi as ->. cbn [map_err mbind Result_bind].
  destruct (try_from_uuid KRiderId (into_uuid rider)) as [rider'|] eqn:Hr; [|done].
  apply try_from_uuid_Ok in Hr as ->. cbn [map_err mbind Result_bind].
  destruct i as [i], rider as [rider]. unfold TransitAccount.new. rewrite Hnew.
  cbn [map_err mbind Result_bind into_uuid]. rewrite (decode_version_mk n Hn).
  by destruct status.
Qed.

Definition replacement_read (replacement : option FareCredentialId)
  : Result PersistenceError.t (option FareCredentialId) :=
  decode_option (fun value => map_err (fun _ => invalid "fare_credentials.replacement_id")
                                (try_from_uuid KFareCredentialId value)) (into_uuid <$> replacement).

Lemma replacement_read_Ok replacement x : replacement_read replacement = Ok x -> x = replacement.
Proof.
  unfold replacement_read. destruct replacement as [[u]|]; cbn; [|by intros [= <-]].
  destruct (try_from_uuid _ u) as [id|] eqn:Hu; cbn; [|done]. intros [= <-].
  by apply try_from_uuid_Ok in Hu as ->.
Qed.

(** The stored lifecycle is restored through the methods of the aggregate. *)
Lemma credential_restore i a k s reason replacement :
  credential_wf (FareCredential.mk i a k s reason replacement) ->
  FareCredentialRow.validate_lifecycle_fields s reason replacement = Ok tt
  /\ FareCredentialRow.restore s reason replacement (FareCredential.new_pending i a k)
     = Ok (FareCredential.mk i a k s reason replacement).
Proof.
  intros [Hrevoked Hreplaced Hself]. cbn in *.
  assert (s <> FareCredentialStatus.Revoked -> reason = None) as Hr.
  { intros Hs. destruct reason; [|done]. destruct Hs. by apply Hrevoked. }
  assert (s <> FareCredentialStatus.Replaced -> replacement = None) as Hp.
  { intros Hs. destruct replacement; [|done]. destruct Hs. by apply Hreplaced. }
  destruct s; try (rewrite Hr by done); try (rewrite Hp by done); try done.
  - destruct (proj1 Hrevoked eq_refl) as [x ->]. done.
  - destruct (proj1 Hreplaced eq_refl) as [x ->]. split; [done|].
    unfold FareCredentialRow.restore, updated, FareCredential.replace_with, FareCredential.activate.
    mut_simpl. rewrite decide_False by congruence. done.
Qed.

Lemma credential_into_versioned credential n :
  credential_wf credential -> 0 < n <= i64_max ->
  FareCredentialRow.into_versioned (FareCredentialRow.from_domain credential n)
  = (_ ← map_err (fun _ => invalid "fare_credentials.id")
           (try_from_uuid KFareCredentialId (into_uuid (FareCredential.id credential)));
     _ ← map_err (fun _ => invalid "fare_credentials.transit_account_id")
           (try_from_uuid KTransitAccountId (into_uuid (FareCredential.transit_account_id credential)));
     _ ← replacement_read (FareCredential.replacement_id credential);
     Ok (VersionedAggregate.new credential (AggregateVersion.mk n))).
Proof.
  intros Hwf Hn. destruct credential as [i a k s reason replacement].
  unfold FareCredentialRow.into_versioned, FareCredentialRow.from_domain.
  cbn -[PostgresValueCodec.decode_aggregate_version decode_option mbind FareCredentialRow.restore
        PostgresValueCodec.decode_credential_kind PostgresValueCodec.decode_credential_status
        FareCredentialRow.validate_lifecycle_fields fmap].
  fold (replacement_read replacement).
  autorewrite with codec.
  destruct (try_from_uuid KFareCredentialId (into_uuid i)) as [i'|] eqn:Hi; [|done].
  apply try_from_uuid_Ok in Hi as ->. cbn [map_err mbind Result_bind].
  destruct (try_from_uuid KTransitAccountId (into_uuid a)) as [a'|] eqn:Ha; [|done].
  apply try_from_uuid_Ok in Ha as ->. cbn [map_err mbind Result_bind].
  destruct (replacement_read replacement) as [x|] eqn:Hx; [|done].
  apply replacement_read_Ok in Hx as ->. cbn [mbind Result_bind].
  destruct i as [i], a as [a]. destruct (credential_restore _ _ _ _ _ _ Hwf) as [-> Hrestore].
  cbn [mbind Result_bind into_uuid]. rewrite Hrestore, (decode_version_mk n Hn). done.
Qed.

Lemma equipment_restore i key s disablement revocation :
  equipment_wf (ReaderEquipment.mk i (EquipmentIdentity.new i key) s disablement revocation) ->
  ReaderEquipmentRow.validate_lifecycle_fields s disablement revocation = Ok tt
  /\ ReaderEquipmentRow.restore s disablement revocation (ReaderEquipment.new_pending i key)
     = Ok (ReaderEquipment.mk i (EquipmentIdentity.new i key) s disablement revocation).
Proof.
  intros [_ Hdisabled Hrevoked]. cbn in *.
  assert (s <> ReaderEquipmentStatus.Disabled -> disablement = None) as Hd.
  { intros Hs. destruct disablement; [|done]. destruct Hs. by apply Hdisabled. }
  assert (s <> ReaderEquipmentStatus.Revoked -> revocation = None) as Hr.
  { intros Hs. destruct revocation; [|done]. destruct Hs. by apply Hrevoked. }
  destruct s; try (rewrite Hd by done); try (rewrite Hr by done); try done.
  - by destruct (proj1 Hdisabled eq_refl) as [x ->].
  - by destruct (proj1 Hrevoked eq_refl) as [x ->].
Qed.

Lemma reader_into_versioned reader n :
  equipment_wf reader -> 0 < n <= i64_max ->
  ReaderEquipmentRow.into_versioned (ReaderEquipmentRow.from_domain reader n)
  = (_ ← map_err (fun _ => invalid "reader_equipment.id")
           (try_from_uuid KReaderId (into_uuid (ReaderEquipment.id reader)));
     _ ← map_err (fun _ => invalid "reader_equipment.equipment_key_id")
           (try_from_uuid KEquipmentKeyId
              (into_uuid (EquipmentIdentity.key_id (ReaderEquipment.identity reader))));
     Ok (VersionedAggregate.new reader (AggregateVersion.mk n))).
Proof.
  intros Hwf Hn. destruct reader as [i [i' key] s disablement revocation].
  pose proof (equipment_identity_reader _ Hwf) as Hid. cbn in Hid. subst i'.
  unfold ReaderEquipmentRow.into_versioned, ReaderEquipmentRow.from_domain.
  cbn -[PostgresValueCodec.decode_aggregate_version decode_option mbind ReaderEquipmentRow.restore
        PostgresValueCodec.decode_reader_status ReaderEquipmentRow.validate_lifecycle_fields fmap].
  autorewrite with codec.
  destruct (try_from_uuid KReaderId (into_uuid i)) as [i'|] eqn:Hi; [|done].
  apply try_from_uuid_Ok in Hi as ->. cbn [map_err mbind Result_bind].
  destruct (try_from_uuid KEquipmentKeyId (into_uuid key)) as [key'|] eqn:Hk; [|done].
  apply try_from_uuid_Ok in Hk as ->. cbn [map_err mbind Result_bind].
  destruct i as [i], key as [key]. destruct (equipment_restore _ _ _ _ _ Hwf) as [-> Hrestore].
  cbn [mbind Result_bind into_uuid]. rewrite Hrestore, (decode_version_mk n Hn). done.
Qed.

End reading.
