(* ===== verification/PersistenceCoreStore.v ===== *)
(** * The core tables as a store

    The abstraction [decode_core] from the four tables to the [Store] of the
    application's contract; a statement that the repositories send is a write
    of that contract; the constraints of the migrations are an invariant. *)

From S2P Require Import Prelude Text DomainMoney DomainIdentifier DomainAccount DomainCredential.
From S2P Require Import DomainEquipment DomainEvents DeviceProtocolValues ApplicationPorts.
From S2P Require Import PersistenceSql PersistenceColumns PersistenceCodec.
From S2P Require Import PersistenceRows PersistenceCoreTables.
From S2P Require Import PersistenceRowLogic.

(** ** The three aggregates *)

Section aggregates.
Context `{UuidLibrary}.

#[global] Program Instance stored_account :
  StoredAggregate TransitAccountRow.t TransitAccount.t KTransitAccountId := {|
  aggregate_key := TransitAccount.id;
  row_value := account_value
|}.
Next Obligation.
  intros r a. unfold account_value. intros Ha. repeat (case_match || simplify_option_eq); done.
Qed.
Next Obligation.
  intros r (a & -> & _)%account_checked. rewrite account_value_from_domain. by eexists.
Qed.
Next Obligation. intros r (a & _ & _ & _ & _ & Hn)%account_checked. exact Hn. Qed.
Next Obligation. intros r r'. cbn. rewrite !bool_decide_eq_true. done. Qed.

#[global] Program Instance stored_credential :
  StoredAggregate FareCredentialRow.t FareCredential.t KFareCredentialId := {|
  aggregate_key := FareCredential.id;
  row_value := credential_value
|}.
Next Obligation.
  intros r a. unfold credential_value. intros Ha. repeat (case_match || simplify_option_eq); done.
Qed.
Next Obligation.
  intros r (a & -> & _)%credential_checked. rewrite credential_value_from_domain. by eexists.
Qed.
Next Obligation. intros r (a & _ & _ & _ & Hn)%credential_checked. exact Hn. Qed.
Next Obligation.
  intros r r'. cbn. unfold is_not_null. rewrite !andb_true_iff, !bool_decide_eq_true.
  intros [Hs Heq]. by rewrite <- Heq.
Qed.

#[global] Program Instance stored_reader :
  StoredAggregate ReaderEquipmentRow.t ReaderEquipment.t KReaderId := {|
  aggregate_key := ReaderEquipment.id;
  row_value := reader_value
|}.
Next Obligation.
  intros r a. unfold reader_value. intros Ha. repeat (case_match || simplify_option_eq); done.
Qed.
Next Obligation.
  intros r (a & -> & Hwf & _)%reader_checked.
  rewrite reader_value_from_domain by apply equipment_identity_reader, Hwf. by eexists.
Qed.
Next Obligation. intros r (a & _ & _ & _ & _ & Hn)%reader_checked. exact Hn. Qed.
Next Obligation. intros r r'. cbn. rewrite !bool_decide_eq_true. done. Qed.

End aggregates.

(** ** Events *)

(** What PostgreSQL stores of a payload, [serde] reads back. *)
Class EventJsonLaws `{JsonLibrary} `{!EventJson} `{!PostgresJson} : Prop := {
  payload_reads_back p v v' :
    payload_to_value p = Ok v -> jsonb v = Ok v' -> payload_from_value v' = Some p
}.

Section store.
Context `{JsonLibrary} `{!EventJson} `{!PostgresJson} `{UuidLibrary}.

Definition event_value (r : DomainEventRecord.t) : option DomainEvent.t :=
  let id {k} : Identifier k := MkIdentifier (DomainEventRecord.aggregate_id r) in
  payload ← payload_from_value (DomainEventRecord.payload r);
  aggregate ← result_ok (match_text (DomainEventRecord.aggregate_kind r)
    [("transit_account"%string, DomainAggregateId.TransitAccount id);
     ("fare_credential"%string, DomainAggregateId.FareCredential id);
     ("reader_equipment"%string, DomainAggregateId.ReaderEquipment id);
     ("fare_transaction"%string, DomainAggregateId.FareTransaction id)]
    (invalid "domain_events.aggregate_kind"));
  Some (DomainEvent.mk (MkIdentifier (DomainEventRecord.id r)) aggregate
          (AggregateVersion.mk (DomainEventRecord.aggregate_version r))
          (DomainEventTime.mk (DomainEventRecord.occurred_at_unix_ms r)) payload).

Definition decode_core (t : CoreTables) : Store.t :=
  Store.mk (decode_table (transit_accounts t)) (decode_table (fare_credentials t))
    (decode_table (reader_equipment t)) (omap event_value (domain_events t)).

(** The save that a row of the next version stands for. *)
Definition save_of {R A k} `{StoredAggregate R A k} (save : A -> SaveCondition.t -> Write)
    (row : R) (expected : option Z) : option Write :=
  match expected with
  | None =>
      if row_version row =? 1 then (fun a => save a SaveCondition.MustNotExist) <$> row_value row
      else None
  | Some n =>
      if row_version row =? n + 1 then
        (fun a => save a (SaveCondition.IfVersion (AggregateVersion.mk n))) <$> row_value row
      else None
  end.

(** The write that a statement performs. *)
Definition statement_write (s : Statement) : option Write :=
  match s with
  | InsertAccount row => save_of SaveAccount row None
  | UpdateAccount row expected => save_of SaveAccount row (Some expected)
  | InsertCredential row => save_of SaveCredential row None
  | UpdateCredential row expected => save_of SaveCredential row (Some expected)
  | InsertReader row => save_of SaveReader row None
  | UpdateReader row expected => save_of SaveReader row (Some expected)
  | InsertEvent record =>
      payload ← result_ok (jsonb (DomainEventRecord.payload record));
      AppendEvent <$> event_value (stored_event payload record)
  end.

(** The constraints that hold after every statement. *)
Record core_ok (t : CoreTables) : Prop := {
  core_accounts : table_ok (transit_accounts t);
  core_credentials : table_ok (fare_credentials t);
  core_readers : table_ok (reader_equipment t);
  core_account_fk u r : fare_credentials t !! u = Some r ->
    is_Some (transit_accounts t !! FareCredentialRow.transit_account_id r);
  core_events r : r ∈ domain_events t -> event_check r = true;
  core_event_unique i j r r' : domain_events t !! i = Some r -> domain_events t !! j = Some r' ->
    event_clash r r' = true -> i = j
}.

Lemma event_clash_symmetric r r' : event_clash r r' = event_clash r' r.
Proof.
  apply Bool.eq_iff_eq_true. unfold event_clash.
  rewrite !orb_true_iff, !andb_true_iff, !bool_decide_eq_true, !Z.eqb_eq. naive_solver.
Qed.

Lemma existsb_false {A} (p : A -> bool) l : existsb p l = false <-> forall x, x ∈ l -> p x = false.
Proof.
  rewrite <- not_true_iff_false, existsb_exists. split.
  - intros Hno x Hx. apply not_true_iff_false. intros Hp. apply Hno. exists x.
    by rewrite <- list_elem_of_In.
  - intros Hall (x & Hx%list_elem_of_In & Hp). by rewrite Hall in Hp.
Qed.

(** *** Each table on its own *)

Lemma core_set_accounts m t :
  core_ok t -> table_ok m ->
  (forall u, is_Some (transit_accounts t !! u) -> is_Some (m !! u)) ->
  core_ok (set_transit_accounts m t).
Proof. intros [Ha Hc Hr Hfk He Hu] Hm Hdom. split; cbn; eauto. Qed.

Lemma core_set_credentials m t :
  core_ok t -> table_ok m ->
  (forall u r, m !! u = Some r ->
     fare_credentials t !! u = Some r
     \/ is_Some (transit_accounts t !! FareCredentialRow.transit_account_id r)) ->
  core_ok (set_fare_credentials m t).
Proof.
  intros [Ha Hc Hr Hfk He Hu] Hm Hnew. split; cbn; eauto. intros u r Hur.
  destruct (Hnew u r Hur); eauto.
Qed.

Lemma core_set_readers m t : core_ok t -> table_ok m -> core_ok (set_equipment_rows m t).
Proof. intros [Ha Hc Hr Hfk He Hu] Hm. by split. Qed.

Lemma core_append_event r t :
  core_ok t -> event_check r = true -> existsb (event_clash r) (domain_events t) = false ->
  core_ok (set_domain_events (domain_events t ++ [r]) t).
Proof.
  intros [Ha Hc Hr Hfk He Hu] Hx Hno. rewrite existsb_false in Hno. split; cbn; eauto.
  - intros r' [Hin|Hin%list_elem_of_singleton]%elem_of_app; [by apply He|by subst].
  - assert (forall i r', domain_events t !! i = Some r' -> event_clash r r' = false) as Hclash
      by (intros i r' Hi; by eapply Hno, list_elem_of_lookup_2).
    intros i j x y [Hi|[-> <-]]%lookup_snoc_Some' [Hj|[-> <-]]%lookup_snoc_Some' Hxy; eauto.
    + by rewrite event_clash_symmetric, (Hclash _ _ Hi) in Hxy.
    + by rewrite (Hclash _ _ Hj) in Hxy.
Qed.

Lemma statement_constraints s t t' n :
  core_ok t -> run_statement s t = Ok (t', n) -> core_ok t'.
Proof.
  intros Hok Hrun. destruct s as [row|row e|row|row e|row|row e|record]; cbn in Hrun.
  - destruct (insert_row row _) as [[m k]|] eqn:Hi; [|done]. cbn in Hrun. injection Hrun as <- <-.
    apply core_set_accounts; [done|by eapply insert_row_ok, Hi; apply Hok|].
    apply insert_row_Ok in Hi as (-> & _). intros u Hu. apply lookup_insert_is_Some'. by right.
  - destruct (update_row row e _) as [[m k]|] eqn:Hi; [|done]. cbn in Hrun. injection Hrun as <- <-.
    apply core_set_accounts; [done|by eapply update_row_ok, Hi; apply Hok|].
    apply update_row_Ok in Hi as [(_ & ->)|(_ & -> & _)]; [done|]. intros u Hu.
    apply lookup_insert_is_Some'. by right.
  - destruct (insert_row row _) as [[m k]|] eqn:Hi; [|done]. cbn in Hrun.
    destruct (account_exists row t) eqn:Hx; [|done]. injection Hrun as <- <-.
    apply core_set_credentials; [done|by eapply insert_row_ok, Hi; apply Hok|].
    apply insert_row_Ok in Hi as (-> & _). apply bool_decide_eq_true in Hx.
    intros u r [[_ <-]|[_ Hur]]%lookup_insert_Some; auto.
  - destruct (update_row row e _) as [[m k]|] eqn:Hi; [|done]. cbn in Hrun.
    destruct (_ || _) eqn:Hor; [|done]. injection Hrun as <- <-.
    apply core_set_credentials; [done|by eapply update_row_ok, Hi; apply Hok|].
    apply update_row_Ok in Hi as [(_ & ->)|(-> & -> & _)]; [by auto|].
    apply bool_decide_eq_true in Hor. intros u r [[_ <-]|[_ Hur]]%lookup_insert_Some; auto.
  - destruct (insert_row row _) as [[m k]|] eqn:Hi; [|done]. cbn in Hrun. injection Hrun as <- <-.
    apply core_set_readers; [done|by eapply insert_row_ok, Hi; apply Hok].
  - destruct (update_row row e _) as [[m k]|] eqn:Hi; [|done]. cbn in Hrun. injection Hrun as <- <-.
    apply core_set_readers; [done|by eapply update_row_ok, Hi; apply Hok].
  - destruct (jsonb _) as [v|]; [|done]. cbn in Hrun.
    destruct (event_check _) eqn:Hx; [|done]. destruct (existsb _ _) eqn:Hno; [done|].
    injection Hrun as <- <-. by apply core_append_event.
Qed.

(** ** A statement that writes one row is a write of the contract *)

Lemma save_of_Some {R A k} `{StoredAggregate R A k} (save : A -> SaveCondition.t -> Write)
    (row : R) expected w :
  save_of save row expected = Some w ->
  exists a, row_value row = Some a
    /\ match expected with
       | None => row_version row = 1 /\ w = save a SaveCondition.MustNotExist
       | Some n => row_version row = n + 1
                   /\ w = save a (SaveCondition.IfVersion (AggregateVersion.mk n))
       end.
Proof.
  unfold save_of. destruct expected as [n|];
    [destruct (Z.eqb_spec (row_version row) (n + 1)) as [Hv|]
    |destruct (Z.eqb_spec (row_version row) 1) as [Hv|]]; try done;
    destruct (row_value row) as [a|]; try done; intros [= <-]; by exists a.
Qed.

Ltac saved lemma :=
  let Hsave := fresh in
  pose proof lemma as Hsave; cbn [aggregate_key stored_account stored_credential stored_reader] in Hsave;
  rewrite Hsave; reflexivity.

Lemma statement_refines s w t t' :
  core_ok t -> statement_write s = Some w -> run_statement s t = Ok (t', 1) ->
  apply_write (decode_core t) w = Some (decode_core t').
Proof.
  intros [Ha Hc Hr _ _ _] Hw Hrun.
  destruct s as [row|row e|row|row e|row|row e|record]; cbn in Hrun;
    cbn -[save_of] in Hw.
  1-6: apply save_of_Some in Hw as (a & Hv & Hver & ->);
    cbn [apply_write decode_core Store.accounts Store.credentials Store.readers Store.events].
  - destruct (insert_row row _) as [[m k]|] eqn:Hi; [|done]. cbn in Hrun. injection Hrun as <- ->.
    saved (insert_row_save _ _ _ _ _ Hi Hv Hver).
  - destruct (update_row row e _) as [[m k]|] eqn:Hi; [|done]. cbn in Hrun. injection Hrun as <- ->.
    saved (update_row_save _ _ _ _ _ Ha Hi Hv Hver).
  - destruct (insert_row row _) as [[m k]|] eqn:Hi; [|done]. cbn in Hrun.
    destruct (account_exists row t); [|done]. injection Hrun as <- ->.
    saved (insert_row_save _ _ _ _ _ Hi Hv Hver).
  - destruct (update_row row e _) as [[m k]|] eqn:Hi; [|done]. cbn in Hrun.
    destruct (_ || _); [|done]. injection Hrun as <- ->.
    saved (update_row_save _ _ _ _ _ Hc Hi Hv Hver).
  - destruct (insert_row row _) as [[m k]|] eqn:Hi; [|done]. cbn in Hrun. injection Hrun as <- ->.
    saved (insert_row_save _ _ _ _ _ Hi Hv Hver).
  - destruct (update_row row e _) as [[m k]|] eqn:Hi; [|done]. cbn in Hrun. injection Hrun as <- ->.
    saved (update_row_save _ _ _ _ _ Hr Hi Hv Hver).
  - destruct (jsonb _) as [v|]; [|done]. cbn in Hrun, Hw.
    destruct (event_value (stored_event v record)) as [e|] eqn:He; [|done]. cbn in Hw.
    injection Hw as <-. destruct (negb _); [done|]. destruct (existsb _ _); [done|].
    injection Hrun as <-. cbn. unfold decode_core. cbn. rewrite omap_app. cbn. by rewrite He.
Qed.

(** *** Logs *)

Definition log_ok (statements : list Statement) : Prop :=
  Forall (fun s => is_Some (statement_write s)) statements.

Lemma replay_constraints statements t t' :
  core_ok t -> replay statements t = Some t' -> core_ok t'.
Proof.
  revert t. induction statements as [|s statements IH]; intros t Hok; cbn; [by intros [= <-]|].
  destruct (run_statement s t) as [[t1 n]|] eqn:Hs; [|done].
  destruct (n =? 1); [|done]. apply IH. by eapply statement_constraints.
Qed.

Lemma replay_refines statements t t' :
  core_ok t -> log_ok statements -> replay statements t = Some t' ->
  apply_writes (omap statement_write statements) (decode_core t) = Some (decode_core t').
Proof.
  intros Hok Hlog. revert t Hok. induction Hlog as [|s statements [w Hw] _ IH]; intros t Hok; cbn;
    [by intros [= <-]|].
  destruct (run_statement s t) as [[t1 n]|] eqn:Hs; [|done].
  destruct (Z.eqb_spec n 1) as [->|]; [|done]. intros Hr. rewrite Hw. cbn.
  rewrite (statement_refines _ _ _ _ Hok Hw Hs). cbn. apply IH; [|done].
  by eapply statement_constraints.
Qed.

Lemma replay_statements_app l1 l2 t : replay (l1 ++ l2) t = replay l1 t ≫= replay l2.
Proof.
  revert t. induction l1 as [|s l1 IH]; intros t; [done|]. cbn.
  destruct (run_statement s t) as [[t1 n]|]; [|done]. destruct (n =? 1); [apply IH|done].
Qed.

(** ** What the repositories send *)

Lemma insert_account_write account :
  statement_write (InsertAccount (TransitAccountRow.from_domain account 1))
  = Some (SaveAccount account SaveCondition.MustNotExist).
Proof. cbn -[account_value]. by rewrite account_value_from_domain. Qed.

Lemma update_account_write account n :
  statement_write (UpdateAccount (TransitAccountRow.from_domain account (n + 1)) n)
  = Some (SaveAccount account (SaveCondition.IfVersion (AggregateVersion.mk n))).
Proof. cbn -[account_value]. by rewrite Z.eqb_refl, account_value_from_domain. Qed.

Lemma insert_credential_write credential :
  statement_write (InsertCredential (FareCredentialRow.from_domain credential 1))
  = Some (SaveCredential credential SaveCondition.MustNotExist).
Proof. cbn -[credential_value]. by rewrite credential_value_from_domain. Qed.

Lemma update_credential_write credential n :
  statement_write (UpdateCredential (FareCredentialRow.from_domain credential (n + 1)) n)
  = Some (SaveCredential credential (SaveCondition.IfVersion (AggregateVersion.mk n))).
Proof. cbn -[credential_value]. by rewrite Z.eqb_refl, credential_value_from_domain. Qed.

Lemma insert_reader_write reader :
  EquipmentIdentity.reader_id (ReaderEquipment.identity reader) = ReaderEquipment.id reader ->
  statement_write (InsertReader (ReaderEquipmentRow.from_domain reader 1))
  = Some (SaveReader reader SaveCondition.MustNotExist).
Proof. intros Hid. cbn -[reader_value]. by rewrite reader_value_from_domain. Qed.

Lemma update_reader_write reader n :
  EquipmentIdentity.reader_id (ReaderEquipment.identity reader) = ReaderEquipment.id reader ->
  statement_write (UpdateReader (ReaderEquipmentRow.from_domain reader (n + 1)) n)
  = Some (SaveReader reader (SaveCondition.IfVersion (AggregateVersion.mk n))).
Proof. intros Hid. cbn -[reader_value]. by rewrite Z.eqb_refl, reader_value_from_domain. Qed.

Context {event_laws : EventJsonLaws}.

Lemma insert_event_write event record t t' n :
  DomainEventRecord.from_domain event = Ok record ->
  run_statement (InsertEvent record) t = Ok (t', n) ->
  statement_write (InsertEvent record) = Some (AppendEvent event) /\ n = 1.
Proof using event_laws.
  unfold DomainEventRecord.from_domain. destruct event as [i aggregate version at_ payload].
  destruct (PostgresValueCodec.encode_aggregate_id _) as [kind id] eqn:Hid. cbn in Hid. intros Hrec.
  apply Result_bind_Ok in Hrec as (v & [-> _]%encode_version_Ok & Hrec).
  apply Result_bind_Ok in Hrec as (json & Hjson%map_err_Ok & [= <-]). cbn in Hjson |- *.
  destruct (jsonb json) as [stored|] eqn:Hs; [|done]. cbn.
  destruct (negb _); [done|]. destruct (existsb _ _); [done|]. intros [= <- <-]. split; [|done].
  unfold event_value. cbn -[match_text]. rewrite (payload_reads_back _ _ _ Hjson Hs). cbn -[match_text].
  by destruct aggregate as [[u]|[u]|[u]|[u]], i, version, at_; cbn in Hid; injection Hid as <- <-.
Qed.

End store.
