(* ===== verification/PersistenceSession.v ===== *)
(** * A PostgreSQL session (the sqlx calls of crates/persistence/src/transaction.rs
    and repositories/)

    The committed tables, at most one open transaction of this task, and a
    script: before each statement, transactions of other tasks may commit, and
    the statement may fail.  An open transaction sees the committed tables
    with its own statements on top (READ COMMITTED); rows it has written are
    locked, so that a transaction of another task that would collide with them
    waits.  A failed statement aborts the transaction: PostgreSQL refuses every
    further statement, and ends it at COMMIT by rolling back, which is not
    reported as an error.  The foreign key between credentials is deferred to
    the commit. *)

From S2P Require Import Prelude Text DomainIdentifier DomainTransaction DomainEvents.
From S2P Require Import DeviceProtocolValues PersistenceSql PersistenceColumns ApplicationPorts.
From S2P Require Import PersistenceRows PersistenceCoreTables PersistenceCoreStore.

(** The clock and the generators of identifiers. *)
Class Surroundings (E : Type) := {
  clock_now : Mut E ClockError.t DomainEventTime.t;
  new_credential_id : E -> E * FareCredentialId;
  new_event_id : E -> E * DomainEventId
}.

Section session.
Context `{JsonLibrary} `{!EventJson} `{!PostgresJson} `{UuidLibrary} {E : Type}.

(** What happens at one statement. *)
Record Moment := MkMoment {
  arrivals : list (list Statement);
  moment_fault : option Fault
}.

Record OpenTransaction := MkOpenTransaction {
  number : nat;
  log : list Statement;
  aborted : bool
}.

Record Session := MkSession {
  committed : CoreTables;
  open_transaction : option OpenTransaction;
  next_transaction : nat;
  script : list Moment;
  surroundings : E
}.

Definition set_committed (t : CoreTables) (s : Session) : Session :=
  MkSession t (open_transaction s) (next_transaction s) (script s) (surroundings s).
Definition set_open_transaction (o : option OpenTransaction) (s : Session) : Session :=
  MkSession (committed s) o (next_transaction s) (script s) (surroundings s).
Definition set_script (moments : list Moment) (s : Session) : Session :=
  MkSession (committed s) (open_transaction s) (next_transaction s) moments (surroundings s).
Definition set_surroundings (e : E) (s : Session) : Session :=
  MkSession (committed s) (open_transaction s) (next_transaction s) (script s) e.

(** ** Other transactions *)

(** The locks of the open transaction are respected: its statements have the
    same effect afterwards. *)
Definition log_replays (o : option OpenTransaction) (t : CoreTables) : bool :=
  match o with
  | Some o => aborted o || bool_decide (is_Some (replay (log o) t))
  | None => true
  end.

(** A statement of this program. *)
Definition is_program (s : Statement) : bool := bool_decide (is_Some (statement_write s)).

(** The commit of another transaction, or its wait. *)
Definition arrive (o : option OpenTransaction) (t : CoreTables) (statements : list Statement)
  : CoreTables :=
  match replay statements t with
  | Some t' =>
      if forallb is_program statements && replacements_exist t' && log_replays o t' then t' else t
  | None => t
  end.

(** The next moment of the script. *)
Definition next_moment (s : Session) : Session * option Fault :=
  match script s with
  | [] => (s, None)
  | moment :: moments =>
      (set_script moments
         (set_committed
            (foldl (arrive (open_transaction s)) (committed s) (arrivals moment)) s),
       moment_fault moment)
  end.

(** ** Statements in a transaction *)

(** What a transaction sees. *)
Definition view (o : OpenTransaction) (t : CoreTables) : CoreTables := default t (replay (log o) t).

Definition abort (o : OpenTransaction) : OpenTransaction := MkOpenTransaction (number o) (log o) true.

(** The row that a statement wrote is the transaction's from now on. *)
Definition extend (statement : option Statement) (o : OpenTransaction) : OpenTransaction :=
  match statement with
  | Some x => MkOpenTransaction (number o) (log o ++ [x]) (aborted o)
  | None => o
  end.

Definition transaction_statement {A} (transaction : nat)
    (body : CoreTables -> Result SqlError (option Statement * A)) : Mut Session SqlError A := fun s =>
  let '(s, fault) := next_moment s in
  match open_transaction s with
  | Some o =>
      if negb (number o =? transaction)%nat || aborted o then (s, Err OtherSqlError)
      else
        match fault with
        | Some fault => (set_open_transaction (Some (abort o)) s, Err (fault_error fault))
        | None =>
            match body (view o (committed s)) with
            | Ok (statement, a) => (set_open_transaction (Some (extend statement o)) s, Ok a)
            | Err e => (set_open_transaction (Some (abort o)) s, Err e)
            end
        end
  | None => (s, Err OtherSqlError)
  end.

(** [.execute(&mut *transaction)]: the rows affected. *)
Definition transaction_execute (transaction : nat) (x : Statement) : Mut Session SqlError Z :=
  transaction_statement transaction (fun t =>
    '(_, n) ← run_statement x t;
    Ok (if n =? 1 then Some x else None, n)).

(** [.fetch_optional(&mut *transaction)]. *)
Definition transaction_fetch {R} (transaction : nat) (select : CoreTables -> option R)
  : Mut Session SqlError (option R) :=
  transaction_statement transaction (fun t => Ok (None, select t)).

(** [pool.begin()]: a transaction that was dropped before is rolled back. *)
Definition session_begin : Mut Session SqlError nat := fun s =>
  let '(s, fault) := next_moment s in
  match fault with
  | Some fault => (s, Err (fault_error fault))
  | None =>
      let n := next_transaction s in
      (MkSession (committed s) (Some (MkOpenTransaction n [] false)) (S n) (script s)
         (surroundings s), Ok n)
  end.

(** [transaction.commit()]. *)
Definition session_commit (transaction : nat) : Mut Session SqlError unit := fun s =>
  let '(s, fault) := next_moment s in
  match open_transaction s with
  | Some o =>
      if negb (number o =? transaction)%nat then (s, Err OtherSqlError)
      else
        let ended := set_open_transaction None s in
        let reply :=
          match fault with
          | Some fault => Err (fault_error fault)
          | None => Ok tt
          end in
        let t := view o (committed s) in
        match fault with
        | Some (Fails e) => (ended, Err e)
        | _ =>
            if aborted o then (ended, reply)
            else if replacements_exist t then (set_committed t ended, reply)
            else (ended, Err ForeignKeyViolation)
        end
  | None => (s, Err OtherSqlError)
  end.

(** [transaction.rollback()]. *)
Definition session_rollback (transaction : nat) : Mut Session SqlError unit := fun s =>
  let '(s, fault) := next_moment s in
  match open_transaction s with
  | Some o =>
      if negb (number o =? transaction)%nat then (s, Err OtherSqlError)
      else
        (set_open_transaction None s,
         match fault with
         | Some fault => Err (fault_error fault)
         | None => Ok tt
         end)
  | None => (s, Err OtherSqlError)
  end.

(** ** Statements on the pool *)

(** [.execute(&pool)]: a transaction of one statement. *)
Definition pool_execute (x : Statement) : Mut Session SqlError Z := fun s =>
  let '(s, fault) := next_moment s in
  match fault, run_statement x (committed s) with
  | Some (Fails e), _ => (s, Err e)
  | _, Err e => (s, Err e)
  | _, Ok (t, n) =>
      if negb (replacements_exist t) then (s, Err ForeignKeyViolation)
      else if negb (log_replays (open_transaction s) t) then (s, Err OtherSqlError)
      else
        (set_committed t s,
         match fault with
         | Some fault => Err (fault_error fault)
         | None => Ok n
         end)
  end.

(** [.fetch_optional(&pool)]. *)
Definition pool_fetch {R} (select : CoreTables -> option R) : Mut Session SqlError (option R) :=
  fun s =>
  let '(s, fault) := next_moment s in
  match fault with
  | Some fault => (s, Err (fault_error fault))
  | None => (s, Ok (select (committed s)))
  end.

(** ** The surroundings *)

Context `{Surroundings E}.

Definition session_now : Mut Session ClockError.t DomainEventTime.t := fun s =>
  let '(e, r) := clock_now (surroundings s) in (set_surroundings e s, r).

Definition session_credential_id (s : Session) : Session * FareCredentialId :=
  let '(e, id) := new_credential_id (surroundings s) in (set_surroundings e s, id).

Definition session_event_id (s : Session) : Session * DomainEventId :=
  let '(e, id) := new_event_id (surroundings s) in (set_surroundings e s, id).

End session.

Arguments Session : clear implicits.

(** ** What a session guarantees

    [session_ok] holds in every state a session reaches: the committed tables
    satisfy every constraint, and the open transaction's statements take
    effect on top of them.  One statement is one step of the contract. *)

(** What the commits of the other tasks may do to the store. *)
Class Interference := {
  interferes : Store.t -> Store.t -> Prop;
  #[global] interferes_preorder :: PreOrder interferes;
  interferes_evolves s s' : interferes s s' -> evolves s s'
}.

(** Any transactions of the program, and none. *)
Definition any_interference : Interference :=
  {| interferes := evolves; interferes_evolves s s' H := H |}.

Lemma eq_evolves s s' : s = s' -> evolves s s'.
Proof. intros ->. reflexivity. Qed.

Definition no_interference : Interference :=
  {| interferes := eq; interferes_evolves := eq_evolves |}.

Section session.
Context `{JsonLibrary} `{!EventJson} `{!PostgresJson} `{UuidLibrary} {E : Type} `{Interference}.
Implicit Types (s : Session E) (t : CoreTables).

(** The commits that the script announces. *)
Definition script_admitted (moments : list Moment) : Prop :=
  forall m statements a b, m ∈ moments -> statements ∈ arrivals m ->
  apply_writes (omap statement_write statements) a = Some b -> interferes a b.

(** Committed tables satisfy the deferred constraint too. *)
Definition committed_ok t : Prop := core_ok t /\ replacements_exist t = true.

Definition open_ok (o : option OpenTransaction) t : Prop :=
  match o with
  | Some o => aborted o = true \/ (log_ok (log o) /\ is_Some (replay (log o) t))
  | None => True
  end.

Record session_ok s : Prop := {
  session_committed : committed_ok (committed s);
  session_open : open_ok (open_transaction s) (committed s);
  session_script : script_admitted (script s)
}.

Definition session_durable s : Store.t := decode_core (committed s).

(** The writes of a transaction that is open and not aborted. *)
Definition session_pending (transaction : nat) s : list Write :=
  match open_transaction s with
  | Some o =>
      if (number o =? transaction)%nat && negb (aborted o) then omap statement_write (log o) else []
  | None => []
  end.

Lemma log_replays_open (o : option OpenTransaction) t :
  open_ok o t -> forall t', log_replays o t' = true -> open_ok o t'.
Proof.
  destruct o as [o|]; [|done]. cbn. intros [Ha|[Hl _]] t' Hr; [by left|].
  apply orb_true_iff in Hr as [Hr|Hr]; [by left|]. apply bool_decide_eq_true in Hr. by right.
Qed.

Lemma program_log statements : forallb is_program statements = true -> log_ok statements.
Proof.
  intros Hall. apply Forall_forall. intros x Hx. rewrite forallb_forall in Hall.
  by apply (bool_decide_eq_true _), Hall, list_elem_of_In.
Qed.

Lemma arrive_ok o t statements :
  committed_ok t -> open_ok o t ->
  (forall a b, apply_writes (omap statement_write statements) a = Some b -> interferes a b) ->
  committed_ok (arrive o t statements) /\ open_ok o (arrive o t statements)
  /\ interferes (decode_core t) (decode_core (arrive o t statements)).
Proof.
  intros [Hcore Hrep] Ho Hall. unfold arrive. destruct (replay statements t) as [t'|] eqn:Hr; [|by split_and!].
  destruct (_ && _ && _) eqn:Hc; [|by split_and!]. rewrite !andb_true_iff in Hc.
  destruct Hc as [[Hp Hrep'] Hlog]. split_and!.
  - split; [by eapply replay_constraints|done].
  - by eapply log_replays_open.
  - eapply Hall, replay_refines; [done|by apply program_log|done].
Qed.

Lemma arrivals_ok o l t :
  committed_ok t -> open_ok o t ->
  (forall statements a b, statements ∈ l ->
     apply_writes (omap statement_write statements) a = Some b -> interferes a b) ->
  committed_ok (foldl (arrive o) t l) /\ open_ok o (foldl (arrive o) t l)
  /\ interferes (decode_core t) (decode_core (foldl (arrive o) t l)).
Proof.
  revert t. induction l as [|x l IH]; intros t Hc Ho Hall; [by split_and!|]. cbn.
  destruct (arrive_ok o t x Hc Ho) as (Hc' & Ho' & He); [intros a b; apply Hall; by left|].
  destruct (IH _ Hc' Ho') as (? & ? & ?); [intros y a b Hy; apply Hall; by right|].
  split_and!; [done..|by etrans].
Qed.

(** The moment before a statement: other transactions commit. *)
Lemma next_moment_ok s :
  session_ok s ->
  let s' := (next_moment s).1 in
  session_ok s' /\ interferes (session_durable s) (session_durable s')
  /\ open_transaction s' = open_transaction s.
Proof.
  intros Hs. pose proof Hs as [Hc Ho Hscript]. unfold next_moment.
  destruct (script s) as [|m ms] eqn:Es; [by split_and!|]. cbn.
  destruct (arrivals_ok (open_transaction s) (arrivals m) (committed s) Hc Ho) as (? & ? & ?).
  { intros statements a b Hin. apply (Hscript m); [by left|done]. }
  split_and!; [split; [done..|]|done|done]. intros m' statements a b Hm.
  apply (Hscript m'). by right.
Qed.

(** What the body of a statement may log: a statement of the program that it
    has run, with one row written. *)
Definition body_ok {A} (body : CoreTables -> Result SqlError (option Statement * A)) : Prop :=
  forall t x a, body t = Ok (Some x, a) ->
  is_Some (statement_write x) /\ exists t', run_statement x t = Ok (t', 1).

Lemma view_replay o t : is_Some (replay (log o) t) -> replay (log o) t = Some (view o t).
Proof. unfold view. by intros [t' ->]. Qed.

Lemma extend_pending x o :
  omap statement_write (log (extend x o))
  = omap statement_write (log o) ++ omap statement_write (option_list x).
Proof. destruct x as [x|]; [apply omap_app|]. by rewrite app_nil_r. Qed.

Lemma pending_same_open n s s' :
  open_transaction s' = open_transaction s -> session_pending n s' = session_pending n s.
Proof. unfold session_pending. by intros ->. Qed.

Lemma pending_open n s o :
  open_transaction s = Some o -> number o = n -> aborted o = false ->
  session_pending n s = omap statement_write (log o).
Proof. unfold session_pending. intros -> <- ->. by rewrite Nat.eqb_refl. Qed.

(** One statement in a transaction. *)
Lemma transaction_statement_ok {A} n (body : CoreTables -> Result SqlError (option Statement * A)) s :
  session_ok s -> body_ok body ->
  let '(s', r) := transaction_statement n body s in
  session_ok s' /\ interferes (session_durable s) (session_durable s')
  /\ match r with
     | Ok a => exists seen x, body seen = Ok (x, a)
         /\ apply_writes (session_pending n s) (session_durable s') = Some (decode_core seen)
         /\ core_ok seen
         /\ session_pending n s' = session_pending n s ++ omap statement_write (option_list x)
     | Err _ => True
     end.
Proof.
  intros Hs Hbody. unfold transaction_statement. pose proof (next_moment_ok s Hs) as Hm.
  destruct (next_moment s) as [s1 fault]. cbn in Hm. destruct Hm as (Hs1 & He & Ho).
  rewrite <- (pending_same_open n s s1 Ho). clear Ho. pose proof Hs1 as [[Hcore Hrep] Hopen Hscript].
  destruct (open_transaction s1) as [o|] eqn:Eo; [|done].
  destruct (Nat.eqb_spec (number o) n) as [Hn|]; [|done]. cbn.
  destruct (aborted o) eqn:Ea; [done|]. cbn in Hopen |- *.
  destruct Hopen as [?|[Hlog Hreplay]]; [congruence|].
  destruct fault as [fault|]; [split_and!; [split; [done|by left|done]|done|done]|].
  destruct (body (view o (committed s1))) as [[x a]|e] eqn:Hb;
    [|split_and!; [split; [done|by left|done]|done|done]].
  pose proof (view_replay _ _ Hreplay) as Hview.
  assert (Hx : log_ok (log (extend x o)) /\ is_Some (replay (log (extend x o)) (committed s1))).
  { destruct x as [x|]; [|done]. destruct (Hbody _ _ _ Hb) as [Hw [t' Hrun]]. cbn. split.
    - apply Forall_app. split; [done|by repeat constructor].
    - rewrite replay_statements_app, Hview. cbn. rewrite Hrun. by eexists. }
  split_and!; [split; cbn; [done|by right|done]|done|].
  exists (view o (committed s1)), x. split_and!; [done| | |].
  - rewrite (pending_open n s1 o Eo Hn Ea). by apply replay_refines.
  - by eapply replay_constraints.
  - rewrite (pending_open n s1 o Eo Hn Ea), (pending_open n _ (extend x o)); [|done|by destruct x..].
    apply extend_pending.
Qed.

Lemma run_statement_rows x t t' n : run_statement x t = Ok (t', n) -> n = 0 \/ n = 1.
Proof.
  destruct x as [row|row e|row|row e|row|row e|record]; cbn.
  1,3,5: destruct (insert_row row _) as [[m k]|] eqn:Hi; [|done]; cbn;
    repeat case_match; intros [= _ <-]; apply insert_row_Ok in Hi; right; apply Hi.
  1-3: destruct (update_row row e _) as [[m k]|] eqn:Hi; [|done]; cbn;
    repeat case_match; intros [= _ <-]; apply update_row_Ok in Hi as [[-> _]|[-> _]]; auto.
  destruct (jsonb _); [|done]. cbn. destruct (negb _); [done|]. destruct (existsb _ _); [done|].
  intros [= _ <-]. by right.
Qed.

(** A transaction's end. *)
Lemma session_commit_ok n s :
  session_ok s ->
  let '(s', r) := session_commit n s in
  session_ok s'
  /\ ((exists a b, interferes (session_durable s) a /\ apply_writes (session_pending n s) a = Some b
         /\ interferes b (session_durable s'))
      \/ (r <> Ok tt /\ interferes (session_durable s) (session_durable s'))).
Proof.
  intros Hs. unfold session_commit. pose proof (next_moment_ok s Hs) as Hm.
  destruct (next_moment s) as [s1 fault]. cbn in Hm. destruct Hm as (Hs1 & He & Ho).
  unfold session_pending. rewrite <- Ho. clear Ho. pose proof Hs1 as [[Hcore Hrep] Hopen Hscript].
  destruct (open_transaction s1) as [o|] eqn:Eo; [|by split; [|right]].
  destruct (Nat.eqb_spec (number o) n) as [Hn|]; [|by split; [|right]]. cbn.
  assert (Hended : session_ok (set_open_transaction None s1)) by (by split).
  destruct (aborted o) eqn:Ea; cbn.
  { destruct fault as [[e|e]|]; split; try done; [by right|by right|].
    left. by exists (session_durable s1), (session_durable s1). }
  cbn in Hopen. destruct Hopen as [?|[Hlog Hreplay]]; [congruence|].
  pose proof (view_replay _ _ Hreplay) as Hview.
  pose proof (replay_refines _ _ _ Hcore Hlog Hview) as Hwrites.
  assert (Hcommit : replacements_exist (view o (committed s1)) = true ->
            session_ok (set_committed (view o (committed s1)) (set_open_transaction None s1))).
  { intros Hx. split; [|done|done]. split; [by eapply replay_constraints|done]. }
  assert (Hdone : exists a b, interferes (session_durable s) a
            /\ apply_writes (omap statement_write (log o)) a = Some b
            /\ interferes b (decode_core (view o (committed s1)))).
  { eexists _, _. by split_and!. }
  destruct fault as [[e|e]|]; [by split; [|right]| |];
    (destruct (replacements_exist (view o (committed s1))) eqn:Hx;
     [split; [by apply Hcommit|by left]|by split; [|right]]).
Qed.

Lemma session_rollback_ok n s :
  session_ok s ->
  let s' := (session_rollback n s).1 in
  session_ok s' /\ interferes (session_durable s) (session_durable s').
Proof.
  intros Hs. unfold session_rollback. pose proof (next_moment_ok s Hs) as Hm.
  destruct (next_moment s) as [s1 fault]. cbn in Hm. destruct Hm as (Hs1 & He & _).
  pose proof Hs1 as [Hc Ho Hscript]. destruct (open_transaction s1) as [o|]; [|done].
  destruct (negb _); [done|]. cbn. split; [by split|done].
Qed.

Lemma session_begin_ok s :
  session_ok s ->
  let '(s', r) := session_begin s in
  session_ok s' /\ interferes (session_durable s) (session_durable s')
  /\ forall n, r = Ok n -> session_pending n s' = [].
Proof.
  intros Hs. unfold session_begin. pose proof (next_moment_ok s Hs) as Hm.
  destruct (next_moment s) as [s1 fault]. cbn in Hm. destruct Hm as (Hs1 & He & _).
  destruct fault as [fault|]; [done|]. pose proof Hs1 as [Hc _ Hscript]. split_and!; [|done|].
  - split; [done| |done]. right. split; [constructor|by eexists].
  - intros n [= <-]. unfold session_pending. cbn. by rewrite Nat.eqb_refl.
Qed.

Lemma run_statement_zero x t t' : run_statement x t = Ok (t', 0) -> t' = t.
Proof.
  destruct x as [row|row e|row|row e|row|row e|record]; cbn.
  1,3,5: destruct (insert_row row _) as [[m k]|] eqn:Hi; [|done]; cbn;
    repeat case_match; intros [= _ ->]; by apply insert_row_Ok in Hi as (_ & ? & _).
  1-3: destruct (update_row row e _) as [[m k]|] eqn:Hi; [|done]; cbn;
    repeat case_match; intros [= <- ->]; apply update_row_Ok in Hi as [[_ ->]|[? _]]; by destruct t.
  destruct (jsonb _); [|done]. cbn. destruct (negb _); [done|]. by destruct (existsb _ _).
Qed.

(** A statement on the pool: no effect, or one write. *)
Definition ran (x : Statement) (n : Z) : Prop := exists t t', run_statement x t = Ok (t', n).

Definition pool_effect (x : Statement) s s' (r : Result SqlError Z) : Prop :=
  (forall n, r = Ok n -> ran x n)
  /\ exists a, interferes (session_durable s) a
       /\ ((session_durable s' = a /\ r <> Ok 1)
           \/ (r <> Ok 0 /\ ran x 1
               /\ forall w, statement_write x = Some w -> apply_write a w = Some (session_durable s'))).

Lemma pool_execute_ok x s :
  session_ok s ->
  let '(s', r) := pool_execute x s in session_ok s' /\ pool_effect x s s' r.
Proof.
  intros Hs. unfold pool_execute. pose proof (next_moment_ok s Hs) as Hm.
  destruct (next_moment s) as [s1 fault]. cbn in Hm. destruct Hm as (Hs1 & He & _).
  assert (Hkeep : forall e, session_ok s1 /\ pool_effect x s s1 (Err e)).
  { intros e. split; [done|]. split; [done|]. exists (session_durable s1). auto. }
  pose proof Hs1 as [[Hcore Hrep] Hopen Hscript].
  destruct (run_statement x (committed s1)) as [[t n]|e'] eqn:Hrun;
    [|by destruct fault as [[]|]; apply Hkeep].
  destruct (replacements_exist t) eqn:Hx; [cbn|by destruct fault as [[]|]; apply Hkeep].
  destruct (log_replays (open_transaction s1) t) eqn:Hl; [cbn|by destruct fault as [[]|]; apply Hkeep].
  assert (Hok : session_ok (set_committed t s1)).
  { split; [split; [by eapply statement_constraints|done]|by eapply log_replays_open|done]. }
  assert (Hran : ran x n) by (by exists (committed s1), t).
  assert (Hstep : forall r, r = Ok n \/ is_ok r = false -> pool_effect x s (set_committed t s1) r).
  { intros r Hr. split; [intros k ->; by destruct Hr as [[= ->]|]|]. exists (session_durable s1).
    split; [done|]. destruct (run_statement_rows _ _ _ _ Hrun) as [-> | ->].
    - apply run_statement_zero in Hrun as ->. left. split; [done|]. by destruct Hr as [->|Hr]; [|intros ->].
    - right. split_and!; [by destruct Hr as [->|Hr]; [|intros ->]|done|].
      intros w Hw. by eapply statement_refines. }
  destruct fault as [[e|e]|]; [by apply Hkeep| |]; split; auto.
Qed.

End session.
