(* ===== verification/PersistenceTransaction.v ===== *)
(** * The transactions of the backend (crates/persistence/src/transaction.rs)

    [PostgresApplicationTransaction] and [PostgresTransactionManager] over the
    session of PersistenceSession.v. *)

From S2P Require Import Prelude Text DomainMoney DomainIdentifier DomainAccount DomainCredential.
From S2P Require Import DomainEquipment DomainTransaction DomainEvents DeviceProtocolValues.
From S2P Require Import ApplicationPorts PersistenceSql PersistenceColumns.
From S2P Require Import PersistenceCodec PersistenceRows PersistenceCoreTables PersistenceCoreStore.
From S2P Require Import PersistenceSession.

Definition TRANSACTION_ENTITY : Str := lit "application transaction".
Definition ACCOUNT_ENTITY : Str := lit "transit account".
Definition CREDENTIAL_ENTITY : Str := lit "fare credential".
Definition READER_ENTITY : Str := lit "reader equipment".
Definition EVENT_ENTITY : Str := lit "domain event".

Module EncodedVersion.
Record t := mk { current : Z; next : Z }.
End EncodedVersion.

Definition encode_next_version (version : AggregateVersion.t) (field : string)
  : Result PersistenceError.t EncodedVersion.t :=
  current ← PostgresValueCodec.encode_aggregate_version version;
  next ← ok_or (i64_checked_add current 1) (PersistenceError.NumericValueOutOfRange (lit field));
  Ok (EncodedVersion.mk current next).

Definition enforce_single_write (rows_affected : Z) (entity : Str) : Result PersistenceError.t unit :=
  if decide (rows_affected <> 1) then Err (PersistenceError.WriteConditionFailed entity) else Ok tt.

(** The boxed source is only logged. *)
Definition repository_error (entity : Str) (operation : string) (error : PersistenceError.t)
  : RepositoryError.t := RepositoryError.new entity (lit operation).

Module PostgresApplicationTransaction.
Section transaction.
Context `{JsonLibrary} `{!EventJson} `{!PostgresJson} `{UuidLibrary} {E : Type}.

Definition write (operation : string) (entity : Str) : SqlError -> PersistenceError.t :=
  PersistenceError.write (lit operation) entity.

Definition database (operation : string) : SqlError -> PersistenceError.t :=
  PersistenceError.database (lit operation).

Definition find_account (transaction : nat) (account_id : TransitAccountId)
  : Mut (Session E) PersistenceError.t (option (Versioned TransitAccount.t)) :=
  row ← map_error (database "find transit account in transaction")
          (transaction_fetch transaction (fun t => transit_accounts t !! into_uuid account_id));
  lift (decode_option TransitAccountRow.into_versioned row).

Definition save_account (transaction : nat) (account : TransitAccount.t)
    (condition : SaveCondition.t) : Mut (Session E) PersistenceError.t unit :=
  match condition with
  | SaveCondition.MustNotExist =>
      let row := TransitAccountRow.from_domain account 1 in
      _ ← map_error (write "insert transit account in transaction" (lit "transit account"))
            (transaction_execute transaction (InsertAccount row));
      mret tt
  | SaveCondition.IfVersion expected_version =>
      expected_version ←
        lift (encode_next_version expected_version "transit_accounts.aggregate_version");
      let row := TransitAccountRow.from_domain account (EncodedVersion.next expected_version) in
      rows_affected ←
        map_error (write "update transit account in transaction" (lit "transit account"))
          (transaction_execute transaction
             (UpdateAccount row (EncodedVersion.current expected_version)));
      lift (enforce_single_write rows_affected ACCOUNT_ENTITY)
  end.

Definition find_credential (transaction : nat) (credential_id : FareCredentialId)
  : Mut (Session E) PersistenceError.t (option (Versioned FareCredential.t)) :=
  row ← map_error (database "find fare credential in transaction")
          (transaction_fetch transaction (fun t => fare_credentials t !! into_uuid credential_id));
  lift (decode_option FareCredentialRow.into_versioned row).

Definition save_credential (transaction : nat) (credential : FareCredential.t)
    (condition : SaveCondition.t) : Mut (Session E) PersistenceError.t unit :=
  match condition with
  | SaveCondition.MustNotExist =>
      let row := FareCredentialRow.from_domain credential 1 in
      _ ← map_error (write "insert fare credential in transaction" (lit "fare credential"))
            (transaction_execute transaction (InsertCredential row));
      mret tt
  | SaveCondition.IfVersion expected_version =>
      expected_version ←
        lift (encode_next_version expected_version "fare_credentials.aggregate_version");
      let row := FareCredentialRow.from_domain credential (EncodedVersion.next expected_version) in
      rows_affected ←
        map_error (write "update fare credential in transaction" (lit "fare credential"))
          (transaction_execute transaction
             (UpdateCredential row (EncodedVersion.current expected_version)));
      lift (enforce_single_write rows_affected CREDENTIAL_ENTITY)
  end.

Definition find_reader (transaction : nat) (reader_id : ReaderId)
  : Mut (Session E) PersistenceError.t (option (Versioned ReaderEquipment.t)) :=
  row ← map_error (database "find reader equipment in transaction")
          (transaction_fetch transaction (fun t => reader_equipment t !! into_uuid reader_id));
  lift (decode_option ReaderEquipmentRow.into_versioned row).

Definition save_reader (transaction : nat) (reader : ReaderEquipment.t)
    (condition : SaveCondition.t) : Mut (Session E) PersistenceError.t unit :=
  match condition with
  | SaveCondition.MustNotExist =>
      let row := ReaderEquipmentRow.from_domain reader 1 in
      _ ← map_error (write "insert reader equipment in transaction" (lit "reader equipment"))
            (transaction_execute transaction (InsertReader row));
      mret tt
  | SaveCondition.IfVersion expected_version =>
      expected_version ←
        lift (encode_next_version expected_version "reader_equipment.aggregate_version");
      let row := ReaderEquipmentRow.from_domain reader (EncodedVersion.next expected_version) in
      rows_affected ←
        map_error (write "update reader equipment in transaction" (lit "reader equipment"))
          (transaction_execute transaction
             (UpdateReader row (EncodedVersion.current expected_version)));
      lift (enforce_single_write rows_affected READER_ENTITY)
  end.

Definition append_event (transaction : nat) (event : DomainEvent.t)
  : Mut (Session E) PersistenceError.t unit :=
  record ← lift (DomainEventRecord.from_domain event);
  _ ← map_error (write "insert domain event in transaction" (lit "domain event"))
        (transaction_execute transaction (InsertEvent record));
  mret tt.

(** ** [impl ApplicationTransaction] *)

Definition find_transit_account (transaction : nat) (account_id : TransitAccountId)
  : Mut (Session E) RepositoryError.t (option (Versioned TransitAccount.t)) :=
  map_error (repository_error ACCOUNT_ENTITY "find by identifier")
    (find_account transaction account_id).

Definition save_transit_account (transaction : nat) (account : TransitAccount.t)
    (condition : SaveCondition.t) : Mut (Session E) RepositoryError.t unit :=
  map_error (repository_error ACCOUNT_ENTITY "save") (save_account transaction account condition).

Definition find_fare_credential (transaction : nat) (credential_id : FareCredentialId)
  : Mut (Session E) RepositoryError.t (option (Versioned FareCredential.t)) :=
  map_error (repository_error CREDENTIAL_ENTITY "find by identifier")
    (find_credential transaction credential_id).

Definition save_fare_credential (transaction : nat) (credential : FareCredential.t)
    (condition : SaveCondition.t) : Mut (Session E) RepositoryError.t unit :=
  map_error (repository_error CREDENTIAL_ENTITY "save")
    (save_credential transaction credential condition).

Definition find_reader_equipment (transaction : nat) (reader_id : ReaderId)
  : Mut (Session E) RepositoryError.t (option (Versioned ReaderEquipment.t)) :=
  map_error (repository_error READER_ENTITY "find by identifier")
    (find_reader transaction reader_id).

Definition save_reader_equipment (transaction : nat) (reader : ReaderEquipment.t)
    (condition : SaveCondition.t) : Mut (Session E) RepositoryError.t unit :=
  map_error (repository_error READER_ENTITY "save") (save_reader transaction reader condition).

Definition append_domain_event (transaction : nat) (event : DomainEvent.t)
  : Mut (Session E) RepositoryError.t unit :=
  map_error (repository_error EVENT_ENTITY "append") (append_event transaction event).

Definition commit (transaction : nat) : Mut (Session E) RepositoryError.t unit :=
  map_error (fun source =>
      repository_error TRANSACTION_ENTITY "commit"
        (database "commit application transaction" source))
    (session_commit transaction).

Definition rollback (transaction : nat) : Mut (Session E) RepositoryError.t unit :=
  map_error (fun source =>
      repository_error TRANSACTION_ENTITY "rollback"
        (database "rollback application transaction" source))
    (session_rollback transaction).

End transaction.
End PostgresApplicationTransaction.

Module PostgresTransactionManager.
Section manager.
Context `{JsonLibrary} `{!EventJson} `{!PostgresJson} `{UuidLibrary} {E : Type}.

Definition begin : Mut (Session E) RepositoryError.t nat :=
  map_error (fun source =>
      repository_error TRANSACTION_ENTITY "begin"
        (PersistenceError.database (lit "begin application transaction") source))
    session_begin.

End manager.
End PostgresTransactionManager.
