(* ===== verification/PersistenceRepositories.v ===== *)
(** * The repositories on the pool
    (crates/persistence/src/repositories/transit_account.rs,
    fare_credential.rs, reader_equipment.rs, domain_event.rs)

    The same statements as in a transaction, each a transaction of its own. *)

From S2P Require Import Prelude Text DomainMoney DomainIdentifier DomainAccount DomainCredential.
From S2P Require Import DomainEquipment DomainTransaction DomainEvents DeviceProtocolValues.
From S2P Require Import ApplicationPorts PersistenceSql PersistenceColumns.
From S2P Require Import PersistenceCodec PersistenceRows PersistenceCoreTables PersistenceCoreStore.
From S2P Require Import PersistenceSession.

Definition FIND_OPERATION : Str := lit "find by identifier".
Definition SAVE_OPERATION : Str := lit "save".
Definition APPEND_OPERATION : Str := lit "append".

Module PostgresTransitAccountRepository.
Section repository.
Context `{JsonLibrary} `{!EventJson} `{!PostgresJson} `{UuidLibrary} {E : Type}.

Definition ENTITY : Str := lit "transit account".

Definition find_account (account_id : TransitAccountId)
  : Mut (Session E) PersistenceError.t (option (Versioned TransitAccount.t)) :=
  row ← map_error (PersistenceError.database (lit "find transit account"))
          (pool_fetch (fun t => transit_accounts t !! into_uuid account_id));
  lift (decode_option TransitAccountRow.into_versioned row).

Definition insert_account (account : TransitAccount.t) : Mut (Session E) PersistenceError.t unit :=
  let row := TransitAccountRow.from_domain account 1 in
  _ ← map_error (PersistenceError.write (lit "insert transit account") (lit "transit account"))
        (pool_execute (InsertAccount row));
  mret tt.

Definition update_account (account : TransitAccount.t) (expected_version : AggregateVersion.t)
  : Mut (Session E) PersistenceError.t unit :=
  expected_version ← lift (PostgresValueCodec.encode_aggregate_version expected_version);
  next_version ←
    lift (ok_or (i64_checked_add expected_version 1)
            (PersistenceError.NumericValueOutOfRange (lit "transit_accounts.aggregate_version")));
  let row := TransitAccountRow.from_domain account next_version in
  rows_affected ←
    map_error (PersistenceError.write (lit "update transit account") (lit "transit account"))
      (pool_execute (UpdateAccount row expected_version));
  if decide (rows_affected <> 1) then fail (PersistenceError.WriteConditionFailed ENTITY)
  else mret tt.

Definition save_account (account : TransitAccount.t) (condition : SaveCondition.t)
  : Mut (Session E) PersistenceError.t unit :=
  match condition with
  | SaveCondition.MustNotExist => insert_account account
  | SaveCondition.IfVersion expected_version => update_account account expected_version
  end.

Definition find_by_id (account_id : TransitAccountId)
  : Mut (Session E) RepositoryError.t (option (Versioned TransitAccount.t)) :=
  map_error (fun _ => RepositoryError.new ENTITY FIND_OPERATION) (find_account account_id).

Definition save (account : TransitAccount.t) (condition : SaveCondition.t)
  : Mut (Session E) RepositoryError.t unit :=
  map_error (fun _ => RepositoryError.new ENTITY SAVE_OPERATION) (save_account account condition).

End repository.
End PostgresTransitAccountRepository.

Module PostgresFareCredentialRepository.
Section repository.
Context `{JsonLibrary} `{!EventJson} `{!PostgresJson} `{UuidLibrary} {E : Type}.

Definition ENTITY : Str := lit "fare credential".

Definition find_credential (credential_id : FareCredentialId)
  : Mut (Session E) PersistenceError.t (option (Versioned FareCredential.t)) :=
  row ← map_error (PersistenceError.database (lit "find fare credential"))
          (pool_fetch (fun t => fare_credentials t !! into_uuid credential_id));
  lift (decode_option FareCredentialRow.into_versioned row).

Definition insert_credential (credential : FareCredential.t) : Mut (Session E) PersistenceError.t unit :=
  let row := FareCredentialRow.from_domain credential 1 in
  _ ← map_error (PersistenceError.write (lit "insert fare credential") (lit "fare credential"))
        (pool_execute (InsertCredential row));
  mret tt.

Definition update_credential (credential : FareCredential.t) (expected_version : AggregateVersion.t)
  : Mut (Session E) PersistenceError.t unit :=
  expected_version ← lift (PostgresValueCodec.encode_aggregate_version expected_version);
  next_version ←
    lift (ok_or (i64_checked_add expected_version 1)
            (PersistenceError.NumericValueOutOfRange (lit "fare_credentials.aggregate_version")));
  let row := FareCredentialRow.from_domain credential next_version in
  rows_affected ←
    map_error (PersistenceError.write (lit "update fare credential") (lit "fare credential"))
      (pool_execute (UpdateCredential row expected_version));
  if decide (rows_affected <> 1) then fail (PersistenceError.WriteConditionFailed ENTITY)
  else mret tt.

Definition save_credential (credential : FareCredential.t) (condition : SaveCondition.t)
  : Mut (Session E) PersistenceError.t unit :=
  match condition with
  | SaveCondition.MustNotExist => insert_credential credential
  | SaveCondition.IfVersion expected_version => update_credential credential expected_version
  end.

Definition find_by_id (credential_id : FareCredentialId)
  : Mut (Session E) RepositoryError.t (option (Versioned FareCredential.t)) :=
  map_error (fun _ => RepositoryError.new ENTITY FIND_OPERATION) (find_credential credential_id).

Definition save (credential : FareCredential.t) (condition : SaveCondition.t)
  : Mut (Session E) RepositoryError.t unit :=
  map_error (fun _ => RepositoryError.new ENTITY SAVE_OPERATION) (save_credential credential condition).

End repository.
End PostgresFareCredentialRepository.

Module PostgresReaderEquipmentRepository.
Section repository.
Context `{JsonLibrary} `{!EventJson} `{!PostgresJson} `{UuidLibrary} {E : Type}.

Definition ENTITY : Str := lit "reader equipment".

Definition find_reader (reader_id : ReaderId)
  : Mut (Session E) PersistenceError.t (option (Versioned ReaderEquipment.t)) :=
  row ← map_error (PersistenceError.database (lit "find reader equipment"))
          (pool_fetch (fun t => reader_equipment t !! into_uuid reader_id));
  lift (decode_option ReaderEquipmentRow.into_versioned row).

Definition insert_reader (reader : ReaderEquipment.t) : Mut (Session E) PersistenceError.t unit :=
  let row := ReaderEquipmentRow.from_domain reader 1 in
  _ ← map_error (PersistenceError.write (lit "insert reader equipment") (lit "reader equipment"))
        (pool_execute (InsertReader row));
  mret tt.

Definition update_reader (reader : ReaderEquipment.t) (expected_version : AggregateVersion.t)
  : Mut (Session E) PersistenceError.t unit :=
  expected_version ← lift (PostgresValueCodec.encode_aggregate_version expected_version);
  next_version ←
    lift (ok_or (i64_checked_add expected_version 1)
            (PersistenceError.NumericValueOutOfRange (lit "reader_equipment.aggregate_version")));
  let row := ReaderEquipmentRow.from_domain reader next_version in
  rows_affected ←
    map_error (PersistenceError.write (lit "update reader equipment") (lit "reader equipment"))
      (pool_execute (UpdateReader row expected_version));
  if decide (rows_affected <> 1) then fail (PersistenceError.WriteConditionFailed ENTITY)
  else mret tt.

Definition save_reader (reader : ReaderEquipment.t) (condition : SaveCondition.t)
  : Mut (Session E) PersistenceError.t unit :=
  match condition with
  | SaveCondition.MustNotExist => insert_reader reader
  | SaveCondition.IfVersion expected_version => update_reader reader expected_version
  end.

Definition find_by_id (reader_id : ReaderId)
  : Mut (Session E) RepositoryError.t (option (Versioned ReaderEquipment.t)) :=
  map_error (fun _ => RepositoryError.new ENTITY FIND_OPERATION) (find_reader reader_id).

Definition save (reader : ReaderEquipment.t) (condition : SaveCondition.t)
  : Mut (Session E) RepositoryError.t unit :=
  map_error (fun _ => RepositoryError.new ENTITY SAVE_OPERATION) (save_reader reader condition).

End repository.
End PostgresReaderEquipmentRepository.

Module PostgresDomainEventRepository.
Section repository.
Context `{JsonLibrary} `{!EventJson} `{!PostgresJson} `{UuidLibrary} {E : Type}.

Definition ENTITY : Str := lit "domain event".

Definition append_event (event : DomainEvent.t) : Mut (Session E) PersistenceError.t unit :=
  record ← lift (DomainEventRecord.from_domain event);
  _ ← map_error (PersistenceError.write (lit "insert domain event") (lit "domain event"))
        (pool_execute (InsertEvent record));
  mret tt.

Definition append (event : DomainEvent.t) : Mut (Session E) RepositoryError.t unit :=
  map_error (fun _ => RepositoryError.new ENTITY APPEND_OPERATION) (append_event event).

End repository.
End PostgresDomainEventRepository.
