(* ===== verification/PersistenceTransactionLaws.v ===== *)
(** * PostgreSQL keeps the contract of the ports

    A [World] is a session in a state that it can reach.  Its operations are
    those of PersistenceTransaction.v, and they satisfy [TransactionLaws]: what
    is proved of the use cases against the contract holds of them over
    PostgreSQL. *)

From S2P Require Import Prelude Text DomainMoney DomainIdentifier DomainAccount DomainCredential.
From S2P Require Import DomainEquipment DomainTransaction DomainEvents DeviceProtocolValues.
From S2P Require Import PersistenceSql PersistenceColumns PersistenceCodec.
From S2P Require Import ApplicationPorts PersistenceRows PersistenceCoreTables.
From S2P Require Import PersistenceRowLogic PersistenceCoreStore PersistenceSession.
From S2P Require Import PersistenceTransaction PersistenceRepositories.

Module Tx := PostgresApplicationTransaction.

Section laws.
Context `{JsonLibrary} `{!EventJson} `{!PostgresJson} `{UuidLibrary} {E : Type} `{Interference}.
Context {event_laws : EventJsonLaws}.
Implicit Types (s : Session E) (t : CoreTables).

(** ** Reading rows *)

Lemma account_reads r x :
  account_check r = true -> TransitAccountRow.into_versioned r = Ok x -> row_versioned r = Some x.
Proof.
  intros (a & -> & [_ Hunits] & _ & _ & Hn)%account_checked Hx. cbn in Hn.
  rewrite account_into_versioned in Hx by done. repeat (apply Result_bind_Ok in Hx as (? & _ & Hx)).
  injection Hx as <-. unfold row_versioned. cbn [row_value stored_account].
  by rewrite account_value_from_domain.
Qed.

Lemma credential_reads r x :
  credential_check r = true -> FareCredentialRow.into_versioned r = Ok x -> row_versioned r = Some x.
Proof.
  intros (c & -> & Hwf & _ & Hn)%credential_checked Hx. cbn in Hn.
  rewrite credential_into_versioned in Hx by done.
  repeat (apply Result_bind_Ok in Hx as (? & _ & Hx)). injection Hx as <-.
  unfold row_versioned. cbn [row_value stored_credential]. by rewrite credential_value_from_domain.
Qed.

Lemma reader_reads r x :
  reader_check r = true -> ReaderEquipmentRow.into_versioned r = Ok x -> row_versioned r = Some x.
Proof.
  intros (a & -> & Hwf & _ & _ & Hn)%reader_checked Hx. cbn in Hn.
  rewrite reader_into_versioned in Hx by done.
  repeat (apply Result_bind_Ok in Hx as (? & _ & Hx)). injection Hx as <-.
  unfold row_versioned. cbn [row_value stored_reader].
  by rewrite reader_value_from_domain by apply equipment_identity_reader, Hwf.
Qed.

(** A [find] reads the table as the contract's map. *)
Lemma find_reads {R A k} `{StoredAggregate R A k} (m : gmap Uuid R) (id : Identifier k)
    (read : R -> Result PersistenceError.t (Versioned A)) x :
  table_ok m -> (forall r y, row_check r = true -> read r = Ok y -> row_versioned r = Some y) ->
  decode_option read (m !! into_uuid id) = Ok x -> x = decode_table m !! id.
Proof.
  intros Hm Hread Hx. rewrite decode_table_lookup.
  destruct (m !! into_uuid id) as [r|] eqn:Hr; cbn in Hx; [|by injection Hx].
  destruct (read r) as [y|] eqn:Hy; cbn in Hx; [|done]. injection Hx as <-. cbn. symmetry.
  apply Hread; [by eapply table_checks|done].
Qed.

(** ** Statements of a transaction *)

Lemma fetch_ok {R} n (select : CoreTables -> option R) s :
  session_ok s ->
  let '(s', r) := transaction_fetch n select s in
  session_ok s' /\ interferes (session_durable s) (session_durable s')
  /\ forall row, r = Ok row -> session_pending n s' = session_pending n s
       /\ exists seen, core_ok seen /\ row = select seen
            /\ apply_writes (session_pending n s) (session_durable s') = Some (decode_core seen).
Proof.
  intros Hs. unfold transaction_fetch.
  pose proof (transaction_statement_ok n (fun t => Ok (None, select t)) s Hs) as Hst.
  destruct (transaction_statement _ _ _) as [s' r]. destruct Hst as (Hs' & He & Hr); [by intros ???|].
  split_and!; [done..|]. intros row ->. destruct Hr as (seen & x & [= <- <-] & Hw & Hcore & Hp).
  cbn in Hp. rewrite app_nil_r in Hp. split; [done|]. by exists seen.
Qed.

Lemma execute_ok n x w s :
  session_ok s ->
  (forall t t' k, run_statement x t = Ok (t', k) -> statement_write x = Some w) ->
  let '(s', r) := transaction_execute n x s in
  session_ok s' /\ interferes (session_durable s) (session_durable s')
  /\ forall k, r = Ok k -> (exists t t', run_statement x t = Ok (t', k))
       /\ (k = 1 -> session_pending n s' = session_pending n s ++ [w]).
Proof.
  intros Hs Hw. unfold transaction_execute.
  match goal with |- context [transaction_statement n ?b s] =>
    pose proof (transaction_statement_ok n b s Hs) as Hst; set (body := b) in * end.
  assert (Hbody : body_ok body).
  { intros t y a. unfold body. destruct (run_statement x t) as [[t' k]|] eqn:Hrun; [cbn|done].
    destruct (Z.eqb_spec k 1) as [->|]; [|done]. intros [= <- <-]. split; [|by exists t'].
    exists w. by eapply Hw. }
  destruct (transaction_statement n body s) as [s' r]. destruct (Hst Hbody) as (Hs' & He & Hr).
  split_and!; [done..|]. intros k ->. destruct Hr as (seen & y & Hy & _ & _ & Hp). unfold body in Hy.
  destruct (run_statement x seen) as [[t' k']|] eqn:Hrun; [cbn in Hy|done]. injection Hy as <- ->.
  split; [by exists seen, t'|]. intros ->. rewrite Hp. cbn. by rewrite (Hw _ _ _ Hrun).
Qed.

Lemma insert_writes_one x t t' k :
  match x with InsertAccount _ | InsertCredential _ | InsertReader _ | InsertEvent _ => True | _ => False end ->
  run_statement x t = Ok (t', k) -> k = 1.
Proof.
  destruct x as [row|row e|row|row e|row|row e|record]; try done; intros _; cbn.
  1-3: destruct (insert_row row _) as [[m n]|] eqn:Hi; [|done]; cbn; repeat case_match;
    intros [= _ <-]; by apply insert_row_Ok in Hi as (_ & ? & _).
  destruct (jsonb _); [|done]. cbn. destruct (negb _); [done|]. destruct (existsb _ _); [done|].
  by intros [= _ <-].
Qed.

Lemma encode_next_Ok version field x :
  encode_next_version version field = Ok x ->
  version = AggregateVersion.mk (EncodedVersion.current x)
  /\ EncodedVersion.next x = EncodedVersion.current x + 1.
Proof.
  unfold encode_next_version. intros Hx.
  apply Result_bind_Ok in Hx as (current & [-> _]%encode_version_Ok & Hx).
  apply Result_bind_Ok in Hx as (next & Hnext%ok_or_Ok & [= <-]).
  apply i64_try_from_Some in Hnext as [_ ->]. by destruct version.
Qed.

(** What a write in a transaction does. *)
Definition writes {A} (n : nat) (w : Write) (m : Mut (Session E) A unit) : Prop :=
  forall s, session_ok s ->
  let '(s', r) := m s in
  session_ok s' /\ interferes (session_durable s) (session_durable s')
  /\ (r = Ok tt -> session_pending n s' = session_pending n s ++ [w]).

Lemma writes_map_error {A B} (f : A -> B) n w m : writes n w m -> writes n w (map_error f m).
Proof.
  intros Hm s Hs. specialize (Hm s Hs). unfold map_error. destruct (m s) as [s' [[]|e]]; cbn;
    destruct Hm as (? & ? & Hp); split_and!; try done. intros _. by apply Hp.
Qed.

(** An [INSERT] and an [UPDATE], as the methods send them. *)
Lemma insert_writes {A} n x w (convert : SqlError -> A) :
  match x with InsertAccount _ | InsertCredential _ | InsertReader _ | InsertEvent _ => True | _ => False end ->
  (forall t t' k, run_statement x t = Ok (t', k) -> statement_write x = Some w) ->
  writes n w (_ ← map_error convert (transaction_execute n x); mret tt).
Proof.
  intros Hx Hw s Hs. unfold map_error. mut_unfold. pose proof (execute_ok n x w s Hs Hw) as He.
  destruct (transaction_execute n x s) as [s' [k|e]]; cbn; destruct He as (Hs' & Hev & Hk);
    [|by split_and!]. split_and!; [done..|]. intros _. destruct (Hk k eq_refl) as [(t & t' & Hrun) Hp].
  apply Hp. by eapply insert_writes_one.
Qed.

Lemma update_writes n x w (convert : SqlError -> PersistenceError.t) entity :
  statement_write x = Some w ->
  writes n w (rows_affected ← map_error convert (transaction_execute n x);
              lift (enforce_single_write rows_affected entity)).
Proof.
  intros Hw s Hs. unfold map_error. mut_unfold.
  pose proof (execute_ok n x w s Hs (fun _ _ _ _ => Hw)) as He.
  destruct (transaction_execute n x s) as [s' [k|e]]; cbn; destruct He as (Hs' & Hev & Hk);
    [|by split_and!]. split_and!; [done..|]. unfold enforce_single_write. case_decide as Hone; [done|].
  intros _. apply (Hk k eq_refl). lia.
Qed.

Lemma lift_writes {A B} n w (m : Result A B) (k : B -> Mut (Session E) A unit) :
  (forall x, m = Ok x -> writes n w (k x)) -> writes n w (x ← lift m; k x).
Proof.
  intros Hk s Hs. mut_unfold. destruct m as [x|e]; [by apply Hk|]. by split_and!.
Qed.

Lemma save_account_writes n account condition :
  writes n (SaveAccount account condition) (Tx.save_account (E := E) n account condition).
Proof.
  unfold Tx.save_account. destruct condition as [|version].
  - apply insert_writes; [done|]. intros _ _ _ _. apply insert_account_write.
  - apply lift_writes. intros x [-> Hnext]%encode_next_Ok. rewrite Hnext.
    apply update_writes, update_account_write.
Qed.

Lemma save_credential_writes n credential condition :
  writes n (SaveCredential credential condition) (Tx.save_credential (E := E) n credential condition).
Proof.
  unfold Tx.save_credential. destruct condition as [|version].
  - apply insert_writes; [done|]. intros _ _ _ _. apply insert_credential_write.
  - apply lift_writes. intros x [-> Hnext]%encode_next_Ok. rewrite Hnext.
    apply update_writes, update_credential_write.
Qed.

Lemma save_reader_writes n reader condition :
  EquipmentIdentity.reader_id (ReaderEquipment.identity reader) = ReaderEquipment.id reader ->
  writes n (SaveReader reader condition) (Tx.save_reader (E := E) n reader condition).
Proof.
  intros Hid. unfold Tx.save_reader. destruct condition as [|version].
  - apply insert_writes; [done|]. intros _ _ _ _. by apply insert_reader_write.
  - apply lift_writes. intros x [-> Hnext]%encode_next_Ok. rewrite Hnext.
    by apply update_writes, update_reader_write.
Qed.

Lemma append_event_writes n event :
  writes n (AppendEvent event) (Tx.append_event (E := E) n event).
Proof using event_laws.
  apply lift_writes. intros record Hr. apply insert_writes; [done|]. intros t t' k Hrun.
  by apply (insert_event_write _ _ _ _ _ Hr Hrun).
Qed.

End laws.

(** ** The ports over PostgreSQL

    [World] is a session in a state that it can reach; [postgres_ports] are
    the methods of PersistenceTransaction.v on it, and [postgres_laws] shows
    that they keep the contract of ApplicationPorts.v. *)

(** ** Methods keep a session well formed *)

Section keeps.
Context `{JsonLibrary} `{!EventJson} `{!PostgresJson} `{UuidLibrary} {E : Type} `{Interference}.
Implicit Types s : Session E.

Definition keeps {Err A} (m : Mut (Session E) Err A) : Prop :=
  forall s, session_ok s -> session_ok (after m s).

Lemma keeps_map_error {F G A} (f : F -> G) (m : Mut (Session E) F A) :
  keeps m -> keeps (map_error f m).
Proof.
  intros Hm s Hs. specialize (Hm s Hs). unfold after, map_error in *. by destruct (m s).
Qed.

Lemma keeps_bind {F A B} (m : Mut (Session E) F A) (k : A -> Mut (Session E) F B) :
  keeps m -> (forall a, keeps (k a)) -> keeps (m ≫= k).
Proof.
  intros Hm Hk s Hs. specialize (Hm s Hs). unfold after, mbind, Mut_bind in *.
  destruct (m s) as [s' [a|e]]; [by apply Hk|done].
Qed.

Lemma keeps_lift {F A} (r : Result F A) : keeps (lift r).
Proof. by intros s Hs. Qed.

Lemma keeps_mret {F A} (a : A) : keeps (mret (M := Mut (Session E) F) a).
Proof. by intros s Hs. Qed.

Lemma keeps_fetch {R} n (select : CoreTables -> option R) : keeps (transaction_fetch n select).
Proof.
  intros s Hs. unfold after. pose proof (fetch_ok n select s Hs) as Hf.
  destruct (transaction_fetch n select s). apply Hf.
Qed.

Lemma keeps_writes {A} n w (m : Mut (Session E) A unit) : writes n w m -> keeps m.
Proof.
  intros Hm s Hs. specialize (Hm s Hs). unfold after. destruct (m s). apply Hm.
Qed.

Lemma keeps_statement {A} n (body : CoreTables -> Result SqlError (option Statement * A)) :
  body_ok body -> keeps (transaction_statement n body).
Proof.
  intros Hb s Hs. unfold after. pose proof (transaction_statement_ok n body s Hs Hb) as Hst.
  destruct (transaction_statement n body s). apply Hst.
Qed.

Lemma keeps_begin : keeps PostgresTransactionManager.begin.
Proof.
  apply keeps_map_error. intros s Hs. unfold after. pose proof (session_begin_ok s Hs) as Hb.
  destruct (session_begin s). apply Hb.
Qed.

Lemma keeps_commit n : keeps (Tx.commit n).
Proof.
  apply keeps_map_error. intros s Hs. unfold after. pose proof (session_commit_ok n s Hs) as Hb.
  destruct (session_commit n s). apply Hb.
Qed.

Lemma keeps_rollback n : keeps (Tx.rollback n).
Proof. apply keeps_map_error. intros s Hs. by apply session_rollback_ok. Qed.

Lemma keeps_find_account n id : keeps (Tx.find_transit_account n id).
Proof. apply keeps_map_error, keeps_bind; [apply keeps_map_error, keeps_fetch|intros; apply keeps_lift]. Qed.

Lemma keeps_find_credential n id : keeps (Tx.find_fare_credential n id).
Proof. apply keeps_map_error, keeps_bind; [apply keeps_map_error, keeps_fetch|intros; apply keeps_lift]. Qed.

Lemma keeps_find_reader n id : keeps (Tx.find_reader_equipment n id).
Proof. apply keeps_map_error, keeps_bind; [apply keeps_map_error, keeps_fetch|intros; apply keeps_lift]. Qed.

Lemma keeps_save_account n account condition : keeps (Tx.save_transit_account n account condition).
Proof. eapply keeps_writes, writes_map_error, save_account_writes. Qed.

Lemma keeps_save_credential n credential condition :
  keeps (Tx.save_fare_credential n credential condition).
Proof. eapply keeps_writes, writes_map_error, save_credential_writes. Qed.

(** The row does not say which reader the identity names. *)
Definition own_identity (reader : ReaderEquipment.t) : ReaderEquipment.t :=
  ReaderEquipment.set_identity
    (EquipmentIdentity.new (ReaderEquipment.id reader)
       (EquipmentIdentity.key_id (ReaderEquipment.identity reader))) reader.

Lemma keeps_save_reader n reader condition : keeps (Tx.save_reader_equipment n reader condition).
Proof.
  change (keeps (Tx.save_reader_equipment n (own_identity reader) condition)).
  by eapply keeps_writes, writes_map_error, save_reader_writes.
Qed.

Lemma keeps_append {event_laws : EventJsonLaws} n event : keeps (Tx.append_domain_event n event).
Proof. eapply keeps_writes, writes_map_error, append_event_writes. Qed.

End keeps.

(** ** The world *)

Section world.
Context `{JsonLibrary} `{!EventJson} `{!PostgresJson} `{UuidLibrary} {E : Type} `{Surroundings E} `{Interference}.
Context {event_laws : EventJsonLaws}.

Record World := MkWorld { session : Session E; world_ok : session_ok session }.

Definition in_world {Err A} (m : Mut (Session E) Err A) (Hm : keeps m) : Mut World Err A := fun w =>
  (MkWorld (after m (session w)) (Hm _ (world_ok w)), outcome m (session w)).

Lemma keeps_now : keeps session_now.
Proof. intros s [Hc Ho Hscript]. unfold after, session_now. by destruct (clock_now (surroundings s)). Qed.

Lemma keeps_credential_id s : session_ok s -> session_ok (session_credential_id s).1.
Proof.
  intros [Hc Ho Hscript]. unfold session_credential_id. by destruct (new_credential_id (surroundings s)).
Qed.

Lemma keeps_event_id s : session_ok s -> session_ok (session_event_id s).1.
Proof. intros [Hc Ho Hscript]. unfold session_event_id. by destruct (new_event_id (surroundings s)). Qed.

#[global] Instance postgres_ports : ApplicationPorts World nat := {|
  now := in_world session_now keeps_now;
  generate_credential_id w :=
    (MkWorld (session_credential_id (session w)).1 (keeps_credential_id _ (world_ok w)),
     (session_credential_id (session w)).2);
  generate_event_id w :=
    (MkWorld (session_event_id (session w)).1 (keeps_event_id _ (world_ok w)),
     (session_event_id (session w)).2);
  begin_transaction := in_world PostgresTransactionManager.begin keeps_begin;
  find_transit_account n id := in_world _ (keeps_find_account n id);
  save_transit_account n a condition := in_world _ (keeps_save_account n a condition);
  find_fare_credential n id := in_world _ (keeps_find_credential n id);
  save_fare_credential n c condition := in_world _ (keeps_save_credential n c condition);
  find_reader_equipment n id := in_world _ (keeps_find_reader n id);
  save_reader_equipment n r condition := in_world _ (keeps_save_reader n r condition);
  append_domain_event n e := in_world _ (keeps_append n e);
  commit n := in_world _ (keeps_commit n);
  rollback n := in_world _ (keeps_rollback n)
|}.

(** ** Finds *)

(** What a [find] reports of the store that its transaction sees. *)
Definition finds {A B} (n : nat) (view : Store.t -> option (Versioned A))
    (m : Mut (Session E) B (option (Versioned A))) : Prop :=
  forall s, session_ok s ->
  let '(s', r) := m s in
  interferes (session_durable s) (session_durable s')
  /\ forall x, r = Ok x -> session_pending n s' = session_pending n s
       /\ exists seen, apply_writes (session_pending n s) (session_durable s') = Some seen
            /\ x = view seen.

Lemma find_row {R A k} `{StoredAggregate R A k} {F} (table : CoreTables -> gmap Uuid R)
    (view : Store.t -> option (Versioned A)) (id : Identifier k) n
    (read : R -> Result PersistenceError.t (Versioned A)) (f : PersistenceError.t -> F)
    (g : SqlError -> PersistenceError.t) :
  (forall t, core_ok t -> table_ok (table t)) ->
  (forall t, view (decode_core t) = decode_table (table t) !! id) ->
  (forall r y, row_check r = true -> read r = Ok y -> row_versioned r = Some y) ->
  finds n view
    (map_error f (row ← map_error g (transaction_fetch n (fun t => table t !! into_uuid id));
                  lift (decode_option read row))).
Proof.
  intros Htable Hview Hread s Hs. unfold map_error. mut_unfold.
  pose proof (fetch_ok n (fun t => table t !! into_uuid id) s Hs) as Hf.
  destruct (transaction_fetch n _ s) as [s' [row|e]]; cbn; destruct Hf as (_ & He & Hx);
    [|by split]. split; [done|]. intros x Hr%map_err_Ok.
  destruct (Hx row eq_refl) as (Hp & seen & Hcore & -> & Hw). split; [done|].
  exists (decode_core seen). split; [done|]. rewrite Hview. eapply find_reads, Hr; auto.
Qed.

Lemma find_account_ok n id :
  finds n (fun seen => Store.accounts seen !! id) (Tx.find_transit_account n id).
Proof. apply find_row; [apply core_accounts|done|exact account_reads]. Qed.

Lemma find_credential_ok n id :
  finds n (fun seen => Store.credentials seen !! id) (Tx.find_fare_credential n id).
Proof. apply find_row; [apply core_credentials|done|exact credential_reads]. Qed.

Lemma find_reader_ok n id :
  finds n (fun seen => Store.readers seen !! id) (Tx.find_reader_equipment n id).
Proof. apply find_row; [apply core_readers|done|exact reader_reads]. Qed.

(** ** The contract *)

Definition world_durable (w : World) : Store.t := session_durable (session w).
Definition world_pending (n : nat) (w : World) : list Write := session_pending n (session w).

#[global] Program Instance postgres_laws : TransactionLaws World nat := {|
  durable := world_durable;
  pending := world_pending;
  others := interferes
|}.
Next Obligation. apply interferes_evolves. Qed.
Next Obligation.
  intros [s Hs]. cbn. unfold world_durable, world_pending, session_durable, session_pending. cbn.
  unfold after, session_now. by destruct (clock_now _).
Qed.
Next Obligation.
  intros [s Hs]. cbn. unfold world_durable, world_pending, session_durable, session_pending. cbn.
  unfold session_credential_id. by destruct (new_credential_id _).
Qed.
Next Obligation.
  intros [s Hs]. cbn. unfold world_durable, world_pending, session_durable, session_pending. cbn.
  unfold session_event_id. by destruct (new_event_id _).
Qed.
Next Obligation.
  intros [s Hs]. cbn. unfold after, outcome, PostgresTransactionManager.begin, map_error.
  pose proof (session_begin_ok s Hs) as Hb. unfold world_durable, world_pending. cbn.
  destruct (session_begin s) as [s' [n|e]]; cbn in *; destruct Hb as (_ & He & Hp); split; try done.
  intros t [= <-]. by apply Hp.
Qed.
Next Obligation.
  intros n id [s Hs]. cbn. unfold world_durable, world_pending, after, outcome. cbn.
  pose proof (find_account_ok n id s Hs) as Hf. destruct (Tx.find_transit_account n id s) as [s' r].
  cbn. destruct Hf as [He Hx]. split; [done|]. intros x Hr. destruct (Hx x Hr) as (Hp & seen & Hw & ->).
  split; [done|]. by exists (session_durable s'), seen.
Qed.
Next Obligation.
  intros n id [s Hs]. cbn. unfold world_durable, world_pending, after, outcome. cbn.
  pose proof (find_credential_ok n id s Hs) as Hf. destruct (Tx.find_fare_credential n id s) as [s' r].
  cbn. destruct Hf as [He Hx]. split; [done|]. intros x Hr. destruct (Hx x Hr) as (Hp & seen & Hw & ->).
  split; [done|]. by exists (session_durable s'), seen.
Qed.
Next Obligation.
  intros n c condition [s Hs]. cbn. unfold world_durable, world_pending, after, outcome. cbn.
  pose proof (writes_map_error (repository_error CREDENTIAL_ENTITY "save") _ _ _
                (save_credential_writes n c condition) s Hs) as Hw.
  unfold Tx.save_fare_credential. destruct (map_error _ _ s). cbn. split; apply Hw.
Qed.
Next Obligation.
  intros n e [s Hs]. cbn. unfold world_durable, world_pending, after, outcome. cbn.
  pose proof (writes_map_error (repository_error EVENT_ENTITY "append") _ _ _
                (append_event_writes n e) s Hs) as Hw.
  unfold Tx.append_domain_event. destruct (map_error _ _ s). cbn. split; apply Hw.
Qed.
Next Obligation.
  intros n [s Hs]. cbn. unfold world_durable, world_pending, after, outcome, Tx.commit, map_error. cbn.
  pose proof (session_commit_ok n s Hs) as Hc.
  destruct (session_commit n s) as [s' [[]|e]]; cbn in *; destruct Hc as [_ [Hc|[Hr He]]];
    [by left|done|by left|by right].
Qed.
Next Obligation.
  intros n [s Hs]. cbn. unfold world_durable, after, Tx.rollback, map_error. cbn.
  pose proof (session_rollback_ok n s Hs) as [_ He]. by destruct (session_rollback n s).
Qed.

End world.

Arguments World {_ _ _ _} E {_}.
