(* ===== verification/PersistenceBackendCorrectness.v ===== *)
(** * What the backend's repositories guarantee

    Values survive storage, stored values are sound, a unit of work is atomic,
    and a repository on the pool saves one value or nothing. *)

From S2P Require Import Prelude Text DomainMoney DomainIdentifier DomainAccount DomainCredential.
From S2P Require Import DomainEquipment DomainTransaction DomainEvents DeviceProtocolValues.
From S2P Require Import ApplicationPorts PersistenceSql PersistenceColumns.
From S2P Require Import PersistenceCodec PersistenceRows PersistenceCoreTables.
From S2P Require Import PersistenceRowLogic PersistenceCoreStore PersistenceSession.
From S2P Require Import PersistenceTransaction PersistenceRepositories.
From S2P Require Import PersistenceTransactionLaws.

Module AccountRow := TransitAccountRow.
Module CredentialRow := FareCredentialRow.
Module ReaderRow := ReaderEquipmentRow.

(** ** Round trips *)

Section roundtrip.
Context `{UuidLibrary} {uuid_text : UuidTextLaws}.

Lemma uuid_column_wf {k} (id : Identifier k) :
  uuid_column (into_uuid id) = true <-> identifier_wf id.
Proof using uuid_text.
  unfold uuid_column. split.
  - intros Hc%identifier_read. exact Hc.
  - intros Hid. apply identifier_passes. exact Hid.
Qed.

(** What the constructors of the domain guarantee of a value. *)
Definition account_storable (a : TransitAccount.t) : Prop :=
  account_wf a /\ identifier_wf (TransitAccount.id a) /\ identifier_wf (TransitAccount.rider_id a).

Definition credential_storable (c : FareCredential.t) : Prop :=
  credential_wf c /\ identifier_wf (FareCredential.id c)
  /\ identifier_wf (FareCredential.transit_account_id c)
  /\ from_option identifier_wf True (FareCredential.replacement_id c).

Definition reader_storable (r : ReaderEquipment.t) : Prop :=
  equipment_wf r /\ identifier_wf (ReaderEquipment.id r)
  /\ identifier_wf (EquipmentIdentity.key_id (ReaderEquipment.identity r)).

Lemma account_row_check a n :
  account_storable a -> 0 < n <= i64_max -> account_check (AccountRow.from_domain a n) = true.
Proof using uuid_text.
  intros ([Hmoney Hpos] & Hid & Hrider) Hn. unfold account_check.
  cbn -[uuid_column text_in bigint version_column Z.leb].
  rewrite (proj2 (uuid_column_wf _) Hid), (proj2 (uuid_column_wf _) Hrider).
  rewrite (proj2 (bigint_spec _) Hmoney), (proj2 (Z.leb_le _ _) Hpos).
  rewrite (proj2 (version_column_spec n) Hn).
  destruct a as [i r s e [[u c]]]. by destruct s, e, c.
Qed.

Lemma credential_row_check c n :
  credential_storable c -> 0 < n <= i64_max -> credential_check (CredentialRow.from_domain c n) = true.
Proof using uuid_text.
  intros ([Hrevoked Hreplaced Hself] & Hid & _ & _) Hn. unfold credential_check.
  cbn -[uuid_column text_in version_column lit nullable is_not_null is_null].
  rewrite (proj2 (uuid_column_wf _) Hid), (proj2 (version_column_spec n) Hn).
  destruct c as [i a k s reason replacement]. cbn in Hrevoked, Hreplaced, Hself |- *.
  assert (nullable (fun x => negb (bool_decide (x = into_uuid i))) (into_uuid <$> replacement) = true)
    as Hnull.
  { destruct replacement as [[u]|]; [|done]. cbn. apply negb_true_iff, bool_decide_eq_false.
    intros ->. destruct i. by destruct Hself. }
  rewrite Hnull. clear Hnull Hself.
  assert (is_Some reason \/ reason = None) as Hr by (destruct reason; eauto).
  assert (is_Some replacement \/ replacement = None) as Hp by (destruct replacement; eauto).
  destruct k, s, Hr as [Hr| ->], Hp as [Hp| ->];
    try (apply Hrevoked in Hr; done); try (apply Hreplaced in Hp; done);
    try (destruct (proj1 Hrevoked eq_refl) as [? [=]]; done);
    try (destruct (proj1 Hreplaced eq_refl) as [? [=]]; done);
    try (destruct Hr as [x ->]; destruct x); try (destruct Hp as [y ->]); reflexivity.
Qed.

Lemma reader_row_check r n :
  reader_storable r -> 0 < n <= i64_max -> reader_check (ReaderRow.from_domain r n) = true.
Proof using uuid_text.
  intros ([_ Hdisabled Hrevoked] & Hid & Hkey) Hn. unfold reader_check.
  cbn -[uuid_column text_in version_column lit nullable is_not_null is_null].
  rewrite (proj2 (uuid_column_wf _) Hid), (proj2 (uuid_column_wf _) Hkey).
  rewrite (proj2 (version_column_spec n) Hn).
  destruct r as [i [i' key] s disablement revocation]. cbn in Hdisabled, Hrevoked |- *.
  assert (is_Some disablement \/ disablement = None) as Hd by (destruct disablement; eauto).
  assert (is_Some revocation \/ revocation = None) as Hr by (destruct revocation; eauto).
  destruct s, Hd as [Hd| ->], Hr as [Hr| ->];
    try (apply Hrevoked in Hr; done); try (apply Hdisabled in Hd; done);
    try (destruct (proj1 Hrevoked eq_refl) as [? [=]]; done);
    try (destruct (proj1 Hdisabled eq_refl) as [? [=]]; done);
    try (destruct Hd as [x ->]; destruct x); try (destruct Hr as [y ->]; destruct y); reflexivity.
Qed.

Lemma account_reads_back a n :
  account_storable a -> 0 < n <= i64_max ->
  AccountRow.into_versioned (AccountRow.from_domain a n)
  = Ok (VersionedAggregate.new a (AggregateVersion.mk n)).
Proof.
  intros ([_ Hpos] & Hid & Hrider) Hn. rewrite account_into_versioned by done.
  by rewrite (try_from_uuid_wf _ Hid), (try_from_uuid_wf _ Hrider).
Qed.

Lemma credential_reads_back c n :
  credential_storable c -> 0 < n <= i64_max ->
  CredentialRow.into_versioned (CredentialRow.from_domain c n)
  = Ok (VersionedAggregate.new c (AggregateVersion.mk n)).
Proof.
  intros (Hwf & Hid & Haccount & Hreplacement) Hn. rewrite credential_into_versioned by done.
  rewrite (try_from_uuid_wf _ Hid), (try_from_uuid_wf _ Haccount). cbn. unfold replacement_read.
  destruct (FareCredential.replacement_id c) as [x|]; [|done]. cbn in Hreplacement |- *.
  by rewrite (try_from_uuid_wf _ Hreplacement).
Qed.

Lemma reader_reads_back r n :
  reader_storable r -> 0 < n <= i64_max ->
  ReaderRow.into_versioned (ReaderRow.from_domain r n)
  = Ok (VersionedAggregate.new r (AggregateVersion.mk n)).
Proof.
  intros (Hwf & Hid & Hkey) Hn. rewrite reader_into_versioned by done.
  by rewrite (try_from_uuid_wf _ Hid), (try_from_uuid_wf _ Hkey).
Qed.

Lemma account_rows_encode r :
  account_check r = true <->
  exists a n, account_storable a /\ 0 < n <= i64_max /\ r = AccountRow.from_domain a n.
Proof using uuid_text.
  split.
  - intros (a & -> & Hwf & Hid & Hrider & Hn)%account_checked. exists a. eexists.
    split_and!; [split_and!; [done|by apply uuid_column_wf..]|apply Hn..|done].
  - intros (a & n & Ha & Hn & ->). by apply account_row_check.
Qed.

Lemma credential_rows_encode r :
  (credential_check r = true
   /\ identifier_wf (MkIdentifier (k := KTransitAccountId) (CredentialRow.transit_account_id r))
   /\ forall u, CredentialRow.replacement_id r = Some u ->
      identifier_wf (MkIdentifier (k := KFareCredentialId) u)) <->
  exists c n, credential_storable c /\ 0 < n <= i64_max /\ r = CredentialRow.from_domain c n.
Proof using uuid_text.
  split.
  - intros ((c & Hc & Hwf & Hid & Hn)%credential_checked & Haccount & Hreplacement).
    exists c, (CredentialRow.aggregate_version r). rewrite Hc in Hid, Haccount, Hreplacement.
    split_and!; [split_and!; [done|by apply uuid_column_wf|exact Haccount|]|apply Hn..|done].
    destruct c as [i a k s reason [[u]|]]; [|done]. by apply Hreplacement.
  - intros (c & n & Hc & Hn & ->). pose proof Hc as (_ & _ & Haccount & Hreplacement).
    split_and!; [by apply credential_row_check|exact Haccount|].
    destruct c as [i a k s reason [[v]|]]; cbn; intros u [= ->]. exact Hreplacement.
Qed.

Lemma reader_rows_encode r :
  reader_check r = true <->
  exists x n, reader_storable x /\ 0 < n <= i64_max /\ r = ReaderRow.from_domain x n.
Proof using uuid_text.
  split.
  - intros (x & Hx & Hwf & Hid & Hkey & Hn)%reader_checked.
    exists x, (ReaderRow.aggregate_version r). rewrite Hx in Hid, Hkey.
    split_and!; [split_and!; [done|by apply uuid_column_wf..]|apply Hn..|done].
  - intros (x & n & Hx & Hn & ->). by apply reader_row_check.
Qed.

(** C17. The tables hold exactly the values of the domain.  A row of accounts
    or of reader equipment passes the checks of its migration if and only if
    it encodes, at a version that fits, an aggregate that satisfies the
    domain's invariant and has random UUIDs of version 7; the same holds of a
    credential whose account and replacement are such identifiers.  And
    whatever row encodes such an aggregate, [into_versioned] gives that
    aggregate and that version back. *)
Theorem rows_encode_values :
  (forall r, account_check r = true <->
     exists a n, account_storable a /\ 0 < n <= i64_max /\ r = AccountRow.from_domain a n)
  /\ (forall r, (credential_check r = true
       /\ identifier_wf (MkIdentifier (k := KTransitAccountId) (CredentialRow.transit_account_id r))
       /\ forall u, CredentialRow.replacement_id r = Some u ->
          identifier_wf (MkIdentifier (k := KFareCredentialId) u)) <->
     exists c n, credential_storable c /\ 0 < n <= i64_max /\ r = CredentialRow.from_domain c n)
  /\ (forall r, reader_check r = true <->
     exists x n, reader_storable x /\ 0 < n <= i64_max /\ r = ReaderRow.from_domain x n)
  /\ (forall a c x n, account_storable a -> credential_storable c -> reader_storable x ->
     0 < n <= i64_max ->
     AccountRow.into_versioned (AccountRow.from_domain a n)
       = Ok (VersionedAggregate.new a (AggregateVersion.mk n))
     /\ CredentialRow.into_versioned (CredentialRow.from_domain c n)
       = Ok (VersionedAggregate.new c (AggregateVersion.mk n))
     /\ ReaderRow.into_versioned (ReaderRow.from_domain x n)
       = Ok (VersionedAggregate.new x (AggregateVersion.mk n))).
Proof using uuid_text.
  split_and!; [exact account_rows_encode|exact credential_rows_encode|exact reader_rows_encode|].
  intros a c x n Ha Hc Hx Hn. auto using account_reads_back, credential_reads_back, reader_reads_back.
Qed.

End roundtrip.

(** ** Histories *)

Create HintDb keeps.

Section history.
Context `{JsonLibrary} `{!EventJson} `{!PostgresJson} `{UuidLibrary} {E : Type} `{Surroundings E}.
Context {uuid_text : UuidTextLaws} {event_laws : EventJsonLaws}.
Implicit Types s : Session E.

#[local] Existing Instance any_interference.

(** Every call of the two modules. *)
Inductive BackendCall :=
| CallBegin
| CallFindAccount (n : nat) (id : TransitAccountId)
| CallSaveAccount (n : nat) (a : TransitAccount.t) (condition : SaveCondition.t)
| CallFindCredential (n : nat) (id : FareCredentialId)
| CallSaveCredential (n : nat) (c : FareCredential.t) (condition : SaveCondition.t)
| CallFindReader (n : nat) (id : ReaderId)
| CallSaveReader (n : nat) (r : ReaderEquipment.t) (condition : SaveCondition.t)
| CallAppend (n : nat) (e : DomainEvent.t)
| CallCommit (n : nat)
| CallRollback (n : nat)
| PoolFindAccount (id : TransitAccountId)
| PoolSaveAccount (a : TransitAccount.t) (condition : SaveCondition.t)
| PoolFindCredential (id : FareCredentialId)
| PoolSaveCredential (c : FareCredential.t) (condition : SaveCondition.t)
| PoolFindReader (id : ReaderId)
| PoolSaveReader (r : ReaderEquipment.t) (condition : SaveCondition.t)
| PoolAppend (e : DomainEvent.t).

Definition run_backend_call (call : BackendCall) s : Session E :=
  match call with
  | CallBegin => after PostgresTransactionManager.begin s
  | CallFindAccount n id => after (Tx.find_transit_account n id) s
  | CallSaveAccount n a condition => after (Tx.save_transit_account n a condition) s
  | CallFindCredential n id => after (Tx.find_fare_credential n id) s
  | CallSaveCredential n c condition => after (Tx.save_fare_credential n c condition) s
  | CallFindReader n id => after (Tx.find_reader_equipment n id) s
  | CallSaveReader n r condition => after (Tx.save_reader_equipment n r condition) s
  | CallAppend n e => after (Tx.append_domain_event n e) s
  | CallCommit n => after (Tx.commit n) s
  | CallRollback n => after (Tx.rollback n) s
  | PoolFindAccount id => after (PostgresTransitAccountRepository.find_by_id id) s
  | PoolSaveAccount a condition => after (PostgresTransitAccountRepository.save a condition) s
  | PoolFindCredential id => after (PostgresFareCredentialRepository.find_by_id id) s
  | PoolSaveCredential c condition => after (PostgresFareCredentialRepository.save c condition) s
  | PoolFindReader id => after (PostgresReaderEquipmentRepository.find_by_id id) s
  | PoolSaveReader r condition => after (PostgresReaderEquipmentRepository.save r condition) s
  | PoolAppend e => after (PostgresDomainEventRepository.append e) s
  end.

(** A migrated database, with a script of what others do and what fails. *)
Definition fresh_session (moments : list Moment) (e : E) : Session E :=
  MkSession empty_core_tables None 0 moments e.

Lemma keeps_pool_execute x : keeps (pool_execute (E := E) x).
Proof.
  intros s Hs. unfold after. pose proof (pool_execute_ok x s Hs) as Hp.
  destruct (pool_execute x s). apply Hp.
Qed.

Lemma keeps_pool_fetch {R} (select : CoreTables -> option R) : keeps (pool_fetch (E := E) select).
Proof.
  intros s Hs. unfold after, pool_fetch. pose proof (next_moment_ok s Hs) as [Hm _].
  destruct (next_moment s) as [s1 fault]. by destruct fault.
Qed.

Lemma keeps_fail {F A} (e : F) : keeps (fail (S := Session E) (A := A) e).
Proof. by intros s Hs. Qed.

#[local] Hint Resolve keeps_map_error keeps_bind keeps_lift keeps_mret keeps_fail keeps_pool_execute
  keeps_pool_fetch keeps_begin keeps_commit keeps_rollback keeps_find_account keeps_find_credential
  keeps_find_reader keeps_save_account keeps_save_credential keeps_save_reader keeps_append : keeps.

Lemma session_ok_call call s : session_ok s -> session_ok (run_backend_call call s).
Proof using event_laws.
  destruct call; cbn [run_backend_call]; revert s;
    match goal with |- forall s, _ -> session_ok (after ?m s) => change (keeps m) end;
    auto with keeps.
  all: try (unfold PostgresTransitAccountRepository.find_by_id,
    PostgresFareCredentialRepository.find_by_id, PostgresReaderEquipmentRepository.find_by_id;
    apply keeps_map_error, keeps_bind; auto with keeps; done).
  1-3: destruct condition as [|version]; apply keeps_map_error; repeat (apply keeps_bind; intros);
    auto with keeps; case_decide; auto with keeps.
Qed.

Lemma fresh_session_ok moments e : session_ok (fresh_session moments e).
Proof.
  clear uuid_text event_laws. split; [|done|].
  2: { intros m statements a b _ _. apply apply_writes_evolves. }
  split; [|done]. split; cbn; [split|split|split| | |]; intros; (by rewrite lookup_empty in *) || by set_solver.
Qed.

Lemma session_ok_history calls s :
  session_ok s -> session_ok (foldl (fun s call => run_backend_call call s) s calls).
Proof using event_laws.
  revert s. induction calls as [|call calls IH]; intros s Hs; [done|]. by apply IH, session_ok_call.
Qed.

Lemma replacement_row t u r id :
  replacements_exist t = true -> fare_credentials t !! u = Some r ->
  CredentialRow.replacement_id r = Some id -> is_Some (fare_credentials t !! id).
Proof.
  unfold replacements_exist. rewrite forallb_forall. intros Hall Hu Hid.
  assert (nullable (fun id => bool_decide (is_Some (fare_credentials t !! id)))
            (CredentialRow.replacement_id r) = true) as Hn.
  { apply Hall, list_elem_of_In, list_elem_of_fmap. exists (u, r). split; [done|].
    by apply elem_of_map_to_list. }
  rewrite Hid in Hn. by apply bool_decide_eq_true in Hn.
Qed.

(** C16. Whatever is stored can be read, and is sound.  Start from the migrated
    database and make any calls, in transactions and on the pool, with any
    arguments, while other instances of the program commit what they like and
    statements fail as they like.  In the state that is reached every stored
    row of an aggregate decodes to a value that satisfies the invariant of its
    aggregate and lies under its own identity; every credential's account and
    replacement are stored; no rider has two accounts, no two credentials
    share a replacement, no two readers share a key; and no two events record
    the same version of an aggregate. *)
Theorem stored_values_sound calls moments e :
  let t := committed (foldl (fun s call => run_backend_call call s) (fresh_session moments e) calls) in
  (forall u r, transit_accounts t !! u = Some r -> exists x, AccountRow.into_versioned r = Ok x
     /\ account_storable (VersionedAggregate.aggregate x)
     /\ into_uuid (TransitAccount.id (VersionedAggregate.aggregate x)) = u)
  /\ (forall u r, fare_credentials t !! u = Some r -> exists x, CredentialRow.into_versioned r = Ok x
     /\ let c := VersionedAggregate.aggregate x in
        credential_storable c /\ into_uuid (FareCredential.id c) = u
        /\ is_Some (transit_accounts t !! into_uuid (FareCredential.transit_account_id c))
        /\ forall id, FareCredential.replacement_id c = Some id ->
             is_Some (fare_credentials t !! into_uuid id))
  /\ (forall u r, reader_equipment t !! u = Some r -> exists x, ReaderRow.into_versioned r = Ok x
     /\ reader_storable (VersionedAggregate.aggregate x)
     /\ into_uuid (ReaderEquipment.id (VersionedAggregate.aggregate x)) = u)
  /\ table_ok (transit_accounts t) /\ table_ok (fare_credentials t) /\ table_ok (reader_equipment t)
  /\ (forall i j r r', domain_events t !! i = Some r -> domain_events t !! j = Some r' ->
        event_clash r r' = true -> i = j).
Proof using uuid_text event_laws.
  intros t. destruct (session_ok_history calls _ (fresh_session_ok moments e)) as [[Hcore Hrep] _].
  fold t in Hcore, Hrep. clearbody t. destruct Hcore as [Ha Hc Hr Hfk He Hu].
  assert (Haccount : forall u r, transit_accounts t !! u = Some r ->
    exists a n, account_storable a /\ 0 < n <= i64_max /\ r = AccountRow.from_domain a n
      /\ into_uuid (TransitAccount.id a) = u).
  { intros u r Hur. destruct (proj1 (account_rows_encode r)) as (a & n & Hst & Hn & ->);
      [by eapply (table_checks _ Ha)|]. exists a, n. split_and!; try done; try lia.
    by apply (table_keys _ Ha) in Hur. }
  split_and!; try done.
  - intros u r (a & n & Hst & Hn & -> & Hu')%Haccount. eexists.
    split; [by apply account_reads_back|done].
  - intros u r Hur. pose proof (Hfk _ _ Hur) as Hacc.
    destruct (proj1 (credential_rows_encode r)) as (c & n & Hst & Hn & ->).
    { split_and!; [by eapply (table_checks _ Hc)| |].
      - destruct Hacc as [ra Hra]. destruct (Haccount _ _ Hra) as (a & n & (_ & Hid & _) & _ & _ & <-).
        by destruct (TransitAccount.id a).
      - intros v Hv. destruct (replacement_row _ _ _ _ Hrep Hur Hv) as [rv Hrv].
        pose proof (table_checks _ Hc _ _ Hrv) as (c & _ & _ & Hid & _)%credential_checked.
        rewrite (table_keys _ Hc _ _ Hrv : CredentialRow.id rv = v) in Hid. by apply identifier_read in Hid. }
    eexists. split; [by apply credential_reads_back|]. cbn. split_and!; [done..| | |].
    + by apply (table_keys _ Hc) in Hur.
    + done.
    + intros id Hid. eapply replacement_row; [done..|]. cbn. by rewrite Hid.
  - intros u r Hur. destruct (proj1 (reader_rows_encode r)) as (x & n & Hst & Hn & ->);
      [by eapply (table_checks _ Hr)|]. eexists. split; [by apply reader_reads_back|]. split; [done|].
    by apply (table_keys _ Hr) in Hur.
Qed.

End history.
