(* ===== verification/PersistenceUnitOfWork.v ===== *)
(** * Units of work and single saves

    A unit of work begins a transaction, makes its writes and commits.  The
    commits of other tasks are bounded by an [Interference]: with
    [no_interference] the statements are equations. *)

From S2P Require Import Prelude Text DomainMoney DomainIdentifier DomainAccount DomainCredential.
From S2P Require Import DomainEquipment DomainTransaction DomainEvents DeviceProtocolValues.
From S2P Require Import ApplicationPorts PersistenceSql PersistenceColumns.
From S2P Require Import PersistenceCodec PersistenceRows PersistenceCoreTables.
From S2P Require Import PersistenceRowLogic PersistenceCoreStore PersistenceSession.
From S2P Require Import PersistenceTransaction PersistenceRepositories.
From S2P Require Import PersistenceTransactionLaws.

Section unit_of_work.
Context `{JsonLibrary} `{!EventJson} `{!PostgresJson} `{UuidLibrary} {E : Type} `{Interference}.
Context {event_laws : EventJsonLaws}.
Implicit Types s : Session E.

(** The method of [ApplicationTransaction] that makes a write. *)
Definition perform (n : nat) (w : Write) : Mut (Session E) RepositoryError.t unit :=
  match w with
  | SaveAccount a condition => Tx.save_transit_account n a condition
  | SaveCredential c condition => Tx.save_fare_credential n c condition
  | SaveReader r condition => Tx.save_reader_equipment n r condition
  | AppendEvent e => Tx.append_domain_event n e
  end.

Fixpoint perform_all (n : nat) (ws : list Write) : Mut (Session E) RepositoryError.t unit :=
  match ws with
  | [] => mret tt
  | w :: ws' => _ ← perform n w; perform_all n ws'
  end.

Definition unit_of_work (ws : list Write) : Mut (Session E) RepositoryError.t unit :=
  n ← PostgresTransactionManager.begin;
  _ ← perform_all n ws;
  Tx.commit n.

(** The identity of a reader names that reader. *)
Definition write_named (w : Write) : Prop :=
  match w with
  | SaveReader r _ => EquipmentIdentity.reader_id (ReaderEquipment.identity r) = ReaderEquipment.id r
  | _ => True
  end.

(** The writes became durable together, at one moment between the commits of
    others. *)
Definition applied (ws : list Write) s s' : Prop :=
  exists a b, interferes (session_durable s) a /\ apply_writes ws a = Some b
    /\ interferes b (session_durable s').

Lemma perform_writes n w : write_named w -> writes n w (perform n w).
Proof using event_laws.
  intros Hw. destruct w as [a condition|c condition|r condition|e]; apply writes_map_error;
    [apply save_account_writes|apply save_credential_writes|by apply save_reader_writes
    |apply append_event_writes].
Qed.

Lemma perform_all_writes n ws s :
  session_ok s -> Forall write_named ws ->
  let '(s', r) := perform_all n ws s in
  session_ok s' /\ interferes (session_durable s) (session_durable s')
  /\ (r = Ok tt -> session_pending n s' = session_pending n s ++ ws).
Proof using event_laws.
  intros Hs Hws. revert s Hs. induction Hws as [|w ws Hw _ IH]; intros s Hs; cbn.
  { split_and!; [done..|]. intros _. by rewrite app_nil_r. }
  mut_unfold. pose proof (perform_writes n w Hw s Hs) as Hp.
  destruct (perform n w s) as [s1 [[]|e]]; destruct Hp as (Hs1 & Hi1 & Hp1); [|by split_and!].
  specialize (IH s1 Hs1). destruct (perform_all n ws s1) as [s2 r]. destruct IH as (Hs2 & Hi2 & Hp2).
  split_and!; [done|by etrans|]. intros Hr. rewrite (Hp2 Hr), (Hp1 eq_refl). by rewrite <- app_assoc.
Qed.

(** C15. A unit of work is atomic on PostgreSQL.  Begin a transaction, make any
    writes through its methods, and commit, while other tasks commit between
    any two statements and any statement, [begin] and [commit] included, may
    fail or lose its reply.  If the unit of work succeeds, all its writes
    became durable together, in order, each on the version that it expected.
    If it reports an error, then either nothing of it is durable, or all of it
    (a commit whose reply was lost).  The constraints of the schema hold
    afterwards. *)
Theorem unit_of_work_atomic ws s :
  session_ok s -> Forall write_named ws ->
  let '(s', r) := unit_of_work ws s in
  session_ok s'
  /\ (applied ws s s'
      \/ (r <> Ok tt /\ interferes (session_durable s) (session_durable s'))).
Proof using event_laws.
  intros Hs Hws. unfold unit_of_work, PostgresTransactionManager.begin, Tx.commit, map_error.
  mut_unfold. pose proof (session_begin_ok s Hs) as Hb.
  destruct (session_begin s) as [s1 [n|e]]; cbn; destruct Hb as (Hs1 & Hi1 & Hp1);
    [|by split; [|right]].
  pose proof (perform_all_writes n ws s1 Hs1 Hws) as Hp.
  destruct (perform_all n ws s1) as [s2 [[]|e]]; destruct Hp as (Hs2 & Hi2 & Hp2);
    [|split; [done|right]; split; [done|by etrans]].
  specialize (Hp2 eq_refl). rewrite (Hp1 n eq_refl) in Hp2. cbn in Hp2.
  pose proof (session_commit_ok n s2 Hs2) as Hc. rewrite Hp2 in Hc.
  destruct (session_commit n s2) as [s3 r]. destruct Hc as [Hs3 Hc].
  split; [done|]. destruct Hc as [(a & b & Ha & Hw & Hb)|[Hr Hi3]].
  - left. exists a, b. split_and!; [|done|done]. etrans; [exact Hi1|]. by etrans.
  - right. split; [destruct r as [[]|]; done|]. etrans; [exact Hi1|]. by etrans.
Qed.

(** ** The repositories on the pool *)

(** One write, or nothing; the write if it reports success. *)
Definition writes_once {A} (w : Write) (m : Mut (Session E) A unit) : Prop :=
  forall s, session_ok s ->
  let '(s', r) := m s in
  session_ok s'
  /\ exists a, interferes (session_durable s) a
       /\ (session_durable s' = a \/ apply_write a w = Some (session_durable s'))
       /\ (r = Ok tt -> apply_write a w = Some (session_durable s')).

Lemma once_map_error {A B} (f : A -> B) w m : writes_once w m -> writes_once w (map_error f m).
Proof.
  intros Hm s Hs. specialize (Hm s Hs). unfold map_error. destruct (m s) as [s' [[]|e]]; cbn;
    destruct Hm as (Hs' & a & Ha & Hor & Hr); (split; [done|]); exists a; split_and!; try done.
  intros _. by apply Hr.
Qed.

Lemma once_lift {A B} w (m : Result A B) (k : B -> Mut (Session E) A unit) :
  (forall x, m = Ok x -> writes_once w (k x)) -> writes_once w (x ← lift m; k x).
Proof.
  intros Hk s Hs. mut_unfold. destruct m as [x|e]; [by apply Hk|]. split; [done|].
  exists (session_durable s). split_and!; [done|by left|done].
Qed.

(** A statement that has written [w] whenever it wrote a row. *)
Definition statement_makes (x : Statement) (w : Write) : Prop :=
  ran x 1 -> statement_write x = Some w.

Lemma once_insert {A} x w (convert : SqlError -> A) :
  statement_makes x w ->
  match x with InsertAccount _ | InsertCredential _ | InsertReader _ | InsertEvent _ => True | _ => False end ->
  writes_once w (_ ← map_error convert (pool_execute x); mret tt).
Proof.
  intros Hw Hx s Hs. unfold map_error. mut_unfold. pose proof (pool_execute_ok x s Hs) as He.
  destruct (pool_execute x s) as [s' [n|e]]; destruct He as (Hs' & Hran & a & Ha & Hor); cbn.
  - destruct (Hran n eq_refl) as (t & t' & Hrun). pose proof (insert_writes_one _ _ _ _ Hx Hrun) as ->.
    split; [done|]. exists a. destruct Hor as [[_ ?]|(_ & Hone & Hwrite)]; [done|]. split_and!; auto.
  - split; [done|]. exists a. destruct Hor as [[? _]|(_ & Hone & Hwrite)]; split_and!; auto; done.
Qed.

Lemma once_update {A} x w (convert : SqlError -> A) (e : A) :
  statement_makes x w ->
  writes_once w (rows_affected ← map_error convert (pool_execute x);
                 if decide (rows_affected <> 1) then fail e else mret tt).
Proof.
  intros Hw s Hs. unfold map_error. mut_unfold. pose proof (pool_execute_ok x s Hs) as He.
  destruct (pool_execute x s) as [s' [n|e']]; destruct He as (Hs' & _ & a & Ha & Hor); cbn.
  - destruct (decide (n <> 1)) as [Hn|Hn]; split; try done; exists a;
      destruct Hor as [[Heq Hr]|(_ & Hone & Hwrite)]; split_and!; auto; try done.
    intros _. destruct Hr. f_equal. lia.
  - split; [done|]. exists a. destruct Hor as [[? _]|(_ & Hone & Hwrite)]; split_and!; auto; done.
Qed.

Lemma next_i64 current next (e : PersistenceError.t) :
  ok_or (i64_checked_add current 1) e = Ok next -> next = current + 1.
Proof. by intros [_ ->]%ok_or_Ok%i64_try_from_Some. Qed.

(** C18. A repository on the pool saves one value or nothing.  Whatever other
    tasks commit and whatever statements fail: a save through
    [PostgresTransitAccountRepository], [PostgresFareCredentialRepository] or
    [PostgresReaderEquipmentRepository], and an append through
    [PostgresDomainEventRepository], either has no effect or is the one
    conditional save of the contract, at one moment between the commits of
    others, and it has happened whenever success is reported. *)
Theorem pool_saves_once a c r e condition :
  EquipmentIdentity.reader_id (ReaderEquipment.identity r) = ReaderEquipment.id r ->
  writes_once (SaveAccount a condition) (PostgresTransitAccountRepository.save a condition)
  /\ writes_once (SaveCredential c condition) (PostgresFareCredentialRepository.save c condition)
  /\ writes_once (SaveReader r condition) (PostgresReaderEquipmentRepository.save r condition)
  /\ writes_once (AppendEvent e) (PostgresDomainEventRepository.append e).
Proof using event_laws.
  intros Hr. split_and!; apply once_map_error.
  4: { apply once_lift. intros record Hrecord. apply once_insert; [|done].
    intros (t & t' & Hrun). by apply (insert_event_write _ _ _ _ _ Hrecord Hrun). }
  all: destruct condition as [|version]; [apply once_insert; [intros _|done]|].
  - apply insert_account_write.
  - apply once_lift. intros n [-> Hn]%encode_version_Ok. apply once_lift. intros next ->%next_i64.
    apply once_update. intros _. destruct version. apply update_account_write.
  - apply insert_credential_write.
  - apply once_lift. intros n [-> Hn]%encode_version_Ok. apply once_lift. intros next ->%next_i64.
    apply once_update. intros _. destruct version. apply update_credential_write.
  - by apply insert_reader_write.
  - apply once_lift. intros n [-> Hn]%encode_version_Ok. apply once_lift. intros next ->%next_i64.
    apply once_update. intros _. destruct version. by apply update_reader_write.
Qed.

End unit_of_work.
