(* ===== verification/PersistenceBackendExample.v ===== *)
(** * The backend's store at work

    A concrete [uuid] library, payloads in their JSON format, a clock that
    stands still and a counter of identifiers: units of work and use cases run
    on PostgreSQL, with another instance of the program beside them. *)

From S2P Require Import Prelude Text JsonReference DomainMoney DomainIdentifier DomainAccount.
From S2P Require Import DomainCredential DomainEquipment DomainTransaction DomainEvents.
From S2P Require Import DeviceProtocolValues MessageFormats ApplicationPorts ApplicationUseCases.
From S2P Require Import PersistenceSql PersistenceColumns.
From S2P Require Import PersistenceCodec PersistenceRows PersistenceCoreTables.
From S2P Require Import PersistenceRowLogic PersistenceCoreStore PersistenceSession.
From S2P Require Import PersistenceTransaction PersistenceRepositories.
From S2P Require Import PersistenceTransactionLaws PersistenceBackendCorrectness.
From S2P Require Import PersistenceUnitOfWork.

(** Payloads that their format reads back; the others are not values of the
    type. *)
#[local] Instance payload_event_json : EventJson := {|
  payload_to_value p := if decide (deserialize (serialize p) = Some p) then Ok (serialize p) else Err tt;
  payload_from_value := deserialize
|}.

#[local] Instance payload_jsonb : PostgresJson := {| jsonb v := Ok v |}.

#[local] Instance payload_laws : EventJsonLaws.
Proof. split. intros p v v' Hp [= <-]. cbn in Hp. case_decide; [|done]. by injection Hp as <-. Qed.

(** Random UUIDs of version 7, numbered. *)
Definition numbered_uuid (n : N) : Uuid :=
  default uuid_1 (uuid_from_u128 (0x70008000000000000000 + n)%N).

#[local] Instance counter_surroundings : Surroundings N := {|
  clock_now e := (e, Ok (DomainEventTime.mk 1000));
  new_credential_id e := ((e + 1)%N, MkIdentifier (numbered_uuid e));
  new_event_id e := ((e + 1)%N, MkIdentifier (numbered_uuid e))
|}.

Definition account_of (n : N) : TransitAccount.t :=
  TransitAccount.mk (MkIdentifier (numbered_uuid n)) (MkIdentifier (numbered_uuid (n + 1)))
    TransitAccountStatus.Active EligibilityClassification.Standard
    (StoredValueBalance.mk (Money.from_minor_units 500 Currency.Usd)).

Definition credential_of (n : N) : FareCredential.t :=
  FareCredential.new_pending (MkIdentifier (numbered_uuid n)) (MkIdentifier (numbered_uuid 1))
    FareCredentialKind.Card.

Definition issued_event (n : N) (c : FareCredential.t) : DomainEvent.t :=
  let payload := DomainEventPayload.FareCredentialIssued (FareCredential.id c)
                   (FareCredential.transit_account_id c) (FareCredential.kind c) in
  DomainEvent.mk (MkIdentifier (numbered_uuid n)) (DomainEventPayload.aggregate_id payload)
    (AggregateVersion.mk 1) (DomainEventTime.mk 1000) payload.

(** An account, a credential of it, and the event that says so. *)
Definition sample_writes : list Write :=
  [SaveAccount (account_of 1) SaveCondition.MustNotExist;
   SaveCredential (credential_of 5) SaveCondition.MustNotExist;
   AppendEvent (issued_event 6 (credential_of 5))].

(** Another instance opens an account after the transaction has begun. *)
Definition another_commits : Moment :=
  MkMoment [[InsertAccount (TransitAccountRow.from_domain (account_of 50) 1)]] None.

Definition sample_session : Session N :=
  fresh_session [MkMoment [] None; another_commits] 100%N.

Example sample_unit_of_work :
  let s := after (unit_of_work sample_writes) sample_session in
  outcome (unit_of_work sample_writes) sample_session = Ok tt
  /\ size (transit_accounts (committed s)) = 2%nat /\ size (fare_credentials (committed s)) = 1%nat
  /\ length (domain_events (committed s)) = 1%nat
  /\ outcome (unit_of_work sample_writes) s
     = Err (RepositoryError.new (lit "transit account") (lit "save")).
Proof. vm_compute. done. Qed.

Lemma unit_of_work_atomic_witness :
  outcome (unit_of_work sample_writes) sample_session = Ok tt
  /\ applied (H3 := any_interference) sample_writes sample_session
       (after (unit_of_work sample_writes) sample_session).
Proof.
  assert (outcome (unit_of_work sample_writes) sample_session = Ok tt) as Hok
    by (vm_compute; reflexivity).
  split; [exact Hok|].
  pose proof (unit_of_work_atomic (H3 := any_interference) sample_writes sample_session
                (fresh_session_ok _ _)) as Ht.
  unfold outcome, after in *. destruct (unit_of_work sample_writes sample_session) as [s r].
  destruct Ht as [_ [Ha|[Hr _]]]; [by repeat constructor|exact Ha|]. cbn in Hok. by destruct Hr.
Defined.

Lemma account_of_storable : account_storable (account_of 1).
Proof. split_and!; repeat split; vm_compute; congruence. Qed.

Lemma rows_encode_values_witness :
  account_check (AccountRow.from_domain (account_of 1) 7) = true
  /\ exists a n, account_storable a /\ 0 < n <= i64_max
       /\ AccountRow.from_domain (account_of 1) 7 = AccountRow.from_domain a n.
Proof.
  assert (account_check (AccountRow.from_domain (account_of 1) 7) = true) as Hc
    by (vm_compute; reflexivity).
  split; [exact Hc|]. by apply (proj1 rows_encode_values).
Defined.

(** Save an account on the pool, a credential in a transaction; save both
    again. *)
Definition sample_backend_calls : list BackendCall :=
  [PoolSaveAccount (account_of 1) SaveCondition.MustNotExist;
   CallBegin; CallSaveCredential 0 (credential_of 5) SaveCondition.MustNotExist; CallCommit 0;
   PoolSaveAccount (account_of 1) (SaveCondition.IfVersion (AggregateVersion.mk 1))].

Definition after_sample_calls : Session N :=
  foldl (fun s call => run_backend_call call s) (fresh_session [another_commits] 100%N)
    sample_backend_calls.

Lemma stored_values_sound_witness :
  (AccountRow.aggregate_version <$> transit_accounts (committed after_sample_calls) !! numbered_uuid 1)
    = Some 2
  /\ forall u r, fare_credentials (committed after_sample_calls) !! u = Some r ->
     exists x, CredentialRow.into_versioned r = Ok x
       /\ credential_storable (VersionedAggregate.aggregate x).
Proof.
  split; [vm_compute; reflexivity|]. intros u r Hr.
  unfold after_sample_calls in Hr.
  pose proof (stored_values_sound (E := N) sample_backend_calls [another_commits] 100%N) as Hs.
  cbv zeta in Hs. destruct Hs as (_ & Hs & _).
  destruct (Hs u r Hr) as (x & Hx & Hc & _). exists x. exact (conj Hx Hc).
Defined.

Lemma pool_saves_once_witness :
  let save := PostgresTransitAccountRepository.save (account_of 1) SaveCondition.MustNotExist in
  let s := fresh_session [another_commits] 100%N in
  outcome save s = Ok tt
  /\ exists a, apply_write a (SaveAccount (account_of 1) SaveCondition.MustNotExist)
                = Some (session_durable (after save s)).
Proof.
  intros save s. assert (outcome save s = Ok tt) as Hok by (vm_compute; reflexivity).
  split; [exact Hok|].
  pose proof (pool_saves_once (E := N) (H3 := any_interference) (account_of 1) (credential_of 5)
    (ReaderEquipment.new_pending (MkIdentifier (numbered_uuid 7)) (MkIdentifier (numbered_uuid 8)))
    (issued_event 6 (credential_of 5)) SaveCondition.MustNotExist eq_refl) as [Ha _].
  specialize (Ha s (fresh_session_ok _ _)). fold save in Ha. unfold outcome, after in *.
  destruct (save s) as [s' r]. destruct Ha as (_ & a & _ & _ & Hr). exists a. by apply Hr.
Defined.

(** ** The use cases on PostgreSQL *)

Definition sample_world : World (H4 := any_interference) N :=
  MkWorld (after (PostgresTransitAccountRepository.save (account_of 1) SaveCondition.MustNotExist)
             (fresh_session [] 100%N))
    (session_ok_call (PoolSaveAccount (account_of 1) SaveCondition.MustNotExist) _
       (fresh_session_ok _ _)).

Definition issue_sample : IssueFareCredentialCommand.t :=
  IssueFareCredentialCommand.mk (MkIdentifier (numbered_uuid 1)) FareCredentialKind.Card.

Definition issued_id : FareCredentialId := MkIdentifier (numbered_uuid 100).

Example sample_use_cases :
  let w1 := after (IssueFareCredentialService.execute (T := nat) issue_sample) sample_world in
  let activate := ActivateFareCredentialService.execute (ActivateFareCredentialCommand.mk issued_id) in
  let w2 := after activate w1 in
  let replace := ReplaceFareCredentialService.execute
    (ReplaceFareCredentialCommand.mk issued_id FareCredentialKind.Mobile) in
  outcome (IssueFareCredentialService.execute issue_sample) sample_world
    = Ok (IssuedFareCredential.mk issued_id (MkIdentifier (numbered_uuid 1)) FareCredentialKind.Card
            FareCredentialStatus.Pending)
  /\ outcome activate w1
    = Ok (ActivatedFareCredential.mk issued_id FareCredentialStatus.Pending
            FareCredentialStatus.Active true)
  /\ is_ok (outcome replace w2) = true
  /\ length (domain_events (committed (session (after replace w2)))) = 4%nat.
Proof. vm_compute. done. Qed.
